(* ===== verification/_CoqProject ===== *)
-Q . S2P
Prelude.v
BlockDev.v
Fat.v
FatLayout.v
FatAlloc.v
FatData.v
FatDir.v
FatVolume.v
FatOps.v
Vfs.v
FsTheorems.v
Abi.v
Uaccess.v
Mem.v
Paging.v
Elf.v
UserStack.v
Frame.v
Pci.v
VirtioBlk.v
VirtioTheorems.v
VirtioSim.v
VirtioNet.v
VirtioNetTheorems.v
VirtioNetOps.v
VirtioNetSim.v
PageTable.v
AddrSpace.v
ForkSpace.v
PageMap.v
Vga.v
Machine.v
Context.v
ContextTheorems.v
Sched.v
SchedInv.v
SchedOps.v
SchedTheorems.v
Faults.v
Console.v
Executor.v
Keyboard.v
Serial.v
NetStack.v
Dns.v
DnsTheorems.v
UserDns.v
Files.v
Paths.v
FilesInv.v
FilesOps.v
Dirents.v
Heap.v
FilesCalls.v
FilesTheorems.v
Utils.v
Clock.v
Smoltcp.v
Net.v
NetOps.v
NetSockets.v
NetTools.v
NetSim.v
NetTheorems.v
Syscall.v
Exec.v
ExecTheorems.v
LibcStr.v
LibcFmt.v
LibcIO.v
LibcSpec.v
LibcFmtSpec.v
LibcTheorems.v
Shell.v
ShellTheorems.v
ShellPipe.v
