(* ===== verification/Prelude.v ===== *)
(** * A verification of the ferros kernel

    ferros is a small x86-64 kernel in Rust ([src/src]) that runs user programs
    ([src/user]) with a Unix-like system-call interface over a FAT32 disk and a
    network card. This library translates its code into executable Rocq
    definitions and proves what they do.

    ** How the code is modelled

    A function that reads and writes a state [S] and returns [Result<A, E>] is a
    [prog S E A] (below): a state-passing function with the outcomes [Ret],
    [Fail], [Panic] (arithmetic overflow, index out of range, failed [expect] or
    [assert], store to an unmapped address) and [Diverge] (the fuel of a loop ran
    out). Machine integers are [Z] with their width written out: [u32_add] and
    the like panic on overflow as the dev profile does, and wrap-around is
    written where the code asks for it. [wp m Q X s] says that [m] from [s]
    returns with [Q] or fails with [X] and does not panic or diverge, so that
    theorems of that form are total; [wpp] also allows a panic, in a state that
    satisfies a third condition. Where an interrupt or another thread can come
    between two steps, the code is a step relation (the scheduler, the executor
    with the keyboard) or gives way to a [Threads] interface (the network layer).

    ** Parts, files and sources

    - File system. [BlockDev] (the interface of the block device; an instance
      with failing sectors), [Fat] (all of [fs/fat.rs]), [FatLayout], [FatAlloc],
      [FatData], [FatDir], [FatVolume], [FatOps] (the invariant of a volume, the
      abstract tree of files and the specification of each operation), [Vfs]
      ([fs/mod.rs]), [FsTheorems].
    - Devices. [Pci] ([arch/x86_64/io.rs], [arch/x86_64/pci.rs],
      [drivers/pci.rs]), [VirtioBlk] ([drivers/virtio_blk.rs]; [VirtioTheorems],
      and [VirtioSim], a simulated disk), [VirtioNet] ([drivers/virtio_net.rs];
      [VirtioNetTheorems], [VirtioNetOps], and [VirtioNetSim], a simulated card),
      [Serial] ([drivers/serial.rs]), [Vga] ([drivers/vga.rs]), [Console]
      ([drivers/console.rs]), [Keyboard] ([drivers/keyboard.rs]).
    - Memory. [Mem] (memory by bytes), [Frame] ([mm/frame.rs]), [PageTable] (the
      format of page tables), [AddrSpace] ([mm/addr_space.rs]), [ForkSpace],
      [PageMap] (an instance of the page-table crate's interface), [Paging] (the
      mapping functions of [mm/paging.rs]), [Uaccess] ([syscall/uaccess.rs] and
      the page walk of [mm/paging.rs]).
    - Processor and scheduler. [Machine] (registers, memory and the instructions
      the assembly uses), [Context] ([arch/x86_64/context.rs] and the trampolines
      of [arch/x86_64/syscall.rs], instruction by instruction),
      [ContextTheorems]; [Sched] ([sched/thread.rs]), [SchedInv], [SchedOps],
      [SchedTheorems]; [Faults] (the table and the exception handlers of
      [arch/x86_64/interrupts.rs]); [Executor] ([sched/mod.rs],
      [sched/executor.rs], [sched/simple_executor.rs]); [Clock] (its clock).
    - System calls. [Abi] ([syscall/abi.rs]), [Files] ([syscall/files.rs]: the
      state [Sys] of the whole system and every call on it), [Paths], [FilesInv],
      [FilesOps], [Dirents], [Heap], [FilesCalls], [FilesTheorems]; [Syscall]
      ([syscall/mod.rs], [syscall/time.rs], [syscall/sysinfo.rs] and the timer
      interrupt).
    - Programs. [Elf] ([syscall/elf.rs]), [UserStack] (argument vectors and the
      initial stack), [Exec] ([exec], [fork], [spawn_user] of
      [arch/x86_64/syscall.rs]), [ExecTheorems].
    - Network. [NetStack] (what the file calls use of sockets), [Dns]
      ([net/dns.rs]), [DnsTheorems], [Smoltcp] (the interface of the TCP/IP
      crate), [Net] ([net/mod.rs], [net/socket.rs]), [NetOps], [NetSockets],
      [NetTools], [NetSim] (a small stack), [NetTheorems].
    - User space. [LibcStr], [LibcFmt], [LibcIO] ([user/c/libc/libc.c]),
      [LibcSpec], [LibcFmtSpec], [LibcTheorems]; [UserDns] ([user/c/dns.h]);
      [Shell] ([user/hello/src/shell.rs]), [ShellTheorems], [ShellPipe]; [Utils]
      ([cat], [ls], [echo], [rm], [rmdir], [mkdir] of [user/hello/src]).

    The file system runs on the block interface that the disk driver is proved to
    implement; the scheduler runs on the processor model; the console wakes
    threads of the scheduler; [Files] composes the console, the scheduler, the
    user address space, the file system and the sockets into one state, and its
    calls use the operations of those parts as the code does; [Net] implements the
    socket interface over the card's driver. [Exec] puts the loader, the stack
    builder, the address spaces and the descriptor tables together. The programs
    of user space run on interfaces of their own, whose laws are what the calls
    are proved to do.

    Code that is not part of the repository, and hardware, is behind a type class
    whose laws state its documented behaviour, with an instance that shows them
    satisfiable: [BlockDev], [Mapper] and [OffsetPageTable] (the page-table
    crate), [PortIO] and [PciHost] (ports), [DmaDevice], [VirtioDisk] and
    [NetCard] (the devices), [Uart], [Smoltcp], [Ticking] (time passes), [Decoder]
    (the scancode crate), [Futures].

    ** What the theorems show

    - [FsTheorems]: each operation of the file system refines its abstract
      counterpart on a tree of files, on any device, faults included; data
      written is read back; reading terminates on any corrupt volume.
    - [VirtioTheorems], [VirtioNetSim]: the disk driver serves sectors exactly,
      and the card's driver delivers and sends frames in order, once and whole,
      whatever the device does in between. [Serial], [Vga], [Console]: bytes go
      out in order, the screen shows what was printed, and typed lines are
      delivered once and in order.
    - [Frame], [ForkSpace]: no frame is handed out twice; [fork] gives a copy in
      frames of its own, and taking a space down frees its frames and no others.
    - [ContextTheorems], [SchedTheorems], [Faults]: a switch saves and restores
      exactly the contexts it should, new and forked threads start where they
      should, the thread table stays well formed under any sequence of calls, with
      fairness and no lost wake-up, and a fault of a program ends that program.
    - [Executor], [Keyboard]: under any interleaving of interrupts the executor
      stays well formed and every accepted key is decoded once and in order; a
      burst of keys that panics it.
    - [Uaccess], [Elf], [UserStack], [ExecTheorems]: the kernel touches user
      memory only where it is mapped; the image and the stack of a program are
      exactly those of the file and its arguments; [exec] happens as a whole or
      not at all.
    - [FilesTheorems], [Paths]: every file call is safe in every reachable state
      with exact reference counts; closed files read back; directory listings,
      pipes, breaks and paths behave as specified; two calls that crash the
      kernel.
    - [NetTheorems], [DnsTheorems]: the socket operations keep the contract the
      file calls rely on; data is queued exactly; blocking calls end, with the
      error that says why; names are asked for and read as the format says.
    - [LibcTheorems], [UserDns], [ShellTheorems], [ShellPipe], [Utils]: [printf],
      [malloc] and the string functions are exact; the C clients' name service
      agrees with the kernel's; the shell runs the command its line says and
      plumbs pipelines; [ls] and [cat] print what there is.

    ** Bounds and fuel

    Loops over cluster chains carry the fuel of the number of clusters of the
    volume, as the code's own step counters do. The page walk has one step more
    than the pages of the range; strings stop at [PATH_MAX], argument vectors at
    [MAX_STR_ARRAY]; the loop of [getdents64] has the length of the listing. A
    loop of C over memory has the size of the memory, a loop over a buffer its
    length. A loop that ends by the clock, by a spin counter or when its input is
    used up is a [forever] with 2^128 turns, more than any 64-bit counter allows;
    [wp_forever] asks for a measure below that. The theorems show that the fuel is
    enough wherever the code terminates.

    ** Not modelled

    - [build.rs]: a host program that runs the compilers and formats the disk
      image with a crate; [main.rs] and [lib.rs]: the boot sequence, panic handlers
      and the test harness, each a list of calls of the parts above.
    - [mm/heap.rs]: the kernel heap is a crate; of it the size is used.
    - Instructions that program the processor once (descriptor tables,
      model-specific registers, [lidt], the PIC): the values that other parts rely
      on are in [Context], [Machine] and [Faults].
    - [wc.c] and the test programs under [user]: they compare calls of the
      modelled libraries and system calls with fixed values. *)

(** * Prelude *)

From stdpp Require Import base numbers list gmap.
From Corelib Require Export Init.Byte.
From Stdlib Require Import ZArith Lia.
From Stdlib Require Strings.Byte Strings.String.
Export String.StringSyntax.
Delimit Scope string_scope with string.

Declare Scope kernel_scope.
Delimit Scope kernel_scope with kernel.
Open Scope kernel_scope.
#[local] Open Scope Z_scope.

(** ** Outcomes and programs

    A Rust function that reads and writes a state [S] and returns
    [Result<A, E>] is a [prog S E A].  [Panic] is a Rust panic (an arithmetic
    overflow, an index out of range, a failed [expect]); [Diverge] is a loop
    that ran out of the fuel of its model. *)

Inductive res (E A : Type) : Type :=
| Ret (a : A)
| Fail (e : E)
| Panic
| Diverge.
Arguments Ret {E A} a.
Arguments Fail {E A} e.
Arguments Panic {E A}.
Arguments Diverge {E A}.

Definition prog (S E A : Type) : Type := S -> res E A * S.

Section Prog.
Context {S E : Type}.

Definition pret {A} (a : A) : prog S E A := fun s => (Ret a, s).

Definition pfail {A} (e : E) : prog S E A := fun s => (Fail e, s).

Definition ppanic {A} : prog S E A := fun s => (Panic, s).

Definition pdiverge {A} : prog S E A := fun s => (Diverge, s).

Definition pbind {A B} (m : prog S E A) (f : A -> prog S E B) : prog S E B :=
  fun s =>
    match m s with
    | (Ret a, s') => f a s'
    | (Fail e, s') => (Fail e, s')
    | (Panic, s') => (Panic, s')
    | (Diverge, s') => (Diverge, s')
    end.

(** [match m { Err(e) => h(e), ok => ok }] *)
Definition pcatch {A} (m : prog S E A) (h : E -> prog S E A) : prog S E A :=
  fun s =>
    match m s with
    | (Fail e, s') => h e s'
    | r => r
    end.

(** [let _ = m;]: the error is dropped, a panic is not. *)
Definition pignore {A} (m : prog S E A) : prog S E unit :=
  fun s =>
    match m s with
    | (Ret _, s') | (Fail _, s') => (Ret tt, s')
    | (Panic, s') => (Panic, s')
    | (Diverge, s') => (Diverge, s')
    end.

Definition pget : prog S E S := fun s => (Ret s, s).

Definition pput (s : S) : prog S E unit := fun _ => (Ret tt, s).

Definition pmodify (f : S -> S) : prog S E unit := fun s => (Ret tt, f s).

(** [o.unwrap()], and slice indexing: [None] is a panic. *)
Definition punwrap {A} (o : option A) : prog S E A :=
  match o with Some a => pret a | None => ppanic end.

(** A bounds check, or [assert!]. *)
Definition passert (b : bool) : prog S E unit :=
  if b then pret tt else ppanic.

(** [o.ok_or(e)?] *)
Definition pok_or {A} (o : option A) (e : E) : prog S E A :=
  match o with Some a => pret a | None => pfail e end.
End Prog.

(** [match m { Ok(a) => .., Err(e) => .. }]: the result as a value. *)
Definition ptry {S E E' A} (m : prog S E A) : prog S E' (A + E) :=
  fun s =>
    match m s with
    | (Ret a, s') => (Ret (inl a), s')
    | (Fail e, s') => (Ret (inr e), s')
    | (Panic, s') => (Panic, s')
    | (Diverge, s') => (Diverge, s')
    end.

(** A program on a part of the state. *)
Definition pzoom {S T E A} (get : T -> S) (set : S -> T -> T) (m : prog S E A) : prog T E A :=
  fun t => let '(r, s') := m (get t) in (r, set s' t).

(** [result.map_err(f)?] *)
Definition pmap_err {S E E' A} (f : E -> E') (m : prog S E A) : prog S E' A :=
  fun s =>
    match m s with
    | (Ret a, s') => (Ret a, s')
    | (Fail e, s') => (Fail (f e), s')
    | (Panic, s') => (Panic, s')
    | (Diverge, s') => (Diverge, s')
    end.

Notation "'let!' x ':=' m 'in' k" := (pbind m (fun x => k))
  (at level 10, x name, m at level 100, k at level 200,
   format "'[v' 'let!'  x  ':='  m  'in' '/' k ']'") : kernel_scope.
Notation "'let!' ' p ':=' m 'in' k" := (pbind m (fun x => match x with p => k end))
  (at level 10, p pattern, m at level 100, k at level 200,
   format "'[v' 'let!'  ' p  ':='  m  'in' '/' k ']'") : kernel_scope.
Notation "m ;;! k" := (pbind m (fun _ => k))
  (at level 100, right associativity, format "'[v' m  ';;!' '/' k ']'") : kernel_scope.

(** The loop [for x in l { body }] with an accumulator. *)
Fixpoint pfold {S E A B} (body : B -> A -> prog S E B) (l : list A) (b : B) : prog S E B :=
  match l with
  | [] => pret b
  | x :: l' => let! b' := body b x in pfold body l' b'
  end.

(** A loop of at most [p] turns; a turn goes on with a new value or ends. *)
Fixpoint ploop {S E X A} (p : positive) (body : X -> prog S E (X + A)) (x : X) : prog S E (X + A) :=
  match p with
  | xH => body x
  | xO q => let! r := ploop q body x in match r with inl y => ploop q body y | inr a => pret (inr a) end
  | xI q =>
      let! r := body x in
      match r with
      | inl y => let! r := ploop q body y in match r with inl z => ploop q body z | inr a => pret (inr a) end
      | inr a => pret (inr a)
      end
  end.

(** [loop]: more turns than any clock or counter of the code allows. *)
Definition FUEL : positive := (2 ^ 128)%positive.

Definition forever {S E X A} (body : X -> prog S E (X + A)) (x : X) : prog S E A :=
  let! r := ploop FUEL body x in match r with inl _ => pdiverge | inr a => pret a end.

(** ** Fixed-width integers

    A [uN] is a [Z] in [0, 2^N).  The kernel is built with the dev profile,
    whose overflow checks make [+], [-] and [*] panic. *)

Definition U8 : Z := 2 ^ 8.
Definition U16 : Z := 2 ^ 16.
Definition U32 : Z := 2 ^ 32.
Definition U64 : Z := 2 ^ 64.

Definition in_width (w z : Z) : Prop := 0 <= z < w.

Section CheckedArith.
Context {S E : Type}.

Definition checked (w z : Z) : option Z :=
  if (0 <=? z) && (z <? w) then Some z else None.

Definition u32_add (a b : Z) : prog S E Z := punwrap (checked U32 (a + b)).

Definition u32_sub (a b : Z) : prog S E Z := punwrap (checked U32 (a - b)).

Definition u32_mul (a b : Z) : prog S E Z := punwrap (checked U32 (a * b)).

Definition u64_add (a b : Z) : prog S E Z := punwrap (checked U64 (a + b)).

Definition u64_sub (a b : Z) : prog S E Z := punwrap (checked U64 (a - b)).

Definition u64_mul (a b : Z) : prog S E Z := punwrap (checked U64 (a * b)).
End CheckedArith.

(** [a.div_ceil(b)] on a [usize]. *)
Definition div_ceil (a b : nat) : nat := ((a + b - 1) / b)%nat.

(** ** Bytes and byte order *)

Definition b2z (b : byte) : Z := Z.of_N (Byte.to_N b).

Definition z2b (z : Z) : byte :=
  match Byte.of_N (Z.to_N (z mod 256)) with Some b => b | None => x00 end.

(** [from_le_bytes] and [to_le_bytes], for any width. *)
Fixpoint from_le (l : list byte) : Z :=
  match l with
  | [] => 0
  | b :: l' => b2z b + 256 * from_le l'
  end.

Fixpoint to_le (n : nat) (z : Z) : list byte :=
  match n with
  | O => []
  | S n' => z2b z :: to_le n' (z / 256)
  end.

Definition from_be (l : list byte) : Z := from_le (rev l).

Definition to_be (n : nat) (z : Z) : list byte := rev (to_le n z).

(** [l[off..off + len]], total: callers guard the bounds. *)
Definition slice {A} (l : list A) (off len : nat) : list A := take len (drop off l).

(** [l[off..off + src.len()].copy_from_slice(src)] *)
Definition splice {A} (l : list A) (off : nat) (src : list A) : list A :=
  take off l ++ src ++ drop (off + length src) l.

(** The byte at [i], as a number; an array of a known length is never indexed
    past its end. *)
Definition u8_at (l : list byte) (i : nat) : Z := b2z (default x00 (l !! i)).

Definition zeros (n : nat) : list byte := replicate n x00.

Definition byte_eqb (a b : byte) : bool := Byte.eqb a b.

#[export] Instance byte_eq_dec : EqDecision byte := Byte.byte_eq_dec.

Fixpoint bytes_eqb (a b : list byte) : bool :=
  match a, b with
  | [], [] => true
  | x :: a', y :: b' => Byte.eqb x y && bytes_eqb a' b'
  | _, _ => false
  end.

(** A string literal as its bytes. *)
Definition bs (s : String.string) : list byte := String.list_byte_of_string s.
Arguments bs s%_string.

(** ** Strings

    A [&str] is the list of its UTF-8 bytes; the separators the kernel splits
    on are ASCII, so splitting bytes is splitting characters. *)

(** [s.split(c)]: never empty. *)
Fixpoint split_on (c : byte) (l : list byte) : list (list byte) :=
  match l with
  | [] => [[]]
  | x :: l' =>
      if Byte.eqb x c then [] :: split_on c l'
      else match split_on c l' with
           | [] => [[x]]
           | w :: ws => (x :: w) :: ws
           end
  end.

(** [s.splitn(2, c)]: the part before the first [c], and the part after it. *)
Fixpoint split_once (c : byte) (l : list byte) : list byte * option (list byte) :=
  match l with
  | [] => ([], None)
  | x :: l' =>
      if Byte.eqb x c then ([], Some l')
      else let '(a, b) := split_once c l' in (x :: a, b)
  end.

Fixpoint trim_start_byte (c : byte) (l : list byte) : list byte :=
  match l with
  | x :: l' => if Byte.eqb x c then trim_start_byte c l' else l
  | [] => []
  end.

(** [s.trim_matches(c)] *)
Definition trim_matches (c : byte) (l : list byte) : list byte :=
  rev (trim_start_byte c (rev (trim_start_byte c l))).

(** [u8::to_ascii_uppercase] *)
Definition to_ascii_uppercase (b : byte) : byte :=
  let z := b2z b in
  if (97 <=? z) && (z <=? 122) then z2b (z - 32) else b.

(** [core::str::from_utf8(..).is_ok()]: the well-formed byte sequences of the
    Unicode standard. *)
Definition is_cont (b : byte) : bool := (128 <=? b2z b) && (b2z b <=? 191).

Definition in_range (lo hi : Z) (b : byte) : bool := (lo <=? b2z b) && (b2z b <=? hi).

Fixpoint utf8_ok (l : list byte) : bool :=
  match l with
  | [] => true
  | b0 :: l1 =>
      if in_range 0 127 b0 then utf8_ok l1
      else if in_range 194 223 b0 then
        match l1 with
        | b1 :: l2 => is_cont b1 && utf8_ok l2
        | _ => false
        end
      else if in_range 224 239 b0 then
        match l1 with
        | b1 :: b2 :: l3 =>
            in_range (if b2z b0 =? 224 then 160 else 128)
                     (if b2z b0 =? 237 then 159 else 191) b1
            && is_cont b2 && utf8_ok l3
        | _ => false
        end
      else if in_range 240 244 b0 then
        match l1 with
        | b1 :: b2 :: b3 :: l4 =>
            in_range (if b2z b0 =? 240 then 144 else 128)
                     (if b2z b0 =? 244 then 143 else 191) b1
            && is_cont b2 && is_cont b3 && utf8_ok l4
        | _ => false
        end
      else false
  end.

(** [s.trim_end()]: trailing characters with the Unicode property White_Space
    are dropped; the argument is reversed, so each pattern is a reversed UTF-8
    encoding. *)
Definition ws3 (b2 b1 b0 : byte) : bool :=
  match b0, b1 with
  | xe1, x9a => Byte.eqb b2 x80
  | xe2, x80 => in_range 128 138 b2 || Byte.eqb b2 xa8 || Byte.eqb b2 xa9 || Byte.eqb b2 xaf
  | xe2, x81 => Byte.eqb b2 x9f
  | xe3, x80 => Byte.eqb b2 x80
  | _, _ => false
  end.

Fixpoint trim_ws_rev (l : list byte) : list byte :=
  match l with
  | [] => []
  | a :: l1 =>
      if in_range 9 13 a || Byte.eqb a x20 then trim_ws_rev l1
      else match l1 with
           | xc2 :: l2 => if Byte.eqb a x85 || Byte.eqb a xa0 then trim_ws_rev l2 else l
           | b :: c :: l3 => if ws3 a b c then trim_ws_rev l3 else l
           | _ => l
           end
  end.

Definition trim_end (l : list byte) : list byte := rev (trim_ws_rev (rev l)).

(** ** Specifications of programs

    [wp m Q X s]: run from [s], [m] neither panics nor diverges; it returns a
    value that satisfies [Q] or an error that satisfies [X]. *)

Definition wp {S E A} (m : prog S E A) (Q : A -> S -> Prop) (X : E -> S -> Prop) (s : S) : Prop :=
  match m s with
  | (Ret a, s') => Q a s'
  | (Fail e, s') => X e s'
  | (Panic, _) => False
  | (Diverge, _) => False
  end.

(** The same, with a condition [P] on the state at a panic. *)
Definition wpp {S E A} (m : prog S E A) (Q : A -> S -> Prop) (X : E -> S -> Prop) (P : S -> Prop) (s : S) : Prop :=
  match m s with
  | (Ret a, s') => Q a s'
  | (Fail e, s') => X e s'
  | (Panic, s') => P s'
  | (Diverge, _) => False
  end.

(** * Lemmas *)

Create HintDb kernel discriminated.
Create HintDb wp discriminated.

(** Case analysis on the innermost [match] of the goal. *)
Ltac case_goal :=
  match goal with
  | |- context [match ?x with _ => _ end] =>
      lazymatch x with
      | context [match _ with _ => _ end] => fail
      | _ => let E := fresh "E" in destruct x eqn:E
      end
  end.

(** Turns the boolean comparisons of a hypothesis into propositions. *)
Ltac zbool :=
  repeat match goal with
  | H : (_ && _)%bool = true |- _ => apply andb_true_iff in H as [? ?]
  | H : (_ && _)%bool = false |- _ => apply andb_false_iff in H
  | H : (_ || _)%bool = true |- _ => apply orb_true_iff in H
  | H : (_ || _)%bool = false |- _ => apply orb_false_iff in H as [? ?]
  | H : negb _ = true |- _ => apply negb_true_iff in H
  | H : negb _ = false |- _ => apply negb_false_iff in H
  | H : (_ <? _) = true |- _ => apply Z.ltb_lt in H
  | H : (_ <? _) = false |- _ => apply Z.ltb_ge in H
  | H : (_ <=? _) = true |- _ => apply Z.leb_le in H
  | H : (_ <=? _) = false |- _ => apply Z.leb_gt in H
  | H : (_ =? _) = true |- _ => apply Z.eqb_eq in H
  | H : (_ =? _) = false |- _ => apply Z.eqb_neq in H
  | H : (_ <? _)%nat = true |- _ => apply Nat.ltb_lt in H
  | H : (_ <? _)%nat = false |- _ => apply Nat.ltb_ge in H
  | H : (_ <=? _)%nat = true |- _ => apply Nat.leb_le in H
  | H : (_ <=? _)%nat = false |- _ => apply Nat.leb_gt in H
  | H : (_ =? _)%nat = true |- _ => apply Nat.eqb_eq in H
  | H : (_ =? _)%nat = false |- _ => apply Nat.eqb_neq in H
  end.

(** ** Programs *)

Section WpLemmas.
Context {S E : Type}.
Implicit Types s : S.

Lemma wp_ret {A} (a : A) (Q : A -> S -> Prop) (X : E -> S -> Prop) s :
  Q a s -> wp (pret a) Q X s.
Proof. done. Qed.

Lemma wp_fail {A} e (Q : A -> S -> Prop) (X : E -> S -> Prop) s :
  X e s -> wp (pfail e) Q X s.
Proof. done. Qed.

Lemma pbind_ret {A B} (a : A) (f : A -> prog S E B) : pbind (pret a) f = f a.
Proof. done. Qed.

Lemma pbind_step {A B} (m : prog S E A) (f : A -> prog S E B) s a s' : m s = (Ret a, s') -> pbind m f s = f a s'.
Proof. unfold pbind. by intros ->. Qed.

Lemma wp_bind {A B} (m : prog S E A) (f : A -> prog S E B) Q X s :
  wp m (fun a s' => wp (f a) Q X s') X s -> wp (pbind m f) Q X s.
Proof. unfold wp, pbind. by destruct (m s) as [[]]. Qed.

Lemma wp_bind_inv {A B} (m : prog S E A) (f : A -> prog S E B) Q X s :
  wp (pbind m f) Q X s -> wp m (fun a s' => wp (f a) Q X s') X s.
Proof. unfold wp, pbind. by destruct (m s) as [[]]. Qed.

Lemma wp_mono {A} (m : prog S E A) (Q Q' : A -> S -> Prop) (X X' : E -> S -> Prop) s :
  wp m Q X s -> (forall a s', Q a s' -> Q' a s') -> (forall e s', X e s' -> X' e s') ->
  wp m Q' X' s.
Proof. unfold wp. destruct (m s) as [[]]; naive_solver. Qed.

Lemma wp_conj {A} (m : prog S E A) (Q Q' : A -> S -> Prop) (X X' : E -> S -> Prop) s :
  wp m Q X s -> wp m Q' X' s ->
  wp m (fun a s' => Q a s' /\ Q' a s') (fun e s' => X e s' /\ X' e s') s.
Proof. unfold wp. by destruct (m s) as [[]]. Qed.

Lemma wpp_bind {A B} (m : prog S E A) (f : A -> prog S E B) Q X P s :
  wpp m (fun a s' => wpp (f a) Q X P s') X P s -> wpp (pbind m f) Q X P s.
Proof. unfold wpp, pbind. by destruct (m s) as [[]]. Qed.

Lemma wpp_mono {A} (m : prog S E A) (Q Q' : A -> S -> Prop) (X X' : E -> S -> Prop) (P P' : S -> Prop) s :
  wpp m Q X P s -> (forall a s', Q a s' -> Q' a s') -> (forall e s', X e s' -> X' e s') ->
  (forall s', P s' -> P' s') -> wpp m Q' X' P' s.
Proof. unfold wpp. destruct (m s) as [[]]; naive_solver. Qed.

Lemma wpp_step {A} (m : prog S E A) (Q : A -> S -> Prop) X P s a s' : m s = (Ret a, s') -> Q a s' -> wpp m Q X P s.
Proof. unfold wpp. by intros ->. Qed.

Lemma wpp_wp {A} (m : prog S E A) Q X P s : wp m Q X s -> wpp m Q X P s.
Proof. unfold wp, wpp. by destruct (m s) as [[]]. Qed.

Lemma wpp_no_panic {A} (m : prog S E A) Q X s : wpp m Q X (fun _ => False) s -> wp m Q X s.
Proof. unfold wp, wpp. by destruct (m s) as [[]]. Qed.

Lemma wp_catch {A} (m : prog S E A) h Q X s :
  wp m Q (fun e s' => wp (h e) Q X s') s -> wp (pcatch m h) Q X s.
Proof. unfold wp, pcatch. by destruct (m s) as [[]]. Qed.

Lemma wp_ignore {A} (m : prog S E A) (Q : unit -> S -> Prop) (X : E -> S -> Prop) s :
  wp m (fun _ s' => Q tt s') (fun _ s' => Q tt s') s -> wp (pignore m) Q X s.
Proof. unfold wp, pignore. by destruct (m s) as [[]]. Qed.

Lemma wp_unwrap {A} (o : option A) a (Q : A -> S -> Prop) (X : E -> S -> Prop) s :
  o = Some a -> Q a s -> wp (punwrap o) Q X s.
Proof. by intros -> ?. Qed.

Lemma wp_assert b (Q : unit -> S -> Prop) (X : E -> S -> Prop) s :
  b = true -> Q tt s -> wp (passert b) Q X s.
Proof. by intros -> ?. Qed.

Lemma wp_ok_or {A} (o : option A) e (Q : A -> S -> Prop) (X : E -> S -> Prop) s :
  (forall a, o = Some a -> Q a s) -> (o = None -> X e s) -> wp (pok_or o e) Q X s.
Proof. destruct o; naive_solver. Qed.

Lemma wp_ret_inv {A} (m : prog S E A) Q X s a s' :
  wp m Q X s -> m s = (Ret a, s') -> Q a s'.
Proof. unfold wp. intros H Heq. by rewrite Heq in H. Qed.

(** A program that cannot fail returns. *)
Lemma wp_total {A} (m : prog S E A) (Q : A -> S -> Prop) s :
  wp m Q (fun _ _ => False) s -> exists a s', m s = (Ret a, s') /\ Q a s'.
Proof. unfold wp. destruct (m s) as [[a|e| |] s']; [|done..]. intros H. by exists a, s'. Qed.

Lemma wp_try {E' A} (m : prog S E A) (Q : A + E -> S -> Prop) (X : E' -> S -> Prop) s :
  wp m (fun a s' => Q (inl a) s') (fun e s' => Q (inr e) s') s -> wp (ptry m) Q X s.
Proof. unfold wp, ptry. by destruct (m s) as [[]]. Qed.

Lemma wp_zoom {T A} (get : T -> S) (set : S -> T -> T) (m : prog S E A)
    (Q : A -> T -> Prop) (X : E -> T -> Prop) t :
  wp m (fun a s' => Q a (set s' t)) (fun e s' => X e (set s' t)) (get t) -> wp (pzoom get set m) Q X t.
Proof. unfold wp, pzoom. by destruct (m (get t)) as [[] s']. Qed.

Lemma wp_map_err {E' A} (f : E -> E') (m : prog S E A) (Q : A -> S -> Prop) (X : E' -> S -> Prop) s :
  wp m Q (fun e s' => X (f e) s') s -> wp (pmap_err f m) Q X s.
Proof. unfold wp, pmap_err. by destruct (m s) as [[]]. Qed.

Lemma wpp_try {E' A} (m : prog S E A) (Q : A + E -> S -> Prop) (X : E' -> S -> Prop) P s :
  wpp m (fun a s' => Q (inl a) s') (fun e s' => Q (inr e) s') P s -> wpp (ptry m) Q X P s.
Proof. unfold wpp, ptry. by destruct (m s) as [[] ?]. Qed.

Lemma wpp_zoom {T A} (get : T -> S) (set : S -> T -> T) (m : prog S E A)
    (Q : A -> T -> Prop) (X : E -> T -> Prop) P t :
  wpp m (fun a s' => Q a (set s' t)) (fun e s' => X e (set s' t)) (fun s' => P (set s' t)) (get t) ->
  wpp (pzoom get set m) Q X P t.
Proof. unfold wpp, pzoom. by destruct (m (get t)) as [[] ?]. Qed.

Lemma wp_get (Q : S -> S -> Prop) (X : E -> S -> Prop) s : Q s s -> wp pget Q X s.
Proof. done. Qed.

Lemma wp_modify f (Q : unit -> S -> Prop) (X : E -> S -> Prop) s : Q tt (f s) -> wp (pmodify f) Q X s.
Proof. done. Qed.

Lemma wp_put s0 (Q : unit -> S -> Prop) (X : E -> S -> Prop) s : Q tt s0 -> wp (pput s0) Q X s.
Proof. done. Qed.

Lemma checked_spec w z : in_width w z -> checked w z = Some z.
Proof.
  unfold checked, in_width. intros.
  by rewrite (proj2 (Z.leb_le 0 z)), (proj2 (Z.ltb_lt z w)) by lia.
Qed.

Lemma checked_Some w z y : checked w z = Some y -> y = z.
Proof. unfold checked. destruct (_ && _); [by intros [= <-]|done]. Qed.

Lemma checked_None w z : checked w z = None <-> ~ in_width w z.
Proof.
  unfold checked, in_width. destruct (0 <=? z) eqn:?, (z <? w) eqn:?; simpl; zbool;
    split; intros; (done || lia).
Qed.

Lemma u32_add_ok a b : in_width U32 (a + b) -> @u32_add S E a b = pret (a + b).
Proof. intros. unfold u32_add. by rewrite checked_spec. Qed.

Lemma u32_sub_ok a b : in_width U32 (a - b) -> @u32_sub S E a b = pret (a - b).
Proof. intros. unfold u32_sub. by rewrite checked_spec. Qed.

Lemma u32_mul_ok a b : in_width U32 (a * b) -> @u32_mul S E a b = pret (a * b).
Proof. intros. unfold u32_mul. by rewrite checked_spec. Qed.

Lemma wp_u32_add a b (Q : Z -> S -> Prop) (X : E -> S -> Prop) s :
  in_width U32 (a + b) -> Q (a + b) s -> wp (u32_add a b) Q X s.
Proof. intros ? ?. eapply wp_unwrap; [by apply checked_spec|done]. Qed.

Lemma wp_u32_sub a b (Q : Z -> S -> Prop) (X : E -> S -> Prop) s :
  in_width U32 (a - b) -> Q (a - b) s -> wp (u32_sub a b) Q X s.
Proof. intros ? ?. eapply wp_unwrap; [by apply checked_spec|done]. Qed.

Lemma wp_u32_mul a b (Q : Z -> S -> Prop) (X : E -> S -> Prop) s :
  in_width U32 (a * b) -> Q (a * b) s -> wp (u32_mul a b) Q X s.
Proof. intros ? ?. eapply wp_unwrap; [by apply checked_spec|done]. Qed.

(** A [for] loop over a range keeps an invariant indexed by the position. *)
Lemma wpp_pfold_range {B} (body : B -> Z -> prog S E B) (I : Z -> B -> S -> Prop) X P lo n b s :
  0 <= n ->
  I lo b s ->
  (forall k b s, lo <= k < lo + n -> I k b s -> wpp (body b k) (fun b' s' => I (k + 1) b' s') X P s) ->
  wpp (pfold body (seqZ lo n) b) (fun b' s' => I (lo + n) b' s') X P s.
Proof.
  intros Hn. rewrite <- (Z2Nat.id n) by done. generalize (Z.to_nat n) as m. clear n Hn.
  intros m. revert lo b s. induction m as [|m IH]; intros lo b s HI Hstep.
  - rewrite Z.add_0_r. by apply wpp_wp, wp_ret.
  - rewrite seqZ_cons by lia. apply wpp_bind.
    eapply wpp_mono; [apply Hstep; [lia|done]| |done|done]. intros b' s' HI'.
    replace (lo + Z.of_nat (Datatypes.S m)) with (Z.succ lo + Z.of_nat m) by lia.
    replace (Z.pred (Z.of_nat (Datatypes.S m))) with (Z.of_nat m) by lia.
    apply IH; [done|]. intros. apply Hstep; [lia|done].
Qed.

Lemma wp_pfold_range {B} (body : B -> Z -> prog S E B) (I : Z -> B -> S -> Prop) X lo n b s :
  0 <= n ->
  I lo b s ->
  (forall k b s, lo <= k < lo + n -> I k b s -> wp (body b k) (fun b' s' => I (k + 1) b' s') X s) ->
  wp (pfold body (seqZ lo n) b) (fun b' s' => I (lo + n) b' s') X s.
Proof.
  intros Hn HI Hstep. apply wpp_no_panic, wpp_pfold_range; [done..|]. intros k b' s' Hk HI'.
  by apply wpp_wp, Hstep.
Qed.

Lemma wp_pfold_seq {B} (body : B -> nat -> prog S E B) (I : nat -> B -> S -> Prop) X lo n b s :
  I lo b s ->
  (forall k b s, (lo <= k < lo + n)%nat -> I k b s ->
                 wp (body b k) (fun b' s' => I (Datatypes.S k) b' s') X s) ->
  wp (pfold body (seq lo n) b) (fun b' s' => I (lo + n)%nat b' s') X s.
Proof.
  revert lo b s. induction n as [|n IH]; intros lo b s HI Hstep.
  - rewrite Nat.add_0_r. by apply wp_ret.
  - cbn [seq pfold]. apply wp_bind. eapply wp_mono; [apply Hstep; [lia|done]| |done].
    intros b' s' HI'. rewrite <- Nat.add_succ_comm. apply IH; [done|].
    intros. apply Hstep; [lia|done].
Qed.
End WpLemmas.

(** ** Loops *)

Section Loops.
Context {S E X A : Type} (body : X -> prog S E (X + A)).
Context (I : X -> S -> Prop) (measure : X -> S -> Z) (Q : A -> S -> Prop) (F : E -> S -> Prop).
Context (Hbody : forall x s, I x s ->
  wp (body x) (fun r s' => match r with inl y => I y s' /\ measure y s' < measure x s | inr a => Q a s' end) F s).

Lemma wp_ploop p x s : I x s ->
  wp (ploop p body x) (fun r s' => match r with inl y => I y s' /\ measure y s' + Zpos p <= measure x s | inr a => Q a s' end) F s.
Proof.
  revert x s. induction p as [p IH|p IH|]; intros x s HI; cbn [ploop].
  - apply wp_bind. eapply wp_mono; [by apply Hbody| |done]. intros [y|a] s1 H1; [|by apply wp_ret]. destruct H1 as [H1 M1].
    apply wp_bind. eapply wp_mono; [by apply IH| |done]. intros [z|a] s2 H2; [|by apply wp_ret]. destruct H2 as [H2 M2].
    eapply wp_mono; [by apply IH| |done]. intros [t|a] s3 H3; [|done]. destruct H3 as [H3 M3]. split; [done|]. lia.
  - apply wp_bind. eapply wp_mono; [by apply IH| |done]. intros [z|a] s2 H2; [|by apply wp_ret]. destruct H2 as [H2 M2].
    eapply wp_mono; [by apply IH| |done]. intros [t|a] s3 H3; [|done]. destruct H3 as [H3 M3]. split; [done|]. lia.
  - eapply wp_mono; [by apply Hbody| |done]. intros [t|a] s3 H3; [|done]. destruct H3 as [H3 M3]. split; [done|]. lia.
Qed.

Lemma wp_forever x s : (forall x s, I x s -> 0 <= measure x s) -> I x s -> measure x s < 2 ^ 128 -> wp (forever body x) Q F s.
Proof.
  intros Hpos HI Hm. apply wp_bind. eapply wp_mono; [by apply wp_ploop| |done]. intros [y|a] s' H; [|by apply wp_ret].
  destruct H as [H1 H2]. specialize (Hpos y s' H1). change (Zpos FUEL) with (2 ^ 128) in H2. lia.
Qed.
End Loops.

(** ** Bits *)

Lemma lor_shiftl_add a b n : 0 <= n -> 0 <= b < 2 ^ n -> Z.lor (Z.shiftl a n) b = a * 2 ^ n + b.
Proof.
  intros Hn Hb. assert (Z.land (Z.shiftl a n) b = 0) as E.
  { apply Z.bits_inj'. intros i Hi. rewrite Z.land_spec, Z.bits_0.
    destruct (Z.ltb_spec i n); [by rewrite Z.shiftl_spec_low|].
    rewrite <- (Z.mod_small b (2 ^ n)), Z.mod_pow2_bits_high by lia. by rewrite andb_false_r. }
  rewrite <- Z.shiftl_mul_pow2, Z.add_nocarry_lxor, Z.lxor_lor by done. done.
Qed.

(** ** Bytes *)

Lemma b2z_range b : 0 <= b2z b < 256.
Proof. unfold b2z. pose proof (Byte.to_N_bounded b). lia. Qed.
#[export] Hint Resolve b2z_range : kernel.

Lemma b2z_z2b z : b2z (z2b z) = z mod 256.
Proof.
  unfold b2z, z2b. pose proof (Z.mod_pos_bound z 256 ltac:(lia)).
  destruct (Byte.of_N (Z.to_N (z mod 256))) as [b|] eqn:E.
  - apply Byte.to_of_N in E. rewrite E. lia.
  - apply Byte.of_N_None_iff in E. lia.
Qed.

Lemma z2b_b2z b : z2b (b2z b) = b.
Proof.
  unfold z2b. pose proof (b2z_range b). rewrite Z.mod_small by lia.
  unfold b2z. rewrite N2Z.id, Byte.of_to_N. done.
Qed.

Lemma b2z_inj a b : b2z a = b2z b -> a = b.
Proof. intros H. by rewrite <- (z2b_b2z a), <- (z2b_b2z b), H. Qed.

Lemma byte_eqb_eq a b : Byte.eqb a b = true <-> a = b.
Proof. split; [apply Byte.byte_dec_bl | intros ->; apply Byte.byte_dec_lb; done]. Qed.

Lemma byte_eqb_neq a b : Byte.eqb a b = false <-> a <> b.
Proof. rewrite <- byte_eqb_eq. by destruct (Byte.eqb a b). Qed.

Lemma bytes_eqb_eq a b : bytes_eqb a b = true <-> a = b.
Proof.
  revert b; induction a as [|x a IH]; intros [|y b]; simpl; try done.
  rewrite andb_true_iff, byte_eqb_eq, IH.
  split; [by intros [-> ->] | by intros [= -> ->]].
Qed.

Lemma bytes_eqb_refl a : bytes_eqb a a = true.
Proof. by apply bytes_eqb_eq. Qed.

Lemma split_on_nonempty c l : split_on c l <> [].
Proof.
  destruct l as [|x l]; cbn [split_on]; [done|].
  destruct (Byte.eqb x c); [done|]. by destruct (split_on c l).
Qed.

(** ** Byte order *)

Lemma length_to_le n z : length (to_le n z) = n.
Proof. revert z; induction n; simpl; auto. Qed.

Lemma from_le_range l : 0 <= from_le l < 256 ^ Z.of_nat (length l).
Proof.
  induction l as [|b l IH]; [simpl; lia|].
  cbn [from_le length]. pose proof (b2z_range b).
  rewrite Nat2Z.inj_succ, Z.pow_succ_r by lia. lia.
Qed.

Lemma from_to_le n z : from_le (to_le n z) = z mod 256 ^ Z.of_nat n.
Proof.
  revert z; induction n as [|n IH]; intros z; [by rewrite Z.mod_1_r|].
  cbn [to_le from_le]. rewrite IH, b2z_z2b, Nat2Z.inj_succ, Z.pow_succ_r by lia.
  rewrite Z.rem_mul_r by lia. lia.
Qed.

Lemma to_from_le l : to_le (length l) (from_le l) = l.
Proof.
  induction l as [|b l IH]; [done|]. cbn [to_le from_le length].
  pose proof (b2z_range b). f_equal.
  - unfold z2b. rewrite (Z.mul_comm 256), Z_mod_plus_full. apply z2b_b2z.
  - rewrite (Z.mul_comm 256), Z.div_add, Z.div_small by lia. done.
Qed.

Lemma from_to_be n z : from_be (to_be n z) = z mod 256 ^ Z.of_nat n.
Proof. unfold from_be, to_be. by rewrite rev_involutive, from_to_le. Qed.

Lemma length_to_be n z : length (to_be n z) = n.
Proof. unfold to_be. by rewrite length_rev, length_to_le. Qed.

Lemma from_le_zeros n : from_le (zeros n) = 0.
Proof. induction n; [done|]. unfold zeros in *. cbn [replicate from_le]. rewrite IHn. done. Qed.

(** ** Bits *)

Lemma lt_pow2_log2 a n : 0 <= a -> 0 < n -> (a < 2 ^ n <-> Z.log2 a < n).
Proof.
  intros. destruct (Z.eq_dec a 0) as [->|]; [|apply Z.log2_lt_pow2; lia].
  change (Z.log2 0) with 0. split; [lia|]. intros. apply Z.pow_pos_nonneg; lia.
Qed.

Lemma land_bound a b n : 0 < n -> 0 <= a -> 0 <= b < 2 ^ n -> 0 <= Z.land a b < 2 ^ n.
Proof.
  intros Hn Ha [Hb Hb']. assert (0 <= Z.land a b) by (apply Z.land_nonneg; lia). split; [done|].
  apply lt_pow2_log2 in Hb'; [|lia..]. apply lt_pow2_log2; [done..|].
  pose proof (Z.log2_land a b Ha Hb). lia.
Qed.

Lemma lor_bound a b n : 0 < n -> 0 <= a < 2 ^ n -> 0 <= b < 2 ^ n -> 0 <= Z.lor a b < 2 ^ n.
Proof.
  intros Hn [Ha Ha'] [Hb Hb']. assert (0 <= Z.lor a b) by (apply Z.lor_nonneg; lia). split; [done|].
  apply lt_pow2_log2 in Ha', Hb'; [|lia..]. apply lt_pow2_log2; [done..|].
  rewrite Z.log2_lor by lia. lia.
Qed.

(** ** Slices *)

Section Slices.
Context {A : Type}.
Implicit Types l src : list A.

Lemma length_slice l off len : (off + len <= length l)%nat -> length (slice l off len) = len.
Proof. intros. unfold slice. rewrite length_take, length_drop. lia. Qed.

Lemma length_splice l off src :
  (off + length src <= length l)%nat -> length (splice l off src) = length l.
Proof.
  intros. unfold splice. rewrite !length_app, length_take, length_drop. lia.
Qed.

Lemma length_splice_eq l off src n :
  length l = n -> (off + length src <= n)%nat -> length (splice l off src) = n.
Proof. intros <- Hs. by apply length_splice. Qed.

Lemma slice_splice_same l off src :
  (off <= length l)%nat -> slice (splice l off src) off (length src) = src.
Proof.
  intros. unfold slice, splice.
  rewrite drop_app_length' by (rewrite length_take; lia). by rewrite take_app_length.
Qed.

Lemma slice_splice_eq l off src n :
  n = length src -> (off <= length l)%nat -> slice (splice l off src) off n = src.
Proof. intros ->. apply slice_splice_same. Qed.

Lemma slice_splice_before l off src o n :
  (o + n <= off)%nat -> (off <= length l)%nat -> slice (splice l off src) o n = slice l o n.
Proof.
  intros. unfold slice, splice.
  rewrite drop_app_le by (rewrite length_take; lia).
  rewrite take_app_le by (rewrite length_drop, length_take; lia).
  rewrite <- (take_drop off l) at 2. rewrite drop_app_le by (rewrite length_take; lia).
  rewrite take_app_le by (rewrite length_drop, length_take; lia). done.
Qed.

Lemma slice_splice_after l off src o n :
  (off + length src <= o)%nat -> (off <= length l)%nat ->
  slice (splice l off src) o n = slice l o n.
Proof.
  intros. unfold slice, splice. f_equal.
  rewrite drop_app_ge by (rewrite length_take; lia).
  rewrite drop_app_ge by (rewrite length_take; lia). rewrite drop_drop, length_take.
  f_equal. lia.
Qed.

Lemma slice_slice l o n o' n' :
  (o' + n' <= n)%nat -> slice (slice l o n) o' n' = slice l (o + o') n'.
Proof.
  intros. unfold slice. rewrite skipn_firstn_comm, take_take, drop_drop.
  f_equal; lia.
Qed.

Lemma slice_full l n : length l = n -> slice l 0 n = l.
Proof. intros <-. unfold slice. by rewrite drop_0, firstn_all. Qed.

Lemma slice_splice_inside l off src o n :
  (off <= length l)%nat -> (off <= o)%nat -> (o + n <= off + length src)%nat ->
  slice (splice l off src) o n = slice src (o - off) n.
Proof.
  intros. rewrite <- (slice_splice_same l off src) at 2 by done.
  rewrite slice_slice by lia. f_equal; lia.
Qed.
End Slices.

Lemma length_zeros n : length (zeros n) = n.
Proof. apply length_replicate. Qed.

Lemma lookup_slice {A} (l : list A) off len i :
  (i < len)%nat -> slice l off len !! i = l !! (off + i)%nat.
Proof. intros. unfold slice. by rewrite lookup_take_lt, lookup_drop. Qed.

Lemma u8_at_slice l off len i :
  (i < len)%nat -> u8_at (slice l off len) i = u8_at l (off + i).
Proof. intros. unfold u8_at. by rewrite lookup_slice. Qed.

Lemma u8_at_range l i : 0 <= u8_at l i < 256.
Proof. apply b2z_range. Qed.
#[export] Hint Resolve u8_at_range : kernel.
