(* ===== verification/BlockDev.v ===== *)
(** * Block device interface

    What [src/drivers/virtio_blk.rs] promises to the file system: sectors of
    512 bytes read and written by number, each request failing with a
    [BlkError] or succeeding.  The file system is modelled and proved against
    the class [BlockDev] and its laws; [RamDisk] is an instance with a finite
    schedule of device faults. *)

From stdpp Require Import base numbers list gmap.
From Stdlib Require Import ZArith Lia.
From S2P Require Import Prelude.
#[local] Open Scope Z_scope.

Inductive BlkError : Type :=
| NotInitialized
| OutOfRange
| DeviceError (status : Z).

Definition SECTOR_SIZE : nat := 512.

Definition zero_sector : list byte := zeros SECTOR_SIZE.

(** The contents of a disk; a sector that was never written holds zeros.  The
    value has the type [[u8; 512]] in the code: [as_sector] fixes its length. *)
Definition as_sector (l : list byte) : list byte := take SECTOR_SIZE (l ++ zero_sector).

Definition sector (V : gmap Z (list byte)) (lba : Z) : list byte :=
  as_sector (default [] (V !! lba)).

(** [disk d] is what the device holds; [reliable d n] says that requests for
    the sectors below [n] succeed, now and after any further request. *)
Class BlockDev (D : Type) : Type := {
  read_sector : Z -> prog D BlkError (list byte);
  write_sector : Z -> list byte -> prog D BlkError unit;
  disk : D -> gmap Z (list byte);
  reliable : D -> Z -> Prop;
}.

Definition stays_reliable {D} `{BlockDev D} (d d' : D) : Prop :=
  forall n, reliable d n -> reliable d' n.

Definition not_reliable_for {D} `{BlockDev D} (d : D) (lba : Z) : Prop :=
  forall n, reliable d n -> ~ (0 <= lba < n).

(** A successful read returns the sector and changes nothing; a successful
    write changes exactly that sector; a request that fails changes nothing. *)
Class BlockDevLaws (D : Type) `{BlockDev D} : Prop := {
  read_sector_law : forall (d : D) lba,
    wp (read_sector lba)
       (fun buf d' => buf = sector (disk d) lba /\ disk d' = disk d /\ stays_reliable d d')
       (fun _ d' => disk d' = disk d /\ stays_reliable d d' /\ not_reliable_for d lba) d;
  write_sector_law : forall (d : D) lba buf,
    length buf = SECTOR_SIZE ->
    wp (write_sector lba buf)
       (fun _ d' => disk d' = <[lba := buf]> (disk d) /\ stays_reliable d d')
       (fun _ d' => disk d' = disk d /\ stays_reliable d d' /\ not_reliable_for d lba) d;
}.

(** ** A disk in memory

    [faults] holds the status bytes of the next requests, [0] for success; when
    it is used up every request succeeds.  [ram_cap] is the capacity check of
    [read_sector] and [write_sector]. *)

Record RamDisk : Type := mkRamDisk {
  ram_sectors : gmap Z (list byte);
  ram_cap : Z;
  faults : list Z;
}.

Definition next_status (d : RamDisk) : Z * RamDisk :=
  match faults d with
  | [] => (0, d)
  | f :: fs => (f, mkRamDisk (ram_sectors d) (ram_cap d) fs)
  end.

Definition ram_read (lba : Z) : prog RamDisk BlkError (list byte) := fun d =>
  if (lba <? 0) || (ram_cap d <=? lba) then (Fail OutOfRange, d)
  else let '(st, d') := next_status d in
       if st =? 0 then (Ret (sector (ram_sectors d') lba), d') else (Fail (DeviceError st), d').

Definition ram_write (lba : Z) (buf : list byte) : prog RamDisk BlkError unit := fun d =>
  if (lba <? 0) || (ram_cap d <=? lba) then (Fail OutOfRange, d)
  else let '(st, d') := next_status d in
       if st =? 0
       then (Ret tt, mkRamDisk (<[lba := buf]> (ram_sectors d')) (ram_cap d') (faults d'))
       else (Fail (DeviceError st), d').

#[export] Instance RamDisk_BlockDev : BlockDev RamDisk := {
  read_sector := ram_read;
  write_sector := ram_write;
  disk := ram_sectors;
  reliable d n := n <= ram_cap d /\ Forall (eq 0) (faults d);
}.

(** ** Lemmas *)

Lemma length_as_sector l : length (as_sector l) = SECTOR_SIZE.
Proof. unfold as_sector. rewrite length_take, length_app. unfold zero_sector. rewrite length_zeros. lia. Qed.

Lemma length_sector V lba : length (sector V lba) = SECTOR_SIZE.
Proof. apply length_as_sector. Qed.

Lemma as_sector_id l : length l = SECTOR_SIZE -> as_sector l = l.
Proof. intros H. unfold as_sector. rewrite <- H. by rewrite take_app_length. Qed.

Lemma sector_insert_eq V lba buf :
  length buf = SECTOR_SIZE -> sector (<[lba := buf]> V) lba = buf.
Proof. intros. unfold sector. rewrite lookup_insert_eq. by apply as_sector_id. Qed.

Lemma sector_insert_ne V lba lba' buf :
  lba <> lba' -> sector (<[lba := buf]> V) lba' = sector V lba'.
Proof. intros. unfold sector. by rewrite lookup_insert_ne. Qed.

Lemma length_zero_sector : length zero_sector = SECTOR_SIZE.
Proof. apply length_zeros. Qed.

Lemma next_status_spec d st d' :
  next_status d = (st, d') ->
  ram_sectors d' = ram_sectors d /\ ram_cap d' = ram_cap d /\
  (Forall (eq 0) (faults d) -> st = 0 /\ Forall (eq 0) (faults d')).
Proof.
  unfold next_status. destruct (faults d) as [|f fs] eqn:E; intros [= <- <-].
  - rewrite E. auto.
  - simpl. repeat split; try done; by inversion H.
Qed.

#[export] Instance RamDisk_Laws : BlockDevLaws RamDisk.
Proof.
  split; intros d lba; [|intros buf Hbuf]; unfold wp; cbn [read_sector write_sector disk RamDisk_BlockDev];
    [unfold ram_read|unfold ram_write].
  all: destruct ((lba <? 0) || (ram_cap d <=? lba)) eqn:Hr.
  all: try (split_and!; [done | by intros ? | intros n [? ?]; zbool; lia]).
  all: destruct (next_status d) as [st d'] eqn:E; apply next_status_spec in E as (E1 & E2 & E3).
  all: destruct (st =? 0) eqn:Est; zbool; simpl; rewrite ?E1, ?E2.
  all: split_and!; try done.
  all: intros n [? ?%E3]; simpl in *; rewrite ?E2; naive_solver.
Qed.
