(* ===== verification/Fat.v ===== *)
(** * FAT32 driver: data and operations

    The model of [src/fs/fat.rs]: mounting, cluster chains, directories, reading
    and writing of files.  Every operation is a program over a block device and
    is a translation of the function of the same name; [u32] values are [Z]
    with the checked arithmetic of the dev profile, [usize] offsets and lengths
    are [nat].  The proofs are in the files [FatLayout], [FatAlloc], [FatDir]
    and [FatWrite]. *)

From stdpp Require Import base numbers list gmap.
From Stdlib Require Import ZArith Lia.
From S2P Require Import Prelude BlockDev.
#[local] Open Scope Z_scope.

Definition FAT_ENTRIES_PER_SECTOR : Z := Z.of_nat SECTOR_SIZE / 4.
Definition FAT32_ENTRY_MASK : Z := 0x0FFFFFFF.
Definition FAT32_EOC : Z := 0x0FFFFFFF.
Definition FIRST_DATA_CLUSTER : Z := 2.
Definition DIR_ENTRY_SIZE : nat := 32.
Definition ATTR_LONG_NAME : Z := 0x0F.
Definition ATTR_VOLUME_ID : Z := 0x08.
Definition ATTR_DIRECTORY : Z := 0x10.
Definition ATTR_ARCHIVE : Z := 0x20.

Inductive FatError : Type :=
| Block (e : BlkError)
| UnsupportedSectorSize
| NotFat32
| NotFound
| NoSpace
| DirFull
| NotADirectory
| IsADirectory
| AlreadyExists
| NotEmpty.

Record Fat32 : Type := mkFat32 {
  sectors_per_cluster : Z;
  fat_start_sector : Z;
  data_start_sector : Z;
  root_cluster : Z;
  cluster_count : Z;
  num_fats : Z;
  fat_size : Z;
}.

Record DirEntry : Type := mkDirEntry {
  first_cluster : Z;
  size : Z;
  is_dir : bool;
}.

Record DirItem : Type := mkDirItem {
  item_name : list byte;
  item_is_dir : bool;
}.

Record Metadata : Type := mkMetadata {
  meta_is_dir : bool;
  meta_size : Z;
  meta_first_cluster : Z;
}.

Inductive Node : Type :=
| File (data : list byte)
| Dir (items : list DirItem).

(** [core::str::from_utf8(b).unwrap_or("").trim_end()] *)
Definition utf8_trimmed (b : list byte) : list byte :=
  trim_end (if utf8_ok b then b else []).

Definition name_83_to_string (entry : list byte) : list byte :=
  let base := utf8_trimmed (slice entry 0 8) in
  let ext := utf8_trimmed (slice entry 8 3) in
  match ext with
  | [] => base
  | _ => base ++ [x2e] ++ ext
  end.

(** Reads of little-endian fields: an index past the end of the slice panics. *)
Definition read_u16 (buf : list byte) (off : nat) : option Z :=
  if (off + 2 <=? length buf)%nat then Some (from_le (slice buf off 2)) else None.

Definition read_u32 (buf : list byte) (off : nat) : option Z :=
  if (off + 4 <=? length buf)%nat then Some (from_le (slice buf off 4)) else None.

(** At most [n] upper-cased bytes of [s], padded with spaces to [n]. *)
Definition pad_name (n : nat) (s : list byte) : list byte :=
  let t := to_ascii_uppercase <$> take n s in
  t ++ replicate (n - length t) x20.

Definition short_name_83 (name : list byte) : list byte :=
  let '(base, ext) := split_once x2e name in
  pad_name 8 base ++ pad_name 3 (default [] ext).

(** The 32-byte record a directory holds for a file or a directory. *)
Definition fill_dir_entry (name : list byte) (attr first_cluster size : Z) : list byte :=
  name ++ [z2b attr] ++ zeros 8 ++ to_le 2 (Z.shiftr first_cluster 16) ++ zeros 4
       ++ to_le 2 (Z.land first_cluster 0xFFFF) ++ to_le 4 size.

(** [buf.chunks_exact(32).enumerate()], each chunk with its offset. *)
Definition dir_chunks (buf : list byte) : list (nat * list byte) :=
  (fun i => (i * DIR_ENTRY_SIZE, slice buf (i * DIR_ENTRY_SIZE) DIR_ENTRY_SIZE)%nat)
    <$> seq 0 (length buf / DIR_ENTRY_SIZE).

(** What one step of a directory scan does: go on with a new state, or return. *)
Inductive scan_result (St R : Type) : Type :=
| Next (s : St)
| Done (r : R).
Arguments Next {St R} s.
Arguments Done {St R} r.

(** The long-name and volume-label entries every scan skips. *)
Definition skipped_attr (attr : Z) : bool :=
  (Z.land attr ATTR_LONG_NAME =? ATTR_LONG_NAME) || negb (Z.land attr ATTR_VOLUME_ID =? 0).

Definition entry_cluster (entry : list byte) : option Z :=
  hi ← read_u16 entry 20;
  lo ← read_u16 entry 26;
  Some (Z.lor (Z.shiftl hi 16) lo).

Definition parse_entry (entry : list byte) (attr : Z) : option DirEntry :=
  c ← entry_cluster entry;
  sz ← read_u32 entry 28;
  Some (mkDirEntry c sz (negb (Z.land attr ATTR_DIRECTORY =? 0))).

(** The body of the scan of [find_in_dir]. *)
Definition find_step (target : list byte) (_ : unit) (_ : Z) (_ : nat) (entry : list byte)
  : option (scan_result unit (option DirEntry)) :=
  b0 ← entry !! 0%nat;
  if b2z b0 =? 0x00 then Some (Done None)
  else if b2z b0 =? 0xE5 then Some (Next tt)
  else
    attr ← b2z <$> entry !! 11%nat;
    if skipped_attr attr then Some (Next tt)
    else if bytes_eqb (slice entry 0 11) target
    then de ← parse_entry entry attr; Some (Done (Some de))
    else Some (Next tt).

(** The body of the scan of [list_dir]. *)
Definition list_step (items : list DirItem) (_ : Z) (_ : nat) (entry : list byte)
  : option (scan_result (list DirItem) (list DirItem)) :=
  b0 ← entry !! 0%nat;
  if b2z b0 =? 0x00 then Some (Done items)
  else if b2z b0 =? 0xE5 then Some (Next items)
  else
    attr ← b2z <$> entry !! 11%nat;
    if skipped_attr attr then Some (Next items)
    else Some (Next (items ++ [mkDirItem (name_83_to_string (slice entry 0 11))
                                         (negb (Z.land attr ATTR_DIRECTORY =? 0))])).

(** The body of the scan of [locate_or_free_slot]; its state is [first_free]. *)
Definition slot_step (target : list byte) (first_free : option (Z * nat))
  (sec : Z) (offset : nat) (entry : list byte)
  : option (scan_result (option (Z * nat)) (Z * nat * option Z)) :=
  b0 ← entry !! 0%nat;
  if b2z b0 =? 0x00 then
    let '(s, o) := default (sec, offset) first_free in Some (Done (s, o, None))
  else if b2z b0 =? 0xE5 then
    Some (Next (match first_free with None => Some (sec, offset) | Some _ => first_free end))
  else
    attr ← b2z <$> entry !! 11%nat;
    if skipped_attr attr then Some (Next first_free)
    else if bytes_eqb (slice entry 0 11) target
    then c ← entry_cluster entry; Some (Done (sec, offset, Some c))
    else Some (Next first_free).

(** The body of the scan of [locate_entry]. *)
Definition locate_step (target : list byte) (_ : unit) (sec : Z) (offset : nat) (entry : list byte)
  : option (scan_result unit (option (Z * nat * DirEntry))) :=
  b0 ← entry !! 0%nat;
  if b2z b0 =? 0x00 then Some (Done None)
  else if b2z b0 =? 0xE5 then Some (Next tt)
  else
    attr ← b2z <$> entry !! 11%nat;
    if skipped_attr attr then Some (Next tt)
    else if bytes_eqb (slice entry 0 11) target
    then de ← parse_entry entry attr; Some (Done (Some (sec, offset, de)))
    else Some (Next tt).

(** The components of a path, in order. *)
Definition path_components (path : list byte) : list (list byte) :=
  filter (fun c => c <> []) (split_on x2f (trim_matches x2f path)).

Section Operations.
Context {D : Type} {BD : BlockDev D}.

(** [impl From<BlkError> for FatError], applied by every [?] on a request. *)
Definition blk {A} (m : prog D BlkError A) : prog D FatError A := fun d =>
  match m d with
  | (Ret a, d') => (Ret a, d')
  | (Fail e, d') => (Fail (Block e), d')
  | (Panic, d') => (Panic, d')
  | (Diverge, d') => (Diverge, d')
  end.

Definition mount : prog D FatError Fat32 :=
  let! boot := blk (read_sector 0) in
  let! bytes_per_sector := punwrap (read_u16 boot 11) in
  if negb (bytes_per_sector =? Z.of_nat SECTOR_SIZE) then pfail UnsupportedSectorSize else
  let! sectors_per_cluster := punwrap (b2z <$> boot !! 13%nat) in
  let! reserved_sectors := punwrap (read_u16 boot 14) in
  let! num_fats := punwrap (b2z <$> boot !! 16%nat) in
  let! root_entry_count := punwrap (read_u16 boot 17) in
  let! fat_size_16 := punwrap (read_u16 boot 22) in
  let! total_sectors := punwrap (read_u32 boot 32) in
  let! fat_size_32 := punwrap (read_u32 boot 36) in
  let! root_cluster := punwrap (read_u32 boot 44) in
  if negb (root_entry_count =? 0) || negb (fat_size_16 =? 0) || (fat_size_32 =? 0)
     || (sectors_per_cluster =? 0) || (num_fats =? 0)
  then pfail NotFat32 else
  let! fats := u32_mul num_fats fat_size_32 in
  let! data_start_sector := u32_add reserved_sectors fats in
  let cluster_count := Z.max 0 (total_sectors - data_start_sector) / sectors_per_cluster in
  pret (mkFat32 sectors_per_cluster reserved_sectors data_start_sector root_cluster
                cluster_count num_fats fat_size_32).

Section Volume.
Variable v : Fat32.

Definition valid_cluster (cluster : Z) : prog D FatError bool :=
  if FIRST_DATA_CLUSTER <=? cluster then
    let! last := u32_add FIRST_DATA_CLUSTER (cluster_count v) in
    pret (cluster <? last)
  else pret false.

Definition first_sector_of_cluster (cluster : Z) : prog D FatError Z :=
  let! k := u32_sub cluster FIRST_DATA_CLUSTER in
  let! off := u32_mul k (sectors_per_cluster v) in
  u32_add (data_start_sector v) off.

Definition next_cluster (cluster : Z) : prog D FatError Z :=
  let! fat_offset := u32_mul cluster 4 in
  let! sec := u32_add (fat_start_sector v) (fat_offset / Z.of_nat SECTOR_SIZE) in
  let offset := Z.to_nat (fat_offset mod Z.of_nat SECTOR_SIZE) in
  let! buf := blk (read_sector sec) in
  let! e := punwrap (read_u32 buf offset) in
  pret (Z.land e FAT32_ENTRY_MASK).

(** The three nested loops of a directory scan: over the entries of a sector,
    the sectors of a cluster, and the clusters of the chain.  [steps_left] is
    the bound the code keeps against a cyclic chain. *)
Fixpoint scan_entries {St R} (step : St -> Z -> nat -> list byte -> option (scan_result St R))
  (sec : Z) (es : list (nat * list byte)) (s : St) : prog D FatError (scan_result St R) :=
  match es with
  | [] => pret (Next s)
  | (off, e) :: es' =>
      let! r := punwrap (step s sec off e) in
      match r with
      | Next s' => scan_entries step sec es' s'
      | Done x => pret (Done x)
      end
  end.

Fixpoint scan_sectors {St R} (step : St -> Z -> nat -> list byte -> option (scan_result St R))
  (first : Z) (ks : list Z) (s : St) : prog D FatError (scan_result St R) :=
  match ks with
  | [] => pret (Next s)
  | k :: ks' =>
      let! sec := u32_add first k in
      let! buf := blk (read_sector sec) in
      let! r := scan_entries step sec (dir_chunks buf) s in
      match r with
      | Next s' => scan_sectors step first ks' s'
      | Done x => pret (Done x)
      end
  end.

Fixpoint scan_clusters {St R} (step : St -> Z -> nat -> list byte -> option (scan_result St R))
  (steps_left : nat) (cluster : Z) (s : St) : prog D FatError (scan_result St R) :=
  let! ok := valid_cluster cluster in
  if negb ok then pret (Next s) else
  match steps_left with
  | O => pret (Next s)
  | S steps_left' =>
      let! first := first_sector_of_cluster cluster in
      let! r := scan_sectors step first (seqZ 0 (sectors_per_cluster v)) s in
      match r with
      | Next s' =>
          let! cluster' := next_cluster cluster in
          scan_clusters step steps_left' cluster' s'
      | Done x => pret (Done x)
      end
  end.

Definition scan_dir {St R} (step : St -> Z -> nat -> list byte -> option (scan_result St R))
  (start_cluster : Z) (s : St) : prog D FatError (scan_result St R) :=
  scan_clusters step (Z.to_nat (cluster_count v)) start_cluster s.

Definition find_in_dir (start_cluster : Z) (name : list byte) : prog D FatError (option DirEntry) :=
  let! r := scan_dir (find_step (short_name_83 name)) start_cluster tt in
  pret (match r with Next _ => None | Done x => x end).

Fixpoint resolve_components (cluster : Z) (comps : list (list byte)) : prog D FatError (Z * list byte) :=
  match comps with
  | [] => pfail NotFound
  | [name] => pret (cluster, name)
  | comp :: rest =>
      let! found := find_in_dir cluster comp in
      let! entry := pok_or found NotFound in
      if negb (is_dir entry) then pfail NotADirectory
      else resolve_components (first_cluster entry) rest
  end.

Definition resolve_parent (path : list byte) : prog D FatError (Z * list byte) :=
  resolve_components (root_cluster v) (path_components path).

(** [read_entry]: the sectors of one cluster, then the loop over the chain.
    The loop has no step bound of its own; its model has the fuel [remaining]. *)
Fixpoint read_sectors (first : Z) (ks : list Z) (data : list byte) (remaining : nat)
  : prog D FatError (list byte * nat) :=
  match ks with
  | [] => pret (data, remaining)
  | k :: ks' =>
      if (remaining =? 0)%nat then pret (data, remaining) else
      let! sec := u32_add first k in
      let! buf := blk (read_sector sec) in
      let take_n := Nat.min remaining SECTOR_SIZE in
      read_sectors first ks' (data ++ take take_n buf) (remaining - take_n)%nat
  end.

Fixpoint read_chain (fuel : nat) (cluster : Z) (data : list byte) (remaining : nat)
  : prog D FatError (list byte) :=
  if (remaining =? 0)%nat then pret data else
  let! ok := valid_cluster cluster in
  if negb ok then pret data else
  match fuel with
  | O => pdiverge
  | S fuel' =>
      let! first := first_sector_of_cluster cluster in
      let! '(data', remaining') :=
        read_sectors first (seqZ 0 (sectors_per_cluster v)) data remaining in
      let! cluster' := next_cluster cluster in
      read_chain fuel' cluster' data' remaining'
  end.

Definition read_entry (entry : DirEntry) : prog D FatError (list byte) :=
  read_chain (Z.to_nat (size entry)) (first_cluster entry) [] (Z.to_nat (size entry)).

Definition read_file (path : list byte) : prog D FatError (list byte) :=
  let! '(dir_cluster, name) := resolve_parent path in
  let! found := find_in_dir dir_cluster name in
  let! entry := pok_or found NotFound in
  if is_dir entry then pfail IsADirectory else read_entry entry.

Definition list_dir (dir_cluster : Z) : prog D FatError (list DirItem) :=
  let! r := scan_dir list_step dir_cluster [] in
  pret (match r with Next items => items | Done items => items end).

Definition lookup (path : list byte) : prog D FatError Node :=
  match trim_matches x2f path with
  | [] => let! items := list_dir (root_cluster v) in pret (Dir items)
  | _ =>
      let! '(dir_cluster, name) := resolve_parent path in
      let! found := find_in_dir dir_cluster name in
      let! entry := pok_or found NotFound in
      if is_dir entry
      then let! items := list_dir (first_cluster entry) in pret (Dir items)
      else let! data := read_entry entry in pret (File data)
  end.

Definition stat (path : list byte) : prog D FatError Metadata :=
  match trim_matches x2f path with
  | [] => pret (mkMetadata true 0 (root_cluster v))
  | _ =>
      let! '(dir_cluster, name) := resolve_parent path in
      let! found := find_in_dir dir_cluster name in
      let! entry := pok_or found NotFound in
      pret (mkMetadata (is_dir entry) (size entry) (first_cluster entry))
  end.

(** One FAT copy of [write_fat_entry]: read, change the 28 significant bits,
    write back. *)
Definition write_fat_copy (within : Z) (offset : nat) (value fat : Z) : prog D FatError unit :=
  let! skip := u32_mul fat (fat_size v) in
  let! base := u32_add (fat_start_sector v) skip in
  let! sec := u32_add base within in
  let! buf := blk (read_sector sec) in
  let! old := punwrap (read_u32 buf offset) in
  let new := Z.lor (Z.land old (Z.lxor FAT32_ENTRY_MASK 0xFFFFFFFF)) (Z.land value FAT32_ENTRY_MASK) in
  blk (write_sector sec (splice buf offset (to_le 4 new))).

Definition write_fat_entry (cluster value : Z) : prog D FatError unit :=
  let! fat_offset := u32_mul cluster 4 in
  let within := fat_offset / Z.of_nat SECTOR_SIZE in
  let offset := Z.to_nat (fat_offset mod Z.of_nat SECTOR_SIZE) in
  pfold (fun _ fat => write_fat_copy within offset value fat) (seqZ 0 (num_fats v)) tt.

(** The inner loop of [alloc_cluster]: the entries of one FAT sector, from
    [cluster] on; [inl c] is the cluster taken, [inr c] where the loop stopped. *)
Fixpoint alloc_in_sector (fuel : nat) (sec : Z) (buf : list byte) (last cluster : Z)
  : prog D FatError (Z + Z) :=
  match fuel with
  | O => pdiverge
  | S fuel' =>
      if cluster <? last then
        let! here := u32_sub sec (fat_start_sector v) in
        if cluster / FAT_ENTRIES_PER_SECTOR =? here then
          let off := (Z.to_nat (cluster mod FAT_ENTRIES_PER_SECTOR) * 4)%nat in
          let! e := punwrap (read_u32 buf off) in
          if Z.land e FAT32_ENTRY_MASK =? 0
          then write_fat_entry cluster FAT32_EOC ;;! pret (inl cluster)
          else let! next := u32_add cluster 1 in alloc_in_sector fuel' sec buf last next
        else pret (inr cluster)
      else pret (inr cluster)
  end.

(** The outer loop of [alloc_cluster]: one FAT sector per iteration. *)
Fixpoint alloc_scan (fuel : nat) (last cluster : Z) : prog D FatError Z :=
  match fuel with
  | O => pdiverge
  | S fuel' =>
      if cluster <? last then
        let! sec := u32_add (fat_start_sector v) (cluster / FAT_ENTRIES_PER_SECTOR) in
        let! buf := blk (read_sector sec) in
        let! r := alloc_in_sector (Z.to_nat FAT_ENTRIES_PER_SECTOR + 1) sec buf last cluster in
        match r with
        | inl c => pret c
        | inr cluster' => alloc_scan fuel' last cluster'
        end
      else pfail NoSpace
  end.

Definition alloc_cluster : prog D FatError Z :=
  let! last := u32_add FIRST_DATA_CLUSTER (cluster_count v) in
  alloc_scan (Z.to_nat (cluster_count v) + 1) last FIRST_DATA_CLUSTER.

Fixpoint free_chain_loop (steps_left : nat) (cluster : Z) : prog D FatError unit :=
  let! ok := valid_cluster cluster in
  if negb ok then pret tt else
  match steps_left with
  | O => pret tt
  | S steps_left' =>
      let! next := next_cluster cluster in
      write_fat_entry cluster 0 ;;!
      free_chain_loop steps_left' next
  end.

Definition free_chain (first : Z) : prog D FatError unit :=
  free_chain_loop (Z.to_nat (cluster_count v)) first.

(** The loop of [alloc_chain], with [n] clusters still to allocate. *)
Fixpoint alloc_chain_loop (n : nat) (first prev : Z) : prog D FatError Z :=
  match n with
  | O => pret first
  | S n' =>
      let! c := pcatch alloc_cluster (fun e =>
                  (if negb (first =? 0) then pignore (free_chain first) else pret tt) ;;!
                  pfail e) in
      if first =? 0 then alloc_chain_loop n' c c
      else write_fat_entry prev c ;;! alloc_chain_loop n' first c
  end.

Definition alloc_chain (n : nat) : prog D FatError Z := alloc_chain_loop n 0 0.

Fixpoint write_sectors (first_sec : Z) (ks : list Z) (data : list byte) (written : nat)
  : prog D FatError nat :=
  match ks with
  | [] => pret written
  | k :: ks' =>
      if (length data <=? written)%nat then pret written else
      let take_n := Nat.min (length data - written) SECTOR_SIZE in
      let buf := splice zero_sector 0 (slice data written take_n) in
      let! sec := u32_add first_sec k in
      blk (write_sector sec buf) ;;!
      write_sectors first_sec ks' data (written + take_n)%nat
  end.

Fixpoint write_chain_loop (steps_left : nat) (cluster : Z) (data : list byte) (written : nat)
  : prog D FatError unit :=
  if (length data <=? written)%nat then pret tt else
  let! ok := valid_cluster cluster in
  if negb ok then pret tt else
  match steps_left with
  | O => pret tt
  | S steps_left' =>
      let! first_sec := first_sector_of_cluster cluster in
      let! written' := write_sectors first_sec (seqZ 0 (sectors_per_cluster v)) data written in
      let! cluster' := next_cluster cluster in
      write_chain_loop steps_left' cluster' data written'
  end.

Definition write_chain (first : Z) (data : list byte) : prog D FatError unit :=
  write_chain_loop (Z.to_nat (cluster_count v)) first data 0.

Definition locate_or_free_slot (dir_cluster : Z) (target : list byte)
  : prog D FatError (Z * nat * option Z) :=
  let! r := scan_dir (slot_step target) dir_cluster None in
  match r with
  | Done x => pret x
  | Next (Some (sec, offset)) => pret (sec, offset, None)
  | Next None => pfail DirFull
  end.

Definition write_dir_entry (sec : Z) (offset : nat) (name : list byte) (attr first_cluster size : Z)
  : prog D FatError unit :=
  let! buf := blk (read_sector sec) in
  passert (offset + DIR_ENTRY_SIZE <=? length buf)%nat ;;!
  blk (write_sector sec (splice buf offset (fill_dir_entry name attr first_cluster size))).

(** Step 2 of [write_file]: the new contents, on clusters of their own. *)
Definition build_contents (data : list byte) : prog D FatError Z :=
  let cluster_bytes := (Z.to_nat (sectors_per_cluster v) * SECTOR_SIZE)%nat in
  match data with
  | [] => pret 0
  | _ =>
      let n := Z.of_nat (div_ceil (length data) cluster_bytes) mod U32 in
      let! first := alloc_chain (Z.to_nat n) in
      pcatch (write_chain first data ;;! pret first)
             (fun e => pignore (free_chain first) ;;! pfail e)
  end.

Definition write_file (path data : list byte) : prog D FatError unit :=
  let! '(dir_cluster, name) := resolve_parent path in
  let target := short_name_83 name in
  let! '(slot_sector, slot_offset, old_first) := locate_or_free_slot dir_cluster target in
  let! new_first := build_contents data in
  pcatch (write_dir_entry slot_sector slot_offset target ATTR_ARCHIVE new_first
                          (Z.of_nat (length data) mod U32))
         (fun e => (if negb (new_first =? 0) then pignore (free_chain new_first) else pret tt) ;;!
                   pfail e) ;;!
  match old_first with
  | Some first =>
      let! ok := valid_cluster first in
      if ok then pignore (free_chain first) else pret tt
  | None => pret tt
  end.

Definition init_dir_cluster (cluster parent : Z) : prog D FatError unit :=
  let! first_sec := first_sector_of_cluster cluster in
  let dotdot := if parent =? root_cluster v then 0 else parent in
  let buf :=
    splice (splice zero_sector 0 (fill_dir_entry (bs ".          ") ATTR_DIRECTORY cluster 0))
           DIR_ENTRY_SIZE (fill_dir_entry (bs "..         ") ATTR_DIRECTORY dotdot 0) in
  blk (write_sector first_sec buf) ;;!
  pfold (fun _ s => let! sec := u32_add first_sec s in blk (write_sector sec zero_sector))
        (seqZ 1 (sectors_per_cluster v - 1)) tt.

Definition mkdir (path : list byte) : prog D FatError unit :=
  let! '(parent_cluster, name) := resolve_parent path in
  let target := short_name_83 name in
  let! '(slot_sector, slot_offset, existing) := locate_or_free_slot parent_cluster target in
  match existing with
  | Some _ => pfail AlreadyExists
  | None =>
      let! new_cluster := alloc_cluster in
      pcatch (init_dir_cluster new_cluster parent_cluster)
             (fun e => pignore (free_chain new_cluster) ;;! pfail e) ;;!
      pcatch (write_dir_entry slot_sector slot_offset target ATTR_DIRECTORY new_cluster 0)
             (fun e => pignore (free_chain new_cluster) ;;! pfail e)
  end.

Definition locate_entry (dir_cluster : Z) (name : list byte)
  : prog D FatError (option (Z * nat * DirEntry)) :=
  let! r := scan_dir (locate_step (short_name_83 name)) dir_cluster tt in
  pret (match r with Next _ => None | Done x => x end).

Definition clear_dir_entry (sec : Z) (offset : nat) : prog D FatError unit :=
  let! buf := blk (read_sector sec) in
  passert (offset <? length buf)%nat ;;!
  blk (write_sector sec (<[offset := xe5]> buf)).

Definition dir_is_empty (dir_cluster : Z) : prog D FatError bool :=
  let! items := list_dir dir_cluster in
  pret (forallb (fun it => bytes_eqb (item_name it) (bs ".") || bytes_eqb (item_name it) (bs ".."))
                items).

Definition unlink (path : list byte) : prog D FatError unit :=
  let! '(dir_cluster, name) := resolve_parent path in
  let! found := locate_entry dir_cluster name in
  let! '(sec, offset, de) := pok_or found NotFound in
  if is_dir de then pfail IsADirectory else
  clear_dir_entry sec offset ;;!
  if negb (first_cluster de =? 0) then free_chain (first_cluster de) else pret tt.

Definition rmdir (path : list byte) : prog D FatError unit :=
  let! '(dir_cluster, name) := resolve_parent path in
  let! found := locate_entry dir_cluster name in
  let! '(sec, offset, de) := pok_or found NotFound in
  if negb (is_dir de) then pfail NotADirectory else
  let! empty := dir_is_empty (first_cluster de) in
  if negb empty then pfail NotEmpty else
  clear_dir_entry sec offset ;;!
  free_chain (first_cluster de).
End Volume.
End Operations.
