(* ===== verification/FatLayout.v ===== *)
(** * FAT32 driver: the volume's layout

    Pure views of a volume (the FAT, the sectors of a cluster, the slots of a
    directory) and the correctness of the operations that read and write one
    FAT entry.  [geom_ok] is what a consistent BPB gives; [computes] says that a
    read-only operation returns a given function of the disk. *)

From stdpp Require Import base numbers list gmap.
From Stdlib Require Import ZArith Lia.
From S2P Require Import Prelude BlockDev Fat.
#[local] Open Scope Z_scope.

(** ** Geometry *)

(** The numbers that name a cluster of the volume. *)
Definition cvalid (v : Fat32) (c : Z) : bool :=
  (FIRST_DATA_CLUSTER <=? c) && (c <? FIRST_DATA_CLUSTER + cluster_count v).

Definition volume_sectors (v : Fat32) : Z :=
  data_start_sector v + cluster_count v * sectors_per_cluster v.

(** The FATs follow the reserved sectors, one FAT has an entry for every
    cluster, the data area ends within a 32-bit sector number, and no cluster
    number is in the range of the end marks. *)
Record geom_ok (v : Fat32) : Prop := {
  geom_spc : 1 <= sectors_per_cluster v <= 255;
  geom_fats : 1 <= num_fats v <= 255;
  geom_start : 1 <= fat_start_sector v;
  geom_size : 1 <= fat_size v;
  geom_data : data_start_sector v = fat_start_sector v + num_fats v * fat_size v;
  geom_count : 0 <= cluster_count v;
  geom_fit : 4 * (FIRST_DATA_CLUSTER + cluster_count v) <= Z.of_nat SECTOR_SIZE * fat_size v;
  geom_end : volume_sectors v < U32;
  geom_eoc : FIRST_DATA_CLUSTER + cluster_count v <= 0x0FFFFFF7;
}.

Definition first_sector (v : Fat32) (c : Z) : Z :=
  data_start_sector v + (c - FIRST_DATA_CLUSTER) * sectors_per_cluster v.

Definition cluster_sectors (v : Fat32) (c : Z) : list Z :=
  seqZ (first_sector v c) (sectors_per_cluster v).

(** ** The FAT *)

Definition fat_sector (v : Fat32) (copy c : Z) : Z :=
  fat_start_sector v + copy * fat_size v + c * 4 / Z.of_nat SECTOR_SIZE.

Definition fat_offset (c : Z) : nat := Z.to_nat (c * 4 mod Z.of_nat SECTOR_SIZE).

(** The 32-bit entry of cluster [c] in one copy of the FAT. *)
Definition fat_raw (v : Fat32) (V : gmap Z (list byte)) (copy c : Z) : Z :=
  from_le (slice (sector V (fat_sector v copy c)) (fat_offset c) 4).

(** The next cluster of [c], as the driver reads it. *)
Definition fat_of (v : Fat32) (V : gmap Z (list byte)) (c : Z) : Z :=
  Z.land (fat_raw v V 0 c) FAT32_ENTRY_MASK.

Definition new_raw (old value : Z) : Z :=
  Z.lor (Z.land old (Z.lxor FAT32_ENTRY_MASK 0xFFFFFFFF)) (Z.land value FAT32_ENTRY_MASK).

(** Entry [c] is [value] in the first [k] copies; nothing else has changed. *)
Record fat_updated (v : Fat32) (V V' : gmap Z (list byte)) (k c value : Z) : Prop := {
  upd_raw : forall copy c', 0 <= copy < num_fats v -> 0 <= c' < FIRST_DATA_CLUSTER + cluster_count v ->
    fat_raw v V' copy c' =
      if (c' =? c) && (copy <? k) then new_raw (fat_raw v V copy c) value else fat_raw v V copy c';
  upd_rest : forall s, ~ (fat_start_sector v <= s < data_start_sector v) -> sector V' s = sector V s;
}.

(** ** Devices *)

Section Device.
Context {D : Type} `{BL : BlockDevLaws D}.

(** The error is one of the device, which did fail a request for a sector of
    the volume. *)
Definition fault (v : Fat32) (d : D) (e : FatError) : Prop :=
  (exists b, e = Block b) /\ ~ reliable d (volume_sectors v).

Definition same_disk (d d' : D) : Prop := disk d' = disk d /\ stays_reliable d d'.

(** The read-only program [m] returns [r] or, if the device fails, its error. *)
Definition computes {A} (v : Fat32) (d : D) (m : prog D FatError A) (r : FatError + A) : Prop :=
  wp m (fun x d' => r = inr x /\ same_disk d d')
       (fun e d' => same_disk d d' /\ (r = inl e \/ fault v d e)) d.

(** ** Lemmas *)

Lemma stays_refl (d : D) : stays_reliable d d.
Proof. by intros n. Qed.

Lemma stays_trans (d1 d2 d3 : D) :
  stays_reliable d1 d2 -> stays_reliable d2 d3 -> stays_reliable d1 d3.
Proof. unfold stays_reliable. auto. Qed.

Lemma same_refl (d : D) : same_disk d d.
Proof. split; [done|apply stays_refl]. Qed.

Lemma same_trans (d1 d2 d3 : D) : same_disk d1 d2 -> same_disk d2 d3 -> same_disk d1 d3.
Proof. intros [E1 ?] [E2 ?]. split; [by rewrite E2|by eauto using stays_trans]. Qed.

Lemma fault_stays v (d d' : D) e : stays_reliable d d' -> fault v d' e -> fault v d e.
Proof. intros Hs [? Hr]. split; [done|]. intros ?. apply Hr. by apply Hs. Qed.

Lemma wp_read v (d : D) lba :
  0 <= lba < volume_sectors v ->
  computes v d (blk (read_sector lba)) (inr (sector (disk d) lba)).
Proof.
  intros Hl. pose proof (read_sector_law d lba) as Hw. unfold computes, blk, wp in *.
  destruct (read_sector lba d) as [[]]; try done.
  - destruct Hw as (-> & ? & ?). by split.
  - destruct Hw as (? & ? & Hn). split; [by split|]. right. split; [eauto|].
    intros Hr. by apply (Hn _ Hr).
Qed.

Lemma wp_write v (d : D) lba buf :
  0 <= lba < volume_sectors v -> length buf = SECTOR_SIZE ->
  wp (blk (write_sector lba buf))
     (fun _ d' => disk d' = <[lba := buf]> (disk d) /\ stays_reliable d d')
     (fun e d' => same_disk d d' /\ fault v d e) d.
Proof.
  intros Hl Hb. pose proof (write_sector_law d lba buf Hb) as Hw. unfold blk, wp in *.
  destruct (write_sector lba buf d) as [[]]; try done.
  destruct Hw as (? & ? & Hn). split; [by split|]. split; [eauto|].
  intros Hr. by apply (Hn _ Hr).
Qed.

Lemma computes_ret {A} v (d : D) (a : A) : computes v d (pret a) (inr a).
Proof. by split; [|apply same_refl]. Qed.

Lemma computes_fail {A} v (d : D) e : computes v d (@pfail _ _ A e) (inl e).
Proof. split; [apply same_refl|by left]. Qed.

Lemma computes_bind {A B} v (d : D) (m : prog D FatError A) (f : A -> prog D FatError B) ra r :
  computes v d m ra ->
  (forall a d', ra = inr a -> same_disk d d' -> computes v d' (f a) r) ->
  (forall e, ra = inl e -> r = inl e) ->
  computes v d (pbind m f) r.
Proof.
  intros Hm Hf He. apply wp_bind. eapply wp_mono; [exact Hm| |]; simpl.
  - intros a d' [-> Hs]. eapply wp_mono; [by apply Hf| |]; simpl.
    + intros x d'' [-> ?]. eauto using same_trans.
    + intros e d'' [? [->|?]]; split; eauto using same_trans.
      destruct Hs. right. by eauto using fault_stays.
  - intros e d' [? [->|?]]; eauto.
Qed.

(** The common case: the first program returns a value. *)
Lemma computes_seq {A B} v (d : D) (m : prog D FatError A) (f : A -> prog D FatError B) a r :
  computes v d m (inr a) ->
  (forall d', same_disk d d' -> computes v d' (f a) r) ->
  computes v d (pbind m f) r.
Proof.
  intros Hm Hf. eapply computes_bind; [exact Hm| |done]. intros ? d' [= <-]. apply Hf.
Qed.

Lemma computes_unwrap {A} v (d : D) (o : option A) a :
  o = Some a -> computes v d (punwrap o) (inr a).
Proof. intros ->. apply computes_ret. Qed.

Lemma computes_ok_or {A} v (d : D) (o : option A) e :
  computes v d (pok_or o e) (match o with Some a => inr a | None => inl e end).
Proof. destruct o; [apply computes_ret|apply computes_fail]. Qed.
End Device.

(** ** Geometry *)

Lemma cvalid_spec v c :
  cvalid v c = true <-> FIRST_DATA_CLUSTER <= c < FIRST_DATA_CLUSTER + cluster_count v.
Proof. unfold cvalid. rewrite andb_true_iff, Z.leb_le, Z.ltb_lt. done. Qed.

(** Unfolds the numeric constants and brings in the geometry, for [lia]. *)
Ltac geom :=
  lazymatch goal with
  | G : geom_ok ?v |- _ =>
      pose proof (geom_spc v G); pose proof (geom_fats v G); pose proof (geom_start v G);
      pose proof (geom_size v G); pose proof (geom_data v G); pose proof (geom_count v G);
      pose proof (geom_fit v G); pose proof (geom_end v G); pose proof (geom_eoc v G)
  | _ => idtac
  end;
  repeat match goal with
  | H : cvalid _ _ = true |- _ => apply cvalid_spec in H
  end;
  unfold in_width, volume_sectors, first_sector, fat_sector, fat_offset, U32, FIRST_DATA_CLUSTER,
    FAT_ENTRIES_PER_SECTOR, SECTOR_SIZE in *.

Section Geometry.
Context (v : Fat32) (G : geom_ok v).

(** An entry index lies in a sector of the FAT. *)
Lemma fat_within c :
  0 <= c < FIRST_DATA_CLUSTER + cluster_count v -> 0 <= c * 4 / Z.of_nat SECTOR_SIZE < fat_size v.
Proof.
  intros Hc. geom. split; [apply Z.div_pos; lia|].
  apply Z.div_lt_upper_bound; lia.
Qed.

Lemma fat_sector_range copy c :
  0 <= copy < num_fats v -> 0 <= c < FIRST_DATA_CLUSTER + cluster_count v ->
  fat_start_sector v <= fat_sector v copy c < data_start_sector v.
Proof.
  intros Hk Hc. pose proof (fat_within c Hc) as Hw. geom. nia.
Qed.

Lemma fat_sector_lt copy c :
  0 <= copy < num_fats v -> 0 <= c < FIRST_DATA_CLUSTER + cluster_count v ->
  0 <= fat_sector v copy c < volume_sectors v.
Proof.
  intros Hk Hc. pose proof (fat_sector_range copy c Hk Hc) as Hw.
  geom. nia.
Qed.

Lemma fat_offset_bound c : 0 <= c -> (fat_offset c + 4 <= SECTOR_SIZE)%nat.
Proof.
  intros Hc. unfold fat_offset, SECTOR_SIZE. change (Z.of_nat 512) with (128 * 4).
  rewrite Z.mul_mod_distr_r by lia. pose proof (Z.mod_pos_bound c 128 ltac:(lia)). lia.
Qed.

(** Two entries of the FATs are at different places. *)
Lemma fat_place_inj copy1 c1 copy2 c2 :
  0 <= copy1 < num_fats v -> 0 <= copy2 < num_fats v ->
  0 <= c1 < FIRST_DATA_CLUSTER + cluster_count v -> 0 <= c2 < FIRST_DATA_CLUSTER + cluster_count v ->
  fat_sector v copy1 c1 = fat_sector v copy2 c2 ->
  copy1 = copy2 /\ c1 * 4 / Z.of_nat SECTOR_SIZE = c2 * 4 / Z.of_nat SECTOR_SIZE.
Proof.
  intros H1 H2 Hc1 Hc2. pose proof (fat_within c1 Hc1). pose proof (fat_within c2 Hc2).
  pose proof (geom_size v G). unfold fat_sector. intros E.
  assert (copy1 = copy2) as -> by nia. split; [done|lia].
Qed.

Lemma fat_offset_disjoint c1 c2 :
  0 <= c1 -> 0 <= c2 -> c1 <> c2 ->
  c1 * 4 / Z.of_nat SECTOR_SIZE = c2 * 4 / Z.of_nat SECTOR_SIZE ->
  (fat_offset c1 + 4 <= fat_offset c2 \/ fat_offset c2 + 4 <= fat_offset c1)%nat.
Proof.
  intros H1 H2 Hne E. unfold fat_offset, SECTOR_SIZE in *. change (Z.of_nat 512) with (128 * 4) in *.
  rewrite !Z.mul_mod_distr_r by lia. rewrite !Z.div_mul_cancel_r in E by lia.
  pose proof (Z.div_mod c1 128 ltac:(lia)). pose proof (Z.div_mod c2 128 ltac:(lia)).
  pose proof (Z.mod_pos_bound c1 128 ltac:(lia)). pose proof (Z.mod_pos_bound c2 128 ltac:(lia)). lia.
Qed.

Lemma first_sector_range c :
  cvalid v c = true ->
  data_start_sector v <= first_sector v c /\
  first_sector v c + sectors_per_cluster v <= volume_sectors v.
Proof. intros. geom. nia. Qed.

Lemma cluster_sectors_elem c s :
  s ∈ cluster_sectors v c <-> first_sector v c <= s < first_sector v c + sectors_per_cluster v.
Proof. unfold cluster_sectors. by rewrite elem_of_seqZ. Qed.

Lemma cluster_sectors_data c s :
  cvalid v c = true -> s ∈ cluster_sectors v c ->
  data_start_sector v <= s < volume_sectors v.
Proof. intros Hc. rewrite cluster_sectors_elem. pose proof (first_sector_range c Hc). lia. Qed.

Lemma cluster_sectors_disjoint c1 c2 s :
  s ∈ cluster_sectors v c1 -> s ∈ cluster_sectors v c2 -> c1 = c2.
Proof. rewrite !cluster_sectors_elem. pose proof (geom_spc v G). unfold first_sector. nia. Qed.

Lemma data_start_pos : 1 <= data_start_sector v.
Proof. geom. nia. Qed.

Lemma cvalid_index c : cvalid v c = true -> 0 <= c < FIRST_DATA_CLUSTER + cluster_count v.
Proof. rewrite cvalid_spec. unfold FIRST_DATA_CLUSTER. lia. Qed.

Lemma eoc_invalid : cvalid v FAT32_EOC = false.
Proof. unfold cvalid, FAT32_EOC. geom. apply andb_false_iff. right. apply Z.ltb_ge. lia. Qed.

(** Under a good geometry the address arithmetic does not overflow. *)
Lemma valid_cluster_eq {D} c : @valid_cluster D v c = pret (cvalid v c).
Proof.
  unfold valid_cluster, cvalid. destruct (FIRST_DATA_CLUSTER <=? c); [|done].
  rewrite u32_add_ok; [done|]. geom. lia.
Qed.

Lemma first_sector_of_cluster_eq {D} c :
  cvalid v c = true -> @first_sector_of_cluster D v c = pret (first_sector v c).
Proof.
  intros Hc. pose proof (first_sector_range c Hc). unfold first_sector_of_cluster.
  geom. rewrite u32_sub_ok by (unfold in_width, U32; lia).
  unfold pbind at 1. cbn. rewrite u32_mul_ok by (unfold in_width, U32; nia).
  unfold pbind at 1. cbn. by rewrite u32_add_ok by (unfold in_width, U32; nia).
Qed.
End Geometry.

(** ** FAT entries *)

Lemma land_mask_range z : 0 <= z -> 0 <= Z.land z FAT32_ENTRY_MASK < 2 ^ 28.
Proof. intros. apply land_bound; [lia|done|]. unfold FAT32_ENTRY_MASK. lia. Qed.

Lemma land_mask_small z : 0 <= z < 2 ^ 28 -> Z.land z FAT32_ENTRY_MASK = z.
Proof.
  intros. change FAT32_ENTRY_MASK with (Z.ones 28). rewrite Z.land_ones by lia.
  by apply Z.mod_small.
Qed.

Lemma new_raw_range old value : 0 <= old -> 0 <= value -> 0 <= new_raw old value < 256 ^ 4.
Proof.
  intros. unfold new_raw. change (256 ^ 4) with (2 ^ 32).
  apply lor_bound; [lia| |].
  - apply land_bound; [lia|done|]. done.
  - apply land_bound; [lia|done|]. unfold FAT32_ENTRY_MASK. lia.
Qed.

(** The 28 significant bits are the new value ... *)
Lemma new_raw_mask old value :
  Z.land (new_raw old value) FAT32_ENTRY_MASK = Z.land value FAT32_ENTRY_MASK.
Proof.
  unfold new_raw. rewrite Z.land_lor_distr_l, <- !Z.land_assoc.
  change (Z.land (Z.lxor FAT32_ENTRY_MASK 0xFFFFFFFF) FAT32_ENTRY_MASK) with 0.
  by rewrite Z.land_0_r, Z.lor_0_l, Z.land_diag.
Qed.

(** ... and the four reserved bits are those of the old one. *)
Lemma new_raw_reserved old value :
  Z.land (new_raw old value) 0xF0000000 = Z.land old 0xF0000000.
Proof.
  unfold new_raw. rewrite Z.land_lor_distr_l, <- !Z.land_assoc.
  change (Z.land FAT32_ENTRY_MASK 0xF0000000) with 0.
  by rewrite Z.land_0_r, Z.lor_0_r.
Qed.

Lemma fat_raw_range v V copy c : 0 <= c -> 0 <= fat_raw v V copy c < 256 ^ 4.
Proof.
  intros Hc. unfold fat_raw. pose proof (fat_offset_bound c Hc).
  pose proof (from_le_range (slice (sector V (fat_sector v copy c)) (fat_offset c) 4)) as Hr.
  rewrite length_slice in Hr; [exact Hr|]. rewrite length_sector. lia.
Qed.

Lemma fat_of_range v V c : 0 <= c -> 0 <= fat_of v V c < 2 ^ 28.
Proof. intros Hc. apply land_mask_range. apply fat_raw_range, Hc. Qed.

Lemma read_u32_sector V lba off :
  (off + 4 <= SECTOR_SIZE)%nat ->
  read_u32 (sector V lba) off = Some (from_le (slice (sector V lba) off 4)).
Proof.
  intros. unfold read_u32. rewrite length_sector.
  by rewrite (proj2 (Nat.leb_le (off + 4) SECTOR_SIZE)).
Qed.

(** The sector of an entry after the entry is set. *)
Definition set_entry (v : Fat32) (V : gmap Z (list byte)) (copy c value : Z) : gmap Z (list byte) :=
  <[fat_sector v copy c :=
      splice (sector V (fat_sector v copy c)) (fat_offset c)
             (to_le 4 (new_raw (fat_raw v V copy c) value))]> V.

Section Entries.
Context (v : Fat32) (G : geom_ok v).
#[local] Notation "'index' c" := (0 <= c < FIRST_DATA_CLUSTER + cluster_count v) (at level 10, c at level 9).

Lemma length_set_entry V copy c value :
  0 <= c ->
  length (splice (sector V (fat_sector v copy c)) (fat_offset c)
                 (to_le 4 (new_raw (fat_raw v V copy c) value))) = SECTOR_SIZE.
Proof.
  intros Hc. pose proof (fat_offset_bound c Hc).
  rewrite length_splice; rewrite ?length_sector, ?length_to_le; done.
Qed.

Lemma set_entry_raw V copy c value copy' c' :
  0 <= value -> 0 <= copy < num_fats v -> 0 <= copy' < num_fats v -> index c -> index c' ->
  fat_raw v (set_entry v V copy c value) copy' c' =
    if (c' =? c) && (copy' =? copy) then new_raw (fat_raw v V copy c) value else fat_raw v V copy' c'.
Proof.
  intros Hv Hk Hk' Hc Hc'. pose proof (fat_offset_bound c ltac:(lia)) as Ho.
  pose proof (fat_raw_range v V copy c ltac:(lia)) as Hr.
  pose proof (new_raw_range (fat_raw v V copy c) value ltac:(lia) Hv) as Hn.
  unfold fat_raw at 1, set_entry.
  destruct (Z.eq_dec (fat_sector v copy c) (fat_sector v copy' c')) as [E|E].
  - rewrite <- E, sector_insert_eq by (apply length_set_entry; lia).
    apply fat_place_inj in E as [<- Ew]; [|done..]. rewrite Z.eqb_refl, andb_true_r.
    destruct (Z.eqb_spec c' c) as [->|Hne].
    + erewrite slice_splice_eq by (rewrite ?length_to_le, ?length_sector; lia).
      rewrite from_to_le. by rewrite Z.mod_small.
    + assert (fat_sector v copy c' = fat_sector v copy c) as Es by (unfold fat_sector; lia).
      unfold fat_raw. rewrite Es.
      destruct (fat_offset_disjoint c' c) as [Hd|Hd]; try lia.
      * rewrite slice_splice_before; [done|lia|rewrite length_sector; lia].
      * rewrite slice_splice_after; [done|rewrite length_to_le; lia|rewrite length_sector; lia].
  - rewrite sector_insert_ne by done. destruct (Z.eqb_spec c' c) as [->|], (Z.eqb_spec copy' copy) as [->|];
      done.
Qed.

Lemma set_entry_rest V copy c value s :
  0 <= copy < num_fats v -> index c -> ~ (fat_start_sector v <= s < data_start_sector v) ->
  sector (set_entry v V copy c value) s = sector V s.
Proof.
  intros Hk Hc Hs. unfold set_entry. apply sector_insert_ne.
  pose proof (fat_sector_range v G copy c Hk Hc). lia.
Qed.

Lemma fat_updated_0 V c value : fat_updated v V V 0 c value.
Proof.
  split; [|done]. intros copy c' Hk Hc'.
  rewrite (proj2 (Z.ltb_ge copy 0)) by lia. by rewrite andb_false_r.
Qed.

Lemma fat_updated_S V V' k c value :
  0 <= value -> 0 <= k < num_fats v -> index c ->
  fat_updated v V V' k c value -> fat_updated v V (set_entry v V' k c value) (k + 1) c value.
Proof.
  intros Hv Hk Hc [Hraw Hrest]. split.
  - intros copy c' Hcopy Hc'. rewrite set_entry_raw by done. rewrite !Hraw by done.
    rewrite Z.ltb_irrefl, andb_false_r.
    destruct (Z.eqb_spec c' c) as [->|]; simpl; [|done].
    destruct (Z.eqb_spec copy k) as [->|]; simpl.
    + by rewrite (proj2 (Z.ltb_lt k (k + 1))) by lia.
    + destruct (Z.ltb_spec copy k), (Z.ltb_spec copy (k + 1)); done || lia.
  - intros s Hs. rewrite set_entry_rest by done. by apply Hrest.
Qed.

(** What an update of the first copies means for the entries the driver reads. *)
Lemma fat_updated_of V V' k c value c' :
  0 < k -> 0 <= value < 2 ^ 28 -> index c' -> fat_updated v V V' k c value ->
  fat_of v V' c' = if c' =? c then value else fat_of v V c'.
Proof.
  intros Hk Hv Hc' [Hraw _]. pose proof (geom_fats v G). unfold fat_of. rewrite Hraw by lia.
  rewrite (proj2 (Z.ltb_lt 0 k)), andb_true_r by lia.
  destruct (c' =? c); [|done]. by rewrite new_raw_mask, land_mask_small.
Qed.

Lemma fat_updated_of_0 V V' c value c' :
  index c' -> fat_updated v V V' 0 c value -> fat_of v V' c' = fat_of v V c'.
Proof.
  intros Hc' [Hraw _]. pose proof (geom_fats v G). unfold fat_of. rewrite Hraw by lia.
  by rewrite andb_false_r.
Qed.
End Entries.

(** ** Operations on one entry *)

Section EntryOps.
Context {D : Type} `{BL : BlockDevLaws D} (v : Fat32) (G : geom_ok v).

Lemma next_cluster_spec (d : D) c :
  cvalid v c = true -> computes v d (next_cluster v c) (inr (fat_of v (disk d) c)).
Proof.
  intros Hc. pose proof (cvalid_index v c Hc) as Hi.
  pose proof (fat_offset_bound c ltac:(lia)) as Ho.
  pose proof (geom_fats v G). pose proof (fat_sector_lt v G 0 c ltac:(lia) Hi) as Hs.
  assert (fat_start_sector v + c * 4 / Z.of_nat SECTOR_SIZE = fat_sector v 0 c) as E
    by (unfold fat_sector; lia).
  unfold next_cluster. rewrite u32_mul_ok by (geom; lia). rewrite pbind_ret.
  rewrite u32_add_ok by (rewrite E; pose proof (geom_end v G); unfold in_width; lia).
  rewrite pbind_ret, E.
  eapply computes_seq; [by apply wp_read|]. intros d1 _.
  eapply computes_seq; [by apply computes_unwrap, read_u32_sector|]. intros d2 _.
  apply computes_ret.
Qed.

Lemma write_fat_copy_spec (d : D) c value copy :
  0 <= c < FIRST_DATA_CLUSTER + cluster_count v -> 0 <= copy < num_fats v ->
  wp (write_fat_copy v (c * 4 / Z.of_nat SECTOR_SIZE) (fat_offset c) value copy)
     (fun _ d' => disk d' = set_entry v (disk d) copy c value /\ stays_reliable d d')
     (fun e d' => same_disk d d' /\ fault v d e) d.
Proof.
  intros Hc Hk. pose proof (fat_offset_bound c ltac:(lia)) as Ho.
  pose proof (fat_sector_lt v G copy c Hk Hc) as Hs.
  pose proof (fat_sector_range v G copy c Hk Hc). pose proof (fat_within v G c Hc).
  unfold fat_sector in * |-. unfold write_fat_copy.
  assert (0 <= copy * fat_size v) by (pose proof (geom_size v G); nia).
  pose proof (geom_end v G). pose proof (geom_start v G).
  rewrite u32_mul_ok by (unfold in_width; lia). rewrite pbind_ret.
  rewrite u32_add_ok by (unfold in_width; lia). rewrite pbind_ret.
  rewrite u32_add_ok by (unfold in_width; lia). rewrite pbind_ret.
  apply wp_bind. eapply wp_mono; [apply (wp_read v d); lia| |]; simpl.
  2: { intros e d' [? [?|?]]; [done|by split]. }
  intros buf d1 [[= <-] [E1 Hs1]]. apply wp_bind.
  eapply wp_unwrap; [by apply read_u32_sector|].
  eapply wp_mono; [apply (wp_write v d1); [lia|]| |]; simpl.
  - apply (length_set_entry v (disk d) copy c value). lia.
  - intros _ d' [E2 Hs2]. split; [|by eauto using stays_trans]. by rewrite E2, E1.
  - intros e d' [[E2 Hs2] Hf]. split; [split; [by rewrite E2|by eauto using stays_trans]|].
    by eauto using fault_stays.
Qed.

(** All copies of the FAT, or on a failure of the device the first few. *)
Lemma write_fat_entry_spec (d : D) c value :
  cvalid v c = true -> 0 <= value ->
  wp (write_fat_entry v c value)
     (fun _ d' => fat_updated v (disk d) (disk d') (num_fats v) c value /\ stays_reliable d d')
     (fun e d' => (exists k, 0 <= k < num_fats v /\ fat_updated v (disk d) (disk d') k c value) /\
                  stays_reliable d d' /\ fault v d e) d.
Proof.
  intros Hc Hv. pose proof (cvalid_index v c Hc) as Hi. unfold write_fat_entry.
  rewrite u32_mul_ok by (geom; lia). rewrite pbind_ret.
  pose proof (geom_fats v G).
  apply (wp_pfold_range _ (fun k (_ : unit) d' => fat_updated v (disk d) (disk d') k c value /\
                                         stays_reliable d d')).
  - lia.
  - split; [apply fat_updated_0|apply stays_refl].
  - intros k [] d1 Hk [Hu Hs1].
    eapply wp_mono; [by apply (write_fat_copy_spec d1 c value k Hi)| |]; simpl.
    + intros _ d2 [E Hs2]. rewrite E. split; [by apply fat_updated_S|by eauto using stays_trans].
    + intros e d2 [[E Hs2] Hf]. rewrite E. split_and!; [by exists k|by eauto using stays_trans|].
      by eauto using fault_stays.
Qed.
End EntryOps.

(** ** Mounting *)

(** The fields of the BPB [mount] uses. *)
Definition bpb16 (b : list byte) (o : nat) : Z := from_le (slice b o 2).
Definition bpb32 (b : list byte) (o : nat) : Z := from_le (slice b o 4).

Definition bpb_data_start (b : list byte) : Z := bpb16 b 14 + u8_at b 16 * bpb32 b 36.

Definition bpb_volume (b : list byte) : Fat32 :=
  mkFat32 (u8_at b 13) (bpb16 b 14) (bpb_data_start b) (bpb32 b 44)
          (Z.max 0 (bpb32 b 32 - bpb_data_start b) / u8_at b 13) (u8_at b 16) (bpb32 b 36).

Definition bpb_fat32 (b : list byte) : bool :=
  (bpb16 b 17 =? 0) && (bpb16 b 22 =? 0) && negb (bpb32 b 36 =? 0) && negb (u8_at b 13 =? 0)
  && negb (u8_at b 16 =? 0).

(** What [mount] makes of boot sector [b]; a data area that starts past 2^32
    sectors is an arithmetic overflow. *)
Definition parse_bpb (b : list byte) : FatError + option Fat32 :=
  if negb (bpb16 b 11 =? 512) then inl UnsupportedSectorSize
  else if negb (bpb_fat32 b) then inl NotFat32
  else inr (if bpb_data_start b <? U32 then Some (bpb_volume b) else None).

Section Mount.
Context {D : Type} `{BL : BlockDevLaws D}.

Lemma sector_u16 V lba o : (o + 2 <= SECTOR_SIZE)%nat -> read_u16 (sector V lba) o = Some (bpb16 (sector V lba) o).
Proof.
  intros. unfold read_u16. rewrite length_sector. by rewrite (proj2 (Nat.leb_le (o + 2) SECTOR_SIZE)).
Qed.

Lemma sector_u8 V lba o : (o < SECTOR_SIZE)%nat -> b2z <$> sector V lba !! o = Some (u8_at (sector V lba) o).
Proof.
  intros. unfold u8_at. destruct (lookup_lt_is_Some_2 (sector V lba) o) as [b Hb]; [by rewrite length_sector|].
  by rewrite Hb.
Qed.

Lemma bpb16_nonneg b o : 0 <= bpb16 b o.
Proof. apply from_le_range. Qed.

Lemma bpb32_nonneg b o : 0 <= bpb32 b o.
Proof. apply from_le_range. Qed.

(** [mount] after the boot sector [b] is read and its fields are fetched. *)
Definition mount_rest (b : list byte) : prog D FatError Fat32 :=
  if negb (bpb16 b 11 =? 512) then pfail UnsupportedSectorSize
  else if negb (bpb_fat32 b) then pfail NotFat32
  else let! fats := u32_mul (u8_at b 16) (bpb32 b 36) in
       let! ds := u32_add (bpb16 b 14) fats in
       pret (mkFat32 (u8_at b 13) (bpb16 b 14) ds (bpb32 b 44)
              (Z.max 0 (bpb32 b 32 - ds) / u8_at b 13) (u8_at b 16) (bpb32 b 36)).

Lemma mount_eq V :
  exists body, mount = pbind (blk (read_sector 0)) body /\ body (sector V 0) = mount_rest (sector V 0).
Proof.
  eexists. split; [reflexivity|]. cbn beta. unfold mount_rest, bpb_fat32.
  change (Z.of_nat SECTOR_SIZE) with 512. rewrite !negb_andb, !negb_involutive.
  rewrite (sector_u16 _ _ 11) by (unfold SECTOR_SIZE; lia). cbn [punwrap]. rewrite pbind_ret.
  destruct (bpb16 (sector V 0) 11 =? 512); cbn [negb]; [|done].
  rewrite !sector_u16, !sector_u8, !read_u32_sector by (unfold SECTOR_SIZE; lia). cbn [punwrap].
  by rewrite !pbind_ret.
Qed.

Lemma mount_rest_eq b :
  mount_rest b = match parse_bpb b with
                 | inl e => pfail e
                 | inr (Some w) => pret w
                 | inr None => ppanic
                 end.
Proof.
  unfold mount_rest, parse_bpb. destruct (bpb16 b 11 =? 512); cbn [negb]; [|done].
  destruct (bpb_fat32 b); cbn [negb]; [|done]. unfold bpb_volume, bpb_data_start.
  pose proof (u8_at_range b 16). pose proof (bpb32_nonneg b 36). pose proof (bpb16_nonneg b 14).
  unfold u32_mul, u32_add, checked.
  rewrite (proj2 (Z.leb_le 0 (u8_at b 16 * bpb32 b 36))) by nia.
  destruct (Z.ltb_spec (u8_at b 16 * bpb32 b 36) U32); cbn [andb punwrap].
  - rewrite pbind_ret, (proj2 (Z.leb_le 0 (bpb16 b 14 + _))) by nia. cbn [andb].
    by destruct (_ <? U32).
  - by rewrite (proj2 (Z.ltb_ge (bpb16 b 14 + u8_at b 16 * bpb32 b 36) U32)) by lia.
Qed.

(** Every outcome of [mount], in terms of the boot sector. *)
Lemma mount_spec v (d : D) :
  0 < volume_sectors v ->
  match parse_bpb (sector (disk d) 0) with
  | inl e => computes v d mount (inl e)
  | inr (Some w) => computes v d mount (inr w)
  | inr None => forall r d', mount d = (r, d') -> r = Panic \/ exists e, r = Fail e /\ fault v d e
  end.
Proof.
  intros Hv. destruct (mount_eq (disk d)) as (body & -> & Eb). rewrite mount_rest_eq in Eb.
  pose proof (wp_read v d 0 ltac:(lia)) as Hr.
  destruct (parse_bpb (sector (disk d) 0)) as [e|[w|]].
  - eapply computes_seq; [exact Hr|]. intros d1 _. rewrite Eb. apply computes_fail.
  - eapply computes_seq; [exact Hr|]. intros d1 _. rewrite Eb. apply computes_ret.
  - intros r d' E. unfold computes, wp, pbind in *.
    destruct (blk (read_sector 0) d) as [[buf|e| |] d1]; try done.
    + destruct Hr as [[= <-] _]. rewrite Eb in E. injection E as <- _. by left.
    + destruct Hr as [_ [?|?]]; [done|]. injection E as <- _. eauto.
Qed.

(** A consistent BPB gives a good geometry. *)
Lemma parse_bpb_geom b w :
  parse_bpb b = inr (Some w) -> 1 <= bpb16 b 14 -> bpb_data_start b <= bpb32 b 32 ->
  4 * (FIRST_DATA_CLUSTER + cluster_count w) <= Z.of_nat SECTOR_SIZE * bpb32 b 36 ->
  FIRST_DATA_CLUSTER + cluster_count w <= 0x0FFFFFF7 ->
  length b = SECTOR_SIZE -> geom_ok w.
Proof.
  unfold parse_bpb, bpb_fat32. intros E Hr Ht Hfit Heoc Hlen.
  destruct (bpb16 b 11 =? 512); cbn [negb] in E; [|done].
  destruct (_ && _)%bool eqn:Ef in E; cbn [negb] in E; [|done]. zbool.
  destruct (bpb_data_start b <? U32) eqn:Eds; [|done]. injection E as <-. zbool.
  pose proof (u8_at_range b 13). pose proof (u8_at_range b 16). pose proof (bpb32_nonneg b 36).
  pose proof (from_le_range (slice b 32 4)) as H32. rewrite length_slice in H32 by (rewrite Hlen; unfold SECTOR_SIZE; lia).
  change (256 ^ Z.of_nat 4) with U32 in H32. fold (bpb32 b 32) in H32.
  cbn [cluster_count bpb_volume] in Hfit, Heoc |- *. rewrite Z.max_r in * by lia.
  assert (0 <= (bpb32 b 32 - bpb_data_start b) / u8_at b 13) by (apply Z.div_pos; lia).
  assert ((bpb32 b 32 - bpb_data_start b) / u8_at b 13 * u8_at b 13 <= bpb32 b 32 - bpb_data_start b).
  { rewrite Z.mul_comm. apply Z.mul_div_le. lia. }
  split; unfold volume_sectors; cbn [sectors_per_cluster num_fats fat_start_sector fat_size
    data_start_sector cluster_count bpb_volume]; rewrite ?Z.max_r by lia; try lia. done.
Qed.
End Mount.
