(* ===== verification/FatAlloc.v ===== *)
(** * FAT32 driver: allocation

    Chains of clusters in the FAT; [alloc_cluster], [free_chain] and
    [alloc_chain] of [src/fs/fat.rs] against them. *)

From stdpp Require Import base numbers list gmap.
From Stdlib Require Import ZArith Lia.
From S2P Require Import Prelude BlockDev Fat FatLayout.
#[local] Open Scope Z_scope.

(** The sectors outside the FATs are the same: boot sector and data area. *)
Definition rest_same (v : Fat32) (V V' : gmap Z (list byte)) : Prop :=
  forall s, ~ (fat_start_sector v <= s < data_start_sector v) -> sector V' s = sector V s.

(** The FAT of [V'] is [f], and nothing outside the FAT differs from [V]. *)
Record fat_becomes (v : Fat32) (V V' : gmap Z (list byte)) (f : Z -> Z) : Prop := {
  becomes_fat : forall c, cvalid v c = true -> fat_of v V' c = f c;
  becomes_rest : rest_same v V V';
}.

Definition fset (f : Z -> Z) (c value : Z) : Z -> Z := fun x => if x =? c then value else f x.

(** The clusters a loop over the chain of [c] visits within [n] steps. *)
Fixpoint walk (v : Fat32) (V : gmap Z (list byte)) (n : nat) (c : Z) : list Z :=
  if cvalid v c then
    match n with
    | O => []
    | S n' => c :: walk v V n' (fat_of v V c)
    end
  else [].

(** [l] is a whole chain from [c]: each entry names the next cluster, the last
    one is an end mark. *)
Record chain (v : Fat32) (V : gmap Z (list byte)) (c : Z) (l : list Z) : Prop := {
  chain_head : head l = Some c;
  chain_valid : forall x, x ∈ l -> cvalid v x = true;
  chain_next : forall i x y, l !! i = Some x -> l !! S i = Some y -> fat_of v V x = y;
  chain_last : forall x, last l = Some x -> fat_of v V x <> 0 /\ cvalid v (fat_of v V x) = false;
  chain_nodup : NoDup l;
}.

(** ** Lemmas on chains *)

Section Chains.
Context (v : Fat32).
Implicit Types V : gmap Z (list byte).

Lemma rest_same_refl V : rest_same v V V.
Proof. by intros s. Qed.

Lemma rest_same_trans V1 V2 V3 : rest_same v V1 V2 -> rest_same v V2 V3 -> rest_same v V1 V3.
Proof. intros H1 H2 s Hs. by rewrite H2, H1. Qed.

Lemma fat_becomes_refl V : fat_becomes v V V (fat_of v V).
Proof. by split. Qed.

Lemma fat_becomes_trans V1 V2 V3 f g :
  fat_becomes v V1 V2 f -> fat_becomes v V2 V3 g -> fat_becomes v V1 V3 g.
Proof. intros [] []. split; [done|]. by eapply rest_same_trans. Qed.

Lemma fat_becomes_ext V V' f g :
  (forall c, cvalid v c = true -> f c = g c) -> fat_becomes v V V' f -> fat_becomes v V V' g.
Proof. intros E [Hf Hr]. split; [|done]. intros c Hc. by rewrite Hf, E. Qed.

Lemma walk_valid V n c x : x ∈ walk v V n c -> cvalid v x = true.
Proof.
  revert c; induction n as [|n IH]; intros c; simpl; destruct (cvalid v c) eqn:E;
    rewrite ?elem_of_nil; try done.
  rewrite elem_of_cons. intros [->|?]; eauto.
Qed.

Lemma walk_ext V V' n c :
  (forall x, x ∈ walk v V n c -> fat_of v V' x = fat_of v V x) -> walk v V' n c = walk v V n c.
Proof.
  revert c; induction n as [|n IH]; intros c Hx; [done|]. cbn [walk] in *.
  destruct (cvalid v c); [|done]. rewrite Hx by left. f_equal. apply IH. intros. apply Hx. by right.
Qed.

Lemma chain_cons_inv V c x y l :
  chain v V c (x :: y :: l) -> c = x /\ cvalid v x = true /\ fat_of v V x = y /\ chain v V y (y :: l).
Proof.
  intros [Hh Hv Hn Hl Hd]. split_and!.
  - by injection Hh.
  - apply Hv. left.
  - by apply (Hn 0%nat).
  - split; [done| | |done|by inversion Hd].
    + intros z Hz. apply Hv. by right.
    + intros i a b. apply (Hn (S i)).
Qed.

Lemma chain_single_inv V c x :
  chain v V c [x] -> c = x /\ cvalid v x = true /\ fat_of v V x <> 0 /\ cvalid v (fat_of v V x) = false.
Proof.
  intros [Hh Hv _ Hl _]. split; [by injection Hh|]. split; [apply Hv; left|]. by apply Hl.
Qed.

Lemma chain_walk V c l n : chain v V c l -> walk v V n c = take n l.
Proof.
  revert c n; induction l as [|x [|y l] IH]; intros c n Hc.
  - by destruct Hc.
  - apply chain_single_inv in Hc as (-> & Hv & _ & He).
    destruct n as [|n]; cbn [walk]; rewrite Hv; [done|]. destruct n; cbn [walk]; by rewrite He.
  - apply chain_cons_inv in Hc as (-> & Hv & Hx & Hc).
    destruct n; cbn [walk]; rewrite Hv; [done|]. rewrite Hx. cbn. f_equal. by apply IH.
Qed.

Lemma chain_length V c l :
  0 <= cluster_count v -> chain v V c l -> (length l <= Z.to_nat (cluster_count v))%nat.
Proof.
  intros Hcc [_ Hv _ _ Hd]. rewrite <- (length_seqZ FIRST_DATA_CLUSTER).
  apply submseteq_length, NoDup_submseteq; [done|]. intros x Hx%Hv.
  apply cvalid_spec in Hx. by apply elem_of_seqZ.
Qed.

Lemma chain_full_walk V c l :
  0 <= cluster_count v -> chain v V c l -> walk v V (Z.to_nat (cluster_count v)) c = l.
Proof. intros ? Hc. erewrite chain_walk by done. apply take_ge. by eapply chain_length. Qed.

Lemma chain_nonempty V c l : chain v V c l -> c ∈ l.
Proof. intros [Hh _ _ _ _]. destruct l; [done|]. injection Hh as ->. left. Qed.

(** Every cluster of a chain is allocated. *)
Lemma chain_allocated V c l x : chain v V c l -> x ∈ l -> fat_of v V x <> 0.
Proof.
  revert c; induction l as [|y [|z l] IH]; intros c Hc Hx; [by apply elem_of_nil in Hx| |].
  - apply list_elem_of_singleton in Hx as ->. by apply chain_single_inv in Hc as (_ & _ & ? & _).
  - apply chain_cons_inv in Hc as (-> & Hv & Hy & Hc). apply elem_of_cons in Hx as [->|Hx]; [|eauto].
    pose proof (chain_valid _ _ _ _ Hc z ltac:(left)) as Hz. apply cvalid_spec in Hz.
    unfold FIRST_DATA_CLUSTER in Hz. lia.
Qed.

Lemma chain_ext V V' c l :
  (forall x, x ∈ l -> fat_of v V' x = fat_of v V x) -> chain v V c l -> chain v V' c l.
Proof.
  intros E [Hh Hv Hn Hl Hd]. split; try done.
  - intros i x y Hx Hy. rewrite E by (by eapply list_elem_of_lookup_2). by eapply Hn.
  - intros x Hx. rewrite E by (by apply last_Some_elem_of). by apply Hl.
Qed.

Lemma chain_snoc V V' c l p x :
  chain v V c (l ++ [p]) -> x ∉ l ++ [p] -> cvalid v x = true ->
  (forall y, y ∈ l -> fat_of v V' y = fat_of v V y) -> fat_of v V' p = x ->
  fat_of v V' x <> 0 -> cvalid v (fat_of v V' x) = false ->
  chain v V' c ((l ++ [p]) ++ [x]).
Proof.
  intros [Hh Hv Hn Hl Hd] Hx Hvx El Ep Ex Eex. split.
  - destruct l; done.
  - intros y [?| ->%list_elem_of_singleton]%elem_of_app; auto.
  - intros i y z Hy Hz. destruct (Nat.lt_total i (length l)) as [Hi|[->|Hi]].
    + assert (y ∈ l).
      { rewrite <- app_assoc, lookup_app_l in Hy by done. by eapply list_elem_of_lookup_2. }
      rewrite El by done. apply (Hn i).
      * by rewrite lookup_app_l in Hy by (rewrite length_app; simpl; lia).
      * by rewrite lookup_app_l in Hz by (rewrite length_app; simpl; lia).
    + rewrite <- app_assoc in Hy. cbn [app] in Hy. rewrite list_lookup_middle in Hy by done.
      rewrite lookup_app_r in Hz by (rewrite length_app; simpl; lia).
      replace (S (length l) - length (l ++ [p]))%nat with 0%nat in Hz
        by (rewrite length_app; simpl; lia).
      injection Hy as ->. by injection Hz as ->.
    + apply lookup_lt_Some in Hz. rewrite !length_app in Hz. simpl in Hz. lia.
  - intros y. rewrite last_snoc. by intros [= ->].
  - apply NoDup_app. split_and!; [done| |apply NoDup_singleton].
    intros y Hy ->%list_elem_of_singleton. done.
Qed.
End Chains.

(** ** Allocating and freeing *)

Section Alloc.
Context {D : Type} `{BL : BlockDevLaws D} (v : Fat32) (G : geom_ok v).

Lemma fset_eq f c x : fset f c x c = x.
Proof. unfold fset. by rewrite Z.eqb_refl. Qed.

Lemma fset_ne f c x y : y <> c -> fset f c x y = f y.
Proof. unfold fset. intros. by rewrite (proj2 (Z.eqb_neq y c)). Qed.

Lemma fat_updated_becomes V V' k c value :
  0 < k -> 0 <= value < 2 ^ 28 -> fat_updated v V V' k c value ->
  fat_becomes v V V' (fset (fat_of v V) c value).
Proof.
  intros Hk Hv Hu. split; [|exact (upd_rest _ _ _ _ _ _ Hu)].
  intros c' Hc'%cvalid_index. by eapply fat_updated_of.
Qed.

Lemma write_fat_entry_becomes (d : D) c value :
  cvalid v c = true -> 0 <= value < 2 ^ 28 ->
  wp (write_fat_entry v c value)
     (fun _ d' => fat_becomes v (disk d) (disk d') (fset (fat_of v (disk d)) c value) /\
                  stays_reliable d d')
     (fun e d' => (fat_becomes v (disk d) (disk d') (fat_of v (disk d)) \/
                   fat_becomes v (disk d) (disk d') (fset (fat_of v (disk d)) c value)) /\
                  stays_reliable d d' /\ fault v d e) d.
Proof.
  intros Hc Hv. pose proof (geom_fats v G).
  eapply wp_mono; [apply write_fat_entry_spec; [done..|lia]| |]; simpl.
  - intros _ d' [Hu ?]. split; [|done]. eapply fat_updated_becomes; [|done..]. lia.
  - intros e d' [(k & Hk & Hu) ?]. split; [|done].
    destruct (Z.eq_dec k 0) as [->|]; [left|right; eapply fat_updated_becomes; [|done..]; lia].
    split; [|exact (upd_rest _ _ _ _ _ _ Hu)].
    intros c' Hc'%cvalid_index. by eapply fat_updated_of_0.
Qed.

(** [alloc_cluster] looks at the same entries as [next_cluster]. *)
Lemma alloc_entry V c :
  cvalid v c = true ->
  read_u32 (sector V (fat_start_sector v + c / FAT_ENTRIES_PER_SECTOR))
           (Z.to_nat (c mod FAT_ENTRIES_PER_SECTOR) * 4) = Some (fat_raw v V 0 c).
Proof.
  intros Hc%cvalid_index. pose proof (fat_offset_bound c ltac:(lia)) as Ho.
  replace (Z.to_nat (c mod FAT_ENTRIES_PER_SECTOR) * 4)%nat with (fat_offset c).
  - rewrite read_u32_sector by done. unfold fat_raw.
    enough (fat_sector v 0 c = fat_start_sector v + c / FAT_ENTRIES_PER_SECTOR) as -> by done.
    unfold fat_sector. change (Z.of_nat SECTOR_SIZE) with (128 * 4).
    change FAT_ENTRIES_PER_SECTOR with 128. rewrite Z.div_mul_cancel_r by done. lia.
  - unfold fat_offset. change (Z.of_nat SECTOR_SIZE) with (128 * 4).
    change FAT_ENTRIES_PER_SECTOR with 128. rewrite Z.mul_mod_distr_r by done.
    pose proof (Z.mod_pos_bound c 128 ltac:(done)). lia.
Qed.

(** What taking the free cluster [c] does. *)
Definition took (V V' : gmap Z (list byte)) (c : Z) : Prop :=
  cvalid v c = true /\ fat_of v V c = 0 /\ fat_becomes v V V' (fset (fat_of v V) c FAT32_EOC).

Definition busy_below (V : gmap Z (list byte)) (c : Z) : Prop :=
  forall x, FIRST_DATA_CLUSTER <= x < c -> fat_of v V x <> 0.

Definition took_or_fault (d : D) (e : FatError) (d' : D) : Prop :=
  stays_reliable d d' /\ fault v d e /\
  (fat_becomes v (disk d) (disk d') (fat_of v (disk d)) \/ exists c, took (disk d) (disk d') c).

Lemma alloc_in_sector_spec fuel (d : D) c here :
  FIRST_DATA_CLUSTER <= c -> (0 < fuel)%nat ->
  (c / FAT_ENTRIES_PER_SECTOR = here ->
   FAT_ENTRIES_PER_SECTOR - c mod FAT_ENTRIES_PER_SECTOR < Z.of_nat fuel) ->
  in_width U32 here -> busy_below (disk d) c ->
  wp (alloc_in_sector v fuel (fat_start_sector v + here) (sector (disk d) (fat_start_sector v + here))
                      (FIRST_DATA_CLUSTER + cluster_count v) c)
     (fun r d' => match r with
        | inl x => took (disk d) (disk d') x /\ busy_below (disk d) x /\ stays_reliable d d'
        | inr x => c <= x /\ (c < FIRST_DATA_CLUSTER + cluster_count v ->
                             c / FAT_ENTRIES_PER_SECTOR = here -> c < x) /\
                   busy_below (disk d) x /\ d' = d
        end)
     (took_or_fault d) d.
Proof.
  revert c. induction fuel as [|fuel IH]; [lia|]. intros c Hc _ Hfuel Hw Hb. cbn [alloc_in_sector].
  destruct (Z.ltb_spec c (FIRST_DATA_CLUSTER + cluster_count v)) as [Hlt|Hge]; [|apply wp_ret; split_and!; done || lia].
  rewrite u32_sub_ok, pbind_ret by (by replace (_ - _) with here by lia).
  replace (_ - _) with here by lia.
  destruct (Z.eqb_spec (c / FAT_ENTRIES_PER_SECTOR) here) as [E|]; [|apply wp_ret; split_and!; done || lia].
  assert (cvalid v c = true) as Hv by (by apply cvalid_spec).
  apply wp_bind. eapply wp_unwrap; [rewrite <- E; by apply alloc_entry|].
  fold (fat_of v (disk d) c). destruct (Z.eqb_spec (fat_of v (disk d) c) 0) as [E0|E0].
  - apply wp_bind. eapply wp_mono; [by apply write_fat_entry_becomes| |]; simpl.
    + intros _ d' [Hf ?]. by apply wp_ret.
    + intros e d' ([Hf|Hf] & ? & ?); split_and!; try done; [by left|right; by exists c].
  - rewrite u32_add_ok, pbind_ret by (clear - G Hlt Hc; geom; lia).
    specialize (Hfuel E). unfold FAT_ENTRIES_PER_SECTOR, SECTOR_SIZE in *.
    change (Z.of_nat 512 / 4) with 128 in *.
    pose proof (Z.mod_pos_bound c 128 ltac:(lia)).
    eapply wp_mono; [apply IH; [lia..| |done|]| |done].
    + intros E'. pose proof (Z.div_mod c 128 ltac:(lia)). pose proof (Z.div_mod (c + 1) 128 ltac:(lia)).
      lia.
    + intros x Hx. destruct (Z.eq_dec x c) as [->|]; [done|]. apply Hb. lia.
    + intros [x|x] d' Hr; [done|]. destruct Hr as (? & ? & ? & ?). split_and!; try done; lia.
Qed.

(** What a failed allocation says: all clusters are taken, or the device failed. *)
Definition alloc_failed (d : D) (e : FatError) (d' : D) : Prop :=
  (e = NoSpace /\ same_disk d d' /\ forall c, cvalid v c = true -> fat_of v (disk d) c <> 0) \/
  took_or_fault d e d'.

Lemma took_or_fault_same (d d1 : D) e d' :
  same_disk d d1 -> took_or_fault d1 e d' -> took_or_fault d e d'.
Proof.
  intros [E Hs] (Hs' & Hf & Ht). rewrite E in Ht.
  split_and!; eauto using stays_trans, fault_stays.
Qed.

Lemma alloc_scan_spec fuel (d : D) c :
  FIRST_DATA_CLUSTER <= c -> FIRST_DATA_CLUSTER + cluster_count v - c < Z.of_nat fuel ->
  (0 < fuel)%nat -> busy_below (disk d) c ->
  wp (alloc_scan v fuel (FIRST_DATA_CLUSTER + cluster_count v) c)
     (fun x d' => took (disk d) (disk d') x /\ busy_below (disk d) x /\ stays_reliable d d')
     (alloc_failed d) d.
Proof.
  revert c d. induction fuel as [|fuel IH]; [lia|]. intros c d Hc Hfuel _ Hb. cbn [alloc_scan].
  destruct (Z.ltb_spec c (FIRST_DATA_CLUSTER + cluster_count v)) as [Hlt|Hge].
  2: { left. split_and!; [done|apply same_refl|]. intros x Hx%cvalid_spec. apply Hb. lia. }
  assert (cvalid v c = true) as Hv by (by apply cvalid_spec).
  pose proof (geom_fats v G). pose proof (geom_end v G). pose proof (geom_start v G).
  pose proof (fat_sector_lt v G 0 c ltac:(lia) (cvalid_index v c Hv)) as Hs.
  pose proof (fat_within v G c (cvalid_index v c Hv)) as Hw.
  assert (c * 4 / Z.of_nat SECTOR_SIZE = c / FAT_ENTRIES_PER_SECTOR) as E.
  { change (Z.of_nat SECTOR_SIZE) with (128 * 4). by rewrite Z.div_mul_cancel_r. }
  unfold fat_sector in Hs. rewrite E in *. set (here := c / FAT_ENTRIES_PER_SECTOR) in *.
  rewrite u32_add_ok, pbind_ret by (unfold in_width; lia).
  apply wp_bind. eapply wp_mono; [apply (wp_read v d); lia| |]; cbn beta.
  2: { intros e d' [Hs' [?|?]]; [done|]. right. destruct Hs' as [E' ?].
       split_and!; [done..|left]. rewrite E'. apply fat_becomes_refl. }
  intros buf d1 [[= <-] Hsame]. pose proof Hsame as [E1 Hs1]. rewrite <- E1. apply wp_bind.
  eapply wp_mono; [apply (alloc_in_sector_spec _ d1 c here); rewrite ?E1; try done| |].
  - lia.
  - intros _. unfold FAT_ENTRIES_PER_SECTOR, SECTOR_SIZE. change (Z.of_nat 512 / 4) with 128.
    pose proof (Z.mod_pos_bound c 128 ltac:(lia)). lia.
  - unfold in_width. lia.
  - rewrite E1. intros [x|x] d' Hr.
    + destruct Hr as (? & ? & ?). apply wp_ret. split_and!; eauto using stays_trans.
    + destruct Hr as (Hx & Hx' & Hbx & ->). specialize (Hx' Hlt eq_refl).
      eapply wp_mono; [apply IH; [lia..|by rewrite E1]| |]; rewrite ?E1.
      * intros y d' (? & ? & ?). split_and!; eauto using stays_trans.
      * intros e d' [(-> & Hd & Hn)|Hf]; [left|right; by eapply took_or_fault_same].
        rewrite E1 in Hn. split_and!; [done|by eapply same_trans|done].
  - intros e d' Hf. right. by eapply took_or_fault_same.
Qed.

Lemma alloc_cluster_spec (d : D) :
  wp (alloc_cluster v)
     (fun x d' => took (disk d) (disk d') x /\ busy_below (disk d) x /\ stays_reliable d d')
     (alloc_failed d) d.
Proof.
  unfold alloc_cluster. rewrite u32_add_ok, pbind_ret by (geom; lia).
  apply alloc_scan_spec; [done|pose proof (geom_count v G); lia|lia|].
  intros x Hx. lia.
Qed.

(** [free_chain] zeroes the entries it walks over; if the device fails, some of
    them. *)
Lemma free_chain_loop_spec n (d : D) c :
  NoDup (walk v (disk d) n c) ->
  wp (free_chain_loop v n c)
     (fun _ d' => fat_becomes v (disk d) (disk d')
                    (fun x => if decide (x ∈ walk v (disk d) n c) then 0 else fat_of v (disk d) x) /\
                  stays_reliable d d')
     (fun e d' => (exists f, fat_becomes v (disk d) (disk d') f /\
                     forall x, x ∉ walk v (disk d) n c -> f x = fat_of v (disk d) x) /\
                  stays_reliable d d' /\ fault v d e) d.
Proof.
  revert c d. induction n as [|n IH]; intros c d; cbn [free_chain_loop walk];
    rewrite (valid_cluster_eq v G), pbind_ret; destruct (cvalid v c) eqn:Hv; intros Hnd.
  1,2,4: apply wp_ret; split; [apply fat_becomes_refl|apply stays_refl].
  cbn [negb]. apply NoDup_cons in Hnd as [Hc Hnd].
  apply wp_bind. eapply wp_mono; [by apply next_cluster_spec| |]; cbn beta.
  2: { intros e d' [[E ?] [?|?]]; [done|]. rewrite E.
       split_and!; [exists (fat_of v (disk d))|done..]. split; [apply fat_becomes_refl|done]. }
  intros next d1 [[= <-] [E1 Hs1]]. apply wp_bind.
  eapply wp_mono; [by apply (write_fat_entry_becomes d1 c 0)| |]; cbn beta; rewrite E1.
  2: { intros e d' (Hf & Hs2 & Hft). split_and!; [|by eauto using stays_trans|by eauto using fault_stays].
       destruct Hf as [Hf|Hf]; eexists; (split; [exact Hf|]); [done|].
       intros x Hx. apply fset_ne. intros ->. apply Hx. left. }
  intros _ d2 [Hf2 Hs2].
  assert (walk v (disk d2) n (fat_of v (disk d) c) = walk v (disk d) n (fat_of v (disk d) c)) as Ew.
  { apply walk_ext. intros x Hx. rewrite (becomes_fat _ _ _ _ Hf2) by (by eapply walk_valid).
    apply fset_ne. by intros ->. }
  eapply wp_mono; [apply IH; by rewrite Ew| |]; cbn beta; rewrite Ew.
  - intros _ d3 [Hf3 Hs3]. split; [|by eauto using stays_trans].
    eapply fat_becomes_trans; [exact Hf2|]. eapply fat_becomes_ext; [|exact Hf3].
    intros x Hx; cbn beta. rewrite (becomes_fat _ _ _ _ Hf2) by done. unfold fset.
    destruct (Z.eqb_spec x c) as [->|].
    + rewrite decide_False by done. by rewrite decide_True by left.
    + destruct (decide (x ∈ walk _ _ _ _)).
      * by rewrite decide_True by (by right).
      * by rewrite decide_False by (by rewrite not_elem_of_cons).
  - intros e d3 ((f & Hf3 & Hx3) & Hs3 & Hft).
    split_and!; [|by eauto using stays_trans|by eauto using stays_trans, fault_stays].
    exists (fun x => if decide (cvalid v x = true) then f x else fat_of v (disk d) x). split.
    + eapply fat_becomes_trans; [exact Hf2|]. eapply fat_becomes_ext; [|exact Hf3].
      intros x Hx; cbn beta. by rewrite decide_True.
    + intros x [? ?]%not_elem_of_cons. case_decide as Hvx; [|done].
      rewrite Hx3, (becomes_fat _ _ _ _ Hf2) by done. by apply fset_ne.
Qed.

(** On a whole chain, [free_chain] returns all of its clusters. *)
Lemma free_chain_spec (d : D) c l :
  chain v (disk d) c l ->
  wp (free_chain v c)
     (fun _ d' => fat_becomes v (disk d) (disk d')
                    (fun x => if decide (x ∈ l) then 0 else fat_of v (disk d) x) /\
                  stays_reliable d d')
     (fun e d' => (exists f, fat_becomes v (disk d) (disk d') f /\
                     forall x, x ∉ l -> f x = fat_of v (disk d) x) /\
                  stays_reliable d d' /\ fault v d e) d.
Proof.
  intros Hc. pose proof (chain_full_walk v _ _ _ (geom_count v G) Hc) as Ew.
  pose proof (free_chain_loop_spec (Z.to_nat (cluster_count v)) d c) as Hf.
  rewrite Ew in Hf. apply Hf, Hc.
Qed.

(** Nothing that was allocated in [V] differs in [V']. *)
Record unharmed (V V' : gmap Z (list byte)) : Prop := {
  unharmed_rest : rest_same v V V';
  unharmed_fat : forall x, cvalid v x = true -> fat_of v V x <> 0 -> fat_of v V' x = fat_of v V x;
}.

(** The clusters [l] were free in [V]; they are all that differs in the FAT of [V']. *)
Record grown (V V' : gmap Z (list byte)) (l : list Z) : Prop := {
  grown_rest : rest_same v V V';
  grown_free : forall x, x ∈ l -> cvalid v x = true /\ fat_of v V x = 0;
  grown_fat : forall x, cvalid v x = true -> x ∉ l -> fat_of v V' x = fat_of v V x;
}.

Lemma grown_unharmed V V' l : grown V V' l -> unharmed V V'.
Proof. intros [Hr Hf Ho]. split; [done|]. intros x Hx Hn. apply Ho; [done|]. intros [_ ?]%Hf. done. Qed.

Lemma grown_took V V1 V2 l c : grown V V1 l -> took V1 V2 c -> c ∉ l -> grown V V2 (l ++ [c]).
Proof.
  intros [Hr Hf Ho] (Hv & H0 & [Hf2 Hr2]) Hc. split.
  - by eapply rest_same_trans.
  - intros x [?| ->%list_elem_of_singleton]%elem_of_app; [by apply Hf|]. split; [done|].
    by rewrite <- Ho.
  - intros x Hx [? Hne]%not_elem_of_app. rewrite Hf2 by done.
    rewrite fset_ne by (by rewrite not_elem_of_cons in Hne; destruct Hne). by apply Ho.
Qed.

Lemma grown_set V V1 V2 l c x :
  grown V V1 l -> c ∈ l -> fat_becomes v V1 V2 (fset (fat_of v V1) c x) -> grown V V2 l.
Proof.
  intros [Hr Hf Ho] Hc [Hf2 Hr2]. split; [by eapply rest_same_trans|done|].
  intros y Hy Hn. rewrite Hf2, fset_ne by (done || by intros ->). by apply Ho.
Qed.

Lemma grown_same V V1 V2 l : grown V V1 l -> fat_becomes v V1 V2 (fat_of v V1) -> grown V V2 l.
Proof.
  intros [Hr Hf Ho] [Hf2 Hr2]. split; [by eapply rest_same_trans|done|].
  intros y Hy Hn. rewrite Hf2 by done. by apply Ho.
Qed.

(** Freeing the new clusters gives back the FAT. *)
Lemma grown_freed V V1 V2 l :
  grown V V1 l ->
  fat_becomes v V1 V2 (fun x => if decide (x ∈ l) then 0 else fat_of v V1 x) ->
  fat_becomes v V V2 (fat_of v V).
Proof.
  intros [Hr Hf Ho] [Hf2 Hr2]. split; [|by eapply rest_same_trans].
  intros x Hx. rewrite Hf2 by done. case_decide as Hl; [by destruct (Hf x Hl)|by apply Ho].
Qed.

Lemma grown_partly_freed V V1 V2 l f :
  grown V V1 l -> fat_becomes v V1 V2 f -> (forall x, x ∉ l -> f x = fat_of v V1 x) -> grown V V2 l.
Proof.
  intros [Hr Hf Ho] [Hf2 Hr2] Hl. split; [by eapply rest_same_trans|done|].
  intros x Hx Hn. rewrite Hf2, Hl by done. by apply Ho.
Qed.

(** Releasing a new chain, ignoring the outcome: what was allocated before is
    unharmed and, if the device works and nothing else is new, the FAT is as
    before. *)
Lemma rollback_spec V (d : D) c l m :
  grown V (disk d) m -> chain v (disk d) c l -> l ⊆ m ->
  wp (pignore (free_chain v c))
     (fun _ d' => grown V (disk d') m /\ stays_reliable d d' /\
                  (reliable d (volume_sectors v) -> m = l -> fat_becomes v V (disk d') (fat_of v V)))
     (fun _ _ => False) d.
Proof.
  intros Hg Hc Hlm. apply wp_ignore. eapply wp_mono; [by eapply free_chain_spec| |]; cbn beta.
  - intros _ d' [Hf Hs]. split_and!; try done.
    + eapply grown_partly_freed; [done..|]. intros x Hx; cbn beta. rewrite decide_False; [done|].
      by intros ?%Hlm.
    + intros _ ->. by eapply grown_freed.
  - intros e d' ((f & Hf & Hx) & Hs & [_ Hn]). split_and!; [|done|done].
    eapply grown_partly_freed; [done..|]. intros x ?. apply Hx. by intros ?%Hlm.
Qed.

(** *** Chains *)

Definition chain_failed (V : gmap Z (list byte)) (d : D) (e : FatError) (d' : D) : Prop :=
  unharmed V (disk d') /\ stays_reliable d d' /\
  (fault v d e \/
   (e = NoSpace /\ (reliable d (volume_sectors v) -> fat_becomes v V (disk d') (fat_of v V)))).

(** The loop's state: no cluster yet, or a chain from [first] to [prev]. *)
Definition partial_chain (V : gmap Z (list byte)) (first prev : Z) (l : list Z) : Prop :=
  (l = [] /\ first = 0) \/ (chain v V first l /\ last l = Some prev).

Lemma took_chain V1 V2 l c first :
  chain v V1 first l -> took V1 V2 c -> (c ∉ l) /\ chain v V2 first l.
Proof.
  intros Hc (Hv & H0 & [Hf _]). assert (c ∉ l) as Hn.
  { intros Hcl. by eapply chain_allocated. }
  split; [done|]. eapply chain_ext; [|done]. intros x Hx.
  rewrite Hf by (by eapply chain_valid). apply fset_ne. by intros ->.
Qed.

Lemma chain_first_pos V c l : chain v V c l -> c <> 0.
Proof.
  intros Hc. pose proof (chain_valid _ _ _ _ Hc c (chain_nonempty _ _ _ _ Hc)) as Hv.
  apply cvalid_spec in Hv. unfold FIRST_DATA_CLUSTER in Hv. lia.
Qed.

(** After a failed allocation: the chain is still there, with at most one more
    new cluster besides it. *)
Lemma alloc_failed_grown V (d1 : D) first l e d2 :
  grown V (disk d1) l -> ((l = []) \/ chain v (disk d1) first l) -> alloc_failed d1 e d2 ->
  exists m, grown V (disk d2) m /\ l ⊆ m /\ ((l = []) \/ chain v (disk d2) first l) /\
    stays_reliable d1 d2 /\ (fault v d1 e \/ (e = NoSpace /\ m = l)).
Proof.
  intros Hg Hl [(-> & [E Hs] & _)|(Hs & Hf & [Hsame|[c Ht]])].
  - exists l. rewrite E. auto 10.
  - exists l. split_and!; auto.
    + by eapply grown_same.
    + destruct Hl as [?|Hl]; [by left|right]. eapply chain_ext; [|done]. intros x Hx.
      apply (becomes_fat _ _ _ _ Hsame). by eapply chain_valid.
  - exists (l ++ [c]). assert ((c ∉ l) /\ ((l = []) \/ chain v (disk d2) first l)) as [Hc Hl'].
    { destruct Hl as [->|Hl]; [split; [apply not_elem_of_nil|by left]|].
      edestruct took_chain; [done..|]. auto. }
    split_and!; auto; [by eapply grown_took|]. intros x Hx. apply elem_of_app. by left.
Qed.

Lemma alloc_rollback V (d d1 : D) first prev l e d2 (Q : Z -> D -> Prop) :
  grown V (disk d1) l -> partial_chain (disk d1) first prev l -> stays_reliable d d1 ->
  alloc_failed d1 e d2 ->
  wp ((if negb (first =? 0) then pignore (free_chain v first) else pret tt) ;;! pfail e)
     Q (chain_failed V d) d2.
Proof.
  intros Hg Hp Hs Hfail.
  edestruct alloc_failed_grown as (m & Hgm & Hlm & Hl & Hs2 & He); [exact Hg| |exact Hfail|].
  { destruct Hp as [[-> _]|[? _]]; [by left|by right]. }
  apply wp_bind. destruct (Z.eqb_spec first 0) as [->|Hne]; simpl.
  - apply wp_ret, wp_fail. split_and!; eauto using stays_trans, grown_unharmed.
    destruct He as [?|[-> ->]]; [left; by eauto using fault_stays|right].
    split; [done|]. intros _. destruct Hp as [[-> _]|[Hc _]]; [|by apply chain_first_pos in Hc].
    destruct Hgm as [? _ Ho]. split; [|done]. intros x Hx. apply Ho; [done|]. apply not_elem_of_nil.
  - destruct Hp as [[_ ?]|[Hc _]]; [done|]. destruct Hl as [->|Hl]; [by apply chain_nonempty, elem_of_nil in Hc|].
    eapply wp_mono; [by eapply rollback_spec| |done]; cbn beta.
    intros _ d3 (Hg3 & Hs3 & Hr3). apply wp_fail.
    split_and!; eauto using stays_trans, grown_unharmed.
    destruct He as [?|[-> ->]]; [left; by eauto using fault_stays|right]. eauto 10.
Qed.

Lemma took_eoc V V' c : took V V' c -> fat_of v V' c = FAT32_EOC.
Proof. intros (Hv & _ & Hf). rewrite (becomes_fat _ _ _ _ Hf) by done. apply fset_eq. Qed.

(** The new cluster alone is a chain ... *)
Lemma took_singleton V V' c : took V V' c -> chain v V' c [c].
Proof.
  intros Ht. split; [done| | | |apply NoDup_singleton].
  - intros x ->%list_elem_of_singleton. apply Ht.
  - intros [|i] x y; done.
  - intros x [= <-]. rewrite (took_eoc _ _ _ Ht). split; [done|by apply eoc_invalid].
Qed.

(** ... and linking the last cluster to it extends the chain. *)
Lemma link_chain V1 V2 V3 l prev c first :
  chain v V1 first (l ++ [prev]) -> took V1 V2 c ->
  fat_becomes v V2 V3 (fset (fat_of v V2) prev c) -> chain v V3 first ((l ++ [prev]) ++ [c]).
Proof.
  intros Hc Ht Hf. destruct (took_chain _ _ _ _ _ Hc Ht) as [Hcl Hc2].
  assert (prev ∉ l) as Hp.
  { pose proof (chain_nodup _ _ _ _ Hc) as Hnd. apply NoDup_app in Hnd as (_ & Hd & _).
    intros Hx. apply (Hd _ Hx). left. }
  assert (prev ∈ l ++ [prev]) as Hprev by (apply elem_of_app; right; left).
  assert (c <> prev) as Hcp by (by intros ->). pose proof Ht as (Hvc & _).
  assert (fat_of v V3 c = FAT32_EOC) as Eoc.
  { rewrite (becomes_fat _ _ _ _ Hf), fset_ne by done. by eapply took_eoc. }
  eapply chain_snoc; [exact Hc2|done|done| | |by rewrite Eoc|rewrite Eoc; by apply eoc_invalid].
  - intros y Hy. rewrite (becomes_fat _ _ _ _ Hf).
    + apply fset_ne. by intros ->.
    + eapply chain_valid; [exact Hc|]. apply elem_of_app. by left.
  - rewrite (becomes_fat _ _ _ _ Hf) by (by eapply chain_valid). apply fset_eq.
Qed.

Lemma alloc_chain_loop_spec V n (d d1 : D) first prev l :
  grown V (disk d1) l -> partial_chain (disk d1) first prev l -> stays_reliable d d1 ->
  ((l <> []) \/ (0 < n)%nat) ->
  wp (alloc_chain_loop v n first prev)
     (fun c d' => exists k, grown V (disk d') k /\ chain v (disk d') c k /\
        length k = (length l + n)%nat /\ stays_reliable d d')
     (chain_failed V d) d1.
Proof.
  revert d1 first prev l. induction n as [|n IH]; intros d1 first prev l Hg Hp Hs Hn; cbn [alloc_chain_loop].
  - destruct Hp as [[-> _]|[Hc _]]; [destruct Hn; [done|lia]|].
    apply wp_ret. exists l. rewrite Nat.add_0_r. done.
  - apply wp_bind, wp_catch. eapply wp_mono; [apply alloc_cluster_spec| |]; cbn beta.
    2: { intros e d2 Hf. by eapply alloc_rollback. }
    intros c d2 (Ht & _ & Hs2). pose proof Ht as (Hvc & _).
    destruct Hp as [[-> ->]|[Hc Hl]].
    + eapply wp_mono; [apply (IH d2 c c [c])| |done]; cbn beta; try by eauto using stays_trans.
      * apply (grown_took V (disk d1) _ []); [done..|apply not_elem_of_nil].
      * right. split; [|done]. by eapply took_singleton.
    + destruct (Z.eqb_spec first 0) as [->|Hne]; [by apply chain_first_pos in Hc|].
      destruct (took_chain _ _ _ _ _ Hc Ht) as [Hcl Hc2].
      apply last_Some in Hl as [l0 ->].
      assert (prev ∈ l0 ++ [prev]) as Hprev by (apply elem_of_app; right; left).
      apply wp_bind. eapply wp_mono.
      { apply (write_fat_entry_becomes d2 prev c); [by eapply chain_valid|]. clear - G Hvc. geom. lia. }
      * cbn beta. intros _ d3 [Hf3 Hs3].
        eapply wp_mono; [apply (IH d3 first c ((l0 ++ [prev]) ++ [c]))| |done]; cbn beta.
        -- eapply grown_set; [by eapply grown_took| |exact Hf3]. apply elem_of_app. by left.
        -- right. split; [|by rewrite last_snoc]. eapply link_chain; [exact Hc|exact Ht|exact Hf3].
        -- eauto using stays_trans.
        -- left. by destruct l0.
        -- intros x d' (k & ? & ? & Hk & ?). exists k. rewrite Hk, !length_app. simpl.
           split_and!; [done..|lia|done].
      * intros e d3 (Hf3 & Hs3 & Hft).
        assert (grown V (disk d3) ((l0 ++ [prev]) ++ [c])) as Hg3.
        { pose proof (grown_took _ _ _ _ _ Hg Ht Hcl) as Hg2.
          destruct Hf3 as [Hf3|Hf3]; [by eapply grown_same|].
          eapply grown_set; [done| |done]. apply elem_of_app. by left. }
        split_and!; [by eapply grown_unharmed|by eauto using stays_trans|].
        left. by eauto using stays_trans, fault_stays.
Qed.

(** [alloc_chain n] links [n] clusters that were free into a chain; when it
    fails nothing that was allocated is touched, and for want of space on a
    working device the FAT is as it was. *)
Lemma alloc_chain_spec (d : D) n :
  (0 < n)%nat ->
  wp (alloc_chain v n)
     (fun c d' => exists l, grown (disk d) (disk d') l /\ chain v (disk d') c l /\ length l = n /\
                            stays_reliable d d')
     (chain_failed (disk d) d) d.
Proof.
  intros Hn. apply (alloc_chain_loop_spec (disk d) n d d 0 0 []).
  - split; [apply rest_same_refl| |done]. intros x Hx. by apply elem_of_nil in Hx.
  - by left.
  - apply stays_refl.
  - by right.
Qed.
End Alloc.
