(* ===== verification/FatData.v ===== *)
(** * FAT32 driver: contents of chains

    The bytes a chain of clusters holds; [read_entry] reads them and
    [write_chain] sets them. *)

From stdpp Require Import base numbers list gmap.
From Stdlib Require Import ZArith Lia.
From S2P Require Import Prelude BlockDev Fat FatLayout FatAlloc.
#[local] Open Scope Z_scope.

Definition chain_sectors (v : Fat32) (l : list Z) : list Z := l ≫= cluster_sectors v.

Definition sectors_bytes (V : gmap Z (list byte)) (ss : list Z) : list byte := ss ≫= sector V.

Definition cluster_bytes (v : Fat32) : nat := (Z.to_nat (sectors_per_cluster v) * SECTOR_SIZE)%nat.

(** The sectors [ss] start with [data]. *)
Fixpoint holds (V : gmap Z (list byte)) (ss : list Z) (data : list byte) : Prop :=
  match ss with
  | [] => data = []
  | s :: ss' => take (length data) (sector V s) = take SECTOR_SIZE data /\
                holds V ss' (drop SECTOR_SIZE data)
  end.

(** What a file with these first cluster and size contains. *)
Definition file_bytes (v : Fat32) (V : gmap Z (list byte)) (c : Z) (n : nat) : list byte :=
  take n (sectors_bytes V (chain_sectors v (walk v V n c))).

(** The sectors outside [ss], in the FATs or not, are the same. *)
Definition outside_same (V V' : gmap Z (list byte)) (ss : list Z) : Prop :=
  forall s, s ∉ ss -> sector V' s = sector V s.

(** ** Lemmas *)

Lemma take_app_min {A} n (l k : list A) : take n l ++ take (n - length l) k = take n (l ++ k).
Proof. by rewrite take_app. Qed.

Lemma length_sectors_bytes V ss : length (sectors_bytes V ss) = (length ss * SECTOR_SIZE)%nat.
Proof.
  induction ss as [|s ss IH]; [done|]. unfold sectors_bytes in *. cbn [mbind list_bind length].
  rewrite length_app, length_sector. change (mbind (sector V) ss) with (ss ≫= sector V).
  rewrite IH. lia.
Qed.

Lemma sectors_bytes_app V ss ss' : sectors_bytes V (ss ++ ss') = sectors_bytes V ss ++ sectors_bytes V ss'.
Proof. apply bind_app. Qed.

Lemma sectors_bytes_ext V V' ss :
  (forall s, s ∈ ss -> sector V' s = sector V s) -> sectors_bytes V' ss = sectors_bytes V ss.
Proof.
  intros Hs. induction ss as [|s ss IH]; [done|]. unfold sectors_bytes in *. cbn [mbind list_bind].
  f_equal; [apply Hs; left|]. apply IH. intros. apply Hs. by right.
Qed.

Lemma holds_nil V ss : holds V ss [].
Proof. induction ss; [done|]. by split. Qed.

Lemma holds_ext V V' ss data :
  (forall s, s ∈ ss -> sector V' s = sector V s) -> holds V ss data -> holds V' ss data.
Proof.
  revert data; induction ss as [|s ss IH]; intros data Hs; [done|]. intros [H1 H2]. split.
  - rewrite Hs; [done|left].
  - apply IH; [|done]. intros. apply Hs. by right.
Qed.

Lemma holds_app V ss ss' data :
  holds V ss (take (length ss * SECTOR_SIZE) data) ->
  holds V ss' (drop (length ss * SECTOR_SIZE) data) -> holds V (ss ++ ss') data.
Proof.
  revert data; induction ss as [|s ss IH]; intros data; [done|]. cbn [holds app length].
  intros [H1 H2] H3. split.
  - rewrite take_take in H1. replace (SECTOR_SIZE `min` (S (length ss) * SECTOR_SIZE))%nat with SECTOR_SIZE in H1 by lia.
    rewrite <- H1. rewrite length_take.
    rewrite <- (take_ge (sector V s) SECTOR_SIZE) at 1 by (rewrite length_sector; done).
    rewrite <- (take_ge (sector V s) SECTOR_SIZE) at 2 by (rewrite length_sector; done).
    rewrite !take_take. f_equal. lia.
  - apply IH.
    + rewrite skipn_firstn_comm in H2.
      by replace (S (length ss) * SECTOR_SIZE - SECTOR_SIZE)%nat with (length ss * SECTOR_SIZE)%nat in H2 by lia.
    + rewrite drop_drop. by replace (SECTOR_SIZE + length ss * SECTOR_SIZE)%nat with (S (length ss) * SECTOR_SIZE)%nat by lia.
Qed.

(** Reading back what the sectors hold. *)
Lemma holds_bytes V ss data : holds V ss data -> take (length data) (sectors_bytes V ss) = data.
Proof.
  revert data; induction ss as [|s ss IH]; intros data; [by intros ->|]. intros [H1 H2].
  unfold sectors_bytes. cbn [mbind list_bind]. rewrite take_app, H1, length_sector.
  apply IH in H2. rewrite length_drop in H2. unfold sectors_bytes in H2. rewrite H2.
  by rewrite take_drop.
Qed.

Lemma chain_sectors_cons v c l : chain_sectors v (c :: l) = cluster_sectors v c ++ chain_sectors v l.
Proof. done. Qed.

Lemma elem_of_chain_sectors v l s :
  s ∈ chain_sectors v l <-> exists c, c ∈ l /\ s ∈ cluster_sectors v c.
Proof. unfold chain_sectors. rewrite list_elem_of_bind. naive_solver. Qed.

Lemma length_cluster_sectors v c : length (cluster_sectors v c) = Z.to_nat (sectors_per_cluster v).
Proof. apply length_seqZ. Qed.

Lemma length_chain_sectors v l :
  length (chain_sectors v l) = (length l * Z.to_nat (sectors_per_cluster v))%nat.
Proof.
  induction l as [|c l IH]; [done|].
  rewrite chain_sectors_cons, length_app, length_cluster_sectors, IH. simpl. lia.
Qed.

Lemma NoDup_chain_sectors v l : geom_ok v -> NoDup l -> NoDup (chain_sectors v l).
Proof.
  intros G. induction 1 as [|c l Hc Hl IH]; [constructor|]. rewrite chain_sectors_cons.
  apply NoDup_app. split_and!; [apply NoDup_seqZ| |done].
  intros s Hs (c' & Hc' & Hs')%elem_of_chain_sectors.
  rewrite (cluster_sectors_disjoint v G c c' s Hs Hs') in Hc. done.
Qed.

Lemma outside_same_trans V1 V2 V3 ss ss' :
  outside_same V1 V2 ss -> outside_same V2 V3 ss' -> outside_same V1 V3 (ss ++ ss').
Proof. intros H1 H2 s [? ?]%not_elem_of_app. by rewrite H2, H1. Qed.

Lemma outside_same_mono V V' ss ss' : ss ⊆ ss' -> outside_same V V' ss -> outside_same V V' ss'.
Proof. intros Hs Ho s Hn. apply Ho. by intros ?%Hs. Qed.

(** ** Reading *)

Section Read.
Context {D : Type} `{BL : BlockDevLaws D} (v : Fat32) (G : geom_ok v).

Lemma read_sectors_spec (n : nat) first k (d : D) data rem :
  0 <= first -> 0 <= k -> first + k + Z.of_nat n <= volume_sectors v ->
  computes v d (read_sectors first (seqZ k (Z.of_nat n)) data rem)
    (inr (data ++ take rem (sectors_bytes (disk d) (seqZ (first + k) (Z.of_nat n))),
          (rem - n * SECTOR_SIZE)%nat)).
Proof.
  revert k d data rem. induction n as [|n IH]; intros k d data rem Hf Hk Hn.
  - rewrite !seqZ_nil by lia. unfold sectors_bytes. cbn [mbind list_bind read_sectors].
    rewrite take_nil, app_nil_r, Nat.sub_0_r. apply computes_ret.
  - rewrite (seqZ_cons k), (seqZ_cons (first + k)) by lia. cbn [read_sectors].
    destruct (Nat.eqb_spec rem 0) as [->|Hr].
    { rewrite take_0, app_nil_r. apply computes_ret. }
    rewrite u32_add_ok, pbind_ret by (unfold in_width; pose proof (geom_end v G); lia).
    eapply computes_seq; [apply wp_read; lia|]. intros d1 [E1 _]. rewrite <- E1.
    replace (Z.pred (Z.of_nat (S n))) with (Z.of_nat n) by lia.
    replace (Z.succ (first + k)) with (first + Z.succ k) by lia.
    match goal with |- computes _ _ ?m _ => pose proof (IH (Z.succ k) d1
      (data ++ take (rem `min` SECTOR_SIZE) (sector (disk d1) (first + k)))
      (rem - rem `min` SECTOR_SIZE)%nat Hf ltac:(lia) ltac:(lia)) as IH' end.
    match goal with |- computes _ _ _ (inr (?x, ?y)) => match type of IH' with
      computes _ _ _ (inr (?x', ?y')) => assert (x = x') as ->; [|assert (y = y') as ->] end end.
    + rewrite <- app_assoc. f_equal.
      unfold sectors_bytes at 1. cbn [mbind list_bind]. rewrite take_app, length_sector. f_equal.
      * rewrite <- (take_ge (sector (disk d1) (first + k)) SECTOR_SIZE) at 1 by (rewrite length_sector; done).
        by rewrite take_take.
      * unfold sectors_bytes. f_equal. lia.
    + lia.
    + done.
Qed.

(** The loop of [read_entry] terminates even on a cyclic chain: each cluster
    reduces [remaining]. *)
Lemma read_chain_spec fuel (d : D) c data rem :
  (rem <= fuel)%nat ->
  computes v d (read_chain v fuel c data rem)
    (inr (data ++ take rem (sectors_bytes (disk d) (chain_sectors v (walk v (disk d) fuel c))))).
Proof.
  pose proof (geom_spc v G) as Hspc.
  revert d c data rem. induction fuel as [|fuel IH]; intros d c data rem Hr; cbn [read_chain walk].
  - assert (rem = 0)%nat as -> by lia. rewrite take_0, app_nil_r. apply computes_ret.
  - destruct (Nat.eqb_spec rem 0) as [->|Hr0]; [rewrite take_0, app_nil_r; apply computes_ret|].
    rewrite (valid_cluster_eq v G), pbind_ret. destruct (cvalid v c) eqn:Hv; cbn [negb].
    2: { unfold chain_sectors, sectors_bytes. cbn [mbind list_bind].
         rewrite take_nil, app_nil_r. apply computes_ret. }
    rewrite (first_sector_of_cluster_eq v G), pbind_ret by done.
    pose proof (first_sector_range v G c Hv). pose proof (data_start_pos v G).
    eapply computes_seq.
    { rewrite <- (Z2Nat.id (sectors_per_cluster v)) by lia. apply read_sectors_spec; lia. }
    intros d1 [E1 _]. cbn beta match. rewrite Z.add_0_r, Z2Nat.id by lia.
    eapply computes_seq; [by apply next_cluster_spec|]. intros d2 [E2 _]. rewrite E1 in *.
    pose proof (IH d2 (fat_of v (disk d) c)
      (data ++ take rem (sectors_bytes (disk d) (seqZ (first_sector v c) (sectors_per_cluster v))))
      (rem - Z.to_nat (sectors_per_cluster v) * SECTOR_SIZE)%nat) as IH'.
    rewrite E2 in IH'. rewrite chain_sectors_cons, sectors_bytes_app, take_app.
    rewrite length_sectors_bytes, length_cluster_sectors, app_assoc.
    apply IH'. unfold SECTOR_SIZE. lia.
Qed.

Lemma read_entry_spec (d : D) entry :
  computes v d (read_entry v entry)
    (inr (file_bytes v (disk d) (first_cluster entry) (Z.to_nat (size entry)))).
Proof. unfold read_entry. by apply (read_chain_spec _ d _ []). Qed.

(** For a whole chain that is long enough, these are the first bytes of it. *)
Lemma file_bytes_chain V c l n :
  chain v V c l -> (n <= length l * cluster_bytes v)%nat ->
  file_bytes v V c n = take n (sectors_bytes V (chain_sectors v l)) /\ length (file_bytes v V c n) = n.
Proof.
  intros Hc Hn. unfold file_bytes. erewrite chain_walk by done.
  assert (take n (sectors_bytes V (chain_sectors v (take n l))) =
          take n (sectors_bytes V (chain_sectors v l))) as ->.
  { rewrite <- (take_drop n l) at 2. unfold chain_sectors. rewrite bind_app, sectors_bytes_app.
    destruct (Nat.le_gt_cases (length l) n) as [Hl|Hl].
    - by rewrite (drop_ge l n), app_nil_r by done.
    - rewrite take_app_le; [done|]. pose proof (length_sectors_bytes V (chain_sectors v (take n l))) as E.
      unfold chain_sectors in E at 1. rewrite E, length_chain_sectors, length_take.
      pose proof (geom_spc v G). unfold SECTOR_SIZE. nia. }
  split; [done|]. rewrite length_take, length_sectors_bytes, length_chain_sectors.
  unfold cluster_bytes in Hn. lia.
Qed.
End Read.

(** ** Writing *)

Section Write.
Context {D : Type} `{BL : BlockDevLaws D} (v : Fat32) (G : geom_ok v).

(** Writes to the data area leave the FAT alone. *)
Lemma outside_same_fat V V' ss c :
  (forall s, s ∈ ss -> data_start_sector v <= s) -> outside_same V V' ss -> cvalid v c = true ->
  fat_of v V' c = fat_of v V c.
Proof.
  intros Hss Ho Hc%cvalid_index. pose proof (geom_fats v G). unfold fat_of, fat_raw.
  pose proof (fat_sector_range v G 0 c ltac:(lia) Hc). rewrite Ho; [done|].
  intros ?%Hss. lia.
Qed.

(** One sector's worth of data. *)
Lemma write_buf_holds V ss data s buf :
  buf = splice zero_sector 0 (take (length data `min` SECTOR_SIZE) data) ->
  sector V s = buf -> holds V ss (drop SECTOR_SIZE data) -> holds V (s :: ss) data.
Proof.
  intros -> Hs Hh. split; [|done]. rewrite Hs. unfold splice. rewrite take_0, app_nil_l.
  rewrite take_app, take_take, length_take.
  destruct (Nat.le_gt_cases SECTOR_SIZE (length data)).
  - rewrite (Nat.min_r (length data)) by lia.
    rewrite drop_ge by (rewrite length_zero_sector, ?length_take; lia).
    rewrite take_nil, app_nil_r. f_equal. lia.
  - replace (length data - _)%nat with 0%nat by lia. rewrite take_0, app_nil_r, !take_ge by lia. done.
Qed.

Lemma write_sectors_spec (n : nat) first k (d : D) data w :
  0 <= first -> 0 <= k -> first + k + Z.of_nat n <= volume_sectors v ->
  (w <= length data)%nat ->
  wp (write_sectors first (seqZ k (Z.of_nat n)) data w)
     (fun w' d' => w' = (length data `min` (w + n * SECTOR_SIZE))%nat /\
        holds (disk d') (seqZ (first + k) (Z.of_nat n)) (take (n * SECTOR_SIZE) (drop w data)) /\
        outside_same (disk d) (disk d') (seqZ (first + k) (Z.of_nat n)) /\ stays_reliable d d')
     (fun e d' => outside_same (disk d) (disk d') (seqZ (first + k) (Z.of_nat n)) /\
        stays_reliable d d' /\ fault v d e) d.
Proof.
  revert k d w. induction n as [|n IH]; intros k d w Hf Hk Hn Hw.
  { rewrite !seqZ_nil by lia. apply wp_ret. split_and!; [lia|done|done|apply stays_refl]. }
  rewrite (seqZ_cons k), (seqZ_cons (first + k)) by lia. cbn [write_sectors].
  replace (Z.pred (Z.of_nat (S n))) with (Z.of_nat n) by lia.
  replace (Z.succ (first + k)) with (first + Z.succ k) by lia.
  destruct (Nat.leb_spec (length data) w) as [Hl|Hl].
  { apply wp_ret. split_and!; [lia| |done|apply stays_refl].
    rewrite (drop_ge data w), take_nil by done. apply holds_nil. }
  rewrite u32_add_ok, pbind_ret by (unfold in_width; pose proof (geom_end v G); lia).
  set (buf := splice _ _ _).
  assert (length buf = SECTOR_SIZE) as Hbuf.
  { unfold buf. rewrite length_splice; rewrite length_zero_sector; [done|].
    unfold slice. rewrite length_take. lia. }
  apply wp_bind. eapply wp_mono; [apply (wp_write v d); [lia|done]| |]; cbn beta.
  2: { intros e d' [[E ?] ?]. rewrite E. by split_and!. }
  intros _ d1 [E1 Hs1].
  assert (outside_same (disk d) (disk d1) [first + k]) as Ho1.
  { intros s Hs%not_elem_of_cons. rewrite E1. apply sector_insert_ne. naive_solver. }
  eapply wp_mono; [apply IH; lia| |]; cbn beta.
  - intros w' d2 (-> & Hh & Ho & Hs2). split_and!.
    + lia.
    + apply write_buf_holds with buf.
      * unfold buf, slice. rewrite take_take, length_take, length_drop. f_equal. f_equal. lia.
      * rewrite Ho by (rewrite elem_of_seqZ; lia). rewrite E1. by apply sector_insert_eq.
      * rewrite skipn_firstn_comm, drop_drop.
        replace (S n * SECTOR_SIZE - SECTOR_SIZE)%nat with (n * SECTOR_SIZE)%nat by lia.
        destruct (Nat.le_gt_cases (w + SECTOR_SIZE) (length data)).
        -- by replace (w + (length data - w) `min` SECTOR_SIZE)%nat with (w + SECTOR_SIZE)%nat in Hh by lia.
        -- rewrite drop_ge, take_nil by lia. apply holds_nil.
    + apply (outside_same_trans _ _ _ _ _ Ho1 Ho).
    + eauto using stays_trans.
  - intros e d2 (Ho & Hs2 & Hft).
    split_and!; [apply (outside_same_trans _ _ _ _ _ Ho1 Ho)|by eauto using stays_trans|].
    by eauto using fault_stays.
Qed.

Lemma chain_sectors_data l s :
  (forall x, x ∈ l -> cvalid v x = true) -> s ∈ chain_sectors v l -> data_start_sector v <= s.
Proof.
  intros Hv (c & Hc & Hs)%elem_of_chain_sectors. by eapply cluster_sectors_data; [| |apply Hs]; auto.
Qed.

(** The rest of a chain, possibly nothing. *)
Definition chain_rest (V : gmap Z (list byte)) (c : Z) (l : list Z) : Prop :=
  (l = [] /\ cvalid v c = false) \/ chain v V c l.

Lemma chain_rest_cons V c l :
  chain v V c l -> exists l', l = c :: l' /\ cvalid v c = true /\ chain_rest V (fat_of v V c) l'.
Proof.
  intros Hc. destruct l as [|x [|y l]]; [by destruct Hc| |].
  - apply chain_single_inv in Hc as (-> & ? & _ & ?). exists []. split_and!; [done..|by left].
  - apply chain_cons_inv in Hc as (-> & ? & -> & ?). exists (y :: l). split_and!; [done..|by right].
Qed.

Lemma chain_rest_ext V V' c l :
  (forall x, cvalid v x = true -> fat_of v V' x = fat_of v V x) -> chain_rest V c l -> chain_rest V' c l.
Proof.
  intros E [?|Hc]; [by left|right]. eapply chain_ext; [|done]. intros x Hx. apply E.
  by eapply chain_valid.
Qed.

Lemma write_chain_loop_spec steps (d : D) c l data w :
  chain_rest (disk d) c l -> NoDup l -> (length l <= steps)%nat -> (w <= length data)%nat ->
  (length data - w <= length l * cluster_bytes v)%nat ->
  wp (write_chain_loop v steps c data w)
     (fun _ d' => holds (disk d') (chain_sectors v l) (drop w data) /\
        outside_same (disk d) (disk d') (chain_sectors v l) /\ stays_reliable d d')
     (fun e d' => outside_same (disk d) (disk d') (chain_sectors v l) /\
        stays_reliable d d' /\ fault v d e) d.
Proof.
  revert d c l w. induction steps as [|steps IH]; intros d c l w Hc Hnd Hsteps Hw Hlen;
    cbn [write_chain_loop]; (destruct (Nat.leb_spec (length data) w) as [Hl|Hl];
    [apply wp_ret; rewrite drop_ge by done; split_and!; [apply holds_nil|done|apply stays_refl]|]).
  { destruct l; simpl in *; lia. }
  rewrite (valid_cluster_eq v G), pbind_ret.
  destruct Hc as [[-> _]|Hc]; [simpl in Hlen; lia|].
  apply chain_rest_cons in Hc as (l' & -> & Hv & Hc). rewrite Hv. cbn [negb].
  rewrite (first_sector_of_cluster_eq v G), pbind_ret by done.
  pose proof (first_sector_range v G c Hv). pose proof (data_start_pos v G).
  pose proof (geom_spc v G) as Hspc. apply NoDup_cons in Hnd as [Hcl Hnd].
  assert (forall s, s ∈ cluster_sectors v c -> data_start_sector v <= s) as Hds.
  { intros s Hs. by eapply cluster_sectors_data. }
  rewrite chain_sectors_cons.
  apply wp_bind. rewrite <- (Z2Nat.id (sectors_per_cluster v)) by lia.
  eapply wp_mono; [apply write_sectors_spec; lia| |]; cbn beta; rewrite Z.add_0_r, Z2Nat.id by lia;
    fold (cluster_sectors v c); fold (cluster_bytes v).
  2: { intros e d1 (Ho & ? & ?). split_and!; [|done..]. eapply outside_same_mono; [|exact Ho].
       intros s ?. apply elem_of_app. by left. }
  intros w' d1 (-> & Hh & Ho1 & Hs1). apply wp_bind.
  eapply wp_mono; [by apply next_cluster_spec| |]; cbn beta.
  2: { intros e d2 [[E2 Hs2] [?|?]]; [done|]. rewrite E2.
       split_and!; [|by eauto using stays_trans|by eauto using fault_stays].
       eapply outside_same_mono; [|exact Ho1]. intros s ?. apply elem_of_app. by left. }
  intros c' d2 [[= <-] [E2 Hs2]]. rewrite (outside_same_fat _ _ _ _ Hds Ho1 Hv).
  eapply wp_mono; [apply (IH d2 _ l'); [|done|simpl in *; lia..]| |]; cbn beta.
  - rewrite E2. eapply chain_rest_ext; [|exact Hc]. intros x Hx. by eapply outside_same_fat.
  - rewrite E2. intros _ d3 (Hh3 & Ho3 & Hs3). split_and!.
    + apply holds_app; rewrite length_cluster_sectors; fold (cluster_bytes v).
      * eapply holds_ext; [|exact Hh]. intros s Hs. apply Ho3.
        intros (y & Hy & Hs')%elem_of_chain_sectors. apply Hcl.
        by rewrite (cluster_sectors_disjoint v G c y s Hs Hs').
      * rewrite drop_drop. destruct (Nat.le_gt_cases (w + cluster_bytes v) (length data)).
        -- by replace (length data `min` (w + cluster_bytes v))%nat with (w + cluster_bytes v)%nat in Hh3 by lia.
        -- rewrite drop_ge by lia. apply holds_nil.
    + by apply outside_same_trans with (disk d1).
    + eauto using stays_trans.
  - rewrite E2. intros e d3 (Ho3 & Hs3 & Hft).
    split_and!; [by apply outside_same_trans with (disk d1)|by eauto using stays_trans|].
    by eauto using stays_trans, fault_stays.
Qed.

(** [write_chain] puts [data] at the start of the chain and touches no sector
    outside it. *)
Lemma write_chain_spec (d : D) c l data :
  chain v (disk d) c l -> (length data <= length l * cluster_bytes v)%nat ->
  wp (write_chain v c data)
     (fun _ d' => holds (disk d') (chain_sectors v l) data /\
        outside_same (disk d) (disk d') (chain_sectors v l) /\ stays_reliable d d')
     (fun e d' => outside_same (disk d) (disk d') (chain_sectors v l) /\
        stays_reliable d d' /\ fault v d e) d.
Proof.
  intros Hc Hl. apply (write_chain_loop_spec _ d c l data 0).
  - by right.
  - by eapply chain_nodup.
  - eapply chain_length; [by apply geom_count|done].
  - lia.
  - lia.
Qed.
End Write.
