(* ===== verification/FatDir.v ===== *)
(** * FAT32 driver: directories

    The slots of a directory and the four scans over them: [find_in_dir],
    [list_dir], [locate_or_free_slot] and [locate_entry] of [src/fs/fat.rs]
    compute [find_slot], [live_slots] and [free_slot] below. *)

From stdpp Require Import base numbers list gmap.
From Stdlib Require Import ZArith Lia.
From S2P Require Import Prelude BlockDev Fat FatLayout FatAlloc FatData.
#[local] Open Scope Z_scope.

(** A slot is a sector number and an offset in the sector. *)
Definition loc : Type := (Z * nat)%type.

Definition sector_locs (s : Z) : list loc :=
  (fun i => (s, i * DIR_ENTRY_SIZE)%nat) <$> seq 0 (SECTOR_SIZE / DIR_ENTRY_SIZE).

Definition locs (v : Fat32) (l : list Z) : list loc := chain_sectors v l ≫= sector_locs.

(** The slots a scan of the directory at cluster [c] goes through. *)
Definition dir_locs (v : Fat32) (V : gmap Z (list byte)) (c : Z) : list loc :=
  locs v (walk v V (Z.to_nat (cluster_count v)) c).

Definition slot (V : gmap Z (list byte)) (p : loc) : list byte :=
  slice (sector V p.1) p.2 DIR_ENTRY_SIZE.

(** The fields of an entry. *)
Definition e_mark (e : list byte) : Z := u8_at e 0.
Definition e_attr (e : list byte) : Z := u8_at e 11.
Definition e_name (e : list byte) : list byte := slice e 0 11.
Definition e_first (e : list byte) : Z :=
  Z.lor (Z.shiftl (from_le (slice e 20 2)) 16) (from_le (slice e 26 2)).
Definition e_size (e : list byte) : Z := from_le (slice e 28 4).
Definition e_dir (e : list byte) : bool := negb (Z.land (e_attr e) ATTR_DIRECTORY =? 0).
Definition e_entry (e : list byte) : DirEntry := mkDirEntry (e_first e) (e_size e) (e_dir e).
Definition e_item (e : list byte) : DirItem := mkDirItem (name_83_to_string (e_name e)) (e_dir e).

(** An entry that names a file or a directory. *)
Definition live (e : list byte) : bool :=
  negb (e_mark e =? 0x00) && negb (e_mark e =? 0xE5) && negb (skipped_attr (e_attr e)).

Definition named (t e : list byte) : bool := live e && bytes_eqb (e_name e) t.

(** The first slot of that name, before the end mark. *)
Fixpoint find_slot (V : gmap Z (list byte)) (t : list byte) (ls : list loc) : option loc :=
  match ls with
  | [] => None
  | p :: ls' => if e_mark (slot V p) =? 0 then None
                else if named t (slot V p) then Some p else find_slot V t ls'
  end.

Fixpoint live_slots (V : gmap Z (list byte)) (ls : list loc) : list loc :=
  match ls with
  | [] => []
  | p :: ls' => if e_mark (slot V p) =? 0 then []
                else if live (slot V p) then p :: live_slots V ls' else live_slots V ls'
  end.

(** The first slot that is deleted or the end mark. *)
Definition is_free (e : list byte) : bool := (e_mark e =? 0x00) || (e_mark e =? 0xE5).

Fixpoint free_slot (V : gmap Z (list byte)) (ls : list loc) : option loc :=
  match ls with
  | [] => None
  | p :: ls' => if is_free (slot V p) then Some p else free_slot V ls'
  end.

(** A scan as a function of the slots. *)
Fixpoint run_scan {St R} (step : St -> Z -> nat -> list byte -> option (scan_result St R))
  (V : gmap Z (list byte)) (ls : list loc) (s : St) : option (scan_result St R) :=
  match ls with
  | [] => Some (Next s)
  | p :: ls' =>
      match step s p.1 p.2 (slot V p) with
      | Some (Next s') => run_scan step V ls' s'
      | r => r
      end
  end.

(** ** Scans *)

Lemma dir_chunks_sector V s : dir_chunks (sector V s) = (fun p => (p.2, slot V p)) <$> sector_locs s.
Proof.
  unfold dir_chunks, sector_locs. rewrite length_sector, <- list_fmap_compose. done.
Qed.

Lemma run_scan_app {St R} (step : St -> Z -> nat -> list byte -> option (scan_result St R)) V l1 l2 s :
  run_scan step V (l1 ++ l2) s =
  match run_scan step V l1 s with Some (Next s') => run_scan step V l2 s' | r => r end.
Proof.
  revert s; induction l1 as [|p l1 IH]; intros s; [done|]. cbn [run_scan app].
  destruct (step s p.1 p.2 (slot V p)) as [[]|]; auto.
Qed.

Lemma sector_locs_fst s p : p ∈ sector_locs s -> p.1 = s.
Proof. unfold sector_locs. by intros (i & -> & _)%list_elem_of_fmap. Qed.

Section Scans.
Context {D : Type} `{BL : BlockDevLaws D} (v : Fat32) (G : geom_ok v).
Context {St R : Type} (step : St -> Z -> nat -> list byte -> option (scan_result St R)).

Lemma scan_entries_spec V (d : D) sec ls s r :
  (forall p, p ∈ ls -> p.1 = sec) -> run_scan step V ls s = Some r ->
  computes v d (scan_entries step sec ((fun p => (p.2, slot V p)) <$> ls) s) (inr r).
Proof.
  revert s. induction ls as [|p ls IH]; intros s Hp; cbn [run_scan fmap list_fmap scan_entries].
  - intros [= <-]. apply computes_ret.
  - rewrite <- (Hp p) by left. intros Hr.
    destruct (step s p.1 p.2 (slot V p)) as [[s'|x]|] eqn:E; [| |done]; cbn [punwrap]; rewrite pbind_ret.
    + rewrite (Hp p) by left. apply IH; [|done]. intros. apply Hp. by right.
    + injection Hr as <-. apply computes_ret.
Qed.

Lemma scan_sectors_spec (n : nat) first k (d : D) s r :
  0 <= first -> 0 <= k -> first + k + Z.of_nat n <= volume_sectors v ->
  run_scan step (disk d) (seqZ (first + k) (Z.of_nat n) ≫= sector_locs) s = Some r ->
  computes v d (scan_sectors step first (seqZ k (Z.of_nat n)) s) (inr r).
Proof.
  revert k d s. induction n as [|n IH]; intros k d s Hf Hk Hn.
  { rewrite !seqZ_nil by lia. cbn [scan_sectors mbind list_bind run_scan]. intros [= <-]. apply computes_ret. }
  rewrite (seqZ_cons k), (seqZ_cons (first + k)) by lia. cbn [scan_sectors mbind list_bind].
  replace (Z.pred (Z.of_nat (S n))) with (Z.of_nat n) by lia.
  replace (Z.succ (first + k)) with (first + Z.succ k) by lia.
  rewrite run_scan_app. intros Hr.
  rewrite u32_add_ok, pbind_ret by (unfold in_width; pose proof (geom_end v G); lia).
  eapply computes_seq; [apply wp_read; lia|]. intros d1 [E1 _].
  rewrite dir_chunks_sector.
  destruct (run_scan step (disk d) (sector_locs (first + k)) s) as [r1|] eqn:E; [|done].
  eapply computes_seq; [eapply scan_entries_spec; [apply sector_locs_fst|exact E]|].
  intros d2 [E2 _]. destruct r1 as [s'|x].
  - apply IH; [lia..|]. by rewrite E2, E1.
  - injection Hr as <-. apply computes_ret.
Qed.

Lemma scan_clusters_spec n (d : D) c s r :
  run_scan step (disk d) (locs v (walk v (disk d) n c)) s = Some r ->
  computes v d (scan_clusters v step n c s) (inr r).
Proof.
  revert d c s. induction n as [|n IH]; intros d c s; cbn [scan_clusters walk];
    rewrite (valid_cluster_eq v G), pbind_ret; destruct (cvalid v c) eqn:Hv; cbn [negb].
  1,2,4: intros [= <-]; apply computes_ret.
  unfold locs. rewrite chain_sectors_cons, bind_app, run_scan_app. intros Hr.
  rewrite (first_sector_of_cluster_eq v G), pbind_ret by done.
  pose proof (first_sector_range v G c Hv). pose proof (data_start_pos v G).
  pose proof (geom_spc v G) as Hspc.
  destruct (run_scan step (disk d) (cluster_sectors v c ≫= sector_locs) s) as [r1|] eqn:E; [|done].
  eapply computes_seq.
  { rewrite <- (Z2Nat.id (sectors_per_cluster v)) by lia. apply scan_sectors_spec; [lia..|].
    rewrite Z.add_0_r, Z2Nat.id by lia. exact E. }
  intros d1 [E1 _]. destruct r1 as [s'|x].
  - eapply computes_seq; [by apply next_cluster_spec|]. intros d2 [E2 _].
    apply IH. by rewrite E2, E1.
  - injection Hr as <-. apply computes_ret.
Qed.

Lemma scan_dir_spec (d : D) c s r :
  run_scan step (disk d) (dir_locs v (disk d) c) s = Some r ->
  computes v d (scan_dir v step c s) (inr r).
Proof. apply scan_clusters_spec. Qed.
End Scans.

(** ** The steps on a whole entry *)

Section Steps.
Context (e : list byte) (He : length e = DIR_ENTRY_SIZE).

Lemma entry_byte i : (i < DIR_ENTRY_SIZE)%nat -> b2z <$> e !! i = Some (u8_at e i).
Proof.
  intros Hi. unfold u8_at. destruct (lookup_lt_is_Some_2 e i) as [b Hb]; [lia|]. by rewrite Hb.
Qed.

Lemma entry_cluster_eq : entry_cluster e = Some (e_first e).
Proof. unfold entry_cluster, read_u16. by rewrite He. Qed.

Lemma parse_entry_eq : parse_entry e (e_attr e) = Some (e_entry e).
Proof. unfold parse_entry. rewrite entry_cluster_eq. unfold read_u32. by rewrite He. Qed.

(** The case analysis all steps share: mark, attribute, name. *)
Lemma entry_cases {A} (k0 ke ks : option A) (k : Z -> option A) :
  (b0 ← e !! 0%nat;
   if b2z b0 =? 0x00 then k0
   else if b2z b0 =? 0xE5 then ke
   else attr ← b2z <$> e !! 11%nat; if skipped_attr attr then ks else k attr) =
  if e_mark e =? 0 then k0 else if e_mark e =? 0xE5 then ke
  else if live e then k (e_attr e) else ks.
Proof.
  unfold e_mark, live, e_attr. pose proof (entry_byte 0 ltac:(unfold DIR_ENTRY_SIZE; lia)) as E0.
  rewrite (entry_byte 11) by (unfold DIR_ENTRY_SIZE; lia). cbn [mbind option_bind].
  destruct (e !! 0%nat) as [b0|] eqn:Eb; [|done]. injection E0 as E0. unfold e_mark. rewrite <- E0.
  cbn [mbind option_bind]. destruct (b2z b0 =? 0); [done|]. destruct (b2z b0 =? 229); [done|].
  by destruct (skipped_attr _).
Qed.

Lemma live_mark : live e = true -> e_mark e <> 0 /\ e_mark e <> 0xE5.
Proof. unfold live. intros. zbool. done. Qed.

Lemma find_step_eq t s sec off :
  find_step t s sec off e =
  Some (if e_mark e =? 0 then Done None
        else if named t e then Done (Some (e_entry e)) else Next tt).
Proof.
  unfold find_step. rewrite entry_cases, parse_entry_eq. unfold named, e_name. cbn [mbind option_bind].
  destruct (e_mark e =? 0); [done|]. destruct (e_mark e =? 229) eqn:E.
  - unfold live. rewrite E. by rewrite andb_false_r.
  - destruct (live e); [|done]. by destruct (bytes_eqb _ _).
Qed.

Lemma locate_step_eq t s sec off :
  locate_step t s sec off e =
  Some (if e_mark e =? 0 then Done None
        else if named t e then Done (Some (sec, off, e_entry e)) else Next tt).
Proof.
  unfold locate_step. rewrite entry_cases, parse_entry_eq. unfold named, e_name. cbn [mbind option_bind].
  destruct (e_mark e =? 0); [done|]. destruct (e_mark e =? 229) eqn:E.
  - unfold live. rewrite E. by rewrite andb_false_r.
  - destruct (live e); [|done]. by destruct (bytes_eqb _ _).
Qed.

Lemma list_step_eq items sec off :
  list_step items sec off e =
  Some (if e_mark e =? 0 then Done items
        else Next (if live e then items ++ [e_item e] else items)).
Proof.
  unfold list_step. rewrite entry_cases. unfold e_item, e_name, e_dir.
  destruct (e_mark e =? 0); [done|]. destruct (e_mark e =? 229) eqn:E.
  - unfold live. rewrite E. by rewrite andb_false_r.
  - by destruct (live e).
Qed.

Lemma slot_step_eq t ff sec off :
  slot_step t ff sec off e =
  Some (if e_mark e =? 0 then Done (default (sec, off) ff, None)
        else if named t e then Done (sec, off, Some (e_first e))
        else Next (if is_free e then match ff with None => Some (sec, off) | Some p => Some p end else ff)).
Proof.
  unfold slot_step. rewrite entry_cases, entry_cluster_eq. unfold named, e_name, is_free.
  cbn [mbind option_bind].
  destruct (e_mark e =? 0); [by destruct (default _ _)|]. destruct (e_mark e =? 229) eqn:E.
  - unfold live. rewrite E, andb_false_r. by destruct ff.
  - destruct (live e); [|done]. by destruct (bytes_eqb _ _).
Qed.
End Steps.

Lemma sector_locs_ok s p : p ∈ sector_locs s -> (p.2 + DIR_ENTRY_SIZE <= SECTOR_SIZE)%nat.
Proof.
  unfold sector_locs. intros (i & -> & Hi)%list_elem_of_fmap. apply elem_of_seq in Hi.
  change (SECTOR_SIZE / DIR_ENTRY_SIZE)%nat with 16%nat in Hi. unfold DIR_ENTRY_SIZE, SECTOR_SIZE. simpl. lia.
Qed.

Lemma elem_of_locs v l p : p ∈ locs v l <-> p.1 ∈ chain_sectors v l /\ p ∈ sector_locs p.1.
Proof.
  unfold locs. rewrite list_elem_of_bind. split.
  - intros (s & Hp & Hs). pose proof (sector_locs_fst _ _ Hp) as ->. done.
  - intros [? ?]. eauto.
Qed.

Lemma locs_ok v l p : p ∈ locs v l -> (p.2 + DIR_ENTRY_SIZE <= SECTOR_SIZE)%nat.
Proof. intros [_ Hp]%elem_of_locs. by eapply sector_locs_ok. Qed.

Lemma length_slot V p : (p.2 + DIR_ENTRY_SIZE <= SECTOR_SIZE)%nat -> length (slot V p) = DIR_ENTRY_SIZE.
Proof. intros. apply length_slice. by rewrite length_sector. Qed.

(** ** The scans as functions *)

Section Runs.
Context (V : gmap Z (list byte)).
Implicit Types ls : list loc.
Let ok ls := forall p, p ∈ ls -> (p.2 + DIR_ENTRY_SIZE <= SECTOR_SIZE)%nat.

Lemma run_find t ls :
  ok ls -> exists r, run_scan (find_step t) V ls tt = Some r /\
    match r with Next _ => None | Done x => x end = (fun p => e_entry (slot V p)) <$> find_slot V t ls.
Proof.
  intros Hok. induction ls as [|p ls IH]; [by eexists|]. cbn [run_scan find_slot].
  rewrite find_step_eq by (apply length_slot, Hok; left).
  destruct (e_mark (slot V p) =? 0); [by eexists|]. destruct (named t (slot V p)); [by eexists|].
  apply IH. intros q Hq. apply Hok. by right.
Qed.

Lemma run_locate t ls :
  ok ls -> exists r, run_scan (locate_step t) V ls tt = Some r /\
    match r with Next _ => None | Done x => x end = (fun p => (p, e_entry (slot V p))) <$> find_slot V t ls.
Proof.
  intros Hok. induction ls as [|p ls IH]; [by eexists|]. cbn [run_scan find_slot].
  rewrite locate_step_eq by (apply length_slot, Hok; left).
  destruct (e_mark (slot V p) =? 0); [by eexists|]. destruct (named t (slot V p)).
  - eexists. split; [done|]. by destruct p.
  - apply IH. intros q Hq. apply Hok. by right.
Qed.

Lemma run_list items ls :
  ok ls -> exists r, run_scan list_step V ls items = Some r /\
    match r with Next x => x | Done x => x end = items ++ ((fun p => e_item (slot V p)) <$> live_slots V ls).
Proof.
  intros Hok. revert items. induction ls as [|p ls IH]; intros items; cbn [run_scan live_slots].
  { eexists. split; [done|]. by rewrite app_nil_r. }
  rewrite list_step_eq by (apply length_slot, Hok; left).
  destruct (e_mark (slot V p) =? 0); [eexists; split; [done|]; by rewrite app_nil_r|].
  assert (ok ls) as Hok' by (intros q Hq; apply Hok; by right).
  destruct (live (slot V p)); [|by apply IH].
  destruct (IH Hok' (items ++ [e_item (slot V p)])) as (r & Hr & E). exists r. split; [done|].
  by rewrite E, <- app_assoc.
Qed.

Lemma run_slot t ff ls :
  ok ls -> exists r, run_scan (slot_step t) V ls ff = Some r /\
    match r with
    | Done x => inr x
    | Next (Some (s, o)) => inr (s, o, None)
    | Next None => inl DirFull
    end =
    match find_slot V t ls with
    | Some p => inr (p.1, p.2, Some (e_first (slot V p)))
    | None => match (match ff with Some q => Some q | None => free_slot V ls end) with
              | Some q => inr (q.1, q.2, None)
              | None => inl DirFull
              end
    end.
Proof.
  intros Hok. revert ff. induction ls as [|p ls IH]; intros ff; cbn [run_scan find_slot free_slot].
  { eexists. split; [done|]. by destruct ff as [[]|]. }
  rewrite slot_step_eq by (apply length_slot, Hok; left).
  assert (ok ls) as Hok' by (intros q Hq; apply Hok; by right).
  destruct (e_mark (slot V p) =? 0) eqn:E0.
  { eexists. split; [done|]. unfold is_free. rewrite E0. by destruct ff as [[]|], p. }
  destruct (named t (slot V p)) eqn:En; [by eexists|].
  destruct (is_free (slot V p)).
  - destruct p, ff; apply (IH Hok' (Some _)).
  - apply IH, Hok'.
Qed.
End Runs.

(** ** The operations *)

(** What the driver finds under [name] in the directory at cluster [c]. *)
Definition dir_find (v : Fat32) (V : gmap Z (list byte)) (c : Z) (name : list byte) : option loc :=
  find_slot V (short_name_83 name) (dir_locs v V c).

Definition dir_items (v : Fat32) (V : gmap Z (list byte)) (c : Z) : list DirItem :=
  (fun p => e_item (slot V p)) <$> live_slots V (dir_locs v V c).

Fixpoint resolved (v : Fat32) (V : gmap Z (list byte)) (c : Z) (comps : list (list byte))
  : FatError + (Z * list byte) :=
  match comps with
  | [] => inl NotFound
  | [name] => inr (c, name)
  | comp :: rest =>
      match dir_find v V c comp with
      | None => inl NotFound
      | Some p => if e_dir (slot V p) then resolved v V (e_first (slot V p)) rest else inl NotADirectory
      end
  end.

Section Ops.
Context {D : Type} `{BL : BlockDevLaws D} (v : Fat32) (G : geom_ok v).

Lemma find_in_dir_spec (d : D) c name :
  computes v d (find_in_dir v c name)
    (inr ((fun p => e_entry (slot (disk d) p)) <$> dir_find v (disk d) c name)).
Proof.
  destruct (run_find (disk d) (short_name_83 name) (dir_locs v (disk d) c)) as (r & Hr & E).
  { intros p. apply locs_ok. }
  eapply computes_seq; [by apply scan_dir_spec|]. intros d1 _. unfold dir_find. rewrite <- E.
  apply computes_ret.
Qed.

Lemma locate_entry_spec (d : D) c name :
  computes v d (locate_entry v c name)
    (inr ((fun p => (p, e_entry (slot (disk d) p))) <$> dir_find v (disk d) c name)).
Proof.
  destruct (run_locate (disk d) (short_name_83 name) (dir_locs v (disk d) c)) as (r & Hr & E).
  { intros p. apply locs_ok. }
  eapply computes_seq; [by apply scan_dir_spec|]. intros d1 _. unfold dir_find. rewrite <- E.
  apply computes_ret.
Qed.

Lemma list_dir_spec (d : D) c : computes v d (list_dir v c) (inr (dir_items v (disk d) c)).
Proof.
  destruct (run_list (disk d) [] (dir_locs v (disk d) c)) as (r & Hr & E).
  { intros p. apply locs_ok. }
  eapply computes_seq; [by apply scan_dir_spec|]. intros d1 _. unfold dir_items.
  rewrite app_nil_l in E. rewrite <- E. destruct r; apply computes_ret.
Qed.

Lemma locate_or_free_slot_spec (d : D) c t :
  computes v d (locate_or_free_slot v c t)
    (match find_slot (disk d) t (dir_locs v (disk d) c) with
     | Some p => inr (p.1, p.2, Some (e_first (slot (disk d) p)))
     | None => match free_slot (disk d) (dir_locs v (disk d) c) with
               | Some q => inr (q.1, q.2, None)
               | None => inl DirFull
               end
     end).
Proof.
  destruct (run_slot (disk d) t None (dir_locs v (disk d) c)) as (r & Hr & E).
  { intros p. apply locs_ok. }
  eapply computes_seq; [by apply scan_dir_spec|]. intros d1 _. cbn beta match in E. unfold loc in *. rewrite <- E.
  destruct r as [[[]|]|]; (apply computes_ret || apply computes_fail).
Qed.

Lemma resolve_components_spec (d : D) c comps :
  computes v d (resolve_components v c comps) (resolved v (disk d) c comps).
Proof.
  revert d c. induction comps as [|comp [|comp' rest] IH]; intros d c.
  - apply computes_fail.
  - apply computes_ret.
  - change (resolve_components v c (comp :: comp' :: rest)) with
      (let! found := find_in_dir v c comp in
       let! entry := pok_or found NotFound in
       if negb (is_dir entry) then pfail NotADirectory
       else @resolve_components D _ v (first_cluster entry) (comp' :: rest)).
    change (resolved v (disk d) c (comp :: comp' :: rest)) with
      (match dir_find v (disk d) c comp with
       | None => inl NotFound
       | Some p => if e_dir (slot (disk d) p)
                   then resolved v (disk d) (e_first (slot (disk d) p)) (comp' :: rest)
                   else inl NotADirectory
       end).
    eapply computes_seq; [apply find_in_dir_spec|]. intros d1 [E1 _].
    destruct (dir_find v (disk d) c comp) as [p|]; [|apply computes_fail].
    cbn [fmap option_fmap option_map pok_or]. rewrite pbind_ret. cbn [is_dir first_cluster e_entry].
    destruct (e_dir (slot (disk d) p)); cbn [negb]; [|apply computes_fail].
    rewrite <- E1. apply IH.
Qed.

Lemma resolve_parent_spec (d : D) path :
  computes v d (resolve_parent v path) (resolved v (disk d) (root_cluster v) (path_components path)).
Proof. apply resolve_components_spec. Qed.
End Ops.
