(* ===== verification/FatVolume.v ===== *)
(** * FAT32 driver: well-formed volumes

    [volume_ok] is what a file-system check establishes: directories and files
    own disjoint chains, every entry refers to a chain of its own, directories
    end in a run of free slots and name each entry once.  [view] is the abstract
    file system a volume represents.  The lemmas say how each kind of change to
    the disk affects the two. *)

From stdpp Require Import base numbers list gmap.
From Stdlib Require Import ZArith Lia.
From S2P Require Import Prelude BlockDev Fat FatLayout FatAlloc FatData FatDir.
#[local] Open Scope Z_scope.

(** ** Entries that are written *)

Definition DOT : list byte := bs ".          ".
Definition DOTDOT : list byte := bs "..         ".

Definition is_dot (n : list byte) : bool := bytes_eqb n DOT || bytes_eqb n DOTDOT.

(** The name [list_dir] gives for it is one of the two a directory always has. *)
Definition looks_dot (n : list byte) : bool :=
  bytes_eqb (name_83_to_string n) (bs ".") || bytes_eqb (name_83_to_string n) (bs "..").

(** Entries of directories other than the two. *)
Definition counted (e : list byte) : bool := live e && negb (is_dot (e_name e)).

(** ** Volumes *)

(** [O] holds the chains in use, by first cluster: whether it is a directory's,
    and its clusters. *)
Definition entry_ok (v : Fat32) (O : gmap Z (bool * list Z)) (e : list byte) : Prop :=
  (e_first e = 0 /\ e_dir e = false /\ e_size e = 0) \/
  (exists l, O !! e_first e = Some (e_dir e, l) /\
     (e_dir e = false -> (Z.to_nat (e_size e) <= length l * cluster_bytes v)%nat)).

(** After the end mark all slots are end marks. *)
Fixpoint zero_tail (V : gmap Z (list byte)) (ls : list loc) : Prop :=
  match ls with
  | [] => True
  | p :: ls' => (e_mark (slot V p) = 0 -> forall q, q ∈ ls' -> e_mark (slot V q) = 0) /\ zero_tail V ls'
  end.

Record dir_ok (V : gmap Z (list byte)) (ls : list loc) : Prop := {
  dir_tail : zero_tail V ls;
  dir_names : forall p q, p ∈ ls -> q ∈ ls -> live (slot V p) = true -> live (slot V q) = true ->
    e_name (slot V p) = e_name (slot V q) -> p = q;
  dir_dots : forall p, p ∈ ls -> live (slot V p) = true -> looks_dot (e_name (slot V p)) = true ->
    is_dot (e_name (slot V p)) = true;
}.

(** [p] is a slot of a directory of the volume and holds an entry. *)
Definition refers (v : Fat32) (V : gmap Z (list byte)) (O : gmap Z (bool * list Z)) (p : loc) : Prop :=
  (exists c l, O !! c = Some (true, l) /\ p ∈ locs v l) /\ counted (slot V p) = true.

Record volume_ok (v : Fat32) (V : gmap Z (list byte)) (O : gmap Z (bool * list Z)) : Prop := {
  vol_geom : geom_ok v;
  vol_boot : parse_bpb (sector V 0) = inr (Some v);
  vol_root : exists l, O !! root_cluster v = Some (true, l);
  vol_chain : forall c b l, O !! c = Some (b, l) -> chain v V c l;
  vol_disjoint : forall c1 b1 l1 c2 b2 l2 x, O !! c1 = Some (b1, l1) -> O !! c2 = Some (b2, l2) ->
    x ∈ l1 -> x ∈ l2 -> c1 = c2;
  vol_dir : forall c l, O !! c = Some (true, l) -> dir_ok V (locs v l);
  vol_entry : forall p, refers v V O p -> entry_ok v O (slot V p);
  vol_single : forall p q, refers v V O p -> refers v V O q ->
    e_first (slot V p) = e_first (slot V q) -> e_first (slot V p) <> 0 -> p = q;
  vol_rootless : forall p, refers v V O p -> e_first (slot V p) <> root_cluster v;
}.

(** ** The abstract file system: what a directory has under a short name *)

Inductive anode : Type :=
| AFile (data : list byte)
| ADir (id : Z).

Definition node_of (v : Fat32) (V : gmap Z (list byte)) (e : list byte) : anode :=
  if e_dir e then ADir (e_first e)
  else AFile (file_bytes v V (e_first e) (Z.to_nat (e_size e))).

Definition view (v : Fat32) (V : gmap Z (list byte)) (c : Z) (t : list byte) : option anode :=
  if is_dot t then None
  else (fun p => node_of v V (slot V p)) <$> find_slot V t (dir_locs v V c).

Definition is_directory (O : gmap Z (bool * list Z)) (c : Z) : Prop := exists l, O !! c = Some (true, l).

Definition same_view (v : Fat32) (O : gmap Z (bool * list Z)) (V V' : gmap Z (list byte)) : Prop :=
  forall c t, is_directory O c -> view v V' c t = view v V c t.

(** The boot sector and the chains in use are as they were, FAT entries and contents. *)
Definition preserved (v : Fat32) (O : gmap Z (bool * list Z)) (V V' : gmap Z (list byte)) : Prop :=
  sector V' 0 = sector V 0 /\
  forall c b l x, O !! c = Some (b, l) -> x ∈ l ->
    fat_of v V' x = fat_of v V x /\ forall s, s ∈ cluster_sectors v x -> sector V' s = sector V s.

(** ** Short names *)

Lemma length_pad_name n s : length (pad_name n s) = n.
Proof. unfold pad_name. rewrite length_app, length_fmap, length_replicate, length_take. lia. Qed.

Lemma length_short_name name : length (short_name_83 name) = 11%nat.
Proof.
  unfold short_name_83. destruct (split_once x2e name). by rewrite length_app, !length_pad_name.
Qed.

Lemma split_once_before c l x : x ∈ (split_once c l).1 -> x <> c.
Proof.
  induction l as [|y l IH]; simpl; [by intros ?%elem_of_nil|].
  destruct (Byte.eqb y c) eqn:E; [by intros ?%elem_of_nil|].
  destruct (split_once c l) as [a b]. simpl in *. apply byte_eqb_neq in E.
  rewrite elem_of_cons. intros [->|?]; auto.
Qed.

Lemma upper_dot b : to_ascii_uppercase b = x2e -> b = x2e.
Proof. by destruct b. Qed.

(** A path never names a directory's own two entries. *)
Lemma short_name_not_dot name : is_dot (short_name_83 name) = false.
Proof.
  assert (head (short_name_83 name) <> Some x2e) as Hh.
  { unfold short_name_83. pose proof (split_once_before x2e name) as Hb.
    destruct (split_once x2e name) as [[|x base] ext]; [done|]. unfold pad_name. simpl.
    intros [= Hx]. apply upper_dot in Hx. by apply (Hb x); [left|]. }
  unfold is_dot. apply orb_false_iff.
  split; apply not_true_iff_false; intros E%bytes_eqb_eq; by rewrite E in Hh.
Qed.

(** ** Written entries *)

Section Fill.
Context (name : list byte) (attr first sz : Z).
Context (Hname : length name = 11%nat).
#[local] Notation "'ENTRY'" := (fill_dir_entry name attr first sz).

Lemma length_fill : length ENTRY = DIR_ENTRY_SIZE.
Proof. unfold fill_dir_entry. rewrite !length_app, !length_to_le, !length_zeros, Hname. done. Qed.

Lemma fill_name : e_name ENTRY = name.
Proof. unfold e_name, slice, fill_dir_entry. rewrite drop_0. by apply take_app_length'. Qed.

Lemma fill_mark : e_mark ENTRY = u8_at name 0.
Proof. unfold e_mark, u8_at, fill_dir_entry. rewrite lookup_app_l by lia. done. Qed.

Lemma fill_attr : 0 <= attr < 256 -> e_attr ENTRY = attr.
Proof.
  intros. unfold e_attr, u8_at, fill_dir_entry. rewrite lookup_app_r by lia. rewrite Hname.
  cbn. rewrite b2z_z2b. by apply Z.mod_small.
Qed.

(** A field of the record is the part of the list at its offset. *)
Lemma slice_app_at {A} (l1 l2 l3 : list A) o n :
  length l1 = o -> length l2 = n -> slice (l1 ++ l2 ++ l3) o n = l2.
Proof. intros <- <-. unfold slice. by rewrite drop_app_length, take_app_length. Qed.

Lemma fill_first : 0 <= first < U32 -> e_first ENTRY = first.
Proof.
  intros Hf. unfold e_first.
  assert (slice ENTRY 20 2 = to_le 2 (Z.shiftr first 16)) as ->.
  { unfold fill_dir_entry. rewrite !(app_assoc name), !(app_assoc (name ++ _)).
    apply slice_app_at; rewrite ?length_app, ?length_zeros, ?length_to_le, ?Hname; done. }
  assert (slice ENTRY 26 2 = to_le 2 (Z.land first 0xFFFF)) as ->.
  { unfold fill_dir_entry. rewrite !(app_assoc name), !(app_assoc (name ++ _)), !(app_assoc ((name ++ _) ++ _)),
      !(app_assoc (((name ++ _) ++ _) ++ _)).
    apply slice_app_at; rewrite ?length_app, ?length_zeros, ?length_to_le, ?Hname; done. }
  unfold U32 in Hf. change 0xFFFF with (Z.ones 16). rewrite !from_to_le, Z.land_ones, Z.shiftr_div_pow2 by lia.
  change (256 ^ Z.of_nat 2) with (2 ^ 16). rewrite Z.mod_mod by lia.
  assert (0 <= first / 2 ^ 16 < 2 ^ 16) by (split; [apply Z.div_pos; lia|apply Z.div_lt_upper_bound; lia]).
  rewrite (Z.mod_small (first / 2 ^ 16)) by done.
  rewrite lor_shiftl_add by (try apply Z.mod_pos_bound; lia).
  rewrite (Z.div_mod first (2 ^ 16)) at 3 by lia. lia.
Qed.

Lemma fill_size : 0 <= sz < U32 -> e_size ENTRY = sz.
Proof.
  intros Hz. unfold e_size. assert (slice ENTRY 28 4 = to_le 4 sz) as ->.
  { unfold fill_dir_entry. rewrite <- (app_nil_r (to_le 4 sz)).
    rewrite !(app_assoc name), !(app_assoc (name ++ _)), !(app_assoc ((name ++ _) ++ _)),
      !(app_assoc (((name ++ _) ++ _) ++ _)), !(app_assoc ((((name ++ _) ++ _) ++ _) ++ _)).
    apply slice_app_at; rewrite ?length_app, ?length_zeros, ?length_to_le, ?Hname; done. }
  rewrite from_to_le. by apply Z.mod_small.
Qed.

Lemma fill_dir : 0 <= attr < 256 -> e_dir ENTRY = negb (Z.land attr ATTR_DIRECTORY =? 0).
Proof. intros. unfold e_dir. by rewrite fill_attr. Qed.

Lemma fill_live :
  0 <= attr < 256 -> skipped_attr attr = false -> u8_at name 0 <> 0 -> u8_at name 0 <> 0xE5 ->
  live ENTRY = true.
Proof.
  intros ? Hs H0 H5. unfold live. rewrite fill_mark, fill_attr, Hs by done.
  by rewrite (proj2 (Z.eqb_neq _ _) H0), (proj2 (Z.eqb_neq _ _) H5).
Qed.
End Fill.

(** ** Slots *)

Lemma slot_in_cluster v l p :
  p ∈ locs v l -> exists x, x ∈ l /\ p.1 ∈ cluster_sectors v x.
Proof. intros [Hs _]%elem_of_locs. by apply elem_of_chain_sectors in Hs. Qed.

Lemma find_slot_ext V V' t ls :
  (forall p, p ∈ ls -> slot V' p = slot V p) -> find_slot V' t ls = find_slot V t ls.
Proof.
  induction ls as [|p ls IH]; intros E; [done|]. cbn [find_slot]. rewrite E by left.
  rewrite IH; [done|]. intros. apply E. by right.
Qed.

Lemma find_slot_Some V t ls p :
  find_slot V t ls = Some p -> p ∈ ls /\ live (slot V p) = true /\ e_name (slot V p) = t.
Proof.
  induction ls as [|q ls IH]; [done|]. cbn [find_slot]. destruct (e_mark (slot V q) =? 0); [done|].
  destruct (named t (slot V q)) eqn:E.
  - intros [= <-]. unfold named in E. apply andb_true_iff in E as [? ?%bytes_eqb_eq].
    split; [left|done].
  - intros (? & ? & ?)%IH. split; [by right|done].
Qed.

(** Where end marks only have end marks after them, the scan misses nothing. *)
Lemma find_slot_None V t ls p :
  zero_tail V ls -> find_slot V t ls = None -> p ∈ ls -> live (slot V p) = true ->
  e_name (slot V p) <> t.
Proof.
  induction ls as [|q ls IH]; [by intros _ _ ?%elem_of_nil|]. intros [H0 Ht]. cbn [find_slot].
  destruct (e_mark (slot V q) =? 0) eqn:E0; zbool.
  - intros _ Hp Hl. apply live_mark in Hl as [Hl _]. apply elem_of_cons in Hp as [->|Hp]; [done|].
    by destruct (Hl (H0 E0 p Hp)).
  - destruct (named t (slot V q)) eqn:E; [done|]. intros Hn Hp Hl.
    apply elem_of_cons in Hp as [->|Hp]; [|by apply IH].
    unfold named in E. rewrite Hl in E. intros Et%bytes_eqb_eq. by rewrite Et in E.
Qed.

Lemma find_slot_unique V t ls p :
  dir_ok V ls -> p ∈ ls -> live (slot V p) = true -> e_name (slot V p) = t -> find_slot V t ls = Some p.
Proof.
  intros [Ht Hn _] Hp Hl Et. destruct (find_slot V t ls) as [q|] eqn:E.
  - apply find_slot_Some in E as (Hq & Hlq & Eq). f_equal. apply Hn; [done..|]. by rewrite Et, Eq.
  - by apply (find_slot_None _ _ _ p Ht) in E.
Qed.

Lemma zero_tail_ext V V' ls :
  (forall p, p ∈ ls -> e_mark (slot V' p) = 0 <-> e_mark (slot V p) = 0) -> zero_tail V ls -> zero_tail V' ls.
Proof.
  induction ls as [|p ls IH]; intros E; [done|]. intros [H0 Ht]. split.
  - intros Hz q Hq. apply E; [by right|]. apply H0; [|done]. apply E; [left|done].
  - apply IH; [|done]. intros. apply E. by right.
Qed.

Lemma dir_ok_ext V V' ls :
  (forall p, p ∈ ls -> slot V' p = slot V p) -> dir_ok V ls -> dir_ok V' ls.
Proof.
  intros E [Ht Hn Hd]. split.
  - eapply zero_tail_ext; [|done]. intros p Hp. by rewrite E.
  - intros p q Hp Hq. rewrite !E by done. by apply Hn.
  - intros p Hp. rewrite E by done. by apply Hd.
Qed.

Lemma counted_live e : counted e = true -> live e = true.
Proof. unfold counted. by intros [? _]%andb_true_iff. Qed.

(** ** Volumes *)

Section Volumes.
Context (v : Fat32).
Implicit Types (V : gmap Z (list byte)) (O : gmap Z (bool * list Z)).

Lemma dir_locs_owned V O c l :
  volume_ok v V O -> O !! c = Some (true, l) -> dir_locs v V c = locs v l.
Proof.
  intros Hok Hc. unfold dir_locs. erewrite chain_full_walk; [done| |by eapply vol_chain].
  apply geom_count. by eapply vol_geom.
Qed.

Lemma preserved_slot V V' O c b l p :
  preserved v O V V' -> O !! c = Some (b, l) -> p ∈ locs v l -> slot V' p = slot V p.
Proof.
  intros [_ Hp] Hc (x & Hx & Hs)%slot_in_cluster. unfold slot. destruct (Hp c b l x Hc Hx) as [_ E].
  by rewrite E.
Qed.

Lemma preserved_chain V V' O c b l :
  preserved v O V V' -> O !! c = Some (b, l) -> chain v V c l -> chain v V' c l.
Proof. intros [_ Hp] Hc. apply chain_ext. intros x Hx. by destruct (Hp c b l x Hc Hx). Qed.

Lemma file_bytes_zero V c : file_bytes v V c 0 = [].
Proof. done. Qed.

(** The contents of the file of an entry depend on its chain only. *)
Lemma file_bytes_ext V V' O e :
  volume_ok v V O -> entry_ok v O e -> e_dir e = false ->
  (forall l x, O !! e_first e = Some (false, l) -> x ∈ l ->
     fat_of v V' x = fat_of v V x /\ forall s, s ∈ cluster_sectors v x -> sector V' s = sector V s) ->
  file_bytes v V' (e_first e) (Z.to_nat (e_size e)) = file_bytes v V (e_first e) (Z.to_nat (e_size e)).
Proof.
  intros Hok [(_ & _ & ->)|(l & Hl & _)] Hd Hp; [done|]. rewrite Hd in Hl.
  pose proof (vol_chain _ _ _ Hok _ _ _ Hl) as Hc.
  assert (chain v V' (e_first e) l) as Hc'.
  { eapply chain_ext; [|done]. intros x Hx. by destruct (Hp l x Hl Hx). }
  unfold file_bytes. rewrite (chain_walk v V' _ l), (chain_walk v V _ l) by done. f_equal.
  apply sectors_bytes_ext. intros s (x & Hx & Hs)%elem_of_chain_sectors.
  apply elem_of_take in Hx as (i & Hx & _). apply list_elem_of_lookup_2 in Hx.
  destruct (Hp l x Hl Hx) as [_ E]. by apply E.
Qed.

Lemma refers_back V V' O p :
  preserved v O V V' -> refers v V' O p -> refers v V O p /\ slot V' p = slot V p.
Proof.
  intros Hp [(c & l & Hc & Hl) Hcnt].
  rewrite (preserved_slot _ _ _ _ _ _ _ Hp Hc Hl) in Hcnt |- *. split; [|done]. split; [by eauto|done].
Qed.

Lemma preserved_ok V V' O : volume_ok v V O -> preserved v O V V' -> volume_ok v V' O.
Proof.
  intros Hok Hp. destruct Hok as [G Hboot Hroot Hch Hdj Hdir Hent Hsing Hrl]. split; try done.
  - by rewrite (proj1 Hp).
  - intros. eapply preserved_chain; eauto.
  - intros c l Hc. eapply dir_ok_ext; [|by eapply Hdir]. intros p Hl. by eapply preserved_slot.
  - intros p Hr. destruct (refers_back _ _ _ _ Hp Hr) as [? ->]. by apply Hent.
  - intros p q Hr Hr'. destruct (refers_back _ _ _ _ Hp Hr) as [? ->].
    destruct (refers_back _ _ _ _ Hp Hr') as [? ->]. by apply Hsing.
  - intros p Hr. destruct (refers_back _ _ _ _ Hp Hr) as [? ->]. by apply Hrl.
Qed.

Lemma preserved_view V V' O : volume_ok v V O -> preserved v O V V' -> same_view v O V V'.
Proof.
  intros Hok Hp c t [l Hc]. unfold view. destruct (is_dot t) eqn:Ht; [done|].
  rewrite (dir_locs_owned V' O c l), (dir_locs_owned V O c l) by eauto using preserved_ok.
  rewrite (find_slot_ext V V') by (intros p Hl; by eapply preserved_slot).
  destruct (find_slot V t (locs v l)) as [p|] eqn:E; [|done]. cbn [fmap option_fmap option_map]. f_equal.
  apply find_slot_Some in E as (Hl & Hlive & Hn).
  assert (refers v V O p) as Hr.
  { split; [by eauto|]. unfold counted. by rewrite Hlive, Hn, Ht. }
  unfold node_of. rewrite (preserved_slot _ _ _ _ _ _ _ Hp Hc Hl). destruct (e_dir (slot V p)) eqn:Hd; [done|].
  f_equal. eapply file_bytes_ext; [done|by eapply vol_entry|done|]. intros l' x Hl' Hx. by eapply (proj2 Hp).
Qed.

Lemma preserved_refl V O : preserved v O V V.
Proof. done. Qed.

Lemma preserved_trans V1 V2 V3 O : preserved v O V1 V2 -> preserved v O V2 V3 -> preserved v O V1 V3.
Proof.
  intros [B1 H1] [B2 H2]. split; [by rewrite B2|]. intros c b l x Hc Hx.
  destruct (H1 c b l x Hc Hx) as [E1 S1], (H2 c b l x Hc Hx) as [E2 S2].
  split; [by rewrite E2|]. intros s Hs. by rewrite S2, S1.
Qed.

Lemma preserved_subseteq V V' O O' : O' ⊆ O -> preserved v O V V' -> preserved v O' V V'.
Proof.
  intros Hsub [Hb Hp]. split; [done|]. intros c b l x Hc. apply Hp with c b. by eapply lookup_weaken.
Qed.

(** What touches only free clusters preserves the volume. *)
Lemma unharmed_preserved V V' O : volume_ok v V O -> unharmed v V V' -> preserved v O V V'.
Proof.
  intros Hok [Hr Hf]. split; [apply Hr; pose proof (geom_start v (vol_geom _ _ _ Hok)); lia|].
  intros c b l x Hc Hx. pose proof (vol_chain _ _ _ Hok _ _ _ Hc) as Hch.
  pose proof (chain_valid _ _ _ _ Hch x Hx) as Hv. split.
  - apply Hf; [done|]. by eapply chain_allocated.
  - intros s Hs. apply Hr. pose proof (cluster_sectors_data v (vol_geom _ _ _ Hok) x s Hv Hs). lia.
Qed.

Definition apart (O : gmap Z (bool * list Z)) (k : list Z) : Prop :=
  forall c b l x, O !! c = Some (b, l) -> x ∈ l -> x ∉ k.

Lemma free_apart V O k :
  volume_ok v V O -> (forall x, x ∈ k -> fat_of v V x = 0) -> apart O k.
Proof.
  intros Hok Hk c b l x Hc Hx Hxk. pose proof (vol_chain _ _ _ Hok _ _ _ Hc) as Hch.
  by apply (chain_allocated v V c l x Hch Hx), Hk.
Qed.

(** Writing into other chains preserves the volume. *)
Lemma outside_preserved V V' O k :
  volume_ok v V O -> apart O k -> (forall x, x ∈ k -> cvalid v x = true) ->
  outside_same V V' (chain_sectors v k) -> preserved v O V V'.
Proof.
  intros Hok Ha Hk Ho. pose proof (vol_geom _ _ _ Hok) as G. split.
  { apply Ho. intros Hs. apply chain_sectors_data in Hs; [|done..].
    pose proof (data_start_pos v G). lia. }
  intros c b l x Hc Hx. pose proof (chain_valid _ _ _ _ (vol_chain _ _ _ Hok _ _ _ Hc) x Hx) as Hv. split.
  - eapply outside_same_fat; [done| |exact Ho|done]. intros s. by apply chain_sectors_data.
  - intros s Hs. apply Ho. intros (y & Hy & Hs')%elem_of_chain_sectors.
    rewrite (cluster_sectors_disjoint v G x y s Hs Hs') in Hx. by eapply Ha.
Qed.

(** Releasing other chains preserves the volume. *)
Lemma freed_preserved V V' O k f :
  volume_ok v V O -> apart O k -> fat_becomes v V V' f ->
  (forall x, x ∉ k -> f x = fat_of v V x) -> preserved v O V V'.
Proof.
  intros Hok Ha [Hf Hr] Hx0. pose proof (vol_geom _ _ _ Hok) as G.
  split; [apply Hr; pose proof (geom_start v G); lia|]. intros c b l x Hc Hx. pose proof (chain_valid _ _ _ _ (vol_chain _ _ _ Hok _ _ _ Hc) x Hx) as Hv. split.
  - rewrite Hf by done. apply Hx0. by eapply Ha.
  - intros s Hs. apply Hr. pose proof (cluster_sectors_data v G x s Hv Hs). lia.
Qed.

Lemma entry_ok_subseteq O O' e : O ⊆ O' -> entry_ok v O e -> entry_ok v O' e.
Proof.
  intros Hs [?|(l & Hl & ?)]; [by left|right]. exists l. split; [by eapply lookup_weaken|done].
Qed.

(** A chain that nothing refers to can be dropped from the chains in use. *)
Lemma forget_ok V O c :
  volume_ok v V O -> c <> root_cluster v -> (forall p, refers v V O p -> e_first (slot V p) <> c) ->
  volume_ok v V (delete c O).
Proof.
  intros [G Hboot [lr Hroot] Hch Hdj Hdir Hent Hsing Hrl] Hc Hun.
  assert (forall p, refers v V (delete c O) p -> refers v V O p) as Href.
  { intros p [(x & l & Hx & Hl) ?]. split; [|done]. exists x, l. split; [|done].
    by apply lookup_delete_Some in Hx as [_ ?]. }
  split; try done.
  - exists lr. by rewrite lookup_delete_ne.
  - intros x b l [_ Hx]%lookup_delete_Some. by eapply Hch.
  - intros c1 b1 l1 c2 b2 l2 x [_ H1]%lookup_delete_Some [_ H2]%lookup_delete_Some. by eapply Hdj.
  - intros x l [_ Hx]%lookup_delete_Some. by eapply Hdir.
  - intros p Hp%Href. destruct (Hent p Hp) as [?|(l & Hl & ?)]; [by left|right]. exists l.
    split; [|done]. rewrite lookup_delete_ne; [done|]. intros Ex. by apply (Hun p Hp).
  - intros p q ?%Href ?%Href. by apply Hsing.
  - intros p ?%Href. by apply Hrl.
Qed.

(** A chain apart from those in use can be added to them. *)
Lemma adopt_ok V O c b k :
  volume_ok v V O -> chain v V c k -> apart O k ->
  (b = true -> dir_ok V (locs v k) /\ forall p, p ∈ locs v k -> counted (slot V p) = false) ->
  volume_ok v V (<[c := (b, k)]> O).
Proof.
  intros [G Hboot [lr Hroot] Hch Hdj Hdir Hent Hsing Hrl] Hk Ha Hb.
  assert (O !! c = None) as Hnone.
  { destruct (O !! c) as [[b' l]|] eqn:E; [|done].
    destruct (Ha c b' l c E); eapply chain_nonempty; eauto. }
  assert (forall p, refers v V (<[c := (b, k)]> O) p -> refers v V O p) as Href.
  { intros p [(x & l & Hx & Hl) Hcnt]. split; [|done].
    apply lookup_insert_Some in Hx as [[<- [= -> ->]]|[_ Hx]]; [|by eauto].
    destruct Hb as [_ Hb]; [done|]. by rewrite Hb in Hcnt. }
  split; try done.
  - exists lr. rewrite lookup_insert_ne; [done|]. intros ->. by rewrite Hnone in Hroot.
  - intros x b' l [[<- [= -> ->]]|[_ Hx]]%lookup_insert_Some; [done|by eapply Hch].
  - intros c1 b1 l1 c2 b2 l2 x [[<- [= -> ->]]|[_ H1]]%lookup_insert_Some
      [[<- [= -> ->]]|[_ H2]]%lookup_insert_Some Hx1 Hx2; [done| | |by eapply Hdj].
    + by destruct (Ha _ _ _ _ H2 Hx2).
    + by destruct (Ha _ _ _ _ H1 Hx1).
  - intros x l [[<- [= -> ->]]|[_ Hx]]%lookup_insert_Some; [by apply Hb|by eapply Hdir].
  - intros p Hp%Href. eapply entry_ok_subseteq; [by apply insert_subseteq|by apply Hent].
  - intros p q ?%Href ?%Href. by apply Hsing.
  - intros p ?%Href. by apply Hrl.
Qed.
End Volumes.

(** ** Changing one slot *)

Record slot_set (V V' : gmap Z (list byte)) (p : loc) (e : list byte) : Prop := {
  slot_this : slot V' p = e;
  slot_other : forall q, q ∈ sector_locs q.1 -> q <> p -> slot V' q = slot V q;
  slot_outside : outside_same V V' [p.1];
}.

Lemma sector_locs_apart s p q :
  p ∈ sector_locs s -> q ∈ sector_locs s -> p <> q ->
  (p.2 + DIR_ENTRY_SIZE <= q.2 \/ q.2 + DIR_ENTRY_SIZE <= p.2)%nat.
Proof.
  unfold sector_locs. intros (i & -> & _)%list_elem_of_fmap (j & -> & _)%list_elem_of_fmap Hne. simpl.
  assert (i <> j) by congruence. unfold DIR_ENTRY_SIZE. lia.
Qed.

Lemma splice_slot_set V p e :
  p ∈ sector_locs p.1 -> length e = DIR_ENTRY_SIZE ->
  slot_set V (<[p.1 := splice (sector V p.1) p.2 e]> V) p e.
Proof.
  intros Hp He. pose proof (sector_locs_ok _ _ Hp) as Ho.
  assert (length (splice (sector V p.1) p.2 e) = SECTOR_SIZE) as Hlen.
  { rewrite length_splice; rewrite length_sector; [done|lia]. }
  split.
  - unfold slot. rewrite sector_insert_eq by done. apply slice_splice_eq; [done|]. rewrite length_sector. lia.
  - intros q Hq Hne. unfold slot. destruct (Z.eq_dec p.1 q.1) as [E|E].
    2: { by rewrite sector_insert_ne. }
    rewrite <- E in Hq |- *. rewrite sector_insert_eq by done.
    destruct (sector_locs_apart _ _ _ Hp Hq) as [H|H]; [done| |].
    + apply slice_splice_after; [lia|rewrite length_sector; lia].
    + apply slice_splice_before; [lia|rewrite length_sector; lia].
  - intros s Hs%not_elem_of_cons. apply sector_insert_ne. naive_solver.
Qed.

Lemma insert_as_splice {A} (l : list A) o n x :
  (o + n <= length l)%nat -> (0 < n)%nat -> <[o := x]> l = splice l o (<[0%nat := x]> (slice l o n)).
Proof.
  intros Hl Hn. assert (o < length l)%nat as Ho by lia.
  rewrite insert_take_drop by done. unfold splice. f_equal. rewrite length_insert, length_slice by lia.
  rewrite insert_take_drop by (rewrite length_slice; lia). rewrite take_0, app_nil_l. simpl. f_equal.
  unfold slice. rewrite skipn_firstn_comm, drop_drop.
  replace (o + n)%nat with (o + 1 + (n - 1))%nat by lia. rewrite <- (drop_drop l (n - 1) (o + 1)).
  rewrite take_drop. f_equal. lia.
Qed.

Lemma clear_slot_set V p :
  p ∈ sector_locs p.1 ->
  slot_set V (<[p.1 := <[p.2 := xe5]> (sector V p.1)]> V) p (<[0%nat := xe5]> (slot V p)).
Proof.
  intros Hp. pose proof (sector_locs_ok _ _ Hp) as Ho.
  rewrite (insert_as_splice _ _ DIR_ENTRY_SIZE); [|by rewrite length_sector|unfold DIR_ENTRY_SIZE; lia].
  apply splice_slot_set; [done|]. rewrite length_insert. by apply length_slot.
Qed.

Lemma NoDup_locs v l : geom_ok v -> NoDup l -> NoDup (locs v l).
Proof.
  intros G Hl. pose proof (NoDup_chain_sectors v l G Hl) as Hs. unfold locs. clear Hl.
  induction Hs as [|s ss Hs Hss IH]; [constructor|]. cbn [mbind list_bind].
  apply NoDup_app. split_and!; [| |exact IH].
  - unfold sector_locs. apply NoDup_fmap_2_strong; [|apply NoDup_seq].
    intros i j _ _ [= E]. unfold DIR_ENTRY_SIZE in E. lia.
  - intros p Hp%sector_locs_fst (s' & Hp' & Hs')%list_elem_of_bind.
    apply sector_locs_fst in Hp'. congruence.
Qed.

Lemma zero_tail_set V V' p e ls :
  (forall q, q ∈ ls -> q <> p -> slot V' q = slot V q) -> slot V' p = e -> e_mark e <> 0 ->
  NoDup ls -> p ∈ ls -> (free_slot V ls = Some p \/ e_mark (slot V p) <> 0) ->
  zero_tail V ls -> zero_tail V' ls.
Proof.
  intros Hother Hthis He. induction ls as [|q ls IH]; [done|]. intros Hnd Hp Hfree [H0 Ht].
  apply NoDup_cons in Hnd as [Hq Hnd]. cbn [zero_tail free_slot] in *.
  destruct (decide (q = p)) as [->|Hne].
  - split; [by rewrite Hthis|]. eapply zero_tail_ext; [|exact Ht].
    intros r Hr. rewrite Hother; [done|by right|]. by intros ->.
  - apply elem_of_cons in Hp as [?|Hp]; [done|]. rewrite (Hother q) by (done || left).
    assert (e_mark (slot V q) <> 0) as Hq0.
    { intros Hz. destruct Hfree as [Hf|Hf]; [|by apply Hf, H0].
      unfold is_free in Hf. rewrite Hz in Hf. simpl in Hf. congruence. }
    split; [done|]. apply IH; try done.
    + intros r Hr. apply Hother. by right.
    + destruct Hfree as [Hf|?]; [left|by right]. destruct (is_free (slot V q)); [congruence|done].
Qed.

Lemma free_slot_Some V ls p : free_slot V ls = Some p -> p ∈ ls /\ live (slot V p) = false.
Proof.
  induction ls as [|q ls IH]; [done|]. cbn [free_slot]. destruct (is_free (slot V q)) eqn:E.
  - intros [= ->]. split; [left|]. unfold is_free in E. unfold live.
    destruct (e_mark (slot V p) =? 0); [done|]. simpl in *. by rewrite E.
  - intros [? ?]%IH. split; [by right|done].
Qed.

(** A slot belongs to one directory only. *)
Lemma slot_owner v V O c1 l1 c2 l2 p :
  volume_ok v V O -> O !! c1 = Some (true, l1) -> O !! c2 = Some (true, l2) ->
  p ∈ locs v l1 -> p ∈ locs v l2 -> c1 = c2 /\ l1 = l2.
Proof.
  intros Hok H1 H2 (x & Hx & Hs)%slot_in_cluster (y & Hy & Hs')%slot_in_cluster.
  rewrite (cluster_sectors_disjoint v (vol_geom _ _ _ Hok) x y _ Hs Hs') in Hx.
  assert (c1 = c2) as -> by (by eapply (vol_disjoint _ _ _ Hok)). split; congruence.
Qed.

Section SetSlot.
Context (v : Fat32) (V V' : gmap Z (list byte)) (O : gmap Z (bool * list Z)).
Context (c : Z) (l : list Z) (p : loc) (e : list byte).
Context (Hok : volume_ok v V O) (Hc : O !! c = Some (true, l)) (Hp : p ∈ locs v l).
Context (Hset : slot_set V V' p e) (Hmark : e_mark e <> 0).
Context (Hfree : free_slot V (locs v l) = Some p \/ e_mark (slot V p) <> 0).
Context (Hnames : live e = true -> forall q, q ∈ locs v l -> q <> p -> live (slot V q) = true ->
  e_name (slot V q) <> e_name e).
Context (Hdots : live e = true -> looks_dot (e_name e) = true -> is_dot (e_name e) = true).
Context (Hentry : counted e = true -> entry_ok v O e /\ e_first e <> root_cluster v).
Context (Hsingle : counted e = true -> e_first e <> 0 ->
  forall q, refers v V O q -> q <> p -> e_first (slot V q) <> e_first e).

Lemma set_fat x : cvalid v x = true -> fat_of v V' x = fat_of v V x.
Proof.
  pose proof (vol_geom _ _ _ Hok) as G.
  apply outside_same_fat with [p.1]; [done| |apply Hset]. intros s ->%list_elem_of_singleton.
  apply slot_in_cluster in Hp as (y & Hy & Hs).
  pose proof (chain_valid _ _ _ _ (vol_chain _ _ _ Hok _ _ _ Hc) y Hy) as Hv.
  pose proof (cluster_sectors_data v G y _ Hv Hs). lia.
Qed.

Lemma set_slot_ne c' l' q : O !! c' = Some (true, l') -> q ∈ locs v l' -> q <> p -> slot V' q = slot V q.
Proof. intros _ [_ Hq]%elem_of_locs Hne. by apply Hset. Qed.

(** Chains other than the directory's own are untouched. *)
Lemma set_sectors c' b l' x s :
  O !! c' = Some (b, l') -> c' <> c -> x ∈ l' -> s ∈ cluster_sectors v x -> sector V' s = sector V s.
Proof.
  intros Hc' Hne Hx Hs. apply Hset. intros Es%list_elem_of_singleton. subst s.
  apply slot_in_cluster in Hp as (y & Hy & Hs').
  rewrite (cluster_sectors_disjoint v (vol_geom _ _ _ Hok) x y _ Hs Hs') in Hx.
  apply Hne. by eapply (vol_disjoint _ _ _ Hok).
Qed.

Lemma set_refers q : refers v V' O q -> (q = p /\ counted e = true) \/ (q <> p /\ refers v V O q).
Proof.
  intros [(c' & l' & Hc' & Hl') Hcnt]. destruct (decide (q = p)) as [->|Hne].
  - left. by rewrite (slot_this _ _ _ _ Hset) in Hcnt.
  - right. split; [done|]. rewrite (set_slot_ne c' l') in Hcnt by done. split; [by eauto|done].
Qed.

Lemma set_refers_slot q : refers v V O q -> q <> p -> slot V' q = slot V q.
Proof. intros [(c' & l' & Hc' & Hl') _] Hne. by eapply set_slot_ne. Qed.

Lemma set_dir_ok : dir_ok V' (locs v l).
Proof.
  pose proof (vol_geom _ _ _ Hok) as G. pose proof (slot_this _ _ _ _ Hset) as Hthis.
  assert (forall q, q ∈ locs v l -> q <> p -> slot V' q = slot V q) as Hother.
  { intros q. by apply (set_slot_ne c l). }
  destruct (vol_dir _ _ _ Hok _ _ Hc) as [Ht Hn Hd]. split.
  - eapply zero_tail_set; [exact Hother|exact Hthis|done| |done|done|done].
    apply NoDup_locs; [done|]. eapply chain_nodup. by eapply (vol_chain _ _ _ Hok).
  - intros q r Hq Hr. destruct (decide (q = p)) as [->|Hq'], (decide (r = p)) as [->|Hr']; [done|..].
    + rewrite Hthis, (Hother r) by done. intros Hl Hlr E. by destruct (Hnames Hl r).
    + rewrite Hthis, (Hother q) by done. intros Hlq Hl E. by destruct (Hnames Hl q).
    + rewrite !Hother by done. by apply Hn.
  - intros q Hq. destruct (decide (q = p)) as [->|]; [by rewrite Hthis|].
    rewrite Hother by done. by apply Hd.
Qed.

Lemma set_slot_ok : volume_ok v V' O.
Proof.
  pose proof Hok as [G Hboot Hroot Hch Hdj Hdir Hent Hsing Hrl]. split; try done.
  - rewrite (slot_outside _ _ _ _ Hset); [done|]. intros E%list_elem_of_singleton.
    apply slot_in_cluster in Hp as (y & Hy & Hs). rewrite <- E in Hs.
    pose proof (cluster_sectors_data v G y _ (chain_valid _ _ _ _ (Hch _ _ _ Hc) y Hy) Hs).
    pose proof (data_start_pos v G). lia.
  - intros c' b l' Hc'. eapply chain_ext; [|by eapply Hch]. intros x Hx. apply set_fat.
    by eapply chain_valid; [eapply Hch|].
  - intros c' l' Hc'. destruct (decide (c' = c)) as [->|Hne].
    { assert (l' = l) as -> by congruence. apply set_dir_ok. }
    eapply dir_ok_ext; [|by eapply Hdir]. intros q Hq. apply (set_slot_ne c' l'); [done..|].
    intros ->. destruct (slot_owner v V O c' l' c l p) as [? _]; done.
  - intros q [[-> Hcnt]|[Hne Hr]]%set_refers.
    + rewrite (slot_this _ _ _ _ Hset). by apply Hentry.
    + rewrite set_refers_slot by done. by apply Hent.
  - intros q r [[-> Hq]|[Hnq Hq]]%set_refers [[-> Hr]|[Hnr Hr]]%set_refers; [done|..].
    + rewrite (slot_this _ _ _ _ Hset), (set_refers_slot r) by done. intros E Hz.
      by destruct (Hsingle Hq Hz r Hr Hnr).
    + rewrite (slot_this _ _ _ _ Hset), (set_refers_slot q) by done. intros E Hz.
      rewrite E in Hz. by destruct (Hsingle Hr Hz q Hq Hnq).
    + rewrite !set_refers_slot by done. by apply Hsing.
  - intros q [[-> Hcnt]|[Hne Hr]]%set_refers.
    + rewrite (slot_this _ _ _ _ Hset). by apply Hentry.
    + rewrite set_refers_slot by done. by apply Hrl.
Qed.

(** The contents of files are unchanged. *)
Lemma set_node x : entry_ok v O x -> node_of v V' x = node_of v V x.
Proof.
  intros Hx. unfold node_of. destruct (e_dir x) eqn:Hd; [done|]. f_equal.
  eapply file_bytes_ext; [done|exact Hx|done|]. intros l' y Hl' Hy. split.
  - apply set_fat. by eapply chain_valid; [eapply (vol_chain _ _ _ Hok)|].
  - intros s. eapply set_sectors; [done| |done]. intros E. congruence.
Qed.

(** Other names of this directory, and other directories, look the same. *)
Lemma set_find_ne t :
  (live e = true -> e_name e <> t) -> (live (slot V p) = true -> e_name (slot V p) <> t) ->
  find_slot V' t (locs v l) = find_slot V t (locs v l).
Proof.
  intros He Hold. pose proof (vol_dir _ _ _ Hok _ _ Hc) as Hdir. pose proof set_dir_ok as Hdir'.
  assert (forall q, q ∈ locs v l -> q <> p -> slot V' q = slot V q) as Hother.
  { intros q. by apply (set_slot_ne c l). }
  destruct (find_slot V t (locs v l)) as [q|] eqn:E.
  - apply find_slot_Some in E as (Hq & Hl & Hn). assert (q <> p) as Hne by (by intros ->; apply Hold).
    apply find_slot_unique; [done..| |]; by rewrite Hother.
  - destruct (find_slot V' t (locs v l)) as [q|] eqn:E'; [|done].
    apply find_slot_Some in E' as (Hq & Hl & Hn). destruct (decide (q = p)) as [->|Hne].
    + rewrite (slot_this _ _ _ _ Hset) in Hl, Hn. by destruct (He Hl).
    + rewrite Hother in Hl, Hn by done. by apply (find_slot_None _ _ _ q (dir_tail _ _ Hdir)) in E.
Qed.

Lemma set_view_ne c' t :
  is_directory O c' ->
  (c' = c -> (live e = true -> e_name e <> t) /\ (live (slot V p) = true -> e_name (slot V p) <> t)) ->
  view v V' c' t = view v V c' t.
Proof.
  intros [l' Hc'] Hcond. unfold view. destruct (is_dot t) eqn:Ht; [done|].
  rewrite (dir_locs_owned v V' O c' l'), (dir_locs_owned v V O c' l') by eauto using set_slot_ok.
  assert (find_slot V' t (locs v l') = find_slot V t (locs v l')) as ->.
  { destruct (decide (c' = c)) as [->|Hne].
    - assert (l' = l) as -> by congruence. destruct Hcond; [done|]. by apply set_find_ne.
    - apply find_slot_ext. intros q Hq. apply (set_slot_ne c' l'); [done..|].
      intros ->. destruct (slot_owner v V O c' l' c l p) as [? _]; done. }
  destruct (find_slot V t (locs v l')) as [q|] eqn:E; [|done]. cbn [fmap option_fmap option_map]. f_equal.
  apply find_slot_Some in E as (Hq & Hl & Hn).
  assert (refers v V O q) as Hr. { split; [by eauto|]. unfold counted. by rewrite Hl, Hn, Ht. }
  assert (q <> p) as Hne.
  { intros ->. destruct (slot_owner v V O c' l' c l p) as [E' _]; [done..|].
    destruct (Hcond E') as [_ Hx]. by destruct (Hx Hl). }
  rewrite set_refers_slot by done. apply set_node. by eapply vol_entry.
Qed.

Lemma set_view_eq t :
  live e = true -> e_name e = t -> is_dot t = false -> view v V' c t = Some (node_of v V e).
Proof.
  intros Hl Hn Ht. unfold view. rewrite Ht.
  rewrite (dir_locs_owned v V' O c l) by eauto using set_slot_ok.
  rewrite (find_slot_unique V' t _ p set_dir_ok Hp) by (by rewrite (slot_this _ _ _ _ Hset)).
  cbn [fmap option_fmap option_map]. rewrite (slot_this _ _ _ _ Hset). f_equal. apply set_node, Hentry.
  unfold counted. by rewrite Hl, Hn, Ht.
Qed.

Lemma set_view_gone :
  live e = false -> live (slot V p) = true -> view v V' c (e_name (slot V p)) = None.
Proof.
  intros Hd Hl. unfold view. destruct (is_dot (e_name (slot V p))); [reflexivity|].
  rewrite (dir_locs_owned v V' O c l) by eauto using set_slot_ok.
  destruct (find_slot V' (e_name (slot V p)) (locs v l)) as [q|] eqn:E; [|done].
  apply find_slot_Some in E as (Hq & Hlq & Hn). destruct (decide (q = p)) as [->|Hne].
  - rewrite (slot_this _ _ _ _ Hset) in Hlq. congruence.
  - rewrite (set_slot_ne c l q) in Hlq, Hn by done.
    destruct Hne. by apply (dir_names _ _ (vol_dir _ _ _ Hok _ _ Hc)).
Qed.
End SetSlot.
