(* ===== verification/FatOps.v ===== *)
(** * FAT32 driver: reading, writing and deleting files and directories

    The public operations of [src/fs/fat.rs] on a well-formed volume refine the
    abstract file system [view]; errors, of the device or not, leave a
    well-formed volume. *)

From stdpp Require Import base numbers list gmap.
From Stdlib Require Import ZArith Lia.
From S2P Require Import Prelude BlockDev Fat FatLayout FatAlloc FatData FatDir FatVolume.
#[local] Open Scope Z_scope.

(** ** The abstract file system *)

(** A path walked in the abstract file system: the directory and the last name. *)
Fixpoint a_resolve (F : Z -> list byte -> option anode) (c : Z) (comps : list (list byte))
  : FatError + (Z * list byte) :=
  match comps with
  | [] => inl NotFound
  | [name] => inr (c, name)
  | comp :: rest =>
      match F c (short_name_83 comp) with
      | None => inl NotFound
      | Some (AFile _) => inl NotADirectory
      | Some (ADir id) => a_resolve F id rest
      end
  end.

Definition a_find (F : Z -> list byte -> option anode) (root : Z) (path : list byte)
  : FatError + anode :=
  match a_resolve F root (path_components path) with
  | inl e => inl e
  | inr (c, name) => match F c (short_name_83 name) with Some n => inr n | None => inl NotFound end
  end.

Definition a_read (F : Z -> list byte -> option anode) (root : Z) (path : list byte)
  : FatError + list byte :=
  match a_find F root path with
  | inl e => inl e
  | inr (ADir _) => inl IsADirectory
  | inr (AFile data) => inr data
  end.

Definition a_set (F : Z -> list byte -> option anode) (c : Z) (t : list byte) (n : option anode)
  : Z -> list byte -> option anode :=
  fun c' t' => if decide (c' = c /\ t' = t) then n else F c' t'.

(** Names the driver can store: not taken for a free slot, nor for [.] or [..]. *)
Definition storable (t : list byte) : Prop :=
  u8_at t 0 <> 0 /\ u8_at t 0 <> 0xE5 /\ looks_dot t = false.

(** ** Resolving and reading *)

Section Read.
Context {D : Type} `{BL : BlockDevLaws D} (v : Fat32) (G : geom_ok v).

Lemma view_dir_find V c name :
  view v V c (short_name_83 name) = (fun p => node_of v V (slot V p)) <$> dir_find v V c name.
Proof. unfold view, dir_find. by rewrite short_name_not_dot. Qed.

Lemma resolved_view V c comps : resolved v V c comps = a_resolve (view v V) c comps.
Proof.
  revert c. induction comps as [|comp [|comp' rest] IH]; intros c; [done..|].
  change (resolved v V c (comp :: comp' :: rest)) with
    (match dir_find v V c comp with
     | None => inl NotFound
     | Some p => if e_dir (slot V p) then resolved v V (e_first (slot V p)) (comp' :: rest)
                 else inl NotADirectory
     end).
  change (a_resolve (view v V) c (comp :: comp' :: rest)) with
    (match view v V c (short_name_83 comp) with
     | None => inl NotFound
     | Some (AFile _) => inl NotADirectory
     | Some (ADir id) => a_resolve (view v V) id (comp' :: rest)
     end).
  rewrite view_dir_find. destruct (dir_find v V c comp) as [p|]; [|done].
  cbn [fmap option_fmap option_map]. unfold node_of. destruct (e_dir (slot V p)); [apply IH|done].
Qed.

(** The common start of [read_file], [lookup] and [stat]: resolve the path and
    find the entry. *)
Lemma find_path_spec {A} (d : D) path (k : DirEntry -> prog D FatError A) (r : FatError + A) :
  (forall e, a_find (view v (disk d)) (root_cluster v) path = inl e -> r = inl e) ->
  (forall d' e, same_disk d d' ->
     a_find (view v (disk d)) (root_cluster v) path = inr (node_of v (disk d) e) ->
     computes v d' (k (e_entry e)) r) ->
  computes v d (let! '(dir_cluster, name) := resolve_parent v path in
                let! found := find_in_dir v dir_cluster name in
                let! entry := pok_or found NotFound in k entry) r.
Proof.
  intros Herr Hk. unfold a_find in *. rewrite <- resolved_view in *.
  eapply computes_bind; [by apply resolve_parent_spec| |].
  2: { intros e E. rewrite E in Herr. by apply Herr. }
  intros [c name] d1 E [E1 Hs1]. rewrite E in *. cbn beta match.
  rewrite view_dir_find in *.
  eapply computes_seq; [by apply find_in_dir_spec|]. intros d2 [E2 Hs2]. rewrite E1 in *.
  destruct (dir_find v (disk d) c name) as [p|] eqn:Ef; cbn [fmap option_fmap option_map pok_or] in *.
  - rewrite pbind_ret. apply (Hk d2 (slot (disk d) p)); [|done].
    split; [by rewrite E2|by eauto using stays_trans].
  - rewrite (Herr NotFound) by done. apply computes_fail.
Qed.

Lemma read_file_spec (d : D) path :
  computes v d (read_file v path) (a_read (view v (disk d)) (root_cluster v) path).
Proof.
  apply find_path_spec; unfold a_read.
  - by intros e ->.
  - intros d' e [E _] ->. unfold node_of. cbn [is_dir e_entry].
    destruct (e_dir e); [apply computes_fail|].
    rewrite <- E. apply (read_entry_spec v G d' (e_entry e)).
Qed.

Lemma stat_spec (d : D) path :
  computes v d (stat v path)
    (match trim_matches x2f path with
     | [] => inr (mkMetadata true 0 (root_cluster v))
     | _ => match resolved v (disk d) (root_cluster v) (path_components path) with
            | inl e => inl e
            | inr (c, name) =>
                match dir_find v (disk d) c name with
                | None => inl NotFound
                | Some p => let e := slot (disk d) p in inr (mkMetadata (e_dir e) (e_size e) (e_first e))
                end
            end
     end).
Proof.
  unfold stat. destruct (trim_matches x2f path); [apply computes_ret|].
  eapply computes_bind; [by apply resolve_parent_spec| |by intros e ->].
  intros [c name] d1 -> [E1 _]. eapply computes_seq; [by apply find_in_dir_spec|]. intros d2 _.
  rewrite E1. destruct (dir_find v (disk d) c name) as [p|]; [apply computes_ret|apply computes_fail].
Qed.

Lemma lookup_spec (d : D) path :
  computes v d (lookup v path)
    (match trim_matches x2f path with
     | [] => inr (Dir (dir_items v (disk d) (root_cluster v)))
     | _ => match a_find (view v (disk d)) (root_cluster v) path with
            | inl e => inl e
            | inr (ADir id) => inr (Dir (dir_items v (disk d) id))
            | inr (AFile data) => inr (File data)
            end
     end).
Proof.
  unfold lookup. destruct (trim_matches x2f path).
  { eapply computes_seq; [by apply list_dir_spec|]. intros d1 _. apply computes_ret. }
  apply find_path_spec; [by intros e ->|]. intros d' e [E _] ->. unfold node_of. cbn [is_dir e_entry].
  destruct (e_dir e).
  - eapply computes_seq; [by apply list_dir_spec|]. intros d2 _. rewrite E. apply computes_ret.
  - eapply computes_seq; [by apply read_entry_spec|]. intros d2 _. rewrite E. apply computes_ret.
Qed.

(** A path of a well-formed volume leads through its directories. *)
Lemma resolved_directory V O c comps c' name :
  volume_ok v V O -> is_directory O c -> resolved v V c comps = inr (c', name) -> is_directory O c'.
Proof.
  intros Hok. revert c. induction comps as [|comp [|comp' rest] IH]; intros c [l Hc]; [done| |].
  - intros [= -> ->]. by exists l.
  - change (resolved v V c (comp :: comp' :: rest)) with
      (match dir_find v V c comp with
       | None => inl NotFound
       | Some p => if e_dir (slot V p) then resolved v V (e_first (slot V p)) (comp' :: rest)
                   else inl NotADirectory
       end).
    unfold dir_find. rewrite (dir_locs_owned v V O c l) by done.
    destruct (find_slot V (short_name_83 comp) (locs v l)) as [p|] eqn:E; [|done].
    destruct (e_dir (slot V p)) eqn:Hd; [|done]. apply IH.
    apply find_slot_Some in E as (Hp & Hl & Hn).
    destruct (vol_entry _ _ _ Hok p) as [(_ & ? & _)|(l' & Hl' & _)].
    + split; [by eauto|]. unfold counted. by rewrite Hl, Hn, short_name_not_dot.
    + congruence.
    + rewrite Hd in Hl'. by exists l'.
Qed.
End Read.

(** ** Writing one slot *)

Section Slots.
Context {D : Type} `{BL : BlockDevLaws D} (v : Fat32) (G : geom_ok v).

(** A slot of a chain is a slot of a sector of the volume. *)
Lemma chain_loc V c l p :
  chain v V c l -> p ∈ locs v l -> 0 <= p.1 < volume_sectors v /\ p ∈ sector_locs p.1.
Proof.
  intros Hc Hp. split; [|by apply elem_of_locs in Hp as [_ ?]].
  apply slot_in_cluster in Hp as (x & Hx & Hs).
  pose proof (cluster_sectors_data v G x _ (chain_valid _ _ _ _ Hc x Hx) Hs).
  pose proof (data_start_pos v G). lia.
Qed.

Lemma write_dir_entry_spec (d : D) p name attr first sz :
  0 <= p.1 < volume_sectors v -> p ∈ sector_locs p.1 -> length name = 11%nat ->
  wp (write_dir_entry p.1 p.2 name attr first sz)
     (fun _ d' => slot_set (disk d) (disk d') p (fill_dir_entry name attr first sz) /\ stays_reliable d d')
     (fun e d' => same_disk d d' /\ fault v d e) d.
Proof.
  intros Hs Hp Hn. pose proof (sector_locs_ok _ _ Hp) as Ho. unfold write_dir_entry.
  apply wp_bind. eapply wp_mono; [by apply (wp_read v d)| |]; cbn beta.
  2: { intros e d' [? [?|?]]; [done|by split]. }
  intros buf d1 [[= <-] [E1 Hs1]]. apply wp_bind, wp_assert.
  { rewrite length_sector. by apply Nat.leb_le. }
  eapply wp_mono; [apply (wp_write v d1); [done|]| |]; cbn beta.
  - rewrite length_splice; rewrite length_sector; [done|]. rewrite length_fill by done. done.
  - intros _ d2 [E2 Hs2]. split; [|by eauto using stays_trans]. rewrite E2, E1.
    apply splice_slot_set; [done|by apply length_fill].
  - intros e d2 [[E2 Hs2] Hft]. split; [split; [by rewrite E2|by eauto using stays_trans]|].
    by eauto using fault_stays.
Qed.

Lemma clear_dir_entry_spec (d : D) p :
  0 <= p.1 < volume_sectors v -> p ∈ sector_locs p.1 ->
  wp (clear_dir_entry p.1 p.2)
     (fun _ d' => slot_set (disk d) (disk d') p (<[0%nat := xe5]> (slot (disk d) p)) /\ stays_reliable d d')
     (fun e d' => same_disk d d' /\ fault v d e) d.
Proof.
  intros Hs Hp. pose proof (sector_locs_ok _ _ Hp) as Ho. unfold clear_dir_entry.
  apply wp_bind. eapply wp_mono; [by apply (wp_read v d)| |]; cbn beta.
  2: { intros e d' [? [?|?]]; [done|by split]. }
  intros buf d1 [[= <-] [E1 Hs1]]. apply wp_bind, wp_assert.
  { rewrite length_sector. apply Nat.ltb_lt. unfold DIR_ENTRY_SIZE in Ho. lia. }
  eapply wp_mono; [apply (wp_write v d1); [done|]| |]; cbn beta.
  - by rewrite length_insert, length_sector.
  - intros _ d2 [E2 Hs2]. split; [|by eauto using stays_trans]. rewrite E2, E1.
    by apply clear_slot_set.
  - intros e d2 [[E2 Hs2] Hft]. split; [split; [by rewrite E2|by eauto using stays_trans]|].
    by eauto using fault_stays.
Qed.
End Slots.

(** ** New contents *)

Section Contents.
Context {D : Type} `{BL : BlockDevLaws D} (v : Fat32).

(** The contents [data] are on clusters of their own, at [c]. *)
Definition built (O : gmap Z (bool * list Z)) (V : gmap Z (list byte)) (c : Z) (data : list byte) : Prop :=
  (data = [] /\ c = 0) \/
  exists k, chain v V c k /\ apart O k /\ (length data <= length k * cluster_bytes v)%nat /\
            holds V (chain_sectors v k) data.

Lemma cluster_bytes_pos : geom_ok v -> (0 < cluster_bytes v)%nat.
Proof. intros G. pose proof (geom_spc v G). unfold cluster_bytes, SECTOR_SIZE. lia. Qed.

Lemma div_ceil_bound n m : (0 < m)%nat -> (n <= div_ceil n m * m)%nat /\ (div_ceil n m <= n)%nat.
Proof.
  intros Hm. unfold div_ceil. split.
  - pose proof (Nat.div_mod (n + m - 1) m ltac:(lia)). pose proof (Nat.mod_upper_bound (n + m - 1) m). nia.
  - destruct n; [rewrite Nat.div_small; lia|]. apply Nat.Div0.div_le_upper_bound. nia.
Qed.

Lemma grown_apart V V' O k : volume_ok v V O -> grown v V V' k -> apart O k.
Proof. intros Hok Hg. eapply free_apart; [done|]. intros x Hx. by apply (grown_free _ _ _ _ Hg). Qed.

(** Releasing a chain that is not in use preserves the volume. *)
Lemma release_spec (d : D) O c k :
  volume_ok v (disk d) O -> chain v (disk d) c k -> apart O k ->
  wp (free_chain v c)
     (fun _ d' => preserved v O (disk d) (disk d') /\ stays_reliable d d')
     (fun e d' => preserved v O (disk d) (disk d') /\ stays_reliable d d' /\ fault v d e) d.
Proof.
  intros Hok Hc Ha. eapply wp_mono; [apply free_chain_spec; [by eapply vol_geom|exact Hc]| |]; cbn beta.
  - intros _ d' [Hf Hs]. split; [|done]. eapply freed_preserved; [done..|].
    intros x Hx; cbn beta. by rewrite decide_False.
  - intros e d' ((f & Hf & Hx) & Hs & Hft). split_and!; [|done..]. by eapply freed_preserved.
Qed.

(** The same where the outcome is ignored, before reporting [e]. *)
Lemma undo_spec {A} (d d0 : D) O c k e (Q : A -> D -> Prop) (X : FatError -> Prop) :
  volume_ok v (disk d) O -> chain v (disk d) c k -> apart O k ->
  preserved v O (disk d0) (disk d) -> stays_reliable d0 d -> X e ->
  wp (pignore (free_chain v c) ;;! pfail e) Q
     (fun e d' => preserved v O (disk d0) (disk d') /\ stays_reliable d0 d' /\ X e) d.
Proof.
  intros Hok Hc Ha Hp Hs He. apply wp_bind, wp_ignore.
  eapply wp_mono; [by eapply release_spec| |]; cbn beta; [intros _ d' [Hp' Hs']|intros _ d' (Hp' & Hs' & _)];
    apply wp_fail; split_and!; eauto using preserved_trans, stays_trans.
Qed.

Lemma build_contents_spec (d : D) O data :
  volume_ok v (disk d) O -> Z.of_nat (length data) < U32 ->
  wp (build_contents v data)
     (fun c d' => preserved v O (disk d) (disk d') /\ built O (disk d') c data /\ stays_reliable d d')
     (fun e d' => preserved v O (disk d) (disk d') /\ stays_reliable d d' /\ (fault v d e \/ e = NoSpace)) d.
Proof.
  intros Hok Hlen. pose proof (vol_geom _ _ _ Hok) as G. unfold build_contents.
  destruct data as [|b data].
  { apply wp_ret. split_and!; [apply preserved_refl|by left|apply stays_refl]. }
  set (dat := b :: data) in *. assert (0 < length dat)%nat as Hpos by (simpl; lia).
  pose proof (div_ceil_bound (length dat) (cluster_bytes v) (cluster_bytes_pos G)) as [Hn1 Hn2].
  fold (cluster_bytes v). set (n := div_ceil (length dat) (cluster_bytes v)) in *.
  rewrite Z.mod_small, Nat2Z.id by lia.
  apply wp_bind. eapply wp_mono; [apply alloc_chain_spec; [done|]| |]; cbn beta.
  - destruct n; lia.
  - intros c d1 (k & Hg & Hc & Hk & Hs1).
    pose proof (grown_apart _ _ _ _ Hok Hg) as Ha.
    pose proof (unharmed_preserved v _ _ O Hok (grown_unharmed v _ _ _ Hg)) as Hp1.
    pose proof (preserved_ok v _ _ _ Hok Hp1) as Hok1.
    assert (forall x, x ∈ k -> cvalid v x = true) as Hkv by (intros x; by eapply chain_valid).
    assert (forall s, s ∈ chain_sectors v k -> data_start_sector v <= s) as Hkd.
    { intros s. by apply chain_sectors_data. }
    apply wp_catch, wp_bind.
    eapply wp_mono; [apply write_chain_spec; [done|exact Hc|lia]| |]; cbn beta.
    + intros _ d2 (Hh & Ho & Hs2). apply wp_ret. split_and!.
      * eapply preserved_trans; [done|]. by eapply outside_preserved.
      * right. exists k. split_and!; [|done|lia|done].
        eapply chain_ext; [|exact Hc]. intros x Hx. eapply outside_same_fat; [done| |exact Ho|auto]. auto.
      * eauto using stays_trans.
    + intros e d2 (Ho & Hs2 & Hft).
      pose proof (outside_preserved v _ _ O k Hok1 Ha Hkv Ho) as Hp2.
      eapply (undo_spec d2 d O c k e); [by eapply preserved_ok| |done|by eapply preserved_trans
        |by eauto using stays_trans|left; by eauto using fault_stays].
      eapply chain_ext; [|exact Hc]. intros x Hx. eapply outside_same_fat; [done| |exact Ho|auto]. auto.
  - intros e d1 (Hu & Hs & He). split_and!; [by eapply unharmed_preserved|done|].
    destruct He as [?|[-> _]]; [by left|by right].
Qed.

Lemma built_bytes O V c data :
  geom_ok v -> built O V c data -> file_bytes v V c (length data) = data.
Proof.
  intros G [[-> ->]|(k & Hc & _ & Hl & Hh)]; [done|].
  destruct (file_bytes_chain v G V c k (length data) Hc Hl) as [-> _]. by apply holds_bytes.
Qed.
End Contents.

(** ** Committing an entry *)

(** [p] is the slot for the name [t] in the directory of chain [l]; [old] is the
    first cluster of the entry it replaces. *)
Record place (v : Fat32) (V : gmap Z (list byte)) (l : list Z) (t : list byte) (p : loc) (old : option Z)
  : Prop := {
  place_in : p ∈ locs v l;
  place_free : free_slot V (locs v l) = Some p \/ e_mark (slot V p) <> 0;
  place_names : forall q, q ∈ locs v l -> q <> p -> live (slot V q) = true -> e_name (slot V q) <> t;
  place_old : (old = Some (e_first (slot V p)) /\ live (slot V p) = true /\ e_name (slot V p) = t) \/
              (old = None /\ live (slot V p) = false);
}.

Section Commit.
Context (v : Fat32).
Implicit Types (V : gmap Z (list byte)) (O : gmap Z (bool * list Z)).

Lemma find_place V l t p :
  dir_ok V (locs v l) -> find_slot V t (locs v l) = Some p ->
  place v V l t p (Some (e_first (slot V p))).
Proof.
  intros Hd (Hp & Hl & Hn)%find_slot_Some. split; [done| | |by left].
  - right. by apply live_mark in Hl as [? _].
  - intros q Hq Hne Hlq Hnq. apply Hne. apply (dir_names _ _ Hd); [done..|]. congruence.
Qed.

Lemma free_place V l t p :
  dir_ok V (locs v l) -> find_slot V t (locs v l) = None -> free_slot V (locs v l) = Some p ->
  place v V l t p None.
Proof.
  intros Hd Hf Hp. pose proof (free_slot_Some _ _ _ Hp) as [Hin Hl].
  split; [done|by left| |by right]. intros q Hq _ Hlq. by eapply find_slot_None; [apply Hd|..].
Qed.

Lemma place_preserved V V' O c l t p old :
  preserved v O V V' -> O !! c = Some (true, l) -> place v V l t p old -> place v V' l t p old.
Proof.
  intros Hpr Hc [Hin Hfree Hnames Hold].
  assert (forall q, q ∈ locs v l -> slot V' q = slot V q) as E by (intros q; by eapply preserved_slot).
  assert (free_slot V' (locs v l) = free_slot V (locs v l)) as Ef.
  { clear - E. induction (locs v l) as [|q ls IH]; [done|]. cbn [free_slot]. rewrite E by left.
    rewrite IH; [done|]. intros. apply E. by right. }
  split; [done|by rewrite Ef, E|intros q Hq; by rewrite E; auto|by rewrite E].
Qed.

Lemma commit_ok V V' O c l t p old e :
  volume_ok v V O -> O !! c = Some (true, l) -> place v V l t p old -> slot_set V V' p e ->
  live e = true -> e_name e = t -> is_dot t = false -> looks_dot t = false ->
  entry_ok v O e -> e_first e <> root_cluster v ->
  (e_first e <> 0 -> forall q, refers v V O q -> e_first (slot V q) <> e_first e) ->
  volume_ok v V' O /\
  forall c' t', is_directory O c' -> view v V' c' t' = a_set (view v V) c t (Some (node_of v V e)) c' t'.
Proof.
  intros Hok Hc [Hin Hfree Hnames Hold] Hset Hl Hn Hnd Hlk He Hroot Hun.
  pose proof (live_mark _ Hl) as [Hm _].
  assert (live e = true -> forall q, q ∈ locs v l -> q <> p -> live (slot V q) = true ->
    e_name (slot V q) <> e_name e) as Hnames' by (rewrite Hn; auto).
  assert (live e = true -> looks_dot (e_name e) = true -> is_dot (e_name e) = true) as Hdots.
  { rewrite Hn. congruence. }
  assert (counted e = true -> entry_ok v O e /\ e_first e <> root_cluster v) as Hent by done.
  assert (counted e = true -> e_first e <> 0 ->
    forall q, refers v V O q -> q <> p -> e_first (slot V q) <> e_first e) as Hsing by auto.
  split; [by eapply (set_slot_ok v V V' O c l p e)|].
  intros c' t' Hdir. unfold a_set. case_decide as Hd.
  - destruct Hd as [-> ->]. by eapply (set_view_eq v V V' O c l p e).
  - apply (set_view_ne v V V' O c l p e); try done. intros ->. split; [intros _ ?; apply Hd; by subst|].
    intros Hlp Hnp. destruct Hold as [(_ & _ & Hn')|[_ Hl']]; [|congruence]. apply Hd. by subst.
Qed.

(** After the commit nothing refers to the replaced chain. *)
Lemma replaced_unreferenced V V' O c l t p first e :
  volume_ok v V O -> O !! c = Some (true, l) -> place v V l t p (Some first) -> is_dot t = false ->
  slot_set V V' p e -> first <> 0 -> e_first e <> first ->
  forall q, refers v V' O q -> e_first (slot V' q) <> first.
Proof.
  intros Hok Hc [Hin _ _ Hold] Hnd Hset Hz Hne q Hr.
  destruct Hold as [([= Hf] & Hl & Hn)|[? _]]; [|done].
  assert (refers v V O p) as Hrp.
  { split; [by eauto|]. unfold counted. by rewrite Hl, Hn, Hnd. }
  apply (set_refers v V V' O p e Hset) in Hr as [[-> _]|[Hqp Hr]].
  - by rewrite (slot_this _ _ _ _ Hset).
  - rewrite (set_refers_slot v V V' O p e Hset q) by done. intros E. apply Hqp.
    apply (vol_single _ _ _ Hok); congruence.
Qed.
End Commit.

(** ** Writing a file *)

Definition same_directories (O O' : gmap Z (bool * list Z)) : Prop :=
  forall c, is_directory O' c <-> is_directory O c.

Section WriteFile.
Context {D : Type} `{BL : BlockDevLaws D} (v : Fat32).
Implicit Types (V : gmap Z (list byte)) (O : gmap Z (bool * list Z)).

(** The volume is well formed and represents the same file system. *)
Definition unchanged O (d d' : D) : Prop :=
  volume_ok v (disk d') O /\ same_view v O (disk d) (disk d') /\ stays_reliable d d'.

(** The volume is well formed and represents the file system [F]. *)
Definition becomes O (d d' : D) (F : Z -> list byte -> option anode) : Prop :=
  exists O', volume_ok v (disk d') O' /\ same_directories O O' /\
    (forall c t, is_directory O c -> view v (disk d') c t = F c t) /\ stays_reliable d d'.

Lemma wp_computes {A B} (d : D) (m : prog D FatError A) (f : A -> prog D FatError B) r Q X :
  computes v d m r ->
  (forall a d', r = inr a -> same_disk d d' -> wp (f a) Q X d') ->
  (forall e d', same_disk d d' -> r = inl e \/ fault v d e -> X e d') ->
  wp (pbind m f) Q X d.
Proof.
  intros Hm Hf He. apply wp_bind. eapply wp_mono; [exact Hm| |]; cbn beta.
  - intros a d' [-> ?]. by apply Hf.
  - intros e d' [? ?]. by apply He.
Qed.

Lemma preserved_unchanged O (d d' : D) :
  volume_ok v (disk d) O -> preserved v O (disk d) (disk d') -> stays_reliable d d' -> unchanged O d d'.
Proof. intros. split_and!; eauto using preserved_ok, preserved_view. Qed.

Lemma same_unchanged O (d d' : D) : volume_ok v (disk d) O -> same_disk d d' -> unchanged O d d'.
Proof. intros Hok [E Hs]. apply preserved_unchanged; [done| |done]. rewrite E. apply preserved_refl. Qed.

Lemma same_directories_trans O1 O2 O3 :
  same_directories O1 O2 -> same_directories O2 O3 -> same_directories O1 O3.
Proof. intros H1 H2 c. by rewrite (H2 c), (H1 c). Qed.

Lemma root_pos V O : volume_ok v V O -> root_cluster v <> 0.
Proof.
  intros Hok. destruct (vol_root _ _ _ Hok) as [l Hl].
  by apply chain_first_pos with v V l, (vol_chain _ _ _ Hok _ _ _ Hl).
Qed.

(** New contents become a chain in use, which no entry refers to yet. *)
Lemma adopt_file V O c t data :
  volume_ok v V O -> built v O V c data -> length t = 11%nat -> Z.of_nat (length data) < U32 ->
  let e := fill_dir_entry t ATTR_ARCHIVE c (Z.of_nat (length data)) in
  exists O1, volume_ok v V O1 /\ O ⊆ O1 /\ same_directories O O1 /\ entry_ok v O1 e /\
    e_first e = c /\ c <> root_cluster v /\ (c <> 0 -> O !! c = None) /\
    (c <> 0 -> forall q, refers v V O1 q -> e_first (slot V q) <> c).
Proof.
  intros Hok Hb Ht Hlen e. pose proof (vol_geom _ _ _ Hok) as G.
  assert (e_dir e = false) as Hed by (unfold e; by rewrite fill_dir).
  assert (e_size e = Z.of_nat (length data)) as Hes by (apply fill_size; [done|lia]).
  destruct Hb as [[-> ->]|(k & Hc & Ha & Hk & _)].
  - assert (e_first e = 0) as He by (by apply fill_first). exists O.
    split_and!; try done. { by left. } intros E. by apply (root_pos _ _ Hok).
  - pose proof (chain_valid _ _ _ _ Hc c (chain_nonempty _ _ _ _ Hc)) as Hv.
    assert (e_first e = c) as He. { apply fill_first; [done|]. clear - G Hv. geom. lia. }
    assert (O !! c = None) as Hnone.
    { destruct (O !! c) as [[b l]|] eqn:E; [|done].
      destruct (Ha c b l c E); eapply chain_nonempty; [by eapply (vol_chain _ _ _ Hok)|done]. }
    exists (<[c := (false, k)]> O). split_and!.
    + by apply adopt_ok.
    + by apply insert_subseteq.
    + intros x. unfold is_directory. split; intros [l Hl].
      * apply lookup_insert_Some in Hl as [[_ ?]|[_ ?]]; [done|by exists l].
      * exists l. rewrite lookup_insert_ne; [done|]. by intros ->; rewrite Hnone in Hl.
    + right. exists k. rewrite He, Hed, lookup_insert_eq, Hes, Nat2Z.id. done.
    + done.
    + intros ->. destruct (vol_root _ _ _ Hok) as [l Hl]. congruence.
    + done.
    + intros Hc0 q [(x & l & Hx & Hl) Hcnt] E.
      apply lookup_insert_Some in Hx as [[_ ?]|[_ Hx]]; [done|].
      assert (refers v V O q) as Hr by (split; [by eauto|done]).
      destruct (vol_entry _ _ _ Hok q Hr) as [(Hz & _)|(l' & Hl' & _)]; congruence.
Qed.

(** The replaced contents go back to the pool, whatever the device does. *)
Lemma drop_chain_spec O (d : D) c b k :
  volume_ok v (disk d) O -> O !! c = Some (b, k) -> c <> root_cluster v ->
  (forall q, refers v (disk d) O q -> e_first (slot (disk d) q) <> c) ->
  wp (free_chain v c)
     (fun _ d' => volume_ok v (disk d') (delete c O) /\ same_view v (delete c O) (disk d) (disk d') /\
                  stays_reliable d d')
     (fun e d' => volume_ok v (disk d') (delete c O) /\ same_view v (delete c O) (disk d) (disk d') /\
                  stays_reliable d d' /\ fault v d e) d.
Proof.
  intros Hok Hc Hr Hun. pose proof (forget_ok v _ _ _ Hok Hr Hun) as Hok'.
  eapply wp_mono; [eapply release_spec; [exact Hok'|by eapply (vol_chain _ _ _ Hok)|]| |]; cbn beta.
  - intros x b' l y [Hne Hx]%lookup_delete_Some Hy Hyk. apply Hne. by eapply (vol_disjoint _ _ _ Hok).
  - intros _ d' [Hp Hs]. split_and!; eauto using preserved_ok, preserved_view.
  - intros e d' (Hp & Hs & Hf). split_and!; eauto using preserved_ok, preserved_view.
Qed.

Lemma delete_file_directories O c k : O !! c = Some (false, k) -> same_directories O (delete c O).
Proof.
  intros Hc x. unfold is_directory. split; intros [l Hl].
  - apply lookup_delete_Some in Hl as [_ ?]. by exists l.
  - exists l. rewrite lookup_delete_ne; [done|]. intros ->. congruence.
Qed.

(** The last step of [write_file]: release what the entry had before. *)
Lemma release_old_spec O (d : D) old (F : Z -> list byte -> option anode) O0 (d0 : D) (X : FatError -> D -> Prop) :
  volume_ok v (disk d) O -> same_directories O0 O -> stays_reliable d0 d ->
  (forall c t, is_directory O0 c -> view v (disk d) c t = F c t) ->
  (forall first, old = Some first -> cvalid v first = true ->
     (exists k, O !! first = Some (false, k)) /\ first <> root_cluster v /\
     forall q, refers v (disk d) O q -> e_first (slot (disk d) q) <> first) ->
  wp (match old with
      | Some first => let! ok := valid_cluster v first in
                      if ok then pignore (free_chain v first) else pret tt
      | None => pret tt
      end) (fun _ d' => becomes O0 d0 d' F) X d.
Proof.
  intros Hok Hdir Hs Hview Hold.
  assert (becomes O0 d0 d F) as Hnow by (exists O; by split_and!).
  destruct old as [first|]; [|by apply wp_ret].
  rewrite (valid_cluster_eq v (vol_geom _ _ _ Hok)), pbind_ret.
  destruct (cvalid v first) eqn:Hv; [|by apply wp_ret].
  destruct (Hold first eq_refl Hv) as ([k Hk] & Hr & Hun).
  assert (forall d', volume_ok v (disk d') (delete first O) ->
    same_view v (delete first O) (disk d) (disk d') -> stays_reliable d d' -> becomes O0 d0 d' F) as Hdone.
  { intros d' Hok' Hsame Hs'. exists (delete first O).
    pose proof (delete_file_directories _ _ _ Hk) as Hdel.
    split_and!; [done|by eapply same_directories_trans| |by eauto using stays_trans].
    intros c t Hc. rewrite <- (Hview c t Hc). apply Hsame. by apply Hdel, Hdir. }
  apply wp_ignore. eapply wp_mono; [by eapply drop_chain_spec| |]; cbn beta.
  - intros _ d' (? & ? & ?). by apply Hdone.
  - intros e d' (? & ? & ? & _). by apply Hdone.
Qed.

Lemma archive_entry t c n :
  length t = 11%nat -> storable t ->
  live (fill_dir_entry t ATTR_ARCHIVE c n) = true /\ e_name (fill_dir_entry t ATTR_ARCHIVE c n) = t.
Proof.
  intros Ht (H0 & H5 & _). split; [by apply fill_live|by apply fill_name].
Qed.

(** The entry at a place that had one before is a file's, with a chain of its own. *)
Lemma place_old_file V O c l t p first :
  volume_ok v V O -> O !! c = Some (true, l) -> place v V l t p (Some first) -> is_dot t = false ->
  (forall id, view v V c t <> Some (ADir id)) -> first <> 0 ->
  (exists k, O !! first = Some (false, k)) /\ first <> root_cluster v.
Proof.
  intros Hok Hc [Hin _ _ Hold] Hd Hview Hz. destruct Hold as [([= Hf] & Hl & Hn)|[? _]]; [|done].
  assert (refers v V O p) as Hr. { split; [by eauto|]. unfold counted. by rewrite Hl, Hn, Hd. }
  assert (e_dir (slot V p) = false) as Hed.
  { destruct (e_dir (slot V p)) eqn:E; [|done]. destruct (Hview (e_first (slot V p))).
    unfold view. rewrite Hd, (dir_locs_owned v V O c l) by done.
    rewrite (find_slot_unique V t _ p (vol_dir _ _ _ Hok _ _ Hc)) by done.
    cbn [fmap option_fmap option_map]. unfold node_of. by rewrite E. }
  split; [|rewrite Hf; by apply (vol_rootless _ _ _ Hok)].
  destruct (vol_entry _ _ _ Hok p Hr) as [(? & _)|(k & Hk & _)]; [congruence|].
  exists k. by rewrite Hf, <- Hed.
Qed.

(** A failed commit: the new contents are released again. *)
Lemma commit_undo O (d0 d : D) new data e (Q : unit -> D -> Prop) :
  volume_ok v (disk d0) O -> preserved v O (disk d0) (disk d) -> stays_reliable d0 d ->
  built v O (disk d) new data -> fault v d0 e ->
  wp ((if negb (new =? 0) then pignore (free_chain v new) else pret tt) ;;! pfail e) Q
     (fun e d' => unchanged O d0 d' /\ fault v d0 e) d.
Proof.
  intros Hok Hp Hs Hb Hf. pose proof (preserved_ok v _ _ _ Hok Hp) as Hok1.
  destruct Hb as [[_ ->]|(k & Hc & Ha & _)].
  - apply wp_bind, wp_ret, wp_fail. split; [by apply preserved_unchanged|done].
  - rewrite (proj2 (Z.eqb_neq new 0)) by (by eapply chain_first_pos).
    eapply wp_mono; [by eapply (undo_spec v d d0 O new k e Q (fault v d0))|done|]; cbn beta.
    intros e' d' (? & ? & ?). split; [by apply preserved_unchanged|done].
Qed.

(** Steps 3 and 4 of [write_file]. *)
Lemma write_commit_spec O (d0 d : D) c l name p old new data :
  let t := short_name_83 name in
  volume_ok v (disk d0) O -> preserved v O (disk d0) (disk d) -> stays_reliable d0 d ->
  O !! c = Some (true, l) -> place v (disk d0) l t p old -> storable t ->
  (forall id, view v (disk d0) c t <> Some (ADir id)) ->
  built v O (disk d) new data -> Z.of_nat (length data) < U32 ->
  wp (pcatch (write_dir_entry p.1 p.2 t ATTR_ARCHIVE new (Z.of_nat (length data) mod U32))
        (fun e => (if negb (new =? 0) then pignore (free_chain v new) else pret tt) ;;! pfail e) ;;!
      match old with
      | Some first => let! ok := valid_cluster v first in
                      if ok then pignore (free_chain v first) else pret tt
      | None => pret tt
      end)
     (fun _ d' => becomes O d0 d' (a_set (view v (disk d0)) c t (Some (AFile data))))
     (fun e d' => unchanged O d0 d' /\ fault v d0 e) d.
Proof.
  intros t Hok0 Hp Hs Hc Hplace0 Hst Hview0 Hb Hlen.
  pose proof (length_short_name name) as Ht. fold t in Ht. pose proof (short_name_not_dot name) as Hnd. fold t in Hnd.
  pose proof (preserved_ok v _ _ _ Hok0 Hp) as Hok. pose proof (preserved_view v _ _ _ Hok0 Hp) as Hsame.
  pose proof (place_preserved v _ _ _ _ _ _ _ _ Hp Hc Hplace0) as Hplace.
  pose proof (vol_geom _ _ _ Hok) as G. rewrite Z.mod_small by lia.
  destruct (adopt_file (disk d) O new t data Hok Hb Ht Hlen)
    as (O1 & Hok1 & Hsub & Hdirs & Hent & Hfirst & Hroot & Hnone & Hun).
  destruct (archive_entry t new (Z.of_nat (length data)) Ht Hst) as [Hlive Hname].
  set (e := fill_dir_entry t ATTR_ARCHIVE new (Z.of_nat (length data))) in *.
  pose proof (lookup_weaken _ _ _ _ Hc Hsub) as Hc1.
  destruct (chain_loc v G (disk d) c l p (vol_chain _ _ _ Hok _ _ _ Hc) (place_in _ _ _ _ _ _ Hplace)) as [Hpr Hpl].
  apply wp_bind, wp_catch. eapply wp_mono; [by apply (write_dir_entry_spec v d p)| |]; cbn beta.
  2: { intros er d2 [[E2 Hs2] Hft].
       eapply commit_undo; rewrite ?E2; eauto using stays_trans, fault_stays. }
  intros _ d2 [Hset Hs2]. fold e in Hset.
  destruct (commit_ok v _ _ O1 c l t p old e Hok1 Hc1 Hplace Hset) as [Hok2 Hview2]; try done;
    [apply Hst|by rewrite Hfirst|by rewrite Hfirst|].
  apply (release_old_spec O1); [done|done|by eauto using stays_trans| |].
  - intros c' t' Hc'. rewrite Hview2 by (by apply Hdirs). unfold a_set.
    case_decide; [|by apply Hsame]. f_equal. unfold node_of.
    assert (e_dir e = false) as -> by (unfold e; by rewrite fill_dir).
    rewrite Hfirst. unfold e. rewrite fill_size, Nat2Z.id by (done || lia).
    by erewrite built_bytes.
  - intros first -> Hv. assert (first <> 0) as Hz by (intros ->; by vm_compute in Hv).
    destruct (place_old_file (disk d) O c l t p first) as [[k Hk] Hr]; try done.
    { intros id. rewrite Hsame by (by exists l). apply Hview0. }
    split_and!; [exists k; by eapply lookup_weaken|done|].
    eapply replaced_unreferenced; [exact Hok1|exact Hc1|exact Hplace|done|exact Hset|done|].
    rewrite Hfirst. intros ->. by rewrite Hnone in Hk.
Qed.

(** What a path must satisfy for the driver to write there. *)
Definition writable V (path : list byte) : Prop :=
  forall c name, a_resolve (view v V) (root_cluster v) (path_components path) = inr (c, name) ->
    storable (short_name_83 name) /\ forall id, view v V c (short_name_83 name) <> Some (ADir id).

(** The errors of a write that are not the device's. *)
Definition write_error V (path : list byte) (e : FatError) : Prop :=
  match a_resolve (view v V) (root_cluster v) (path_components path) with
  | inl e' => e = e'
  | inr (c, name) => e = NoSpace \/ (e = DirFull /\ view v V c (short_name_83 name) = None)
  end.

(** The slot [locate_or_free_slot] gives is the place for the name. *)
Lemma locate_place (d : D) O c l t sec off old :
  volume_ok v (disk d) O -> O !! c = Some (true, l) ->
  match find_slot (disk d) t (dir_locs v (disk d) c) with
  | Some p => inr (p.1, p.2, Some (e_first (slot (disk d) p)))
  | None => match free_slot (disk d) (dir_locs v (disk d) c) with
            | Some q => inr (q.1, q.2, None)
            | None => inl DirFull
            end
  end = inr (sec, off, old) ->
  place v (disk d) l t (sec, off) old.
Proof.
  intros Hok Hc. rewrite (dir_locs_owned v _ O c l) by done.
  pose proof (vol_dir _ _ _ Hok _ _ Hc) as Hd.
  destruct (find_slot (disk d) t (locs v l)) as [[s o]|] eqn:E.
  - intros [= <- <- <-]. by apply find_place.
  - destruct (free_slot (disk d) (locs v l)) as [[s o]|] eqn:Ef; [|done].
    intros [= <- <- <-]. by apply free_place.
Qed.

Lemma find_none_view V c t :
  is_dot t = false -> find_slot V t (dir_locs v V c) = None -> view v V c t = None.
Proof. intros Ht E. unfold view. by rewrite Ht, E. Qed.

Lemma write_file_spec (d : D) O path data :
  volume_ok v (disk d) O -> Z.of_nat (length data) < U32 -> writable (disk d) path ->
  wp (write_file v path data)
     (fun _ d' => exists c name,
        a_resolve (view v (disk d)) (root_cluster v) (path_components path) = inr (c, name) /\
        becomes O d d' (a_set (view v (disk d)) c (short_name_83 name) (Some (AFile data))))
     (fun e d' => unchanged O d d' /\ (fault v d e \/ write_error (disk d) path e)) d.
Proof.
  intros Hok Hlen Hw. pose proof (vol_geom _ _ _ Hok) as G. unfold write_file, writable, write_error in *.
  rewrite <- resolved_view in *.
  eapply wp_computes; [by apply resolve_parent_spec| |].
  2: { intros e d1 Hs [->|Hf]; (split; [by apply same_unchanged|]); [by right|by left]. }
  intros [c name] d1 E [E1 Hs1]. rewrite E in *. cbn beta match zeta.
  destruct (Hw c name eq_refl) as [Hst Hview].
  destruct (resolved_directory v _ O _ _ _ _ Hok (vol_root _ _ _ Hok) E) as [l Hc].
  eapply wp_computes; [by apply locate_or_free_slot_spec| |]; rewrite E1.
  2: { intros e d2 [E2 Hs2] He. split; [apply same_unchanged; [done|split; [by rewrite E2, E1|by eauto using stays_trans]]|].
       destruct He as [He|Hf]; [right|left; by eauto using fault_stays]. right.
       destruct (find_slot (disk d) _ _) eqn:Ef; [done|]. destruct (free_slot _ _); [done|].
       injection He as <-. split; [done|]. apply find_none_view; [apply short_name_not_dot|done]. }
  intros [[sec off] old] d2 Hloc [E2 Hs2]. cbn beta match.
  pose proof (locate_place d O c l _ _ _ _ Hok Hc Hloc) as Hplace.
  assert (disk d2 = disk d) as Ed2 by (by rewrite E2, E1).
  assert (stays_reliable d d2) as Hsd2 by (by eauto using stays_trans).
  apply wp_bind. eapply wp_mono; [apply (build_contents_spec v d2 O); [by rewrite Ed2|done]| |];
    cbn beta; rewrite Ed2.
  - intros new d3 (Hp & Hb & Hs3).
    eapply wp_mono; [eapply (write_commit_spec O d d3 c l name (sec, off) old new data);
      eauto using stays_trans| |]; cbn beta.
    + intros _ d4 Hbec. by exists c, name.
    + intros e d4 [? ?]. split; [done|by left].
  - intros e d3 (Hp & Hs3 & He).
    split; [apply preserved_unchanged; eauto using stays_trans|].
    destruct He as [?| ->]; [left; by eauto using fault_stays|right; by left].
Qed.
End WriteFile.

(** ** Deleting *)

Section Delete.
Context {D : Type} `{BL : BlockDevLaws D} (v : Fat32).
Implicit Types (V : gmap Z (list byte)) (O : gmap Z (bool * list Z)).

Lemma cleared_entry e :
  length e = DIR_ENTRY_SIZE -> e_mark (<[0%nat := xe5]> e) = 0xE5 /\ live (<[0%nat := xe5]> e) = false.
Proof.
  intros He. assert (e_mark (<[0%nat := xe5]> e) = 0xE5) as Hm.
  { unfold e_mark, u8_at. rewrite list_lookup_insert_eq; [done|]. rewrite He. unfold DIR_ENTRY_SIZE. lia. }
  split; [done|]. unfold live. by rewrite Hm.
Qed.

(** Marking an entry deleted removes the name, and the last reference to its chain. *)
Lemma remove_ok V V' O c l p :
  volume_ok v V O -> O !! c = Some (true, l) -> p ∈ locs v l -> counted (slot V p) = true ->
  slot_set V V' p (<[0%nat := xe5]> (slot V p)) ->
  volume_ok v V' O /\
  (forall c' t', is_directory O c' -> view v V' c' t' = a_set (view v V) c (e_name (slot V p)) None c' t') /\
  (forall q, refers v V' O q -> e_first (slot V p) <> 0 -> e_first (slot V' q) <> e_first (slot V p)).
Proof.
  intros Hok Hc Hp Hcnt Hset. pose proof (counted_live _ Hcnt) as Hl.
  destruct (cleared_entry (slot V p)) as [Hm Hdead]; [by eapply length_slot, locs_ok|].
  set (e := <[0%nat := xe5]> (slot V p)) in *.
  assert (e_mark e <> 0) as Hm0 by (by rewrite Hm).
  assert (counted e = false) as Hce by (unfold counted; by rewrite Hdead).
  assert (free_slot V (locs v l) = Some p \/ e_mark (slot V p) <> 0) as Hfree.
  { right. by apply live_mark in Hl as [? _]. }
  split_and!.
  - eapply (set_slot_ok v V V' O c l p e); try done; congruence.
  - intros c' t' Hdir. unfold a_set. case_decide as Hd.
    + destruct Hd as [-> ->]. eapply (set_view_gone v V V' O c l p e); try done; congruence.
    + eapply (set_view_ne v V V' O c l p e); try done; try congruence.
      intros ->. split; [congruence|]. intros _ E. apply Hd. by subst.
  - intros q [[-> ?]|[Hne Hr]]%(set_refers v V V' O p e Hset) Hz; [congruence|].
    rewrite (set_refers_slot v V V' O p e Hset q) by done. intros E. apply Hne.
    apply (vol_single _ _ _ Hok); [done| |done|congruence]. split; [by eauto|done].
Qed.

(** The start of [unlink] and [rmdir]: resolve the path, locate the entry. *)
Lemma locate_path_spec {A} (d : D) O path (k : Z -> nat -> DirEntry -> prog D FatError A)
  (Q : A -> D -> Prop) (X : FatError -> D -> Prop) :
  volume_ok v (disk d) O ->
  (forall e d', same_disk d d' -> a_find (view v (disk d)) (root_cluster v) path = inl e \/ fault v d e ->
     X e d') ->
  (forall c l name p d',
     a_resolve (view v (disk d)) (root_cluster v) (path_components path) = inr (c, name) ->
     O !! c = Some (true, l) -> p ∈ locs v l -> counted (slot (disk d) p) = true ->
     e_name (slot (disk d) p) = short_name_83 name ->
     view v (disk d) c (short_name_83 name) = Some (node_of v (disk d) (slot (disk d) p)) ->
     same_disk d d' -> wp (k p.1 p.2 (e_entry (slot (disk d) p))) Q X d') ->
  wp (let! '(dir_cluster, name) := resolve_parent v path in
      let! found := locate_entry v dir_cluster name in
      let! '(sec, offset, de) := pok_or found NotFound in k sec offset de) Q X d.
Proof.
  intros Hok Herr Hk. pose proof (vol_geom _ _ _ Hok) as G. unfold a_find in *. rewrite <- resolved_view in *.
  eapply wp_computes; [by apply resolve_parent_spec| |].
  2: { intros e d1 Hs [E|Hf]; apply Herr; [done|left; by rewrite E|done|by right]. }
  intros [c name] d1 E [E1 Hs1]. rewrite E in *. cbn beta match.
  destruct (resolved_directory v _ O _ _ _ _ Hok (vol_root _ _ _ Hok) E) as [l Hc].
  eapply wp_computes; [by apply locate_entry_spec| |]; rewrite E1.
  2: { intros e d2 [E2 Hs2] [?|Hf]; [done|]. apply Herr; [|right; by eauto using fault_stays].
       split; [by rewrite E2|by eauto using stays_trans]. }
  intros found d2 [= <-] [E2 Hs2]. rewrite view_dir_find in *. unfold dir_find in *.
  rewrite (dir_locs_owned v _ O c l) in * by done.
  assert (same_disk d d2) as Hsd by (split; [by rewrite E2, E1|by eauto using stays_trans]).
  destruct (find_slot (disk d) (short_name_83 name) (locs v l)) as [[s o]|] eqn:Ef;
    cbn [fmap option_fmap option_map pok_or] in *.
  - rewrite pbind_ret. cbn beta match. pose proof (find_slot_Some _ _ _ _ Ef) as (Hp & Hl & Hn).
    apply (Hk c l name (s, o)); try done.
    + unfold counted. by rewrite Hl, Hn, short_name_not_dot.
    + rewrite view_dir_find. unfold dir_find. by rewrite (dir_locs_owned v _ O c l), Ef by done.
  - apply wp_bind, wp_fail. apply Herr; [done|by left].
Qed.

(** The entry is gone and so is its chain. *)
Definition gone O (d d' : D) c t first : Prop :=
  volume_ok v (disk d') (delete first O) /\
  forall c' t', is_directory (delete first O) c' ->
    view v (disk d') c' t' = a_set (view v (disk d)) c t None c' t'.

Lemma delete_directory O id c : is_directory (delete id O) c <-> is_directory O c /\ c <> id.
Proof.
  unfold is_directory. split.
  - intros [l [Hne Hl]%lookup_delete_Some]. split; [by exists l|done].
  - intros [[l Hl] Hne]. exists l. by rewrite lookup_delete_ne.
Qed.

(** The end of [unlink] and [rmdir]: mark the entry deleted, release its chain. *)
Lemma remove_entry_spec (d d1 : D) O c l p b k :
  let e := slot (disk d) p in
  volume_ok v (disk d) O -> O !! c = Some (true, l) -> p ∈ locs v l -> counted e = true ->
  O !! e_first e = Some (b, k) -> same_disk d d1 ->
  wp (clear_dir_entry p.1 p.2 ;;! free_chain v (e_first e))
     (fun _ d' => gone O d d' c (e_name e) (e_first e) /\ stays_reliable d d')
     (fun er d' => fault v d er /\ stays_reliable d d' /\
                   (unchanged v O d d' \/ gone O d d' c (e_name e) (e_first e))) d1.
Proof.
  intros e Hok Hc Hp Hcnt Hk [E1 Hs1]. pose proof (vol_geom _ _ _ Hok) as G.
  assert (refers v (disk d) O p) as Hr by (split; [by eauto|done]).
  destruct (chain_loc v G (disk d) c l p (vol_chain _ _ _ Hok _ _ _ Hc) Hp) as [Hpr Hpl].
  apply wp_bind. eapply wp_mono; [by apply (clear_dir_entry_spec v d1 p)| |]; cbn beta; rewrite ?E1.
  2: { intros er d2 [[E2 Hs2] Hf]. split_and!; [by eauto using fault_stays|by eauto using stays_trans|left].
       apply same_unchanged; [done|]. split; [by rewrite E2|by eauto using stays_trans]. }
  intros _ d2 [Hset Hs2].
  destruct (remove_ok (disk d) (disk d2) O c l p Hok Hc Hp Hcnt Hset) as (Hok2 & Hview2 & Hun).
  fold e in Hview2, Hun. assert (stays_reliable d d2) as Hsd by eauto using stays_trans.
  assert (forall d3, volume_ok v (disk d3) (delete (e_first e) O) ->
    same_view v (delete (e_first e) O) (disk d2) (disk d3) -> gone O d d3 c (e_name e) (e_first e)) as Hdone.
  { intros d3 Hok3 Hsame3. split; [done|]. intros c' t' Hc'.
    rewrite <- Hview2 by (by apply delete_directory in Hc' as [? _]). by apply Hsame3. }
  eapply wp_mono; [eapply (drop_chain_spec v O d2 (e_first e)); [done|exact Hk| |]| |]; cbn beta.
  - by apply (vol_rootless _ _ _ Hok p Hr).
  - intros q Hq. apply Hun; [done|]. eapply chain_first_pos. by eapply (vol_chain _ _ _ Hok).
  - intros _ d3 (? & ? & ?). split; [by apply Hdone|by eauto using stays_trans].
  - intros er d3 (? & ? & ? & Hf). split_and!; [by eauto using fault_stays|by eauto using stays_trans|].
    right. by apply Hdone.
Qed.

(** For a file, the directories are the same as before. *)
Lemma gone_file_becomes O (d d' : D) c t first k :
  O !! first = Some (false, k) -> gone O d d' c t first -> stays_reliable d d' ->
  becomes v O d d' (a_set (view v (disk d)) c t None).
Proof.
  intros Hk [Hok Hview] Hs. pose proof (delete_file_directories O _ _ Hk) as Hdel.
  exists (delete first O). split_and!; [done|done| |done]. intros c' t' Hc'. apply Hview. by apply Hdel.
Qed.

(** The file at [path] is gone. *)
Definition file_removed O (d : D) (path : list byte) (d' : D) : Prop :=
  exists c name data,
    a_resolve (view v (disk d)) (root_cluster v) (path_components path) = inr (c, name) /\
    view v (disk d) c (short_name_83 name) = Some (AFile data) /\
    becomes v O d d' (a_set (view v (disk d)) c (short_name_83 name) None).

Definition unlink_error V (path : list byte) (e : FatError) : Prop :=
  match a_find (view v V) (root_cluster v) path with
  | inl e' => e = e'
  | inr (AFile _) => False
  | inr (ADir _) => e = IsADirectory
  end.

Lemma unlink_spec (d : D) O path :
  volume_ok v (disk d) O ->
  wp (unlink v path)
     (fun _ d' => file_removed O d path d')
     (fun e d' => (unchanged v O d d' /\ (fault v d e \/ unlink_error (disk d) path e)) \/
                  (fault v d e /\ file_removed O d path d')) d.
Proof.
  intros Hok. pose proof (vol_geom _ _ _ Hok) as G. apply (locate_path_spec d O path); [done| |].
  { intros e d' Hs He. left. split; [by apply same_unchanged|]. unfold unlink_error.
    destruct He as [->|?]; auto. }
  intros c l name p d1 Hres Hc Hp Hcnt Hn Hview Hs1. cbn [is_dir first_cluster e_entry].
  set (e := slot (disk d) p) in *. unfold node_of in Hview.
  destruct (e_dir e) eqn:Hd.
  { apply wp_fail. left. split; [by apply same_unchanged|]. right. unfold unlink_error, a_find.
    by rewrite Hres, Hview. }
  destruct (Z.eqb_spec (e_first e) 0) as [Hz|Hz]; cbn [negb].
  - destruct Hs1 as [E1 Hs1].
    destruct (chain_loc v G (disk d) c l p (vol_chain _ _ _ Hok _ _ _ Hc) Hp) as [Hpr Hpl].
    apply wp_bind. eapply wp_mono; [by apply (clear_dir_entry_spec v d1 p)| |]; cbn beta; rewrite ?E1.
    + intros _ d2 [Hset Hs2]. apply wp_ret. exists c, name. eexists. split_and!; [done..|].
      destruct (remove_ok (disk d) (disk d2) O c l p Hok Hc Hp Hcnt Hset) as (Hok2 & Hview2 & _).
      fold e in Hview2. rewrite Hn in Hview2. exists O. split_and!; eauto using stays_trans. done.
    + intros er d2 [[E2 Hs2] Hf]. left. split; [|left; by eauto using fault_stays].
      apply same_unchanged; [done|]. split; [by rewrite E2|by eauto using stays_trans].
  - assert (refers v (disk d) O p) as Hr by (split; [by eauto|done]).
    destruct (vol_entry _ _ _ Hok p Hr) as [(? & _)|(k & Hk & _)]; [done|].
    fold e in Hk. rewrite Hd in Hk.
    eapply wp_mono; [by eapply (remove_entry_spec d d1 O c l p)| |]; cbn beta; fold e; rewrite Hn.
    + intros _ d3 [Hg Hs3]. exists c, name. eexists. split_and!; [done..|by eapply gone_file_becomes].
    + intros er d3 (Hf & Hs3 & [Hu|Hg]); [left; by split; [|left]|right].
      split; [done|]. exists c, name. eexists. split_and!; [done..|by eapply gone_file_becomes].
Qed.

(** *** Empty directories *)

Lemma elem_of_live_slots V ls q :
  zero_tail V ls -> q ∈ live_slots V ls <-> q ∈ ls /\ live (slot V q) = true.
Proof.
  induction ls as [|p ls IH]; [intros _; cbn; set_solver|]. intros [H0 Ht]. cbn [live_slots].
  destruct (e_mark (slot V p) =? 0) eqn:E0; zbool.
  - split; [by intros ?%elem_of_nil|]. intros [Hq Hl]. apply live_mark in Hl as [Hl _].
    apply elem_of_cons in Hq as [->|Hq]; [done|]. by destruct (Hl (H0 E0 q Hq)).
  - specialize (IH Ht). destruct (live (slot V p)) eqn:El; rewrite ?elem_of_cons, IH.
    + split; [intros [->|[? ?]]; auto|]. intros [[->|?] ?]; auto.
    + split; [intros [? ?]; auto|]. intros [[->|?] ?]; [congruence|auto].
Qed.

Definition empty_listing (items : list DirItem) : bool :=
  forallb (fun it => bytes_eqb (item_name it) (bs ".") || bytes_eqb (item_name it) (bs "..")) items.

(** A directory is reported empty exactly if it has no entries. *)
Lemma empty_listing_spec V O c l :
  volume_ok v V O -> O !! c = Some (true, l) ->
  empty_listing (dir_items v V c) = true <-> forall p, p ∈ locs v l -> counted (slot V p) = false.
Proof.
  intros Hok Hc. pose proof (vol_dir _ _ _ Hok _ _ Hc) as [Ht _ Hd].
  unfold empty_listing, dir_items. rewrite (dir_locs_owned v V O c l), forallb_forall by done. split.
  - intros Hall p Hp. destruct (live (slot V p)) eqn:Hl; [|unfold counted; by rewrite Hl].
    unfold counted. rewrite Hl, (Hd p Hp Hl); [done|]. apply (Hall (e_item (slot V p))).
    apply list_elem_of_In, list_elem_of_fmap. exists p. split; [done|]. by apply elem_of_live_slots.
  - intros Hall it (p & -> & [Hp Hl]%elem_of_live_slots)%list_elem_of_In%list_elem_of_fmap; [|done].
    specialize (Hall p Hp). unfold counted in Hall. rewrite Hl, andb_true_l in Hall. zbool.
    unfold is_dot in Hall. apply orb_true_iff in Hall as [E%bytes_eqb_eq|E%bytes_eqb_eq];
      cbn [item_name e_item]; by rewrite E.
Qed.

Lemma empty_view V O c l :
  volume_ok v V O -> O !! c = Some (true, l) ->
  (forall p, p ∈ locs v l -> counted (slot V p) = false) <-> forall t, view v V c t = None.
Proof.
  intros Hok Hc. unfold view. rewrite (dir_locs_owned v V O c l) by done. split.
  - intros Hall t. destruct (is_dot t) eqn:Ht; [done|].
    destruct (find_slot V t (locs v l)) as [p|] eqn:E; [|done].
    apply find_slot_Some in E as (Hp & Hl & Hn). specialize (Hall p Hp).
    unfold counted in Hall. by rewrite Hl, Hn, Ht in Hall.
  - intros Hall p Hp. destruct (counted (slot V p)) eqn:E; [|done].
    unfold counted in E. apply andb_true_iff in E as [Hl Hd]. apply negb_true_iff in Hd.
    specialize (Hall (e_name (slot V p))). rewrite Hd in Hall.
    by rewrite (find_slot_unique V _ _ p (vol_dir _ _ _ Hok _ _ Hc)) in Hall.
Qed.

Lemma nonempty_view V O c l :
  volume_ok v V O -> O !! c = Some (true, l) ->
  ~ (forall p, p ∈ locs v l -> counted (slot V p) = false) -> exists t, view v V c t <> None.
Proof.
  intros Hok Hc Hn. destruct (decide (Exists (fun p => counted (slot V p) = true) (locs v l))) as [He|He].
  - apply Exists_exists in He as (p & Hp & Hcnt). exists (e_name (slot V p)).
    pose proof Hcnt as [Hl Hd]%andb_true_iff. apply negb_true_iff in Hd.
    unfold view. rewrite Hd, (dir_locs_owned v V O c l) by done.
    by rewrite (find_slot_unique V _ _ p (vol_dir _ _ _ Hok _ _ Hc)).
  - destruct Hn. intros p Hp. apply not_true_iff_false. intros Hcnt. apply He, Exists_exists. eauto.
Qed.

Lemma dir_is_empty_spec (d : D) c :
  geom_ok v -> computes v d (dir_is_empty v c) (inr (empty_listing (dir_items v (disk d) c))).
Proof.
  intros G. eapply computes_seq; [by apply list_dir_spec|]. intros d1 _. apply computes_ret.
Qed.

(** The volume is well formed, its directories are [dirs] and it represents [F]. *)
Definition represents (d' : D) (dirs : Z -> Prop) (F : Z -> list byte -> option anode) : Prop :=
  exists O', volume_ok v (disk d') O' /\ (forall c, is_directory O' c <-> dirs c) /\
    forall c t, dirs c -> view v (disk d') c t = F c t.

Definition rmdir_error V (path : list byte) (e : FatError) : Prop :=
  match a_find (view v V) (root_cluster v) path with
  | inl e' => e = e'
  | inr (AFile _) => e = NotADirectory
  | inr (ADir id) => e = NotEmpty /\ exists t, view v V id t <> None
  end.

(** The empty directory at [path] is gone. *)
Definition dir_removed O V (path : list byte) (d' : D) : Prop :=
  exists c name id,
    a_resolve (view v V) (root_cluster v) (path_components path) = inr (c, name) /\
    view v V c (short_name_83 name) = Some (ADir id) /\ (forall t, view v V id t = None) /\
    represents d' (fun c' => is_directory O c' /\ c' <> id) (a_set (view v V) c (short_name_83 name) None).

Lemma rmdir_spec (d : D) O path :
  volume_ok v (disk d) O ->
  wp (rmdir v path)
     (fun _ d' => dir_removed O (disk d) path d' /\ stays_reliable d d')
     (fun e d' => (unchanged v O d d' /\ (fault v d e \/ rmdir_error (disk d) path e)) \/
                  (fault v d e /\ dir_removed O (disk d) path d' /\ stays_reliable d d')) d.
Proof.
  intros Hok. set (F := view v (disk d)). pose proof (vol_geom _ _ _ Hok) as G. apply (locate_path_spec d O path); [done| |].
  { intros e d' Hs He. left. split; [by apply same_unchanged|]. unfold rmdir_error, F in *.
    destruct He as [->|?]; auto. }
  intros c l name p d1 Hres Hc Hp Hcnt Hn Hview Hs1. cbn [is_dir first_cluster e_entry].
  set (e := slot (disk d) p) in *. unfold node_of in Hview.
  assert (refers v (disk d) O p) as Hr by (split; [by eauto|done]).
  assert (forall r, F c (short_name_83 name) = Some r -> a_find F (root_cluster v) path = inr r) as Hfind.
  { intros r Er. unfold a_find. fold F in Hres. by rewrite Hres, Er. }
  destruct (e_dir e) eqn:Hd; cbn [negb].
  2: { apply wp_fail. left. split; [by apply same_unchanged|]. right. unfold rmdir_error.
       fold F. by rewrite (Hfind _ Hview). }
  destruct (vol_entry _ _ _ Hok p Hr) as [(_ & ? & _)|(k & Hk & _)]; [fold e in H0; congruence|].
  fold e in Hk. rewrite Hd in Hk. destruct Hs1 as [E1 Hs1].
  eapply wp_computes; [by apply dir_is_empty_spec| |]; rewrite E1.
  2: { intros er d2 [E2 Hs2] [?|Hf]; [done|]. left. split; [|left; by eauto using fault_stays].
       apply same_unchanged; [done|]. split; [by rewrite E2, E1|by eauto using stays_trans]. }
  intros empty d2 [= <-] [E2 Hs2]. assert (stays_reliable d d2) as Hsd2 by eauto using stays_trans.
  assert (disk d2 = disk d) as Ed2 by (by rewrite E2).
  destruct (empty_listing (dir_items v (disk d) (e_first e))) eqn:Eempty; cbn [negb].
  2: { apply wp_fail. left. split; [by apply same_unchanged|]. right. unfold rmdir_error.
       fold F. rewrite (Hfind _ Hview). split; [done|]. apply not_true_iff_false in Eempty.
       rewrite (empty_listing_spec _ _ _ _ Hok Hk) in Eempty. by apply (nonempty_view _ O _ k). }
  pose proof (proj1 (empty_listing_spec _ _ _ _ Hok Hk) Eempty) as Hcount.
  pose proof (proj1 (empty_view _ _ _ _ Hok Hk) Hcount) as Hnone.
  assert (c <> e_first e) as Hce.
  { intros Ec. rewrite <- Ec, Hc in Hk. injection Hk as <-. specialize (Hcount p Hp). congruence. }
  assert (forall d4, gone O d d4 c (e_name e) (e_first e) -> dir_removed O (disk d) path d4) as Hdone.
  { intros d4 [Hok4 Hview4]. rewrite Hn in Hview4. exists c, name, (e_first e). split_and!; [done..|].
    exists (delete (e_first e) O). split_and!; [done|apply delete_directory|].
    intros c' t' Hc'. apply Hview4. by apply delete_directory. }
  eapply wp_mono; [eapply (remove_entry_spec d d2 O c l p); [done..|exact Hk|by split]| |]; cbn beta; fold e.
  - intros _ d4 [? ?]. split; [by apply Hdone|done].
  - intros er d4 (? & ? & [?|?]); [left; by split; [|left]|right]. split_and!; [done|by apply Hdone|done].
Qed.
End Delete.

(** ** New directories *)

Definition dot_sector (v : Fat32) (c parent : Z) : list byte :=
  splice (splice zero_sector 0 (fill_dir_entry (bs ".          ") ATTR_DIRECTORY c 0))
         DIR_ENTRY_SIZE
         (fill_dir_entry (bs "..         ") ATTR_DIRECTORY (if parent =? root_cluster v then 0 else parent) 0).

Section MakeDir.
Context {D : Type} `{BL : BlockDevLaws D} (v : Fat32).
Implicit Types (V : gmap Z (list byte)) (O : gmap Z (bool * list Z)).

Lemma length_dot_sector c parent : length (dot_sector v c parent) = SECTOR_SIZE.
Proof.
  pose proof (length_fill (bs ".          ") ATTR_DIRECTORY c 0 eq_refl) as H1.
  pose proof (length_fill (bs "..         ") ATTR_DIRECTORY (if parent =? root_cluster v then 0 else parent) 0 eq_refl) as H2.
  unfold dot_sector. unfold DIR_ENTRY_SIZE, SECTOR_SIZE in *.
  rewrite length_splice; rewrite length_splice; rewrite ?length_zero_sector, ?H1, ?H2;
    unfold SECTOR_SIZE; lia.
Qed.

(** The sectors of the cluster after [init_dir_cluster]. *)
Definition dir_initialised V c parent : Prop :=
  sector V (first_sector v c) = dot_sector v c parent /\
  forall s, first_sector v c < s < first_sector v c + sectors_per_cluster v -> sector V s = zero_sector.

Lemma init_dir_cluster_spec (d : D) c parent :
  geom_ok v -> cvalid v c = true ->
  wp (init_dir_cluster v c parent)
     (fun _ d' => dir_initialised (disk d') c parent /\
        outside_same (disk d) (disk d') (cluster_sectors v c) /\ stays_reliable d d')
     (fun e d' => outside_same (disk d) (disk d') (cluster_sectors v c) /\ stays_reliable d d' /\
        fault v d e) d.
Proof.
  intros G Hv. unfold init_dir_cluster.
  rewrite (first_sector_of_cluster_eq v G), pbind_ret by done.
  pose proof (first_sector_range v G c Hv) as Hr. pose proof (data_start_pos v G).
  pose proof (geom_spc v G). pose proof (geom_end v G).
  fold (dot_sector v c parent). set (f := first_sector v c) in *.
  apply wp_bind. eapply wp_mono; [apply (wp_write v d); [lia|apply length_dot_sector]| |]; cbn beta.
  2: { intros e d1 [[E Hs] Hf]. rewrite E. by split_and!. }
  intros _ d1 [E1 Hs1].
  assert (outside_same (disk d) (disk d1) [f]) as Ho1.
  { intros s Hs%not_elem_of_cons. rewrite E1. apply sector_insert_ne. naive_solver. }
  eapply wp_mono;
    [apply (wp_pfold_range _ (fun k (_ : unit) d' =>
       sector (disk d') f = dot_sector v c parent /\
       (forall s, f < s < f + k -> sector (disk d') s = zero_sector) /\
       outside_same (disk d) (disk d') (cluster_sectors v c) /\ stays_reliable d d')
       (fun e d' => outside_same (disk d) (disk d') (cluster_sectors v c) /\ stays_reliable d d' /\
                    fault v d e))| |done].
  - lia.
  - split_and!.
    + rewrite E1. apply sector_insert_eq, length_dot_sector.
    + intros s ?. lia.
    + eapply outside_same_mono; [|exact Ho1]. intros s ->%list_elem_of_singleton.
      apply cluster_sectors_elem. fold f. lia.
    + done.
  - intros k [] d2 Hk (Hf2 & Hz2 & Ho2 & Hs2). rewrite u32_add_ok, pbind_ret by (unfold in_width; lia).
    assert (f + k ∈ cluster_sectors v c) as Hin by (apply cluster_sectors_elem; fold f; lia).
    eapply wp_mono; [apply (wp_write v d2); [lia|apply length_zero_sector]| |]; cbn beta.
    + intros _ d3 [E3 Hs3]. rewrite E3. split_and!.
      * rewrite sector_insert_ne by lia. done.
      * intros s Hs. destruct (Z.eq_dec s (f + k)) as [->|].
        -- apply sector_insert_eq, length_zero_sector.
        -- rewrite sector_insert_ne by lia. apply Hz2. lia.
      * intros s Hs. rewrite sector_insert_ne by (by intros <-). by apply Ho2.
      * eauto using stays_trans.
    + intros e d3 [[E3 Hs3] Hf]. rewrite E3. split_and!; eauto using stays_trans, fault_stays.
  - cbn beta. intros _ d2 (Hf2 & Hz2 & Ho2 & Hs2). split_and!; try done. split; [done|].
    intros s Hs. apply Hz2. fold f in Hs. lia.
Qed.

Lemma zero_slice_mark o : e_mark (slice zero_sector o DIR_ENTRY_SIZE) = 0.
Proof.
  unfold e_mark, u8_at, slice. rewrite lookup_take_lt, lookup_drop by (unfold DIR_ENTRY_SIZE; lia).
  unfold zero_sector, zeros. destruct (replicate SECTOR_SIZE x00 !! _) as [b|] eqn:Eb; [|done].
  by apply lookup_replicate in Eb as [-> _].
Qed.

(** The slots of [dot_sector]. *)
Lemma dot_sector_slots c parent :
  slice (dot_sector v c parent) 0 DIR_ENTRY_SIZE = fill_dir_entry DOT ATTR_DIRECTORY c 0 /\
  slice (dot_sector v c parent) DIR_ENTRY_SIZE DIR_ENTRY_SIZE =
    fill_dir_entry DOTDOT ATTR_DIRECTORY (if parent =? root_cluster v then 0 else parent) 0 /\
  forall o, (2 * DIR_ENTRY_SIZE <= o)%nat ->
    slice (dot_sector v c parent) o DIR_ENTRY_SIZE = slice zero_sector o DIR_ENTRY_SIZE.
Proof.
  pose proof (length_fill (bs ".          ") ATTR_DIRECTORY c 0 eq_refl) as H1.
  pose proof (length_fill (bs "..         ") ATTR_DIRECTORY (if parent =? root_cluster v then 0 else parent) 0 eq_refl) as H2.
  assert (length (splice zero_sector 0 (fill_dir_entry (bs ".          ") ATTR_DIRECTORY c 0)) = SECTOR_SIZE) as H3.
  { rewrite length_splice; rewrite length_zero_sector; [done|]. rewrite H1. unfold SECTOR_SIZE, DIR_ENTRY_SIZE. lia. }
  unfold dot_sector. split_and!.
  - rewrite slice_splice_before by (rewrite ?H3; unfold SECTOR_SIZE, DIR_ENTRY_SIZE; lia).
    apply slice_splice_eq; [done|lia].
  - apply slice_splice_eq; [done|]. rewrite H3. unfold SECTOR_SIZE, DIR_ENTRY_SIZE. lia.
  - intros o Ho. unfold DIR_ENTRY_SIZE in *.
    rewrite slice_splice_after by (rewrite ?H2, ?H3; unfold SECTOR_SIZE; lia).
    apply slice_splice_after; [rewrite H1|]; lia.
Qed.

(** The slots of the new directory: its own two entries, then end marks. *)
Lemma new_dir_slots V c parent :
  geom_ok v -> dir_initialised V c parent ->
  exists rest, locs v [c] = (first_sector v c, 0%nat) :: (first_sector v c, DIR_ENTRY_SIZE) :: rest /\
    (exists x, slot V (first_sector v c, 0%nat) = fill_dir_entry DOT ATTR_DIRECTORY x 0) /\
    (exists x, slot V (first_sector v c, DIR_ENTRY_SIZE) = fill_dir_entry DOTDOT ATTR_DIRECTORY x 0) /\
    forall p, p ∈ rest -> e_mark (slot V p) = 0.
Proof.
  intros G [Hf Hz]. pose proof (geom_spc v G). destruct (dot_sector_slots c parent) as (E0 & E1 & E2).
  set (f := first_sector v c) in *.
  exists (((fun i => (f, i * DIR_ENTRY_SIZE)%nat) <$> seq 2 14) ++
          (seqZ (f + 1) (sectors_per_cluster v - 1) ≫= sector_locs)). split_and!.
  - unfold locs, chain_sectors. cbn [mbind list_bind]. rewrite app_nil_r. unfold cluster_sectors. fold f.
    rewrite seqZ_cons by lia. done.
  - exists c. unfold slot. cbn [fst snd]. by rewrite Hf.
  - exists (if parent =? root_cluster v then 0 else parent). unfold slot. cbn [fst snd]. by rewrite Hf.
  - intros p [Hp|Hp]%elem_of_app.
    + apply list_elem_of_fmap in Hp as (i & -> & Hi%elem_of_seq). unfold slot. cbn [fst snd].
      rewrite Hf, E2 by (unfold DIR_ENTRY_SIZE; lia). apply zero_slice_mark.
    + apply list_elem_of_bind in Hp as (s & Hp%sector_locs_fst & Hs%elem_of_seqZ).
      unfold slot. rewrite Hp, Hz by lia. apply zero_slice_mark.
Qed.

Lemma dead_mark e : e_mark e = 0 -> live e = false.
Proof. intros E. unfold live. by rewrite E. Qed.

(** A new directory is well formed and has no entries. *)
Lemma new_dir_ok V c parent :
  geom_ok v -> dir_initialised V c parent ->
  dir_ok V (locs v [c]) /\ forall p, p ∈ locs v [c] -> counted (slot V p) = false.
Proof.
  intros G Hi. destruct (new_dir_slots V c parent G Hi) as (rest & -> & [x0 E0] & [x1 E1] & Hz).
  set (p0 := (first_sector v c, 0%nat)) in *. set (p1 := (first_sector v c, DIR_ENTRY_SIZE)) in *.
  assert (forall x, e_name (fill_dir_entry DOT ATTR_DIRECTORY x 0) = DOT) as N0 by (intros; by apply fill_name).
  assert (forall x, e_name (fill_dir_entry DOTDOT ATTR_DIRECTORY x 0) = DOTDOT) as N1 by (intros; by apply fill_name).
  assert (forall q, q ∈ rest -> live (slot V q) = false) as Hdead by (intros q Hq; by apply dead_mark, Hz).
  assert (forall q, q ∈ p0 :: p1 :: rest -> live (slot V q) = true -> q = p0 \/ q = p1) as Hlive.
  { intros q [->|[->|Hq]%elem_of_cons]%elem_of_cons Hl; [by left|by right|]. by rewrite Hdead in Hl. }
  split; [split|].
  - cbn [zero_tail]. rewrite E0, E1, !fill_mark by done. split_and!; [done|done|].
    clear - Hz. induction rest as [|q rest IH]; [done|]. split.
    + intros _ r Hr. apply Hz. by right.
    + apply IH. intros r Hr. apply Hz. by right.
  - intros p q Hp Hq Hlp Hlq.
    destruct (Hlive p Hp Hlp) as [->| ->], (Hlive q Hq Hlq) as [->| ->]; try done;
      rewrite E0, E1, N0, N1; done.
  - intros p Hp Hl _. destruct (Hlive p Hp Hl) as [->| ->]; rewrite ?E0, ?E1, ?N0, ?N1; done.
  - intros p Hp. destruct (live (slot V p)) eqn:Hl; unfold counted; rewrite Hl; [|done].
    destruct (Hlive p Hp Hl) as [->| ->]; rewrite ?E0, ?E1, ?N0, ?N1; done.
Qed.

Definition mkdir_error V (path : list byte) (e : FatError) : Prop :=
  match a_resolve (view v V) (root_cluster v) (path_components path) with
  | inl e' => e = e'
  | inr (c, name) => match view v V c (short_name_83 name) with
                     | Some _ => e = AlreadyExists
                     | None => e = NoSpace \/ e = DirFull
                     end
  end.

(** The directory [new] is in the volume, empty, and [t] in [c] refers to it. *)
Definition made O (d d' : D) c t new : Prop :=
  ~ is_directory O new /\ stays_reliable d d' /\
  represents v d' (fun c' => is_directory O c' \/ c' = new)
    (fun c' t' => if decide (c' = new) then None
                  else a_set (view v (disk d)) c t (Some (ADir new)) c' t').

Lemma took_unharmed V V' c : took v V V' c -> unharmed v V V'.
Proof.
  intros (Hv & H0 & [Hf Hr]). split; [done|]. intros x Hx Hn. rewrite Hf by done.
  apply fset_ne. by intros ->.
Qed.

Lemma same_unharmed V V' : fat_becomes v V V' (fat_of v V) -> unharmed v V V'.
Proof. intros [Hf Hr]. split; [done|]. intros. by apply Hf. Qed.

Lemma insert_directory O c k : O !! c = None ->
  forall x, is_directory (<[c := (true, k)]> O) x <-> is_directory O x \/ x = c.
Proof.
  intros Hn x. unfold is_directory. split.
  - intros [l [[<- _]|[_ Hl]]%lookup_insert_Some]; [by right|left; by exists l].
  - destruct (decide (x = c)) as [->|Hne]; [intros _; exists k; by rewrite lookup_insert_eq|].
    intros [[l Hl]|?]; [|done]. exists l. by rewrite lookup_insert_ne.
Qed.

(** The entry that makes the new directory visible. *)
Lemma mkdir_commit_spec O (d0 d : D) c l name p new parent :
  let t := short_name_83 name in
  volume_ok v (disk d0) O -> preserved v O (disk d0) (disk d) -> stays_reliable d0 d ->
  O !! c = Some (true, l) -> place v (disk d0) l t p None -> storable t ->
  chain v (disk d) new [new] -> apart O [new] -> dir_initialised (disk d) new parent ->
  wp (pcatch (write_dir_entry p.1 p.2 t ATTR_DIRECTORY new 0)
        (fun e => pignore (free_chain v new) ;;! pfail e))
     (fun _ d' => made O d0 d' c t new)
     (fun e d' => unchanged v O d0 d' /\ fault v d0 e) d.
Proof.
  intros t Hok0 Hp Hs Hc Hplace0 Hst Hch Ha Hinit.
  pose proof (length_short_name name) as Ht. fold t in Ht. pose proof (short_name_not_dot name) as Hnd. fold t in Hnd.
  pose proof (preserved_ok v _ _ _ Hok0 Hp) as Hok. pose proof (preserved_view v _ _ _ Hok0 Hp) as Hsame.
  pose proof (place_preserved v _ _ _ _ _ _ _ _ Hp Hc Hplace0) as Hplace.
  pose proof (vol_geom _ _ _ Hok) as G. pose proof (new_dir_ok _ _ _ G Hinit) as [Hdok Hdcount].
  pose proof (adopt_ok v _ _ _ true _ Hok Hch Ha (fun _ => conj Hdok Hdcount)) as Hok1.
  assert (O !! new = None) as Hnone.
  { destruct (O !! new) as [[b k]|] eqn:E; [|done].
    destruct (Ha new b k new E); [eapply chain_nonempty; by eapply (vol_chain _ _ _ Hok)|left]. }
  set (O1 := <[new := (true, [new])]> O) in *.
  assert (O1 !! new = Some (true, [new])) as Hn1 by apply lookup_insert_eq.
  assert (O1 !! c = Some (true, l)) as Hc1 by (unfold O1; rewrite lookup_insert_ne; congruence).
  assert (forall r, refers v (disk d) O1 r -> refers v (disk d) O r) as Href.
  { intros r [(x & k & Hx & Hk) Hcnt]. split; [|done].
    apply lookup_insert_Some in Hx as [[_ [= <-]]|[_ ?]]; [by rewrite Hdcount in Hcnt|by eauto]. }
  pose proof (chain_valid _ _ _ _ Hch new ltac:(left)) as Hv.
  assert (e_first (fill_dir_entry t ATTR_DIRECTORY new 0) = new) as Hfirst.
  { apply fill_first; [done|]. clear - G Hv. geom. lia. }
  destruct (chain_loc v G (disk d) c l p (vol_chain _ _ _ Hok _ _ _ Hc) (place_in _ _ _ _ _ _ Hplace)) as [Hpr Hpl].
  apply wp_catch. eapply wp_mono; [by apply (write_dir_entry_spec v d p)| |]; cbn beta.
  2: { intros er d2 [[E2 Hs2] Hft].
       eapply wp_mono; [eapply (undo_spec v d2 d0 O new [new] er (fun _ d' => made O d0 d' c t new) (fault v d0));
         rewrite ?E2; eauto using stays_trans, fault_stays|done|]; cbn beta.
       intros e' d' (? & ? & ?). split; [by apply preserved_unchanged|done]. }
  intros _ d2 [Hset Hs2].
  set (e := fill_dir_entry t ATTR_DIRECTORY new 0) in *.
  assert (e_dir e = true) as Hed by (unfold e; by rewrite fill_dir).
  destruct (commit_ok v _ _ O1 c l t p None e Hok1 Hc1 Hplace Hset) as [Hok2 Hview2].
  - unfold e. destruct Hst as (? & ? & _). by apply fill_live.
  - unfold e. by apply fill_name.
  - done.
  - apply Hst.
  - right. exists [new]. split; [by rewrite Hfirst, Hed|congruence].
  - rewrite Hfirst. intros ->. destruct (vol_root _ _ _ Hok) as [k Hk]. congruence.
  - rewrite Hfirst. intros _ q Hq%Href E.
    destruct (vol_entry _ _ _ Hok q Hq) as [(Hz & _)|(k & Hk & _)]; [|congruence].
    apply (chain_first_pos v _ _ _ Hch). congruence.
  - split_and!; [intros [k Hk]; congruence|by eauto using stays_trans|].
    exists O1. split_and!; [done|by apply insert_directory|]. intros c' t' Hc'.
    rewrite Hview2 by (by apply insert_directory). unfold node_of. rewrite Hed, Hfirst.
    case_decide as Hcn.
    + subst c'. unfold a_set. rewrite decide_False by (intros [? _]; congruence).
      by apply (empty_view v (disk d) O1 new [new] Hok1 Hn1).
    + unfold a_set. case_decide; [done|]. destruct Hc' as [Hc'|?]; [|done]. by apply Hsame.
Qed.

Lemma chain_sectors_single c : chain_sectors v [c] = cluster_sectors v c.
Proof. unfold chain_sectors. cbn [mbind list_bind]. apply app_nil_r. Qed.

(** The end of [mkdir]: a cluster for the directory, its first entries, the entry. *)
Lemma mkdir_create_spec O (d0 d : D) c l name p :
  let t := short_name_83 name in
  volume_ok v (disk d0) O -> same_disk d0 d -> O !! c = Some (true, l) ->
  place v (disk d0) l t p None -> storable t ->
  wp (let! new_cluster := alloc_cluster v in
      pcatch (init_dir_cluster v new_cluster c)
             (fun e => pignore (free_chain v new_cluster) ;;! pfail e) ;;!
      pcatch (write_dir_entry p.1 p.2 t ATTR_DIRECTORY new_cluster 0)
             (fun e => pignore (free_chain v new_cluster) ;;! pfail e))
     (fun _ d' => exists new, made O d0 d' c t new)
     (fun e d' => unchanged v O d0 d' /\ (fault v d0 e \/ e = NoSpace)) d.
Proof.
  intros t Hok [E0 Hs0] Hc Hplace Hst. pose proof (vol_geom _ _ _ Hok) as G.
  apply wp_bind. eapply wp_mono; [by apply alloc_cluster_spec| |]; cbn beta; rewrite ?E0.
  2: { intros e d1 [(-> & [E1 Hs1] & _)|(Hs1 & Hf & Ht)].
       - split; [|by right]. apply same_unchanged; [done|].
         split; [by rewrite E1|by eauto using stays_trans].
       - split; [|left; by eauto using fault_stays]. rewrite E0 in Ht.
         apply preserved_unchanged; [done| |by eauto using stays_trans].
         apply unharmed_preserved; [done|].
         destruct Ht as [?|[x ?]]; [by apply same_unharmed|by eapply took_unharmed]. }
  intros new d1 (Ht & _ & Hs1).
  pose proof (unharmed_preserved v _ _ O Hok (took_unharmed _ _ _ Ht)) as Hp1.
  pose proof (preserved_ok v _ _ _ Hok Hp1) as Hok1. pose proof (took_singleton v G _ _ _ Ht) as Hch.
  assert (apart O [new]) as Ha.
  { apply (free_apart v (disk d0)); [done|]. intros x ->%list_elem_of_singleton. by destruct Ht as (_ & ? & _). }
  pose proof (chain_valid _ _ _ _ Hch) as Hv.
  assert (forall s, s ∈ cluster_sectors v new -> data_start_sector v <= s) as Hds.
  { intros s Hs. eapply cluster_sectors_data; [done| |done]. apply Hv. left. }
  assert (forall d2, outside_same (disk d1) (disk d2) (cluster_sectors v new) ->
    preserved v O (disk d0) (disk d2) /\ chain v (disk d2) new [new]) as Hstep.
  { intros d2 Ho. split.
    - eapply preserved_trans; [exact Hp1|]. eapply outside_preserved; [done|exact Ha|done|].
      by rewrite chain_sectors_single.
    - eapply chain_ext; [|exact Hch]. intros x Hx. eapply outside_same_fat; [done..|]. by apply Hv. }
  apply wp_bind, wp_catch.
  eapply wp_mono; [apply (init_dir_cluster_spec d1 new c G); apply Hv; left| |]; cbn beta.
  - intros _ d2 (Hi & Ho & Hs2). destruct (Hstep d2 Ho) as [Hp2 Hch2].
    eapply wp_mono; [by eapply (mkdir_commit_spec O d0 d2 c l name p new c); eauto using stays_trans| |]; cbn beta.
    + intros _ d3 ?. by exists new.
    + intros e d3 [? ?]. split; [done|by left].
  - intros e d2 (Ho & Hs2 & Hf). destruct (Hstep d2 Ho) as [Hp2 Hch2].
    eapply wp_mono; [eapply (undo_spec v d2 d0 O new [new] e (fun _ _ => False) (fault v d0));
      eauto using preserved_ok, stays_trans, fault_stays|done|]; cbn beta.
    intros e' d3 (? & ? & ?). split; [by apply preserved_unchanged|by left].
Qed.

Lemma mkdir_spec (d : D) O path :
  volume_ok v (disk d) O ->
  (forall c name, a_resolve (view v (disk d)) (root_cluster v) (path_components path) = inr (c, name) ->
     storable (short_name_83 name)) ->
  wp (mkdir v path)
     (fun _ d' => exists c name new,
        a_resolve (view v (disk d)) (root_cluster v) (path_components path) = inr (c, name) /\
        view v (disk d) c (short_name_83 name) = None /\ made O d d' c (short_name_83 name) new)
     (fun e d' => unchanged v O d d' /\ (fault v d e \/ mkdir_error (disk d) path e)) d.
Proof.
  intros Hok Hst. pose proof (vol_geom _ _ _ Hok) as G. unfold mkdir, mkdir_error in *.
  rewrite <- resolved_view in *.
  eapply wp_computes; [by apply resolve_parent_spec| |].
  2: { intros e d1 Hs [->|Hf]; (split; [by apply same_unchanged|]); [by right|by left]. }
  intros [c name] d1 E [E1 Hs1]. rewrite E in *. cbn beta match zeta. specialize (Hst c name eq_refl).
  destruct (resolved_directory v _ O _ _ _ _ Hok (vol_root _ _ _ Hok) E) as [l Hc].
  assert (forall d2, same_disk d1 d2 -> same_disk d d2) as Hsame.
  { intros d2. apply same_trans. by split. }
  eapply wp_computes; [by apply locate_or_free_slot_spec| |]; rewrite E1.
  2: { intros e d2 Hs2 He. split; [apply same_unchanged; auto|].
       destruct He as [He|Hf]; [right|left; by eauto using fault_stays].
       rewrite view_dir_find. unfold dir_find.
       destruct (find_slot (disk d) _ _) eqn:Ef; [done|]. destruct (free_slot _ _); [done|].
       injection He as <-. by right. }
  intros [[sec off] old] d2 Hloc Hs2. cbn beta match.
  pose proof (locate_place v d O c l _ _ _ _ Hok Hc Hloc) as Hplace.
  assert (find_slot (disk d) (short_name_83 name) (dir_locs v (disk d) c) =
          match old with Some _ => Some (sec, off) | None => None end) as Hfs.
  { destruct (find_slot (disk d) _ _) as [[]|]; [by injection Hloc as <- <- <-|].
    destruct (free_slot _ _); [|done]. by injection Hloc as <- <- <-. }
  rewrite view_dir_find. unfold dir_find. rewrite Hfs. destruct old as [x|].
  - apply wp_fail. split; [apply same_unchanged; auto|by right].
  - eapply wp_mono; [eapply (mkdir_create_spec O d d2 c l name (sec, off)); auto| |]; cbn beta.
    + intros _ d3 [new Hm]. exists c, name, new. split_and!; [done| |done].
      rewrite view_dir_find. unfold dir_find. by rewrite Hfs.
    + intros e d3 [Hu [?| ->]]; (split; [done|]); [by left|right; by left].
Qed.
End MakeDir.
