(* ===== verification/Vfs.v ===== *)
(** * The file-system facade

    [src/fs/mod.rs]: every call mounts the volume and applies one operation of
    the FAT32 driver.  The theorems are those of the driver, through the
    facade: what the system calls rely on. *)

From stdpp Require Import base numbers list gmap.
From Stdlib Require Import ZArith Lia.
From S2P Require Import Prelude BlockDev Fat FatLayout FatAlloc FatData FatDir FatVolume FatOps.
#[local] Open Scope Z_scope.

Section Facade.
Context {D : Type} {BD : BlockDev D}.

Definition open (path : list byte) : prog D FatError (list byte) :=
  let! volume := mount in read_file volume path.

Definition lookup (path : list byte) : prog D FatError Node :=
  let! volume := mount in Fat.lookup volume path.

Definition write_file (path data : list byte) : prog D FatError unit :=
  let! volume := mount in Fat.write_file volume path data.

Definition mkdir (path : list byte) : prog D FatError unit :=
  let! volume := mount in Fat.mkdir volume path.

Definition unlink (path : list byte) : prog D FatError unit :=
  let! volume := mount in Fat.unlink volume path.

Definition rmdir (path : list byte) : prog D FatError unit :=
  let! volume := mount in Fat.rmdir volume path.

Definition stat (path : list byte) : prog D FatError Metadata :=
  let! volume := mount in Fat.stat volume path.
End Facade.

(** ** A formatted volume *)

(** The boot sector of a volume with one sector per cluster, one reserved
    sector, two FATs of one sector, [total] sectors and the root at cluster 2. *)
Definition format_boot (total : Z) : list byte :=
  as_sector (zeros 11 ++ to_le 2 512 ++ [x01] ++ to_le 2 1 ++ [x02] ++ to_le 2 0 ++ zeros 3 ++
             to_le 2 0 ++ zeros 8 ++ to_le 4 total ++ to_le 4 1 ++ zeros 4 ++ to_le 4 2).

Definition format_fat : list byte :=
  as_sector (to_le 4 0x0FFFFFF8 ++ to_le 4 0xFFFFFFFF ++ to_le 4 0x0FFFFFFF).

Definition formatted (total : Z) : gmap Z (list byte) :=
  {[ 0 := format_boot total; 1 := format_fat; 2 := format_fat ]}.

Definition small_volume : Fat32 := mkFat32 1 1 3 2 27 2 1.

Definition small_disk (fs : list Z) : RamDisk := mkRamDisk (formatted 30) 30 fs.

(** ** Lemmas *)

Section FacadeLemmas.
Context {D : Type} `{BL : BlockDevLaws D} (v : Fat32).
Implicit Types (V : gmap Z (list byte)) (O : gmap Z (bool * list Z)).

Lemma volume_sectors_pos : geom_ok v -> 0 < volume_sectors v.
Proof. intros G. pose proof (data_start_pos v G). unfold volume_sectors. pose proof (geom_spc v G). pose proof (geom_count v G). nia. Qed.

Lemma mount_volume (d : D) O : volume_ok v (disk d) O -> computes v d mount (inr v).
Proof.
  intros Hok. pose proof (mount_spec v d (volume_sectors_pos (vol_geom _ _ _ Hok))) as Hm.
  by rewrite (vol_boot _ _ _ Hok) in Hm.
Qed.

Lemma computes_mounted {A} (d : D) O (op : Fat32 -> prog D FatError A) r :
  volume_ok v (disk d) O -> (forall d', same_disk d d' -> computes v d' (op v) r) ->
  computes v d (let! volume := mount in op volume) r.
Proof. intros Hok Hop. eapply computes_seq; [by eapply mount_volume|done]. Qed.

Lemma wp_mounted {A} (d : D) O (op : Fat32 -> prog D FatError A) Q X :
  volume_ok v (disk d) O -> (forall d1, same_disk d d1 -> wp (op v) Q X d1) ->
  (forall e d1, same_disk d d1 -> fault v d e -> X e d1) ->
  wp (let! volume := mount in op volume) Q X d.
Proof.
  intros Hok Hop Hx. eapply wp_computes; [by eapply mount_volume| |].
  - intros w d1 [= <-]. apply Hop.
  - intros e d1 Hs [?|?]; [done|by apply Hx].
Qed.

Lemma becomes_from O (d d1 d' : D) F : same_disk d d1 -> becomes v O d1 d' F -> becomes v O d d' F.
Proof.
  intros [_ Hs] (O' & ? & ? & ? & ?). exists O'. split_and!; eauto using stays_trans.
Qed.

Lemma unchanged_from O (d d1 d' : D) : same_disk d d1 -> unchanged v O d1 d' -> unchanged v O d d'.
Proof. intros [E Hs] (? & Hv & ?). rewrite E in Hv. split_and!; eauto using stays_trans. Qed.

Lemma removed_from O (d d1 d' : D) path :
  same_disk d d1 -> file_removed v O d1 path d' -> file_removed v O d path d'.
Proof.
  intros Hs (c & name & data & Hr & Hn & Hb). rewrite (proj1 Hs) in *. exists c, name, data.
  split_and!; [done..|by eapply becomes_from].
Qed.

Lemma made_from O (d d1 d' : D) c t new : same_disk d d1 -> made v O d1 d' c t new -> made v O d d' c t new.
Proof.
  intros [E Hs] (? & ? & Hr). rewrite E in Hr. split_and!; [done|by eauto using stays_trans|done].
Qed.

Lemma fault_from (d d1 : D) e : same_disk d d1 -> fault v d1 e -> fault v d e.
Proof. intros [_ Hs]. by apply fault_stays. Qed.

(** The directories a path goes through are directories of the volume. *)
Lemma view_directory V O c t id :
  volume_ok v V O -> is_directory O c -> view v V c t = Some (ADir id) -> is_directory O id.
Proof.
  intros Hok [l Hc]. unfold view. destruct (is_dot t) eqn:Ht; [done|].
  rewrite (dir_locs_owned v V O c l) by done.
  destruct (find_slot V t (locs v l)) as [p|] eqn:E; [|done]. cbn [fmap option_fmap option_map].
  unfold node_of. destruct (e_dir (slot V p)) eqn:Hd; [|done]. intros [= <-].
  apply find_slot_Some in E as (Hp & Hl & Hn).
  destruct (vol_entry _ _ _ Hok p) as [(_ & ? & _)|(l' & Hl' & _)].
  - split; [by eauto|]. unfold counted. by rewrite Hl, Hn, Ht.
  - congruence.
  - rewrite Hd in Hl'. by exists l'.
Qed.

(** Setting a name that is no directory does not change where paths lead. *)
Lemma a_resolve_set (P : Z -> Prop) F F' c0 t0 n c comps r :
  (forall c t, P c -> F' c t = a_set F c0 t0 n c t) ->
  (forall c t id, P c -> F c t = Some (ADir id) -> P id) ->
  (forall id, F c0 t0 <> Some (ADir id)) -> P c ->
  a_resolve F c comps = inr r -> a_resolve F' c comps = inr r.
Proof.
  intros HF HP Hn. revert c. induction comps as [|comp [|comp' rest] IH]; intros c Hc; [done..|].
  change (a_resolve F c (comp :: comp' :: rest)) with
    (match F c (short_name_83 comp) with
     | None => inl NotFound
     | Some (AFile _) => inl NotADirectory
     | Some (ADir id) => a_resolve F id (comp' :: rest)
     end).
  change (a_resolve F' c (comp :: comp' :: rest)) with
    (match F' c (short_name_83 comp) with
     | None => inl NotFound
     | Some (AFile _) => inl NotADirectory
     | Some (ADir id) => a_resolve F' id (comp' :: rest)
     end).
  rewrite HF by done. unfold a_set. case_decide as Hd.
  - destruct Hd as [-> ->]. destruct (F c0 t0) as [[|id]|] eqn:E; [done| |done]. by destruct (Hn id).
  - destruct (F c (short_name_83 comp)) as [[|id]|] eqn:E; [done| |done]. apply IH. by eapply HP.
Qed.

(** A path read after a change of the file system, on directories of [O]. *)
Lemma a_resolve_directory V O c comps c' name :
  volume_ok v V O -> is_directory O c -> a_resolve (view v V) c comps = inr (c', name) -> is_directory O c'.
Proof. rewrite <- resolved_view. apply resolved_directory. Qed.

Lemma a_resolve_ext (P : Z -> Prop) F F' c comps :
  (forall c t, P c -> F' c t = F c t) -> (forall c t id, P c -> F c t = Some (ADir id) -> P id) -> P c ->
  a_resolve F' c comps = a_resolve F c comps.
Proof.
  intros HF HP. revert c. induction comps as [|comp [|comp' rest] IH]; intros c Hc; [done..|].
  cbn [a_resolve]. rewrite HF by done.
  destruct (F c (short_name_83 comp)) as [[|id]|] eqn:E; [done| |done]. apply IH. by eapply HP.
Qed.

(** The same file system gives the same results. *)
Lemma a_find_same V V' O path :
  volume_ok v V O -> same_view v O V V' ->
  a_find (view v V') (root_cluster v) path = a_find (view v V) (root_cluster v) path.
Proof.
  intros Hok Hs. pose proof (vol_root _ _ _ Hok) as Hr. unfold a_find.
  rewrite (a_resolve_ext (is_directory O) (view v V)); [|done|intros; by eapply view_directory|done].
  destruct (a_resolve _ _ _) as [e|[c name]] eqn:E; [done|].
  by rewrite Hs by (by eapply a_resolve_directory).
Qed.

(** ** The operations through the facade *)

Lemma vfs_write_spec (d : D) O path data :
  volume_ok v (disk d) O -> Z.of_nat (length data) < U32 -> writable v (disk d) path ->
  wp (write_file path data)
     (fun _ d' => exists c name,
        a_resolve (view v (disk d)) (root_cluster v) (path_components path) = inr (c, name) /\
        becomes v O d d' (a_set (view v (disk d)) c (short_name_83 name) (Some (AFile data))))
     (fun e d' => unchanged v O d d' /\ (fault v d e \/ write_error v (disk d) path e)) d.
Proof.
  intros Hok Hlen Hw. eapply wp_mounted; [done| |].
  - intros d1 Hs. pose proof (write_file_spec v d1 O path data) as Hspec. rewrite (proj1 Hs) in Hspec.
    eapply wp_mono; [by apply Hspec| |]; cbn beta.
    + intros _ d' (c & name & Hr & Hb). exists c, name. split; [done|by eapply becomes_from].
    + intros e d' [Hu He]. split; [by eapply unchanged_from|].
      destruct He; [left; by eapply fault_from|by right].
  - intros e d1 Hs Hf. split; [by apply same_unchanged|by left].
Qed.

Lemma vfs_open_spec (d : D) O path :
  volume_ok v (disk d) O ->
  computes v d (open path) (a_read (view v (disk d)) (root_cluster v) path).
Proof.
  intros Hok. eapply computes_mounted; [done|]. intros d' [E _]. rewrite <- E.
  apply read_file_spec. by eapply vol_geom.
Qed.

Lemma vfs_mkdir_spec (d : D) O path :
  volume_ok v (disk d) O ->
  (forall c name, a_resolve (view v (disk d)) (root_cluster v) (path_components path) = inr (c, name) ->
     storable (short_name_83 name)) ->
  wp (mkdir path)
     (fun _ d' => exists c name new,
        a_resolve (view v (disk d)) (root_cluster v) (path_components path) = inr (c, name) /\
        view v (disk d) c (short_name_83 name) = None /\ made v O d d' c (short_name_83 name) new)
     (fun e d' => unchanged v O d d' /\ (fault v d e \/ mkdir_error v (disk d) path e)) d.
Proof.
  intros Hok Hst. eapply wp_mounted; [done| |].
  - intros d1 Hs. pose proof (mkdir_spec v d1 O path) as Hspec. rewrite (proj1 Hs) in Hspec.
    eapply wp_mono; [by apply Hspec| |]; cbn beta.
    + intros _ d' (c & name & new & Hr & Hn & Hm). exists c, name, new. split_and!; [done..|by eapply made_from].
    + intros e d' [Hu He]. split; [by eapply unchanged_from|].
      destruct He; [left; by eapply fault_from|by right].
  - intros e d1 Hs Hf. split; [by apply same_unchanged|by left].
Qed.

Lemma vfs_unlink_spec (d : D) O path :
  volume_ok v (disk d) O ->
  wp (unlink path)
     (fun _ d' => file_removed v O d path d')
     (fun e d' => (unchanged v O d d' /\ (fault v d e \/ unlink_error v (disk d) path e)) \/
                  (fault v d e /\ file_removed v O d path d')) d.
Proof.
  intros Hok. eapply wp_mounted; [done| |].
  - intros d1 Hs. pose proof (unlink_spec v d1 O path) as Hspec. rewrite (proj1 Hs) in Hspec.
    eapply wp_mono; [by apply Hspec| |]; cbn beta.
    + intros _ d' Hr. by eapply removed_from.
    + intros e d' [[Hu He]|[Hf Hr]]; [left|right].
      * split; [by eapply unchanged_from|]. destruct He; [left; by eapply fault_from|by right].
      * split; [by eapply fault_from|by eapply removed_from].
  - intros e d1 Hs Hf. left. split; [by apply same_unchanged|by left].
Qed.

Lemma vfs_rmdir_spec (d : D) O path :
  volume_ok v (disk d) O ->
  wp (rmdir path)
     (fun _ d' => dir_removed v O (disk d) path d' /\ stays_reliable d d')
     (fun e d' => (unchanged v O d d' /\ (fault v d e \/ rmdir_error v (disk d) path e)) \/
                  (fault v d e /\ dir_removed v O (disk d) path d' /\ stays_reliable d d')) d.
Proof.
  intros Hok. eapply wp_mounted; [done| |].
  - intros d1 Hs. pose proof (rmdir_spec v d1 O path) as Hspec. rewrite (proj1 Hs) in Hspec.
    destruct Hs as [E Hs]. eapply wp_mono; [by apply Hspec| |]; cbn beta.
    + intros _ d' [? ?]. split; [done|by eauto using stays_trans].
    + intros e d' [[Hu He]|(Hf & Hr & Hs')]; [left|right].
      * split; [by eapply unchanged_from|]. destruct He; [left; by eauto using fault_stays|by right].
      * split_and!; [by eauto using fault_stays|done|by eauto using stays_trans].
  - intros e d1 Hs Hf. left. split; [by apply same_unchanged|by left].
Qed.

Lemma vfs_lookup_spec (d : D) O path :
  volume_ok v (disk d) O ->
  computes v d (lookup path)
    (match trim_matches x2f path with
     | [] => inr (Dir (dir_items v (disk d) (root_cluster v)))
     | _ => match a_find (view v (disk d)) (root_cluster v) path with
            | inl e => inl e
            | inr (ADir id) => inr (Dir (dir_items v (disk d) id))
            | inr (AFile data) => inr (File data)
            end
     end).
Proof.
  intros Hok. eapply computes_mounted; [done|]. intros d' [E _]. rewrite <- E.
  apply lookup_spec. by eapply vol_geom.
Qed.

Lemma vfs_stat_spec (d : D) O path : volume_ok v (disk d) O -> exists r, computes v d (stat path) r.
Proof.
  intros Hok. eexists. eapply computes_mounted; [done|]. intros d' [E _].
  pose proof (stat_spec v (vol_geom _ _ _ Hok) d' path) as Hs. rewrite E in Hs. exact Hs.
Qed.

(** Reading any path after a write of [t0] in [c0]. *)
Lemma read_after_set V V' O c0 t0 data path c name :
  volume_ok v V O -> (forall c t, is_directory O c -> view v V' c t = a_set (view v V) c0 t0 (Some (AFile data)) c t) ->
  (forall id, view v V c0 t0 <> Some (ADir id)) ->
  a_resolve (view v V) (root_cluster v) (path_components path) = inr (c, name) ->
  a_read (view v V') (root_cluster v) path =
    if decide (c = c0 /\ short_name_83 name = t0) then inr data
    else a_read (view v V) (root_cluster v) path.
Proof.
  intros Hok HF Hn Hr. unfold a_read, a_find. rewrite Hr.
  rewrite (a_resolve_set (is_directory O) (view v V) (view v V') c0 t0 (Some (AFile data))
             (root_cluster v) (path_components path) (c, name)); try done.
  - rewrite HF by (eapply a_resolve_directory; [done|by eapply vol_root|done]).
    unfold a_set. by case_decide.
  - intros. by eapply view_directory.
  - by eapply vol_root.
Qed.
End FacadeLemmas.

(** ** A new volume is well formed *)

Section Fresh.
Context (v : Fat32) (V : gmap Z (list byte)).

(** An empty root directory, in one cluster. *)
Definition blank : Prop :=
  geom_ok v /\ parse_bpb (sector V 0) = inr (Some v) /\ cvalid v (root_cluster v) = true /\
  fat_of v V (root_cluster v) = FAT32_EOC /\
  forall s, s ∈ cluster_sectors v (root_cluster v) -> sector V s = zero_sector.

Lemma blank_mark p : blank -> p ∈ locs v [root_cluster v] -> e_mark (slot V p) = 0.
Proof.
  intros (_ & _ & _ & _ & Hz) Hp. apply slot_in_cluster in Hp as (x & ->%list_elem_of_singleton & Hs).
  unfold slot. rewrite Hz by done. apply zero_slice_mark.
Qed.

Lemma blank_ok : blank -> volume_ok v V {[ root_cluster v := (true, [root_cluster v]) ]}.
Proof.
  intros Hb. pose proof Hb as (G & Hboot & Hv & Hf & Hz).
  assert (forall p, p ∈ locs v [root_cluster v] -> live (slot V p) = false) as Hdead.
  { intros p Hp. by apply dead_mark, blank_mark. }
  assert (forall p, ~ refers v V {[ root_cluster v := (true, [root_cluster v]) ]} p) as Href.
  { intros p [(c & l & Hc & Hl) Hcnt%counted_live]. apply lookup_singleton_Some in Hc as [<- [= <-]].
    by rewrite Hdead in Hcnt. }
  split; try done.
  - exists [root_cluster v]. by rewrite lookup_singleton_eq.
  - intros c b l [<- [= <- <-]]%lookup_singleton_Some. split; [done| | | |apply NoDup_singleton].
    + by intros x ->%list_elem_of_singleton.
    + intros [|i] x y; done.
    + intros x [= <-]. rewrite Hf. split; [done|by apply eoc_invalid].
  - intros c1 b1 l1 c2 b2 l2 x [<- _]%lookup_singleton_Some [<- _]%lookup_singleton_Some. done.
  - intros c l [<- [= <-]]%lookup_singleton_Some. split.
    + pose proof (blank_mark) as Hm. induction (locs v [root_cluster v]) as [|p ls IH]; [done|].
      split; [intros _ q Hq; apply Hm; [done|by right]|]. apply IH.
      * intros q Hq. apply Hdead. by right.
      * intros q _ Hq. apply Hm; [done|by right].
    + intros p q Hp _ Hl. by rewrite Hdead in Hl.
    + intros p Hp Hl. by rewrite Hdead in Hl.
  - intros p Hp. by destruct (Href p).
  - intros p q Hp. by destruct (Href p).
  - intros p Hp. by destruct (Href p).
Qed.
End Fresh.
