(* ===== verification/FsTheorems.v ===== *)
(** * File system: theorems

    The properties of the FAT32 driver and of the facade over it, each with a
    witness on a small disk in memory. *)

From stdpp Require Import base numbers list gmap.
From Stdlib Require Import ZArith Lia.
From S2P Require Import Prelude BlockDev Fat FatLayout FatAlloc FatData FatDir FatVolume FatOps.
From S2P Require Import Vfs.
#[local] Open Scope Z_scope.

(** The chains in use on a new volume. *)
Definition small_own : gmap Z (bool * list Z) := {[ 2 := (true, [2]) ]}.

Lemma small_geom : geom_ok small_volume.
Proof. split; vm_compute; repeat split; congruence. Qed.

Lemma small_ok fs : volume_ok small_volume (disk (small_disk fs)) small_own.
Proof.
  apply (blank_ok small_volume). split_and!; [apply small_geom|vm_compute; reflexivity..|].
  intros s Hs. assert (s = 3) as ->.
  { rewrite cluster_sectors_elem in Hs. change (3 <= s < 3 + 1) in Hs. lia. }
  vm_compute. reflexivity.
Qed.

Lemma small_dir c : is_directory small_own c <-> c = 2.
Proof.
  unfold is_directory, small_own. split.
  - by intros [l [<- _]%lookup_singleton_Some].
  - intros ->. by exists [2].
Qed.

Section Theorems.
Context {D : Type} `{BL : BlockDevLaws D} (v : Fat32).



(** A write does not disturb other files: what [fs::open] gives for a path
    that leads to another name, it gives after [fs::write_file] too, and after a
    failed write for every path. *)
Theorem fs_write_frame (d : D) O path data path' c' name' :
  volume_ok v (disk d) O -> Z.of_nat (length data) < U32 -> writable v (disk d) path ->
  a_resolve (view v (disk d)) (root_cluster v) (path_components path') = inr (c', name') ->
  (forall c name, a_resolve (view v (disk d)) (root_cluster v) (path_components path) = inr (c, name) ->
     (c', short_name_83 name') <> (c, short_name_83 name)) ->
  exists r, computes v d (Vfs.open path') r /\
    wp (Vfs.write_file path data)
       (fun _ d' => computes v d' (Vfs.open path') r)
       (fun _ d' => computes v d' (Vfs.open path') r) d.
Proof.
  intros Hok Hlen Hw Hr' Hne. eexists. split; [by eapply vfs_open_spec|].
  eapply wp_mono; [by apply (vfs_write_spec v d O)| |]; cbn beta.
  - intros _ d1 (c & name & Hr & O' & Hok' & Hdir & Hview & _).
    pose proof (read_after_set v (disk d) (disk d1) O c (short_name_83 name) data path' c' name' Hok Hview) as E.
    rewrite decide_False in E by (intros [-> E']; apply (Hne c name Hr); by rewrite E').
    rewrite <- E; [by eapply vfs_open_spec|by apply Hw|done].
  - intros e d1 [(Hok' & Hview & _) _]. unfold a_read. rewrite <- (a_find_same v _ _ O path' Hok Hview).
    by eapply (vfs_open_spec v d1 O).
Qed.

(** [fs::open] on any well-formed volume returns the contents the abstract
    file system has at the path, or the path's error ([NotFound],
    [NotADirectory] for a file in the middle, [IsADirectory] for a directory);
    the disk is not changed. *)
Theorem fs_open_refines (d : D) O path :
  volume_ok v (disk d) O ->
  computes v d (Vfs.open path) (a_read (view v (disk d)) (root_cluster v) path).
Proof. apply vfs_open_spec. Qed.

(** Reading never loops and never panics, whatever the FAT and the
    directories hold: with a good geometry alone, [read_file] ends with the
    bytes of the cluster walk, even on a cyclic chain. *)
Theorem fat_read_total (d : D) path :
  geom_ok v ->
  computes v d (read_file v path) (a_read (view v (disk d)) (root_cluster v) path).
Proof. intros G. by apply read_file_spec. Qed.


(** C14. [fs::unlink] removes one file: on [Ok] the name referred to a file and
    is free now, everything else is as before and the volume is well formed, so
    no other entry refers to the released clusters.  An error leaves the file
    system unchanged; only if the device fails while the clusters are released
    is the name gone all the same. *)
Theorem fs_unlink_refines (d : D) O path :
  volume_ok v (disk d) O ->
  wp (Vfs.unlink path)
     (fun _ d' => file_removed v O d path d')
     (fun e d' => (unchanged v O d d' /\ (fault v d e \/ unlink_error v (disk d) path e)) \/
                  (fault v d e /\ file_removed v O d path d')) d.
Proof. apply vfs_unlink_spec. Qed.


(** [fs::lookup] gives the contents of a file, or the listing of a
    directory: one item per live entry in slot order, with its 8.3 name. *)
Theorem fs_lookup_refines (d : D) O path :
  volume_ok v (disk d) O ->
  computes v d (Vfs.lookup path)
    (match trim_matches x2f path with
     | [] => inr (Dir (dir_items v (disk d) (root_cluster v)))
     | _ => match a_find (view v (disk d)) (root_cluster v) path with
            | inl e => inl e
            | inr (ADir id) => inr (Dir (dir_items v (disk d) id))
            | inr (AFile data) => inr (File data)
            end
     end).
Proof. apply vfs_lookup_spec. Qed.

(** [alloc_chain n] links [n] clusters that were free into one chain that
    ends in an end mark, and changes no other FAT entry and nothing outside the
    FAT.  When it fails, every allocated entry is as it was; if it fails with
    [NoSpace] on a working device, the whole FAT is: the partial chain is
    returned. *)
Theorem fat_alloc_chain (d : D) n :
  geom_ok v -> (0 < n)%nat ->
  wp (alloc_chain v n)
     (fun c d' => exists l, grown v (disk d) (disk d') l /\ chain v (disk d') c l /\ length l = n)
     (fun e d' => unharmed v (disk d) (disk d') /\
        (fault v d e \/ (e = NoSpace /\ (reliable d (volume_sectors v) ->
                                         fat_becomes v (disk d) (disk d') (fat_of v (disk d)))))) d.
Proof.
  intros G Hn. eapply wp_mono; [by apply (alloc_chain_spec v G d)| |]; cbn beta.
  - intros c d' (l & ? & ? & ? & _). by exists l.
  - intros e d' (? & ? & ?). done.
Qed.

(** [write_fat_entry] mirrors: after [Ok] every copy of the FAT has the
    value in the entry's 28 significant bits and the old reserved bits; all
    other entries of all copies and all sectors outside the FATs are as before. *)
Theorem fat_entry_mirrored (d : D) c value :
  geom_ok v -> cvalid v c = true -> 0 <= value < 2 ^ 28 ->
  wp (write_fat_entry v c value)
     (fun _ d' =>
        (forall copy, 0 <= copy < num_fats v ->
           Z.land (fat_raw v (disk d') copy c) FAT32_ENTRY_MASK = value /\
           Z.land (fat_raw v (disk d') copy c) 0xF0000000 = Z.land (fat_raw v (disk d) copy c) 0xF0000000) /\
        (forall copy c', 0 <= copy < num_fats v -> cvalid v c' = true -> c' <> c ->
           fat_raw v (disk d') copy c' = fat_raw v (disk d) copy c') /\
        rest_same v (disk d) (disk d'))
     (fun e _ => fault v d e) d.
Proof.
  intros G Hc Hv. eapply wp_mono; [apply (write_fat_entry_spec v G d c value Hc); lia| |]; cbn beta.
  - intros _ d' [[Hraw Hrest] _]. pose proof (cvalid_index v c Hc). split_and!; [| |done].
    + intros copy Hk. rewrite Hraw, Z.eqb_refl by done. rewrite (proj2 (Z.ltb_lt copy (num_fats v))) by lia.
      cbn [andb]. rewrite new_raw_mask, new_raw_reserved, land_mask_small by done. done.
    + intros copy c' Hk Hc' Hne. rewrite Hraw by eauto using cvalid_index.
      by rewrite (proj2 (Z.eqb_neq c' c)).
  - intros e d' (_ & _ & ?). done.
Qed.

(** [alloc_cluster] takes the first free cluster, marks it as the end of a
    chain and changes nothing else; [NoSpace] is reported exactly when no
    cluster of the volume is free. *)
Theorem fat_alloc_first_free (d : D) :
  geom_ok v ->
  wp (alloc_cluster v)
     (fun c d' => cvalid v c = true /\ fat_of v (disk d) c = 0 /\
        (forall x, FIRST_DATA_CLUSTER <= x < c -> fat_of v (disk d) x <> 0) /\
        fat_becomes v (disk d) (disk d') (fset (fat_of v (disk d)) c FAT32_EOC))
     (fun e d' => fault v d e \/
        (e = NoSpace /\ disk d' = disk d /\ forall c, cvalid v c = true -> fat_of v (disk d) c <> 0)) d.
Proof.
  intros G. eapply wp_mono; [by apply (alloc_cluster_spec v G d)| |]; cbn beta.
  - intros c d' ((? & ? & ?) & ? & _). done.
  - intros e d' [(-> & [? _] & ?)|(_ & ? & _)]; [by right|by left].
Qed.

(** [mount] accepts exactly the boot sectors with 512-byte sectors and
    FAT32 fields and computes the geometry from them; it panics, on the
    multiplication or the addition, exactly when the data area would start past
    the last 32-bit sector. *)
Theorem fat_mount_outcomes (d : D) :
  geom_ok v ->
  match parse_bpb (sector (disk d) 0) with
  | inl e => computes v d mount (inl e)
  | inr (Some w) => computes v d mount (inr w)
  | inr None => forall r d', mount d = (r, d') -> r = Panic \/ exists e, r = Fail e /\ fault v d e
  end.
Proof. intros G. by apply mount_spec, volume_sectors_pos. Qed.
End Theorems.

(** ** Witnesses *)

(** A path to a new name in the root of the new volume can be written. *)
Lemma small_writable fs : writable small_volume (disk (small_disk fs)) (bs "/A.TXT").
Proof.
  intros c name E. vm_compute in E. injection E as <- <-. split; [split_and!; vm_compute; congruence|].
  intros id E. vm_compute in E. congruence.
Qed.



Lemma fs_write_frame_witness :
  let d := small_disk [] in
  exists r, computes small_volume d (Vfs.open (bs "/B.TXT")) r /\
    wp (Vfs.write_file (bs "/A.TXT") (bs "hello"))
       (fun _ d' => computes small_volume d' (Vfs.open (bs "/B.TXT")) r)
       (fun _ d' => computes small_volume d' (Vfs.open (bs "/B.TXT")) r) d.
Proof.
  intros d. apply (fs_write_frame small_volume d small_own _ _ (bs "/B.TXT") 2 (bs "B.TXT")).
  - apply small_ok.
  - vm_compute. reflexivity.
  - apply small_writable.
  - vm_compute. reflexivity.
  - intros c name E. vm_compute in E. injection E as <- <-. vm_compute. congruence.
Defined.

Lemma fs_open_refines_witness :
  let d := small_disk [] in
  computes small_volume d (Vfs.open (bs "/A.TXT")) (inl NotFound).
Proof.
  intros d. assert (a_read (view small_volume (disk d)) 2 (bs "/A.TXT") = inl NotFound) as <-
    by (vm_compute; reflexivity).
  apply (fs_open_refines small_volume d small_own (bs "/A.TXT")), small_ok.
Defined.

(** A volume whose root directory's chain is a loop. *)
Definition loop_disk : RamDisk :=
  mkRamDisk (<[1 := as_sector (to_le 4 0x0FFFFFF8 ++ to_le 4 0xFFFFFFFF ++ to_le 4 2)]>
             (<[3 := as_sector (fill_dir_entry (short_name_83 (bs "B.TXT")) ATTR_ARCHIVE 2 1000)]>
              (formatted 30))) 30 [].

Lemma fat_read_total_witness :
  computes small_volume loop_disk (read_file small_volume (bs "/B.TXT"))
    (a_read (view small_volume (disk loop_disk)) 2 (bs "/B.TXT")).
Proof. apply (fat_read_total small_volume loop_disk (bs "/B.TXT")), small_geom. Defined.


Lemma fs_unlink_refines_witness :
  let d := small_disk [] in
  wp (Vfs.unlink (bs "/A.TXT"))
     (fun _ d' => file_removed small_volume small_own d (bs "/A.TXT") d')
     (fun e d' => (unchanged small_volume small_own d d' /\
                   (fault small_volume d e \/ unlink_error small_volume (disk d) (bs "/A.TXT") e)) \/
                  (fault small_volume d e /\ file_removed small_volume small_own d (bs "/A.TXT") d')) d.
Proof. intros d. apply (fs_unlink_refines small_volume d small_own (bs "/A.TXT")), small_ok. Defined.


Lemma fs_lookup_refines_witness :
  let d := small_disk [] in
  computes small_volume d (Vfs.lookup (bs "/")) (inr (Dir [])).
Proof.
  intros d. assert (dir_items small_volume (disk d) 2 = []) as <- by (vm_compute; reflexivity).
  apply (fs_lookup_refines small_volume d small_own (bs "/")), small_ok.
Defined.

Lemma fat_alloc_chain_witness :
  let d := small_disk [] in
  wp (alloc_chain small_volume 3)
     (fun c d' => exists l, grown small_volume (disk d) (disk d') l /\ chain small_volume (disk d') c l /\
                            length l = 3%nat)
     (fun e d' => unharmed small_volume (disk d) (disk d') /\
        (fault small_volume d e \/
         (e = NoSpace /\ (reliable d (volume_sectors small_volume) ->
                          fat_becomes small_volume (disk d) (disk d') (fat_of small_volume (disk d)))))) d.
Proof. intros d. apply (fat_alloc_chain small_volume d 3); [apply small_geom|lia]. Defined.

Lemma fat_entry_mirrored_witness :
  let d := small_disk [] in
  wp (write_fat_entry small_volume 5 6)
     (fun _ d' =>
        (forall copy, 0 <= copy < 2 ->
           Z.land (fat_raw small_volume (disk d') copy 5) FAT32_ENTRY_MASK = 6 /\
           Z.land (fat_raw small_volume (disk d') copy 5) 0xF0000000 =
             Z.land (fat_raw small_volume (disk d) copy 5) 0xF0000000) /\
        (forall copy c', 0 <= copy < 2 -> cvalid small_volume c' = true -> c' <> 5 ->
           fat_raw small_volume (disk d') copy c' = fat_raw small_volume (disk d) copy c') /\
        rest_same small_volume (disk d) (disk d'))
     (fun e _ => fault small_volume d e) d.
Proof.
  intros d. apply (fat_entry_mirrored small_volume d 5 6); [apply small_geom|vm_compute; reflexivity|lia].
Defined.

Lemma fat_alloc_first_free_witness :
  let d := small_disk [] in
  wp (alloc_cluster small_volume)
     (fun c d' => cvalid small_volume c = true /\ fat_of small_volume (disk d) c = 0 /\
        (forall x, FIRST_DATA_CLUSTER <= x < c -> fat_of small_volume (disk d) x <> 0) /\
        fat_becomes small_volume (disk d) (disk d') (fset (fat_of small_volume (disk d)) c FAT32_EOC))
     (fun e d' => fault small_volume d e \/
        (e = NoSpace /\ disk d' = disk d /\
         forall c, cvalid small_volume c = true -> fat_of small_volume (disk d) c <> 0)) d.
Proof. intros d. apply (fat_alloc_first_free small_volume d), small_geom. Defined.

Lemma fat_mount_outcomes_witness : computes small_volume (small_disk []) mount (inr small_volume).
Proof.
  pose proof (fat_mount_outcomes small_volume (small_disk []) small_geom) as H.
  assert (parse_bpb (sector (disk (small_disk [])) 0) = inr (Some small_volume)) as E
    by (vm_compute; reflexivity).
  rewrite E in H. exact H.
Defined.

(** ** Behaviour at the edge of the preconditions

    The two conditions of [storable] are needed.  A name whose first byte is
    0xE5, as in the UTF-8 encoding of many CJK characters, is stored as a deleted
    entry: the write succeeds and the file is not found. *)
Example write_e5_lost :
  let path := x2f :: [xe5; x80; x80] in
  fst ((Vfs.write_file path (bs "data") ;;! Vfs.open path) (small_disk [])) = Fail NotFound.
Proof. vm_compute. reflexivity. Qed.

(** A file whose name is a space and two dots is listed as [..], so the
    directory that holds it counts as empty and is removed with it. *)
Example rmdir_loses_file :
  fst ((Vfs.mkdir (bs "/D") ;;! Vfs.write_file (bs "/D/ ..") (bs "data") ;;!
        let! x := Vfs.open (bs "/D/ ..") in
        Vfs.rmdir (bs "/D") ;;!
        let! n := Vfs.lookup (bs "/") in pret (x, n)) (small_disk [])) = Ret (bs "data", Dir []).
Proof. vm_compute. reflexivity. Qed.

(** A directory that is written as a file loses its entry: the guard against it
    is in the callers of [write_file]. *)
Example write_over_directory :
  fst ((Vfs.mkdir (bs "/D") ;;! Vfs.write_file (bs "/D") (bs "data") ;;! Vfs.open (bs "/D"))
         (small_disk [])) = Ret (bs "data").
Proof. vm_compute. reflexivity. Qed.
