(* ===== verification/Abi.v ===== *)
(** * The system-call interface

    The constants of [syscall/abi.rs]: the Linux x86-64 numbers, flags and
    error codes the handlers return (negated) in [rax].  The source writes the
    flags in octal. *)

From Stdlib Require Import ZArith.
#[local] Open Scope Z_scope.

(** ** System call numbers *)

Definition SYS_READ : Z := 0.
Definition SYS_WRITE : Z := 1.
Definition SYS_OPEN : Z := 2.
Definition SYS_CLOSE : Z := 3.
Definition SYS_READV : Z := 19.
Definition SYS_WRITEV : Z := 20.
Definition SYS_FCNTL : Z := 72.
Definition SYS_SOCKET : Z := 41.
Definition SYS_CONNECT : Z := 42.
Definition SYS_BIND : Z := 49.
Definition SYS_SENDTO : Z := 44.
Definition SYS_RECVFROM : Z := 45.
Definition SYS_STAT : Z := 4.
Definition SYS_FSTAT : Z := 5.
Definition SYS_LSTAT : Z := 6.
Definition SYS_BRK : Z := 12.
Definition SYS_LSEEK : Z := 8.
Definition SYS_PIPE : Z := 22.
Definition SYS_DUP2 : Z := 33.
Definition SYS_GETPID : Z := 39.
Definition SYS_GETCWD : Z := 79.
Definition SYS_CHDIR : Z := 80.
Definition SYS_MKDIR : Z := 83.
Definition SYS_RMDIR : Z := 84.
Definition SYS_UNLINK : Z := 87.
Definition SYS_FORK : Z := 57.
Definition SYS_EXECVE : Z := 59.
Definition SYS_EXIT : Z := 60.
Definition SYS_WAIT4 : Z := 61.
Definition SYS_KILL : Z := 62.
Definition SYS_GETTIMEOFDAY : Z := 96.
Definition SYS_UNAME : Z := 63.
Definition SYS_GETUID : Z := 102.
Definition SYS_GETGID : Z := 104.
Definition SYS_GETEUID : Z := 107.
Definition SYS_GETEGID : Z := 108.
Definition SYS_GETPPID : Z := 110.
Definition SYS_ARCH_PRCTL : Z := 158.
Definition SYS_TIME : Z := 201.
Definition SYS_GETDENTS64 : Z := 217.
Definition SYS_CLOCK_GETTIME : Z := 228.
Definition SYS_EXIT_GROUP : Z := 231.

(** ** Descriptor control *)

Definition F_DUPFD : Z := 0.
Definition F_GETFD : Z := 1.
Definition F_SETFD : Z := 2.
Definition F_GETFL : Z := 3.
Definition F_SETFL : Z := 4.
Definition IOV_MAX : Z := 1024.

(** ** Clocks *)

Definition CLOCK_REALTIME : Z := 0.
Definition CLOCK_MONOTONIC : Z := 1.

(** ** File types of [st_mode] *)

Definition S_IFMT : Z := 0xf000.
Definition S_IFREG : Z := 0x8000.
Definition S_IFDIR : Z := 0x4000.
Definition S_IFCHR : Z := 0x2000.
Definition S_IFIFO : Z := 0x1000.
Definition S_IFSOCK : Z := 0xc000.

(** ** Codes of [arch_prctl] *)

Definition ARCH_SET_FS : Z := 0x1002.
Definition ARCH_GET_FS : Z := 0x1003.

(** ** Flags of [open] *)

Definition O_ACCMODE : Z := 3.
Definition O_RDONLY : Z := 0.
Definition O_WRONLY : Z := 1.
Definition O_RDWR : Z := 2.
Definition O_CREAT : Z := 0x40.
Definition O_TRUNC : Z := 0x200.
Definition O_APPEND : Z := 0x400.

(** ** Sockets *)

Definition AF_INET : Z := 2.
Definition SOCK_DGRAM : Z := 2.
Definition SOCK_STREAM : Z := 1.
Definition SOCKADDR_IN_LEN : nat := 16%nat.

(** ** Signals *)

Definition SIGKILL : Z := 9.
Definition SIGSEGV : Z := 11.
Definition SIGTERM : Z := 15.
Definition SIG_MAX : Z := 64.

(** ** Errors *)

Definition ENOENT : Z := 2.
Definition ESRCH : Z := 3.
Definition EEXIST : Z := 17.
Definition EIO : Z := 5.
Definition ENOTDIR : Z := 20.
Definition EISDIR : Z := 21.
Definition ESPIPE : Z := 29.
Definition EPIPE : Z := 32.
Definition ENOSPC : Z := 28.
Definition ENOEXEC : Z := 8.
Definition E2BIG : Z := 7.
Definition ECHILD : Z := 10.
Definition EAGAIN : Z := 11.
Definition ENOMEM : Z := 12.
Definition EBADF : Z := 9.
Definition EFAULT : Z := 14.
Definition EINVAL : Z := 22.
Definition EMFILE : Z := 24.
Definition ENOSYS : Z := 38.
Definition ENOTEMPTY : Z := 39.
Definition ERANGE : Z := 34.
Definition ENOTSOCK : Z := 88.
Definition EMSGSIZE : Z := 90.
Definition EPROTONOSUPPORT : Z := 93.
Definition EAFNOSUPPORT : Z := 97.
Definition ENETDOWN : Z := 100.
Definition EOPNOTSUPP : Z := 95.
Definition ENOTCONN : Z := 107.
Definition ETIMEDOUT : Z := 110.
Definition ECONNREFUSED : Z := 111.
