(* ===== verification/Uaccess.v ===== *)
(** * Access to user memory

    The [uaccess] module of the system-call layer ([syscall/uaccess.rs]) and
    the page check it is built on ([mm/paging.rs], [user_range_accessible]).
    A raw access to a page that is not mapped is a kernel page fault, hence a
    [Panic]; the theorems show that the two checks rule it out, and that they
    refuse nothing else. *)

From stdpp Require Import base numbers list gmap.
From Stdlib Require Import ZArith Lia.
From S2P Require Import Prelude Abi.
#[local] Open Scope Z_scope.

Definition USER_SPACE_END : Z := 0x800000000000.

Definition PATH_MAX : nat := 256.

(** The lower half of an address space: what [OffsetPageTable::translate]
    reports for each page of it ([USER_ACCESSIBLE], [WRITABLE]), and its bytes. *)
Record UserSpace := {
  us_pages : gmap Z (bool * bool);
  us_mem : gmap Z byte
}.

Definition byte_at (us : UserSpace) (a : Z) : byte := default x00 (us_mem us !! a).

Definition read_bytes (us : UserSpace) (a : Z) (n : nat) : list byte :=
  (fun i => byte_at us (a + Z.of_nat i)) <$> seq 0 n.

Fixpoint poke (a : Z) (l : list byte) (m : gmap Z byte) : gmap Z byte :=
  match l with
  | [] => m
  | b :: l' => poke (a + 1) l' (<[a := b]> m)
  end.

Definition write_bytes (a : Z) (l : list byte) (us : UserSpace) : UserSpace :=
  {| us_pages := us_pages us; us_mem := poke a l (us_mem us) |}.

Definition page_of (a : Z) : Z := Z.land a (Z.lnot 0xFFF).

Definition translate (us : UserSpace) (a : Z) : option (bool * bool) := us_pages us !! page_of a.

Section Uaccess.
Context {E : Type}.

(** [VirtAddr::new]: panics unless bits 47 to 63 are equal. *)
Definition virt_addr_new (a : Z) : prog UserSpace E Z :=
  passert ((a <? 2 ^ 47) || (2 ^ 64 - 2 ^ 47 <=? a)) ;;! pret a.

(** The flag tests of one page. *)
Definition page_accessible (need_write : bool) (f : option (bool * bool)) : bool :=
  match f with
  | Some (user, writable) => user && (negb need_write || writable)
  | None => false
  end.

(** [while addr < end { .. }] *)
Fixpoint accessible_loop (fuel : nat) (addr end_ : Z) (need_write : bool) : prog UserSpace E bool :=
  match fuel with
  | O => pdiverge
  | S fuel' =>
      if addr <? end_ then
        let! va := virt_addr_new addr in
        let! us := pget in
        if page_accessible need_write (translate us va) then
          match checked U64 (addr + 4096) with
          | Some next => accessible_loop fuel' next end_ need_write
          | None => pret true
          end
        else pret false
      else pret true
  end.

Definition user_range_accessible (start len : Z) (need_write : bool) : prog UserSpace E bool :=
  if len =? 0 then pret true
  else
    match checked U64 (start + len) with
    | None => pret false
    | Some end_ =>
        accessible_loop (Z.to_nat (len / 4096 + 3)) (page_of start) end_ need_write
    end.
End Uaccess.

(** The raw accesses behind the checks: every byte lies on a present page, and
    on a writable one for a store. *)
Definition present (us : UserSpace) (write : bool) (a : Z) : bool :=
  match translate us a with
  | Some (_, writable) => negb write || writable
  | None => false
  end.

Definition raw_read (ptr len : Z) : prog UserSpace Z (list byte) :=
  let! us := pget in
  passert (forallb (fun i => present us false (ptr + Z.of_nat i)) (seq 0 (Z.to_nat len))) ;;!
  pret (read_bytes us ptr (Z.to_nat len)).

Definition raw_write (ptr : Z) (src : list byte) : prog UserSpace Z unit :=
  let! us := pget in
  passert (forallb (fun i => present us true (ptr + Z.of_nat i)) (seq 0 (length src))) ;;!
  pput (write_bytes ptr src us).

Definition validate (ptr len : Z) : prog UserSpace Z unit :=
  match checked U64 (ptr + len) with
  | Some end_ => if end_ <=? USER_SPACE_END then pret tt else pfail EFAULT
  | None => pfail EFAULT
  end.

(** [with_user_bytes(ptr, len, f)]: the view [f] is given. *)
Definition with_user_bytes (ptr len : Z) : prog UserSpace Z (list byte) :=
  validate ptr len ;;!
  if len =? 0 then pret []
  else
    let! ok := user_range_accessible ptr len false in
    if negb ok then pfail EFAULT
    else raw_read ptr len.

Definition copy_to_user (dst : Z) (src : list byte) : prog UserSpace Z unit :=
  let len := Z.of_nat (length src) in
  validate dst len ;;!
  match src with
  | [] => pret tt
  | _ =>
      let! ok := user_range_accessible dst len true in
      if negb ok then pfail EFAULT
      else raw_write dst src
  end.

(** The closure of [read_user_cstr]: pushes up to the first NUL. *)
Fixpoint push_until_nul (bytes out : list byte) : list byte * bool :=
  match bytes with
  | [] => (out, false)
  | b :: bytes' => if Byte.eqb b x00 then (out, true) else push_until_nul bytes' (out ++ [b])
  end.

Fixpoint cstr_loop (fuel : nat) (addr : Z) (out : list byte) : prog UserSpace Z (list byte) :=
  match fuel with
  | O => pdiverge
  | S fuel' =>
      let! page_end := u64_add (Z.lor addr 0xFFF) 1 in
      let! room := punwrap (checked U64 (Z.of_nat PATH_MAX - Z.of_nat (length out))) in
      let chunk_len := Z.min (page_end - addr) room in
      if chunk_len =? 0 then pfail EINVAL
      else
        let! bytes := with_user_bytes addr chunk_len in
        let '(out', hit_nul) := push_until_nul bytes out in
        if hit_nul then pret out' else cstr_loop fuel' page_end out'
  end.

Definition read_user_cstr (ptr : Z) : prog UserSpace Z (list byte) :=
  validate ptr 1 ;;!
  cstr_loop (S PATH_MAX) ptr [].

(** ** Specification *)

(** The user may read (write) the byte at [a]. *)
Definition accessible (us : UserSpace) (write : bool) (a : Z) : Prop :=
  page_accessible write (translate us a) = true.

Definition range_ok (us : UserSpace) (write : bool) (ptr len : Z) : Prop :=
  ptr + len <= USER_SPACE_END /\ forall a, ptr <= a < ptr + len -> accessible us write a.

#[export] Instance accessible_dec us w a : Decision (accessible us w a).
Proof. unfold accessible. apply _. Defined.

Definition readable (us : UserSpace) (a : Z) : Prop :=
  a < USER_SPACE_END /\ accessible us false a.

(** [n] readable bytes without a NUL start at [p]. *)
Definition no_nul (us : UserSpace) (p : Z) (n : nat) : Prop :=
  forall a, p <= a < p + Z.of_nat n -> readable us a /\ byte_at us a <> x00.

(** The NUL-terminated string [s] is readable at [p], within the limit. *)
Definition cstr_at (us : UserSpace) (p : Z) (s : list byte) : Prop :=
  (length s < PATH_MAX)%nat /\ no_nul us p (length s) /\ readable us (p + Z.of_nat (length s)) /\
  read_bytes us p (S (length s)) = s ++ [x00].

(** An unreadable byte is met before a NUL and before the limit. *)
Definition cstr_faults (us : UserSpace) (p : Z) : Prop :=
  exists n, (n < PATH_MAX)%nat /\ no_nul us p n /\ ~ readable us (p + Z.of_nat n).

(** ** Pages *)

Lemma page_of_mod a : page_of a = a - a mod 4096.
Proof.
  unfold page_of. rewrite <- Z.ldiff_land. change 0xFFF with (Z.ones 12).
  rewrite Z.ldiff_ones_r, Z.shiftl_mul_pow2, Z.shiftr_div_pow2 by lia.
  change (2 ^ 12) with 4096. pose proof (Z_div_mod_eq_full a 4096). lia.
Qed.

Lemma page_end_eq a : Z.lor a 0xFFF + 1 = page_of a + 4096.
Proof.
  pose proof (Z.add_lor_land a 0xFFF) as H. rewrite page_of_mod.
  change (Z.land a 0xFFF) with (Z.land a (Z.ones 12)) in H. rewrite Z.land_ones in H by lia.
  change (2 ^ 12) with 4096 in H. lia.
Qed.

Lemma page_of_bounds a : page_of a <= a < page_of a + 4096.
Proof. rewrite page_of_mod. pose proof (Z.mod_pos_bound a 4096). lia. Qed.

Lemma page_of_same p a : p mod 4096 = 0 -> p <= a < p + 4096 -> page_of a = p.
Proof.
  rewrite page_of_mod. intros Hp Ha. pose proof (Z_div_mod_eq_full p 4096).
  rewrite (Z.mod_eq a 4096) by lia.
  rewrite <- (Z.div_unique a 4096 (p / 4096) (a - p)) by lia. lia.
Qed.

Lemma page_of_aligned a : page_of a mod 4096 = 0.
Proof. rewrite page_of_mod, Zminus_mod, Zmod_mod, Z.sub_diag. done. Qed.

Lemma page_of_nonneg a : 0 <= a -> 0 <= page_of a.
Proof. rewrite page_of_mod. intros. pose proof (Z.mod_le a 4096). lia. Qed.

Lemma accessible_page us w a b : page_of a = page_of b -> accessible us w a <-> accessible us w b.
Proof. unfold accessible, translate. by intros ->. Qed.

Lemma accessible_present us w a : accessible us w a -> present us w a = true.
Proof. unfold accessible, present. destruct (translate us a) as [[[] []]|]; naive_solver. Qed.

Lemma range_ok_app us w p n m :
  0 <= n -> 0 <= m -> range_ok us w p (n + m) <-> range_ok us w p n /\ range_ok us w (p + n) m.
Proof.
  intros. unfold range_ok. split.
  - intros [H1 H2]. split_and!; [lia| |lia|]; intros; apply H2; lia.
  - intros [[H1 H2] [H3 H4]]. split; [lia|]. intros a Ha.
    destruct (Z_lt_ge_dec a (p + n)); [apply H2|apply H4]; lia.
Qed.

(** ** The page loop *)

Lemma wp_accessible_loop {E} (X : E -> UserSpace -> Prop) w us fuel addr end_ :
  addr mod 4096 = 0 -> 0 <= addr -> end_ <= USER_SPACE_END ->
  end_ <= addr + Z.of_nat fuel * 4096 ->
  wp (accessible_loop (S fuel) addr end_ w)
    (fun b us' => us' = us /\ (b = true <-> forall a, addr <= a < end_ -> accessible us w a)) X us.
Proof.
  unfold USER_SPACE_END. revert addr.
  induction fuel as [|fuel IH]; intros addr Hm H0 He Hf; cbn [accessible_loop];
    (destruct (addr <? end_) eqn:Hlt; zbool; [|apply wp_ret; split; [done|]; split; [lia|done]]).
  { lia. }
  unfold virt_addr_new. apply wp_bind, wp_bind, wp_assert, wp_ret, wp_bind, wp_get.
  { apply orb_true_iff. left. apply Z.ltb_lt. lia. }
  destruct (page_accessible w (translate us addr)) eqn:Ha.
  - rewrite checked_spec by (unfold in_width, U64; lia).
    eapply wp_mono; [apply IH; try lia| |done].
    + rewrite Z.add_mod, Hm by lia. done.
    + intros b us' [-> Hb]. split; [done|]. rewrite Hb. split; intros H a Hr; [|apply H; lia].
      destruct (Z_lt_ge_dec a (addr + 4096)); [|apply H; lia].
      unfold accessible, translate. rewrite (page_of_same addr) by (done || lia).
      unfold translate in Ha. by rewrite (page_of_same addr) in Ha by (done || lia).
  - apply wp_ret. split; [done|]. split; [done|]. intros H. unfold accessible in H.
    rewrite H in Ha by lia. done.
Qed.

Lemma wp_user_range_accessible {E} (X : E -> UserSpace -> Prop) w us ptr len :
  0 <= ptr -> 0 < len -> ptr + len <= USER_SPACE_END ->
  wp (user_range_accessible ptr len w)
    (fun b us' => us' = us /\ (b = true <-> range_ok us w ptr len)) X us.
Proof.
  intros Hp Hl He. unfold user_range_accessible. destruct (len =? 0) eqn:?; zbool; [lia|].
  rewrite checked_spec by (unfold in_width, U64, USER_SPACE_END in *; lia).
  pose proof (page_of_bounds ptr). pose proof (Z_div_mod_eq_full len 4096).
  pose proof (Z.mod_pos_bound len 4096). pose proof (Z.div_pos len 4096).
  replace (Z.to_nat (len / 4096 + 3)) with (S (Z.to_nat (len / 4096 + 2))) by lia.
  eapply wp_mono; [apply wp_accessible_loop| |done];
    eauto using page_of_aligned, page_of_nonneg; [lia|].
  intros b us' [-> Hb]. split; [done|]. rewrite Hb. unfold range_ok. split.
  - intros Ha. split; [done|]. intros. apply Ha. lia.
  - intros [_ Ha] a Hr. destruct (Z_lt_ge_dec a ptr); [|apply Ha; lia].
    apply (accessible_page us w a ptr); [|apply Ha; lia].
    rewrite (page_of_same (page_of ptr) a); eauto using page_of_aligned. lia.
Qed.

(** ** The checked accesses *)

Lemma wp_validate us ptr len (Q : unit -> UserSpace -> Prop) X :
  0 <= ptr -> 0 <= len ->
  (ptr + len <= USER_SPACE_END -> Q tt us) ->
  (USER_SPACE_END < ptr + len -> X EFAULT us) -> wp (validate ptr len) Q X us.
Proof.
  intros ? ? HQ HX. unfold validate, checked.
  destruct ((0 <=? ptr + len) && (ptr + len <? U64)) eqn:E1; zbool.
  - destruct (ptr + len <=? USER_SPACE_END) eqn:?; zbool; [by apply HQ | by apply HX].
  - apply HX. unfold U64, USER_SPACE_END in *. lia.
Qed.

Lemma forallb_present us w p n :
  range_ok us w p (Z.of_nat n) ->
  forallb (fun i => present us w (p + Z.of_nat i)) (seq 0 n) = true.
Proof.
  intros [_ H]. apply forallb_forall. intros i Hi. apply in_seq in Hi.
  apply accessible_present, H. lia.
Qed.

Lemma wp_with_user_bytes us ptr len :
  0 <= ptr -> 0 <= len ->
  wp (with_user_bytes ptr len)
    (fun bytes us' => us' = us /\ range_ok us false ptr len /\
                      bytes = read_bytes us ptr (Z.to_nat len))
    (fun e us' => us' = us /\ e = EFAULT /\ ~ range_ok us false ptr len) us.
Proof.
  intros Hp Hl. unfold with_user_bytes. apply wp_bind, wp_validate; [done..| |];
    [|intros ?; split_and!; [done..|]; intros [? _]; lia].
  intros He. destruct (len =? 0) eqn:?; zbool.
  - subst len. apply wp_ret. split_and!; [done| |done]. split; [done|]. lia.
  - apply wp_bind. eapply wp_mono; [apply (wp_user_range_accessible (fun _ _ => False)); [done|lia|done]| |intros ? ? []].
    intros [] us' [-> Hb]; cbn [negb].
    + unfold raw_read. apply wp_bind, wp_get, wp_bind, wp_assert, wp_ret.
      * apply forallb_present. rewrite Z2Nat.id by lia. by apply Hb.
      * split_and!; [done|by apply Hb|done].
    + apply wp_fail. split_and!; [done..|]. rewrite <- Hb. done.
Qed.

Lemma wp_copy_to_user us dst src :
  0 <= dst ->
  wp (copy_to_user dst src)
    (fun _ us' => range_ok us true dst (Z.of_nat (length src)) /\ us' = write_bytes dst src us)
    (fun e us' => us' = us /\ e = EFAULT /\ ~ range_ok us true dst (Z.of_nat (length src))) us.
Proof.
  intros Hp. unfold copy_to_user. apply wp_bind, wp_validate; [done|lia| |];
    [|intros ?; split_and!; [done..|]; intros [? _]; lia].
  intros He. destruct src as [|b src].
  - apply wp_ret. split; [split; [done|]; simpl; lia|]. by destruct us.
  - apply wp_bind. eapply wp_mono;
      [apply (wp_user_range_accessible (fun _ _ => False)); [done|cbn [length]; lia|done]| |intros ? ? []].
    intros [] us' [-> Hb]; cbn [negb].
    + unfold raw_write. apply wp_bind, wp_get, wp_bind, wp_assert; [by apply forallb_present, Hb|].
      split; [by apply Hb|done].
    + apply wp_fail. split_and!; [done..|]. rewrite <- Hb. done.
Qed.

(** ** Bytes *)

Lemma length_read_bytes us a n : length (read_bytes us a n) = n.
Proof. unfold read_bytes. by rewrite length_fmap, length_seq. Qed.

Lemma read_bytes_S us a n : read_bytes us a (S n) = byte_at us a :: read_bytes us (a + 1) n.
Proof.
  unfold read_bytes. cbn [seq]. rewrite fmap_cons, Z.add_0_r. f_equal.
  rewrite <- seq_shift, <- list_fmap_compose. apply list_fmap_ext. intros i x _.
  unfold compose. f_equal. lia.
Qed.

Lemma read_bytes_app us a n m :
  read_bytes us a (n + m) = read_bytes us a n ++ read_bytes us (a + Z.of_nat n) m.
Proof.
  revert a; induction n as [|n IH]; intros a; [by rewrite Z.add_0_r|].
  rewrite Nat.add_succ_l, !read_bytes_S, IH. cbn [app]. do 3 f_equal. lia.
Qed.

Lemma lookup_read_bytes us a n i :
  (i < n)%nat -> read_bytes us a n !! i = Some (byte_at us (a + Z.of_nat i)).
Proof. intros. unfold read_bytes. rewrite list_lookup_fmap, lookup_seq_lt by done. done. Qed.

Lemma read_bytes_ext us us' a n :
  (forall x, a <= x < a + Z.of_nat n -> byte_at us x = byte_at us' x) ->
  read_bytes us a n = read_bytes us' a n.
Proof.
  intros H. unfold read_bytes. apply list_fmap_ext. intros i x [-> Hi]%lookup_seq. apply H. lia.
Qed.

Lemma lookup_poke_out a l m x :
  ~ (a <= x < a + Z.of_nat (length l)) -> poke a l m !! x = m !! x.
Proof.
  revert a m; induction l as [|b l IH]; intros a m Hx; [done|]. cbn [poke length] in *.
  rewrite IH, lookup_insert_ne by lia. done.
Qed.

Lemma lookup_poke_in a l m i b :
  l !! i = Some b -> poke a l m !! (a + Z.of_nat i) = Some b.
Proof.
  revert a m i; induction l as [|c l IH]; intros a m i Hi; [done|]. cbn [poke].
  destruct i as [|i]; cbn in Hi.
  - rewrite lookup_poke_out, Z.add_0_r, lookup_insert_eq by lia. done.
  - replace (a + Z.of_nat (S i)) with (a + 1 + Z.of_nat i) by lia. by apply IH.
Qed.

Lemma lookup_poke_in' a l m x b :
  l !! Z.to_nat (x - a) = Some b -> a <= x -> poke a l m !! x = Some b.
Proof.
  intros Hl Hx. rewrite <- (lookup_poke_in a l m _ b Hl). f_equal. lia.
Qed.

Lemma byte_at_write_out us a l x :
  ~ (a <= x < a + Z.of_nat (length l)) -> byte_at (write_bytes a l us) x = byte_at us x.
Proof. intros. unfold byte_at, write_bytes. cbn. by rewrite lookup_poke_out. Qed.

Lemma read_write_same us a l : read_bytes (write_bytes a l us) a (length l) = l.
Proof.
  apply list_eq. intros i. destruct (decide (i < length l)%nat) as [Hi|].
  - rewrite lookup_read_bytes by done. destruct (lookup_lt_is_Some_2 l i Hi) as [b Hb].
    rewrite Hb. unfold byte_at, write_bytes. cbn. by erewrite lookup_poke_in.
  - rewrite !lookup_ge_None_2; [done|lia|rewrite length_read_bytes; lia].
Qed.

Lemma read_write_out us a l p n :
  p + Z.of_nat n <= a \/ a + Z.of_nat (length l) <= p ->
  read_bytes (write_bytes a l us) p n = read_bytes us p n.
Proof. intros. apply read_bytes_ext. intros. apply byte_at_write_out. lia. Qed.

Lemma translate_write us a l x : translate (write_bytes a l us) x = translate us x.
Proof. done. Qed.

(** ** C strings *)

Lemma push_until_nul_spec bytes out :
  (exists pre rest, bytes = pre ++ x00 :: rest /\ (x00 ∉ pre) /\
                    push_until_nul bytes out = (out ++ pre, true)) \/
  ((x00 ∉ bytes) /\ push_until_nul bytes out = (out ++ bytes, false)).
Proof.
  revert out; induction bytes as [|b bytes IH]; intros out; cbn [push_until_nul].
  - right. split; [apply not_elem_of_nil|by rewrite app_nil_r].
  - destruct (Byte.eqb b x00) eqn:Eb.
    + apply byte_eqb_eq in Eb as ->. left. exists [], bytes.
      split_and!; [done|apply not_elem_of_nil|by rewrite app_nil_r].
    + apply byte_eqb_neq in Eb.
      destruct (IH (out ++ [b])) as [(pre & rest & -> & Hn & ->)|[Hn ->]].
      * left. exists (b :: pre), rest. split_and!; [done| |by rewrite <- app_assoc].
        rewrite not_elem_of_cons. done.
      * right. split; [rewrite not_elem_of_cons; done|by rewrite <- app_assoc].
Qed.

Lemma no_nul_app us p n m :
  no_nul us p (n + m) <-> no_nul us p n /\ no_nul us (p + Z.of_nat n) m.
Proof.
  unfold no_nul. split.
  - intros H. split; intros; apply H; lia.
  - intros [H1 H2] a Ha. destruct (Z_lt_ge_dec a (p + Z.of_nat n)); [apply H1|apply H2]; lia.
Qed.

Lemma range_readable us p n a :
  range_ok us false p n -> p <= a < p + n -> readable us a.
Proof. intros [H1 H2] Ha. split; [lia|]. by apply H2. Qed.

Lemma no_nul_prefix us p n m rest pre :
  range_ok us false p n -> m = Z.to_nat n -> read_bytes us p m = pre ++ rest -> x00 ∉ pre ->
  no_nul us p (length pre).
Proof.
  intros Hr -> Hb Hn a Ha.
  assert (length pre + length rest = Z.to_nat n)%nat.
  { rewrite <- length_app, <- Hb. apply length_read_bytes. }
  split; [eapply range_readable; [done|lia]|]. intros E0. apply Hn.
  apply list_elem_of_lookup. exists (Z.to_nat (a - p)).
  rewrite <- (lookup_app_l pre rest) by lia. rewrite <- Hb, lookup_read_bytes by lia.
  rewrite <- E0. do 2 f_equal. lia.
Qed.

(** A chunk that stays on one page is readable as soon as its first byte is. *)
Lemma chunk_readable us addr n :
  0 < n -> addr + n <= page_of addr + 4096 -> readable us addr -> range_ok us false addr n.
Proof.
  intros Hn Hp [He Ha]. pose proof (page_of_bounds addr).
  assert (page_of addr + 4096 <= USER_SPACE_END).
  { rewrite page_of_mod in *. pose proof (Z_div_mod_eq_full addr 4096).
    unfold USER_SPACE_END in *. change 0x800000000000 with (4096 * 0x800000000) in *. lia. }
  split; [lia|]. intros a Hr. apply (accessible_page us false a addr); [|done].
  apply page_of_same; [apply page_of_aligned|lia].
Qed.

(** A chunk that holds the NUL completes the string. *)
Lemma cstr_at_hit us p out n pre rest :
  out = read_bytes us p (length out) -> no_nul us p (length out) ->
  Z.of_nat (length out) + n <= Z.of_nat PATH_MAX -> 0 <= n ->
  range_ok us false (p + Z.of_nat (length out)) n ->
  read_bytes us (p + Z.of_nat (length out)) (Z.to_nat n) = pre ++ x00 :: rest -> x00 ∉ pre ->
  cstr_at us p (out ++ pre).
Proof.
  intros Hout Hn Hmax Hn0 Hr Hbs H0.
  assert (Hlen := length_read_bytes us (p + Z.of_nat (length out)) (Z.to_nat n)).
  rewrite Hbs, length_app in Hlen. cbn [length] in Hlen.
  unfold cstr_at. rewrite length_app. split_and!; [lia| | |].
  - apply no_nul_app. split; [done|]. by apply (no_nul_prefix us _ n (Z.to_nat n) (x00 :: rest)).
  - eapply range_readable; [done|]. lia.
  - rewrite <- Nat.add_succ_r, read_bytes_app, <- Hout, <- app_assoc. f_equal.
    replace (Z.to_nat n) with (S (length pre) + length rest)%nat in Hbs by lia.
    rewrite read_bytes_app in Hbs. change (pre ++ x00 :: rest) with (pre ++ [x00] ++ rest) in Hbs.
    rewrite app_assoc in Hbs. apply app_inj_1 in Hbs as [Hbs _]; [done|].
    rewrite length_read_bytes, length_app. cbn [length]. lia.
Qed.

(** At the limit the loop gives up. *)
Lemma cstr_loop_full us fuel addr out :
  length out = PATH_MAX -> 0 <= addr <= USER_SPACE_END + 4096 ->
  cstr_loop (S fuel) addr out us = (Fail EINVAL, us).
Proof.
  intros Hl Ha. cbn [cstr_loop].
  pose proof (page_of_bounds addr). unfold u64_add, pbind, USER_SPACE_END in *.
  rewrite page_end_eq, Hl, Z.sub_diag, !checked_spec by (unfold in_width, U64; lia). cbn [punwrap pret].
  rewrite Z.min_r by lia. done.
Qed.

Lemma wp_cstr_loop us p fuel out :
  0 <= p -> p + Z.of_nat (length out) <= USER_SPACE_END ->
  out = read_bytes us p (length out) -> no_nul us p (length out) ->
  (length out <= PATH_MAX)%nat -> (PATH_MAX - length out < fuel)%nat ->
  wp (cstr_loop fuel (p + Z.of_nat (length out)) out)
    (fun s us' => us' = us /\ cstr_at us p s)
    (fun e us' => us' = us /\ (e = EINVAL /\ no_nul us p PATH_MAX \/ e = EFAULT /\ cstr_faults us p)) us.
Proof.
  revert out. induction fuel as [|fuel IH]; intros out Hp He Hout Hn Hl Hf; [lia|].
  destruct (decide (length out = PATH_MAX)) as [Hfull|Hfull].
  { unfold wp. rewrite cstr_loop_full; [|done|lia]. rewrite Hfull in Hn. auto. }
  cbn [cstr_loop]. set (addr := p + Z.of_nat (length out)) in *.
  pose proof (page_of_bounds addr) as Hb. unfold USER_SPACE_END in He.
  apply wp_bind. unfold u64_add. rewrite page_end_eq.
  eapply wp_unwrap; [apply checked_spec; unfold in_width, U64; lia|].
  apply wp_bind. eapply wp_unwrap; [apply checked_spec; unfold in_width, U64, PATH_MAX in *; lia|].
  set (n := Z.min _ _) in *. destruct (n =? 0) eqn:Hc; zbool; [lia|].
  apply wp_bind. eapply wp_mono; [apply wp_with_user_bytes; lia| |].
  - intros bytes us' (-> & Hr & Hbs).
    destruct (push_until_nul_spec bytes out) as [(pre & rest & -> & H0 & ->)|[H0 ->]].
    { apply wp_ret. split; [done|]. eapply (cstr_at_hit us p out n); eauto; lia. }
    assert (Hlb : length bytes = Z.to_nat n) by (rewrite Hbs; apply length_read_bytes).
    assert (Hlo : length (out ++ bytes) = (length out + Z.to_nat n)%nat) by (rewrite length_app; lia).
    assert (Hn' : no_nul us p (length (out ++ bytes))).
    { rewrite Hlo. apply no_nul_app. split; [done|]. rewrite <- Hlb.
      apply (no_nul_prefix us addr n (Z.to_nat n) []); rewrite ?app_nil_r; done. }
    pose proof (proj1 Hr) as Hend. unfold USER_SPACE_END in Hend.
    destruct (decide (length (out ++ bytes) = PATH_MAX)) as [Hfull'|].
    + destruct fuel; [lia|]. unfold wp. rewrite cstr_loop_full; [|done|].
      * rewrite Hfull' in Hn'. auto.
      * unfold USER_SPACE_END. lia.
    + replace (page_of addr + 4096) with (p + Z.of_nat (length (out ++ bytes))) by lia.
      apply IH; [done|unfold USER_SPACE_END; lia| |done|lia|lia].
      rewrite Hlo, read_bytes_app, <- Hout. by rewrite Hbs.
  - intros e us' (-> & -> & Hr). split; [done|]. right. split; [done|].
    exists (length out). split_and!; [lia|done|]. intros Hrd. apply Hr.
    apply chunk_readable; [lia..|done].
Qed.

Lemma wp_read_user_cstr us p :
  0 <= p ->
  wp (read_user_cstr p)
    (fun s us' => us' = us /\ cstr_at us p s)
    (fun e us' => us' = us /\ (e = EINVAL /\ no_nul us p PATH_MAX \/ e = EFAULT /\ cstr_faults us p)) us.
Proof.
  intros Hp. unfold read_user_cstr. apply wp_bind, wp_validate; [done|lia| |]; intros He.
  - pose proof (wp_cstr_loop us p (S PATH_MAX) []) as H. rewrite Z.add_0_r in H.
    apply H; try done; cbn [length]; try lia. intros a Ha. lia.
  - split; [done|]. right. split; [done|]. exists 0%nat. split_and!; [unfold PATH_MAX; lia| |].
    + intros a Ha. lia.
    + intros [Hr _]. lia.
Qed.

(** ** Theorems *)

(** C10. Every access of the system-call layer to user memory is checked exactly:
    for any pointer and length, [with_user_bytes] and [copy_to_user] neither
    fault nor overflow; they succeed if and only if the whole range lies below
    [USER_SPACE_END] on pages mapped for the user (and writable, for a store),
    they deliver exactly the bytes of the range and change no byte outside it,
    and a refused access is [EFAULT] and changes nothing. *)
Theorem uaccess_exact us ptr len src :
  in_width U64 ptr -> in_width U64 len ->
  wp (with_user_bytes ptr len)
    (fun bytes us' => us' = us /\ range_ok us false ptr len /\ bytes = read_bytes us ptr (Z.to_nat len))
    (fun e us' => us' = us /\ e = EFAULT /\ ~ range_ok us false ptr len) us /\
  wp (copy_to_user ptr src)
    (fun _ us' => range_ok us true ptr (Z.of_nat (length src)) /\ us_pages us' = us_pages us /\
       read_bytes us' ptr (length src) = src /\
       forall a, ~ (ptr <= a < ptr + Z.of_nat (length src)) -> byte_at us' a = byte_at us a)
    (fun e us' => us' = us /\ e = EFAULT /\ ~ range_ok us true ptr (Z.of_nat (length src))) us.
Proof.
  intros [Hp _] [Hl _]. split; [by apply wp_with_user_bytes|].
  eapply wp_mono; [by apply wp_copy_to_user| |done]. intros [] us' [Hr ->].
  split_and!; [done|done|apply read_write_same|]. intros. by apply byte_at_write_out.
Qed.

(** Two user pages, the second read-only, and a kernel page after them. *)
Definition sample_space : UserSpace :=
  {| us_pages := <[0x1000 := (true, true)]> (<[0x2000 := (true, false)]> (<[0x3000 := (false, true)]> ∅));
     us_mem := poke 0x1ffe (bs "/bin" ++ [x00]) ∅ |}.

Lemma uaccess_exact_witness :
  with_user_bytes 0x1ffe 5 sample_space = (Ret (bs "/bin" ++ [x00]), sample_space) /\
  copy_to_user 0x1ffe (bs "/bin") sample_space = (Fail EFAULT, sample_space) /\
  wp (copy_to_user 0x1ffe (bs "ab"))
    (fun _ us' => range_ok sample_space true 0x1ffe 2 /\ us_pages us' = us_pages sample_space /\
       read_bytes us' 0x1ffe 2 = bs "ab" /\
       forall a, ~ (0x1ffe <= a < 0x1ffe + 2) -> byte_at us' a = byte_at sample_space a)
    (fun e us' => us' = sample_space /\ e = EFAULT /\ ~ range_ok sample_space true 0x1ffe 2) sample_space.
Proof.
  split; [vm_compute; reflexivity|]. split; [vm_compute; reflexivity|].
  apply (uaccess_exact sample_space 0x1ffe 5 (bs "ab")); unfold in_width, U64; lia.
Defined.

(** [read_user_cstr] returns the string exactly when a NUL-terminated string
    of fewer than [PATH_MAX] readable bytes starts at the pointer, [EINVAL]
    exactly when [PATH_MAX] readable bytes hold no NUL, and [EFAULT] when an
    unreadable byte comes first; it terminates, never faults, and never reads
    the page after the terminator. *)
Theorem read_user_cstr_exact us p :
  in_width U64 p ->
  wp (read_user_cstr p)
    (fun s us' => us' = us /\ cstr_at us p s)
    (fun e us' => us' = us /\
       (e = EINVAL /\ no_nul us p PATH_MAX \/ e = EFAULT /\ cstr_faults us p)) us.
Proof. intros [? _]. by apply wp_read_user_cstr. Qed.

Lemma read_user_cstr_exact_witness :
  read_user_cstr 0x1ffe sample_space = (Ret (bs "/bin"), sample_space) /\
  cstr_at sample_space 0x1ffe (bs "/bin").
Proof.
  assert (E : read_user_cstr 0x1ffe sample_space = (Ret (bs "/bin"), sample_space))
    by (vm_compute; reflexivity).
  split; [exact E|].
  assert (H := read_user_cstr_exact sample_space 0x1ffe ltac:(unfold in_width, U64; lia)).
  unfold wp in H. rewrite E in H. exact (proj2 H).
Defined.
