(* ===== verification/Mem.v ===== *)
(** * Memory by bytes

    Reading and writing a finite map from addresses to bytes: [peek] and [poke] a
    list, [rd] and [wr] a little-endian number. *)

From stdpp Require Import base numbers list gmap.
From Stdlib Require Import ZArith Lia.
From S2P Require Import Prelude Uaccess.
#[local] Open Scope Z_scope.

Definition peek (m : gmap Z byte) (a : Z) (n : nat) : list byte := (fun i => default x00 (m !! (a + Z.of_nat i))) <$> seq 0 n.

(** A little-endian number of [n] bytes. *)
Definition rd (m : gmap Z byte) (a : Z) (n : nat) : Z := from_le (peek m a n).
Definition wr (m : gmap Z byte) (a : Z) (n : nat) (x : Z) : gmap Z byte := poke a (to_le n x) m.

Lemma length_peek m a n : length (peek m a n) = n.
Proof. unfold peek. by rewrite length_fmap, length_seq. Qed.

Lemma peek_ext m m' a n : (forall x, a <= x < a + Z.of_nat n -> m' !! x = m !! x) -> peek m' a n = peek m a n.
Proof. intros Hx. unfold peek. apply list_fmap_ext. intros i j [-> Hi]%lookup_seq. rewrite Hx by lia. done. Qed.

Lemma peek_poke_out m a l b n :
  b + Z.of_nat n <= a \/ a + Z.of_nat (length l) <= b -> peek (poke a l m) b n = peek m b n.
Proof. intros Hd. apply peek_ext. intros x Hx. apply lookup_poke_out. lia. Qed.

Lemma peek_poke_same m a l : peek (poke a l m) a (length l) = l.
Proof.
  apply list_eq. intros i. unfold peek. rewrite list_lookup_fmap. destruct (decide (i < length l)%nat) as [Hi|Hi].
  - rewrite lookup_seq_lt by done. destruct (lookup_lt_is_Some_2 l i Hi) as [b Hb]. cbn. rewrite Hb.
    by rewrite (lookup_poke_in _ _ _ _ _ Hb).
  - rewrite (lookup_ge_None_2 l), lookup_seq_ge by lia. done.
Qed.

Lemma rd_wr_same m a n x : rd (wr m a n x) a n = x mod 256 ^ Z.of_nat n.
Proof. unfold rd, wr. rewrite <- from_to_le. f_equal. rewrite <- (length_to_le n x) at 2. apply peek_poke_same. Qed.

Lemma rd_wr_eq m a b n x : a = b -> 0 <= x < 256 ^ Z.of_nat n -> rd (wr m a n x) b n = x.
Proof. intros -> Hx. rewrite rd_wr_same. by apply Z.mod_small. Qed.

Lemma rd_poke_out m a l b n : b + Z.of_nat n <= a \/ a + Z.of_nat (length l) <= b -> rd (poke a l m) b n = rd m b n.
Proof. intros Hd. unfold rd. by rewrite peek_poke_out. Qed.

Lemma rd_wr_out m a n x b n' : b + Z.of_nat n' <= a \/ a + Z.of_nat n <= b -> rd (wr m a n x) b n' = rd m b n'.
Proof. intros Hd. apply rd_poke_out. rewrite length_to_le. lia. Qed.

Lemma peek_wr_out m a n x b n' : b + Z.of_nat n' <= a \/ a + Z.of_nat n <= b -> peek (wr m a n x) b n' = peek m b n'.
Proof. intros Hd. apply peek_poke_out. rewrite length_to_le. lia. Qed.

Lemma rd_ext m m' a n : (forall x, a <= x < a + Z.of_nat n -> m' !! x = m !! x) -> rd m' a n = rd m a n.
Proof. intros Hx. unfold rd. by rewrite (peek_ext m m'). Qed.

Lemma rd_range m a n : 0 <= rd m a n < 256 ^ Z.of_nat n.
Proof. unfold rd. pose proof (from_le_range (peek m a n)) as Hr. rewrite length_peek in Hr. exact Hr. Qed.
