(* ===== verification/Paging.v ===== *)
(** * Mapping user pages

    [map_active_user_page], [unmap_active_user_page] and [map_user_page] of
    [mm/paging.rs].  The frame allocator and the [Mapper] of the [x86_64] crate
    are an interface: what the crate documents of [map_to] and [unmap] is stated
    on the user half of the active address space. *)

From stdpp Require Import base numbers list gmap.
From Stdlib Require Import ZArith Lia.
From S2P Require Import Prelude Abi Uaccess.
#[local] Open Scope Z_scope.

(** The allocator state [F] with the two halves of the crate's [Mapper]. *)
Class Mapper (F : Type) : Type := {
  allocate_frame : F -> option Z * F;
  deallocate_frame : Z -> F -> F;
  (** [map_to(page, frame, PRESENT | flags, allocator)]; [false] is an error *)
  map_to : Z -> Z -> bool * bool -> UserSpace -> F -> bool * UserSpace * F;
  (** [unmap(page)]: the frame the page was mapped to *)
  unmap : Z -> UserSpace -> option Z * UserSpace
}.

(** A byte of the page that starts at [page]. *)
Definition on_page (page a : Z) : Prop := page <= a < page + 4096.

(** What the crate documents: a mapped page is an error, a new page appears
    with its flags and the bytes its frame held, everything else stays. *)
Class MapperLaws (F : Type) {M : Mapper F} : Prop := {
  map_to_mapped page frame fl us f x :
    us_pages us !! page = Some x -> (map_to page frame fl us f).1.1 = false;
  map_to_ok page frame fl us f us' f' :
    map_to page frame fl us f = (true, us', f') ->
    us_pages us' = <[page := fl]> (us_pages us) /\
    forall a, ~ on_page page a -> byte_at us' a = byte_at us a;
  map_to_err page frame fl us f us' f' :
    map_to page frame fl us f = (false, us', f') -> us' = us;
  (** an unmapped page fails only for want of frames for the tables *)
  map_to_oom page frame fl us f us' f' :
    map_to page frame fl us f = (false, us', f') -> us_pages us !! page = None ->
    (allocate_frame f').1 = None;
  unmap_ok page us frame us' :
    unmap page us = (Some frame, us') ->
    us_pages us' = delete page (us_pages us) /\
    forall a, ~ on_page page a -> byte_at us' a = byte_at us a;
  unmap_none page us us' :
    unmap page us = (None, us') -> us' = us /\ us_pages us !! page = None
}.

Section Paging.
Context {F : Type} {M : Mapper F} {E : Type}.

(** The active address space and the global allocator, once installed. *)
Definition Mm : Type := (UserSpace * option F)%type.

(** The zeroing of a fresh page, through its user address. *)
Definition zero_page (page : Z) : prog Mm E unit :=
  let! '(us, g) := pget in
  passert (present us true page) ;;!
  pput (write_bytes page (zeros 4096) us, g).

Definition map_active_user_page (page : Z) : prog Mm E bool :=
  let! '(us, g) := pget in
  match g with
  | None => pret false
  | Some fa =>
      match allocate_frame fa with
      | (None, fa1) => pput (us, Some fa1) ;;! pret false
      | (Some frame, fa1) =>
          match map_to page frame (true, true) us fa1 with
          | (true, us', fa2) =>
              pput (us', Some fa2) ;;!
              zero_page page ;;!
              pret true
          | (false, us', fa2) =>
              pput (us', Some (deallocate_frame frame fa2)) ;;!
              pret false
          end
      end
  end.

Definition unmap_active_user_page (page : Z) : prog Mm E unit :=
  let! '(us, g) := pget in
  match unmap page us with
  | (Some frame, us') => pput (us', deallocate_frame frame <$> g)
  | (None, us') => pput (us', g)
  end.

(** [map_user_page]: no frame, or a page mapped already, is a panic. *)
Definition map_user_page (page : Z) : prog (UserSpace * F) E unit :=
  let! '(us, fa) := pget in
  let '(o, fa1) := allocate_frame fa in
  let! frame := punwrap o in
  let '(ok, us', fa2) := map_to page frame (true, true) us fa1 in
  pput (us', fa2) ;;!
  passert ok.

(** ** Specifications *)

Context {L : MapperLaws F}.

Lemma page_present us page u :
  page mod 4096 = 0 -> us_pages us !! page = Some (u, true) -> present us true page = true.
Proof. intros Hp E1. unfold present, translate. rewrite (page_of_same page) by (done || lia). by rewrite E1. Qed.

Lemma byte_at_zeros us page n a :
  page <= a < page + Z.of_nat n -> byte_at (write_bytes page (zeros n) us) a = x00.
Proof.
  intros Ha. unfold byte_at, write_bytes, zeros. cbn [us_mem].
  rewrite (lookup_poke_in' page (replicate n x00) _ a x00); [done| |lia].
  apply lookup_replicate. split; [done|lia].
Qed.

Lemma wp_map_active_user_page us g page :
  page mod 4096 = 0 ->
  wp (map_active_user_page page)
    (fun ok mm => if ok : bool
       then us_pages us !! page = None /\ us_pages mm.1 = <[page := (true, true)]> (us_pages us) /\
            (forall a, on_page page a -> byte_at mm.1 a = x00) /\
            (forall a, ~ on_page page a -> byte_at mm.1 a = byte_at us a)
       else mm.1 = us)
    (fun _ _ => False) (us, g).
Proof.
  intros Hp. unfold map_active_user_page. apply wp_bind, wp_get. cbn [fst snd].
  destruct g as [fa|]; [|by apply wp_ret].
  destruct (allocate_frame fa) as [[frame|] fa1]; [|by apply wp_bind].
  destruct (map_to page frame (true, true) us fa1) as [[[] us'] fa2] eqn:Em.
  - apply wp_bind, wp_put.
    destruct (map_to_ok _ _ _ _ _ _ _ Em) as [Hpg Hb].
    apply wp_bind. unfold zero_page. apply wp_bind, wp_get, wp_bind, wp_assert.
    { apply (page_present _ _ true); [done|]. by rewrite Hpg, lookup_insert_eq. }
    apply wp_put, wp_ret. cbn [fst]. split_and!.
    + destruct (us_pages us !! page) as [x|] eqn:Ex; [|done].
      pose proof (map_to_mapped page frame (true, true) us fa1 x Ex) as H. by rewrite Em in H.
    + done.
    + intros a Ha. apply byte_at_zeros. exact Ha.
    + intros a Ha. rewrite byte_at_write_out by (rewrite length_zeros; exact Ha). by apply Hb.
  - apply wp_bind, wp_put, wp_ret. cbn [fst]. by eapply map_to_err.
Qed.

Lemma wp_unmap_active_user_page us g page :
  wp (unmap_active_user_page page)
    (fun _ mm => us_pages mm.1 = delete page (us_pages us) /\
                 forall a, ~ on_page page a -> byte_at mm.1 a = byte_at us a)
    (fun _ _ => False) (us, g).
Proof.
  unfold unmap_active_user_page. apply wp_bind, wp_get. cbn [fst snd].
  destruct (unmap page us) as [[frame|] us'] eqn:Eu; unfold pput, wp; cbn [fst].
  - by apply unmap_ok in Eu.
  - apply unmap_none in Eu as [-> Hn]. split; [|done]. by rewrite delete_id.
Qed.
End Paging.

(** ** An instance

    Frames are handed out from a budget, and a fresh frame holds stale bytes. *)

Definition stale : byte := xa5.

Definition stale_frame : list byte := replicate 4096 stale.

#[export] Instance BudgetMapper : Mapper nat := {
  allocate_frame n := match n with O => (None, O) | S n' => (Some (Z.of_nat n), n') end;
  deallocate_frame _ n := S n;
  map_to page _ fl us n :=
    match us_pages us !! page with
    | Some _ => (false, us, n)
    | None =>
        (true, {| us_pages := <[page := fl]> (us_pages us);
                  us_mem := poke page stale_frame (us_mem us) |}, n)
    end;
  unmap page us :=
    match us_pages us !! page with
    | Some _ => (Some 0, {| us_pages := delete page (us_pages us); us_mem := us_mem us |})
    | None => (None, us)
    end
}.

Lemma length_stale_frame : length stale_frame = 4096%nat.
Proof. apply length_replicate. Qed.

#[local] Opaque stale_frame.

#[export] Instance BudgetMapperLaws : MapperLaws nat.
Proof.
  split; unfold map_to, unmap, BudgetMapper.
  - intros page frame fl us f x E. by rewrite E.
  - intros page frame fl us f us' f'. destruct (us_pages us !! page); [done|]. intros [= <- <-].
    split; [done|]. intros a Ha. unfold byte_at. cbn [us_mem].
    rewrite lookup_poke_out; [done|]. rewrite length_stale_frame. exact Ha.
  - intros page frame fl us f us' f'. destruct (us_pages us !! page); [|done]. by intros [= <- <-].
  - intros page frame fl us f us' f'. by destruct (us_pages us !! page).
  - intros page us frame us'. destruct (us_pages us !! page); [|done]. by intros [= <- <-].
  - intros page us us'. destruct (us_pages us !! page) eqn:E; [done|]. by intros [= <-].
Qed.
