(* ===== verification/Elf.v ===== *)
(** * The ELF loader

    [syscall/elf.rs]: a static ELF64 executable is checked and its [PT_LOAD]
    segments are mapped and copied into the active address space. *)

From stdpp Require Import base numbers list gmap.
From Stdlib Require Import ZArith Lia.
From S2P Require Import Prelude Abi Uaccess Paging.
#[local] Open Scope Z_scope.

Inductive ElfError : Type :=
| TooSmall | BadMagic | NotElf64 | NotExecutable | NotX86_64 | BadProgramHeaderSize
| SegmentOutOfFile | FileSizeExceedsMemSize | SegmentNotInUserSpace | SegmentOverlapsExisting.

Definition ET_EXEC : Z := 2.
Definition EM_X86_64 : Z := 0x3E.
Definition PT_LOAD : Z := 1.
Definition PH_ENTRY_SIZE : Z := 56.

Section Elf.
Context {F : Type} {M : Mapper F}.
#[local] Abbreviation eprog := (prog (UserSpace * F) ElfError).

(** [bytes.get(off..off + n)], read as a little-endian number. *)
Definition read_le (n : nat) (bytes : list byte) (off : Z) : eprog Z :=
  let! end_ := u64_add off (Z.of_nat n) in
  if end_ <=? Z.of_nat (length bytes) then pret (from_le (slice bytes (Z.to_nat off) n)) else pfail TooSmall.

Definition read_u16 : list byte -> Z -> eprog Z := read_le 2.
Definition read_u32 : list byte -> Z -> eprog Z := read_le 4.
Definition read_u64 : list byte -> Z -> eprog Z := read_le 8.

Definition VirtAddr_new (a : Z) : eprog Z :=
  passert ((a <? 2 ^ 47) || (2 ^ 64 - 2 ^ 47 <=? a)) ;;! pret a.

(** [Page::range_inclusive(first, last)], as start addresses. *)
Definition page_range (first last : Z) : list Z :=
  (fun i => first + 4096 * i) <$> seqZ 0 ((last - first) / 4096 + 1).

(** The body of the page loop. *)
Definition map_segment_page (mapped : gset Z) (start : Z) : eprog (gset Z) :=
  if bool_decide (start ∈ mapped) then pret mapped
  else
    let! '(us, _) := pget in
    match us_pages us !! start with
    | Some _ => pfail SegmentOverlapsExisting
    | None => map_user_page start ;;! pret ({[start]} ∪ mapped)
    end.

(** A store through user addresses while the address space is active. *)
Definition store (ptr : Z) (src : list byte) : eprog unit :=
  let! '(us, fa) := pget in
  passert (forallb (fun i => present us true (ptr + Z.of_nat i)) (seq 0 (length src))) ;;!
  pput (write_bytes ptr src us, fa).

(** The pages and the bytes of a checked segment. *)
Definition place_segment (bytes : list byte) (p_offset p_vaddr p_filesz p_memsz : Z) (mapped : gset Z) : eprog (gset Z) :=
  let! first := VirtAddr_new p_vaddr in
  let! last := VirtAddr_new (p_vaddr + p_memsz - 1) in
  let! mapped' := pfold map_segment_page (page_range (page_of first) (page_of last)) mapped in
  (store p_vaddr (slice bytes (Z.to_nat p_offset) (Z.to_nat p_filesz)) ;;!
   let bss := p_memsz - p_filesz in
   if 0 <? bss then store (p_vaddr + p_filesz) (zeros (Z.to_nat bss)) else pret tt) ;;!
  pret mapped'.

(** The body of the loop over the program headers. *)
Definition load_segment (bytes : list byte) (phoff phentsize : Z) (mapped : gset Z) (i : Z) : eprog (gset Z) :=
  let! ph := u64_add phoff (i * phentsize) in
  let! p_type := read_u32 bytes ph in
  if negb (p_type =? PT_LOAD) then pret mapped
  else
    let! p_offset := read_u64 bytes (ph + 0x08) in
    let! p_vaddr := read_u64 bytes (ph + 0x10) in
    let! p_filesz := read_u64 bytes (ph + 0x20) in
    let! p_memsz := read_u64 bytes (ph + 0x28) in
    let! file_end := pok_or (checked U64 (p_offset + p_filesz)) SegmentOutOfFile in
    if Z.of_nat (length bytes) <? file_end then pfail SegmentOutOfFile
    else if p_memsz <? p_filesz then pfail FileSizeExceedsMemSize
    else
      let! mem_end := pok_or (checked U64 (p_vaddr + p_memsz)) SegmentNotInUserSpace in
      if USER_SPACE_END <? mem_end then pfail SegmentNotInUserSpace
      else if p_memsz =? 0 then pret mapped
      else place_segment bytes p_offset p_vaddr p_filesz p_memsz mapped.

Definition load (bytes : list byte) : eprog Z :=
  if (length bytes <? 64)%nat then pfail TooSmall
  else if negb (bytes_eqb (slice bytes 0 4) (x7f :: bs "ELF")) then pfail BadMagic
  else if negb (u8_at bytes 4 =? 2) then pfail NotElf64
  else
    let! e_type := read_u16 bytes 0x10 in
    if negb (e_type =? ET_EXEC) then pfail NotExecutable
    else
      let! e_machine := read_u16 bytes 0x12 in
      if negb (e_machine =? EM_X86_64) then pfail NotX86_64
      else
        let! entry := read_u64 bytes 0x18 in
        let! phoff := read_u64 bytes 0x20 in
        let! phentsize := read_u16 bytes 0x36 in
        let! phnum := read_u16 bytes 0x38 in
        if phentsize <? PH_ENTRY_SIZE then pfail BadProgramHeaderSize
        else
          let! table := pok_or (checked U64 (phnum * phentsize)) TooSmall in
          let! ph_table_end := pok_or (checked U64 (phoff + table)) TooSmall in
          if Z.of_nat (length bytes) <? ph_table_end then pfail TooSmall
          else
            pfold (load_segment bytes phoff phentsize) (seqZ 0 phnum) ∅ ;;!
            pret entry.
End Elf.

(** ** Specification *)

Record Phdr : Type := mkPhdr { p_type : Z; p_offset : Z; p_vaddr : Z; p_filesz : Z; p_memsz : Z }.

Definition field (n : nat) (bytes : list byte) (off : Z) : Z := from_le (slice bytes (Z.to_nat off) n).

Definition phdr_at (bytes : list byte) (off : Z) : Phdr :=
  mkPhdr (field 4 bytes off) (field 8 bytes (off + 0x08)) (field 8 bytes (off + 0x10))
    (field 8 bytes (off + 0x20)) (field 8 bytes (off + 0x28)).

(** The entry point and the program headers of a file, or what is wrong with it. *)
Definition parse_elf (bytes : list byte) : ElfError + Z * list Phdr :=
  let phoff := field 8 bytes 0x20 in
  let phentsize := field 2 bytes 0x36 in
  let phnum := field 2 bytes 0x38 in
  if (length bytes <? 64)%nat then inl TooSmall
  else if negb (bytes_eqb (slice bytes 0 4) (x7f :: bs "ELF")) then inl BadMagic
  else if negb (u8_at bytes 4 =? 2) then inl NotElf64
  else if negb (field 2 bytes 0x10 =? ET_EXEC) then inl NotExecutable
  else if negb (field 2 bytes 0x12 =? EM_X86_64) then inl NotX86_64
  else if phentsize <? PH_ENTRY_SIZE then inl BadProgramHeaderSize
  else if Z.of_nat (length bytes) <? phoff + phnum * phentsize then inl TooSmall
  else inr (field 8 bytes 0x18, (fun i => phdr_at bytes (phoff + i * phentsize)) <$> seqZ 0 phnum).

(** What is wrong with a segment. *)
Definition seg_error (len : Z) (ph : Phdr) : option ElfError :=
  if len <? p_offset ph + p_filesz ph then Some SegmentOutOfFile
  else if p_memsz ph <? p_filesz ph then Some FileSizeExceedsMemSize
  else if USER_SPACE_END <? p_vaddr ph + p_memsz ph then Some SegmentNotInUserSpace
  else None.

Definition covers (ph : Phdr) (a : Z) : Prop :=
  p_type ph = PT_LOAD /\ p_vaddr ph <= a < p_vaddr ph + p_memsz ph.

#[export] Instance covers_dec ph a : Decision (covers ph a).
Proof. unfold covers. apply _. Defined.

(** The byte a segment puts at an address: from the file, or zero behind it. *)
Definition seg_byte (bytes : list byte) (ph : Phdr) (a : Z) : byte :=
  if a - p_vaddr ph <? p_filesz ph then default x00 (bytes !! Z.to_nat (p_offset ph + (a - p_vaddr ph))) else x00.

(** The byte the image has at an address: the last segment over it wins. *)
Definition image_byte (bytes : list byte) (phs : list Phdr) (a : Z) : option byte :=
  foldl (fun acc ph => if decide (covers ph a) then Some (seg_byte bytes ph a) else acc) None phs.

(** A page with a byte of a segment. *)
Definition page_covered (phs : list Phdr) (pg : Z) : Prop :=
  exists ph a, ph ∈ phs /\ covers ph a /\ pg = page_of a.

(** ** Laying out an image *)

(** [us'] is [us] with fresh user pages [P] that hold the bytes of [img]. *)
Record laid (us us' : UserSpace) (P : Z -> Prop) (img : Z -> option byte) : Prop := {
  laid_fresh : forall pg, P pg -> us_pages us !! pg = None;
  laid_in : forall pg, P pg -> us_pages us' !! pg = Some (true, true);
  laid_out : forall pg, ~ P pg -> us_pages us' !! pg = us_pages us !! pg;
  laid_on : forall a b, img a = Some b -> P (page_of a);
  laid_img : forall a b, img a = Some b -> byte_at us' a = b;
  laid_same : forall a, ~ P (page_of a) -> byte_at us' a = byte_at us a
}.

Lemma laid_nil us : laid us us (fun _ => False) (fun _ => None).
Proof. by split. Qed.

Lemma laid_ext us us' (P P' : Z -> Prop) img img' :
  laid us us' P img -> (forall pg, P pg <-> P' pg) -> (forall a, img a = img' a) -> laid us us' P' img'.
Proof.
  intros [L1 L2 L3 L4 L5 L6] HP Hi. split.
  - intros pg H%HP. by apply L1.
  - intros pg H%HP. by apply L2.
  - intros pg H. apply L3. by rewrite HP.
  - intros a b H. rewrite <- Hi in H. by eapply HP, L4.
  - intros a b H. rewrite <- Hi in H. by apply L5.
  - intros a H. apply L6. by rewrite HP.
Qed.

Lemma on_page_of pg a : pg mod 4096 = 0 -> on_page pg a <-> page_of a = pg.
Proof.
  intros Hp. split; [by apply page_of_same|]. intros <-. unfold on_page. pose proof (page_of_bounds a). lia.
Qed.

Lemma laid_page us us1 us2 P img page :
  laid us us1 P img -> page mod 4096 = 0 -> ~ P page -> us_pages us1 !! page = None ->
  us_pages us2 = <[page := (true, true)]> (us_pages us1) ->
  (forall a, ~ on_page page a -> byte_at us2 a = byte_at us1 a) ->
  laid us us2 (fun pg => pg = page \/ P pg) img.
Proof.
  intros [L1 L2 L3 L4 L5 L6] Hal HP Hn Hpg Hb. split.
  - intros pg [->|Hp]; [by rewrite <- L3|by apply L1].
  - intros pg Hp. rewrite Hpg. destruct (decide (pg = page)) as [->|Hne]; [by rewrite lookup_insert_eq|].
    rewrite lookup_insert_ne by done. apply L2. naive_solver.
  - intros pg Hp. rewrite Hpg, lookup_insert_ne by naive_solver. apply L3. naive_solver.
  - intros a b Hi. right. by eapply L4.
  - intros a b Hi. rewrite Hb; [by apply L5|]. rewrite on_page_of by done. intros <-. by eapply HP, L4.
  - intros a Hp. rewrite Hb; [apply L6; naive_solver|]. rewrite on_page_of by done. naive_solver.
Qed.

Lemma laid_store us us1 P img ptr src :
  laid us us1 P img -> (forall a, ptr <= a < ptr + Z.of_nat (length src) -> P (page_of a)) ->
  laid us (write_bytes ptr src us1) P
    (fun a => if decide (ptr <= a < ptr + Z.of_nat (length src)) then src !! Z.to_nat (a - ptr) else img a).
Proof.
  intros [L1 L2 L3 L4 L5 L6] HP. split; [done..| | |].
  - intros a b. case_decide; [intros _; by apply HP|by apply L4].
  - intros a b. case_decide as Ha; intros Hi.
    + unfold byte_at, write_bytes. cbn [us_mem]. by rewrite (lookup_poke_in' ptr src _ a b) by (done || lia).
    + rewrite byte_at_write_out by lia. by apply L5.
  - intros a Ha. rewrite byte_at_write_out; [by apply L6|]. intros Hr. by apply Ha, HP.
Qed.

Lemma image_byte_snoc bytes phs ph a :
  image_byte bytes (phs ++ [ph]) a = if decide (covers ph a) then Some (seg_byte bytes ph a) else image_byte bytes phs a.
Proof. unfold image_byte. by rewrite foldl_app. Qed.

Lemma page_covered_snoc phs ph pg :
  page_covered (phs ++ [ph]) pg <-> page_covered phs pg \/ exists a, covers ph a /\ pg = page_of a.
Proof.
  unfold page_covered. split.
  - intros (ph' & a & [H|H%list_elem_of_singleton]%elem_of_app & Hc & ->); [left|right]; [by eexists _, _|].
    subst. by eexists.
  - intros [(ph' & a & H & Hc & ->)|(a & Hc & ->)]; eexists _, a; (split; [apply elem_of_app|by split]); [by left|].
    right. by apply list_elem_of_singleton.
Qed.

(** The pages of a range of addresses. *)
Lemma elem_of_page_range a n pg :
  0 < n -> pg ∈ page_range (page_of a) (page_of (a + n - 1)) <-> exists x, a <= x < a + n /\ pg = page_of x.
Proof.
  intros Hn. unfold page_range. rewrite list_elem_of_fmap.
  pose proof (page_of_bounds a). pose proof (page_of_bounds (a + n - 1)).
  pose proof (page_of_aligned a) as A1. pose proof (page_of_aligned (a + n - 1)) as A2.
  apply Z.mod_divide in A1 as [k1 E1]; [|done]. apply Z.mod_divide in A2 as [k2 E2]; [|done].
  rewrite E1, E2 in *. replace ((k2 * 4096 - k1 * 4096) / 4096) with (k2 - k1)
    by (replace (k2 * 4096 - k1 * 4096) with ((k2 - k1) * 4096) by lia; by rewrite Z.div_mul).
  split.
  - intros (i & -> & Hi%elem_of_seqZ). exists (Z.max a (k1 * 4096 + 4096 * i)). split; [lia|].
    symmetry. apply page_of_same; [|lia]. replace (k1 * 4096 + 4096 * i) with ((k1 + i) * 4096) by lia. apply Z.mod_mul. done.
  - intros (x & Hx & ->). pose proof (page_of_bounds x). pose proof (page_of_aligned x) as A.
    apply Z.mod_divide in A as [k E]; [|done]. rewrite E in *. exists (k - k1). split; [lia|]. apply elem_of_seqZ. lia.
Qed.

Section Load.
Context {F : Type} `{ML : MapperLaws F}.
#[local] Abbreviation eprog := (prog (UserSpace * F) ElfError).
Implicit Types mm : (UserSpace * F)%type.

(** The allocator has no frame left. *)
Definition oom mm : Prop := (allocate_frame mm.2).1 = None.

(** What was mapped before is as it was. *)
Definition intact (us us' : UserSpace) : Prop :=
  forall pg x, us_pages us !! pg = Some x ->
    us_pages us' !! pg = Some x /\ forall a, page_of a = pg -> byte_at us' a = byte_at us a.

Lemma laid_intact us us' P img : laid us us' P img -> intact us us'.
Proof.
  intros [L1 L2 L3 L4 L5 L6] pg x Hx. assert (HP : ~ P pg) by (intros H%L1; congruence).
  split; [by rewrite L3|]. intros a <-. by apply L6.
Qed.

Lemma wpp_map_user_page {E} page mm (Q : unit -> UserSpace * F -> Prop) (X : E -> UserSpace * F -> Prop) :
  us_pages mm.1 !! page = None ->
  (forall us' fa', us_pages us' = <[page := (true, true)]> (us_pages mm.1) ->
     (forall a, ~ on_page page a -> byte_at us' a = byte_at mm.1 a) -> Q tt (us', fa')) ->
  wpp (map_user_page page) Q X oom mm.
Proof.
  intros Hn HQ. destruct mm as [us fa]. unfold wpp, map_user_page, pbind, pget. cbn [fst snd] in *.
  destruct (allocate_frame fa) as [[frame|] fa1] eqn:Ea; cbn; [|unfold oom; cbn; by rewrite Ea].
  destruct (map_to page frame (true, true) us fa1) as [[ok us'] fa2] eqn:Em. unfold pput. cbn.
  destruct ok; cbn; [|by eapply map_to_oom].
  destruct (map_to_ok _ _ _ _ _ _ _ Em). by apply HQ.
Qed.

Lemma wpp_map_pages us img pages : forall mapped mm (Q : gset Z -> UserSpace * F -> Prop) (X : ElfError -> UserSpace * F -> Prop),
  Forall (fun pg => pg mod 4096 = 0) pages -> laid us mm.1 (.∈ mapped) img ->
  (forall mapped' mm', laid us mm'.1 (.∈ mapped') img -> (forall pg, pg ∈ mapped' <-> pg ∈ mapped \/ pg ∈ pages) ->
     Q mapped' mm') ->
  (forall mm' pg, intact us mm'.1 -> pg ∈ pages -> is_Some (us_pages us !! pg) -> X SegmentOverlapsExisting mm') ->
  wpp (pfold map_segment_page pages mapped) Q X oom mm.
Proof.
  induction pages as [|pg pages IH]; intros mapped mm Q X Hal HL HQ HX; cbn [pfold].
  { apply wpp_wp, wp_ret, HQ; [done|]. intros pg. set_solver. }
  apply Forall_cons in Hal as [Hpg Hal]. apply wpp_bind. unfold map_segment_page at 1.
  destruct (bool_decide (pg ∈ mapped)) eqn:Em.
  - apply bool_decide_eq_true in Em. apply wpp_wp, wp_ret, IH; [done..| |].
    + intros mapped' mm' L' Hm. apply HQ; [done|]. intros p. rewrite Hm. set_solver.
    + intros mm' p Hi Hp. apply (HX mm' p Hi). by right.
  - apply bool_decide_eq_false in Em. apply wpp_bind, wpp_wp, wp_get. destruct mm as [us1 fa1]. cbn [fst] in HL.
    destruct (us_pages us1 !! pg) eqn:Ep.
    { apply wpp_wp, wp_fail. apply (HX _ pg); [by eapply laid_intact|by left|].
      rewrite <- (laid_out _ _ _ _ HL pg Em), Ep. by eexists. }
    apply wpp_bind, wpp_map_user_page; [done|]. intros us2 fa2 Hp2 Hb2. apply wpp_wp, wp_ret, IH; [done| | |].
    + eapply laid_ext; [by eapply laid_page| |done]. intros p. cbn [fst]. set_solver.
    + intros mapped' mm' L' Hm. apply HQ; [done|]. intros p. rewrite Hm. set_solver.
    + intros mm' p Hi Hp. apply (HX mm' p Hi). by right.
Qed.

Lemma wpp_store us P img mm ptr src (Q : unit -> UserSpace * F -> Prop) (X : ElfError -> UserSpace * F -> Prop) :
  laid us mm.1 P img -> (forall a, ptr <= a < ptr + Z.of_nat (length src) -> P (page_of a)) ->
  (forall mm', laid us mm'.1 P
     (fun a => if decide (ptr <= a < ptr + Z.of_nat (length src)) then src !! Z.to_nat (a - ptr) else img a) -> Q tt mm') ->
  wpp (store ptr src) Q X oom mm.
Proof.
  intros HL HP HQ. apply wpp_wp. destruct mm as [us1 fa1]. unfold store. apply wp_bind, wp_get. cbn [fst] in *.
  apply wp_bind, wp_assert.
  - apply forallb_forall. intros i Hi. apply in_seq in Hi. unfold present, translate.
    rewrite (laid_in _ _ _ _ HL) by (apply HP; lia). done.
  - apply wp_put, HQ. by apply laid_store.
Qed.

Lemma wpp_read_le n bytes off mm (Q : Z -> UserSpace * F -> Prop) X P :
  0 <= off -> off + Z.of_nat n <= Z.of_nat (length bytes) -> Z.of_nat (length bytes) < U64 ->
  Q (field n bytes off) mm -> wpp (read_le n bytes off) Q X P mm.
Proof.
  intros Ho Hn Hlen HQ. apply wpp_wp. unfold read_le. apply wp_bind.
  eapply wp_unwrap; [apply checked_spec; unfold in_width; lia|]. rewrite (proj2 (Z.leb_le _ _)) by done. by apply wp_ret.
Qed.

Lemma field_range n bytes off : 0 <= field n bytes off.
Proof. apply from_le_range. Qed.

Lemma field_bound n bytes off : 0 <= field n bytes off < 256 ^ Z.of_nat n.
Proof.
  unfold field. pose proof (from_le_range (slice bytes (Z.to_nat off) n)) as Hr.
  assert (length (slice bytes (Z.to_nat off) n) <= n)%nat by (unfold slice; rewrite length_take; lia).
  assert (256 ^ Z.of_nat (length (slice bytes (Z.to_nat off) n)) <= 256 ^ Z.of_nat n) by (apply Z.pow_le_mono_r; lia).
  lia.
Qed.

(** The image after the bytes of a segment were stored. *)
Lemma seg_image bytes phs ph a :
  p_type ph = PT_LOAD -> 0 <= p_offset ph -> 0 <= p_filesz ph <= p_memsz ph ->
  p_offset ph + p_filesz ph <= Z.of_nat (length bytes) ->
  let file := slice bytes (Z.to_nat (p_offset ph)) (Z.to_nat (p_filesz ph)) in
  let img := fun a => if decide (p_vaddr ph <= a < p_vaddr ph + Z.of_nat (length file))
                      then file !! Z.to_nat (a - p_vaddr ph) else image_byte bytes phs a in
  let bss := zeros (Z.to_nat (p_memsz ph - p_filesz ph)) in
  (if decide (p_vaddr ph + p_filesz ph <= a < p_vaddr ph + p_filesz ph + Z.of_nat (length bss))
   then bss !! Z.to_nat (a - (p_vaddr ph + p_filesz ph)) else img a) = image_byte bytes (phs ++ [ph]) a.
Proof.
  intros Ht Ho Hf Hlen file img bss. rewrite image_byte_snoc.
  assert (Lf : Z.of_nat (length file) = p_filesz ph) by (unfold file; rewrite length_slice; lia).
  assert (Lb : Z.of_nat (length bss) = p_memsz ph - p_filesz ph) by (unfold bss; rewrite length_zeros; lia).
  rewrite Lb. unfold img. rewrite Lf. unfold covers, seg_byte. case_decide.
  - rewrite decide_True by (split; [done|lia]). rewrite (proj2 (Z.ltb_ge _ _)) by lia.
    apply lookup_replicate. split; [done|lia].
  - case_decide.
    + rewrite decide_True by (split; [done|lia]). rewrite (proj2 (Z.ltb_lt _ _)) by lia.
      unfold file. rewrite lookup_slice by lia.
      replace (Z.to_nat (p_offset ph) + Z.to_nat (a - p_vaddr ph))%nat
        with (Z.to_nat (p_offset ph + (a - p_vaddr ph))) by lia.
      destruct (bytes !! _) eqn:E; [done|]. apply lookup_ge_None in E. lia.
    + by rewrite decide_False by (intros [_ ?]; lia).
Qed.

(** The state between two segments. *)
Definition loaded us bytes (phs : list Phdr) (mapped : gset Z) mm : Prop :=
  laid us mm.1 (.∈ mapped) (image_byte bytes phs) /\ forall pg, pg ∈ mapped <-> page_covered phs pg.

Lemma loaded_skip us bytes phs mapped mm ph :
  loaded us bytes phs mapped mm -> (forall a, ~ covers ph a) -> loaded us bytes (phs ++ [ph]) mapped mm.
Proof.
  intros [L Hm] Hc. split.
  - eapply laid_ext; [done|done|]. intros a. rewrite image_byte_snoc. by rewrite decide_False.
  - intros pg. rewrite page_covered_snoc, Hm. naive_solver.
Qed.

(** The stores of a segment whose pages are mapped. *)
Lemma wpp_fill us bytes phs ph (mapped : gset Z) mm (Q : unit -> UserSpace * F -> Prop) X :
  p_type ph = PT_LOAD -> 0 <= p_offset ph -> 0 <= p_filesz ph <= p_memsz ph ->
  p_offset ph + p_filesz ph <= Z.of_nat (length bytes) ->
  laid us mm.1 (.∈ mapped) (image_byte bytes phs) -> (forall a, covers ph a -> page_of a ∈ mapped) ->
  (forall mm', laid us mm'.1 (.∈ mapped) (image_byte bytes (phs ++ [ph])) -> Q tt mm') ->
  wpp (store (p_vaddr ph) (slice bytes (Z.to_nat (p_offset ph)) (Z.to_nat (p_filesz ph))) ;;!
       (if 0 <? p_memsz ph - p_filesz ph
        then store (p_vaddr ph + p_filesz ph) (zeros (Z.to_nat (p_memsz ph - p_filesz ph))) else pret tt))
    Q X oom mm.
Proof.
  intros Ht Ho Hf Hlen L Hc HQ. pose proof (seg_image bytes phs ph) as Himg. cbv zeta in Himg.
  set (file := slice _ _ _) in *. assert (Lf : Z.of_nat (length file) = p_filesz ph) by (unfold file; rewrite length_slice; lia).
  apply wpp_bind. eapply wpp_store; [exact L| |].
  { intros a Ha. apply Hc. split; [done|lia]. }
  intros mm1 L1. destruct (0 <? _) eqn:Eb; zbool.
  - eapply wpp_store; [exact L1| |].
    { rewrite length_zeros. intros a Ha. apply Hc. split; [done|lia]. }
    intros mm2 L2. apply HQ. eapply laid_ext; [exact L2|done|]. intros a. by apply Himg.
  - apply wpp_wp, wp_ret, HQ. eapply laid_ext; [exact L1|done|]. intros a. rewrite <- Himg by done.
    rewrite (decide_False (P := p_vaddr ph + p_filesz ph <= a < _)) by (rewrite length_zeros; lia). done.
Qed.

(** A page of the segment was mapped before. *)
Definition overlaps us ph : Prop := exists a, covers ph a /\ is_Some (us_pages us !! page_of a).

Lemma place_segment_spec us bytes phs ph (mapped : gset Z) mm (X : ElfError -> UserSpace * F -> Prop) :
  p_type ph = PT_LOAD -> 0 <= p_offset ph -> 0 <= p_vaddr ph -> 0 <= p_filesz ph <= p_memsz ph -> 0 < p_memsz ph ->
  p_offset ph + p_filesz ph <= Z.of_nat (length bytes) -> p_vaddr ph + p_memsz ph <= USER_SPACE_END ->
  loaded us bytes phs mapped mm -> (forall mm', intact us mm'.1 -> overlaps us ph -> X SegmentOverlapsExisting mm') ->
  wpp (place_segment bytes (p_offset ph) (p_vaddr ph) (p_filesz ph) (p_memsz ph) mapped)
    (loaded us bytes (phs ++ [ph])) X oom mm.
Proof.
  intros Ht Ho Hv Hf Hm Hlen Hend [L Hmap] HX. assert (USER_SPACE_END = 2 ^ 47) as Eu by done. unfold place_segment.
  assert (Hcan : forall a mm (Q : Z -> UserSpace * F -> Prop), a < 2 ^ 47 -> Q a mm -> wpp (VirtAddr_new a) Q X oom mm).
  { intros a mm0 Q Ha HQ. apply wpp_wp. unfold VirtAddr_new. apply wp_bind, wp_assert; [|by apply wp_ret].
    by rewrite (proj2 (Z.ltb_lt _ _) Ha). }
  apply wpp_bind, Hcan; [lia|]. apply wpp_bind, Hcan; [lia|]. apply wpp_bind.
  pose proof (fun pg => elem_of_page_range (p_vaddr ph) (p_memsz ph) pg Hm) as Hr.
  eapply wpp_map_pages; [|exact L| |].
  3:{ intros mm' pg Hi (x & Hx & ->)%Hr Hs. apply HX; [done|]. by exists x. }
  { apply Forall_forall. intros pg (x & _ & ->)%Hr. apply page_of_aligned. }
  intros mapped' mm1 L1 Hm1. apply wpp_bind. eapply (wpp_fill us bytes phs ph mapped'); [done..| |].
  { intros a [_ Ha]. apply Hm1. right. apply Hr. by exists a. }
  intros mm2 L2. apply wpp_wp, wp_ret. split; [done|]. intros pg. rewrite Hm1, Hmap, page_covered_snoc, Hr.
  unfold covers. naive_solver.
Qed.

(** The outcomes of one program header. *)
Definition seg_failed us (bytes : list byte) ph (e : ElfError) mm : Prop :=
  intact us mm.1 /\ p_type ph = PT_LOAD /\
  (e = SegmentOverlapsExisting /\ overlaps us ph \/ seg_error (Z.of_nat (length bytes)) ph = Some e).

Lemma load_segment_spec us bytes phs phoff phentsize i mapped mm :
  0 <= phoff -> 0 <= i -> 0 <= phentsize ->
  phoff + i * phentsize + PH_ENTRY_SIZE <= Z.of_nat (length bytes) -> Z.of_nat (length bytes) < 2 ^ 63 ->
  loaded us bytes phs mapped mm ->
  let ph := phdr_at bytes (phoff + i * phentsize) in
  wpp (load_segment bytes phoff phentsize mapped i)
    (fun mapped' mm' => loaded us bytes (phs ++ [ph]) mapped' mm' /\
       (p_type ph = PT_LOAD -> seg_error (Z.of_nat (length bytes)) ph = None))
    (fun e mm' => seg_failed us bytes ph e mm') oom mm.
Proof.
  intros Hp Hi He Hfit Hmem L ph. unfold PH_ENTRY_SIZE in Hfit. unfold load_segment. apply wpp_bind, wpp_wp.
  eapply wp_unwrap; [apply checked_spec; unfold in_width, U64; lia|]. unfold ph. clear ph.
  set (off := phoff + i * phentsize) in *. assert (0 <= off) by (unfold off; lia).
  set (ph := phdr_at bytes off).
  assert (Hin : intact us mm.1) by (eapply laid_intact, L).
  apply wpp_bind, wpp_read_le; [lia|lia|unfold U64; lia|]. change (field 4 bytes off) with (p_type ph).
  destruct (p_type ph =? PT_LOAD) eqn:Et; cbn [negb]; zbool.
  2:{ apply wpp_wp, wp_ret. split; [|done]. apply loaded_skip; [done|]. by intros a [? _]. }
  do 4 (apply wpp_bind, wpp_read_le; [lia|lia|unfold U64; lia|]).
  change (field 8 bytes (off + 0x08)) with (p_offset ph). change (field 8 bytes (off + 0x10)) with (p_vaddr ph).
  change (field 8 bytes (off + 0x20)) with (p_filesz ph). change (field 8 bytes (off + 0x28)) with (p_memsz ph).
  assert (0 <= p_offset ph) by apply field_range. assert (0 <= p_vaddr ph) by apply field_range.
  assert (0 <= p_filesz ph) by apply field_range. assert (0 <= p_memsz ph) by apply field_range.
  assert (Hfail : forall e, seg_error (Z.of_nat (length bytes)) ph = Some e -> seg_failed us bytes ph e mm).
  { intros e Herr. split_and!; [done|done|by right]. }
  clearbody ph. unfold seg_error in *.
  apply wpp_bind. destruct (checked U64 (p_offset ph + p_filesz ph)) as [fe|] eqn:Ef; cbn [pok_or].
  2:{ apply checked_None in Ef. unfold in_width, U64 in Ef. apply wpp_wp, wp_fail, Hfail.
      by rewrite (proj2 (Z.ltb_lt _ _)) by lia. }
  apply checked_Some in Ef as ->. apply wpp_wp, wp_ret.
  destruct (_ <? p_offset ph + p_filesz ph) eqn:E1; zbool; [apply wpp_wp, wp_fail; by apply Hfail|].
  destruct (_ <? p_filesz ph) eqn:E2; zbool; [apply wpp_wp, wp_fail; by apply Hfail|].
  apply wpp_bind. destruct (checked U64 (p_vaddr ph + p_memsz ph)) as [me|] eqn:Em; cbn [pok_or].
  2:{ apply checked_None in Em. unfold in_width, U64 in Em. apply wpp_wp, wp_fail, Hfail.
      by rewrite (proj2 (Z.ltb_lt USER_SPACE_END _)) by (unfold USER_SPACE_END; lia). }
  apply checked_Some in Em as ->. apply wpp_wp, wp_ret.
  destruct (USER_SPACE_END <? _) eqn:E3; zbool; [apply wpp_wp, wp_fail; by apply Hfail|].
  destruct (p_memsz ph =? 0) eqn:E4; zbool.
  { apply wpp_wp, wp_ret. split; [|done]. apply loaded_skip; [done|]. intros a [_ ?]. lia. }
  eapply wpp_mono; [apply (place_segment_spec us bytes phs ph); (done || lia || idtac)| |done|done]; cbn beta.
  - intros mm' Hin' Ho. split_and!; [done|done|by left].
  - by intros mapped' mm' L'.
Qed.

Definition segs_ok (bytes : list byte) (phs : list Phdr) : Prop :=
  Forall (fun ph => p_type ph = PT_LOAD -> seg_error (Z.of_nat (length bytes)) ph = None) phs.

Lemma load_segments_spec us bytes phoff phentsize idxs : forall phs mapped mm,
  0 <= phoff -> 0 <= phentsize -> Z.of_nat (length bytes) < 2 ^ 63 ->
  Forall (fun i => 0 <= i /\ phoff + i * phentsize + PH_ENTRY_SIZE <= Z.of_nat (length bytes)) idxs ->
  loaded us bytes phs mapped mm ->
  let new := (fun i => phdr_at bytes (phoff + i * phentsize)) <$> idxs in
  wpp (pfold (load_segment bytes phoff phentsize) idxs mapped)
    (fun mapped' mm' => loaded us bytes (phs ++ new) mapped' mm' /\ segs_ok bytes new)
    (fun e mm' => exists ph, ph ∈ new /\ seg_failed us bytes ph e mm') oom mm.
Proof.
  induction idxs as [|i idxs IH]; intros phs mapped mm Hp He Hmem Hidx L new; cbn [pfold].
  { apply wpp_wp, wp_ret. unfold new. rewrite app_nil_r. split; [done|constructor]. }
  apply Forall_cons in Hidx as [[Hi Hfit] Hidx]. unfold new. rewrite fmap_cons.
  apply wpp_bind. eapply wpp_mono; [by apply (load_segment_spec us bytes phs)| | |done]; cbn beta.
  - intros mapped1 mm1 [L1 Hs1].
    eapply wpp_mono; [apply (IH _ mapped1 mm1 Hp He Hmem Hidx L1)| | |done]; cbn beta.
    + intros mapped2 mm2 [L2 Hs2]. rewrite <- app_assoc in L2. split; [exact L2|]. by constructor.
    + intros e mm2 (ph & Hin & Hf). exists ph. split; [by right|done].
  - intros e mm1 Hf. eexists. split; [by left|done].
Qed.

(** The outcomes of [load]. *)
Definition load_ok us bytes (entry : Z) mm : Prop :=
  exists phs, parse_elf bytes = inr (entry, phs) /\ segs_ok bytes phs /\
    laid us mm.1 (page_covered phs) (image_byte bytes phs).

Definition load_failed us bytes (e : ElfError) mm : Prop :=
  intact us mm.1 /\
  (parse_elf bytes = inl e \/
   exists entry phs ph, parse_elf bytes = inr (entry, phs) /\ ph ∈ phs /\ p_type ph = PT_LOAD /\
     (e = SegmentOverlapsExisting /\ overlaps us ph \/ seg_error (Z.of_nat (length bytes)) ph = Some e)).

Lemma load_spec us fa bytes :
  Z.of_nat (length bytes) < 2 ^ 63 -> wpp (load bytes) (load_ok us bytes) (load_failed us bytes) oom (us, fa).
Proof.
  intros Hmem. unfold load, load_failed, load_ok. unfold parse_elf.
  assert (Hin : intact us us) by done. set (phoff := field 8 bytes 0x20). set (phentsize := field 2 bytes 0x36).
  set (phnum := field 2 bytes 0x38).
  destruct (length bytes <? 64)%nat eqn:E0; [apply wpp_wp, wp_fail; by split; [|left]|]. apply Nat.ltb_ge in E0.
  destruct (negb (bytes_eqb _ _)); [apply wpp_wp, wp_fail; by split; [|left]|].
  destruct (negb (u8_at _ _ =? 2)); [apply wpp_wp, wp_fail; by split; [|left]|].
  assert (Hrd : forall n off Q X P mm, 0 <= off -> off + Z.of_nat n <= 64 ->
    Q (field n bytes off) mm -> wpp (read_le n bytes off) Q X P mm).
  { intros. apply wpp_read_le; [lia|lia|unfold U64; lia|done]. }
  apply wpp_bind, Hrd; [lia..|]. destruct (negb (_ =? ET_EXEC)); [apply wpp_wp, wp_fail; by split; [|left]|].
  apply wpp_bind, Hrd; [lia..|]. destruct (negb (_ =? EM_X86_64)); [apply wpp_wp, wp_fail; by split; [|left]|].
  do 4 (apply wpp_bind, Hrd; [lia..|]). fold phoff phentsize phnum.
  destruct (phentsize <? _) eqn:E1; zbool; [apply wpp_wp, wp_fail; by split; [|left]|].
  assert (Hsz : 0 <= phentsize < 65536) by apply (field_bound 2).
  assert (Hn : 0 <= phnum < 65536) by apply (field_bound 2). assert (Ho : 0 <= phoff) by apply field_range.
  apply wpp_bind. rewrite checked_spec by (unfold in_width, U64; nia). cbn [pok_or]. apply wpp_wp, wp_ret.
  apply wpp_bind. destruct (checked U64 (phoff + phnum * phentsize)) as [te|] eqn:Et; cbn [pok_or].
  2:{ apply checked_None in Et. unfold in_width, U64 in Et. rewrite (proj2 (Z.ltb_lt _ (phoff + _))) by nia.
      apply wpp_wp, wp_fail. by split; [|left]. }
  apply checked_Some in Et as ->. apply wpp_wp, wp_ret.
  destruct (_ <? phoff + _) eqn:E2; zbool; [apply wpp_wp, wp_fail; by split; [|left]|].
  apply wpp_bind. eapply wpp_mono; [apply (load_segments_spec us bytes phoff phentsize (seqZ 0 phnum) [] ∅)| | |done].
  - done.
  - lia.
  - done.
  - apply Forall_forall. intros i Hi%elem_of_seqZ. unfold PH_ENTRY_SIZE in *. nia.
  - split; [|intros pg; split; [set_solver|by intros (? & ? & ?%not_elem_of_nil & _)]].
    eapply laid_ext; [apply laid_nil|set_solver|done].
  - intros mapped mm [[L Hm] Hs]. apply wpp_wp, wp_ret. eexists. split_and!; [done|done|].
    eapply laid_ext; [exact L| |done]. exact Hm.
  - intros e mm (ph & Hph & Hi & Ht & He). split; [done|]. right. by eexists _, _, ph.
Qed.
End Load.


(** A file of one segment, three bytes long and five in memory, across a page
    boundary. *)
Definition tiny_elf : list byte :=
  (x7f :: bs "ELF") ++ [x02] ++ zeros 11 ++ to_le 2 2 ++ to_le 2 0x3E ++ to_le 4 1 ++ to_le 8 0x400FFE ++
  to_le 8 64 ++ to_le 8 0 ++ to_le 4 0 ++ to_le 2 64 ++ to_le 2 56 ++ to_le 2 1 ++ zeros 6 ++
  to_le 4 1 ++ to_le 4 7 ++ to_le 8 120 ++ to_le 8 0x400FFE ++ to_le 8 0 ++ to_le 8 3 ++ to_le 8 5 ++ to_le 8 4096 ++
  bs "abc".

Definition no_space : UserSpace := {| us_pages := ∅; us_mem := ∅ |}.

