(* ===== verification/UserStack.v ===== *)
(** * The first stack of a program

    [read_user_str_array] and [build_user_stack] of [arch/x86_64/syscall.rs]:
    the argument vectors of [execve] are copied out of the old program and laid
    out on the stack page of the new one as the System V ABI prescribes. *)

From stdpp Require Import base numbers list gmap.
From Stdlib Require Import ZArith Lia.
From S2P Require Import Prelude Abi Uaccess.
#[local] Open Scope Z_scope.

Definition MAX_STR_ARRAY : Z := 128.

(** The loop over the elements, from the [i]-th on. *)
Fixpoint str_array_loop (array_ptr : Z) (idxs : list Z) (out : list (list byte)) : prog UserSpace Z (list (list byte)) :=
  match idxs with
  | [] => pfail E2BIG
  | i :: rest =>
      let! slot := u64_add array_ptr (i * 8) in
      let! b := with_user_bytes slot 8 in
      let ptr := from_le b in
      if ptr =? 0 then pret out
      else let! s := read_user_cstr ptr in str_array_loop array_ptr rest (out ++ [s])
  end.

Definition read_user_str_array (array_ptr : Z) : prog UserSpace Z (list (list byte)) :=
  if array_ptr =? 0 then pret [] else str_array_loop array_ptr (seqZ 0 MAX_STR_ARRAY) [].

(** ** Argument vectors *)

(** The pointer in slot [i] of an array. *)
Definition slot_ptr (us : UserSpace) (array i : Z) : Z := from_le (read_bytes us (array + 8 * i) 8).

(** The first elements of an array are pointers to the strings. *)
Definition str_prefix (us : UserSpace) (array : Z) (strs : list (list byte)) : Prop :=
  forall i s, strs !! i = Some s ->
    range_ok us false (array + 8 * Z.of_nat i) 8 /\ slot_ptr us array (Z.of_nat i) <> 0 /\
    cstr_at us (slot_ptr us array (Z.of_nat i)) s.

(** The array is those strings and a null pointer. *)
Definition str_array (us : UserSpace) (array : Z) (strs : list (list byte)) : Prop :=
  if decide (array = 0) then strs = []
  else Z.of_nat (length strs) < MAX_STR_ARRAY /\ str_prefix us array strs /\
       range_ok us false (array + 8 * Z.of_nat (length strs)) 8 /\ slot_ptr us array (Z.of_nat (length strs)) = 0.

(** What is wrong behind the longest good prefix. *)
Definition str_array_error (us : UserSpace) (array e : Z) : Prop :=
  array <> 0 /\ exists strs, str_prefix us array strs /\
    let n := Z.of_nat (length strs) in
    (n = MAX_STR_ARRAY /\ e = E2BIG \/
     n < MAX_STR_ARRAY /\ ~ range_ok us false (array + 8 * n) 8 /\ e = EFAULT \/
     n < MAX_STR_ARRAY /\ range_ok us false (array + 8 * n) 8 /\ slot_ptr us array n <> 0 /\
       (e = EINVAL /\ no_nul us (slot_ptr us array n) PATH_MAX \/ e = EFAULT /\ cstr_faults us (slot_ptr us array n))).

Lemma str_prefix_snoc us array strs s :
  str_prefix us array strs -> range_ok us false (array + 8 * Z.of_nat (length strs)) 8 ->
  slot_ptr us array (Z.of_nat (length strs)) <> 0 -> cstr_at us (slot_ptr us array (Z.of_nat (length strs))) s ->
  str_prefix us array (strs ++ [s]).
Proof.
  intros Hp Hr Hn Hc i x. rewrite lookup_app_Some, list_lookup_singleton_Some.
  intros [Hi|[Hl [Hi <-]]]; [by apply Hp|]. by replace i with (length strs) by lia.
Qed.

Lemma wp_str_array_loop us array n : forall out,
  0 < array < U64 -> Z.of_nat (length out) + Z.of_nat n = MAX_STR_ARRAY -> str_prefix us array out ->
  wp (str_array_loop array (seqZ (Z.of_nat (length out)) (Z.of_nat n)) out)
    (fun strs us' => us' = us /\ str_array us array strs)
    (fun e us' => us' = us /\ str_array_error us array e) us.
Proof.
  induction n as [|n IH]; intros out Ha Hl Hp.
  - apply wp_fail. split; [done|]. split; [lia|]. exists out. split; [done|]. left. split; [lia|done].
  - rewrite seqZ_cons by lia. cbn [str_array_loop]. apply wp_bind.
    set (k := Z.of_nat (length out)) in *. replace (k * 8) with (8 * k) by lia.
    assert (Hb : array + 8 * k < U64).
    { destruct out as [|s out _] using rev_ind; [cbn in k; lia|].
      destruct (Hp (length out) s) as [[Hr _] _]; [by rewrite lookup_app_r, Nat.sub_diag|].
      subst k. rewrite length_app. cbn [length]. unfold USER_SPACE_END in Hr. unfold U64. lia. }
    eapply wp_unwrap; [apply checked_spec; split; lia|]. apply wp_bind.
    eapply wp_mono; [apply wp_with_user_bytes; lia| |].
    + intros b us' (-> & Hr & ->). change (Z.to_nat 8) with 8%nat.
      change (from_le _) with (slot_ptr us array k). destruct (Z.eqb_spec (slot_ptr us array k) 0) as [Hz|Hz].
      * apply wp_ret. split; [done|]. unfold str_array. rewrite decide_False by lia. split_and!; [lia|done..].
      * apply wp_bind. eapply wp_mono; [apply wp_read_user_cstr, from_le_range| |].
        -- intros s us' [-> Hc]. replace (Z.succ k) with (Z.of_nat (length (out ++ [s])))
             by (rewrite length_app; cbn [length]; lia).
           replace (Z.pred (Z.of_nat (S n))) with (Z.of_nat n) by lia. apply IH; [done| |by apply str_prefix_snoc].
           rewrite length_app. cbn [length]. lia.
        -- intros e us' [-> He]. split; [done|]. split; [lia|]. exists out. split; [done|]. right. right.
           split_and!; [lia|done..].
    + intros e us' (-> & -> & Hr). split; [done|]. split; [lia|]. exists out. split; [done|]. right. left.
      split_and!; [lia|done..].
Qed.

Lemma wp_read_user_str_array us array :
  in_width U64 array ->
  wp (read_user_str_array array) (fun strs us' => us' = us /\ str_array us array strs)
    (fun e us' => us' = us /\ str_array_error us array e) us.
Proof.
  intros [H0 Hu]. unfold read_user_str_array. destruct (Z.eqb_spec array 0) as [->|Hn].
  - apply wp_ret. by split.
  - apply (wp_str_array_loop us array (Z.to_nat MAX_STR_ARRAY) []); [lia|done|]. by intros i s.
Qed.

Section Stack.
Context (floor : Z).

(** A store of the kernel through a user address. *)
Definition user_store {E} (ptr : Z) (src : list byte) : prog UserSpace E unit :=
  let! us := pget in
  passert (forallb (fun i => present us true (ptr + Z.of_nat i)) (seq 0 (length src))) ;;!
  pput (write_bytes ptr src us).

(** The string with its terminator, below [sp]. *)
Definition put_str (sp : Z) (s : list byte) : prog UserSpace unit Z :=
  let need := Z.of_nat (length s) + 1 in
  let! left := u64_sub sp floor in
  if left <? need then pfail tt
  else user_store (sp - need) (s ++ [x00]) ;;! pret (sp - need).

Definition push_word (sp v : Z) : prog UserSpace unit Z :=
  let! left := u64_sub sp floor in
  if left <? 8 then pfail tt
  else user_store (sp - 8) (to_le 8 v) ;;! pret (sp - 8).

(** [for s in strs { ptrs.push(put_str(&mut sp, s)?) }] *)
Definition put_strs (sp : Z) (strs : list (list byte)) : prog UserSpace unit (Z * list Z) :=
  pfold (fun '(sp, ptrs) s => let! p := put_str sp s in pret (p, ptrs ++ [p])) strs (sp, []).

Definition build_user_stack (top : Z) (argv envp : list (list byte)) : prog UserSpace unit Z :=
  let! '(sp, arg_ptrs) := put_strs top argv in
  let! '(sp, env_ptrs) := put_strs sp envp in
  let sp := Z.land sp (Z.lnot 0xF) in
  let slots := (1 + length arg_ptrs + 1 + length env_ptrs + 1 + 2)%nat in
  let! sp := if Nat.odd slots then push_word sp 0 else pret sp in
  pfold push_word ([0; 0; 0] ++ rev env_ptrs ++ [0] ++ rev arg_ptrs ++ [Z.of_nat (length arg_ptrs)]) sp.

(** ** Specification *)

(** Where the strings go, the first one highest. *)
Fixpoint str_ptrs (sp : Z) (strs : list (list byte)) : list Z :=
  match strs with
  | [] => []
  | s :: rest => let p := sp - (Z.of_nat (length s) + 1) in p :: str_ptrs p rest
  end.

Definition strs_end (sp : Z) (strs : list (list byte)) : Z := foldl (fun sp s => sp - (Z.of_nat (length s) + 1)) sp strs.

Definition str_at (us : UserSpace) (p : Z) (s : list byte) : Prop := read_bytes us p (S (length s)) = s ++ [x00].

Definition stack_holds (us : UserSpace) (sp : Z) (ws : list Z) : Prop :=
  read_bytes us sp (8 * length ws) = concat (to_le 8 <$> ws).

(** The words from the stack pointer up: [argc], [argv], NULL, [envp], NULL, the
    empty auxiliary vector and, for alignment, one more. *)
Definition stack_words (arg_ptrs env_ptrs : list Z) : list Z :=
  [Z.of_nat (length arg_ptrs)] ++ arg_ptrs ++ [0] ++ env_ptrs ++ [0; 0; 0] ++
  (if Nat.odd (1 + length arg_ptrs + 1 + length env_ptrs + 1 + 2) then [0] else []).

Definition writable_range (us : UserSpace) (lo hi : Z) : Prop := forall a, lo <= a < hi -> present us true a = true.

(** A change of the bytes in [lo, hi). *)
Definition only (lo hi : Z) (us us' : UserSpace) : Prop :=
  us_pages us' = us_pages us /\ forall a, ~ (lo <= a < hi) -> byte_at us' a = byte_at us a.

Lemma only_refl lo hi us : only lo hi us us.
Proof. done. Qed.

Lemma only_trans lo hi lo' hi' us us1 us2 :
  only lo hi us us1 -> only lo' hi' us1 us2 -> only (Z.min lo lo') (Z.max hi hi') us us2.
Proof. intros [P1 B1] [P2 B2]. split; [congruence|]. intros a Ha. rewrite B2, B1 by lia. done. Qed.

Lemma only_weaken lo hi lo' hi' us us' : lo' <= lo -> hi <= hi' -> only lo hi us us' -> only lo' hi' us us'.
Proof. intros H1 H2 [P B]. split; [done|]. intros a Ha. apply B. lia. Qed.

Lemma only_writable lo hi us us' a b : only lo hi us us' -> writable_range us a b -> writable_range us' a b.
Proof. intros [P _] Hw x Hx. specialize (Hw x Hx). unfold present, translate in *. by rewrite P. Qed.

Lemma read_only lo hi us us' p n :
  only lo hi us us' -> p + Z.of_nat n <= lo \/ hi <= p -> read_bytes us' p n = read_bytes us p n.
Proof.
  intros [_ B] Hp. apply list_eq. intros i. destruct (decide (i < n)%nat).
  - rewrite !lookup_read_bytes by done. f_equal. apply B. lia.
  - rewrite !lookup_ge_None_2; [done|rewrite length_read_bytes; lia..].
Qed.

Lemma wp_user_store {E} us ptr src (Q : unit -> UserSpace -> Prop) (X : E -> UserSpace -> Prop) :
  writable_range us ptr (ptr + Z.of_nat (length src)) ->
  (forall us', only ptr (ptr + Z.of_nat (length src)) us us' -> read_bytes us' ptr (length src) = src -> Q tt us') ->
  wp (user_store ptr src) Q X us.
Proof.
  intros Hw HQ. unfold user_store. apply wp_bind, wp_get, wp_bind, wp_assert.
  - apply forallb_forall. intros i Hi. apply in_seq in Hi. apply Hw. lia.
  - apply wp_put, HQ; [|apply read_write_same]. split; [done|]. intros a Ha. by apply byte_at_write_out.
Qed.

Lemma wp_left {E} sp us (Q : Z -> UserSpace -> Prop) (X : E -> UserSpace -> Prop) :
  0 <= floor <= sp -> sp < U64 -> Q (sp - floor) us -> wp (u64_sub sp floor) Q X us.
Proof. intros H1 H2 HQ. eapply wp_unwrap; [apply checked_spec; unfold in_width; lia|done]. Qed.

Lemma wp_put_str us sp s (Q : Z -> UserSpace -> Prop) (X : unit -> UserSpace -> Prop) :
  0 <= floor <= sp -> sp < U64 -> writable_range us floor sp ->
  let p := sp - (Z.of_nat (length s) + 1) in
  (floor <= p -> forall us', only p sp us us' -> str_at us' p s -> Q p us') -> (p < floor -> X tt us) ->
  wp (put_str sp s) Q X us.
Proof.
  intros Hf Hu Hw p HQ HX. unfold put_str. apply wp_bind, wp_left; [done..|].
  destruct (_ <? _) eqn:E; zbool; [apply HX; lia|]. fold p. apply wp_bind.
  assert (Hl : p + Z.of_nat (length (s ++ [x00])) = sp) by (rewrite length_app; cbn [length]; lia).
  eapply wp_user_store; rewrite Hl.
  - intros a Ha. apply Hw. lia.
  - intros us' Ho Hr. apply wp_ret, HQ; [lia|done|]. unfold str_at. rewrite length_app in Hr. cbn [length] in Hr.
    by rewrite Nat.add_1_r in Hr.
Qed.

Lemma wp_push_word us sp v ws (Q : Z -> UserSpace -> Prop) (X : unit -> UserSpace -> Prop) :
  0 <= floor <= sp -> sp < U64 -> writable_range us floor sp -> stack_holds us sp ws ->
  (floor <= sp - 8 -> forall us', only (sp - 8) sp us us' -> stack_holds us' (sp - 8) (v :: ws) -> Q (sp - 8) us') ->
  (sp - 8 < floor -> X tt us) -> wp (push_word sp v) Q X us.
Proof.
  intros Hf Hu Hw Hws HQ HX. unfold push_word. apply wp_bind, wp_left; [done..|].
  destruct (_ <? _) eqn:E; zbool; [apply HX; lia|]. apply wp_bind.
  assert (Hl : sp - 8 + Z.of_nat (length (to_le 8 v)) = sp) by (rewrite length_to_le; lia).
  eapply wp_user_store; rewrite Hl.
  - intros a Ha. apply Hw. lia.
  - intros us' Ho Hr. apply wp_ret, HQ; [lia|done|]. unfold stack_holds in *. rewrite length_to_le in Hr.
    cbn [length]. rewrite fmap_cons. cbn [concat]. rewrite Nat.mul_succ_r, Nat.add_comm, read_bytes_app.
    rewrite Hr. f_equal. replace (sp - 8 + Z.of_nat 8) with sp by lia. rewrite <- Hws. eapply read_only; [done|lia].
Qed.

Lemma strs_end_le sp strs : strs_end sp strs <= sp.
Proof.
  revert sp. induction strs as [|s strs IH]; intros sp; [done|].
  unfold strs_end. cbn [foldl]. fold (strs_end (sp - (Z.of_nat (length s) + 1)) strs).
  specialize (IH (sp - (Z.of_nat (length s) + 1))). lia.
Qed.

Lemma length_str_ptrs sp strs : length (str_ptrs sp strs) = length strs.
Proof. revert sp. induction strs as [|s strs IH]; intros sp; [done|]. cbn [str_ptrs length]. by rewrite IH. Qed.

(** The strings are laid out down to [lo], from below [hi]. *)
Definition strings (us : UserSpace) (lo hi : Z) (strs : list (list byte)) (ptrs : list Z) : Prop :=
  Forall2 (fun s p => str_at us p s /\ lo <= p /\ p + Z.of_nat (length s) < hi) strs ptrs.

Lemma strings_only us us' lo hi lo' hi' strs ptrs :
  only lo' hi' us us' -> hi <= lo' \/ hi' <= lo -> strings us lo hi strs ptrs -> strings us' lo hi strs ptrs.
Proof.
  intros Ho Hd Hs. eapply Forall2_impl; [exact Hs|]. intros s p (Ha & H1 & H2). split_and!; [|done..].
  unfold str_at in *. rewrite <- Ha. eapply read_only; [done|lia].
Qed.

Lemma strings_weaken us lo hi lo' hi' strs ptrs :
  lo' <= lo -> hi <= hi' -> strings us lo hi strs ptrs -> strings us lo' hi' strs ptrs.
Proof. intros H1 H2 Hs. eapply Forall2_impl; [exact Hs|]. intros s p (Ha & H3 & H4). split_and!; [done|lia..]. Qed.

Lemma wp_put_strs_from us strs sp ptrs (Q : Z * list Z -> UserSpace -> Prop) (X : unit -> UserSpace -> Prop) :
  0 <= floor <= sp -> sp < U64 -> writable_range us floor sp ->
  (floor <= strs_end sp strs -> forall us', only (strs_end sp strs) sp us us' ->
     strings us' (strs_end sp strs) sp strs (str_ptrs sp strs) -> Q (strs_end sp strs, ptrs ++ str_ptrs sp strs) us') ->
  (strs_end sp strs < floor -> forall us', only floor sp us us' -> X tt us') ->
  wp (pfold (fun '(sp, ptrs) s => let! p := put_str sp s in pret (p, ptrs ++ [p])) strs (sp, ptrs)) Q X us.
Proof.
  revert us sp ptrs. induction strs as [|s strs IH]; intros us sp ptrs Hf Hu Hw HQ HX; cbn [pfold].
  { apply wp_ret. rewrite <- (app_nil_r ptrs). apply HQ; [cbn; lia|done|constructor]. }
  unfold strs_end in HQ, HX. cbn [foldl str_ptrs] in HQ, HX. set (p := sp - (Z.of_nat (length s) + 1)) in *.
  fold (strs_end p strs) in HQ, HX. pose proof (strs_end_le p strs) as Hle.
  apply wp_bind, wp_bind, wp_put_str; [done..| |]; fold p.
  - intros Hp us' Ho Hs. apply wp_ret, IH; [lia..| | |].
    + eapply only_writable; [done|]. intros a Ha. apply Hw. lia.
    + intros He us2 Ho2 Hst. rewrite <- app_assoc. apply HQ; [done| |].
      * eapply only_weaken; [| |exact (only_trans _ _ _ _ _ _ _ Ho Ho2)]; lia.
      * constructor; [|eapply strings_weaken; [..|done]; lia]. split_and!; [|lia..].
        unfold str_at in *. rewrite <- Hs. eapply read_only; [done|]. lia.
    + intros He us2 Ho2. apply HX; [lia|]. eapply only_weaken; [| |exact (only_trans _ _ _ _ _ _ _ Ho Ho2)]; lia.
  - intros Hp. eapply HX; [lia|apply only_refl].
Qed.

Lemma wp_put_strs us strs sp (Q : Z * list Z -> UserSpace -> Prop) (X : unit -> UserSpace -> Prop) :
  0 <= floor <= sp -> sp < U64 -> writable_range us floor sp ->
  (floor <= strs_end sp strs -> forall us', only (strs_end sp strs) sp us us' ->
     strings us' (strs_end sp strs) sp strs (str_ptrs sp strs) -> Q (strs_end sp strs, str_ptrs sp strs) us') ->
  (strs_end sp strs < floor -> forall us', only floor sp us us' -> X tt us') ->
  wp (put_strs sp strs) Q X us.
Proof. intros Hf Hu Hw HQ HX. by apply (wp_put_strs_from us strs sp []). Qed.

Lemma wp_pushes us ws sp done_ (Q : Z -> UserSpace -> Prop) (X : unit -> UserSpace -> Prop) :
  0 <= floor <= sp -> sp < U64 -> writable_range us floor sp -> stack_holds us sp done_ ->
  let sp' := sp - 8 * Z.of_nat (length ws) in
  (floor <= sp' -> forall us', only sp' sp us us' -> stack_holds us' sp' (rev ws ++ done_) -> Q sp' us') ->
  (sp' < floor -> forall us', only floor sp us us' -> X tt us') ->
  wp (pfold push_word ws sp) Q X us.
Proof.
  revert us sp done_. induction ws as [|w ws IH]; intros us sp done_ Hf Hu Hw Hd sp' HQ HX; cbn [pfold].
  { subst sp'. cbn [length] in *. apply wp_ret. replace (sp - 8 * Z.of_nat 0) with sp in HQ by lia. apply HQ; [lia|done|done]. }
  subst sp'. cbn [length] in *. apply wp_bind. eapply wp_push_word; [done..| |].
  - intros Hp us' Ho Hs. eapply IH; [lia|lia| |exact Hs| |].
    + eapply only_writable; [done|]. intros a Ha. apply Hw. lia.
    + replace (sp - 8 - 8 * Z.of_nat (length ws)) with (sp - 8 * Z.of_nat (S (length ws))) by lia.
      intros He us2 Ho2 Hws. apply HQ; [done| |].
      * eapply only_weaken; [| |exact (only_trans _ _ _ _ _ _ _ Ho Ho2)]; lia.
      * cbn [rev]. by rewrite <- app_assoc.
    + intros He us2 Ho2. apply HX; [lia|]. eapply only_weaken; [| |exact (only_trans _ _ _ _ _ _ _ Ho Ho2)]; lia.
  - intros Hp. apply HX; [lia|apply only_refl].
Qed.

Definition env_ptrs_of (top : Z) (argv envp : list (list byte)) : list Z := str_ptrs (strs_end top argv) envp.

Definition words_of (top : Z) (argv envp : list (list byte)) : list Z :=
  stack_words (str_ptrs top argv) (env_ptrs_of top argv envp).

(** The stack pointer the program starts with. *)
Definition stack_sp (top : Z) (argv envp : list (list byte)) : Z :=
  16 * (strs_end (strs_end top argv) envp / 16) - 8 * Z.of_nat (length (words_of top argv envp)).

(** What a program finds on its stack. *)
Record stack_built (top : Z) (argv envp : list (list byte)) (us us' : UserSpace) (sp : Z) : Prop := {
  sb_room : floor <= sp;
  sb_sp : sp = stack_sp top argv envp;
  sb_aligned : (16 | sp);
  sb_words : stack_holds us' sp (words_of top argv envp);
  sb_args : strings us' (sp + 8 * Z.of_nat (length (words_of top argv envp))) top argv (str_ptrs top argv);
  sb_envs : strings us' (sp + 8 * Z.of_nat (length (words_of top argv envp))) top envp (env_ptrs_of top argv envp);
  sb_only : only sp top us us';
}.

Lemma land_low_16 x : Z.land x (Z.lnot 0xF) = 16 * (x / 16).
Proof.
  rewrite <- Z.ldiff_land. change 0xF with (Z.ones 4). rewrite Z.ldiff_ones_r by lia.
  rewrite Z.shiftl_mul_pow2, Z.shiftr_div_pow2 by lia. change (2 ^ 4) with 16. lia.
Qed.

Lemma even_stack_words a e : exists k, Z.of_nat (length (stack_words a e)) = 2 * k.
Proof.
  unfold stack_words. rewrite !length_app. cbn [length].
  destruct (Nat.odd _) eqn:E.
  - apply Nat.odd_spec in E as [k E]. exists (Z.of_nat k + 1). cbn [length]. lia.
  - rewrite <- Nat.negb_even in E. apply negb_false_iff, Nat.even_spec in E as [k E]. exists (Z.of_nat k). cbn [length]. lia.
Qed.

(** All the pushes of the layout, the alignment word included. *)
Lemma wp_push_layout us sp a e (Q : Z -> UserSpace -> Prop) (X : unit -> UserSpace -> Prop) :
  0 <= floor <= sp -> sp < U64 -> writable_range us floor sp ->
  let sp' := sp - 8 * Z.of_nat (length (stack_words a e)) in
  (floor <= sp' -> forall us', only sp' sp us us' -> stack_holds us' sp' (stack_words a e) -> Q sp' us') ->
  (sp' < floor -> forall us', only floor sp us us' -> X tt us') ->
  wp (let! sp := if Nat.odd (1 + length a + 1 + length e + 1 + 2) then push_word sp 0 else pret sp in
      pfold push_word ([0; 0; 0] ++ rev e ++ [0] ++ rev a ++ [Z.of_nat (length a)]) sp) Q X us.
Proof.
  intros Hf Hu Hw sp' HQ HX. subst sp'.
  set (ws := [0; 0; 0] ++ rev e ++ [0] ++ rev a ++ [Z.of_nat (length a)]).
  set (pad := if Nat.odd (1 + length a + 1 + length e + 1 + 2) then [0] else []).
  assert (Hws : stack_words a e = rev (pad ++ ws)).
  { unfold stack_words. fold pad. subst ws pad. destruct (Nat.odd _); rewrite !rev_app_distr, !rev_involutive;
      cbn [rev app]; rewrite <- !app_assoc; done. }
  assert (Hlen : length (stack_words a e) = length (pad ++ ws)) by by rewrite Hws, length_rev.
  assert (Hall : wp (pfold push_word (pad ++ ws) sp) Q X us).
  { eapply (wp_pushes us (pad ++ ws) sp []); [done..| |]; rewrite <- Hlen; [|done].
    intros He us' Ho Hd. rewrite app_nil_r, <- Hws in Hd. by apply HQ. }
  subst pad. destruct (Nat.odd _); exact Hall.
Qed.

Lemma build_user_stack_spec top argv envp us :
  0 <= floor <= top -> top < U64 -> (16 | floor) -> writable_range us floor top ->
  wp (build_user_stack top argv envp) (fun sp us' => stack_built top argv envp us us' sp)
     (fun _ us' => stack_sp top argv envp < floor /\ only floor top us us') us.
Proof.
  intros Hf Hu [k Hk] Hw. unfold build_user_stack.
  set (a := strs_end top argv). set (e := strs_end a envp).
  pose proof (strs_end_le top argv) as Ha. pose proof (strs_end_le a envp) as He. fold a in Ha. fold e in He.
  pose proof (Z.div_mod e 16 ltac:(lia)) as Hdm. pose proof (Z.mod_pos_bound e 16 ltac:(lia)) as Hm.
  assert (Hsp : stack_sp top argv envp = 16 * (e / 16) - 8 * Z.of_nat (length (words_of top argv envp))) by done.
  apply wp_bind, wp_put_strs; [done..| |]; fold a; [intros Hfa us1 Ho1 Hs1|intros Hfa us1 Ho1; split; [lia|done]].
  assert (Hw1 : writable_range us1 floor a).
  { eapply only_writable; [done|]. intros x Hx. apply Hw. lia. }
  apply wp_bind, wp_put_strs; [lia..|done| |]; fold e; [intros Hfe us2 Ho2 Hs2|intros Hfe us2 Ho2; split; [lia|]].
  2: { eapply only_weaken; [| |exact (only_trans _ _ _ _ _ _ _ Ho1 Ho2)]; lia. }
  assert (Ho12 : only e top us us2).
  { eapply only_weaken; [| |exact (only_trans _ _ _ _ _ _ _ Ho1 Ho2)]; lia. }
  rewrite land_low_16. eapply wp_push_layout; [lia..| | |].
  - eapply only_writable; [done|]. intros x Hx. apply Hw. lia.
  - change (stack_words (str_ptrs top argv) (str_ptrs a envp)) with (words_of top argv envp). rewrite <- Hsp. intros Hfs us3 Ho3 Hws.
    destruct (even_stack_words (str_ptrs top argv) (env_ptrs_of top argv envp)) as [j Hj].
    fold (words_of top argv envp) in Hj. split; [done|done| |done|..].
    + exists (e / 16 - j). lia.
    + eapply (strings_weaken _ a top); [lia..|]. eapply strings_only; [exact Ho3|lia|].
      eapply strings_only; [exact Ho2|lia|exact Hs1].
    + eapply (strings_weaken _ e a); [lia..|]. eapply strings_only; [exact Ho3|lia|exact Hs2].
    + eapply only_weaken; [| |exact (only_trans _ _ _ _ _ _ _ Ho12 Ho3)]; lia.
  - change (stack_words (str_ptrs top argv) (str_ptrs a envp)) with (words_of top argv envp). rewrite <- Hsp. intros Hfs us3 Ho3. split; [done|].
    eapply only_weaken; [| |exact (only_trans _ _ _ _ _ _ _ Ho12 Ho3)]; lia.
Qed.

(** C33. The initial stack of a program. On a writable range [floor, top) the
    kernel either lays out, from a 16-aligned stack pointer up, [argc], the
    [argv] pointers, NULL, the [envp] pointers, NULL and the auxiliary vector's
    end, each pointer at a copy of its string with a terminator and no byte
    outside [sp, top) touched; or it reports that it does not fit, and then the
    layout's stack pointer is really below the floor and no byte outside the
    range has changed. *)
Theorem build_user_stack_exact top argv envp us :
  0 <= floor <= top -> top < U64 -> (16 | floor) -> writable_range us floor top ->
  wp (build_user_stack top argv envp) (fun sp us' => stack_built top argv envp us us' sp)
     (fun _ us' => stack_sp top argv envp < floor /\ only floor top us us') us.
Proof. apply build_user_stack_spec. Qed.
End Stack.

(** One argument and no environment, on a stack of one page. *)
Definition page_space : UserSpace := {| us_pages := {[ 4096 := (true, true) ]}; us_mem := ∅ |}.

Lemma build_user_stack_exact_witness :
  exists sp us', build_user_stack 4096 8192 [[x41; x42]] [] page_space = (Ret sp, us') /\
    stack_built 4096 8192 [[x41; x42]] [] page_space us' sp /\ sp = 8128.
Proof.
  assert (Hw : wp (build_user_stack 4096 8192 [[x41; x42]] [])
    (fun sp us' => stack_built 4096 8192 [[x41; x42]] [] page_space us' sp)
    (fun _ us' => stack_sp 8192 [[x41; x42]] [] < 4096 /\ only 4096 8192 page_space us') page_space).
  { apply build_user_stack_exact; [lia|done|by exists 256|]. intros a Ha. unfold present, translate.
    by rewrite (page_of_same 4096 a eq_refl) by lia. }
  destruct (build_user_stack 4096 8192 [[x41; x42]] [] page_space) as [[sp|[]| |] us'] eqn:E; unfold wp in Hw; rewrite E in Hw.
  - exists sp, us'. split; [done|]. split; [exact Hw|]. exact (sb_sp _ _ _ _ _ _ _ Hw).
  - destruct Hw as [Hw _]. by vm_compute in Hw.
  - done.
  - done.
Defined.
