(* ===== verification/Frame.v ===== *)
(** * The frame allocator

    [mm/frame.rs]: frames of the usable regions are handed out by a cursor, and
    freed frames by a list threaded through their first words, in physical
    memory. The memory map is the boot loader's. *)

From stdpp Require Import base numbers list gmap.
From Stdlib Require Import ZArith Lia.
From S2P Require Import Prelude.
#[local] Open Scope Z_scope.

Definition FREE_LIST_END : Z := 0.

(** A region of the boot loader's memory map: its type, and its frames. *)
Record MemoryRegion : Type := mkRegion { is_usable : bool; start_frame : Z; end_frame : Z }.

#[export] Instance MemoryRegion_eq_dec : EqDecision MemoryRegion.
Proof. solve_decision. Defined.

(** Physical memory, as 64-bit words at multiples of 8, and the allocator. *)
Record Phys : Type := mkPhys { ram : gmap Z Z; next : Z; free_list : option Z }.

Definition set_ram (m : gmap Z Z) (s : Phys) : Phys := mkPhys m (next s) (free_list s).
Definition set_next (n : Z) (s : Phys) : Phys := mkPhys (ram s) n (free_list s).
Definition set_free (l : option Z) (s : Phys) : Phys := mkPhys (ram s) (next s) l.

Definition ram_word (m : gmap Z Z) (a : Z) : Z := default 0 (m !! a).

Section Alloc.
Context (memory_map : list MemoryRegion) {E : Type}.

(** Reads and writes through the mapping of physical memory. *)
Definition read_word (a : Z) : prog Phys E Z := let! s := pget in pret (ram_word (ram s) a).
Definition write_word (a v : Z) : prog Phys E unit := pmodify (fun s => set_ram (<[a := v]> (ram s)) s).

(** [PhysAddr::new] *)
Definition PhysAddr_new (a : Z) : prog Phys E Z := passert (a <? 2 ^ 52) ;;! pret a.

(** [PhysFrame::containing_address] *)
Definition containing_address (a : Z) : Z := a - a mod 4096.

(** [(next != FREE_LIST_END).then(|| PhysAddr::new(next))] *)
Definition link_of (w : Z) : prog Phys E (option Z) :=
  if negb (w =? FREE_LIST_END) then let! a := PhysAddr_new w in pret (Some a) else pret None.

Definition init : Phys -> Phys := fun s => mkPhys (ram s) 0 None.

(** [start_addr()..end_addr()], every 4096, of each usable region. *)
Definition region_frames (r : MemoryRegion) : list Z :=
  (fun i => containing_address (start_frame r * 4096 + 4096 * i)) <$> seqZ 0 (end_frame r - start_frame r).

Definition usable_frames : list Z := filter (fun r => is_usable r) memory_map ≫= region_frames.

Definition cursor : prog Phys E Z := let! s := pget in pret (next s).

Fixpoint free_list_loop (fuel : nat) (node : option Z) (len : Z) : prog Phys E Z :=
  match node with
  | None => pret len
  | Some addr =>
      match fuel with
      | O => pdiverge
      | S fuel' =>
          let! len' := u64_add len 1 in
          let! w := read_word addr in
          let! node' := link_of w in
          free_list_loop fuel' node' len'
      end
  end.

Definition free_list_len (fuel : nat) : prog Phys E Z := let! s := pget in free_list_loop fuel (free_list s) 0.

Definition allocate_frame : prog Phys E (option Z) :=
  let! s := pget in
  match free_list s with
  | Some head =>
      let! w := read_word head in
      let! l := link_of w in
      pmodify (set_free l) ;;!
      pret (Some (containing_address head))
  | None =>
      let frame := usable_frames !! Z.to_nat (next s) in
      let! n := u64_add (next s) 1 in
      pmodify (set_next n) ;;!
      pret frame
  end.

Definition deallocate_frame (frame : Z) : prog Phys E unit :=
  passert (negb (frame =? FREE_LIST_END)) ;;!
  let! s := pget in
  write_word frame (default FREE_LIST_END (free_list s)) ;;!
  pmodify (set_free (Some frame)).

(** The search for a run of [count] adjacent frames. *)
Fixpoint contiguous_loop (count : Z) (frames : list Z) (offset : Z) (run_start : option Z) (run_offset run_len : Z)
    (prev : option Z) : prog Phys E (option Z) :=
  match frames with
  | [] => pret None
  | frame :: frames' =>
      let contiguous := match prev with Some p => frame =? p + 4096 | None => false end in
      let '(run_start, run_offset, run_len) :=
        if contiguous then (run_start, run_offset, run_len + 1) else (Some frame, offset, 1) in
      if run_len =? count then
        let! s := pget in
        let! step := u64_add run_offset count in
        let! n := u64_add (next s) step in
        pmodify (set_next n) ;;!
        pret run_start
      else contiguous_loop count frames' (offset + 1) run_start run_offset run_len (Some frame)
  end.

Definition allocate_contiguous (count : Z) : prog Phys E (option Z) :=
  if count =? 0 then pret None
  else
    let! s := pget in
    contiguous_loop count (drop (Z.to_nat (next s)) usable_frames) 0 None 0 0 None.
End Alloc.

(** ** The invariant *)

Section Inv.
Context (memory_map : list MemoryRegion).
#[local] Abbreviation usable := (usable_frames memory_map).
#[local] Abbreviation fprog := (prog Phys Empty_set).

(** The contract of [init] on the boot loader's map: the usable regions do not
    overlap, frame 0 is not in them, and addresses have at most 52 bits. *)
Record map_ok : Prop := {
  map_bounds r : r ∈ memory_map -> is_usable r = true -> 0 < start_frame r /\ end_frame r <= 2 ^ 40;
  map_distinct : NoDup memory_map;
  map_disjoint r r' : r ∈ memory_map -> r' ∈ memory_map -> r <> r' ->
    is_usable r = true -> is_usable r' = true -> end_frame r <= start_frame r' \/ end_frame r' <= start_frame r
}.

(** The links of the free list, from a head. *)
Definition next_free (w : Z) : option Z := if w =? FREE_LIST_END then None else Some w.

Fixpoint chain (m : gmap Z Z) (head : option Z) (l : list Z) : Prop :=
  match l with
  | [] => head = None
  | f :: l' => head = Some f /\ chain m (next_free (ram_word m f)) l'
  end.

Definition handed (s : Phys) : list Z := take (Z.to_nat (next s)) usable.

(** [owned] are the frames in use, [free] the freed ones, all handed out by the
    cursor before. *)
Record alloc_ok (s : Phys) (owned : gset Z) (free : list Z) : Prop := {
  ok_next : 0 <= next s;
  ok_chain : chain (ram s) (free_list s) free;
  ok_nodup : NoDup free;
  ok_free f : f ∈ free -> f ∈ handed s;
  ok_owned f : f ∈ owned -> f ∈ handed s /\ f ∉ free
}.

Lemma elem_of_region_frames r f : f ∈ region_frames r <-> exists k, f = 4096 * k /\ start_frame r <= k < end_frame r.
Proof.
  unfold region_frames, containing_address. rewrite list_elem_of_fmap. split.
  - intros (i & -> & Hi%elem_of_seqZ). exists (start_frame r + i). split; [|lia].
    replace (start_frame r * 4096 + 4096 * i) with ((start_frame r + i) * 4096) by lia. rewrite Z.mod_mul by lia. lia.
  - intros (k & -> & Hk). exists (k - start_frame r). split; [|apply elem_of_seqZ; lia].
    replace (start_frame r * 4096 + 4096 * (k - start_frame r)) with (k * 4096) by lia. rewrite Z.mod_mul by lia. lia.
Qed.

Lemma NoDup_region_frames r : NoDup (region_frames r).
Proof.
  apply NoDup_fmap_2_strong; [|apply NoDup_seqZ]. intros x y _ _. unfold containing_address. intros H.
  replace (start_frame r * 4096 + 4096 * x) with ((start_frame r + x) * 4096) in H by lia.
  replace (start_frame r * 4096 + 4096 * y) with ((start_frame r + y) * 4096) in H by lia.
  rewrite !Z.mod_mul in H by lia. lia.
Qed.

Lemma elem_of_usable f : f ∈ usable <-> exists r, r ∈ memory_map /\ is_usable r = true /\ f ∈ region_frames r.
Proof.
  unfold usable_frames. rewrite list_elem_of_bind. split.
  - intros (r & Hf & [Hu Hr]%list_elem_of_filter). exists r. split_and!; [done| |done]. by destruct (is_usable r).
  - intros (r & Hr & Hu & Hf). exists r. split; [done|]. apply list_elem_of_filter. split; [by rewrite Hu|done].
Qed.

Context (MO : map_ok).

Lemma usable_bounds f : f ∈ usable -> f mod 4096 = 0 /\ 0 < f < 2 ^ 52.
Proof.
  intros (r & Hr & Hu & (k & -> & Hk)%elem_of_region_frames)%elem_of_usable.
  destruct (map_bounds MO r Hr Hu). split; [|lia]. rewrite Z.mul_comm. by apply Z.mod_mul.
Qed.

Lemma NoDup_usable : NoDup usable.
Proof.
  apply NoDup_bind.
  - intros r r' f [Hu Hr]%list_elem_of_filter [Hu' Hr']%list_elem_of_filter (k & -> & Hk)%elem_of_region_frames
      (k' & Ek & Hk')%elem_of_region_frames.
    destruct (decide (r = r')) as [->|Hne]; [done|]. exfalso. apply Is_true_true in Hu, Hu'.
    destruct (map_disjoint MO r r' Hr Hr' Hne Hu Hu'); lia.
  - intros r _. apply NoDup_region_frames.
  - apply NoDup_filter, (map_distinct MO).
Qed.

Lemma handed_usable s f : f ∈ handed s -> f ∈ usable.
Proof. unfold handed. intros H. rewrite <- (take_drop (Z.to_nat (next s)) usable). apply elem_of_app. by left. Qed.

(** A frame beyond the cursor has not been handed out. *)
Lemma not_handed s i f : usable !! i = Some f -> (Z.to_nat (next s) <= i)%nat -> f ∉ handed s.
Proof.
  intros Hf Hi (j & Hj)%list_elem_of_lookup. unfold handed in Hj. apply lookup_take_Some in Hj as [Hj Hlt].
  assert (j = i) as -> by exact (NoDup_lookup _ _ _ _ NoDup_usable Hj Hf). lia.
Qed.

Lemma handed_mono s s' f : 0 <= next s <= next s' -> f ∈ handed s -> f ∈ handed s'.
Proof.
  unfold handed. intros H (j & Hj)%list_elem_of_lookup. apply lookup_take_Some in Hj as [Hj Hlt].
  apply list_elem_of_lookup. exists j. apply lookup_take_Some. split; [done|lia].
Qed.

(** Writes outside the frames of the free list keep it. *)
Lemma chain_write m head l a v : a ∉ l -> chain m head l -> chain (<[a := v]> m) head l.
Proof.
  revert head. induction l as [|f l IH]; intros head Ha; [done|]. cbn [chain].
  apply not_elem_of_cons in Ha as [Ha Hl]. intros [-> Hc]. split; [done|].
  unfold ram_word in *. rewrite lookup_insert_ne by done. by apply IH.
Qed.

Lemma chain_cons m head l f :
  f <> 0 -> (forall x, x ∈ l -> x <> 0) -> f ∉ l -> chain m head l ->
  chain (<[f := default FREE_LIST_END head]> m) (Some f) (f :: l).
Proof.
  intros Hf Hl Hn Hc. cbn [chain]. split; [done|]. unfold ram_word at 1. rewrite lookup_insert_eq. cbn [default].
  apply chain_write; [done|]. destruct l as [|g l]; cbn [chain] in Hc; [subst head; by cbn|].
  destruct Hc as [-> Hc]. cbn [default from_option id chain]. split; [|done].
  unfold next_free. rewrite (proj2 (Z.eqb_neq g _)); [done|]. apply Hl. by left.
Qed.

Lemma wp_link_of {E} s (w : Z) (Q : option Z -> Phys -> Prop) (X : E -> Phys -> Prop) :
  w < 2 ^ 52 -> Q (next_free w) s -> wp (link_of w) Q X s.
Proof.
  intros Hw HQ. unfold link_of, next_free in *. destruct (w =? FREE_LIST_END); [by apply wp_ret|]. cbn [negb].
  apply wp_bind, wp_bind, wp_assert; [by apply Z.ltb_lt|]. by apply wp_ret, wp_ret.
Qed.

Lemma wp_word {E} s a (Q : Z -> Phys -> Prop) (X : E -> Phys -> Prop) :
  Q (ram_word (ram s) a) s -> wp (read_word a) Q X s.
Proof. intros HQ. apply wp_bind, wp_get. by apply wp_ret. Qed.

Lemma next_free_bound m o l :
  chain m o l -> (forall f, f ∈ l -> f < 2 ^ 52) -> default 0 o < 2 ^ 52.
Proof. destruct l as [|f l]; cbn [chain]; [intros -> _; done|]. intros [-> _] Hl. apply Hl. by left. Qed.

Lemma next_free_default w : default 0 (next_free w) = w.
Proof. unfold next_free, FREE_LIST_END. destruct (w =? 0) eqn:E; [|done]. apply Z.eqb_eq in E. by subst. Qed.

(** The cursor does not overflow as long as frames are left. *)
Definition cursor_ok (s : Phys) : Prop := Z.max (next s) (Z.of_nat (length usable)) + 1 < U64.

Definition exhausted (s : Phys) : Prop := free_list s = None /\ Z.of_nat (length usable) <= next s.

(** What an allocation gives. *)
Definition allocated (s : Phys) (owned : gset Z) (free : list Z) (r : option Z) (s' : Phys) : Prop :=
  ram s' = ram s /\
  match r with
  | Some f => f ∈ usable /\ (f ∉ owned) /\ (cursor_ok s -> cursor_ok s') /\ exists free', alloc_ok s' ({[f]} ∪ owned) free'
  | None => free = [] /\ exhausted s /\ exhausted s' /\ alloc_ok s' owned []
  end.

Lemma ok_cursor s s' owned free :
  alloc_ok s owned free -> ram s' = ram s -> free_list s' = free_list s -> next s <= next s' -> alloc_ok s' owned free.
Proof.
  intros [O1 O2 O3 O4 O5] Hr Hf Hn. split; [lia|by rewrite Hr, Hf|done| |].
  - intros f Hin. eapply handed_mono; [|by apply O4]. lia.
  - intros f Hin. destruct (O5 f Hin). split; [|done]. eapply handed_mono; [|done]. lia.
Qed.

Lemma ok_take s owned free f :
  alloc_ok s owned free -> f ∈ handed s -> f ∉ free -> alloc_ok s ({[f]} ∪ owned) free.
Proof.
  intros [O1 O2 O3 O4 O5] Hh Hf. split; try done. intros g [->%elem_of_singleton|Hg]%elem_of_union; [done|by apply O5].
Qed.

Lemma allocate_frame_spec {E} s owned free :
  alloc_ok s owned free -> next s + 1 < U64 ->
  wp (allocate_frame memory_map) (allocated s owned free) (fun (_ : E) _ => False) s.
Proof.
  intros O Hn. unfold allocate_frame. apply wp_bind, wp_get. pose proof O as [O1 O2 O3 O4 O5].
  destruct free as [|f free]; cbn [chain] in O2.
  - rewrite O2. apply wp_bind. eapply wp_unwrap; [apply checked_spec; split; lia|]. cbn beta.
    apply wp_bind, wp_modify, wp_ret. split; [done|].
    set (s' := set_next (next s + 1) s).
    assert (O' : alloc_ok s' owned []) by (eapply ok_cursor; [done..|]; subst s'; cbn [next set_next]; lia).
    destruct (usable !! Z.to_nat (next s)) as [f|] eqn:Ef.
    + apply lookup_lt_Some in Ef as Hlt. split_and!; [by apply list_elem_of_lookup_2 in Ef| | |].
      * intros Hf. eapply (not_handed s _ f Ef); [lia|]. by apply O5.
      * unfold cursor_ok. subst s'. cbn [next set_next]. lia.
      * exists []. apply ok_take; [done| |set_solver]. apply list_elem_of_lookup. exists (Z.to_nat (next s)).
        apply lookup_take_Some. split; [done|]. subst s'. cbn [next set_next]. lia.
    + apply lookup_ge_None in Ef. unfold exhausted. subst s'. cbn [free_list next set_next].
      split_and!; [done|done|lia|done|lia|done].
  - destruct O2 as [-> Hc]. apply NoDup_cons in O3 as [Hnf O3].
    assert (Hu : forall g, g ∈ f :: free -> g mod 4096 = 0 /\ 0 < g < 2 ^ 52).
    { intros g Hg. by eapply usable_bounds, handed_usable, O4. }
    assert (Hf : f ∈ f :: free) by by left.
    apply wp_bind, wp_word, wp_bind, wp_link_of.
    { rewrite <- (next_free_default (ram_word _ _)). eapply next_free_bound; [exact Hc|]. intros g Hg. apply Hu. by right. }
    apply wp_bind, wp_modify, wp_ret. unfold containing_address. rewrite (proj1 (Hu f Hf)), Z.sub_0_r.
    split_and!; [done|..].
    + by eapply handed_usable, O4.
    + intros Hin. by apply O5 in Hin as [_ []].
    + done.
    + exists free. apply ok_take; [|by apply O4|done]. split; [done|done|done| |].
      * intros g Hg. apply O4. by right.
      * intros g Hg. destruct (O5 g Hg) as [Hh Hnot]. split; [done|]. set_solver.
Qed.

Lemma deallocate_frame_spec {E} s owned free f :
  alloc_ok s owned free -> f ∈ owned ->
  wp (deallocate_frame f)
     (fun _ s' => alloc_ok s' (owned ∖ {[f]}) (f :: free) /\ next s' = next s /\ free_list s' = Some f /\
                  ram s' = <[f := default FREE_LIST_END (free_list s)]> (ram s))
     (fun (_ : E) _ => False) s.
Proof.
  intros O Hf. pose proof O as [O1 O2 O3 O4 O5]. destruct (O5 f Hf) as [Hh Hn].
  destruct (usable_bounds f) as [_ Hb]; [by eapply handed_usable|].
  unfold deallocate_frame. apply wp_bind, wp_assert; [by rewrite (proj2 (Z.eqb_neq f _)) by (unfold FREE_LIST_END; lia)|].
  apply wp_bind, wp_get, wp_bind, wp_modify, wp_modify. split_and!; [|done..].
  split; cbn [ram next free_list set_free set_ram].
  - done.
  - apply chain_cons; [lia| |done|done]. intros x Hx.
    destruct (usable_bounds x) as [_ Hx']; [by eapply handed_usable, O4|lia].
  - by apply NoDup_cons.
  - intros g [->|Hg]%elem_of_cons; [done|by apply O4].
  - intros g [Hg Hgf]%elem_of_difference. destruct (O5 g Hg). split; [done|]. set_solver.
Qed.

(** The owner of a frame may write to it. *)
Lemma owner_write_ok s owned free f a v :
  alloc_ok s owned free -> f ∈ owned -> f <= a < f + 4096 -> alloc_ok (set_ram (<[a := v]> (ram s)) s) owned free.
Proof.
  intros O Hf Ha. pose proof O as [O1 O2 O3 O4 O5]. split; try done. cbn [ram set_ram free_list].
  apply chain_write; [|done]. intros Hin. destruct (O5 f Hf) as [Hh Hn].
  destruct (usable_bounds f) as [Hf1 _]; [by eapply handed_usable|].
  destruct (usable_bounds a) as [Ha1 _]; [by eapply handed_usable, O4|].
  assert (a = f) as -> by (pose proof (Z.div_mod a 4096); pose proof (Z.div_mod f 4096); lia). done.
Qed.

(** ** Runs of adjacent frames *)

Definition adjacent (L : list Z) (i n : nat) (f : Z) : Prop :=
  forall j, (j < n)%nat -> L !! (i + j)%nat = Some (f + 4096 * Z.of_nat j).

(** The run the search is in, after [k] frames. *)
Definition in_run (L : list Z) (count k ro rl : nat) (rs prev : option Z) : Prop :=
  (ro + rl = k /\ rl < count)%nat /\ (forall i g, (i < ro)%nat -> ~ adjacent L i count g) /\
  (k = 0%nat /\ prev = None \/
   exists f, (0 < rl)%nat /\ rs = Some f /\ adjacent L ro rl f /\ prev = Some (f + 4096 * (Z.of_nat rl - 1))).

Lemma adjacent_snoc L i n f : adjacent L i n f -> L !! (i + n)%nat = Some (f + 4096 * Z.of_nat n) -> adjacent L i (S n) f.
Proof. intros Ha Hl j Hj. destruct (decide (j = n)) as [->|]; [done|]. apply Ha. lia. Qed.

(** A run does not cross a gap. *)
Lemma not_across L count k ro rl f g x i :
  adjacent L ro rl f -> (0 < rl)%nat -> (ro + rl = k)%nat -> (rl < count)%nat ->
  L !! k = Some x -> x <> f + 4096 * Z.of_nat rl -> (ro <= i < k)%nat -> ~ adjacent L i count g.
Proof.
  intros Ha Hrl Hk Hc Hx Hne Hi Hg.
  pose proof (Ha (k - 1 - ro)%nat ltac:(lia)) as H1. pose proof (Hg (k - 1 - i)%nat ltac:(lia)) as H2.
  pose proof (Hg (k - i)%nat ltac:(lia)) as H3.
  replace (ro + (k - 1 - ro))%nat with (k - 1)%nat in H1 by lia.
  replace (i + (k - 1 - i))%nat with (k - 1)%nat in H2 by lia. replace (i + (k - i))%nat with k in H3 by lia.
  rewrite H1 in H2. rewrite Hx in H3. simplify_eq. lia.
Qed.

Definition found (s : Phys) (L : list Z) (count : nat) (r : option Z) (s' : Phys) : Prop :=
  match r with
  | Some f => exists i, adjacent L i count f /\ s' = set_next (next s + Z.of_nat (i + count)) s
  | None => s' = s /\ forall i g, ~ adjacent L i count g
  end.

Lemma contiguous_loop_spec {E} s L (count : nat) : forall frames k ro rl rs prev,
  0 <= next s -> next s + Z.of_nat (length L) < U64 -> (0 < count)%nat ->
  frames = drop k L -> in_run L count k ro rl rs prev ->
  wp (contiguous_loop (Z.of_nat count) frames (Z.of_nat k) rs (Z.of_nat ro) (Z.of_nat rl) prev)
     (found s L count) (fun (_ : E) _ => False) s.
Proof.
  induction frames as [|x frames IH]; intros k ro rl rs prev Hn0 Hn Hc Hfr ([Hk Hrl] & Hno & Hrun).
  { apply wp_ret. split; [done|]. intros i g Hg. destruct (decide (i < ro)%nat) as [|Hi]; [by eapply Hno|].
    pose proof (Hg (count - 1)%nat ltac:(lia)) as Hl. apply lookup_lt_Some in Hl.
    symmetry in Hfr. apply (f_equal length) in Hfr. rewrite length_drop in Hfr. cbn [length] in Hfr. lia. }
  symmetry in Hfr. assert (Hx : L !! k = Some x) by (rewrite <- (Nat.add_0_r k), <- lookup_drop, Hfr; done).
  assert (Hrest : drop (S k) L = frames) by (rewrite <- Nat.add_1_r, <- drop_drop, Hfr; done).
  cbn [contiguous_loop].
  set (c := match prev with Some p => x =? p + 4096 | None => false end).
  assert (Hnext : exists ro' rl' rs',
    (if c then (rs, Z.of_nat ro, Z.of_nat rl + 1) else (Some x, Z.of_nat k, 1)) = (rs', Z.of_nat ro', Z.of_nat rl') /\
    (ro' + rl' = S k /\ 0 < rl' <= count)%nat /\ (forall i g, (i < ro')%nat -> ~ adjacent L i count g) /\
    exists f, rs' = Some f /\ adjacent L ro' rl' f /\ x = f + 4096 * (Z.of_nat rl' - 1)).
  { destruct c eqn:Ec; subst c.
    - destruct Hrun as [[_ ->]|(f & Hp & -> & Ha & ->)]; [done|]. apply Z.eqb_eq in Ec.
      exists ro, (S rl), (Some f). split_and!; [repeat f_equal; lia|lia..|done|]. exists f. split_and!; [done| |lia].
      apply adjacent_snoc; [done|]. rewrite Hk, Hx. f_equal. lia.
    - exists k, 1%nat, (Some x). split_and!; [done|lia..| |].
      + intros i g Hi. destruct Hrun as [[-> _]|(f & Hp & -> & Ha & ->)]; [lia|]. apply Z.eqb_neq in Ec.
        destruct (decide (i < ro)%nat); [by apply Hno|]. eapply not_across; [done..|lia|lia].
      + exists x. split_and!; [done| |lia]. intros j Hj. replace j with 0%nat by lia. rewrite Nat.add_0_r, Hx. f_equal. lia. }
  destruct Hnext as (ro' & rl' & rs' & -> & [Hk' Hrl'] & Hno' & f & -> & Ha' & Hxf).
  apply lookup_lt_Some in Hx as Hlen.
  destruct (Z.of_nat rl' =? Z.of_nat count) eqn:Ee; zbool.
  - apply Nat2Z.inj in Ee as ->. apply wp_bind, wp_get, wp_bind. eapply wp_unwrap; [apply checked_spec; split; lia|].
    cbn beta. apply wp_bind. eapply wp_unwrap; [apply checked_spec; split; lia|]. cbn beta.
    apply wp_bind, wp_modify, wp_ret. exists ro'. split; [done|]. f_equal. lia.
  - replace (Z.of_nat k + 1) with (Z.of_nat (S k)) by lia. apply IH; [done..|].
    split_and!; [lia..|done|]. right. exists f. split_and!; [lia|done..|]. f_equal. lia.
Qed.

Definition run (f count : Z) : gset Z := list_to_set ((fun i => f + 4096 * i) <$> seqZ 0 count).

Lemma elem_of_run f count x : x ∈ run f count <-> exists i, 0 <= i < count /\ x = f + 4096 * i.
Proof.
  unfold run. rewrite elem_of_list_to_set, list_elem_of_fmap. split.
  - intros (i & -> & Hi%elem_of_seqZ). exists i. split; [lia|done].
  - intros (i & Hi & ->). exists i. split; [done|]. apply elem_of_seqZ. lia.
Qed.

(** What an allocation of adjacent frames gives. *)
Definition allocated_run (s : Phys) (owned : gset Z) (free : list Z) (count : Z) (r : option Z) (s' : Phys) : Prop :=
  match r with
  | Some f => ram s' = ram s /\ (forall x, x ∈ run f count -> x ∈ usable /\ x ∉ owned) /\
              alloc_ok s' (run f count ∪ owned) free
  | None => s' = s /\ forall i f, ~ (0 < count /\ adjacent (drop (Z.to_nat (next s)) usable) i (Z.to_nat count) f)
  end.

Lemma allocate_contiguous_spec {E} s owned free count :
  alloc_ok s owned free -> 0 <= count -> next s + Z.of_nat (length usable) < U64 ->
  wp (allocate_contiguous memory_map count) (allocated_run s owned free count) (fun (_ : E) _ => False) s.
Proof.
  intros O Hc Hn. pose proof (ok_next _ _ _ O) as H0. unfold allocate_contiguous. destruct (count =? 0) eqn:Ec; zbool.
  { apply wp_ret. split; [done|]. lia. }
  apply wp_bind, wp_get. set (L := drop _ usable). replace count with (Z.of_nat (Z.to_nat count)) at 1 by lia.
  eapply wp_mono; [apply (contiguous_loop_spec s L (Z.to_nat count) _ 0 0 0); [done| |lia|done|]| |done].
  { subst L. rewrite length_drop. lia. }
  { split_and!; [lia..|lia|]. by left. }
  intros [f|] s'; cbn [found allocated_run]; [|intros [-> Hf]; split; [done|]; by intros i f [_ ?%Hf]].
  intros (i & Ha & ->). split; [done|].
  assert (Hrun : forall x, x ∈ run f count -> exists j, (Z.to_nat (next s) <= j < Z.to_nat (next s) + i + Z.to_nat count)%nat /\
    usable !! j = Some x).
  { intros x (k & Hk & ->)%elem_of_run. exists (Z.to_nat (next s) + (i + Z.to_nat k))%nat. split; [lia|].
    pose proof (Ha (Z.to_nat k) ltac:(lia)) as Hl. subst L. rewrite lookup_drop in Hl. rewrite Hl. f_equal. lia. }
  split.
  - intros x (j & Hj & Hx)%Hrun. split; [by eapply list_elem_of_lookup_2|]. intros [Hin _]%(ok_owned _ _ _ O).
    eapply not_handed; [done| |exact Hin]. lia.
  - assert (O' : alloc_ok (set_next (next s + Z.of_nat (i + Z.to_nat count)) s) owned free).
    { eapply ok_cursor; [exact O|done..|]. cbn [next set_next]. lia. }
    destruct O' as [P1 P2 P3 P4 P5]. split; try done. intros x [Hx|Hx]%elem_of_union; [|by apply P5].
    destruct (Hrun x Hx) as (j & Hj & Hl). split.
    + apply list_elem_of_lookup. exists j. apply lookup_take_Some. split; [done|]. cbn [next set_next]. lia.
    + intros Hfree%(ok_free _ _ _ O). eapply not_handed; [exact Hl| |exact Hfree]. lia.
Qed.

(** The cursor after a run was handed out. *)
Lemma allocate_contiguous_next {E} s count (X : E -> Phys -> Prop) :
  0 <= next s -> 0 <= count -> next s + Z.of_nat (length usable) < U64 ->
  wp (allocate_contiguous memory_map count) (fun r s' => match r with Some _ => 0 <= next s' <= Z.of_nat (length usable) | None => s' = s end)
    X s.
Proof.
  intros H0 Hc Hn. unfold allocate_contiguous. destruct (count =? 0) eqn:Ec; zbool; [by apply wp_ret|].
  apply wp_bind, wp_get. set (L := drop _ usable). replace count with (Z.of_nat (Z.to_nat count)) at 1 by lia.
  eapply wp_mono; [apply (contiguous_loop_spec s L (Z.to_nat count) _ 0 0 0); [done| |lia|done|]| |done].
  { subst L. rewrite length_drop. lia. }
  { split_and!; [lia..|lia|]. by left. }
  intros [f|] s'; cbn [found]; [|by intros [-> _]]. intros (i & Ha & ->). cbn [next set_next].
  pose proof (Ha (Z.to_nat count - 1)%nat ltac:(lia)) as Hl. apply lookup_lt_Some in Hl. subst L. rewrite length_drop in Hl. lia.
Qed.

(** ** Reachable states

    The frames in use are those handed out and not given back; their users write
    to them as they like. *)
Inductive alloc_step : Phys * gset Z -> Phys * gset Z -> Prop :=
| step_allocate s owned r s' :
    next s + 1 < U64 -> (allocate_frame memory_map : fprog _) s = (Ret r, s') ->
    alloc_step (s, owned) (s', from_option (fun f => {[f]} ∪ owned) owned r)
| step_contiguous s owned count r s' :
    0 <= count -> next s + Z.of_nat (length usable) < U64 ->
    (allocate_contiguous memory_map count : fprog _) s = (Ret r, s') ->
    alloc_step (s, owned) (s', from_option (fun f => run f count ∪ owned) owned r)
| step_deallocate s owned f s' :
    f ∈ owned -> (deallocate_frame f : fprog _) s = (Ret tt, s') -> alloc_step (s, owned) (s', owned ∖ {[f]})
| step_write s owned f a v :
    f ∈ owned -> f <= a < f + 4096 -> alloc_step (s, owned) (set_ram (<[a := v]> (ram s)) s, owned).

Definition alloc_reachable (x : Phys * gset Z) : Prop := exists s0, rtc alloc_step (init s0, ∅) x.

Lemma alloc_step_ok x y free : alloc_step x y -> alloc_ok x.1 x.2 free -> exists free', alloc_ok y.1 y.2 free'.
Proof.
  intros H O. destruct H as [s owned r s' Hn E|s owned count r s' Hc Hn E|s owned f s' Hf E|s owned f a v Hf Ha];
    cbn [fst snd] in *.
  - pose proof (allocate_frame_spec (E := Empty_set) _ _ _ O Hn) as H. unfold wp in H. rewrite E in H.
    destruct H as [_ H]. destruct r as [f|]; [by destruct H as (_ & _ & _ & H)|]. destruct H as (_ & _ & _ & H). by exists [].
  - pose proof (allocate_contiguous_spec (E := Empty_set) _ _ _ _ O Hc Hn) as H. unfold wp in H. rewrite E in H.
    destruct r as [f|]; cbn [allocated_run from_option] in *; exists free; [by destruct H as (_ & _ & H)|].
    by destruct H as [-> _].
  - pose proof (deallocate_frame_spec (E := Empty_set) _ _ _ _ O Hf) as H. unfold wp in H. rewrite E in H.
    exists (f :: free). by destruct H.
  - exists free. by eapply owner_write_ok.
Qed.

Lemma alloc_reachable_ok x : alloc_reachable x -> exists free, alloc_ok x.1 x.2 free.
Proof.
  intros [s0 Hr]. revert x Hr. apply rtc_ind_r.
  - exists []. split; [done|done|constructor|set_solver|set_solver].
  - intros y z _ Hs [free O]. by eapply alloc_step_ok.
Qed.

(** The length of the free list, walked link by link. *)
Lemma free_list_loop_spec {E} s : forall free node fuel len,
  chain (ram s) node free -> (length free <= fuel)%nat -> (forall f, f ∈ free -> f < 2 ^ 52) ->
  0 <= len -> len + Z.of_nat (length free) < U64 ->
  wp (free_list_loop fuel node len) (fun n s' => s' = s /\ n = len + Z.of_nat (length free)) (fun (_ : E) _ => False) s.
Proof.
  induction free as [|f free IH]; intros node fuel len Hc Hfuel Hb H0 Hl; cbn [chain length] in *.
  - subst node. destruct fuel; (apply wp_ret; split; [done|lia]).
  - destruct Hc as [-> Hc]. destruct fuel as [|fuel]; [lia|]. cbn [free_list_loop].
    apply wp_bind. eapply wp_unwrap; [apply checked_spec; split; lia|]. cbn beta.
    apply wp_bind, wp_word, wp_bind, wp_link_of.
    { rewrite <- (next_free_default (ram_word _ _)). eapply next_free_bound; [exact Hc|]. intros g Hg. apply Hb. by right. }
    eapply wp_mono; [apply IH; [exact Hc|lia| |lia|lia]| |done].
    + intros g Hg. apply Hb. by right.
    + intros n s' [-> ->]. split; [done|lia].
Qed.

Lemma free_owned_le s owned free : alloc_ok s owned free -> (length free + size owned <= length usable)%nat.
Proof.
  intros [O1 O2 O3 O4 O5]. change (size owned) with (length (elements owned)). rewrite <- length_app.
  apply submseteq_length, NoDup_submseteq.
  - apply NoDup_app. split_and!; [done| |apply NoDup_elements]. intros f Hf Ho%elem_of_elements. by apply O5 in Ho as [_ []].
  - intros f [Hf|Hf%elem_of_elements]%elem_of_app; eapply handed_usable; [by apply O4|by apply O5].
Qed.

Lemma allocate_head {E} s f l :
  free_list s = Some f -> f mod 4096 = 0 -> ram_word (ram s) f = default FREE_LIST_END l ->
  (forall g, l = Some g -> 0 < g < 2 ^ 52) ->
  (allocate_frame memory_map : prog Phys E _) s = (Ret (Some f), set_free l s).
Proof.
  intros Hl Hm Hw Hg. unfold allocate_frame, read_word, link_of, PhysAddr_new, pbind, pget, pret, pmodify.
  rewrite Hl, Hw. unfold containing_address. rewrite Hm, Z.sub_0_r. destruct l as [g|]; cbn [default from_option id]; [|done].
  specialize (Hg g eq_refl). rewrite (proj2 (Z.eqb_neq g _)) by (unfold FREE_LIST_END; lia). cbn [negb].
  by rewrite (proj2 (Z.ltb_lt g _)) by lia.
Qed.

(** A frame given back is the next one to be handed out, and the allocator is
    then as it was. *)
Lemma deallocate_allocate s owned free f :
  alloc_ok s owned free -> f ∈ owned ->
  exists s1, (deallocate_frame f : fprog _) s = (Ret tt, s1) /\
    (forall a, a <> f -> ram_word (ram s1) a = ram_word (ram s) a) /\ next s1 = next s /\
    (allocate_frame memory_map : fprog _) s1 = (Ret (Some f), set_free (free_list s) s1).
Proof.
  intros O Hf. destruct (wp_total _ _ _ (deallocate_frame_spec (E := Empty_set) s owned free f O Hf)) as
    ([] & s1 & E1 & O1 & Hn & Hl & Hr).
  exists s1. split_and!; [done| |done|].
  - intros a Ha. unfold ram_word. by rewrite Hr, lookup_insert_ne.
  - destruct (ok_owned _ _ _ O f Hf) as [Hh _]. destruct (usable_bounds f) as [Hm _]; [by eapply handed_usable|].
    apply allocate_head; [done|done|unfold ram_word; by rewrite Hr, lookup_insert_eq|].
    intros g Hg. pose proof (ok_chain _ _ _ O) as Hc. destruct free as [|h free]; cbn [chain] in Hc; [congruence|].
    destruct Hc as [Hc _]. rewrite Hc in Hg. injection Hg as <-. eapply usable_bounds, handed_usable, (ok_free _ _ _ O). by left.
Qed.

End Inv.

(** Two usable regions of two frames with a hole between them. *)
Definition sample_map : list MemoryRegion :=
  [mkRegion false 0 1; mkRegion true 1 3; mkRegion false 3 4; mkRegion true 4 6].

Lemma sample_map_ok : map_ok sample_map.
Proof.
  assert (D : forall r, r ∈ sample_map -> is_usable r = true -> r = mkRegion true 1 3 \/ r = mkRegion true 4 6).
  { intros r Hr Hu. repeat (apply elem_of_cons in Hr as [->|Hr]; [first [by left|by right|done]|]). by apply not_elem_of_nil in Hr. }
  split.
  - intros r Hr Hu. destruct (D r Hr Hu) as [->| ->]; cbn; lia.
  - apply (bool_decide_unpack (NoDup sample_map)). vm_compute. done.
  - intros r r' Hr Hr' Hne Hu Hu'. destruct (D r Hr Hu) as [->| ->], (D r' Hr' Hu') as [->| ->]; cbn; try done; lia.
Qed.

(** One frame handed out, a run of two beyond the hole, and the first given back. *)
Definition sample_phys : Phys := mkPhys {[ 4096 := 0 ]} 4 (Some 4096).

Lemma sample_reachable : alloc_reachable sample_map (sample_phys, (run 16384 2 ∪ ({[4096]} ∪ ∅)) ∖ {[4096]}).
Proof.
  exists (mkPhys ∅ 9 (Some 9)).
  eapply rtc_l; [apply (step_allocate sample_map _ ∅ (Some 4096) (mkPhys ∅ 1 None)); vm_compute; done|].
  eapply rtc_l; [apply (step_contiguous sample_map _ _ 2 (Some 16384) (mkPhys ∅ 4 None)); vm_compute; done|].
  eapply rtc_l; [apply (step_deallocate sample_map _ _ 4096 sample_phys); [set_solver|vm_compute; done]|]. apply rtc_refl.
Qed.

