(* ===== verification/Pci.v ===== *)
(** * Ports and the PCI bus

    [arch/x86_64/io.rs], [arch/x86_64/pci.rs] and [drivers/pci.rs]: port input
    and output, the configuration space behind two ports, and the enumeration
    of the bus.  What is behind the ports is an interface. *)

From stdpp Require Import base numbers list gmap.
From Stdlib Require Import ZArith Lia.
From S2P Require Import Prelude.
#[local] Open Scope Z_scope.

(** [Port::read] and [Port::write] of a width in bytes. *)
Class PortIO (W : Type) : Type := {
  port_in : Z -> Z -> W -> Z * W;
  port_out : Z -> Z -> Z -> W -> W
}.

Definition VENDOR_NONE : Z := 0xFFFF.
Definition HEADER_MULTIFUNCTION : Z := 0x80.
Definition CONFIG_ADDRESS : Z := 0xCF8.
Definition CONFIG_DATA : Z := 0xCFC.

Record PciDevice : Type := mkPciDevice {
  bus : Z; slot : Z; func : Z; vendor_id : Z; device_id : Z;
  class : Z; subclass : Z; prog_if : Z; header_type : Z; bars : list Z
}.

Inductive Bar : Type :=
| BarNone
| BarIo (base : Z)
| BarMem (base : Z) (prefetchable is_64 : bool).

Definition address (bus slot func offset : Z) : Z :=
  Z.lor (Z.lor (Z.lor (Z.lor 0x80000000 (Z.shiftl bus 16)) (Z.shiftl slot 11)) (Z.shiftl func 8)) (Z.land offset 0xFC).

(** [arch/x86_64/io.rs] *)
Module Io.
Section Io.
Context {W : Type} {P : PortIO W} {E : Type}.

Definition in_port (width port : Z) : prog W E Z := fun w => let '(x, w') := port_in width port w in (Ret x, w').
Definition inb : Z -> prog W E Z := in_port 1.
Definition inw : Z -> prog W E Z := in_port 2.
Definition inl : Z -> prog W E Z := in_port 4.
Definition outb (port v : Z) : prog W E unit := pmodify (port_out 1 port v).
Definition outw (port v : Z) : prog W E unit := pmodify (port_out 2 port v).
Definition outl (port v : Z) : prog W E unit := pmodify (port_out 4 port v).
End Io.
End Io.

Section Ports.
Context {W : Type} {P : PortIO W} {E : Type}.

Definition config_read_u32 (bus slot func offset : Z) : prog W E Z :=
  Io.outl CONFIG_ADDRESS (address bus slot func offset) ;;! Io.inl CONFIG_DATA.

Definition config_write_u32 (bus slot func offset value : Z) : prog W E unit :=
  Io.outl CONFIG_ADDRESS (address bus slot func offset) ;;! Io.outl CONFIG_DATA value.

Definition config_read_u16 (bus slot func offset : Z) : prog W E Z :=
  let! dword := config_read_u32 bus slot func offset in
  let shift := Z.land offset 2 * 8 in
  pret (Z.shiftr dword shift mod U16).

Definition config_read_u8 (bus slot func offset : Z) : prog W E Z :=
  let! dword := config_read_u32 bus slot func offset in
  let shift := Z.land offset 3 * 8 in
  pret (Z.shiftr dword shift mod U8).

Definition read_device (bus slot func : Z) : prog W E (option PciDevice) :=
  let! vendor_id := config_read_u16 bus slot func 0x00 in
  if vendor_id =? VENDOR_NONE then pret None
  else
    let! device_id := config_read_u16 bus slot func 0x02 in
    let! prog_if := config_read_u8 bus slot func 0x09 in
    let! subclass := config_read_u8 bus slot func 0x0A in
    let! class := config_read_u8 bus slot func 0x0B in
    let! header_type := config_read_u8 bus slot func 0x0E in
    let! bars := pfold (fun bars i => let! b := config_read_u32 bus slot func (0x10 + i * 4) in pret (bars ++ [b]))
                   (seqZ 0 6) [] in
    pret (Some (mkPciDevice bus slot func vendor_id device_id class subclass prog_if header_type bars)).

(** The functions 1 to 7 of a slot. *)
Definition push_functions (bus slot : Z) (devices : list PciDevice) : prog W E (list PciDevice) :=
  pfold (fun devices func =>
    let! d := read_device bus slot func in
    pret (match d with Some dev => devices ++ [dev] | None => devices end)) (seqZ 1 7) devices.

Definition enumerate : prog W E (list PciDevice) :=
  pfold (fun devices bus =>
    pfold (fun devices slot =>
      let! d := read_device bus slot 0 in
      match d with
      | None => pret devices
      | Some dev0 =>
          let multifunction := negb (Z.land (header_type dev0) HEADER_MULTIFUNCTION =? 0) in
          let devices := devices ++ [dev0] in
          if multifunction then push_functions bus slot devices else pret devices
      end) (seqZ 0 32) devices) (seqZ 0 256) [].

Definition find (vendor device : Z) : prog W E (option PciDevice) :=
  let! devices := enumerate in
  pret (List.find (fun d => (vendor_id d =? vendor) && (device_id d =? device)) devices).

(** [PciDevice::bar]; an index of 6 or more is out of bounds. *)
Definition bar (d : PciDevice) (index : nat) : prog W E Bar :=
  let! raw := punwrap (bars d !! index) in
  if raw =? 0 then pret BarNone
  else if negb (Z.land raw 1 =? 0) then pret (BarIo (Z.land raw 0xFFFFFFFC))
  else
    let is_64 := Z.land (Z.shiftr raw 1) 3 =? 2 in
    let prefetchable := negb (Z.land raw 8 =? 0) in
    let base := Z.land raw 0xFFFFFFF0 in
    let base := if is_64 && (S index <? length (bars d))%nat
                then Z.lor base (Z.shiftl (default 0 (bars d !! S index)) 32) else base in
    pret (BarMem base prefetchable is_64).
End Ports.

(** ** Specification *)

(** Configuration mechanism 1: the data port gives the register whose address was
    written last.  Reading leaves the devices [untouched], their registers among
    the rest. *)
Class PciHost (W : Type) {P : PortIO W} : Type := {
  cfg : W -> Z -> Z;
  untouched : W -> W -> Prop;
  untouched_order :: PreOrder untouched;
  untouched_cfg w w' a : untouched w w' -> cfg w' a = cfg w a;
  cfg_read w a x w' :
    port_in 4 CONFIG_DATA (port_out 4 CONFIG_ADDRESS a w) = (x, w') -> x = cfg w a /\ untouched w w'
}.

(** The fields of a function's registers. *)
Definition field (c : Z -> Z) (bus slot func offset width : Z) : Z :=
  Z.shiftr (c (address bus slot func offset)) (Z.land offset (4 - width) * 8) mod 2 ^ (8 * width).

Definition dev_of (c : Z -> Z) (bus slot func : Z) : option PciDevice :=
  if field c bus slot func 0x00 2 =? VENDOR_NONE then None
  else Some (mkPciDevice bus slot func (field c bus slot func 0x00 2) (field c bus slot func 0x02 2)
    (field c bus slot func 0x0B 1) (field c bus slot func 0x0A 1) (field c bus slot func 0x09 1) (field c bus slot func 0x0E 1)
    ((fun i => c (address bus slot func (0x10 + i * 4))) <$> seqZ 0 6)).

Definition is_multi (d : PciDevice) : bool := negb (Z.land (header_type d) HEADER_MULTIFUNCTION =? 0).

Definition slot_devices (c : Z -> Z) (bus slot : Z) : list PciDevice :=
  match dev_of c bus slot 0 with
  | None => []
  | Some d => d :: (if is_multi d then omap (dev_of c bus slot) (seqZ 1 7) else [])
  end.

Definition bus_devices (c : Z -> Z) : list PciDevice :=
  seqZ 0 256 ≫= fun bus => seqZ 0 32 ≫= fun slot => slot_devices c bus slot.

Section Spec.
Context {W : Type} {P : PortIO W} {H : PciHost W} {E : Type}.
Implicit Types (w : W) (X : E -> W -> Prop).

Lemma wp_config_read_u32 b s f o w (Q : Z -> W -> Prop) X :
  (forall w', untouched w w' -> Q (cfg w (address b s f o)) w') -> wp (config_read_u32 b s f o) Q X w.
Proof.
  intros HQ. unfold config_read_u32, Io.outl, Io.inl, Io.in_port. apply wp_bind, wp_modify. unfold wp.
  destruct (port_in 4 CONFIG_DATA _) as [x w'] eqn:Ep. apply cfg_read in Ep as [-> Hs]. by apply HQ.
Qed.

(** Reading through an unchanged configuration. *)
Definition readsc {A} (m : prog W E A) (w : W) (a : A) : Prop :=
  forall w0 X, untouched w w0 -> wp m (fun x w' => x = a /\ untouched w w') X w0.

Lemma readsc_bind {A B} (m : prog W E A) (k : A -> prog W E B) w a b :
  readsc m w a -> readsc (k a) w b -> readsc (let! x := m in k x) w b.
Proof.
  intros Hm Hk w0 X Hs. apply wp_bind. eapply wp_mono; [by apply (Hm w0 X)| |done]. intros x w1 [-> H1]. by apply Hk.
Qed.

Lemma readsc_ret {A} (a : A) w : readsc (pret a) w a.
Proof. intros w0 X Hs. by apply wp_ret. Qed.

Lemma readsc_u32 b s f o w : readsc (config_read_u32 b s f o) w (cfg w (address b s f o)).
Proof.
  intros w0 X Hs. apply wp_config_read_u32. intros w1 H1. rewrite (untouched_cfg _ _ _ Hs). split; [done|].
  by transitivity w0.
Qed.

Lemma readsc_u16 b s f o w : Z.land o 2 = Z.land o (4 - 2) -> readsc (config_read_u16 b s f o) w (field (cfg w) b s f o 2).
Proof. intros Ho. eapply readsc_bind; [apply readsc_u32|]. apply readsc_ret. Qed.

Lemma readsc_u8 b s f o w : readsc (config_read_u8 b s f o) w (field (cfg w) b s f o 1).
Proof. eapply readsc_bind; [apply readsc_u32|]. apply readsc_ret. Qed.

(** A loop that extends a list by what each index gives. *)
Lemma readsc_pfold {A B} (body : list B -> A -> prog W E (list B)) (g : A -> list B) w l acc :
  (forall acc x, x ∈ l -> readsc (body acc x) w (acc ++ g x)) -> readsc (pfold body l acc) w (acc ++ (l ≫= g)).
Proof.
  revert acc. induction l as [|x l IH]; intros acc Hb; cbn [pfold mbind list_bind].
  - rewrite app_nil_r. apply readsc_ret.
  - eapply readsc_bind; [apply Hb; by left|]. rewrite app_assoc. apply IH. intros acc' y Hy. apply Hb. by right.
Qed.

Lemma readsc_device b s f w : readsc (read_device b s f) w (dev_of (cfg w) b s f).
Proof.
  unfold read_device, dev_of. eapply readsc_bind; [by apply readsc_u16|]. destruct (_ =? VENDOR_NONE); [apply readsc_ret|].
  eapply readsc_bind; [by apply readsc_u16|]. do 4 (eapply readsc_bind; [apply readsc_u8|]).
  eapply readsc_bind; [|apply readsc_ret].
  assert (Hb : forall l : list Z, (fun i => cfg w (address b s f (0x10 + i * 4))) <$> l =
    [] ++ (l ≫= fun i => [cfg w (address b s f (0x10 + i * 4))])).
  { intros l. cbn [app]. induction l as [|i l IH]; [done|]. cbn [fmap list_fmap mbind list_bind app] in *. by rewrite IH. }
  rewrite Hb. apply readsc_pfold. intros acc i _. eapply readsc_bind; [apply readsc_u32|apply readsc_ret].
Qed.

Lemma omap_bind {A B} (g : A -> option B) l : omap g l = l ≫= fun x => option_list (g x).
Proof. induction l as [|x l IH]; [done|]. cbn. rewrite <- IH. by destruct (g x). Qed.

Lemma app_snoc {A} (l : list A) x k : l ++ x :: k = (l ++ [x]) ++ k.
Proof. by rewrite <- app_assoc. Qed.

Lemma readsc_enumerate w : readsc enumerate w (bus_devices (cfg w)).
Proof.
  unfold enumerate, bus_devices. change (seqZ 0 256 ≫= _) with ([] ++ (seqZ 0 256 ≫= fun bus => seqZ 0 32 ≫= fun slot => slot_devices (cfg w) bus slot)).
  apply readsc_pfold. intros acc b _. apply readsc_pfold. intros acc' s _. eapply readsc_bind; [apply readsc_device|].
  unfold slot_devices. destruct (dev_of (cfg w) b s 0) as [d|]; [|rewrite app_nil_r; apply readsc_ret].
  change (negb (Z.land (header_type d) HEADER_MULTIFUNCTION =? 0)) with (is_multi d). destruct (is_multi d); [|apply readsc_ret].
  unfold push_functions. rewrite omap_bind, (app_snoc acc' d (_ ≫= _)). apply readsc_pfold. intros acc2 f _. eapply readsc_bind; [apply readsc_device|].
  destruct (dev_of (cfg w) b s f); cbn [option_list]; [|rewrite app_nil_r]; apply readsc_ret.
Qed.
End Spec.

(** ** Addresses *)

Lemma address_sum b s f o : 0 <= b < 256 -> 0 <= s < 32 -> 0 <= f < 8 -> 0 <= o < 256 ->
  address b s f o = 2 ^ 31 + b * 2 ^ 16 + s * 2 ^ 11 + f * 2 ^ 8 + Z.land o 0xFC /\ 0 <= Z.land o 0xFC < 256.
Proof.
  intros Hb Hs Hf Ho. assert (Hl : 0 <= Z.land o 0xFC < 2 ^ 8) by (apply land_bound; lia).
  unfold address. change 0x80000000 with (Z.shiftl 1 31). rewrite <- !Z.lor_assoc. rewrite (lor_shiftl_add f) by lia.
  rewrite (lor_shiftl_add s) by lia. rewrite (lor_shiftl_add b) by lia. rewrite lor_shiftl_add by lia. lia.
Qed.

(** Different functions have different registers. *)
Lemma address_inj b s f b' s' f' o :
  0 <= b < 256 -> 0 <= s < 32 -> 0 <= f < 8 -> 0 <= b' < 256 -> 0 <= s' < 32 -> 0 <= f' < 8 -> 0 <= o < 256 ->
  address b s f o = address b' s' f' o -> b = b' /\ s = s' /\ f = f'.
Proof.
  intros Hb Hs Hf Hb' Hs' Hf' Ho. destruct (address_sum b s f o) as [-> _]; [done..|].
  destruct (address_sum b' s' f' o) as [-> _]; [done..|]. lia.
Qed.

(** A function that answers on the bus. *)
Definition on_bus (c : Z -> Z) (b s f : Z) (d : PciDevice) : Prop :=
  0 <= b < 256 /\ 0 <= s < 32 /\ 0 <= f < 8 /\ dev_of c b s f = Some d /\
  (f = 0 \/ exists d0, dev_of c b s 0 = Some d0 /\ is_multi d0 = true).

Lemma elem_of_bus_devices c d : d ∈ bus_devices c <-> exists b s f, on_bus c b s f d.
Proof.
  unfold bus_devices, on_bus. rewrite list_elem_of_bind. setoid_rewrite list_elem_of_bind.
  unfold slot_devices. split.
  - intros (b & (s & Hd & Hs%elem_of_seqZ) & Hb%elem_of_seqZ). destruct (dev_of c b s 0) as [d0|] eqn:E0; [|by apply not_elem_of_nil in Hd].
    apply elem_of_cons in Hd as [->|Hd]; [exists b, s, 0; split_and!; [lia..|done|by left]|].
    destruct (is_multi d0) eqn:Em; [|by apply not_elem_of_nil in Hd].
    apply list_elem_of_omap in Hd as (f & Hf%elem_of_seqZ & Hd). exists b, s, f. split_and!; [lia..|done|right]. by exists d0.
  - intros (b & s & f & Hb & Hs & Hf & Hd & Hm). exists b. split; [|apply elem_of_seqZ; lia]. exists s. split; [|apply elem_of_seqZ; lia].
    destruct Hm as [->|(d0 & H0 & Hm)]; [rewrite Hd; by left|]. rewrite H0, Hm.
    destruct (decide (f = 0)) as [->|Hf0]; [rewrite H0 in Hd; injection Hd as ->; by left|right].
    apply list_elem_of_omap. exists f. split; [apply elem_of_seqZ; lia|done].
Qed.

(** The search of the bus: it returns a function that answers on the bus and has
    the identifiers asked for, with the contents of its registers, or reports
    that none has them, and it leaves the devices untouched. *)
Lemma wp_find {W} `{H : PciHost W} {E} (w : W) vendor device (X : E -> W -> Prop) :
  wp (find vendor device)
    (fun r w' => untouched w w' /\
       match r with
       | Some d => vendor_id d = vendor /\ device_id d = device /\ exists b s f, on_bus (cfg w) b s f d
       | None => forall b s f d, on_bus (cfg w) b s f d -> ~ (vendor_id d = vendor /\ device_id d = device)
       end) X w.
Proof.
  unfold find. apply wp_bind. eapply wp_mono; [by apply (readsc_enumerate w w X)| |done].
  intros devs w' [-> Hs]. apply wp_ret. split; [done|]. destruct (List.find _ _) as [d|] eqn:Ef.
  - apply List.find_some in Ef as [Hin Hid]. zbool. split_and!; [done..|]. by apply elem_of_bus_devices, list_elem_of_In.
  - intros b s f d Hd [Hv Hi]. pose proof (List.find_none _ _ Ef d) as Hn. cbn beta in Hn.
    rewrite Hv, Hi, !Z.eqb_refl in Hn. discriminate Hn. apply list_elem_of_In, elem_of_bus_devices. by exists b, s, f.
Qed.
