(* ===== verification/VirtioBlk.v ===== *)
(** * The disk driver

    [drivers/virtio_blk.rs]: a legacy virtio block device behind a queue of
    descriptors in physical memory.  A request is a chain of three descriptors
    put on the available ring; the device reads and writes memory on its own and
    the driver polls the used ring.  The device is an interface. *)

From stdpp Require Import base numbers list gmap.
From Stdlib Require Import ZArith Lia.
From S2P Require Import Prelude BlockDev Uaccess Mem Frame Pci.
#[local] Open Scope Z_scope.

Definition PCI_VENDOR_VIRTIO : Z := 0x1AF4.
Definition PCI_DEVICE_VIRTIO_BLK : Z := 0x1001.
Definition PCI_COMMAND : Z := 0x04.
Definition PCI_CMD_IO_SPACE : Z := 1.
Definition PCI_CMD_BUS_MASTER : Z := 4.

Definition REG_DEVICE_FEATURES : Z := 0x00.
Definition REG_DRIVER_FEATURES : Z := 0x04.
Definition REG_QUEUE_PFN : Z := 0x08.
Definition REG_QUEUE_SIZE : Z := 0x0C.
Definition REG_QUEUE_SELECT : Z := 0x0E.
Definition REG_QUEUE_NOTIFY : Z := 0x10.
Definition REG_DEVICE_STATUS : Z := 0x12.
Definition REG_CONFIG : Z := 0x14.

Definition STATUS_ACK : Z := 1.
Definition STATUS_DRIVER : Z := 2.
Definition STATUS_DRIVER_OK : Z := 4.
Definition STATUS_FAILED : Z := 0x80.

Definition VIRTQ_DESC_F_NEXT : Z := 1.
Definition VIRTQ_DESC_F_WRITE : Z := 2.
Definition VIRTQ_AVAIL_F_NO_INTERRUPT : Z := 1.

Definition VIRTIO_BLK_T_IN : Z := 0.
Definition VIRTIO_BLK_T_OUT : Z := 1.
Definition QUEUE_ALIGN : Z := 4096.

Definition BUF_HEADER : Z := 0.
Definition BUF_STATUS : Z := 16.
Definition BUF_DATA : Z := 512.

Record VirtioBlk : Type := mkVirtioBlk {
  io_base : Z; queue_size : Z; vq_virt : Z; avail_offset : Z; used_offset : Z;
  buf_virt : Z; buf_phys : Z; last_used_idx : Z; capacity_sectors : Z
}.

Definition align_up (x align : Z) : Z := Z.land (x + align - 1) (Z.lnot (align - 1)).

(** ** The device *)

(** The kernel's side and the device's: physical memory by bytes, the static
    [DEVICE], the device with its ports, and the frame allocator. *)
Record World (V : Type) : Type := mkWorld { dma : gmap Z byte; DEVICE : option VirtioBlk; dev : V; alloc : Phys }.
Arguments mkWorld {V}.
Arguments dma {V}.
Arguments DEVICE {V}.
Arguments dev {V}.
Arguments alloc {V}.

(** What the device does to memory between two accesses of the driver, and how
    many times it may be looked at before a request is done. *)
Class DmaDevice (V : Type) : Type := {
  dv_step : V -> gmap Z byte -> V * gmap Z byte;
  dv_left : V -> nat
}.

Section Driver.
Context {V : Type} {P : PortIO V} {DM : DmaDevice V} (phys_mem_offset : Z) (memory_map : list MemoryRegion).
#[local] Abbreviation wprog := (prog (World V)).

Definition set_dma (m : gmap Z byte) (w : World V) : World V := mkWorld m (DEVICE w) (dev w) (alloc w).
Definition set_device (d : option VirtioBlk) (w : World V) : World V := mkWorld (dma w) d (dev w) (alloc w).
Definition set_dev (v : V) (w : World V) : World V := mkWorld (dma w) (DEVICE w) v (alloc w).
Definition set_alloc (p : Phys) (w : World V) : World V := mkWorld (dma w) (DEVICE w) (dev w) p.

Definition in_dev {E A} (m : prog V E A) : wprog E A := pzoom dev set_dev m.
Definition in_alloc {E A} (m : prog Phys E A) : wprog E A := pzoom alloc set_alloc m.

(** [write_volatile] and [read_volatile] at a kernel address. *)
Definition write_vol {E} (n : nat) (virt x : Z) : wprog E unit :=
  pmodify (fun w => set_dma (wr (dma w) (virt - phys_mem_offset) n x) w).
Definition read_vol {E} (n : nat) (virt : Z) : wprog E Z :=
  let! w := pget in pret (rd (dma w) (virt - phys_mem_offset) n).

(** [io_base + REG], in 16 bits. *)
Definition reg {E} (io_base r : Z) : wprog E Z := punwrap (checked U16 (io_base + r)).
Definition reg_outb {E} (io r x : Z) : wprog E unit := let! p := reg io r in in_dev (Io.outb p x).
Definition reg_outw {E} (io r x : Z) : wprog E unit := let! p := reg io r in in_dev (Io.outw p x).
Definition reg_outl {E} (io r x : Z) : wprog E unit := let! p := reg io r in in_dev (Io.outl p x).
Definition reg_inw {E} (io r : Z) : wprog E Z := let! p := reg io r in in_dev (Io.inw p).
Definition reg_inl {E} (io r : Z) : wprog E Z := let! p := reg io r in in_dev (Io.inl p).

Definition device_runs {E} : wprog E unit :=
  pmodify (fun w => let '(v, m) := dv_step (dev w) (dma w) in set_dev v (set_dma m w)).

Definition write_desc {E} (d : VirtioBlk) (i addr len flags next : Z) : wprog E unit :=
  let p := vq_virt d + i * 16 in
  write_vol 8 p addr ;;!
  write_vol 4 (p + 8) len ;;!
  write_vol 2 (p + 12) flags ;;!
  write_vol 2 (p + 14) next.

Definition setup_chain {E} (d : VirtioBlk) (blk_type lba : Z) (data_device_write : bool) : wprog E unit :=
  write_vol 4 (buf_virt d + BUF_HEADER) blk_type ;;!
  write_vol 4 (buf_virt d + BUF_HEADER + 4) 0 ;;!
  write_vol 8 (buf_virt d + BUF_HEADER + 8) lba ;;!
  write_vol 1 (buf_virt d + BUF_STATUS) 0xFF ;;!
  let data_flags := if data_device_write then Z.lor VIRTQ_DESC_F_NEXT VIRTQ_DESC_F_WRITE else VIRTQ_DESC_F_NEXT in
  write_desc d 0 (buf_phys d + BUF_HEADER) 16 VIRTQ_DESC_F_NEXT 1 ;;!
  write_desc d 1 (buf_phys d + BUF_DATA) (Z.of_nat SECTOR_SIZE) data_flags 2 ;;!
  write_desc d 2 (buf_phys d + BUF_STATUS) 1 VIRTQ_DESC_F_WRITE 0.

(** [loop] until [used.idx] moves. *)
Fixpoint poll_used {E} (fuel : nat) (used_idx_ptr last : Z) : wprog E Z :=
  match fuel with
  | O => pdiverge
  | S fuel' =>
      device_runs ;;!
      let! used_idx := read_vol 2 used_idx_ptr in
      if negb (used_idx =? last) then pret used_idx else poll_used fuel' used_idx_ptr last
  end.

Definition set_last (x : Z) (d : VirtioBlk) : VirtioBlk :=
  mkVirtioBlk (io_base d) (queue_size d) (vq_virt d) (avail_offset d) (used_offset d) (buf_virt d) (buf_phys d) x
    (capacity_sectors d).

Definition run_request (d : VirtioBlk) : wprog BlkError unit :=
  let avail := vq_virt d + avail_offset d in
  let! avail_idx := read_vol 2 (avail + 2) in
  write_vol 2 (avail + 4 + (avail_idx mod queue_size d) * 2) 0 ;;!
  write_vol 2 (avail + 2) ((avail_idx + 1) mod U16) ;;!
  reg_outw (io_base d) REG_QUEUE_NOTIFY 0 ;;!
  let! w := pget in
  let! used_idx := poll_used (S (dv_left (dev w))) (vq_virt d + used_offset d + 2) (last_used_idx d) in
  pmodify (set_device (Some (set_last used_idx d))) ;;!
  let! status := read_vol 1 (buf_virt d + BUF_STATUS) in
  if negb (status =? 0) then pfail (DeviceError status) else pret tt.

Definition submit_read (d : VirtioBlk) (lba : Z) : wprog BlkError (list byte) :=
  setup_chain d VIRTIO_BLK_T_IN lba true ;;!
  run_request d ;;!
  let! w := pget in
  pret (peek (dma w) (buf_virt d + BUF_DATA - phys_mem_offset) SECTOR_SIZE).

Definition submit_write (d : VirtioBlk) (lba : Z) (data : list byte) : wprog BlkError unit :=
  pmodify (fun w => set_dma (poke (buf_virt d + BUF_DATA - phys_mem_offset) data (dma w)) w) ;;!
  setup_chain d VIRTIO_BLK_T_OUT lba false ;;!
  run_request d.

Definition blk_read_sector (lba : Z) : wprog BlkError (list byte) :=
  let! w := pget in
  let! d := pok_or (DEVICE w) NotInitialized in
  if capacity_sectors d <=? lba then pfail OutOfRange else submit_read d lba.

Definition blk_write_sector (lba : Z) (buf : list byte) : wprog BlkError unit :=
  let! w := pget in
  let! d := pok_or (DEVICE w) NotInitialized in
  if capacity_sectors d <=? lba then pfail OutOfRange else submit_write d lba buf.

(** [avail_offset], [used_offset] and [vq_pages] of a queue. *)
Definition avail_off (qsize : Z) : Z := 16 * qsize.
Definition used_off (qsize : Z) : Z := align_up (16 * qsize + 6 + 2 * qsize) QUEUE_ALIGN.
Definition vq_pages_of (qsize : Z) : Z := align_up (used_off qsize + 6 + 8 * qsize) QUEUE_ALIGN / QUEUE_ALIGN.

(** From the size of the queue on. *)
Definition init_queue {E} (io_base qsize : Z) : wprog E bool :=
  let vq_pages := vq_pages_of qsize in
  let! vq_frame := in_alloc (allocate_contiguous memory_map vq_pages) in
  match vq_frame with
  | None => reg_outb io_base REG_DEVICE_STATUS STATUS_FAILED ;;! pret false
  | Some vq_phys =>
      let vq_virt := phys_mem_offset + vq_phys in
      pmodify (fun w => set_dma (poke (vq_virt - phys_mem_offset) (zeros (Z.to_nat (vq_pages * QUEUE_ALIGN))) (dma w)) w) ;;!
      write_vol 2 (vq_virt + avail_off qsize) VIRTQ_AVAIL_F_NO_INTERRUPT ;;!
      let! buf_frame := in_alloc (allocate_contiguous memory_map 1) in
      match buf_frame with
      | None => reg_outb io_base REG_DEVICE_STATUS STATUS_FAILED ;;! pret false
      | Some buf_phys =>
          let buf_virt := phys_mem_offset + buf_phys in
          reg_outl io_base REG_QUEUE_PFN (Z.shiftr vq_phys 12 mod U32) ;;!
          reg_outb io_base REG_DEVICE_STATUS (Z.lor (Z.lor STATUS_ACK STATUS_DRIVER) STATUS_DRIVER_OK) ;;!
          let! cap_lo := reg_inl io_base REG_CONFIG in
          let! cap_hi := reg_inl io_base (REG_CONFIG + 4) in
          let capacity_sectors := Z.lor cap_lo (Z.shiftl cap_hi 32) in
          let! _ := u64_mul capacity_sectors (Z.of_nat SECTOR_SIZE) in
          pmodify (set_device (Some (mkVirtioBlk io_base qsize vq_virt (avail_off qsize) (used_off qsize) buf_virt buf_phys 0
            capacity_sectors))) ;;!
          pret true
      end
  end.

Definition init {E} : wprog E bool :=
  let! found := in_dev (find PCI_VENDOR_VIRTIO PCI_DEVICE_VIRTIO_BLK) in
  match found with
  | None => pret false
  | Some d =>
      let! cmd := in_dev (config_read_u32 (bus d) (slot d) (func d) PCI_COMMAND) in
      in_dev (config_write_u32 (bus d) (slot d) (func d) PCI_COMMAND
        (Z.lor (Z.lor cmd PCI_CMD_IO_SPACE) PCI_CMD_BUS_MASTER)) ;;!
      let! b := in_dev (bar d 0) in
      match b with
      | BarIo base =>
          let io_base := base mod U16 in
          reg_outb io_base REG_DEVICE_STATUS 0 ;;!
          reg_outb io_base REG_DEVICE_STATUS STATUS_ACK ;;!
          reg_outb io_base REG_DEVICE_STATUS (Z.lor STATUS_ACK STATUS_DRIVER) ;;!
          let! _ := reg_inl io_base REG_DEVICE_FEATURES in
          reg_outl io_base REG_DRIVER_FEATURES 0 ;;!
          reg_outw io_base REG_QUEUE_SELECT 0 ;;!
          let! queue_size := reg_inw io_base REG_QUEUE_SIZE in
          if queue_size =? 0 then reg_outb io_base REG_DEVICE_STATUS STATUS_FAILED ;;! pret false
          else init_queue io_base queue_size
      | _ => pret false
      end
  end.
End Driver.

(** ** What the device promises

    The stages of a legacy virtio device, its registers at a base [io]: a reset
    device, the steps of the handshake, a queue at physical address [phys] of which
    [n] chains were used (modulo 2^16), and such a device that was notified. *)
Inductive Stage : Type :=
| Unknown
| Status (s : Z)
| Negotiated
| Selected
| Placed (phys : Z)
| Live (phys n : Z)
| Notified (phys n : Z).

(** The writes of the handshake. *)
Definition stage_out (st : Stage) (width r x : Z) : option Stage :=
  if (width =? 1) && (r =? REG_DEVICE_STATUS) then
    if x =? 0 then Some (Status 0)
    else if x =? STATUS_FAILED then Some Unknown
    else match st with
         | Status 0 => if x =? 1 then Some (Status 1) else None
         | Status 1 => if x =? 3 then Some (Status 3) else None
         | Placed phys => if x =? 7 then Some (Live phys 0) else None
         | _ => None
         end
  else if (width =? 4) && (r =? REG_DRIVER_FEATURES) then
    match st with Status 3 => if x =? 0 then Some Negotiated else None | _ => None end
  else if (width =? 2) && (r =? REG_QUEUE_SELECT) then
    match st with Negotiated => if x =? 0 then Some Selected else None | _ => None end
  else if (width =? 4) && (r =? REG_QUEUE_PFN) then
    match st with Selected => Some (Placed (x * 4096)) | _ => None end
  else if (width =? 2) && (r =? REG_QUEUE_NOTIFY) then
    match st with Live phys n => if x =? 0 then Some (Notified phys n) else None | _ => None end
  else None.

(** A request as the device reads it from memory: the chain whose head is in the
    next slot of the available ring of a queue of [q] descriptors at [phys]. *)
Record Request : Type := mkRequest { rq_write : bool; rq_sector : Z; rq_data : Z; rq_status : Z }.

Definition desc_addr (m : gmap Z byte) (phys i : Z) : Z := rd m (phys + 16 * i) 8.
Definition desc_len (m : gmap Z byte) (phys i : Z) : Z := rd m (phys + 16 * i + 8) 4.
Definition desc_flags (m : gmap Z byte) (phys i : Z) : Z := rd m (phys + 16 * i + 12) 2.
Definition desc_next (m : gmap Z byte) (phys i : Z) : Z := rd m (phys + 16 * i + 14) 2.

Definition blk_request (m : gmap Z byte) (phys q n : Z) : option Request :=
  let avail := phys + 16 * q in
  let h := rd m (avail + 4 + 2 * (n mod q)) 2 in
  let i := desc_next m phys h in
  let j := desc_next m phys i in
  let header := desc_addr m phys h in
  let type := rd m header 4 in
  if (rd m (avail + 2) 2 =? (n + 1) mod U16) &&
     (h <? q) && (i <? q) && (j <? q) &&
     (desc_flags m phys h =? 1) && (desc_len m phys h =? 16) && (desc_len m phys i =? 512) &&
     (desc_flags m phys j =? 2) && (desc_len m phys j =? 1)
  then
    if (type =? 0) && (desc_flags m phys i =? 3) then
      Some (mkRequest false (rd m (header + 8) 8) (desc_addr m phys i) (desc_addr m phys j))
    else if (type =? 1) && (desc_flags m phys i =? 1) then
      Some (mkRequest true (rd m (header + 8) 8) (desc_addr m phys i) (desc_addr m phys j))
    else None
  else None.

(** Where the device may write while it serves a request. *)
Definition writable (phys q : Z) (rq : Request) (x : Z) : Prop :=
  (rq_write rq = false /\ rq_data rq <= x < rq_data rq + 512) \/ x = rq_status rq \/
  phys + used_off q <= x < phys + used_off q + 6 + 8 * q.

(** Data, status byte and queue do not overlap. *)
Definition well_placed (phys q : Z) (rq : Request) : Prop :=
  let outside a n := a + n <= phys \/ phys + used_off q + 6 + 8 * q <= a in
  outside (rq_data rq) 512 /\ outside (rq_status rq) 1 /\
  (rq_data rq + 512 <= rq_status rq \/ rq_status rq < rq_data rq).

(** The device behind the ports: where its registers are and in what stage it is,
    what it holds, its queue size and capacity, and for which sectors requests
    succeed. *)
Class VirtioDisk (V : Type) {P : PortIO V} {H : PciHost V} {DM : DmaDevice V} : Type := {
  dv_at : V -> Z -> Stage -> Prop;
  dv_disk : V -> gmap Z (list byte);
  dv_reliable : V -> Z -> Prop;
  dv_qsize : V -> Z;
  dv_capacity : V -> Z
}.

Section Promise.
Context {V : Type} `{VD : VirtioDisk V}.

Definition keeps (v v' : V) : Prop :=
  dv_qsize v' = dv_qsize v /\ dv_capacity v' = dv_capacity v /\ forall n, dv_reliable v n -> dv_reliable v' n.

Definition same (v v' : V) : Prop := keeps v v' /\ dv_disk v' = dv_disk v.

(** A request that was answered with status [st]; [m] is the memory before and
    [m'] the memory after. *)
Definition answered (v v' : V) (m m' : gmap Z byte) (rq : Request) (st : Z) : Prop :=
  if st =? 0 then
    if rq_write rq then dv_disk v' = <[rq_sector rq := peek m (rq_data rq) 512]> (dv_disk v)
    else dv_disk v' = dv_disk v /\ peek m' (rq_data rq) 512 = sector (dv_disk v) (rq_sector rq)
  else dv_disk v' = dv_disk v /\ forall k, dv_reliable v k -> ~ (0 <= rq_sector rq < k).

(** One step of a notified device: it writes only where the request lets it, and
    either is not done and has less left to do, or has answered. *)
Definition stepped (v v' : V) (m m' : gmap Z byte) (io phys n : Z) (rq : Request) : Prop :=
  let q := dv_qsize v in
  (forall x, ~ writable phys q rq x -> m' !! x = m !! x) /\
  ((dv_at v' io (Notified phys n) /\ same v v' /\ (dv_left v' < dv_left v)%nat /\
    rd m' (phys + used_off q + 2) 2 = rd m (phys + used_off q + 2) 2)
   \/ (dv_at v' io (Live phys ((n + 1) mod U16)) /\ keeps v v' /\
       rd m' (phys + used_off q + 2) 2 = (n + 1) mod U16 /\ answered v v' m m' rq (rd m' (rq_status rq) 1))).

(** The registers that are read: the features, the size of the selected queue and
    the capacity. *)
Definition reads_as (v : V) (st : Stage) (width r x : Z) : Prop :=
  (width = 2 -> r = REG_QUEUE_SIZE -> st = Selected -> x = dv_qsize v) /\
  (width = 4 -> r = REG_CONFIG -> x = dv_capacity v mod U32) /\
  (width = 4 -> r = REG_CONFIG + 4 -> x = dv_capacity v / U32).

Definition readable (width r : Z) : Prop :=
  (width = 4 /\ (r = REG_DEVICE_FEATURES \/ r = REG_CONFIG \/ r = REG_CONFIG + 4)) \/ (width = 2 /\ r = REG_QUEUE_SIZE).
End Promise.

(** The behaviour of a legacy virtio block device. *)
Class VirtioDiskLaws (V : Type) `{VD : VirtioDisk V} : Prop := {
  dv_untouched v v' : untouched v v' -> same v v';
  dv_qsize_range v : 0 <= dv_qsize v < U16;
  dv_capacity_range v : 0 <= dv_capacity v < U64;
  dv_reliable_capacity v n : dv_reliable v n -> n <= dv_capacity v;
  (* with I/O space and bus mastering on, the registers are at the base of BAR 0 *)
  dv_enable v b s f d x :
    on_bus (cfg v) b s f d -> vendor_id d = PCI_VENDOR_VIRTIO -> device_id d = PCI_DEVICE_VIRTIO_BLK ->
    Z.testbit x 0 = true -> Z.testbit x 2 = true ->
    let v' := port_out 4 CONFIG_DATA x (port_out 4 CONFIG_ADDRESS (address b s f PCI_COMMAND) v) in
    let raw := cfg v (address b s f 0x10) in
    same v v' /\
    (Z.testbit raw 0 = true -> 0 <= raw /\ Z.land raw 0xFFFFFFFC + 0x1C <= U16 /\ dv_at v' (Z.land raw 0xFFFFFFFC) Unknown);
  dv_out v io st width r x st' :
    dv_at v io st -> stage_out st width r x = Some st' ->
    dv_at (port_out width (io + r) x v) io st' /\ same v (port_out width (io + r) x v);
  dv_in v io st width r x v' :
    dv_at v io st -> readable width r -> port_in width (io + r) v = (x, v') ->
    dv_at v' io st /\ same v v' /\ reads_as v st width r x;
  dv_serves v m io phys n rq v' m' :
    dv_at v io (Notified phys n) -> blk_request m phys (dv_qsize v) n = Some rq -> well_placed phys (dv_qsize v) rq ->
    dv_step v m = (v', m') ->
    stepped v v' m m' io phys n rq
}.

Lemma align_up_spec x : 0 <= x -> x <= align_up x QUEUE_ALIGN < x + 4096 /\ align_up x QUEUE_ALIGN mod 4096 = 0.
Proof.
  intros Hx. unfold align_up, QUEUE_ALIGN. rewrite <- Z.ldiff_land. change (4096 - 1) with (Z.ones 12).
  rewrite Z.ldiff_ones_r, Z.shiftl_mul_pow2, Z.shiftr_div_pow2 by lia. change (2 ^ 12) with 4096.
  pose proof (Z.div_mod (x + 4096 - 1) 4096 ltac:(lia)) as Hd. pose proof (Z.mod_pos_bound (x + 4096 - 1) 4096 ltac:(lia)).
  split; [lia|]. by rewrite Z.mod_mul.
Qed.

Lemma used_off_spec q : 0 <= q -> 18 * q + 6 <= used_off q < 18 * q + 6 + 4096.
Proof. intros Hq. unfold used_off. pose proof (align_up_spec (16 * q + 6 + 2 * q) ltac:(lia)). lia. Qed.

Lemma vq_pages_spec q : 0 <= q -> used_off q + 6 + 8 * q <= vq_pages_of q * 4096 /\ 0 < vq_pages_of q.
Proof.
  intros Hq. pose proof (used_off_spec q Hq). unfold vq_pages_of.
  destruct (align_up_spec (used_off q + 6 + 8 * q) ltac:(lia)) as [Ha Hm]. unfold QUEUE_ALIGN in *.
  pose proof (Z.div_mod (align_up (used_off q + 6 + 8 * q) 4096) 4096 ltac:(lia)) as Hd. lia.
Qed.
