(* ===== verification/VirtioTheorems.v ===== *)
(** * The disk driver serves sectors

    A request of [VirtioBlk] against a device that keeps the promise of a virtio
    block device: the chain in memory is one the device reads as the request
    meant, the poll ends, and the answer is the sector.  With it the driver
    discharges the interface the file system is proved against. *)

From stdpp Require Import base numbers list gmap.
From Stdlib Require Import ZArith Lia.
From S2P Require Import Prelude BlockDev Uaccess Mem Frame Pci VirtioBlk.
#[local] Open Scope Z_scope.

(** ** The chain of a request *)

(** What is in memory when a request is submitted: descriptors 0, 1 and 2 of the
    queue at [p], the slot and the index of the available ring, and the header in
    the buffer page at [b]. *)
Record chain_at (m : gmap Z byte) (p b q n : Z) (write : bool) (lba : Z) : Prop := {
  ch_idx : rd m (p + 16 * q + 2) 2 = (n + 1) mod U16;
  ch_slot : rd m (p + 16 * q + 4 + 2 * (n mod q)) 2 = 0;
  ch_addr0 : rd m p 8 = b;
  ch_len0 : rd m (p + 8) 4 = 16;
  ch_flags0 : rd m (p + 12) 2 = 1;
  ch_next0 : rd m (p + 14) 2 = 1;
  ch_addr1 : rd m (p + 16) 8 = b + 512;
  ch_len1 : rd m (p + 24) 4 = 512;
  ch_flags1 : rd m (p + 28) 2 = (if write then 1 else 3);
  ch_next1 : rd m (p + 30) 2 = 2;
  ch_addr2 : rd m (p + 32) 8 = b + 16;
  ch_len2 : rd m (p + 40) 4 = 1;
  ch_flags2 : rd m (p + 44) 2 = 2;
  ch_type : rd m b 4 = (if write then 1 else 0);
  ch_sector : rd m (b + 8) 8 = lba
}.

Definition request (b : Z) (write : bool) (lba : Z) : Request := mkRequest write lba (b + 512) (b + 16).

(** The device reads the chain as the request it was built for. *)
Lemma chain_request m p b q n write lba :
  3 <= q -> chain_at m p b q n write lba -> blk_request m p q n = Some (request b write lba).
Proof.
  intros Hq [C1 C2 C3 C4 C5 C6 C7 C8 C9 C10 C11 C12 C13 C14 C15]. unfold blk_request. rewrite C1, C2, Z.eqb_refl.
  unfold desc_next, desc_flags, desc_len, desc_addr.
  replace (p + 16 * 0 + 14) with (p + 14) by lia. rewrite C6. replace (p + 16 * 1 + 14) with (p + 30) by lia. rewrite C10.
  replace (p + 16 * 0 + 12) with (p + 12) by lia. replace (p + 16 * 0 + 8) with (p + 8) by lia.
  replace (p + 16 * 1 + 8) with (p + 24) by lia. replace (p + 16 * 2 + 12) with (p + 44) by lia.
  replace (p + 16 * 2 + 8) with (p + 40) by lia. replace (p + 16 * 0) with p by lia.
  replace (p + 16 * 1 + 12) with (p + 28) by lia. replace (p + 16 * 1) with (p + 16) by lia.
  replace (p + 16 * 2) with (p + 32) by lia. rewrite C3, C4, C5, C7, C8, C9, C11, C12, C13, C14, C15.
  replace (0 <? q) with true by (symmetry; apply Z.ltb_lt; lia). replace (1 <? q) with true by (symmetry; apply Z.ltb_lt; lia).
  replace (2 <? q) with true by (symmetry; apply Z.ltb_lt; lia). by destruct write.
Qed.

(** Queue and buffer page are apart. *)
Definition apart (p b q : Z) : Prop := p + used_off q + 6 + 8 * q <= b \/ b + 4096 <= p.

(** The device's writes leave the chain alone. *)
Lemma chain_at_ext m m' p b q n write lba :
  3 <= q -> apart p b q -> (forall x, ~ writable p q (request b write lba) x -> m' !! x = m !! x) ->
  chain_at m p b q n write lba -> chain_at m' p b q n write lba.
Proof.
  intros Hq Ha Hx [C1 C2 C3 C4 C5 C6 C7 C8 C9 C10 C11 C12 C13 C14 C15]. unfold apart in Ha.
  pose proof (used_off_spec q ltac:(lia)) as Hu. pose proof (Z.mod_pos_bound n q ltac:(lia)) as Hn.
  assert (Hr : forall a k, (p <= a /\ a + Z.of_nat k <= p + 18 * q + 6) \/ (b <= a /\ a + Z.of_nat k <= b + 16) -> rd m' a k = rd m a k).
  { intros a k Hk. apply rd_ext. intros x Hin. apply Hx. unfold writable, request. cbn. lia. }
  split; rewrite Hr by lia; done.
Qed.

(** ** Requests *)

Section Requests.
Context {V : Type} `{VL : VirtioDiskLaws V} (off : Z) (memory_map : list MemoryRegion).
Implicit Types (w : World V) (v : V) (d : VirtioBlk).

(** Where a driver's queue and buffer are. *)
Record layout (d : VirtioBlk) (p : Z) : Prop := {
  ly_vq : vq_virt d = off + p;
  ly_buf : buf_virt d = off + buf_phys d;
  ly_avail : avail_offset d = 16 * queue_size d;
  ly_used : used_offset d = used_off (queue_size d);
  ly_size : 3 <= queue_size d < U16;
  ly_apart : apart p (buf_phys d) (queue_size d);
  ly_bound : 0 <= buf_phys d /\ buf_phys d + 4096 <= U64;
  ly_io : 0 <= io_base d /\ io_base d + 0x1C <= U16
}.

(** A driver at rest: the device is live with the driver's queue, and both have
    counted the same [n] requests. *)
Record at_rest (w : World V) (d : VirtioBlk) (p n : Z) : Prop := {
  ar_device : DEVICE w = Some d;
  ar_layout : layout d p;
  ar_live : dv_at (dev w) (io_base d) (Live p n);
  ar_size : queue_size d = dv_qsize (dev w);
  ar_capacity : capacity_sectors d = dv_capacity (dev w);
  ar_n : 0 <= n < U16;
  ar_last : last_used_idx d = n;
  ar_avail : rd (dma w) (p + 16 * queue_size d + 2) 2 = n;
  ar_used : rd (dma w) (p + used_off (queue_size d) + 2) 2 = n
}.

Lemma wp_write_vol {E} n virt a x w (Q : unit -> World V -> Prop) (X : E -> World V -> Prop) :
  virt = off + a -> Q tt (set_dma (wr (dma w) a n x) w) -> wp (write_vol off n virt x) Q X w.
Proof. intros -> HQ. apply wp_modify. by replace (off + a - off) with a by lia. Qed.

Lemma wp_read_vol {E} n a w (Q : Z -> World V -> Prop) (X : E -> World V -> Prop) :
  Q (rd (dma w) (a - off) n) w -> wp (read_vol off n a) Q X w.
Proof. intros HQ. apply wp_bind, wp_get, wp_ret, HQ. Qed.

Lemma wp_reg {E} io r w (Q : Z -> World V -> Prop) (X : E -> World V -> Prop) :
  0 <= io /\ io + 0x1C <= U16 -> 0 <= r < 0x1C -> Q (io + r) w -> wp (reg io r) Q X w.
Proof. intros Hio Hr HQ. eapply wp_unwrap; [apply checked_spec; split; lia|exact HQ]. Qed.

Ltac last_vol_at a := apply (wp_write_vol _ _ a); [unfold BUF_HEADER, BUF_STATUS; lia|cbn [dma set_dma]].
Ltac vol_at a := apply wp_bind; last_vol_at a.

(** The writes of [setup_chain] and of the available ring, in their order. *)
Definition chained (m : gmap Z byte) (p b ty lba fl : Z) : gmap Z byte :=
  let m := wr (wr (wr (wr m b 4 ty) (b + 4) 4 0) (b + 8) 8 lba) (b + 16) 1 0xFF in
  let m := wr (wr (wr (wr m p 8 b) (p + 8) 4 16) (p + 12) 2 1) (p + 14) 2 1 in
  let m := wr (wr (wr (wr m (p + 16) 8 (b + 512)) (p + 24) 4 512) (p + 28) 2 fl) (p + 30) 2 2 in
  wr (wr (wr (wr m (p + 32) 8 (b + 16)) (p + 40) 4 1) (p + 44) 2 2) (p + 46) 2 0.

Definition submitted (m : gmap Z byte) (p b q n ty lba fl : Z) : gmap Z byte :=
  wr (wr (chained m p b ty lba fl) (p + 16 * q + 4 + 2 * (n mod q)) 2 0) (p + 16 * q + 2) 2 ((n + 1) mod U16).

Ltac width_lia :=
  match goal with
  | |- context [256 ^ Z.of_nat ?n] => let k := eval vm_compute in (256 ^ Z.of_nat n) in change (256 ^ Z.of_nat n) with k
  end; unfold U16, U64 in *; lia.

Ltac rdsolve := repeat first [apply rd_wr_eq; [done|width_lia] | rewrite rd_wr_out by lia].

Lemma submitted_chain m p b q n (write : bool) lba :
  3 <= q < U16 -> apart p b q -> 0 <= b /\ b + 4096 <= U64 -> 0 <= lba < U64 ->
  chain_at (submitted m p b q n (if write then 1 else 0) lba (if write then 1 else 3)) p b q n write lba.
Proof.
  intros Hq Ha Hb Hl. unfold apart in Ha. pose proof (used_off_spec q ltac:(lia)) as Hu.
  pose proof (Z.mod_pos_bound n q ltac:(lia)) as Hn. pose proof (Z.mod_pos_bound (n + 1) U16 ltac:(done)) as Hn1.
  destruct write; split; unfold submitted, chained; cbv zeta; rdsolve.
Qed.

Lemma submitted_used m p b q n ty lba fl :
  3 <= q -> apart p b q -> rd (submitted m p b q n ty lba fl) (p + used_off q + 2) 2 = rd m (p + used_off q + 2) 2.
Proof.
  intros Hq Ha. unfold apart in Ha. pose proof (used_off_spec q ltac:(lia)) as Hu.
  pose proof (Z.mod_pos_bound n q ltac:(lia)) as Hn. unfold submitted, chained; cbv zeta. by rewrite !rd_wr_out by lia.
Qed.

Lemma submitted_data m p b q n ty lba fl :
  3 <= q -> apart p b q -> peek (submitted m p b q n ty lba fl) (b + 512) 512 = peek m (b + 512) 512.
Proof.
  intros Hq Ha. unfold apart in Ha. pose proof (used_off_spec q ltac:(lia)) as Hu.
  pose proof (Z.mod_pos_bound n q ltac:(lia)) as Hn. unfold submitted, chained; cbv zeta. by rewrite !peek_wr_out by lia.
Qed.

Lemma keeps_trans v1 v2 v3 : keeps v1 v2 -> keeps v2 v3 -> keeps v1 v3.
Proof. intros (A1 & A2 & A3) (B1 & B2 & B3). unfold keeps. split_and!; [congruence..|auto]. Qed.

Lemma dv_same_trans v1 v2 v3 : same v1 v2 -> same v2 v3 -> same v1 v3.
Proof. intros [A1 A2] [B1 B2]. split; [by eapply keeps_trans|congruence]. Qed.

Lemma dv_same_refl v : same v v.
Proof. unfold same, keeps. auto. Qed.

(** A request was answered: the device waits for the next one, having written only
    where the request lets it. *)
Record served (w w' : World V) (d : VirtioBlk) (p n : Z) (rq : Request) : Prop := {
  sv_device : DEVICE w' = DEVICE w;
  sv_live : dv_at (dev w') (io_base d) (Live p ((n + 1) mod U16));
  sv_keeps : keeps (dev w) (dev w');
  sv_frame x : ~ writable p (queue_size d) rq x -> dma w' !! x = dma w !! x;
  sv_used : rd (dma w') (p + used_off (queue_size d) + 2) 2 = (n + 1) mod U16;
  sv_answer : answered (dev w) (dev w') (dma w) (dma w') rq (rd (dma w') (rq_status rq) 1)
}.

(** A notified device that has not answered yet, since [w]. *)
Record waiting (w w' : World V) (d : VirtioBlk) (p n : Z) (rq : Request) : Prop := {
  wt_device : DEVICE w' = DEVICE w;
  wt_at : dv_at (dev w') (io_base d) (Notified p n);
  wt_same : same (dev w) (dev w');
  wt_frame x : ~ writable p (queue_size d) rq x -> dma w' !! x = dma w !! x;
  wt_used : rd (dma w') (p + used_off (queue_size d) + 2) 2 = n
}.

Lemma step_waiting w w' d p n write lba :
  layout d p -> queue_size d = dv_qsize (dev w) -> chain_at (dma w) p (buf_phys d) (queue_size d) n write lba ->
  let rq := request (buf_phys d) write lba in
  waiting w w' d p n rq ->
  let '(v2, m2) := dv_step (dev w') (dma w') in
  let w2 := set_dev v2 (set_dma m2 w') in
  (waiting w w2 d p n rq /\ (dv_left v2 < dv_left (dev w'))%nat) \/ served w w2 d p n rq.
Proof.
  intros L Hq Hc rq Hw. destruct L as [_ _ _ _ L1 L2 _ _]. destruct (dv_step _ _) as [v2 m2] eqn:Es. cbv zeta.
  pose proof (wt_same _ _ _ _ _ _ Hw) as [(K1 & K2 & K3) K4].
  pose proof (chain_at_ext _ _ _ _ _ _ _ _ (proj1 L1) L2 (wt_frame _ _ _ _ _ _ Hw) Hc) as Hc'.
  apply chain_request in Hc'; [|lia]. rewrite Hq, <- K1 in Hc'.
  assert (Hp : well_placed p (dv_qsize (dev w')) (request (buf_phys d) write lba)).
  { rewrite K1, <- Hq. unfold well_placed, request, apart in *. cbn [rq_data rq_status]. lia. }
  destruct (dv_serves _ _ _ _ _ _ _ _ (wt_at _ _ _ _ _ _ Hw) Hc' Hp Es) as [Hf Hs]. rewrite K1, <- Hq in Hf, Hs.
  assert (Hf2 : forall x, ~ writable p (queue_size d) rq x -> m2 !! x = dma w !! x).
  { intros x Hx. rewrite Hf by exact Hx. by apply (wt_frame _ _ _ _ _ _ Hw). }
  destruct Hs as [(A1 & A2 & A3 & A4)|(A1 & A2 & A3 & A4)]; [left|right]; cbn [dev set_dev set_dma].
  - split; [|exact A3]. split; cbn [dma dev DEVICE set_dma set_dev]; [apply Hw|exact A1| |exact Hf2|rewrite A4; apply Hw].
    eapply dv_same_trans; [apply Hw|exact A2].
  - split; cbn [dma dev DEVICE set_dma set_dev]; [apply Hw|exact A1| |exact Hf2|exact A3|].
    + eapply keeps_trans; [apply (wt_same _ _ _ _ _ _ Hw)|exact A2].
    + subst rq. cbn [rq_status request] in *. unfold answered in *. rewrite K4 in A4.
      destruct (_ =? 0); [|by destruct A4; split; [|auto]]. cbn [rq_write request rq_data rq_sector] in *. destruct write; [|done].
      rewrite A4. f_equal. apply peek_ext. intros x Hx. apply (wt_frame _ _ _ _ _ _ Hw).
      unfold writable, request, apart in *. cbn. pose proof (used_off_spec (queue_size d) ltac:(lia)). lia.
Qed.

Lemma wp_poll_used {E} w0 d p n write lba fuel w (X : E -> World V -> Prop) :
  layout d p -> queue_size d = dv_qsize (dev w0) -> chain_at (dma w0) p (buf_phys d) (queue_size d) n write lba -> 0 <= n < U16 ->
  waiting w0 w d p n (request (buf_phys d) write lba) -> (dv_left (dev w) < fuel)%nat ->
  wp (poll_used off fuel (vq_virt d + used_offset d + 2) n)
    (fun u w' => u = (n + 1) mod U16 /\ served w0 w' d p n (request (buf_phys d) write lba)) X w.
Proof.
  intros L Hq Hc Hn. revert w. induction fuel as [|fuel IH]; intros w Hw Hf; [lia|]. cbn [poll_used].
  apply wp_bind. apply wp_modify. pose proof (step_waiting _ _ _ _ _ _ _ L Hq Hc Hw) as Hs.
  destruct (dv_step (dev w) (dma w)) as [v2 m2]. apply wp_bind, wp_read_vol.
  replace (vq_virt d + used_offset d + 2 - off) with (p + used_off (queue_size d) + 2) by (destruct L; lia).
  destruct Hs as [[Hw2 Hl]|Hs].
  - rewrite (wt_used _ _ _ _ _ _ Hw2), Z.eqb_refl. apply IH; [done|]. cbn [dev set_dev set_dma] in *. lia.
  - rewrite (sv_used _ _ _ _ _ _ Hs). assert (Hne : (n + 1) mod U16 <> n).
    { intros He. unfold U16 in *. destruct (decide (n = 65535)) as [->|]; [done|]. rewrite Z.mod_small in He; lia. }
    apply Z.eqb_neq in Hne. rewrite Hne. by apply wp_ret.
Qed.

(** The memory a request is submitted with. *)
Lemma wp_setup_chain {E} w d p (write : bool) lba (Q : unit -> World V -> Prop) (X : E -> World V -> Prop) :
  layout d p ->
  Q tt (set_dma (chained (dma w) p (buf_phys d) (if write then 1 else 0) lba (if write then 1 else 3)) w) ->
  wp (setup_chain off d (if write then VIRTIO_BLK_T_OUT else VIRTIO_BLK_T_IN) lba (negb write)) Q X w.
Proof.
  intros [Hv Hb _ _ _ _ _ _] HQ. unfold setup_chain, write_desc. rewrite Hv, Hb.
  vol_at (buf_phys d). vol_at (buf_phys d + 4). vol_at (buf_phys d + 8). vol_at (buf_phys d + 16).
  apply wp_bind. vol_at p. vol_at (p + 8). vol_at (p + 12). last_vol_at (p + 14).
  apply wp_bind. vol_at (p + 16). vol_at (p + 24). vol_at (p + 28). last_vol_at (p + 30).
  vol_at (p + 32). vol_at (p + 40). vol_at (p + 44). last_vol_at (p + 46).
  unfold BUF_HEADER, BUF_STATUS, BUF_DATA. rewrite Z.add_0_r. by destruct write.
Qed.

Lemma wp_reg_outw {E} io r x w (Q : unit -> World V -> Prop) (X : E -> World V -> Prop) :
  0 <= io /\ io + 0x1C <= U16 -> 0 <= r < 0x1C -> Q tt (set_dev (port_out 2 (io + r) x (dev w)) w) -> wp (reg_outw io r x) Q X w.
Proof. intros Hio Hr HQ. apply wp_bind, wp_reg; [done..|]. by apply wp_zoom, wp_modify. Qed.

(** The driver and the device are ready for the next request. *)
Definition after (w w' : World V) (d : VirtioBlk) (p n : Z) : Prop :=
  at_rest w' (set_last ((n + 1) mod U16) d) p ((n + 1) mod U16) /\ keeps (dev w) (dev w').

Lemma served_at_rest w0 w d p n write lba :
  layout d p -> queue_size d = dv_qsize (dev w0) -> capacity_sectors d = dv_capacity (dev w0) ->
  chain_at (dma w0) p (buf_phys d) (queue_size d) n write lba ->
  served w0 w d p n (request (buf_phys d) write lba) ->
  at_rest (set_device (Some (set_last ((n + 1) mod U16) d)) w) (set_last ((n + 1) mod U16) d) p ((n + 1) mod U16).
Proof.
  intros L Hq Hcap Hc S. pose proof (sv_keeps _ _ _ _ _ _ S) as (K1 & K2 & _). split; cbn; try done.
  - by destruct L.
  - apply S.
  - congruence.
  - congruence.
  - by apply Z.mod_pos_bound.
  - destruct L as [_ _ _ _ L1 L2 _ _].
    by apply (ch_idx _ _ _ _ _ _ _ (chain_at_ext _ _ _ _ _ _ _ _ (proj1 L1) L2 (sv_frame _ _ _ _ _ _ S) Hc)).
  - apply S.
Qed.

Lemma answered_from v v1 v2 m m1 m2 rq st :
  same v v1 -> peek m1 (rq_data rq) 512 = peek m (rq_data rq) 512 -> answered v1 v2 m1 m2 rq st -> answered v v2 m m2 rq st.
Proof.
  intros [(_ & _ & Hr) Hd] Hp. unfold answered. rewrite Hd, Hp. destruct (st =? 0); [done|]. intros [H1 H2]. split; [done|].
  intros k Hk. by apply H2, Hr.
Qed.

(** A request, from the descriptors to the status byte. *)
Lemma wp_request w d p n (write : bool) lba :
  at_rest w d p n -> 0 <= lba < U64 ->
  let rq := request (buf_phys d) write lba in
  wp (setup_chain off d (if write then VIRTIO_BLK_T_OUT else VIRTIO_BLK_T_IN) lba (negb write) ;;! run_request off d)
    (fun _ w' => after w w' d p n /\ answered (dev w) (dev w') (dma w) (dma w') rq 0)
    (fun e w' => after w w' d p n /\ dv_disk (dev w') = dv_disk (dev w) /\ (exists st, e = DeviceError st) /\
       forall k, dv_reliable (dev w) k -> ~ (0 <= lba < k)) w.
Proof.
  intros R Hl rq. pose proof R as [R1 L R3 R4 R5 R6 R7 R8 R9]. pose proof L as [L1 L2 L3 L4 L5 L6 L7 L8].
  apply wp_bind, wp_setup_chain with (p := p); [done|]. unfold run_request. rewrite L1, L3.
  pose proof (Z.mod_pos_bound n (queue_size d) ltac:(lia)) as Hm.
  apply wp_bind, wp_read_vol. cbn [dma set_dma]. rewrite R7.
  replace (off + p + 16 * queue_size d + 2 - off) with (p + 16 * queue_size d + 2) by lia.
  assert (Hn : rd (chained (dma w) p (buf_phys d) (if write then 1 else 0) lba (if write then 1 else 3)) (p + 16 * queue_size d + 2) 2 = n).
  { pose proof (used_off_spec (queue_size d) ltac:(lia)). unfold apart in L6. unfold chained; cbv zeta.
    rewrite !rd_wr_out by lia. exact R8. }
  rewrite Hn. vol_at (p + 16 * queue_size d + 4 + 2 * (n mod queue_size d)). vol_at (p + 16 * queue_size d + 2).
  set (m1 := wr (wr _ _ _ _) _ _ _). change m1 with
    (submitted (dma w) p (buf_phys d) (queue_size d) n (if write then 1 else 0) lba (if write then 1 else 3)). subst m1.
  pose proof (submitted_chain (dma w) p (buf_phys d) (queue_size d) n write lba L5 L6 L7 Hl) as Hc.
  apply wp_bind, wp_reg_outw; [done|unfold REG_QUEUE_NOTIFY; lia|]. cbn [dev set_dma set_dev].
  destruct (dv_out _ _ _ 2 REG_QUEUE_NOTIFY 0 _ R3 eq_refl) as [Hat Hsame].
  apply wp_bind, wp_get.
  set (w1 := set_dev _ _). assert (Hsz : queue_size d = dv_qsize (dev w1)) by (rewrite R4; symmetry; apply Hsame).
  replace (off + p + used_offset d + 2) with (vq_virt d + used_offset d + 2) by lia.
  apply wp_bind. eapply wp_mono; [apply (wp_poll_used w1 d p n write lba _ _ (fun _ _ => False)); [exact L|exact Hsz|exact Hc|exact R6| |lia]| |done].
  { split; [done|exact Hat|apply dv_same_refl|done|]. cbn [dma w1 set_dev set_dma]. subst w1. cbn [dma set_dev set_dma].
    rewrite submitted_used by (done || lia). exact R9. }
  intros u w2 [-> S]. apply wp_bind, wp_modify, wp_bind, wp_read_vol. cbn [dma set_device].
  replace (buf_virt d + BUF_STATUS - off) with (buf_phys d + 16) by (unfold BUF_STATUS; lia).
  pose proof (served_at_rest w1 w2 d p n write lba L Hsz (eq_trans R5 (eq_sym (proj1 (proj2 (proj1 Hsame))))) Hc S) as Hrest.
  assert (Hk : keeps (dev w) (dev w2)) by (eapply keeps_trans; [apply Hsame|apply S]).
  pose proof (answered_from _ _ _ (dma w) _ _ rq _ Hsame (submitted_data _ _ _ _ _ _ _ _ (proj1 L5) L6) (sv_answer _ _ _ _ _ _ S)) as Ha.
  cbn [rq_status request] in Ha. destruct (rd (dma w2) (buf_phys d + 16) 1 =? 0) eqn:Est; cbn [negb].
  - apply wp_ret. split; [done|]. zbool. by rewrite Est in Ha.
  - apply wp_fail. unfold answered in Ha. rewrite Est in Ha. destruct Ha as [Hd Hr].
    split; [by split|]. split; [exact Hd|]. split; [by eexists|exact Hr].
Qed.

(** [read_sector] and [write_sector] of a driver at rest. *)
Definition blk_ready (w : World V) : Prop := exists d p n, at_rest w d p n.

Definition ready_after (w w' : World V) : Prop := blk_ready w' /\ keeps (dev w) (dev w').

Lemma blk_ready_refl w : blk_ready w -> ready_after w w.
Proof. intros Hw. split; [done|apply dv_same_refl]. Qed.

Lemma after_ready w w' d p n : after w w' d p n -> ready_after w w'.
Proof. intros [Hr Hk]. split; [by eexists _, _, _|done]. Qed.

Lemma wp_blk_read w lba :
  blk_ready w -> 0 <= lba < U64 ->
  wp (blk_read_sector off lba)
    (fun buf w' => ready_after w w' /\ dv_disk (dev w') = dv_disk (dev w) /\ buf = sector (dv_disk (dev w)) lba)
    (fun e w' => ready_after w w' /\ dv_disk (dev w') = dv_disk (dev w) /\
       forall k, dv_reliable (dev w) k -> ~ (0 <= lba < k)) w.
Proof.
  intros (d & p & n & R) Hl. unfold blk_read_sector. apply wp_bind, wp_get, wp_bind. rewrite (ar_device _ _ _ _ R).
  apply wp_ret. destruct (capacity_sectors d <=? lba) eqn:Ec; zbool.
  - apply wp_fail. split_and!; [apply blk_ready_refl; by exists d, p, n|done|]. intros k Hk%dv_reliable_capacity.
    rewrite (ar_capacity _ _ _ _ R) in Ec. lia.
  - unfold submit_read. apply wp_bind. eapply wp_mono; [exact (wp_bind_inv _ _ _ _ _ (wp_request w d p n false lba R Hl))| |].
    + intros u w1 H1. apply wp_bind. eapply wp_mono; [exact H1| |].
      * intros _ w2 [Ha [Hd Hp]]. apply wp_bind, wp_get, wp_ret. split_and!; [by eapply after_ready|done|].
        replace (buf_virt d + BUF_DATA - off) with (buf_phys d + 512) by (rewrite (ly_buf _ _ (ar_layout _ _ _ _ R)); unfold BUF_DATA; lia).
        exact Hp.
      * intros e w2 (Ha & Hd & _ & Hr). split_and!; [by eapply after_ready|done..].
    + intros e w2 (Ha & Hd & _ & Hr). split_and!; [by eapply after_ready|done..].
Qed.

(** The copy into the buffer page leaves the driver at rest. *)
Lemma at_rest_data w d p n data :
  length data = SECTOR_SIZE -> at_rest w d p n -> at_rest (set_dma (poke (buf_phys d + 512) data (dma w)) w) d p n.
Proof.
  intros Hd [R1 L R3 R4 R5 R6 R7 R8 R9]. pose proof L as [_ _ _ _ L1 L2 _ _]. unfold apart in L2.
  pose proof (used_off_spec (queue_size d) ltac:(lia)) as Hu. unfold SECTOR_SIZE in Hd.
  split; cbn [dma DEVICE dev set_dma]; try done; rewrite rd_poke_out by lia; done.
Qed.

Lemma wp_blk_write w lba data :
  blk_ready w -> 0 <= lba < U64 -> length data = SECTOR_SIZE ->
  wp (blk_write_sector off lba data)
    (fun _ w' => ready_after w w' /\ dv_disk (dev w') = <[lba := data]> (dv_disk (dev w)))
    (fun e w' => ready_after w w' /\ dv_disk (dev w') = dv_disk (dev w) /\
       forall k, dv_reliable (dev w) k -> ~ (0 <= lba < k)) w.
Proof.
  intros (d & p & n & R) Hl Hlen. unfold blk_write_sector. apply wp_bind, wp_get, wp_bind. rewrite (ar_device _ _ _ _ R).
  apply wp_ret. destruct (capacity_sectors d <=? lba) eqn:Ec; zbool.
  - apply wp_fail. split_and!; [apply blk_ready_refl; by exists d, p, n|done|]. intros k Hk%dv_reliable_capacity.
    rewrite (ar_capacity _ _ _ _ R) in Ec. lia.
  - unfold submit_write. apply wp_bind, wp_modify.
    replace (buf_virt d + BUF_DATA - off) with (buf_phys d + 512) by (rewrite (ly_buf _ _ (ar_layout _ _ _ _ R)); unfold BUF_DATA; lia).
    eapply wp_mono; [apply (wp_request _ d p n true lba (at_rest_data _ _ _ _ _ Hlen R) Hl)| |].
    + intros _ w2 [Ha Hd]. split; [by eapply after_ready in Ha|]. 
      change (dv_disk (dev w2) = <[lba := peek (poke (buf_phys d + 512) data (dma w)) (buf_phys d + 512) SECTOR_SIZE]> (dv_disk (dev w))) in Hd.
      by rewrite Hd, <- Hlen, peek_poke_same.
    + intros e w2 (Ha & Hd & _ & Hr). split_and!; [by eapply after_ready in Ha|done..].
Qed.

(** ** Initialisation *)

(** A device at stage [st] behind [w], unchanged otherwise since [v]. *)
Definition shaking (v : V) (w : World V) (io : Z) (st : Stage) : Prop :=
  dv_at (dev w) io st /\ same v (dev w) /\ 0 <= io /\ io + 0x1C <= U16.

Definition same_kernel (w w' : World V) : Prop := dma w' = dma w /\ DEVICE w' = DEVICE w /\ alloc w' = alloc w.

Section Handshake.
Context {E : Type} (X : E -> World V -> Prop).

Lemma wp_reg_out width (out : Z -> Z -> prog V E unit) v w io st r x st' (Q : unit -> World V -> Prop) :
  (forall p y, out p y = pmodify (port_out width p y)) ->
  shaking v w io st -> 0 <= r < 0x1C -> stage_out st width r x = Some st' ->
  (forall w', shaking v w' io st' -> same_kernel w w' -> Q tt w') ->
  wp (let! p := reg io r in in_dev (out p x)) Q X w.
Proof.
  intros Ho (Hat & Hs & Hio) Hr Hst HQ. apply wp_bind, wp_reg; [done..|]. rewrite Ho. apply wp_zoom, wp_modify.
  destruct (dv_out _ _ _ _ _ _ _ Hat Hst) as [Hat' Hs']. apply HQ; [|done]. split; [done|]. split; [by eapply dv_same_trans|done].
Qed.

Lemma wp_reg_in width v w io st r (Q : Z -> World V -> Prop) :
  shaking v w io st -> 0 <= r < 0x1C -> readable width r ->
  (forall x w', shaking v w' io st -> same_kernel w w' -> reads_as (dev w) st width r x -> Q x w') ->
  wp (let! p := reg io r in in_dev (Io.in_port width p)) Q X w.
Proof.
  intros (Hat & Hs & Hio) Hr Hread HQ. apply wp_bind, wp_reg; [done..|]. apply wp_zoom. unfold wp, Io.in_port.
  destruct (port_in width (io + r) (dev w)) as [x v'] eqn:Ep. destruct (dv_in _ _ _ _ _ _ _ Hat Hread Ep) as (Hat' & Hs' & Hx).
  apply HQ; [|done|done]. split; [done|]. split; [by eapply dv_same_trans|done].
Qed.
End Handshake.

Lemma rd_poke_zeros m a N b n : a <= b -> b + Z.of_nat n <= a + Z.of_nat N -> rd (poke a (zeros N) m) b n = 0.
Proof.
  intros H1 H2. unfold rd. rewrite <- (from_le_zeros n). f_equal. apply list_eq. intros i. unfold peek. rewrite list_lookup_fmap.
  destruct (decide (i < n)%nat) as [Hi|Hi].
  - rewrite lookup_seq_lt by done. unfold zeros. rewrite lookup_replicate_2 by done. cbn. f_equal.
    erewrite lookup_poke_in'; [done| |lia]. apply lookup_replicate_2. lia.
  - unfold zeros. rewrite lookup_seq_ge by lia. symmetry. apply lookup_replicate_None. lia.
Qed.

(** No [count] adjacent frames are left. *)
Definition no_run (s : Phys) (count : Z) : Prop :=
  forall i f, ~ (0 < count /\ adjacent (drop (Z.to_nat (next s)) (usable_frames memory_map)) i (Z.to_nat count) f).

(** The allocator cannot give the driver a queue of [pages] pages and a buffer page. *)
Definition no_room (s : Phys) (pages : Z) : Prop :=
  no_run s pages \/
  exists f s1, (allocate_contiguous memory_map pages : prog Phys Empty_set _) s = (Ret (Some f), s1) /\ no_run s1 1.

(** The allocator as it was, but for frames it handed out. *)
Definition alloc_grown (s' : Phys) (owned : gset Z) : Prop :=
  exists owned' free', owned ⊆ owned' /\ alloc_ok memory_map s' owned' free'.

Section Alloc.
Context (MO : map_ok memory_map) (Hlow : forall f, f ∈ usable_frames memory_map -> f < 2 ^ 44)
  (Hlen : 2 * Z.of_nat (length (usable_frames memory_map)) < U64).

Lemma wp_allocate_run s owned free count (X : Empty_set -> Phys -> Prop) :
  alloc_ok memory_map s owned free -> 0 < count -> next s <= Z.of_nat (length (usable_frames memory_map)) ->
  wp (allocate_contiguous memory_map count)
    (fun r s' => (allocate_contiguous memory_map count : prog Phys Empty_set _) s = (Ret r, s') /\
       match r with
       | Some f => (forall x, x ∈ run f count -> x ∈ usable_frames memory_map /\ x ∉ owned) /\
                   alloc_ok memory_map s' (run f count ∪ owned) free /\ next s' <= Z.of_nat (length (usable_frames memory_map))
       | None => s' = s /\ no_run s count
       end) X s.
Proof.
  intros O Hc Hn. pose proof (ok_next _ _ _ _ O) as H0.
  pose proof (allocate_contiguous_spec (E := Empty_set) memory_map MO s owned free count O ltac:(lia) ltac:(lia)) as H1.
  pose proof (allocate_contiguous_next (E := Empty_set) memory_map s count (fun _ _ => False) H0 ltac:(lia) ltac:(lia)) as H2.
  unfold wp in *. destruct (allocate_contiguous memory_map count s) as [[r| | |] s']; [|done..].
  split; [done|]. destruct r as [f|]; cbn [allocated_run] in H1; [|done]. destruct H1 as (_ & H1 & H3). split_and!; [done..|lia].
Qed.

(** The driver of a queue at [p] and a buffer page at [b], of which nothing was used. *)
Lemma fresh_at_rest w io p b q :
  dv_at (dev w) io (Live p 0) -> 0 <= io /\ io + 0x1C <= U16 -> q = dv_qsize (dev w) -> 3 <= q -> apart p b q ->
  0 <= b /\ b + 4096 <= U64 -> rd (dma w) (p + 16 * q + 2) 2 = 0 -> rd (dma w) (p + used_off q + 2) 2 = 0 ->
  DEVICE w = Some (mkVirtioBlk io q (off + p) (avail_off q) (used_off q) (off + b) b 0 (dv_capacity (dev w))) -> blk_ready w.
Proof.
  intros Hat Hio Hq Hq3 Ha Hb H1 H2 HD. pose proof (dv_qsize_range (dev w)). eexists _, p, 0. split; [exact HD|..]; cbn; try done.
  split; cbn; try done. lia.
Qed.

(** Pages of different frames do not overlap. *)
Lemma run_apart p b q :
  0 < q -> (forall x, x ∈ run p (vq_pages_of q) -> x mod 4096 = 0) -> b mod 4096 = 0 -> b ∉ run p (vq_pages_of q) -> apart p b q.
Proof.
  intros Hq Hp Hb Hn. destruct (vq_pages_spec q ltac:(lia)) as [Hs Hpos]. unfold apart.
  destruct (decide (b + 4096 <= p)) as [|H1]; [by right|left]. destruct (decide (p + vq_pages_of q * 4096 <= b)) as [|H2]; [lia|].
  exfalso. apply Hn, elem_of_run. assert (Hpm : p mod 4096 = 0) by (apply Hp, elem_of_run; exists 0; lia).
  pose proof (Z.div_mod p 4096 ltac:(lia)). pose proof (Z.div_mod b 4096 ltac:(lia)). exists (b / 4096 - p / 4096). lia.
Qed.

Lemma pfn_exact p : p mod 4096 = 0 -> 0 < p < 2 ^ 44 -> Z.shiftr p 12 mod U32 * 4096 = p.
Proof.
  intros Hp Hb. rewrite Z.shiftr_div_pow2 by lia. change (2 ^ 12) with 4096. pose proof (Z.div_mod p 4096 ltac:(lia)).
  rewrite Z.mod_small by (unfold U32; lia). lia.
Qed.

Lemma capacity_exact c : 0 <= c < U64 -> Z.lor (c mod U32) (Z.shiftl (c / U32) 32) = c.
Proof.
  intros Hc. pose proof (Z.mod_pos_bound c U32 ltac:(done)). rewrite Z.lor_comm, lor_shiftl_add by (unfold U32 in *; lia).
  pose proof (Z.div_mod c U32 ltac:(done)). unfold U32 in *. lia.
Qed.

(** What [init] leaves: the device as it was, the allocator too but for the frames
    of the driver, and a driver at rest, or no driver and a reason. *)
Definition initialised (v : V) (w w' : World V) (owned : gset Z) (refused : Prop) (ok : bool) : Prop :=
  same v (dev w') /\ alloc_grown (alloc w') owned /\
  if ok then blk_ready w' else DEVICE w' = DEVICE w /\ refused.

(** The last steps of the handshake, once queue and buffer are there. *)
Lemma wp_init_finish v w0 w owned refused io p b (X : Empty_set -> World V -> Prop) :
  shaking v w io Selected -> 3 <= dv_qsize v -> dv_capacity v * 512 < U64 -> alloc_grown (alloc w) owned ->
  p mod 4096 = 0 -> 0 < p < 2 ^ 44 -> 0 < b < 2 ^ 52 -> apart p b (dv_qsize v) ->
  rd (dma w) (p + 16 * dv_qsize v + 2) 2 = 0 -> rd (dma w) (p + used_off (dv_qsize v) + 2) 2 = 0 ->
  wp (reg_outl io REG_QUEUE_PFN (Z.shiftr p 12 mod U32) ;;!
      reg_outb io REG_DEVICE_STATUS (Z.lor (Z.lor STATUS_ACK STATUS_DRIVER) STATUS_DRIVER_OK) ;;!
      let! cap_lo := reg_inl io REG_CONFIG in
      let! cap_hi := reg_inl io (REG_CONFIG + 4) in
      let capacity_sectors := Z.lor cap_lo (Z.shiftl cap_hi 32) in
      let! _ := u64_mul capacity_sectors (Z.of_nat SECTOR_SIZE) in
      pmodify (set_device (Some (mkVirtioBlk io (dv_qsize v) (off + p) (avail_off (dv_qsize v)) (used_off (dv_qsize v)) (off + b) b 0
        capacity_sectors))) ;;!
      pret true) (fun ok w' => initialised v w0 w' owned refused ok) X w.
Proof.
  intros Hs Hq Hcap Hal Hp Hpb Hb Ha Hav Hus.
  apply wp_bind. eapply (wp_reg_out X 4 Io.outl); [done|exact Hs|unfold REG_QUEUE_PFN; lia|done|]. intros w1 S1 K1.
  rewrite pfn_exact in S1 by done.
  apply wp_bind. eapply (wp_reg_out X 1 Io.outb); [done|exact S1|unfold REG_DEVICE_STATUS; lia|done|]. intros w2 S2 K2.
  apply wp_bind. eapply (wp_reg_in X 4); [exact S2|unfold REG_CONFIG; lia|left; auto|]. intros lo w3 S3 K3 (_ & R3 & _).
  apply wp_bind. eapply (wp_reg_in X 4); [exact S3|unfold REG_CONFIG; lia|left; auto|]. intros hi w4 S4 K4 (_ & _ & R4).
  specialize (R3 eq_refl eq_refl). specialize (R4 eq_refl eq_refl).
  destruct S4 as (A4 & E4 & Hio). pose proof E4 as [(Q4 & C4 & _) _]. destruct S2 as (_ & [(_ & C2 & _) _] & _), S3 as (_ & [(_ & C3 & _) _] & _).
  rewrite R3, R4, C2, C3, capacity_exact by apply dv_capacity_range.
  pose proof (dv_capacity_range v) as Hc.
  apply wp_bind. eapply wp_unwrap; [apply checked_spec; split; change (Z.of_nat SECTOR_SIZE) with 512; lia|]. cbn beta.
  apply wp_bind, wp_modify, wp_ret.
  destruct K1 as (M1 & _ & L1), K2 as (M2 & _ & L2), K3 as (M3 & _ & L3), K4 as (M4 & _ & L4).
  assert (Hm : dma w4 = dma w) by congruence. assert (Hl : alloc w4 = alloc w) by congruence.
  split; [exact E4|]. split; [cbn; by rewrite Hl|].
  eapply (fresh_at_rest _ io p b (dv_qsize v)); cbn [dev dma DEVICE set_device]; try done; [unfold U64; lia|by rewrite Hm..|by rewrite C4].
Qed.

Lemma alloc_grown_refl s owned free : alloc_ok memory_map s owned free -> alloc_grown s owned.
Proof. intros O. by exists owned, free. Qed.

Lemma wp_init_queue v w owned free io (X : Empty_set -> World V -> Prop) :
  shaking v w io Selected -> 3 <= dv_qsize v -> dv_capacity v * 512 < U64 ->
  alloc_ok memory_map (alloc w) owned free -> next (alloc w) <= Z.of_nat (length (usable_frames memory_map)) ->
  wp (init_queue off memory_map io (dv_qsize v))
    (fun ok w' => initialised v w w' owned (no_room (alloc w) (vq_pages_of (dv_qsize v))) ok) X w.
Proof.
  intros S Hq Hcap O Hn. assert (Hq0 : 0 <= dv_qsize v) by lia. destruct (vq_pages_spec _ Hq0) as [Hpg Hpos]. unfold init_queue.
  apply wp_bind, wp_zoom. eapply wp_mono; [by apply (wp_allocate_run _ _ _ _ (fun _ _ => False) O Hpos)| |done].
  intros [p|] s1 [E1 H1].
  2:{ destruct H1 as [-> H1]. apply wp_bind. eapply (wp_reg_out X 1 Io.outb _ (set_alloc (alloc w) w)); [done|exact S|unfold REG_DEVICE_STATUS; lia|done|].
      intros w' (_ & S' & _) (_ & K2 & K3). apply wp_ret. split; [done|]. split; [rewrite K3; by eapply alloc_grown_refl|].
      split; [done|by left]. }
  destruct H1 as (Hp & O1 & Hn1).
  apply wp_bind, wp_modify. apply wp_bind, (wp_write_vol _ _ (p + avail_off (dv_qsize v))); [lia|]. cbn [dma set_dma set_alloc].
  replace (off + p - off) with p by lia.
  apply wp_bind, wp_zoom. cbn [alloc set_dma set_alloc].
  eapply wp_mono; [by apply (wp_allocate_run _ _ _ 1 (fun _ _ => False) O1)| |done].
  assert (Hg : forall s owned' free', alloc_ok memory_map s owned' free' -> run p (vq_pages_of (dv_qsize v)) ∪ owned ⊆ owned' -> alloc_grown s owned).
  { intros s owned' free' O' Hsub. exists owned', free'. split; [set_solver|done]. }
  intros [b|] s2 [E2 H2]; cbn [set_alloc set_dma dma DEVICE dev].
  2:{ destruct H2 as [-> H2]. apply wp_bind. eapply (wp_reg_out X 1 Io.outb _ _ _ _ _ _ Unknown); [done| |unfold REG_DEVICE_STATUS; lia|done|].
      { split; [apply S|apply S]. }
      intros w' (_ & S' & _) (_ & K2 & K3). apply wp_ret. split; [done|]. split; [rewrite K3; by eapply Hg|].
      split; [done|]. right. by exists p, s1. }
  destruct H2 as (Hb & O2 & _).
  assert (Hrun : forall x, x ∈ run p (vq_pages_of (dv_qsize v)) -> x mod 4096 = 0) by (intros x [Hx _]%Hp; by eapply usable_bounds).
  assert (Hpin : p ∈ run p (vq_pages_of (dv_qsize v))) by (apply elem_of_run; exists 0; lia).
  destruct (Hb b) as [Hbu Hbn]; [apply elem_of_run; exists 0; lia|].
  destruct (usable_bounds _ MO b Hbu) as [Hb1 Hb2]. destruct (Hp p Hpin) as [Hpu _]. destruct (usable_bounds _ MO p Hpu) as [Hp1 Hp2].
  pose proof (used_off_spec _ Hq0) as Hu.
  eapply wp_init_finish; try done.
  - eapply Hg; [exact O2|set_solver].
  - pose proof (Hlow p Hpu). lia.
  - apply run_apart; [lia|done..|set_solver].
  - cbn [dma set_alloc set_dma]. rewrite rd_wr_out by (unfold avail_off; lia). apply rd_poke_zeros; unfold QUEUE_ALIGN; lia.
  - cbn [dma set_alloc set_dma]. rewrite rd_wr_out by (unfold avail_off; lia). apply rd_poke_zeros; unfold QUEUE_ALIGN; lia.
Qed.

Lemma on_bus_ext (c c' : Z -> Z) b s f (d : PciDevice) : (forall a, c' a = c a) -> on_bus c b s f d -> on_bus c' b s f d.
Proof.
  intros Hc. assert (Hd : forall b s f, dev_of c' b s f = dev_of c b s f).
  { intros b' s' f'. unfold dev_of, field. rewrite !Hc. destruct (_ =? _); [done|]. do 2 f_equal. apply list_fmap_ext. auto. }
  unfold on_bus. by setoid_rewrite Hd.
Qed.

Definition is_virtio_blk (d : PciDevice) : Prop := vendor_id d = PCI_VENDOR_VIRTIO /\ device_id d = PCI_DEVICE_VIRTIO_BLK.

(** Why there is no driver: no virtio disk on the bus, a disk without I/O ports, no
    queue, or not enough memory. *)
Definition refused (w : World V) : Prop :=
  (forall b s f (d : PciDevice), on_bus (cfg (dev w)) b s f d -> ~ is_virtio_blk d) \/
  (exists b s f (d : PciDevice), on_bus (cfg (dev w)) b s f d /\ is_virtio_blk d /\ Z.testbit (cfg (dev w) (address b s f 0x10)) 0 = false) \/
  dv_qsize (dev w) = 0 \/ no_room (alloc w) (vq_pages_of (dv_qsize (dev w))).

(** The handshake up to the size of the queue. *)
Lemma wp_handshake v w io owned free (X : Empty_set -> World V -> Prop) why :
  shaking v w io Unknown -> dv_qsize v = 0 \/ 3 <= dv_qsize v -> dv_capacity v * 512 < U64 ->
  alloc_ok memory_map (alloc w) owned free -> next (alloc w) <= Z.of_nat (length (usable_frames memory_map)) ->
  (dv_qsize v = 0 \/ no_room (alloc w) (vq_pages_of (dv_qsize v)) -> why) ->
  wp (reg_outb io REG_DEVICE_STATUS 0 ;;!
      reg_outb io REG_DEVICE_STATUS STATUS_ACK ;;!
      reg_outb io REG_DEVICE_STATUS (Z.lor STATUS_ACK STATUS_DRIVER) ;;!
      let! _ := reg_inl io REG_DEVICE_FEATURES in
      reg_outl io REG_DRIVER_FEATURES 0 ;;!
      reg_outw io REG_QUEUE_SELECT 0 ;;!
      let! queue_size := reg_inw io REG_QUEUE_SIZE in
      if queue_size =? 0 then reg_outb io REG_DEVICE_STATUS STATUS_FAILED ;;! pret false
      else init_queue off memory_map io queue_size) (fun ok w' => initialised v w w' owned why ok) X w.
Proof.
  intros S Hq Hcap O Hn Hwhy.
  apply wp_bind. eapply (wp_reg_out X 1 Io.outb); [done|exact S|unfold REG_DEVICE_STATUS; lia|done|]. clear S. intros w1 S K1.
  apply wp_bind. eapply (wp_reg_out X 1 Io.outb); [done|exact S|unfold REG_DEVICE_STATUS; lia|done|]. clear S. intros w2 S K2.
  apply wp_bind. eapply (wp_reg_out X 1 Io.outb); [done|exact S|unfold REG_DEVICE_STATUS; lia|done|]. clear S. intros w3 S K3.
  apply wp_bind. eapply (wp_reg_in X 4); [exact S|unfold REG_DEVICE_FEATURES; lia|left; auto|]. clear S. intros _ w4 S K4 _.
  apply wp_bind. eapply (wp_reg_out X 4 Io.outl); [done|exact S|unfold REG_DRIVER_FEATURES; lia|done|]. clear S. intros w5 S K5.
  apply wp_bind. eapply (wp_reg_out X 2 Io.outw); [done|exact S|unfold REG_QUEUE_SELECT; lia|done|]. clear S. intros w6 S6 K6.
  apply wp_bind. eapply (wp_reg_in X 2); [exact S6|unfold REG_QUEUE_SIZE; lia|right; auto|]. intros x w7 S7 K7 (R7 & _).
  rewrite (R7 eq_refl eq_refl eq_refl). destruct S6 as (_ & [(-> & _) _] & _).
  destruct K1 as (M1 & D1 & L1), K2 as (M2 & D2 & L2), K3 as (M3 & D3 & L3), K4 as (M4 & D4 & L4), K5 as (M5 & D5 & L5),
    K6 as (M6 & D6 & L6), K7 as (M7 & D7 & L7).
  assert (Hl : alloc w7 = alloc w) by congruence. assert (HD : DEVICE w7 = DEVICE w) by congruence.
  destruct (dv_qsize v =? 0) eqn:E0; zbool.
  - apply wp_bind. eapply (wp_reg_out X 1 Io.outb); [done|exact S7|unfold REG_DEVICE_STATUS; lia|done|]. intros w8 (_ & S8 & _) (_ & D8 & L8).
    apply wp_ret. split; [done|]. split; [rewrite L8, Hl; by eapply alloc_grown_refl|]. split; [congruence|auto].
  - eapply wp_mono; [eapply wp_init_queue; [exact S7|lia|done|by rewrite Hl..]| |done].
    intros ok w8 (A1 & A2 & A3). split; [done|]. split; [done|]. destruct ok; [done|]. rewrite HD, Hl in A3. destruct A3. split; [done|auto].
Qed.

Lemma on_bus_fields c b s f (d : PciDevice) :
  on_bus c b s f d -> bus d = b /\ slot d = s /\ func d = f /\ bars d !! 0%nat = Some (c (address b s f 0x10)).
Proof.
  intros (_ & _ & _ & Hd & _). unfold dev_of in Hd. destruct (_ =? _); [done|]. injection Hd as <-. cbn [bus slot func bars].
  split_and!; done.
Qed.

Lemma wp_bar0 (d : PciDevice) raw w (Q : Bar -> World V -> Prop) (X : Empty_set -> World V -> Prop) :
  bars d !! 0%nat = Some raw ->
  (Z.testbit raw 0 = true -> Q (BarIo (Z.land raw 0xFFFFFFFC)) w) ->
  (forall b, Z.testbit raw 0 = false -> (forall base, b <> BarIo base) -> Q b w) -> wp (in_dev (bar d 0)) Q X w.
Proof.
  intros Hr H1 H2. apply wp_zoom. unfold bar. apply wp_bind. eapply wp_unwrap; [exact Hr|]. cbn beta. cbv zeta.
  replace (Z.land raw 1) with (raw mod 2) by (symmetry; apply (Z.land_ones raw 1); lia). pose proof (Z.bit0_mod raw) as Hb.
  destruct w as [m dv v al]. unfold set_dev in *. cbn [dma DEVICE dev alloc] in *.
  destruct (raw =? 0) eqn:E0; zbool; [subst; by apply wp_ret, H2|].
  destruct (raw mod 2 =? 0) eqn:E1; cbn [negb]; zbool.
  - assert (Ht : Z.testbit raw 0 = false) by (destruct (Z.testbit raw 0); [change (Z.b2z true) with 1 in Hb; lia|done]).
    destruct (_ && _); by apply wp_ret, H2.
  - apply wp_ret, H1. destruct (Z.testbit raw 0); [done|]. change (Z.b2z false) with 0 in Hb. lia.
Qed.

Lemma wp_init w owned free (X : Empty_set -> World V -> Prop) :
  alloc_ok memory_map (alloc w) owned free -> next (alloc w) <= Z.of_nat (length (usable_frames memory_map)) ->
  dv_qsize (dev w) = 0 \/ 3 <= dv_qsize (dev w) -> dv_capacity (dev w) * 512 < U64 ->
  wp (init off memory_map) (fun ok w' => initialised (dev w) w w' owned (refused w) ok) X w.
Proof.
  intros O Hn Hq Hcap. unfold init. apply wp_bind, wp_zoom. eapply wp_mono; [apply (wp_find _ _ _ (fun _ _ => False))| |done].
  intros [d|] v1 [U1 Hd].
  2:{ apply wp_ret. split; [by apply dv_untouched|]. split; [by eapply alloc_grown_refl|]. split; [done|]. left. exact Hd. }
  destruct Hd as (Hv & Hi & b & s & f & Hb). destruct (on_bus_fields _ _ _ _ _ Hb) as (-> & -> & -> & Hbar).
  apply wp_bind, wp_zoom, wp_config_read_u32. intros v2 U2. cbn [dev set_dev] in U2.
  apply wp_bind, wp_zoom. unfold config_write_u32. apply wp_bind, wp_modify, wp_modify. cbn [dev set_dev]. set (x := Z.lor (Z.lor _ PCI_CMD_IO_SPACE) _).
  assert (U : untouched (dev w) v2) by (by transitivity v1).
  assert (Hb2 : on_bus (cfg v2) b s f d) by (eapply on_bus_ext; [|exact Hb]; intros a; by apply untouched_cfg).
  assert (Hx : Z.testbit x 0 = true /\ Z.testbit x 2 = true).
  { subst x. rewrite !Z.lor_spec. split; apply orb_true_iff; [left; by apply orb_true_iff; right|by right]. }
  destruct (dv_enable v2 b s f d x Hb2 Hv Hi (proj1 Hx) (proj2 Hx)) as [Hs Hat]. rewrite (untouched_cfg _ _ _ U) in Hat.
  assert (Hs' : same (dev w) (port_out 4 CONFIG_DATA x (port_out 4 CONFIG_ADDRESS (address b s f PCI_COMMAND) v2)))
    by (eapply dv_same_trans; [by apply dv_untouched|exact Hs]).
  apply wp_bind. eapply wp_bar0; [exact Hbar| |].
  - intros Ht. destruct (Hat Ht) as (Hr & Hio & Hat'). assert (Hl : 0 <= Z.land (cfg (dev w) (address b s f 16)) 0xFFFFFFFC) by (apply Z.land_nonneg; auto).
    rewrite Z.mod_small by lia. eapply wp_mono; [eapply (wp_handshake (dev w) _ _ _ _ (fun _ _ => False) (refused w)); [|exact Hq|exact Hcap|exact O|exact Hn|]| |done].
    + split; [exact Hat'|]. split; [exact Hs'|lia].
    + intros Hw. right. right. exact Hw.
    + intros ok w' Hw. exact Hw.
  - intros b0 Ht Hne. destruct b0 as [|base|]; [|by destruct (Hne base)|].
    all: apply wp_ret; split; [exact Hs'|]; split; [by eapply alloc_grown_refl|]; split; [done|]; right; left; by exists b, s, f, d.
Qed.
End Alloc.
End Requests.

(** ** The file system's disk *)

Section Disk.
Context {V : Type} `{VL : VirtioDiskLaws V} (off : Z).

(** A machine whose disk driver is at rest. *)
Definition ReadyDisk : Type := { w : World V | blk_ready off w }.

(** A sector number is a [u64]. *)
Definition u64_lba {A} (m : Z -> prog (World V) BlkError A) (lba : Z) : prog (World V) BlkError A :=
  if (0 <=? lba) && (lba <? U64) then m lba else pfail OutOfRange.

Definition is_sector (buf : list byte) : bool := bool_decide (length buf = SECTOR_SIZE).

(** The buffer is a [[u8; 512]]. *)
Definition ready_write (lba : Z) (buf : list byte) : prog (World V) BlkError unit :=
  if is_sector buf then u64_lba (fun lba => blk_write_sector off lba buf) lba else pfail OutOfRange.

Lemma wp_keeps_ready {A} (m : prog (World V) BlkError A) Q X w :
  wp m (fun a w' => ready_after off w w' /\ Q a w') (fun e w' => ready_after off w w' /\ X e w') w -> blk_ready off (snd (m w)).
Proof. unfold wp. destruct (m w) as [[] w']; by intros [[? ?] ?] || done. Qed.

Lemma wp_u64_lba {A} (m : Z -> prog (World V) BlkError A) lba (Q : A -> World V -> Prop) w :
  let X := fun (_ : BlkError) w' => ready_after off w w' /\ dv_disk (dev w') = dv_disk (dev w) /\
    forall k, dv_reliable (dev w) k -> ~ (0 <= lba < k) in
  blk_ready off w -> (0 <= lba < U64 -> wp (m lba) Q X w) -> wp (u64_lba m lba) Q X w.
Proof.
  intros X Hw Hm. unfold u64_lba. destruct (Z.leb_spec 0 lba), (Z.ltb_spec lba U64); cbn [andb]; [by apply Hm|..].
  all: apply wp_fail; split_and!; [by apply blk_ready_refl|done|]; intros k Hk%dv_reliable_capacity;
    pose proof (dv_capacity_range (dev w)); lia.
Qed.

Lemma wp_ready_read lba w : blk_ready off w ->
  wp (u64_lba (blk_read_sector off) lba)
    (fun buf w' => ready_after off w w' /\ dv_disk (dev w') = dv_disk (dev w) /\ buf = sector (dv_disk (dev w)) lba)
    (fun _ w' => ready_after off w w' /\ dv_disk (dev w') = dv_disk (dev w) /\ forall k, dv_reliable (dev w) k -> ~ (0 <= lba < k)) w.
Proof. intros Hw. apply wp_u64_lba; [done|]. intros Hl. by apply wp_blk_read. Qed.

Lemma wp_ready_write lba buf w : blk_ready off w ->
  wp (ready_write lba buf)
    (fun _ w' => ready_after off w w' /\ dv_disk (dev w') = <[lba := buf]> (dv_disk (dev w)))
    (fun _ w' => ready_after off w w' /\ dv_disk (dev w') = dv_disk (dev w) /\
       (length buf = SECTOR_SIZE -> forall k, dv_reliable (dev w) k -> ~ (0 <= lba < k))) w.
Proof.
  intros Hw. unfold ready_write, is_sector. case_bool_decide as Hb; [|apply wp_fail; by split; [apply blk_ready_refl|]].
  eapply wp_mono; [apply (wp_u64_lba (fun lba => blk_write_sector off lba buf) lba (fun _ w' => ready_after off w w' /\
    dv_disk (dev w') = <[lba := buf]> (dv_disk (dev w)))); [done|]| |].
  - intros Hl. by apply wp_blk_write.
  - done.
  - intros e w' (H1 & H2 & H3). by split_and!.
Qed.

(** A program that keeps the driver at rest, on such machines. *)
Definition on_ready {A} (m : prog (World V) BlkError A) (Hm : forall w, blk_ready off w -> blk_ready off (snd (m w))) :
    prog ReadyDisk BlkError A :=
  fun d => (fst (m (proj1_sig d)), exist _ (snd (m (proj1_sig d))) (Hm _ (proj2_sig d))).

#[export] Instance ReadyDisk_BlockDev : BlockDev ReadyDisk := {
  read_sector lba := on_ready (u64_lba (blk_read_sector off) lba) (fun w Hw => wp_keeps_ready _ _ _ w (wp_ready_read lba w Hw));
  write_sector lba buf := on_ready (ready_write lba buf) (fun w Hw => wp_keeps_ready _ _ _ w (wp_ready_write lba buf w Hw));
  disk d := dv_disk (dev (proj1_sig d));
  reliable d n := dv_reliable (dev (proj1_sig d)) n
}.

Lemma wp_on_ready {A} (m : prog (World V) BlkError A) Hm (Q : A -> ReadyDisk -> Prop) (X : BlkError -> ReadyDisk -> Prop) d :
  wp m (fun a w' => forall H, Q a (exist _ w' H)) (fun e w' => forall H, X e (exist _ w' H)) (proj1_sig d) -> wp (on_ready m Hm) Q X d.
Proof.
  unfold wp, on_ready. pose proof (Hm _ (proj2_sig d)) as Hr. generalize (Hm (proj1_sig d) (proj2_sig d)).
  destruct (m (proj1_sig d)) as [[] w']; cbn; auto.
Qed.

(** The driver discharges the interface the file system is proved against. *)
#[export] Instance ReadyDisk_Laws : BlockDevLaws ReadyDisk.
Proof.
  split; intros d lba; [|intros buf Hbuf]; apply wp_on_ready; destruct d as [w Hw]; cbn [proj1_sig].
  - eapply wp_mono; [by apply wp_ready_read| |].
    + intros b w' ([_ (_ & _ & Hk)] & Hd & ->) H'. by split_and!.
    + intros e w' ([_ (_ & _ & Hk)] & Hd & Hr) H'. by split_and!.
  - eapply wp_mono; [by apply wp_ready_write| |].
    + intros b w' ([_ (_ & _ & Hk)] & Hd) H'. by split_and!.
    + intros e w' ([_ (_ & _ & Hk)] & Hd & Hr) H'. split_and!; [done..|]. exact (Hr Hbuf).
Qed.
End Disk.

(** The driver at boot: with a virtio disk behind the ports that keeps its
    promise, [init] returns.  When it returns [true] the disk has its queue in
    memory no one else owns and the driver is at rest; when it returns [false]
    there is no driver, and there is no disk with I/O ports, no queue or not enough
    adjacent memory.  The contents of the disk stay as they were. *)
Theorem blk_init_ready {V} `{VL : VirtioDiskLaws V} (off : Z) (memory_map : list MemoryRegion) (w : World V) owned free :
  map_ok memory_map -> (forall f, f ∈ usable_frames memory_map -> f < 2 ^ 44) ->
  2 * Z.of_nat (length (usable_frames memory_map)) < U64 ->
  alloc_ok memory_map (alloc w) owned free -> next (alloc w) <= Z.of_nat (length (usable_frames memory_map)) ->
  dv_qsize (dev w) = 0 \/ 3 <= dv_qsize (dev w) -> dv_capacity (dev w) * 512 < U64 ->
  exists ok w', (init off memory_map : prog _ Empty_set _) w = (Ret ok, w') /\
    same (dev w) (dev w') /\ alloc_grown memory_map (alloc w') owned /\
    if ok then blk_ready off w' else DEVICE w' = DEVICE w /\ refused memory_map w.
Proof.
  intros MO Hlow Hlen O Hn Hq Hcap. exact (wp_total _ _ _ (wp_init off memory_map MO Hlow Hlen w owned free _ O Hn Hq Hcap)).
Qed.

(** C11. Requests of a driver at rest, whatever the device's pace: the poll ends, a read
    gives the sector and changes nothing, a write changes that sector and no other,
    a request that fails changes nothing and was for a sector the device does not
    serve, and the driver is at rest again. *)
Theorem blk_requests_exact {V} `{VL : VirtioDiskLaws V} (off : Z) (w : World V) lba buf :
  blk_ready off w -> 0 <= lba < U64 -> length buf = SECTOR_SIZE ->
  wp (blk_read_sector off lba)
    (fun data w' => ready_after off w w' /\ dv_disk (dev w') = dv_disk (dev w) /\ data = sector (dv_disk (dev w)) lba)
    (fun _ w' => ready_after off w w' /\ dv_disk (dev w') = dv_disk (dev w) /\ forall k, dv_reliable (dev w) k -> ~ (0 <= lba < k)) w /\
  wp (blk_write_sector off lba buf)
    (fun _ w' => ready_after off w w' /\ dv_disk (dev w') = <[lba := buf]> (dv_disk (dev w)))
    (fun _ w' => ready_after off w w' /\ dv_disk (dev w') = dv_disk (dev w) /\ forall k, dv_reliable (dev w) k -> ~ (0 <= lba < k)) w.
Proof. intros Hw Hl Hb. split; [by apply wp_blk_read|by apply wp_blk_write]. Qed.
