(* ===== verification/VirtioSim.v ===== *)
(** * A simulated virtio disk

    A device that keeps the promise of [VirtioBlk]: one function on the PCI bus
    with its ports at 0xC000, a queue of 8 descriptors and 1024 sectors, some of
    which fail.  On it the driver and the file system run. *)

From stdpp Require Import base numbers list gmap.
From Stdlib Require Import ZArith Lia.
From S2P Require Import Prelude BlockDev Uaccess Mem Frame Pci VirtioBlk VirtioTheorems.
#[local] Open Scope Z_scope.

Definition SIM_IO : Z := 0xC000.
Definition SIM_QSIZE : Z := 8.
Definition SIM_CAPACITY : Z := 1024.

(** [sim_busy]: how many polls the request under way still takes. *)
Record Sim : Type := mkSim {
  sim_select : Z; sim_command : Z; sim_stage : Stage; sim_sectors : gmap Z (list byte); sim_bad : gset Z; sim_busy : nat
}.

Definition sim_cfg (v : Sim) (a : Z) : Z :=
  if a =? address 0 3 0 0 then 0x10011AF4
  else if a =? address 0 3 0 4 then sim_command v
  else if a =? address 0 3 0 0x10 then 0xC001
  else if a / 256 =? address 0 3 0 0 / 256 then 0
  else 0xFFFFFFFF.

Definition sim_in (width port : Z) (v : Sim) : Z * Sim :=
  ((if (width =? 4) && (port =? CONFIG_DATA) then sim_cfg v (sim_select v)
    else if (width =? 2) && (port =? SIM_IO + REG_QUEUE_SIZE) then SIM_QSIZE
    else if (width =? 4) && (port =? SIM_IO + REG_CONFIG) then SIM_CAPACITY
    else 0), v).

Definition sim_out (width port x : Z) (v : Sim) : Sim :=
  if (width =? 4) && (port =? CONFIG_ADDRESS) then
    mkSim x (sim_command v) (sim_stage v) (sim_sectors v) (sim_bad v) (sim_busy v)
  else if (width =? 4) && (port =? CONFIG_DATA) then
    if sim_select v =? address 0 3 0 4
    then mkSim (sim_select v) x (sim_stage v) (sim_sectors v) (sim_bad v) (sim_busy v) else v
  else match stage_out (sim_stage v) width (port - SIM_IO) x with
       | Some st => mkSim (sim_select v) (sim_command v) st (sim_sectors v) (sim_bad v) 2
       | None => v
       end.

#[export] Instance Sim_Ports : PortIO Sim := { port_in := sim_in; port_out := sim_out }.

(** The device takes two polls, then answers. *)
Definition sim_answer (v : Sim) (m : gmap Z byte) (phys n : Z) (rq : Request) : Sim * gmap Z byte :=
  let bad := (SIM_CAPACITY <=? rq_sector rq) || bool_decide (rq_sector rq ∈ sim_bad v) in
  let m1 := if bad || rq_write rq then m else poke (rq_data rq) (sector (sim_sectors v) (rq_sector rq)) m in
  let m2 := wr m1 (rq_status rq) 1 (if bad then 1 else 0) in
  let m3 := wr m2 (phys + used_off SIM_QSIZE + 2) 2 ((n + 1) mod U16) in
  let secs := if bad || negb (rq_write rq) then sim_sectors v
              else <[rq_sector rq := peek m (rq_data rq) 512]> (sim_sectors v) in
  (mkSim (sim_select v) (sim_command v) (Live phys ((n + 1) mod U16)) secs (sim_bad v) (sim_busy v), m3).

Definition sim_step (v : Sim) (m : gmap Z byte) : Sim * gmap Z byte :=
  match sim_stage v with
  | Notified phys n =>
      match sim_busy v with
      | S k => (mkSim (sim_select v) (sim_command v) (sim_stage v) (sim_sectors v) (sim_bad v) k, m)
      | O => match blk_request m phys SIM_QSIZE n with Some rq => sim_answer v m phys n rq | None => (v, m) end
      end
  | _ => (v, m)
  end.

#[export] Instance Sim_Dma : DmaDevice Sim := { dv_step := sim_step; dv_left := sim_busy }.

(** But for the selected configuration register. *)
Definition sim_same (v v' : Sim) : Prop :=
  sim_command v' = sim_command v /\ sim_stage v' = sim_stage v /\ sim_sectors v' = sim_sectors v /\ sim_bad v' = sim_bad v.

#[export] Instance Sim_Host : PciHost Sim.
Proof.
  refine {| cfg := sim_cfg; untouched := sim_same |}.
  - split; [by intros v|]. intros v1 v2 v3 (A1 & A2 & A3 & A4) (B1 & B2 & B3 & B4). unfold sim_same. by split_and!; congruence.
  - intros w w' a (A1 & _). unfold sim_cfg. by rewrite A1.
  - intros w a x w' [= <- <-]. by split.
Defined.

#[export] Instance Sim_Disk : VirtioDisk Sim := {
  dv_at v io st := io = SIM_IO /\ (st = Unknown \/ sim_stage v = st);
  dv_disk := sim_sectors;
  dv_reliable v n := n <= SIM_CAPACITY /\ forall k, 0 <= k < n -> k ∉ sim_bad v;
  dv_qsize _ := SIM_QSIZE;
  dv_capacity _ := SIM_CAPACITY
}.

Lemma stage_out_unknown st width r x st' : stage_out Unknown width r x = Some st' -> stage_out st width r x = Some st'.
Proof.
  unfold stage_out. destruct ((width =? 1) && _); [|by repeat case_match].
  destruct (x =? 0); [done|]. by destruct (x =? STATUS_FAILED).
Qed.

Lemma stage_out_port st width r x st' : stage_out st width r x = Some st' -> 0 <= r <= 0x12.
Proof.
  unfold stage_out, REG_DEVICE_STATUS, REG_DRIVER_FEATURES, REG_QUEUE_SELECT, REG_QUEUE_PFN, REG_QUEUE_NOTIFY.
  repeat (destruct (_ && _) eqn:?; zbool; [intros _; lia|]). done.
Qed.

Lemma sim_out_stage v width r x st' :
  stage_out (sim_stage v) width r x = Some st' ->
  sim_out width (SIM_IO + r) x v = mkSim (sim_select v) (sim_command v) st' (sim_sectors v) (sim_bad v) 2.
Proof.
  intros Hs. pose proof (stage_out_port _ _ _ _ _ Hs). unfold sim_out.
  replace (SIM_IO + r =? CONFIG_ADDRESS) with false by (symmetry; apply Z.eqb_neq; unfold SIM_IO, CONFIG_ADDRESS; lia).
  replace (SIM_IO + r =? CONFIG_DATA) with false by (symmetry; apply Z.eqb_neq; unfold SIM_IO, CONFIG_DATA; lia).
  rewrite !andb_false_r. replace (SIM_IO + r - SIM_IO) with r by lia. by rewrite Hs.
Qed.

(** The disk is the only function on the bus. *)
Lemma sim_on_bus v b s f d : on_bus (sim_cfg v) b s f d -> vendor_id d = PCI_VENDOR_VIRTIO -> b = 0 /\ s = 3 /\ f = 0.
Proof.
  intros (Hb & Hs & Hf & Hd & _) Hv. unfold dev_of in Hd. destruct (_ =? VENDOR_NONE); [done|]. injection Hd as <-. cbn [vendor_id] in Hv.
  unfold field in Hv. change (Z.land 0 (4 - 2) * 8) with 0 in Hv. rewrite Z.shiftr_0_r in Hv. unfold sim_cfg in Hv.
  destruct (address_sum b s f 0) as [Ea _]; [lia..|]. change (Z.land 0 252) with 0 in Ea.
  destruct (address b s f 0 =? address 0 3 0 0) eqn:E0; zbool; [by eapply address_inj in E0; try lia|].
  destruct (address b s f 0 =? address 0 3 0 4) eqn:E1; zbool; [change (address 0 3 0 4) with 0x80001804 in E1; lia|].
  destruct (address b s f 0 =? address 0 3 0 0x10) eqn:E2; zbool; [change (address 0 3 0 0x10) with 0x80001810 in E2; lia|].
  by destruct (_ =? _).
Qed.

(** The device's writes and what they leave. *)
Lemma sim_answered v m phys n rq :
  well_placed phys SIM_QSIZE rq -> let '(v', m') := sim_answer v m phys n rq in
  stepped v v' m m' SIM_IO phys n rq.
Proof.
  intros (W1 & W2 & W3). unfold sim_answer. set (bad := (SIM_CAPACITY <=? _) || _). cbv zeta.
  pose proof (used_off_spec SIM_QSIZE ltac:(done)) as Hu. pose proof (Z.mod_pos_bound (n + 1) U16 ltac:(done)) as Hn.
  assert (Hlen : Z.of_nat (length (sector (sim_sectors v) (rq_sector rq))) = 512) by (by rewrite length_sector).
  unfold stepped. cbn [dv_qsize Sim_Disk]. unfold SIM_QSIZE in *. split.
  - intros x Hx. unfold writable in Hx. unfold wr. rewrite !lookup_poke_out by (rewrite ?length_to_le; lia).
    destruct (bad || rq_write rq) eqn:Eb; [done|]. apply orb_false_iff in Eb as [_ Ew]. rewrite lookup_poke_out; [done|]. rewrite Hlen. auto.
  - right. split; [by split; [|right]|]. split; [by split_and!|]. split; [apply rd_wr_eq; [done|exact Hn]|].
    rewrite rd_wr_out by lia. rewrite rd_wr_eq; [|done|change (256 ^ Z.of_nat 1) with 256; destruct bad; lia]. unfold answered.
    destruct bad eqn:Eb; cbn [Z.eqb orb].
    + split; [done|]. intros k [Hk1 Hk2] Hs. subst bad. apply orb_true_iff in Eb as [Eb|Eb]; zbool; [lia|].
      apply bool_decide_eq_true in Eb. by apply (Hk2 (rq_sector rq)).
    + destruct (rq_write rq); cbn [negb]; [done|]. split; [done|]. rewrite !peek_wr_out by lia.
      pose proof (peek_poke_same m (rq_data rq) (sector (sim_sectors v) (rq_sector rq))) as Hp. by rewrite length_sector in Hp.
Qed.

#[export] Instance Sim_Laws : VirtioDiskLaws Sim.
Proof.
  split.
  - intros v v' (A1 & A2 & A3 & A4). split; [|done]. split; [done|]. split; [done|]. cbn. intros n. by rewrite A4.
  - intros v. done.
  - intros v. done.
  - by intros v n [? _].
  - intros v b s f d x Hb Hv Hi Hx0 Hx2. cbn [cfg Sim_Host] in Hb. destruct (sim_on_bus _ _ _ _ _ Hb Hv) as (-> & -> & ->). cbv zeta.
    split; [done|]. intros _. cbn [cfg Sim_Host]. change (sim_cfg v (address 0 3 0 16)) with 0xC001.
    split; [done|]. split; [done|]. by split; [|left].
  - intros v io st width r x st' [-> Hst] Ho. cbn [port_out Sim_Ports].
    assert (Ho' : stage_out (sim_stage v) width r x = Some st') by (destruct Hst as [-> | ->]; [by apply stage_out_unknown|done]).
    rewrite (sim_out_stage _ _ _ _ _ Ho'). split; [by split; [|right]|]. done.
  - intros v io st width r x v' [-> Hst] Hr [= <- <-]. split; [done|]. split; [done|].
    unfold reads_as. split_and!; [by intros -> ->|by intros -> ->|by intros -> ->].
  - intros v m io phys n rq v' m' [-> [?|Hst]] Hrq Hp Hs; [done|]. cbn [dv_step Sim_Dma] in Hs. unfold sim_step in Hs. rewrite Hst in Hs.
    destruct (sim_busy v) as [|k] eqn:Ek.
    + cbn [dv_qsize Sim_Disk] in Hrq. rewrite Hrq in Hs. pose proof (sim_answered v m phys n rq Hp) as Ha. by rewrite Hs in Ha.
    + injection Hs as <- <-. split; [done|]. left. split; [by split; [|right]|]. split; [done|]. split; [|done].
      cbn [dv_left Sim_Dma sim_busy]. lia.
Qed.

(** ** The driver on the simulated disk *)

Definition sim_map : list MemoryRegion := [mkRegion false 0 1; mkRegion true 1 5].

Lemma sim_map_ok : map_ok sim_map.
Proof.
  assert (D : forall r, r ∈ sim_map -> is_usable r = true -> r = mkRegion true 1 5).
  { intros r Hr Hu. repeat (apply elem_of_cons in Hr as [->|Hr]; [done|]). by apply not_elem_of_nil in Hr. }
  split.
  - intros r Hr Hu. rewrite (D r Hr Hu). cbn. lia.
  - apply (bool_decide_unpack (NoDup sim_map)). vm_compute. done.
  - intros r r' Hr Hr' Hne Hu Hu'. by rewrite (D r Hr Hu), (D r' Hr' Hu') in Hne.
Qed.

Definition sim_world : World Sim := mkWorld ∅ None (mkSim 0 0 Unknown ∅ {[ 5 ]} 0) (mkPhys ∅ 0 None).

Lemma sim_alloc_ok : alloc_ok sim_map (alloc sim_world) ∅ [].
Proof. split; cbn; [lia|done|constructor|by intros f ?%not_elem_of_nil|set_solver]. Qed.

Lemma sim_low f : f ∈ usable_frames sim_map -> f < 2 ^ 44.
Proof. intros Hf. apply (usable_bounds _ sim_map_ok) in Hf as Hb. vm_compute in Hf. repeat (apply elem_of_cons in Hf as [->|Hf]; [lia|]). by apply not_elem_of_nil in Hf. Qed.

Lemma sim_init_true : fst ((init 0x10000000 sim_map : prog _ Empty_set _) sim_world) = Ret true.
Proof. vm_compute. reflexivity. Qed.

Lemma blk_init_ready_witness : blk_ready 0x10000000 (snd ((init 0x10000000 sim_map : prog _ Empty_set _) sim_world)).
Proof.
  destruct (blk_init_ready 0x10000000 sim_map sim_world ∅ [] sim_map_ok sim_low eq_refl sim_alloc_ok) as (ok & w' & E & _ & _ & H);
    [vm_compute; done|right; vm_compute; done|vm_compute; done|].
  pose proof sim_init_true as T. rewrite E in T |- *. cbn in T. injection T as ->. exact H.
Defined.

(** A result of a program that is known, with what holds of it. *)
Lemma wp_known {S E A} (m : prog S E A) Q X s r :
  wp m Q X s -> fst (m s) = r -> match r with Ret a => Q a (snd (m s)) | Fail e => X e (snd (m s)) | _ => False end.
Proof. unfold wp. destruct (m s) as [[] s']; cbn; intros H <-; done. Qed.

(** The machine after [init]. *)
Definition sim_booted : World Sim := snd ((init 0x10000000 sim_map : prog _ Empty_set _) sim_world).

Lemma sim_booted_ready : blk_ready 0x10000000 sim_booted.
Proof.
  assert (H : wp (init 0x10000000 sim_map) (fun ok w' => initialised 0x10000000 sim_map (dev sim_world) sim_world w' ∅
    (refused sim_map sim_world) ok) (fun (_ : Empty_set) _ => False) sim_world).
  { apply (wp_init 0x10000000 sim_map sim_map_ok sim_low eq_refl sim_world ∅ []); [exact sim_alloc_ok|vm_compute; done|right; vm_compute; done|vm_compute; done]. }
  exact (proj2 (proj2 (wp_known _ _ _ _ _ H sim_init_true))).
Qed.

Lemma sim_write_7 : fst (blk_write_sector 0x10000000 7 (replicate 512 x41) sim_booted) = Ret tt.
Proof. vm_compute. reflexivity. Qed.

Lemma sim_read_5 : fst (blk_read_sector 0x10000000 5 sim_booted) = Fail (DeviceError 1).
Proof. vm_compute. reflexivity. Qed.

(** A write of sector 7 is on the disk; sector 5 is bad and a read of it fails. *)
Lemma blk_requests_exact_witness :
  (exists w', blk_write_sector 0x10000000 7 (replicate 512 x41) sim_booted = (Ret tt, w') /\
     dv_disk (dev w') = <[7 := replicate 512 x41]> (dv_disk (dev sim_booted))) /\
  exists e w', blk_read_sector 0x10000000 5 sim_booted = (Fail e, w') /\ dv_disk (dev w') = dv_disk (dev sim_booted).
Proof.
  split.
  - destruct (blk_requests_exact 0x10000000 sim_booted 7 (replicate 512 x41) sim_booted_ready) as [_ H]; [vm_compute; done|vm_compute; done|].
    pose proof (wp_known _ _ _ _ _ H sim_write_7) as Hw. pose proof sim_write_7 as T.
    revert Hw T. generalize (blk_write_sector 0x10000000 7 (replicate 512 x41) sim_booted). intros [r w'] [_ Hw] T. exists w'.
    cbn [fst] in T. subst r. split; [reflexivity|exact Hw].
  - destruct (blk_requests_exact 0x10000000 sim_booted 5 zero_sector sim_booted_ready) as [H _]; [vm_compute; done|vm_compute; done|].
    pose proof (wp_known _ _ _ _ _ H sim_read_5) as Hw. pose proof sim_read_5 as T.
    revert Hw T. generalize (blk_read_sector 0x10000000 5 sim_booted). intros [r w'] (_ & Hw & _) T. exists (DeviceError 1), w'.
    cbn [fst] in T. subst r. split; [reflexivity|exact Hw].
Defined.
