(* ===== verification/VirtioNet.v ===== *)
(** * The network card

    [drivers/virtio_net.rs]: a legacy virtio network device with a queue for
    receiving and one for sending.  Eight receive buffers are lent to the device;
    a frame that arrived is copied out and its buffer lent again.  The device
    reads and writes memory on its own; it is an interface. *)

From stdpp Require Import base numbers list gmap.
From Stdlib Require Import ZArith Lia.
From S2P Require Import Prelude Uaccess Mem Frame Pci VirtioBlk.
#[local] Open Scope Z_scope.

Definition PCI_DEVICE_VIRTIO_NET : Z := 0x1000.
Definition VIRTIO_NET_F_MAC : Z := 32.
Definition NET_HDR_LEN : Z := 10.
Definition RX_BUF_STRIDE : Z := 2048.
Definition RX_BUF_COUNT : Z := 8.
Definition TX_BUF_SIZE : Z := QUEUE_ALIGN.
Definition QUEUE_RX : Z := 0.
Definition QUEUE_TX : Z := 1.
Definition TX_SPINS : Z := 100000000.

Record Virtq : Type := mkVirtq { q_virt : Z; q_avail : Z; q_used : Z; q_size : Z; q_last : Z }.

Record VirtioNet : Type := mkVirtioNet {
  n_io : Z; n_rx : Virtq; n_tx : Virtq;
  rx_buf_virt : Z; rx_buf_phys : Z; tx_buf_virt : Z; tx_buf_phys : Z; n_mac : list byte
}.

(** Physical memory, the static [DEVICE], the device, and the frame allocator. *)
Record NetWorld (V : Type) : Type := mkNetWorld { ndma : gmap Z byte; NIC : option VirtioNet; ndev : V; nalloc : Phys }.
Arguments mkNetWorld {V}.
Arguments ndma {V}.
Arguments NIC {V}.
Arguments ndev {V}.
Arguments nalloc {V}.

Section Driver.
Context {V : Type} {P : PortIO V} {DM : DmaDevice V} (phys_offset : Z) (memory_map : list MemoryRegion).
#[local] Abbreviation wprog := (prog (NetWorld V)).

Definition nset_dma (m : gmap Z byte) (w : NetWorld V) : NetWorld V := mkNetWorld m (NIC w) (ndev w) (nalloc w).
Definition nset_nic (d : option VirtioNet) (w : NetWorld V) : NetWorld V := mkNetWorld (ndma w) d (ndev w) (nalloc w).
Definition nset_dev (v : V) (w : NetWorld V) : NetWorld V := mkNetWorld (ndma w) (NIC w) v (nalloc w).
Definition nset_alloc (p : Phys) (w : NetWorld V) : NetWorld V := mkNetWorld (ndma w) (NIC w) (ndev w) p.

Definition n_in_dev {E A} (m : prog V E A) : wprog E A := pzoom ndev nset_dev m.
Definition n_in_alloc {E A} (m : prog Phys E A) : wprog E A := pzoom nalloc nset_alloc m.

Definition nwrite {E} (n : nat) (virt x : Z) : wprog E unit :=
  pmodify (fun w => nset_dma (wr (ndma w) (virt - phys_offset) n x) w).
Definition nread {E} (n : nat) (virt : Z) : wprog E Z :=
  let! w := pget in pret (rd (ndma w) (virt - phys_offset) n).
Definition nfill {E} (virt : Z) (data : list byte) : wprog E unit :=
  pmodify (fun w => nset_dma (poke (virt - phys_offset) data (ndma w)) w).

Definition nreg {E} (io r : Z) : wprog E Z := punwrap (checked U16 (io + r)).
Definition nout {E} (width io r x : Z) : wprog E unit := let! p := nreg io r in n_in_dev (pmodify (port_out width p x)).
Definition nin {E} (width io r : Z) : wprog E Z := let! p := nreg io r in n_in_dev (Io.in_port width p).

(** The device acts. *)
Definition nic_runs {E} : wprog E unit :=
  pmodify (fun w => let '(v, m) := dv_step (ndev w) (ndma w) in nset_dev v (nset_dma m w)).

(** *** [impl Virtq] *)

Definition q_write_desc {E} (q : Virtq) (i addr len flags next : Z) : wprog E unit :=
  let d := q_virt q + i * 16 in
  nwrite 8 d addr ;;!
  nwrite 4 (d + 8) len ;;!
  nwrite 2 (d + 12) flags ;;!
  nwrite 2 (d + 14) next.

Definition push_avail {E} (q : Virtq) (desc_head : Z) : wprog E Z :=
  let avail := q_virt q + q_avail q in
  let! idx := nread 2 (avail + 2) in
  passert (negb (q_size q =? 0)) ;;!
  nwrite 2 (avail + 4 + (idx mod q_size q) * 2) desc_head ;;!
  let new_idx := (idx + 1) mod U16 in
  nwrite 2 (avail + 2) new_idx ;;!
  pret new_idx.

Definition q_advance (q : Virtq) : Virtq := mkVirtq (q_virt q) (q_avail q) (q_used q) (q_size q) ((q_last q + 1) mod U16).

(** The element taken, and the queue with its [last_used_idx]. *)
Definition take_used {E} (q : Virtq) : wprog E (option (Z * Z) * Virtq) :=
  nic_runs ;;!
  let used := q_virt q + q_used q in
  let! used_idx := nread 2 (used + 2) in
  if used_idx =? q_last q then pret (None, q)
  else
    passert (negb (q_size q =? 0)) ;;!
    let elem := used + 4 + (q_last q mod q_size q) * 8 in
    let! id := nread 4 elem in
    let! len := nread 4 (elem + 4) in
    pret (Some (id, len), q_advance q).

(** *** Set-up *)

Definition setup_virtq {E} (io queue_index : Z) : wprog E (option Virtq) :=
  nout 2 io REG_QUEUE_SELECT queue_index ;;!
  let! queue_size := nin 2 io REG_QUEUE_SIZE in
  if queue_size =? 0 then pret None
  else
    let vq_pages := vq_pages_of queue_size in
    let! vq_frame := n_in_alloc (allocate_contiguous memory_map vq_pages) in
    match vq_frame with
    | None => pret None
    | Some vq_phys =>
        let vq_virt := phys_offset + vq_phys in
        nfill vq_virt (zeros (Z.to_nat (vq_pages * QUEUE_ALIGN))) ;;!
        nwrite 2 (vq_virt + avail_off queue_size) VIRTQ_AVAIL_F_NO_INTERRUPT ;;!
        nout 4 io REG_QUEUE_PFN (Z.shiftr vq_phys 12 mod U32) ;;!
        pret (Some (mkVirtq vq_virt (avail_off queue_size) (used_off queue_size) queue_size 0))
    end.

(** [STATUS_FAILED], and the driver stays down. *)
Definition init_failed {E} (io : Z) : wprog E bool := nout 1 io REG_DEVICE_STATUS STATUS_FAILED ;;! pret false.

Definition read_mac {E} (io : Z) : wprog E (list byte) :=
  pfold (fun mac i => let! b := nin 1 io (REG_CONFIG + i) in pret (mac ++ [z2b b])) (seqZ 0 6) [].

(** The receive buffers, lent in order. *)
Definition lend {E} (net : VirtioNet) (i : Z) : wprog E unit :=
  q_write_desc (n_rx net) i (rx_buf_phys net + i * RX_BUF_STRIDE) RX_BUF_STRIDE VIRTQ_DESC_F_WRITE 0 ;;!
  let! _ := push_avail (n_rx net) i in pret tt.

Definition rx_pages : Z := align_up (RX_BUF_COUNT * RX_BUF_STRIDE) QUEUE_ALIGN / QUEUE_ALIGN.

Definition init_net {E} (io : Z) : wprog E bool :=
  nout 1 io REG_DEVICE_STATUS 0 ;;!
  nout 1 io REG_DEVICE_STATUS STATUS_ACK ;;!
  nout 1 io REG_DEVICE_STATUS (Z.lor STATUS_ACK STATUS_DRIVER) ;;!
  let! features := nin 4 io REG_DEVICE_FEATURES in
  if Z.land features VIRTIO_NET_F_MAC =? 0 then init_failed io
  else
    nout 4 io REG_DRIVER_FEATURES VIRTIO_NET_F_MAC ;;!
    let! mac := read_mac io in
    let! rx := setup_virtq io QUEUE_RX in
    let! tx := setup_virtq io QUEUE_TX in
    match rx, tx with
    | Some rx, Some tx =>
        let! rx_frame := n_in_alloc (allocate_contiguous memory_map rx_pages) in
        let! tx_frame := n_in_alloc (allocate_contiguous memory_map 1) in
        match rx_frame, tx_frame with
        | Some rx_phys, Some tx_phys =>
            let net := mkVirtioNet io rx tx (phys_offset + rx_phys) rx_phys (phys_offset + tx_phys) tx_phys mac in
            pfold (fun _ i => lend net i) (seqZ 0 RX_BUF_COUNT) tt ;;!
            nout 1 io REG_DEVICE_STATUS (Z.lor (Z.lor STATUS_ACK STATUS_DRIVER) STATUS_DRIVER_OK) ;;!
            nout 2 io REG_QUEUE_NOTIFY QUEUE_RX ;;!
            pmodify (nset_nic (Some net)) ;;!
            pret true
        | _, _ => init_failed io
        end
    | _, _ => init_failed io
    end.

Definition net_init {E} : wprog E bool :=
  let! found := n_in_dev (find PCI_VENDOR_VIRTIO PCI_DEVICE_VIRTIO_NET) in
  match found with
  | None => pret false
  | Some d =>
      let! cmd := n_in_dev (config_read_u32 (bus d) (slot d) (func d) PCI_COMMAND) in
      n_in_dev (config_write_u32 (bus d) (slot d) (func d) PCI_COMMAND
        (Z.lor (Z.lor cmd PCI_CMD_IO_SPACE) PCI_CMD_BUS_MASTER)) ;;!
      let! b := n_in_dev (bar d 0) in
      match b with
      | BarIo base => init_net (base mod U16)
      | _ => pret false
      end
  end.

Definition mac {E} : wprog E (option (list byte)) := let! w := pget in pret (n_mac <$> NIC w).

(** *** Frames *)

Definition set_tx (q : Virtq) (net : VirtioNet) : VirtioNet :=
  mkVirtioNet (n_io net) (n_rx net) q (rx_buf_virt net) (rx_buf_phys net) (tx_buf_virt net) (tx_buf_phys net) (n_mac net).
Definition set_rx (q : Virtq) (net : VirtioNet) : VirtioNet :=
  mkVirtioNet (n_io net) q (n_tx net) (rx_buf_virt net) (rx_buf_phys net) (tx_buf_virt net) (tx_buf_phys net) (n_mac net).

(** [while net.tx.last_used_idx != target]; a completion is not a spin. *)
Definition send_turn {E} (target : Z) (x : VirtioNet * Z) : wprog E (VirtioNet * Z + bool) :=
  let '(net, spins) := x in
  if q_last (n_tx net) =? target then pret (inr true)
  else
    let! '(got, q) := take_used (n_tx net) in
    let net := set_tx q net in
    pmodify (nset_nic (Some net)) ;;!
    match got with
    | Some _ => pret (inl (net, spins))
    | None => if TX_SPINS <? spins + 1 then pret (inr false) else pret (inl (net, spins + 1))
    end.

Definition send {E} (frame : list byte) : wprog E bool :=
  if TX_BUF_SIZE - NET_HDR_LEN <? Z.of_nat (length frame) then pret false
  else
    let! w := pget in
    match NIC w with
    | None => pret false
    | Some net =>
        nfill (tx_buf_virt net) (zeros (Z.to_nat NET_HDR_LEN)) ;;!
        nfill (tx_buf_virt net + NET_HDR_LEN) frame ;;!
        q_write_desc (n_tx net) 0 (tx_buf_phys net) (NET_HDR_LEN + Z.of_nat (length frame)) 0 0 ;;!
        let! target := push_avail (n_tx net) 0 in
        nout 2 (n_io net) REG_QUEUE_NOTIFY QUEUE_TX ;;!
        forever (send_turn target) (net, 0)
    end.

(** The bytes put at the front of [out]. *)
Definition recv {E} (out : nat) : wprog E (option (list byte)) :=
  let! w := pget in
  match NIC w with
  | None => pret None
  | Some net =>
      let! '(got, q) := take_used (n_rx net) in
      let net := set_rx q net in
      pmodify (nset_nic (Some net)) ;;!
      match got with
      | None => pret None
      | Some (id, len) =>
          if RX_BUF_COUNT <=? id then pret None
          else
            let total := Z.min len RX_BUF_STRIDE in
            let frame_len := Z.max 0 (total - NET_HDR_LEN) in
            let n := Z.min frame_len (Z.of_nat out) in
            let src := rx_buf_virt net + (id * RX_BUF_STRIDE + NET_HDR_LEN) in
            let! w := pget in
            let data := peek (ndma w) (src - phys_offset) (Z.to_nat n) in
            lend net id ;;!
            nout 2 (n_io net) REG_QUEUE_NOTIFY QUEUE_RX ;;!
            pret (Some data)
      end
  end.
End Driver.

(** ** What the device promises *)

(** A device that is ready: its queues at physical addresses with their sizes, how
    many chains of each it has used (modulo 2^16), the frames it received and put
    in buffers, and the frames it sent. *)
Record Card : Type := mkCard {
  rx_at : Z; rx_q : Z; rx_n : Z; tx_at : Z; tx_q : Z; tx_n : Z;
  arrived : list (list byte); sent : list (list byte)
}.

Definition avail_idx_at (p q : Z) : Z := p + avail_off q + 2.
Definition avail_slot (p q i : Z) : Z := p + avail_off q + 4 + (i mod q) * 2.
Definition used_idx_at (p q : Z) : Z := p + used_off q + 2.
Definition used_slot (p q i : Z) : Z := p + used_off q + 4 + (i mod q) * 8.

(** A chain is used: its head and a length in the used ring, and the index. *)
Definition mark_used (p q n h len : Z) (m : gmap Z byte) : gmap Z byte :=
  wr (wr (wr m (used_slot p q n) 4 h) (used_slot p q n + 4) 4 len) (used_idx_at p q) 2 ((n + 1) mod U16).

(** What the device does on its own.  A frame that arrives goes, behind a header of
    ten bytes, to the buffer of the next available descriptor, if it fits there
    (bytes after it in the buffer may change too); a frame to send is read from its
    buffer. *)
Inductive moves : Card * gmap Z byte -> Card * gmap Z byte -> Prop :=
| moves_rx p q n tp tq tn ar se m h hdr f junk :
    rd m (avail_idx_at p q) 2 <> n -> h = rd m (avail_slot p q n) 2 -> desc_flags m p h = VIRTQ_DESC_F_WRITE ->
    length hdr = 10%nat -> Z.of_nat (length (hdr ++ f ++ junk)) <= desc_len m p h ->
    moves (mkCard p q n tp tq tn ar se, m)
      (mkCard p q ((n + 1) mod U16) tp tq tn (ar ++ [f]) se,
       mark_used p q n h (10 + Z.of_nat (length f)) (poke (desc_addr m p h) (hdr ++ f ++ junk) m))
| moves_tx p q n tp tq tn ar se m h len :
    rd m (avail_idx_at tp tq) 2 <> tn -> h = rd m (avail_slot tp tq tn) 2 -> desc_flags m tp h = 0 -> 10 <= desc_len m tp h ->
    moves (mkCard p q n tp tq tn ar se, m)
      (mkCard p q n tp tq ((tn + 1) mod U16) ar (se ++ [peek m (desc_addr m tp h + 10) (Z.to_nat (desc_len m tp h - 10))]),
       mark_used tp tq tn h len m).

(** One frame waits to be sent. *)
Definition can_send (c : Card) (m : gmap Z byte) : Prop :=
  let h := rd m (avail_slot (tx_at c) (tx_q c) (tx_n c)) 2 in
  rd m (avail_idx_at (tx_at c) (tx_q c)) 2 = (tx_n c + 1) mod U16 /\ desc_flags m (tx_at c) h = 0 /\ 10 <= desc_len m (tx_at c) h.

(** [card_at v io c]: the registers are at [io]. *)
Class NetCard (V : Type) {P : PortIO V} {DM : DmaDevice V} : Type := { card_at : V -> Z -> Card -> Prop }.

Class NetCardLaws (V : Type) {P : PortIO V} {DM : DmaDevice V} {NC : NetCard V} : Prop := {
  card_io v io c : card_at v io c -> 0 <= io /\ io + 0x1C <= U16;
  (* a notification changes nothing the driver sees *)
  card_notify v io c x : card_at v io c -> card_at (port_out 2 (io + REG_QUEUE_NOTIFY) x v) io c;
  (* a frame that waits to be sent is taken after at most [dv_left] looks, fewer than the driver waits for *)
  card_steps v io c m v' m' : card_at v io c -> dv_step v m = (v', m') ->
    exists c', card_at v' io c' /\ rtc moves (c, m) (c', m') /\
      (can_send c m -> rd m' (avail_idx_at (tx_at c) (tx_q c)) 2 = tx_n c' \/ (dv_left v' < dv_left v)%nat);
  card_prompt v io c : card_at v io c -> Z.of_nat (dv_left v) < TX_SPINS
}.
