(* ===== verification/VirtioNetTheorems.v ===== *)
(** * The network card: theorems

    Frames come out of the card's queue in the order they arrived, each once and
    whole, whatever the device does between two looks of the driver; every buffer
    is lent or holds a frame; and a frame is sent as it was given. *)

From stdpp Require Import base numbers list gmap.
From Stdlib Require Import ZArith Lia.
From S2P Require Import Prelude Uaccess Mem Frame Pci VirtioBlk VirtioNet.
#[local] Open Scope Z_scope.

(** ** Rings *)

(** A queue of a size the format allows. *)
Definition ring_size (q : Z) : Prop := 0 < q /\ (q | U16).

Definition vq_end (p q : Z) : Z := p + used_off q + 6 + 8 * q.

Lemma mod_ring x q : ring_size q -> (x mod U16) mod q = x mod q.
Proof. intros [Hq Hd]. by apply Z.mod_mod_divide. Qed.

Lemma slot_mod x j q : ring_size q -> (x mod U16 + j) mod q = (x + j) mod q.
Proof. intros Hq. rewrite <- (mod_ring (x + j)) by done. rewrite <- (mod_ring (x mod U16 + j)) by done. f_equal. apply Z.add_mod_idemp_l. done. Qed.

Lemma succ_mod_ne n : (n + 1) mod U16 <> n.
Proof.
  intros H. pose proof (Z.mod_pos_bound (n + 1) U16 ltac:(done)) as Hr. rewrite H in Hr. unfold U16 in *.
  destruct (decide (n = 65535)) as [->|]; [done|]. rewrite Z.mod_small in H by lia. lia.
Qed.

(** Fewer than [q] apart, two indices have different slots. *)
Lemma slots_differ x i j q : 0 < q -> 0 < j - i < q -> (x + i) mod q <> (x + j) mod q.
Proof.
  intros Hq Hij E. pose proof (Z.div_mod (x + i) q ltac:(lia)) as H1. pose proof (Z.div_mod (x + j) q ltac:(lia)) as H2. rewrite <- E in H2.
  set (a := (x + i) / q) in *. set (b := (x + j) / q) in *. set (r := (x + i) mod q) in *. clearbody a b r.
  assert (Hd : j - i = q * (b - a)) by lia. destruct (Z.le_gt_cases (b - a) 0); nia.
Qed.

(** The receive side: [pend] are the frames in buffers that the driver has not taken
    yet, with the buffer each is in; [free] the buffers lent to the device. *)
Record rx_ring (m : gmap Z byte) (p q b last : Z) (pend : list (Z * list byte)) (free : list Z) : Prop := {
  rr_last : 0 <= last < U16;
  rr_used_idx : rd m (used_idx_at p q) 2 = (last + Z.of_nat (length pend)) mod U16;
  rr_avail_idx : rd m (avail_idx_at p q) 2 = (last + 8) mod U16;
  rr_pend : forall j id f, pend !! j = Some (id, f) ->
    rd m (used_slot p q (last + Z.of_nat j)) 4 = id /\ rd m (used_slot p q (last + Z.of_nat j) + 4) 4 = 10 + Z.of_nat (length f) /\
    peek m (b + id * 2048 + 10) (length f) = f /\ Z.of_nat (length f) <= 2038;
  rr_free : forall j id, free !! j = Some id -> rd m (avail_slot p q (last + Z.of_nat (length pend) + Z.of_nat j)) 2 = id;
  rr_ids : pend.*1 ++ free ≡ₚ seqZ 0 8;
  rr_desc : forall id, 0 <= id < 8 -> desc_addr m p id = b + id * 2048 /\ desc_len m p id = 2048 /\ desc_flags m p id = VIRTQ_DESC_F_WRITE
}.

Lemma rr_count m p q b last pend free : rx_ring m p q b last pend free -> (length pend + length free = 8)%nat.
Proof. intros R. pose proof (Permutation_length (rr_ids _ _ _ _ _ _ _ R)) as H. by rewrite length_app, length_fmap, length_seqZ in H. Qed.

Lemma rr_id m p q b last pend free id : rx_ring m p q b last pend free -> id ∈ pend.*1 ++ free -> 0 <= id < 8.
Proof. intros R Hin. rewrite (rr_ids _ _ _ _ _ _ _ R) in Hin. apply elem_of_seqZ in Hin. lia. Qed.

(** Where the pieces of a queue lie. *)
Lemma ring_layout p q i : 0 < q ->
  p + 16 * q = p + avail_off q /\ avail_idx_at p q = p + 16 * q + 2 /\ avail_slot p q i = p + 16 * q + 4 + (i mod q) * 2 /\ 0 <= i mod q < q /\
  used_idx_at p q = p + used_off q + 2 /\ used_slot p q i = p + used_off q + 4 + (i mod q) * 8 /\ 18 * q + 6 <= used_off q /\ vq_end p q = p + used_off q + 6 + 8 * q.
Proof. intros Hq. pose proof (Z.mod_pos_bound i q Hq). pose proof (used_off_spec q ltac:(lia)). unfold avail_idx_at, avail_slot, used_idx_at, used_slot, avail_off, vq_end. lia. Qed.

(** The memory outside a queue and its buffers does not matter. *)
Lemma rx_ring_ext m m' p q b last pend free :
  8 <= q -> rx_ring m p q b last pend free ->
  (forall x, p <= x < vq_end p q -> m' !! x = m !! x) -> (forall x, b <= x < b + 16384 -> m' !! x = m !! x) ->
  rx_ring m' p q b last pend free.
Proof.
  intros Hq R Hp Hb. pose proof R as [R1 R2 R3 R4 R5 R6 R7].
  assert (Hrd : forall a n, p <= a -> a + Z.of_nat n <= vq_end p q -> rd m' a n = rd m a n) by (intros a n H1 H2; apply rd_ext; intros x Hx; apply Hp; lia).
  pose proof (ring_layout p q 0 ltac:(lia)) as (L1 & L2 & _ & _ & L5 & _ & L7 & L8).
  split; [done|rewrite Hrd by lia; done|rewrite Hrd by lia; done| | |done|].
  - intros j id f Hj. destruct (R4 j id f Hj) as (E1 & E2 & E3 & E4). pose proof (ring_layout p q (last + Z.of_nat j) ltac:(lia)) as (_ & _ & _ & M & _ & U & _ & _).
    assert (0 <= id < 8) by (eapply rr_id; [exact R|]; apply elem_of_app; left; apply list_elem_of_fmap; exists (id, f); split; [done|]; by eapply list_elem_of_lookup_2).
    split_and!; [rewrite Hrd by lia; done|rewrite Hrd by lia; done| |done]. rewrite <- E3 at 2. apply peek_ext. intros x Hx. apply Hb. lia.
  - intros j id Hj. pose proof (ring_layout p q (last + Z.of_nat (length pend) + Z.of_nat j) ltac:(lia)) as (_ & _ & A & M & _). rewrite Hrd by lia. by apply R5.
  - intros id Hid. destruct (R7 id Hid) as (E1 & E2 & E3). unfold desc_addr, desc_len, desc_flags in *. rewrite !Hrd by lia. done.
Qed.

(** What [mark_used] changes. *)
Lemma mark_used_out p q n h len m x :
  0 < q -> x < p + used_off q \/ vq_end p q <= x -> mark_used p q n h len m !! x = m !! x.
Proof.
  intros Hq Hx. pose proof (ring_layout p q n Hq) as (_ & _ & _ & M & U1 & U2 & U3 & U4).
  unfold mark_used, wr. rewrite !lookup_poke_out by (rewrite length_to_le; lia). done.
Qed.

Lemma mark_used_here p q n h len m : 0 < q -> 0 <= h < U32 -> 0 <= len < U32 ->
  rd (mark_used p q n h len m) (used_idx_at p q) 2 = (n + 1) mod U16 /\
  rd (mark_used p q n h len m) (used_slot p q n) 4 = h /\ rd (mark_used p q n h len m) (used_slot p q n + 4) 4 = len.
Proof.
  intros Hq Hh Hl. pose proof (ring_layout p q n Hq) as (_ & _ & _ & M & U1 & U2 & U3 & U4). unfold mark_used. split_and!.
  - apply rd_wr_eq; [done|]. apply Z.mod_pos_bound. done.
  - rewrite !rd_wr_out by lia. by apply rd_wr_eq.
  - rewrite rd_wr_out by lia. by apply rd_wr_eq.
Qed.

Lemma mark_used_other p q n h len m i d : 0 < q -> i mod q <> n mod q -> 0 <= d <= 4 ->
  rd (mark_used p q n h len m) (used_slot p q i + d) 4 = rd m (used_slot p q i + d) 4.
Proof.
  intros Hq Hi Hd. pose proof (ring_layout p q n Hq) as (_ & _ & _ & M & U1 & U2 & U3 & U4).
  pose proof (ring_layout p q i Hq) as (_ & _ & _ & M' & _ & U2' & _ & _). unfold mark_used. rewrite !rd_wr_out by lia. done.
Qed.

Definition disjoint (a n b k : Z) : Prop := a + n <= b \/ b + k <= a.

(** The middle of what was stored. *)
Lemma peek_poke_mid m a l1 l2 l3 : peek (poke a (l1 ++ l2 ++ l3) m) (a + Z.of_nat (length l1)) (length l2) = l2.
Proof.
  apply list_eq. intros i. unfold peek. rewrite list_lookup_fmap. destruct (decide (i < length l2)%nat) as [Hi|Hi].
  - rewrite lookup_seq_lt by done. cbn. destruct (lookup_lt_is_Some_2 l2 i Hi) as [c Hc]. rewrite Hc. f_equal.
    rewrite (lookup_poke_in' a (l1 ++ l2 ++ l3) m _ c); [done| |lia].
    replace (Z.to_nat _) with (length l1 + i)%nat by lia. rewrite lookup_app_r by lia. replace (length l1 + i - length l1)%nat with i by lia. by rewrite lookup_app_l.
  - rewrite lookup_seq_ge, (lookup_ge_None_2 l2) by lia. done.
Qed.

(** A frame arrives: it is the next pending one. *)
Section Arrive.
Context (m : gmap Z byte) (p q b last : Z) (pend : list (Z * list byte)) (h : Z) (free : list Z) (hdr f junk : list byte).
Context (Hq8 : 8 <= q) (Hq : ring_size q) (Hdis : disjoint p (vq_end p q - p) b 16384).
Context (R : rx_ring m p q b last pend (h :: free)).
Context (Hhdr : length hdr = 10%nat) (Hlen : Z.of_nat (length (hdr ++ f ++ junk)) <= 2048).
Let k : Z := Z.of_nat (length pend).
Let n : Z := (last + k) mod U16.
Let m1 : gmap Z byte := poke (b + h * 2048) (hdr ++ f ++ junk) m.
Let m2 : gmap Z byte := mark_used p q n h (10 + Z.of_nat (length f)) m1.

Lemma arrive_id : 0 <= h < 8.
Proof. eapply rr_id; [exact R|]. rewrite elem_of_app, elem_of_cons. auto. Qed.

Lemma arrive_count : 0 <= k < 8.
Proof. pose proof (rr_count _ _ _ _ _ _ _ R) as H. cbn [length] in H. unfold k. lia. Qed.

Lemma arrive_fits : Z.of_nat (length f) <= 2038.
Proof. rewrite !length_app in Hlen. lia. Qed.

(** The queue up to its used ring, and the buffers. *)
Lemma arrive_ring a c : p <= a -> a + Z.of_nat c <= vq_end p q -> rd m1 a c = rd m a c.
Proof. intros H1 H2. pose proof arrive_id. unfold m1, disjoint in *. apply rd_poke_out. lia. Qed.

Lemma arrive_front a c : p <= a -> a + Z.of_nat c <= p + used_off q -> rd m2 a c = rd m a c.
Proof.
  intros H1 H2. pose proof (ring_layout p q 0 ltac:(lia)) as (_ & _ & _ & _ & _ & _ & L' & L). transitivity (rd m1 a c); [|apply arrive_ring; lia].
  apply rd_ext. intros x Hx. apply mark_used_out; lia.
Qed.

Lemma arrive_buffers a c : b <= a -> a + Z.of_nat c <= b + 16384 -> peek m2 a c = peek m1 a c.
Proof.
  intros H1 H2. pose proof (ring_layout p q 0 ltac:(lia)) as (_ & _ & _ & _ & _ & _ & L' & L). unfold disjoint in *.
  apply peek_ext. intros x Hx. apply mark_used_out; lia.
Qed.

(** A frame that was pending before. *)
Lemma arrive_old j id g : pend !! j = Some (id, g) ->
  rd m2 (used_slot p q (last + Z.of_nat j)) 4 = id /\ rd m2 (used_slot p q (last + Z.of_nat j) + 4) 4 = 10 + Z.of_nat (length g) /\
  peek m2 (b + id * 2048 + 10) (length g) = g /\ Z.of_nat (length g) <= 2038.
Proof.
  intros Hj. destruct (rr_pend _ _ _ _ _ _ _ R j id g Hj) as (E1 & E2 & E3 & E4). pose proof (lookup_lt_Some _ _ _ Hj). pose proof arrive_count as Hk. pose proof arrive_id.
  assert (Hslot : (last + Z.of_nat j) mod q <> n mod q) by (unfold n; rewrite mod_ring by done; apply slots_differ; unfold k in *; lia).
  pose proof (ring_layout p q (last + Z.of_nat j) ltac:(lia)) as (_ & _ & _ & M & _ & U2 & U3 & U4).
  pose proof (mark_used_other p q n h (10 + Z.of_nat (length f)) m1 _ 0 ltac:(lia) Hslot ltac:(lia)) as Y1.
  pose proof (mark_used_other p q n h (10 + Z.of_nat (length f)) m1 _ 4 ltac:(lia) Hslot ltac:(lia)) as Y2.
  rewrite Z.add_0_r in Y1. fold m2 in Y1, Y2. rewrite Y1, Y2, !arrive_ring by lia. split_and!; [done..| |done].
  assert (Hin : id ∈ pend.*1) by (apply list_elem_of_fmap; exists (id, g); split; [done|by eapply list_elem_of_lookup_2]).
  assert (0 <= id < 8) by (eapply rr_id; [exact R|]; rewrite elem_of_app; by left).
  assert (id <> h).
  { intros ->. pose proof (NoDup_seqZ 0 8) as ND. rewrite <- (rr_ids _ _ _ _ _ _ _ R), NoDup_app in ND. destruct ND as (_ & ND & _). apply (ND h); [done|by left]. }
  rewrite arrive_buffers by lia. rewrite <- E3 at 2. unfold m1. apply peek_poke_out. lia.
Qed.

(** The one that arrived. *)
Lemma arrive_new :
  rd m2 (used_slot p q (last + k)) 4 = h /\ rd m2 (used_slot p q (last + k) + 4) 4 = 10 + Z.of_nat (length f) /\
  peek m2 (b + h * 2048 + 10) (length f) = f.
Proof.
  pose proof arrive_id. pose proof arrive_fits. destruct (mark_used_here p q n h (10 + Z.of_nat (length f)) m1) as (_ & X2 & X3); [lia|unfold U32; lia|unfold U32; lia|].
  assert (Us : used_slot p q (last + k) = used_slot p q n) by (unfold used_slot, n; by rewrite mod_ring). rewrite Us. split_and!; [done..|].
  rewrite arrive_buffers by lia. unfold m1. replace 10 with (Z.of_nat (length hdr)) by lia. apply peek_poke_mid.
Qed.

Lemma rx_ring_arrived : rx_ring m2 p q b last (pend ++ [(h, f)]) free.
Proof.
  pose proof R as [R1 R2 R3 R4 R5 R6 R7]. pose proof arrive_id. pose proof arrive_fits. pose proof (ring_layout p q 0 ltac:(lia)) as (_ & L2 & _ & _ & _ & _ & L7 & _). split.
  - done.
  - destruct (mark_used_here p q n h (10 + Z.of_nat (length f)) m1) as (X1 & _); [lia|unfold U32; lia|unfold U32; lia|]. fold m2 in X1.
    rewrite X1, length_app. cbn [length]. unfold n, k. rewrite Z.add_mod_idemp_l by done. f_equal. lia.
  - by rewrite arrive_front by lia.
  - intros j id g Hj. destruct (decide (j < length pend)%nat) as [Hlt|Hge]; [rewrite lookup_app_l in Hj by done; by apply arrive_old|].
    rewrite lookup_app_r in Hj by lia. destruct (j - length pend)%nat as [|j'] eqn:Ej; [|done]. injection Hj as <- <-.
    replace (Z.of_nat j) with k by (unfold k; lia). destruct arrive_new as (N1 & N2 & N3). by split_and!.
  - intros j id Hj. specialize (R5 (S j) id Hj). pose proof (ring_layout p q (last + k + Z.of_nat (S j)) ltac:(lia)) as (_ & _ & A & M & _).
    rewrite length_app. cbn [length]. fold k in R5 |- *. replace (last + Z.of_nat (length pend + 1) + Z.of_nat j) with (last + k + Z.of_nat (S j)) by (unfold k; lia).
    rewrite arrive_front by lia. exact R5.
  - rewrite fmap_app, <- app_assoc. exact R6.
  - intros id Hid. destruct (R7 id Hid) as (E1 & E2 & E3). unfold desc_addr, desc_len, desc_flags in *. rewrite !arrive_front by lia. done.
Qed.
End Arrive.

(** A descriptor written, and its index made available. *)
Definition put_desc (p i addr len flags next : Z) (m : gmap Z byte) : gmap Z byte :=
  wr (wr (wr (wr m (p + i * 16) 8 addr) (p + i * 16 + 8) 4 len) (p + i * 16 + 12) 2 flags) (p + i * 16 + 14) 2 next.
Definition offer (p q i idx : Z) (m : gmap Z byte) : gmap Z byte :=
  wr (wr m (avail_slot p q idx) 2 i) (avail_idx_at p q) 2 ((idx + 1) mod U16).

Lemma put_desc_out p i addr len flags next m x : x < p + i * 16 \/ p + i * 16 + 16 <= x -> put_desc p i addr len flags next m !! x = m !! x.
Proof. intros Hx. unfold put_desc, wr. rewrite !lookup_poke_out by (rewrite length_to_le; lia). done. Qed.

Lemma put_desc_here p i addr len flags next m : 0 <= addr < U64 -> 0 <= len < U32 -> 0 <= flags < U16 ->
  let m' := put_desc p i addr len flags next m in desc_addr m' p i = addr /\ desc_len m' p i = len /\ desc_flags m' p i = flags.
Proof.
  intros Ha Hl Hf. cbv zeta. unfold desc_addr, desc_len, desc_flags, put_desc. split_and!.
  - rewrite !rd_wr_out by lia. apply rd_wr_eq; [lia|done].
  - rewrite !rd_wr_out by lia. apply rd_wr_eq; [lia|done].
  - rewrite rd_wr_out by lia. apply rd_wr_eq; [lia|done].
Qed.

Lemma offer_out p q i idx m x : 0 < q -> x < p + 16 * q + 2 \/ p + used_off q <= x -> offer p q i idx m !! x = m !! x.
Proof.
  intros Hq Hx. pose proof (ring_layout p q idx Hq) as (_ & A1 & A2 & M & _ & _ & U3 & _). unfold offer, wr.
  rewrite !lookup_poke_out by (rewrite length_to_le; lia). done.
Qed.

Lemma offer_here p q i idx m : 0 < q -> 0 <= i < U16 ->
  rd (offer p q i idx m) (avail_idx_at p q) 2 = (idx + 1) mod U16 /\ rd (offer p q i idx m) (avail_slot p q idx) 2 = i.
Proof.
  intros Hq Hi. pose proof (ring_layout p q idx Hq) as (_ & A1 & A2 & M & _). unfold offer. split.
  - apply rd_wr_eq; [done|]. by apply Z.mod_pos_bound.
  - rewrite rd_wr_out by lia. by apply rd_wr_eq.
Qed.

Lemma offer_other p q i idx m j : 0 < q -> j mod q <> idx mod q -> rd (offer p q i idx m) (avail_slot p q j) 2 = rd m (avail_slot p q j) 2.
Proof.
  intros Hq Hj. pose proof (ring_layout p q idx Hq) as (_ & A1 & A2 & M & _). pose proof (ring_layout p q j Hq) as (_ & _ & A3 & M' & _).
  unfold offer. rewrite !rd_wr_out by lia. done.
Qed.

(** The first pending frame is taken and its buffer lent again. *)
Section Relend.
Context (m : gmap Z byte) (p q b last : Z) (id : Z) (f : list byte) (pend : list (Z * list byte)) (free : list Z).
Context (Hq8 : 8 <= q) (Hq : ring_size q) (Hdis : disjoint p (vq_end p q - p) b 16384) (Hb : 0 <= b /\ b + 16384 <= U64).
Context (R : rx_ring m p q b last ((id, f) :: pend) free).
Let m1 : gmap Z byte := put_desc p id (b + id * 2048) 2048 VIRTQ_DESC_F_WRITE 0 m.
Let m2 : gmap Z byte := offer p q id ((last + 8) mod U16) m1.

Lemma relend_id : 0 <= id < 8.
Proof. eapply rr_id; [exact R|]. rewrite elem_of_app. left. by left. Qed.

Lemma relend_back x : p + used_off q <= x \/ x < p -> m2 !! x = m !! x.
Proof.
  intros Hx. pose proof relend_id. pose proof (ring_layout p q 0 ltac:(lia)) as (_ & _ & _ & _ & _ & _ & U3 & _).
  unfold m2. rewrite offer_out by lia. unfold m1. apply put_desc_out. lia.
Qed.

Lemma relend_used a c : p + used_off q <= a -> rd m2 a c = rd m a c.
Proof. intros H1. apply rd_ext. intros x Hx. apply relend_back. lia. Qed.

Lemma relend_buffers a c : b <= a -> a + Z.of_nat c <= b + 16384 -> peek m2 a c = peek m a c.
Proof.
  intros H1 H2. pose proof (ring_layout p q 0 ltac:(lia)) as (_ & _ & _ & _ & _ & _ & U3 & U4). unfold disjoint in Hdis.
  apply peek_ext. intros x Hx. apply relend_back. lia.
Qed.

Lemma relend_desc i : 0 <= i < 8 -> desc_addr m2 p i = b + i * 2048 /\ desc_len m2 p i = 2048 /\ desc_flags m2 p i = VIRTQ_DESC_F_WRITE.
Proof.
  intros Hi. pose proof relend_id. pose proof (ring_layout p q 0 ltac:(lia)) as (_ & _ & _ & _ & _ & _ & U3 & _).
  assert (Hm1 : forall a c, p <= a -> a + Z.of_nat c <= p + 16 * q -> rd m2 a c = rd m1 a c) by (intros a c H1 H2; apply rd_ext; intros x Hx; apply offer_out; lia).
  unfold desc_addr, desc_len, desc_flags. rewrite !Hm1 by lia. destruct (decide (i = id)) as [->|Hne]; [apply put_desc_here; unfold U64, U32, U16, VIRTQ_DESC_F_WRITE in *; lia|].
  destruct (rr_desc _ _ _ _ _ _ _ R i Hi) as (E1 & E2 & E3). unfold desc_addr, desc_len, desc_flags in *.
  assert (Hm : forall a c, p + 16 * i <= a -> a + Z.of_nat c <= p + 16 * i + 16 -> rd m1 a c = rd m a c) by (intros a c H1 H2; apply rd_ext; intros x Hx; apply put_desc_out; lia).
  rewrite !Hm by lia. done.
Qed.

Lemma relend_slot j : (last + j) mod q <> (last + 8) mod q -> rd m2 (avail_slot p q (last + j)) 2 = rd m (avail_slot p q (last + j)) 2.
Proof.
  intros Hj. pose proof relend_id. pose proof (ring_layout p q (last + j) ltac:(lia)) as (_ & _ & A & M & _).
  unfold m2. rewrite offer_other by (try lia; by rewrite mod_ring). apply rd_ext. intros x Hx. apply put_desc_out. lia.
Qed.

Lemma rx_ring_relent : rx_ring m2 p q b ((last + 1) mod U16) pend (free ++ [id]).
Proof.
  pose proof R as [R1 R2 R3 R4 R5 R6 R7]. pose proof relend_id as Hid. pose proof (rr_count _ _ _ _ _ _ _ R) as Hcnt. cbn [length] in Hcnt.
  pose proof (ring_layout p q 0 ltac:(lia)) as (_ & L2 & _ & _ & L5 & _ & L7 & _).
  destruct (offer_here p q id ((last + 8) mod U16) m1) as [O1 O2]; [lia|unfold U16; lia|]. fold m2 in O1, O2. split.
  - by apply Z.mod_pos_bound.
  - rewrite relend_used by lia. rewrite R2. cbn [length]. rewrite Z.add_mod_idemp_l by done. f_equal. lia.
  - rewrite O1, !Z.add_mod_idemp_l by done. f_equal. lia.
  - intros j i g Hj. specialize (R4 (S j) i g Hj). unfold used_slot in *. rewrite slot_mod by done. replace (last + 1 + Z.of_nat j) with (last + Z.of_nat (S j)) by lia.
    pose proof (Z.mod_pos_bound (last + Z.of_nat (S j)) q ltac:(lia)). destruct R4 as (E1 & E2 & E3 & E4). rewrite !relend_used by lia. split_and!; [done..| |done].
    assert (0 <= i < 8) by (eapply rr_id; [exact R|]; rewrite elem_of_app; left; apply list_elem_of_fmap; exists (i, g); split; [done|]; by eapply (list_elem_of_lookup_2 _ (S j))).
    by rewrite relend_buffers by lia.
  - intros j i Hj. set (d := Z.of_nat (S (length pend)) + Z.of_nat j).
    assert (Hs : avail_slot p q ((last + 1) mod U16 + Z.of_nat (length pend) + Z.of_nat j) = avail_slot p q (last + d)).
    { unfold avail_slot. do 2 f_equal. rewrite <- Z.add_assoc, slot_mod by done. f_equal. unfold d. lia. }
    rewrite Hs. clear Hs. unfold d.
    destruct (decide (j < length free)%nat) as [Hlt|Hge].
    + rewrite lookup_app_l in Hj by done. rewrite relend_slot by (apply slots_differ; lia). rewrite Z.add_assoc. by apply R5.
    + rewrite lookup_app_r in Hj by lia. destruct (j - length free)%nat as [|j'] eqn:Ej; [|done]. injection Hj as <-.
      replace (Z.of_nat (S (length pend)) + Z.of_nat j) with 8 by lia. rewrite <- O2. f_equal. unfold avail_slot. by rewrite mod_ring.
  - rewrite <- R6, app_assoc. cbn. symmetry. apply Permutation_cons_append.
  - apply relend_desc.
Qed.
End Relend.

(** ** Sending *)

(** The send queue of a driver that saw [last] used chains: nothing is under way,
    a frame waits, or it was taken. *)
Inductive Tx : Type := Quiet | Waiting (f : list byte) | Taken (f : list byte).

Definition tx_used (last : Z) (t : Tx) : Z := match t with Quiet | Waiting _ => last | Taken _ => (last + 1) mod U16 end.
Definition tx_avail (last : Z) (t : Tx) : Z := match t with Quiet => last | Waiting _ | Taken _ => (last + 1) mod U16 end.
Definition tx_frames (t : Tx) : list (list byte) := match t with Taken f => [f] | _ => [] end.

Record tx_ring (m : gmap Z byte) (p q b last : Z) (t : Tx) : Prop := {
  tr_last : 0 <= last < U16;
  tr_used_idx : rd m (used_idx_at p q) 2 = tx_used last t;
  tr_avail_idx : rd m (avail_idx_at p q) 2 = tx_avail last t;
  tr_frame : forall f, t = Waiting f -> rd m (avail_slot p q last) 2 = 0 /\
    desc_addr m p 0 = b /\ desc_len m p 0 = 10 + Z.of_nat (length f) /\ desc_flags m p 0 = 0 /\ peek m (b + 10) (length f) = f /\ Z.of_nat (length f) <= 4086
}.

Lemma tx_ring_ext m m' p q b last t :
  0 < q -> tx_ring m p q b last t ->
  (forall x, p <= x < vq_end p q -> m' !! x = m !! x) -> (forall x, b <= x < b + 4096 -> m' !! x = m !! x) -> tx_ring m' p q b last t.
Proof.
  intros Hq [T1 T2 T3 T4] Hp Hb.
  assert (Hrd : forall a n, p <= a -> a + Z.of_nat n <= vq_end p q -> rd m' a n = rd m a n) by (intros a n H1 H2; apply rd_ext; intros x Hx; apply Hp; lia).
  pose proof (ring_layout p q last ltac:(lia)) as (_ & L2 & L3 & L4 & L5 & _ & L7 & L8).
  split; [done|rewrite Hrd by lia; done|rewrite Hrd by lia; done|]. intros f Hf. destruct (T4 f Hf) as (E1 & E2 & E3 & E4 & E5 & E6).
  unfold desc_addr, desc_len, desc_flags in *. rewrite !Hrd by lia. split_and!; try done. rewrite <- E5 at 2. apply peek_ext. intros x Hx. apply Hb. lia.
Qed.

(** The waiting frame is taken. *)
Lemma tx_ring_taken m p q b last f h len :
  0 < q -> tx_ring m p q b last (Waiting f) -> tx_ring (mark_used p q last h len m) p q b last (Taken f).
Proof.
  intros Hq [T1 T2 T3 T4]. pose proof (ring_layout p q last ltac:(lia)) as (_ & L2 & _ & _ & L5 & _ & L7 & L8). split; [done| | |done].
  - unfold mark_used. apply rd_wr_eq; [done|]. by apply Z.mod_pos_bound.
  - cbn [tx_avail] in *. rewrite <- T3. apply rd_ext. intros x Hx. apply mark_used_out; lia.
Qed.

(** ** The driver's memory *)

(** Where the queues and the buffers are. *)
Record Place : Type := mkPlace { pl_rx : Z; pl_rxq : Z; pl_rxbuf : Z; pl_tx : Z; pl_txq : Z; pl_txbuf : Z }.

Definition pl_areas (pl : Place) : list (Z * Z) :=
  [(pl_rx pl, vq_end (pl_rx pl) (pl_rxq pl) - pl_rx pl); (pl_rxbuf pl, 16384); (pl_tx pl, vq_end (pl_tx pl) (pl_txq pl) - pl_tx pl); (pl_txbuf pl, 4096)].

Record placed (pl : Place) : Prop := {
  pd_rxq : 8 <= pl_rxq pl /\ ring_size (pl_rxq pl);
  pd_txq : ring_size (pl_txq pl);
  pd_bufs : 0 <= pl_rxbuf pl /\ pl_rxbuf pl + 16384 <= U64 /\ 0 <= pl_txbuf pl /\ pl_txbuf pl + 4096 <= U64;
  pd_disjoint : forall i j a b, (i < j)%nat -> pl_areas pl !! i = Some a -> pl_areas pl !! j = Some b -> disjoint a.1 a.2 b.1 b.2
}.

(** The device and the memory, as the driver left them. *)
Record shared (pl : Place) (rlast tlast : Z) (taken done : list (list byte)) (pend : list (Z * list byte)) (free : list Z) (t : Tx)
    (c : Card) (m : gmap Z byte) : Prop := {
  sh_rx : rx_at c = pl_rx pl /\ rx_q c = pl_rxq pl /\ rx_n c = (rlast + Z.of_nat (length pend)) mod U16;
  sh_tx : tx_at c = pl_tx pl /\ tx_q c = pl_txq pl /\ tx_n c = tx_used tlast t;
  sh_rx_ring : rx_ring m (pl_rx pl) (pl_rxq pl) (pl_rxbuf pl) rlast pend free;
  sh_tx_ring : tx_ring m (pl_tx pl) (pl_txq pl) (pl_txbuf pl) tlast t;
  sh_arrived : arrived c = taken ++ pend.*2;
  sh_sent : sent c = done ++ tx_frames t
}.

(** What the device may do to a frame that is under way. *)
Definition tx_after (t t' : Tx) : Prop := t' = t \/ exists f, t = Waiting f /\ t' = Taken f.

(** The areas, by name. *)
Lemma placed_apart pl : placed pl ->
  let rx := pl_rx pl in let rxe := vq_end rx (pl_rxq pl) in let b := pl_rxbuf pl in
  let tx := pl_tx pl in let txe := vq_end tx (pl_txq pl) in let tb := pl_txbuf pl in
  (rxe <= b \/ b + 16384 <= rx) /\ (rxe <= tx \/ txe <= rx) /\ (rxe <= tb \/ tb + 4096 <= rx) /\
  (b + 16384 <= tx \/ txe <= b) /\ (b + 16384 <= tb \/ tb + 4096 <= b) /\ (txe <= tb \/ tb + 4096 <= tx) /\
  rx + 18 * pl_rxq pl + 6 <= rx + used_off (pl_rxq pl) /\ rx + used_off (pl_rxq pl) + 6 + 8 * pl_rxq pl = rxe /\
  tx + 18 * pl_txq pl + 6 <= tx + used_off (pl_txq pl) /\ tx + used_off (pl_txq pl) + 6 + 8 * pl_txq pl = txe /\ 8 <= pl_rxq pl /\ 0 < pl_txq pl.
Proof.
  intros [[Hq8 Hq] [Htq _] _ Hd]. cbv zeta. pose proof (Hd 0 1 _ _ ltac:(lia) eq_refl eq_refl)%nat as D01. pose proof (Hd 0 2 _ _ ltac:(lia) eq_refl eq_refl)%nat as D02.
  pose proof (Hd 0 3 _ _ ltac:(lia) eq_refl eq_refl)%nat as D03. pose proof (Hd 1 2 _ _ ltac:(lia) eq_refl eq_refl)%nat as D12.
  pose proof (Hd 1 3 _ _ ltac:(lia) eq_refl eq_refl)%nat as D13. pose proof (Hd 2 3 _ _ ltac:(lia) eq_refl eq_refl)%nat as D23. unfold disjoint in *. cbn [fst snd] in *.
  pose proof (ring_layout (pl_rx pl) (pl_rxq pl) 0 ltac:(lia)) as (_ & _ & _ & _ & _ & _ & X1 & X2).
  pose proof (ring_layout (pl_tx pl) (pl_txq pl) 0 ltac:(lia)) as (_ & _ & _ & _ & _ & _ & Y1 & Y2). lia.
Qed.

Lemma shared_rx pl rlast tlast taken done pend free t n tn ar se m h hdr f junk :
  placed pl -> shared pl rlast tlast taken done pend free t (mkCard (pl_rx pl) (pl_rxq pl) n (pl_tx pl) (pl_txq pl) tn ar se) m ->
  rd m (avail_idx_at (pl_rx pl) (pl_rxq pl)) 2 <> n -> h = rd m (avail_slot (pl_rx pl) (pl_rxq pl) n) 2 ->
  length hdr = 10%nat -> Z.of_nat (length (hdr ++ f ++ junk)) <= desc_len m (pl_rx pl) h ->
  exists free', shared pl rlast tlast taken done (pend ++ [(h, f)]) free' t
    (mkCard (pl_rx pl) (pl_rxq pl) ((n + 1) mod U16) (pl_tx pl) (pl_txq pl) tn (ar ++ [f]) se)
    (mark_used (pl_rx pl) (pl_rxq pl) n h (10 + Z.of_nat (length f)) (poke (desc_addr m (pl_rx pl) h) (hdr ++ f ++ junk) m)).
Proof.
  intros Hpl [S1 S2 S3 S4 S5 S6] A1 A2 A4 A5. pose proof (placed_apart pl Hpl) as G. cbv zeta in G. pose proof (pd_rxq _ Hpl) as [_ Hq].
  cbn [rx_at rx_q rx_n tx_at tx_q tx_n arrived sent] in *. destruct S1 as (_ & _ & ->).
  pose proof (rr_count _ _ _ _ _ _ _ S3) as Hcnt. destruct free as [|h0 free].
  { exfalso. apply A1. rewrite (rr_avail_idx _ _ _ _ _ _ _ S3). cbn in Hcnt. do 2 f_equal. lia. }
  assert (h0 = h) as ->.
  { rewrite A2. pose proof (rr_free _ _ _ _ _ _ _ S3 0%nat h0 eq_refl) as H5. rewrite Z.add_0_r in H5. rewrite <- H5. unfold avail_slot. by rewrite mod_ring. }
  assert (Hid : 0 <= h < 8) by (eapply rr_id; [exact S3|]; rewrite elem_of_app, elem_of_cons; auto).
  destruct (rr_desc _ _ _ _ _ _ _ S3 h Hid) as (E1 & E2 & _). rewrite E2 in A5. rewrite E1. exists free.
  set (m' := mark_used _ _ _ _ _ _).
  assert (Hout : forall x, x < pl_rx pl \/ vq_end (pl_rx pl) (pl_rxq pl) <= x -> x < pl_rxbuf pl \/ pl_rxbuf pl + 16384 <= x -> m' !! x = m !! x).
  { intros x H1 H2. unfold m'. rewrite mark_used_out by lia. apply lookup_poke_out. lia. }
  split; cbn [rx_at rx_q rx_n tx_at tx_q tx_n arrived sent].
  - split_and!; [done..|]. rewrite length_app. cbn [length]. rewrite Z.add_mod_idemp_l by done. f_equal. lia.
  - done.
  - apply rx_ring_arrived; try done; [lia|unfold disjoint; lia].
  - eapply tx_ring_ext; [lia|exact S4| |]; intros x Hx; apply Hout; lia.
  - rewrite S5, fmap_app, app_assoc. done.
  - done.
Qed.

Lemma shared_tx pl rlast tlast taken done pend free t n tn ar se m h len :
  placed pl -> shared pl rlast tlast taken done pend free t (mkCard (pl_rx pl) (pl_rxq pl) n (pl_tx pl) (pl_txq pl) tn ar se) m ->
  rd m (avail_idx_at (pl_tx pl) (pl_txq pl)) 2 <> tn -> h = rd m (avail_slot (pl_tx pl) (pl_txq pl) tn) 2 ->
  exists f, t = Waiting f /\ shared pl rlast tlast taken done pend free (Taken f)
    (mkCard (pl_rx pl) (pl_rxq pl) n (pl_tx pl) (pl_txq pl) ((tn + 1) mod U16) ar
       (se ++ [peek m (desc_addr m (pl_tx pl) h + 10) (Z.to_nat (desc_len m (pl_tx pl) h - 10))]))
    (mark_used (pl_tx pl) (pl_txq pl) tn h len m).
Proof.
  intros Hpl [S1 S2 S3 S4 S5 S6] A1 A2. pose proof (placed_apart pl Hpl) as G. cbv zeta in G.
  cbn [rx_at rx_q rx_n tx_at tx_q tx_n arrived sent] in *. destruct S2 as (_ & _ & ->).
  rewrite (tr_avail_idx _ _ _ _ _ _ S4) in A1. destruct t as [|f|f]; [done| |done]. exists f. split; [done|].
  destruct (tr_frame _ _ _ _ _ _ S4 f eq_refl) as (E1 & E2 & E3 & E4 & E5 & E6). cbn [tx_used] in *. rewrite E1 in A2. subst h.
  split; cbn [rx_at rx_q rx_n tx_at tx_q tx_n arrived sent]; try done.
  - eapply rx_ring_ext; [lia|exact S3| |]; intros x Hx; apply mark_used_out; lia.
  - apply tx_ring_taken; [lia|done].
  - rewrite S6, E2, E3. cbn [tx_frames]. rewrite app_nil_r. do 2 f_equal. replace (Z.to_nat _) with (length f) by lia. by rewrite E5.
Qed.

Lemma shared_moves pl rlast tlast taken done pend free t c m c' m' :
  placed pl -> shared pl rlast tlast taken done pend free t c m -> rtc moves (c, m) (c', m') ->
  exists more free' t', tx_after t t' /\ shared pl rlast tlast taken done (pend ++ more) free' t' c' m'.
Proof.
  intros Hpl S Hr. remember (c, m) as x eqn:Ex. remember (c', m') as y eqn:Ey. revert c m pend free t Ex S.
  induction Hr as [x|x [c1 m1] z Hm _ IH]; intros c m pend free t -> S.
  { injection Ey as -> ->. exists [], free, t. rewrite app_nil_r. split; [by left|done]. }
  pose proof (sh_rx _ _ _ _ _ _ _ _ _ _ S) as (Ra & Rq & _). pose proof (sh_tx _ _ _ _ _ _ _ _ _ _ S) as (Ta & Tq & _).
  inversion Hm as [p q n tp tq tn ar se m0 h hdr f junk A1 A2 A3 A4 A5|p q n tp tq tn ar se m0 h len A1 A2 A3 A4]; subst;
    cbn [rx_at rx_q tx_at tx_q] in *; subst.
  - destruct (shared_rx _ _ _ _ _ _ _ _ _ _ _ _ _ _ hdr f junk Hpl S A1 eq_refl A4 A5) as [free' S'].
    destruct (IH eq_refl _ _ _ _ _ eq_refl S') as (more & free'' & t' & Ht & S''). rewrite <- app_assoc in S''. by eexists _, free'', t'.
  - destruct (shared_tx _ _ _ _ _ _ _ _ _ _ _ _ _ _ len Hpl S A1 eq_refl) as (f & -> & S').
    destruct (IH eq_refl _ _ _ _ _ eq_refl S') as (more & free' & t' & Ht & S''). exists more, free', t'. split; [|done].
    destruct Ht as [->|(g & Hg & _)]; [right; by exists f|done].
Qed.
