(* ===== verification/VirtioNetOps.v ===== *)
(** * The network card: operations

    [send] and [recv] of a driver that is up, against the device's log of frames
    that arrived and frames that were sent. *)

From stdpp Require Import base numbers list gmap.
From Stdlib Require Import ZArith Lia.
From S2P Require Import Prelude Uaccess Mem Frame Pci VirtioBlk VirtioNet VirtioNetTheorems.
#[local] Open Scope Z_scope.

Section Ops.
Context {V : Type} {P : PortIO V} {DM : DmaDevice V} {NC : NetCard V} {NL : NetCardLaws V} (phys_offset : Z).
Implicit Types w : NetWorld V.
#[local] Abbreviation never := (fun _ _ => False).
#[local] Abbreviation nread := (nread phys_offset).
#[local] Abbreviation nwrite := (nwrite phys_offset).

(** The driver's record of its device. *)
Record wired (pl : Place) (rlast tlast : Z) (net : VirtioNet) : Prop := {
  wi_rx : n_rx net = mkVirtq (phys_offset + pl_rx pl) (avail_off (pl_rxq pl)) (used_off (pl_rxq pl)) (pl_rxq pl) rlast;
  wi_tx : n_tx net = mkVirtq (phys_offset + pl_tx pl) (avail_off (pl_txq pl)) (used_off (pl_txq pl)) (pl_txq pl) tlast;
  wi_bufs : rx_buf_virt net = phys_offset + pl_rxbuf pl /\ rx_buf_phys net = pl_rxbuf pl /\ tx_buf_virt net = phys_offset + pl_txbuf pl /\ tx_buf_phys net = pl_txbuf pl
}.

Record nic_at (pl : Place) (net : VirtioNet) (rlast tlast : Z) (taken done : list (list byte)) (pend : list (Z * list byte)) (free : list Z) (t : Tx) (c : Card) w : Prop := {
  na_nic : NIC w = Some net;
  na_wired : wired pl rlast tlast net;
  na_placed : placed pl;
  na_card : card_at (ndev w) (n_io net) c;
  na_shared : shared pl rlast tlast taken done pend free t c (ndma w)
}.

(** A driver that is up, nothing under way: [taken] frames were received and handed
    out, [pending] ones are in buffers, [done] ones were sent. *)
Definition nic_ready (pl : Place) w (taken pending done : list (list byte)) : Prop :=
  exists net rlast tlast pend free c, nic_at pl net rlast tlast taken done pend free Quiet c w /\ pend.*2 = pending.

Lemma wp_nread {E} n virt a w (Q : Z -> NetWorld V -> Prop) (X : E -> NetWorld V -> Prop) :
  virt - phys_offset = a -> Q (rd (ndma w) a n) w -> wp (nread n virt) Q X w.
Proof. intros <- HQ. by apply wp_bind, wp_get, wp_ret. Qed.

Lemma wp_nwrite {E} n virt x a w (Q : unit -> NetWorld V -> Prop) (X : E -> NetWorld V -> Prop) :
  virt - phys_offset = a -> Q tt (nset_dma (wr (ndma w) a n x) w) -> wp (nwrite n virt x) Q X w.
Proof. intros <- HQ. by apply wp_modify. Qed.

Lemma wp_write_desc {E} q p i addr len flags next w (Q : unit -> NetWorld V -> Prop) (X : E -> NetWorld V -> Prop) :
  q_virt q = phys_offset + p -> Q tt (nset_dma (put_desc p i addr len flags next (ndma w)) w) ->
  wp (q_write_desc phys_offset q i addr len flags next) Q X w.
Proof.
  intros Hq HQ. unfold q_write_desc. cbv zeta. rewrite Hq. apply wp_bind, (wp_nwrite _ _ _ (p + i * 16)); [lia|]. apply wp_bind, (wp_nwrite _ _ _ (p + i * 16 + 8)); [lia|].
  apply wp_bind, (wp_nwrite _ _ _ (p + i * 16 + 12)); [lia|]. apply (wp_nwrite _ _ _ (p + i * 16 + 14)); [lia|]. exact HQ.
Qed.

Lemma wp_push_avail {E} p n last i w (Q : Z -> NetWorld V -> Prop) (X : E -> NetWorld V -> Prop) :
  0 < n -> Q ((rd (ndma w) (avail_idx_at p n) 2 + 1) mod U16) (nset_dma (offer p n i (rd (ndma w) (avail_idx_at p n) 2) (ndma w)) w) ->
  wp (push_avail phys_offset (mkVirtq (phys_offset + p) (avail_off n) (used_off n) n last) i) Q X w.
Proof.
  intros Hn HQ. unfold push_avail. cbn [q_virt q_avail q_size]. apply wp_bind, (wp_nread _ _ (avail_idx_at p n)); [unfold avail_idx_at; lia|].
  apply wp_bind, wp_assert; [by destruct (n =? 0) eqn:E0; zbool; [lia|]|].
  apply wp_bind, (wp_nwrite _ _ _ (avail_slot p n (rd (ndma w) (avail_idx_at p n) 2))); [unfold avail_slot; lia|].
  apply wp_bind, (wp_nwrite _ _ _ (avail_idx_at p n)); [unfold avail_idx_at; lia|]. by apply wp_ret.
Qed.

(** The device acts: frames may arrive, and one that waits to be sent is taken or is
    nearer to be. *)
Lemma wp_nic_runs {E} pl net rlast tlast taken done pend free t c w (Q : unit -> NetWorld V -> Prop) (X : E -> NetWorld V -> Prop) :
  nic_at pl net rlast tlast taken done pend free t c w ->
  (forall more free' t' c' w', tx_after t t' -> nic_at pl net rlast tlast taken done (pend ++ more) free' t' c' w' ->
     (forall f, t' = Waiting f -> (dv_left (ndev w') < dv_left (ndev w))%nat) -> Q tt w') ->
  wp nic_runs Q X w.
Proof.
  intros [N1 N2 N3 N4 N5] HQ. apply wp_modify. destruct (dv_step (ndev w) (ndma w)) as [v' m'] eqn:Ed.
  destruct (card_steps _ _ _ _ _ _ N4 Ed) as (c' & C1 & C2 & C3). destruct (shared_moves _ _ _ _ _ _ _ _ _ _ _ _ N3 N5 C2) as (more & free' & t' & Ht & S').
  apply (HQ more free' t' c'); [done|by split|]. intros f ->. assert (t = Waiting f) as ->.
  { destruct Ht as [Ht|(g & _ & Hg)]; [done|done]. }
  destruct N5 as [_ (Ta & Tq & Tn) _ T _ _]. destruct S' as [_ (Ta' & Tq' & Tn') _ T' _ _]. destruct (tr_frame _ _ _ _ _ _ T f eq_refl) as (F1 & F2 & F3 & F4 & _). unfold can_send in C3.
  rewrite Ta, Tq, Tn, Tn', (tr_avail_idx _ _ _ _ _ _ T), (tr_avail_idx _ _ _ _ _ _ T') in C3. cbn [tx_avail tx_used] in C3. rewrite F1, F3, F4 in C3. destruct C3 as [C3|]; [split_and!; [done|done|lia]| |done]. by destruct (succ_mod_ne tlast).
Qed.

Lemma wp_notify {E} net c x w (Q : unit -> NetWorld V -> Prop) (X : E -> NetWorld V -> Prop) :
  card_at (ndev w) (n_io net) c ->
  (forall v, card_at v (n_io net) c -> Q tt (nset_dev v w)) -> wp (nout 2 (n_io net) REG_QUEUE_NOTIFY x) Q X w.
Proof.
  intros Hc HQ. destruct (card_io _ _ _ Hc) as [H0 H1]. unfold nout, nreg. apply wp_bind.
  eapply wp_unwrap; [apply checked_spec; unfold in_width, REG_QUEUE_NOTIFY, U16 in *; lia|]. apply wp_zoom, wp_modify, HQ. by apply card_notify.
Qed.

(** What a look at the receive queue finds. *)
Lemma wp_take_rx {E} pl net rlast tlast taken done pend free c w (Q : option (Z * Z) * Virtq -> NetWorld V -> Prop) (X : E -> NetWorld V -> Prop) :
  nic_at pl net rlast tlast taken done pend free Quiet c w ->
  (pend = [] -> forall free' c' w', nic_at pl net rlast tlast taken done [] free' Quiet c' w' -> Q (None, n_rx net) w') ->
  (forall id f pend' free' c' w', pend.*2 `prefix_of` f :: pend'.*2 -> nic_at pl net rlast tlast taken done ((id, f) :: pend') free' Quiet c' w' ->
     Q (Some (id, 10 + Z.of_nat (length f)), q_advance (n_rx net)) w') ->
  wp (take_used phys_offset (n_rx net)) Q X w.
Proof.
  intros N HN HS. pose proof (wi_rx _ _ _ _ (na_wired _ _ _ _ _ _ _ _ _ _ _ N)) as Hrx. rewrite Hrx in HN, HS |- *.
  unfold take_used. apply wp_bind. eapply wp_nic_runs; [exact N|]. intros more free' t' c' w' Ht N' _.
  assert (t' = Quiet) as -> by (destruct Ht as [->|(f & [=] & _)]; done). pose proof N' as [N1 N2 N3 N4 N5].
  destruct N5 as [_ _ R _ _ _]. pose proof (pd_rxq _ N3) as [Hq8 Hq]. cbn [q_virt q_used q_last q_size]. cbv zeta.
  apply wp_bind, (wp_nread _ _ (used_idx_at (pl_rx pl) (pl_rxq pl))); [unfold used_idx_at; lia|]. rewrite (rr_used_idx _ _ _ _ _ _ _ R).
  pose proof (rr_count _ _ _ _ _ _ _ R) as Hcnt. pose proof (rr_last _ _ _ _ _ _ _ R) as Hl.
  destruct (pend ++ more) as [|[id f] pend'] eqn:Ep.
  - cbn [length Z.of_nat]. rewrite Z.add_0_r, Z.mod_small, Z.eqb_refl by done. apply app_eq_nil in Ep as [-> ->]. apply wp_ret. by eapply HN.
  - assert (Hne : (rlast + Z.of_nat (length ((id, f) :: pend'))) mod U16 <> rlast).
    { set (k := Z.of_nat _). assert (0 < k < 9) by (unfold k; cbn [length] in *; lia). unfold U16 in *. destruct (decide (rlast + k < 65536)).
      - rewrite Z.mod_small by lia. lia.
      - replace (rlast + k) with (rlast + k - 65536 + 1 * 65536) by lia. rewrite Z.mod_add, Z.mod_small by lia. lia. }
    rewrite (proj2 (Z.eqb_neq _ _) Hne). apply wp_bind, wp_assert; [destruct (pl_rxq pl =? 0) eqn:E0; zbool; [lia|done]|].
    destruct (rr_pend _ _ _ _ _ _ _ R 0%nat id f eq_refl) as (E1 & E2 & _). cbn [Z.of_nat] in E1, E2. rewrite Z.add_0_r in E1, E2.
    apply wp_bind, (wp_nread _ _ (used_slot (pl_rx pl) (pl_rxq pl) rlast)); [unfold used_slot; lia|].
    apply wp_bind, (wp_nread _ _ (used_slot (pl_rx pl) (pl_rxq pl) rlast + 4)); [unfold used_slot; lia|]. rewrite E1, E2. apply wp_ret. eapply HS; [|exact N'].
    change (f :: pend'.*2) with (((id, f) :: pend').*2). rewrite <- Ep, fmap_app. by apply prefix_app_r.
Qed.

Lemma wp_lend {E} pl net rlast tlast id w (Q : unit -> NetWorld V -> Prop) (X : E -> NetWorld V -> Prop) :
  wired pl rlast tlast net -> 0 < pl_rxq pl ->
  (let m1 := put_desc (pl_rx pl) id (pl_rxbuf pl + id * 2048) 2048 VIRTQ_DESC_F_WRITE 0 (ndma w) in
   Q tt (nset_dma (offer (pl_rx pl) (pl_rxq pl) id (rd m1 (avail_idx_at (pl_rx pl) (pl_rxq pl)) 2) m1) w)) ->
  wp (lend phys_offset net id) Q X w.
Proof.
  intros [W1 _ (_ & W4 & _)] Hq HQ. unfold lend. rewrite W1, W4. apply wp_bind, (wp_write_desc _ (pl_rx pl)); [done|].
  apply wp_bind, wp_push_avail; [done|]. apply wp_ret. exact HQ.
Qed.

Lemma put_desc_avail_idx pl id addr len flags next m : placed pl -> 0 <= id < 8 ->
  rd (put_desc (pl_rx pl) id addr len flags next m) (avail_idx_at (pl_rx pl) (pl_rxq pl)) 2 = rd m (avail_idx_at (pl_rx pl) (pl_rxq pl)) 2.
Proof.
  intros Hpl Hid. pose proof (pd_rxq _ Hpl) as [Hq8 _]. pose proof (ring_layout (pl_rx pl) (pl_rxq pl) 0 ltac:(lia)) as (_ & A & _).
  apply rd_ext. intros x Hx. apply put_desc_out. lia.
Qed.

(** The buffer of the first pending frame goes back to the device. *)
Lemma nic_at_relent pl net rlast tlast taken done id f pend free c w v :
  nic_at pl net rlast tlast taken done ((id, f) :: pend) free Quiet c w -> card_at v (n_io net) c ->
  let m1 := put_desc (pl_rx pl) id (pl_rxbuf pl + id * 2048) 2048 VIRTQ_DESC_F_WRITE 0 (ndma w) in
  let net' := set_rx (q_advance (n_rx net)) net in
  nic_at pl net' ((rlast + 1) mod U16) tlast (taken ++ [f]) done pend (free ++ [id]) Quiet c
    (mkNetWorld (offer (pl_rx pl) (pl_rxq pl) id ((rlast + 8) mod U16) m1) (Some net') v (nalloc w)).
Proof.
  intros [N1 [W1 W2 W3] N3 N4 N5] Hv. cbv zeta. pose proof (pd_rxq _ N3) as [Hq8 Hq]. pose proof (pd_bufs _ N3) as (B1 & B2 & _).
  pose proof (placed_apart pl N3) as G. cbv zeta in G. destruct N5 as [S1 S2 S3 S4 S5 S6].
  assert (Hid : 0 <= id < 8) by (eapply rr_id; [exact S3|]; rewrite elem_of_app; left; by left).
  split; cbn [NIC ndev ndma]; [done| |done|done|].
  - split; cbn [n_rx n_tx set_rx rx_buf_virt rx_buf_phys tx_buf_virt tx_buf_phys]; [|done|done]. rewrite W1. done.
  - split; cbn [rx_at]; [|done| | |by rewrite S5, <- app_assoc|done].
    + destruct S1 as (-> & -> & ->). split_and!; [done..|]. cbn [length]. rewrite Z.add_mod_idemp_l by done. f_equal. lia.
    + eapply rx_ring_relent; [lia|done|unfold disjoint; lia|lia|exact S3].
    + eapply tx_ring_ext; [lia|exact S4| |]; intros x Hx; rewrite offer_out by lia; apply put_desc_out; lia.
Qed.

(** ** The operations *)

Lemma wp_recv {E} pl out w taken pending done (X : E -> NetWorld V -> Prop) :
  nic_ready pl w taken pending done ->
  wp (recv phys_offset out)
    (fun r w' => match r with
                 | None => pending = [] /\ nic_ready pl w' taken [] done
                 | Some d => exists f rest, pending `prefix_of` f :: rest /\ d = take out f /\ nic_ready pl w' (taken ++ [f]) rest done
                 end) X w.
Proof.
  intros (net & rlast & tlast & pend & free & c & N & <-). unfold recv. apply wp_bind, wp_get. rewrite (na_nic _ _ _ _ _ _ _ _ _ _ _ N).
  apply wp_bind. eapply wp_take_rx; [exact N| |].
  - intros -> free' c' w' N'. apply wp_bind, wp_modify, wp_ret. split; [done|]. exists net, rlast, tlast, [], free', c'. split; [|done].
    destruct N' as [N1 N2 N3 N4 N5]. split; [|done..]. cbn. f_equal. by destruct net.
  - intros id f pend' free' c' w' Hpre N'. pose proof N' as [N1 N2 N3 N4 N5]. apply wp_bind, wp_modify.
    pose proof (sh_rx_ring _ _ _ _ _ _ _ _ _ _ N5) as R. pose proof (rr_pend _ _ _ _ _ _ _ R 0%nat id f eq_refl) as (_ & _ & E3 & E4).
    assert (Hid : 0 <= id < 8) by (eapply rr_id; [exact R|]; rewrite elem_of_app; left; by left).
    rewrite (proj2 (Z.leb_gt _ _)) by (unfold RX_BUF_COUNT; lia). apply wp_bind, wp_get. cbn [n_rx n_io rx_buf_virt set_rx].
    destruct (wi_bufs _ _ _ _ N2) as (Bv & Bp & _). set (net' := set_rx _ net).
    assert (W' : wired pl ((rlast + 1) mod U16) tlast net').
    { destruct N2 as [W1 W2 W3]. split; cbn; [by rewrite W1|done|done]. }
    apply wp_bind. eapply wp_lend; [exact W'|pose proof (pd_rxq _ N3); lia|]. cbv zeta.
    rewrite put_desc_avail_idx by done. cbn [ndma nset_nic]. rewrite (rr_avail_idx _ _ _ _ _ _ _ R). apply wp_bind. eapply (wp_notify net'); [exact N4|]. intros v Hv.
    apply wp_ret. exists f, (pend'.*2). split_and!; [done| |].
    + rewrite Bv. unfold RX_BUF_STRIDE, NET_HDR_LEN. replace (phys_offset + pl_rxbuf pl + (id * 2048 + 10) - phys_offset) with (pl_rxbuf pl + id * 2048 + 10) by lia.
      replace (Z.to_nat _) with (length f `min` out)%nat by lia. rewrite <- E3 at 2. clear. unfold peek. rewrite <- fmap_take. f_equal.
      rewrite take_seq. f_equal. lia.
    + exists net', ((rlast + 1) mod U16), tlast, pend', (free' ++ [id]), c'. split; [|done].
      pose proof (nic_at_relent _ _ _ _ _ _ _ _ _ _ _ _ v N' Hv) as N''. cbv zeta in N''. exact N''.
Qed.

(** What a look at the send queue finds while a frame is under way. *)
Lemma wp_take_tx {E} pl net rlast tlast taken done pend free f c w (Q : option (Z * Z) * Virtq -> NetWorld V -> Prop) (X : E -> NetWorld V -> Prop) :
  nic_at pl net rlast tlast taken done pend free (Waiting f) c w ->
  (forall more free' c' w', nic_at pl net rlast tlast taken done (pend ++ more) free' (Waiting f) c' w' ->
     (dv_left (ndev w') < dv_left (ndev w))%nat -> Q (None, n_tx net) w') ->
  (forall more free' c' w' got, nic_at pl net rlast tlast taken done (pend ++ more) free' (Taken f) c' w' -> Q (Some got, q_advance (n_tx net)) w') ->
  wp (take_used phys_offset (n_tx net)) Q X w.
Proof.
  intros N HN HS. pose proof (wi_tx _ _ _ _ (na_wired _ _ _ _ _ _ _ _ _ _ _ N)) as Htx. rewrite Htx in HN, HS |- *.
  unfold take_used. apply wp_bind. eapply wp_nic_runs; [exact N|]. intros more free' t' c' w' Ht N' Hleft.
  pose proof (sh_tx_ring _ _ _ _ _ _ _ _ _ _ (na_shared _ _ _ _ _ _ _ _ _ _ _ N')) as T. cbn [q_virt q_used q_last q_size]. cbv zeta.
  pose proof (pd_txq _ (na_placed _ _ _ _ _ _ _ _ _ _ _ N')) as [Hq _].
  apply wp_bind, (wp_nread _ _ (used_idx_at (pl_tx pl) (pl_txq pl))); [unfold used_idx_at; lia|]. rewrite (tr_used_idx _ _ _ _ _ _ T).
  pose proof (succ_mod_ne tlast) as Hne.
  destruct Ht as [->|(g & [= <-] & ->)]; cbn [tx_used].
  - rewrite Z.eqb_refl. apply wp_ret. eapply HN; [exact N'|]. by eapply Hleft.
  - rewrite (proj2 (Z.eqb_neq _ _) Hne). apply wp_bind, wp_assert; [destruct (pl_txq pl =? 0) eqn:E0; zbool; [lia|done]|].
    apply wp_bind. eapply wp_nread; [done|]. apply wp_bind. eapply wp_nread; [done|]. apply wp_ret. by eapply HS.
Qed.

(** A frame that was taken leaves the driver as it was before. *)
Lemma nic_at_done pl net rlast tlast taken done pend free f c w :
  nic_at pl net rlast tlast taken done pend free (Taken f) c w ->
  let net' := set_tx (q_advance (n_tx net)) net in
  nic_at pl net' rlast ((tlast + 1) mod U16) taken (done ++ [f]) pend free Quiet c (nset_nic (Some net') w).
Proof.
  intros [N1 [W1 W2 W3] N3 N4 [S1 S2 S3 S4 S5 S6]]. cbv zeta. split; [done| |done|done|].
  - split; cbn; [done|by rewrite W2|done].
  - split; cbn [ndma nset_nic]; [done| |done| |done|by rewrite S6, app_nil_r].
    + destruct S2 as (T1 & T2 & T3). by split_and!.
    + destruct S4 as [T1 T2 T3 _]. cbn [tx_used tx_avail] in *. split; cbn [tx_used tx_avail]; [by apply Z.mod_pos_bound|done|done|done].
Qed.

Lemma wp_send_wait {E} pl net rlast tlast taken done pend free f c w (X : E -> NetWorld V -> Prop) :
  nic_at pl net rlast tlast taken done pend free (Waiting f) c w -> Z.of_nat (dv_left (ndev w)) < TX_SPINS ->
  wp (forever (send_turn phys_offset ((tlast + 1) mod U16)) (net, 0))
    (fun r w' => r = true /\ exists rest, pend.*2 `prefix_of` rest /\ nic_ready pl w' taken rest (done ++ [f])) X w.
Proof.
  intros N0 Hs0. set (tgt := (tlast + 1) mod U16). assert (Hne : tlast <> tgt) by (intros E0; by destruct (succ_mod_ne tlast)).
  set (waits x w' := exists more free' c', x.1 = net /\ nic_at pl net rlast tlast taken done (pend ++ more) free' (Waiting f) c' w' /\ 0 <= x.2 /\ x.2 + Z.of_nat (dv_left (ndev w')) < TX_SPINS).
  set (sent (x : VirtioNet * Z) w' := q_last (n_tx x.1) = tgt /\ exists rest, pend.*2 `prefix_of` rest /\ nic_ready pl w' taken rest (done ++ [f])).
  pose proof (wi_tx _ _ _ _ (na_wired _ _ _ _ _ _ _ _ _ _ _ N0)) as Htx. assert (Hlast : q_last (n_tx net) = tlast) by (by rewrite Htx).
  apply (wp_forever _ (fun x w' => waits x w' \/ sent x w') (fun x w' => if q_last (n_tx (x.1 : VirtioNet)) =? tgt then 0 else 1 + Z.of_nat (dv_left (ndev w')))).
  - intros [net' spins] w1 H. cbn [fst snd] in *. unfold send_turn. destruct H as [(more & free1 & c1 & Hn & N & Hs & Hl)|[Hq H]]; cbn [fst snd] in *.
    2:{ rewrite Hq, Z.eqb_refl. apply wp_ret. by split. }
    subst net'. rewrite Hlast, (proj2 (Z.eqb_neq _ _) Hne). apply wp_bind. eapply wp_take_tx; [exact N| |].
    + intros more' free' c' w' N' Hleft. apply wp_bind, wp_modify. rewrite (proj2 (Z.ltb_ge _ _)) by lia. apply wp_ret. cbn [fst snd].
      assert (Hsame : set_tx (n_tx net) net = net) by (by destruct net). rewrite Hsame, Hlast, (proj2 (Z.eqb_neq _ _) Hne).
      assert (Hw : nset_nic (Some net) w' = w') by (rewrite <- (na_nic _ _ _ _ _ _ _ _ _ _ _ N'); by destruct w'). rewrite Hw.
      split; [|lia]. left. exists (more ++ more'), free', c'. rewrite app_assoc. split_and!; [done|done|cbn; lia|cbn; lia].
    + intros more' free' c' w' got N'. apply wp_bind, wp_modify, wp_ret. cbn [fst snd].
      assert (Hq : q_last (n_tx (set_tx (q_advance (n_tx net)) net)) = tgt) by (cbn; by rewrite Htx). rewrite Hq, Z.eqb_refl. split; [|lia]. right. split; [done|].
      exists (((pend ++ more) ++ more').*2). split; [rewrite !fmap_app, <- app_assoc; by apply prefix_app_r|]. eexists _, rlast, _, ((pend ++ more) ++ more'), free', c'. split; [|done]. exact (nic_at_done _ _ _ _ _ _ _ _ _ _ _ N').
  - intros x w1 _. case_match; lia.
  - left. exists [], free, c. rewrite app_nil_r. by split_and!.
  - unfold TX_SPINS in *. cbn [fst]. case_match; lia.
Qed.

(** A frame put in the send buffer and offered. *)
Definition loaded (pl : Place) (tlast : Z) (f : list byte) (m : gmap Z byte) : gmap Z byte :=
  offer (pl_tx pl) (pl_txq pl) 0 tlast
    (put_desc (pl_tx pl) 0 (pl_txbuf pl) (10 + Z.of_nat (length f)) 0 0 (poke (pl_txbuf pl + 10) f (poke (pl_txbuf pl) (zeros 10) m))).

Lemma shared_loaded pl rlast tlast taken done pend free c m f :
  placed pl -> shared pl rlast tlast taken done pend free Quiet c m -> Z.of_nat (length f) <= 4086 ->
  shared pl rlast tlast taken done pend free (Waiting f) c (loaded pl tlast f m).
Proof.
  intros Hpl [S1 S2 S3 S4 S5 S6] Hf. pose proof (placed_apart pl Hpl) as G. cbv zeta in G. pose proof (pd_bufs _ Hpl) as (_ & _ & B1 & B2). pose proof (pd_txq _ Hpl) as Hq.
  pose proof (ring_layout (pl_tx pl) (pl_txq pl) tlast (proj1 Hq)) as (_ & L2 & L3 & L4 & L5 & _ & L7 & L8).
  assert (Hbuf : forall x, x < pl_txbuf pl \/ pl_txbuf pl + 4096 <= x -> poke (pl_txbuf pl + 10) f (poke (pl_txbuf pl) (zeros 10) m) !! x = m !! x).
  { intros x Hx. rewrite !lookup_poke_out by (try unfold zeros; rewrite ?length_replicate; lia). done. }
  assert (Hout : forall x, x < pl_tx pl \/ vq_end (pl_tx pl) (pl_txq pl) <= x -> x < pl_txbuf pl \/ pl_txbuf pl + 4096 <= x -> loaded pl tlast f m !! x = m !! x).
  { intros x H1 H2. unfold loaded. rewrite offer_out by lia. rewrite put_desc_out by lia. by apply Hbuf. }
  split; [done|done| | |done|done].
  - eapply rx_ring_ext; [lia|exact S3| |]; intros x Hx; apply Hout; lia.
  - set (m1 := poke _ f _) in *. destruct S4 as [T1 T2 T3 _]. cbn [tx_used tx_avail] in *. split; cbn [tx_used tx_avail].
    + done.
    + rewrite <- T2. apply rd_ext. intros x Hx. unfold loaded. rewrite offer_out by lia. rewrite put_desc_out by lia. apply Hbuf. lia.
    + by apply (offer_here _ _ 0); [lia|].
    + intros g [= <-]. split; [by apply (offer_here _ _ 0); [lia|]|].
      assert (Hd : forall a n, pl_tx pl <= a -> a + Z.of_nat n <= pl_tx pl + 16 -> rd (loaded pl tlast f m) a n = rd (put_desc (pl_tx pl) 0 (pl_txbuf pl) (10 + Z.of_nat (length f)) 0 0 m1) a n).
      { intros a n H1 H2. apply rd_ext. intros x Hx. apply offer_out; lia. }
      unfold desc_addr, desc_len, desc_flags. rewrite !Hd by lia.
      destruct (put_desc_here (pl_tx pl) 0 (pl_txbuf pl) (10 + Z.of_nat (length f)) 0 0 m1) as (P1 & P2 & P3); [lia|unfold U32; lia|done|].
      split_and!; [exact P1|exact P2|exact P3| |done]. transitivity (peek m1 (pl_txbuf pl + 10) (length f)); [|apply peek_poke_same].
      apply peek_ext. intros x Hx. unfold loaded. rewrite offer_out by lia. apply put_desc_out. lia.
Qed.

Lemma wp_send {E} pl f w taken pending done (X : E -> NetWorld V -> Prop) :
  nic_ready pl w taken pending done ->
  wp (send phys_offset f)
    (fun r w' => r = (Z.of_nat (length f) <=? 4086) /\ exists rest, pending `prefix_of` rest /\ nic_ready pl w' taken rest (done ++ if r then [f] else [])) X w.
Proof.
  intros R. unfold send. change (TX_BUF_SIZE - NET_HDR_LEN) with 4086. destruct (4086 <? Z.of_nat (length f)) eqn:Ef; zbool.
  { apply wp_ret. split; [by rewrite (proj2 (Z.leb_gt _ _))|]. exists pending. rewrite app_nil_r. by split. }
  destruct R as (net & rlast & tlast & pend & free & c & N & <-). rewrite (proj2 (Z.leb_le _ _)) by done. pose proof N as [N1 N2 N3 N4 N5].
  pose proof N2 as [W1 W2 (W3 & W4 & W5 & W6)]. apply wp_bind, wp_get. rewrite N1. apply wp_bind, wp_modify. apply wp_bind, wp_modify. rewrite W2, W5, W6.
  apply wp_bind, (wp_write_desc _ (pl_tx pl)); [done|]. apply wp_bind, wp_push_avail; [apply (pd_txq _ N3)|].
  pose proof (placed_apart pl N3) as G. cbv zeta in G. unfold NET_HDR_LEN in *. cbn [ndma nset_dma].
  replace (phys_offset + pl_txbuf pl - phys_offset) with (pl_txbuf pl) by lia. replace (phys_offset + pl_txbuf pl + 10 - phys_offset) with (pl_txbuf pl + 10) by lia.
  change (Z.to_nat 10) with 10%nat. set (m1 := put_desc _ _ _ _ _ _ _).
  assert (Hidx : rd m1 (avail_idx_at (pl_tx pl) (pl_txq pl)) 2 = tlast).
  { pose proof (tr_avail_idx _ _ _ _ _ _ (sh_tx_ring _ _ _ _ _ _ _ _ _ _ N5)) as Ha. cbn [tx_avail] in Ha. transitivity (rd (ndma w) (avail_idx_at (pl_tx pl) (pl_txq pl)) 2); [|done].
    pose proof (ring_layout (pl_tx pl) (pl_txq pl) 0 ltac:(lia)) as (_ & L2 & _). apply rd_ext. intros x Hx. unfold m1. rewrite put_desc_out by lia.
    rewrite !lookup_poke_out by (try unfold zeros; rewrite ?length_replicate; lia). done. }
  rewrite Hidx. apply wp_bind. eapply (wp_notify net); [exact N4|]. intros v Hv. eapply wp_mono; [eapply (wp_send_wait pl net rlast tlast taken done pend free f c)| |by intros].
  - split; [done|done|done|exact Hv|]. cbn [ndma nset_dev nset_dma]. exact (shared_loaded pl rlast tlast taken done pend free c (ndma w) f N3 N5 Ef).
  - cbn [ndev nset_dev nset_dma]. pose proof (card_prompt _ _ _ Hv). lia.
  - intros r w' (-> & Hrest). by split.
Qed.
End Ops.
