(* ===== verification/VirtioNetSim.v ===== *)
(** * A simulated network card, and what the driver does with it

    Sequences of sends and receives; a device that keeps the promise of
    [VirtioNet], on which the driver's own initialisation runs. *)

From stdpp Require Import base numbers list gmap.
From Stdlib Require Import ZArith Lia.
From S2P Require Import Prelude Uaccess Mem Frame Pci VirtioBlk VirtioNet VirtioNetTheorems VirtioNetOps.
#[local] Open Scope Z_scope.

(** ** Sequences of calls *)

Inductive NetOp : Type := OpRecv (out : nat) | OpSend (f : list byte).
Inductive NetRes : Type := GotNone | Got (d : list byte) | Sent (ok : bool).

(** The results [rs] of the calls [ops], when [fs] is what arrived and was handed out
    and [ss] what was sent. *)
Fixpoint explains (ops : list NetOp) (rs : list NetRes) (fs ss : list (list byte)) : Prop :=
  match ops, rs with
  | [], [] => fs = [] /\ ss = []
  | OpRecv _ :: ops', GotNone :: rs' => explains ops' rs' fs ss
  | OpRecv out :: ops', Got d :: rs' => exists f fs', fs = f :: fs' /\ d = take out f /\ explains ops' rs' fs' ss
  | OpSend f :: ops', Sent ok :: rs' =>
      ok = (Z.of_nat (length f) <=? 4086) /\ exists ss', ss = (if ok then [f] else []) ++ ss' /\ explains ops' rs' fs ss'
  | _, _ => False
  end.

Section Calls.
Context {V : Type} {P : PortIO V} {DM : DmaDevice V} {NC : NetCard V} (phys_offset : Z).
#[local] Abbreviation wprog := (prog (NetWorld V) Empty_set).

Definition net_op (op : NetOp) : wprog NetRes :=
  match op with
  | OpRecv out => let! r := recv phys_offset out in pret (match r with None => GotNone | Some d => Got d end)
  | OpSend f => let! ok := send phys_offset f in pret (Sent ok)
  end.

Fixpoint net_ops (ops : list NetOp) : wprog (list NetRes) :=
  match ops with [] => pret [] | op :: ops' => let! r := net_op op in let! rs := net_ops ops' in pret (r :: rs) end.

Lemma wp_net_ops {NL : NetCardLaws V} pl ops w taken pending done :
  nic_ready phys_offset pl w taken pending done ->
  wp (net_ops ops) (fun rs w' => exists fs ss rest, explains ops rs fs ss /\ pending `prefix_of` fs ++ rest /\ nic_ready phys_offset pl w' (taken ++ fs) rest (done ++ ss))
    (fun _ _ => False) w.
Proof.
  revert w taken pending done. induction ops as [|op ops IH]; intros w taken pending done R; cbn [net_ops].
  { apply wp_ret. exists [], [], pending. by rewrite !app_nil_r. }
  apply wp_bind. destruct op as [out|f]; cbn [net_op]; apply wp_bind.
  - eapply wp_mono; [apply (wp_recv _ _ _ _ _ _ _ (fun _ _ => False) R)| |done]. intros [d|] w1; intros H; apply wp_ret, wp_bind.
    + destruct H as (f & rest1 & Hpre & -> & R1). eapply wp_mono; [by apply IH| |done]. intros rs w2 (fs & ss & rest & Hex & Hp & R2). apply wp_ret.
      exists (f :: fs), ss, rest. split_and!; [by exists f, fs| |by rewrite <- app_assoc in R2].
      transitivity (f :: rest1); [done|]. by apply prefix_cons.
    + destruct H as [-> R1]. eapply wp_mono; [by apply IH| |done]. intros rs w2 (fs & ss & rest & Hex & Hp & R2). apply wp_ret. exists fs, ss, rest. split_and!; [done|apply prefix_nil|done].
  - eapply wp_mono; [apply (wp_send _ _ _ _ _ _ _ (fun _ _ => False) R)| |done]. intros ok w1 (Hok & rest1 & Hpre & R1). apply wp_ret, wp_bind.
    eapply wp_mono; [by apply IH| |done]. intros rs w2 (fs & ss & rest & Hex & Hp & R2). apply wp_ret. exists fs, ((if ok then [f] else []) ++ ss), rest.
    split_and!; [split; [done|by exists ss]|by transitivity rest1|by rewrite app_assoc].
Qed.
End Calls.

(** ** The device *)

Definition NIC_IO : Z := 0xC040.
Definition NIC_QSIZE : Z := 8.

(** The frames on the wire wait for a buffer. *)
Record SimNic : Type := mkSimNic { sn_select : Z; sn_command : Z; sn_queue : Z; sn_card : Card; sn_wire : list (list byte) }.

Definition sn_cfg (v : SimNic) (a : Z) : Z :=
  if a =? address 0 4 0 0 then 0x10001AF4
  else if a =? address 0 4 0 4 then sn_command v
  else if a =? address 0 4 0 0x10 then NIC_IO + 1
  else if a / 256 =? address 0 4 0 0 / 256 then 0
  else 0xFFFFFFFF.

Definition sn_in (width port : Z) (v : SimNic) : Z * SimNic :=
  ((if (width =? 4) && (port =? CONFIG_DATA) then sn_cfg v (sn_select v)
    else if (width =? 4) && (port =? NIC_IO + REG_DEVICE_FEATURES) then VIRTIO_NET_F_MAC
    else if (width =? 2) && (port =? NIC_IO + REG_QUEUE_SIZE) then NIC_QSIZE
    else if (width =? 1) && (NIC_IO + REG_CONFIG <=? port) then 0x50 + (port - NIC_IO - REG_CONFIG)
    else 0), v).

Definition place_queue (i phys : Z) (c : Card) : Card :=
  if i =? QUEUE_RX then mkCard phys NIC_QSIZE (rx_n c) (tx_at c) (tx_q c) (tx_n c) (arrived c) (sent c)
  else mkCard (rx_at c) (rx_q c) (rx_n c) phys NIC_QSIZE (tx_n c) (arrived c) (sent c).

Definition sn_out (width port x : Z) (v : SimNic) : SimNic :=
  if (width =? 4) && (port =? CONFIG_ADDRESS) then mkSimNic x (sn_command v) (sn_queue v) (sn_card v) (sn_wire v)
  else if (width =? 4) && (port =? CONFIG_DATA) then
    if sn_select v =? address 0 4 0 4 then mkSimNic (sn_select v) x (sn_queue v) (sn_card v) (sn_wire v) else v
  else if (width =? 2) && (port =? NIC_IO + REG_QUEUE_SELECT) then mkSimNic (sn_select v) (sn_command v) x (sn_card v) (sn_wire v)
  else if (width =? 4) && (port =? NIC_IO + REG_QUEUE_PFN) then
    mkSimNic (sn_select v) (sn_command v) (sn_queue v) (place_queue (sn_queue v) (x * 4096) (sn_card v)) (sn_wire v)
  else v.

#[export] Instance SimNic_Ports : PortIO SimNic := { port_in := sn_in; port_out := sn_out }.

Definition sn_set (c : Card) (wire : list (list byte)) (v : SimNic) : SimNic := mkSimNic (sn_select v) (sn_command v) (sn_queue v) c wire.

(** A frame to send first, then one from the wire. *)
Definition sn_step (v : SimNic) (m : gmap Z byte) : SimNic * gmap Z byte :=
  let c := sn_card v in
  let th := rd m (avail_slot (tx_at c) (tx_q c) (tx_n c)) 2 in
  let rh := rd m (avail_slot (rx_at c) (rx_q c) (rx_n c)) 2 in
  if negb (rd m (avail_idx_at (tx_at c) (tx_q c)) 2 =? tx_n c) && (desc_flags m (tx_at c) th =? 0) && (10 <=? desc_len m (tx_at c) th) then
    (sn_set (mkCard (rx_at c) (rx_q c) (rx_n c) (tx_at c) (tx_q c) ((tx_n c + 1) mod U16) (arrived c)
       (sent c ++ [peek m (desc_addr m (tx_at c) th + 10) (Z.to_nat (desc_len m (tx_at c) th - 10))])) (sn_wire v) v,
     mark_used (tx_at c) (tx_q c) (tx_n c) th 0 m)
  else
    match sn_wire v with
    | f :: wire =>
        if negb (rd m (avail_idx_at (rx_at c) (rx_q c)) 2 =? rx_n c) && (desc_flags m (rx_at c) rh =? VIRTQ_DESC_F_WRITE) &&
           (10 + Z.of_nat (length f) <=? desc_len m (rx_at c) rh) then
          (sn_set (mkCard (rx_at c) (rx_q c) ((rx_n c + 1) mod U16) (tx_at c) (tx_q c) (tx_n c) (arrived c ++ [f]) (sent c)) wire v,
           mark_used (rx_at c) (rx_q c) (rx_n c) rh (10 + Z.of_nat (length f)) (poke (desc_addr m (rx_at c) rh) (zeros 10 ++ f ++ []) m))
        else (v, m)
    | [] => (v, m)
    end.

#[export] Instance SimNic_Dma : DmaDevice SimNic := { dv_step := sn_step; dv_left _ := 0%nat }.
#[export] Instance SimNic_Card : NetCard SimNic := { card_at v io c := io = NIC_IO /\ c = sn_card v /\ tx_q c = NIC_QSIZE }.

#[export] Instance SimNic_Laws : NetCardLaws SimNic.
Proof.
  split.
  - intros v io c (-> & _). done.
  - intros v io c x (-> & -> & Hq). done.
  - intros v io c m v' m' (-> & -> & Hq) E. exists (sn_card v').
    cbn [dv_step SimNic_Dma] in E. unfold sn_step in E. cbv zeta in E. destruct (negb _ && _ && _) eqn:Et.
    + injection E as <- <-. apply andb_prop in Et as [[E1%negb_true_iff E2]%andb_prop E3]. zbool. split_and!; [done| |].
      * apply rtc_once. destruct (sn_card v) as [p q n tp tq tn ar se]. by apply (moves_tx p q n tp tq tn ar se m _ 0).
      * intros (C1 & _). left. cbn [tx_n sn_card sn_set]. rewrite <- C1. cbn [tx_q] in Hq. rewrite Hq.
        pose proof (ring_layout (tx_at (sn_card v)) NIC_QSIZE 0 ltac:(done)) as (_ & L2 & _ & _ & _ & _ & L7 & _). unfold NIC_QSIZE in *.
        apply rd_ext. intros x Hx. apply mark_used_out; [done|]. left. lia.
    + assert (Hno : ~ can_send (sn_card v) m).
      { intros (C1 & C2 & C3). rewrite C1, C2, (proj2 (Z.leb_le _ _) C3) in Et. cbn [Z.eqb] in Et. rewrite !andb_true_r in Et. apply negb_false_iff in Et. zbool.
        by destruct (succ_mod_ne (tx_n (sn_card v))). }
      destruct (sn_wire v) as [|f wire]; [injection E as <- <-; split_and!; [done|apply rtc_refl|done]|].
      destruct (negb (rd m (avail_idx_at (rx_at _) _) 2 =? _) && _ && _) eqn:Er in E; injection E as <- <-; [|split_and!; [done|apply rtc_refl|done]].
      apply andb_prop in Er as [[E1%negb_true_iff E2]%andb_prop E3]. zbool. split_and!; [done| |done].
      apply rtc_once. destruct (sn_card v) as [p q n tp tq tn ar se]. apply (moves_rx p q n tp tq tn ar se m _ (zeros 10) f []); [done..|].
      rewrite app_nil_r, length_app. cbn in *. lia.
  - intros v io c _. done.
Qed.

(** ** The driver on it *)

Definition nic_map : list MemoryRegion := [mkRegion false 0 1; mkRegion true 1 16].

Definition nic_start : NetWorld SimNic :=
  mkNetWorld ∅ None (mkSimNic 0 0 0 (mkCard 0 0 0 0 NIC_QSIZE 0 [] []) [bs "hello"; bs "world"; replicate 2038 x41; bs "x"]) (mkPhys ∅ 0 None).

(** The machine after [init]. *)
Definition nic_booted : NetWorld SimNic := snd ((net_init 0x10000000 nic_map : prog _ Empty_set _) nic_start).

Definition nic_place : Place := mkPlace 0x1000 8 0x5000 0x3000 8 0x9000.
Definition nic_record : VirtioNet :=
  mkVirtioNet NIC_IO (mkVirtq 0x10001000 128 4096 8 0) (mkVirtq 0x10003000 128 4096 8 0) 0x10005000 0x5000 0x10009000 0x9000 [x50; x51; x52; x53; x54; x55].

Lemma nic_booted_nic : NIC nic_booted = Some nic_record.
Proof. vm_compute. reflexivity. Qed.

Lemma nic_booted_card : sn_card (ndev nic_booted) = mkCard 0x1000 8 0 0x3000 8 0 [] [].
Proof. vm_compute. reflexivity. Qed.

(** The receive queue with every buffer lent, and an empty send queue. *)
Definition fresh_rings (pl : Place) (m : gmap Z byte) : bool :=
  (rd m (used_idx_at (pl_rx pl) (pl_rxq pl)) 2 =? 0) && (rd m (avail_idx_at (pl_rx pl) (pl_rxq pl)) 2 =? 8) &&
  forallb (fun i => (rd m (avail_slot (pl_rx pl) (pl_rxq pl) i) 2 =? i) && (desc_addr m (pl_rx pl) i =? pl_rxbuf pl + i * 2048) &&
    (desc_len m (pl_rx pl) i =? 2048) && (desc_flags m (pl_rx pl) i =? VIRTQ_DESC_F_WRITE)) (seqZ 0 8) &&
  (rd m (used_idx_at (pl_tx pl) (pl_txq pl)) 2 =? 0) && (rd m (avail_idx_at (pl_tx pl) (pl_txq pl)) 2 =? 0).

Lemma fresh_rings_ok pl m : fresh_rings pl m = true ->
  rx_ring m (pl_rx pl) (pl_rxq pl) (pl_rxbuf pl) 0 [] (seqZ 0 8) /\ tx_ring m (pl_tx pl) (pl_txq pl) (pl_txbuf pl) 0 Quiet.
Proof.
  unfold fresh_rings. intros [[[[E1 E2]%andb_prop E3]%andb_prop E4]%andb_prop E5]%andb_prop. zbool.
  assert (Hi : forall i, 0 <= i < 8 -> rd m (avail_slot (pl_rx pl) (pl_rxq pl) i) 2 = i /\ desc_addr m (pl_rx pl) i = pl_rxbuf pl + i * 2048 /\
    desc_len m (pl_rx pl) i = 2048 /\ desc_flags m (pl_rx pl) i = VIRTQ_DESC_F_WRITE).
  { intros i Hi. rewrite forallb_forall in E3. specialize (E3 i). rewrite <- list_elem_of_In, elem_of_seqZ in E3. specialize (E3 ltac:(lia)).
    apply andb_prop in E3 as [[[X1 X2]%andb_prop X3]%andb_prop X4]. zbool. done. }
  split; split; try done.
  - intros j i Hj. apply lookup_seqZ in Hj as [-> Hj]. apply (Hi (0 + Z.of_nat j)). lia.
  - intros i Hir. by apply Hi.
Qed.

Lemma nic_place_ok : placed nic_place.
Proof.
  assert (Hr : ring_size 8) by (split; [done|by exists 8192]). split; [by split|done|by vm_compute|].
  intros i j a b Hij Ha Hb. vm_compute in Ha, Hb. destruct i as [|[|[|[|i]]]], j as [|[|[|[|j]]]]; try lia; try done; injection Ha as <-; injection Hb as <-; unfold disjoint; cbn [fst snd]; lia.
Qed.

Lemma nic_booted_rings : fresh_rings nic_place (ndma nic_booted) = true.
Proof. vm_compute. reflexivity. Qed.

Lemma nic_booted_ready : nic_ready 0x10000000 nic_place nic_booted [] [] [].
Proof.
  exists nic_record, 0, 0, [], (seqZ 0 8), (mkCard 0x1000 8 0 0x3000 8 0 [] []). split; [|done]. destruct (fresh_rings_ok _ _ nic_booted_rings) as [R T].
  split; [apply nic_booted_nic|by split|apply nic_place_ok|by split_and!; [|rewrite nic_booted_card|]|]. by split.
Qed.

(** ** Properties *)


Definition nic_script : list NetOp := [OpRecv 100; OpSend (bs "ping"); OpRecv 2; OpSend (replicate 4087 x00); OpRecv 3000; OpRecv 100; OpRecv 100].

Lemma nic_script_results :
  fst (net_ops 0x10000000 nic_script nic_booted) = Ret [Got (bs "hello"); Sent true; Got (bs "wo"); Sent false; Got (replicate 2038 x41); Got (bs "x"); GotNone].
Proof. vm_compute. reflexivity. Qed.

