(* ===== verification/PageTable.v ===== *)
(** * Page tables in physical memory

    The format of the four-level tables of x86-64, the frames a tree of tables
    consists of, its translation of addresses, and what the page-table crate
    promises of [map_to]. *)

From stdpp Require Import base numbers list gmap.
From Stdlib Require Import ZArith Lia.
From S2P Require Import Prelude Frame.
#[local] Open Scope Z_scope.

(** ** Entries *)

Definition FLAG_PRESENT : Z := 1.
Definition FLAG_WRITABLE : Z := 2.
Definition FLAG_USER : Z := 4.

Definition e_present (e : Z) : bool := Z.testbit e 0.
Definition e_writable (e : Z) : bool := Z.testbit e 1.
Definition e_user (e : Z) : bool := Z.testbit e 2.
Definition e_huge (e : Z) : bool := Z.testbit e 7.
Definition e_addr (e : Z) : Z := Z.land e 0x000ffffffffff000.

(** [entry.frame()]: an error for an entry that is not present or is huge. *)
Definition e_frame (e : Z) : option Z := if e_present e && negb (e_huge e) then Some (e_addr e) else None.

(** The entry [i] of the table in frame [f]. *)
Definition entry (m : gmap Z Z) (f i : Z) : Z := ram_word m (f + 8 * i).

(** The index of an address in a table of level [n + 1]. *)
Definition va_index (n : nat) (va : Z) : Z := va / 2 ^ (12 + 9 * Z.of_nat n) mod 512.

(** ** Trees of tables

    A table of level [n] is the root of a tree; level 0 is a page. [tree_frames]
    lists the frames of the tree, children first. *)

Fixpoint tree_frames (n : nat) (m : gmap Z Z) (f : Z) : list Z :=
  match n with
  | O => [f]
  | S n' =>
      (seqZ 0 512 ≫= fun i => let e := entry m f i in if e_present e then tree_frames n' m (e_addr e) else []) ++ [f]
  end.

(** An entry of a user tree: present, small, for the user, writable. *)
Definition e_good (e : Z) : Prop := e_present e = true /\ e_huge e = false /\ e_user e = true /\ e_writable e = true.

(** Every entry is empty or such. *)
Fixpoint tree_good (n : nat) (m : gmap Z Z) (f : Z) : Prop :=
  match n with
  | O => True
  | S n' =>
      forall i, 0 <= i < 512 ->
        let e := entry m f i in
        if e_present e then e_good e /\ tree_good n' m (e_addr e) else e = 0
  end.

(** The page an address is translated to, and whether the user may access and
    write it: every level must allow it. *)
Fixpoint walk (n : nat) (m : gmap Z Z) (f va : Z) : option (Z * bool * bool) :=
  match n with
  | O => Some (f, true, true)
  | S n' =>
      let e := entry m f (va_index n' va) in
      if e_present e then
        match walk n' m (e_addr e) va with
        | Some (g, u, w) => Some (g, e_user e && u, e_writable e && w)
        | None => None
        end
      else None
  end.

(** The same contents of a frame in two memories, or of two frames. *)
Definition same_frame (m m' : gmap Z Z) (f : Z) : Prop := forall a, f <= a < f + 4096 -> ram_word m' a = ram_word m a.

Definition copied (m : gmap Z Z) (f : Z) (m' : gmap Z Z) (f' : Z) : Prop :=
  forall i, 0 <= i < 512 -> ram_word m' (f' + 8 * i) = ram_word m (f + 8 * i).

(** ** Facts about entries *)

Lemma testbit_flags f flags i :
  f mod 4096 = 0 -> 0 <= i < 12 -> Z.testbit (Z.lor f flags) i = Z.testbit flags i.
Proof.
  intros Hf Hi. rewrite Z.lor_spec. replace (Z.testbit f i) with false; [done|].
  symmetry. rewrite <- (Z.mod_pow2_bits_low f 12 i) by lia. change (2 ^ 12) with 4096. rewrite Hf. apply Z.bits_0.
Qed.

Lemma addr_lor f flags :
  f mod 4096 = 0 -> 0 <= f < 2 ^ 52 -> 0 <= flags < 4096 -> e_addr (Z.lor f flags) = f.
Proof.
  intros Hf Hb Hl. unfold e_addr. apply Z.bits_inj'. intros i Hi. rewrite Z.land_spec, Z.lor_spec.
  change 0x000ffffffffff000 with (Z.shiftl (Z.ones 40) 12).
  rewrite Z.shiftl_spec by done. destruct (decide (i < 12)) as [Hlt|Hge].
  - rewrite (Z.testbit_neg_r (Z.ones 40)) by lia. rewrite andb_false_r. symmetry.
    rewrite <- (Z.mod_pow2_bits_low f 12 i) by lia. change (2 ^ 12) with 4096. rewrite Hf. apply Z.bits_0.
  - replace (Z.testbit flags i) with false.
    2:{ symmetry. destruct (decide (flags = 0)) as [->|]; [apply Z.bits_0|]. apply Z.bits_above_log2; [lia|].
        apply Z.log2_lt_pow2; [lia|]. apply Z.lt_le_trans with (2 ^ 12); [lia|]. apply Z.pow_le_mono_r; lia. }
    rewrite orb_false_r. destruct (decide (i < 52)).
    + rewrite Z.ones_spec_low by lia. apply andb_true_r.
    + rewrite Z.ones_spec_high by lia. rewrite andb_false_r. symmetry.
      destruct (decide (f = 0)) as [->|]; [apply Z.bits_0|]. apply Z.bits_above_log2; [lia|].
      apply Z.log2_lt_pow2; [lia|]. apply Z.lt_le_trans with (2 ^ 52); [lia|]. apply Z.pow_le_mono_r; lia.
Qed.

Lemma va_index_bound n va : 0 <= va_index n va < 512.
Proof. by apply Z.mod_pos_bound. Qed.

(** ** Facts about trees *)

Lemma bind_ext_in {A B} (f g : A -> list B) l : (forall x, x ∈ l -> f x = g x) -> l ≫= f = l ≫= g.
Proof.
  induction l as [|x l IH]; intros H; [done|]. cbn. rewrite (H x) by (by left). f_equal. apply IH. intros y Hy. apply H. by right.
Qed.

Lemma NoDup_bind_inv {A B} (f : A -> list B) l :
  NoDup (l ≫= f) -> (forall x, x ∈ l -> NoDup (f x)) /\
  (forall i j x y b, l !! i = Some x -> l !! j = Some y -> i <> j -> b ∈ f x -> b ∉ f y).
Proof.
  induction l as [|z l IH]; cbn; [intros _; split; [set_solver|intros i j x y b Hi; by rewrite lookup_nil in Hi]|].
  intros (H1 & H2 & H3)%NoDup_app. destruct (IH H3) as [I1 I2]. split; [intros x [->|Hx]%elem_of_cons; auto|].
  assert (D : forall j y b, l !! j = Some y -> b ∈ f y -> b ∈ l ≫= f).
  { intros j y b Hj Hb. apply list_elem_of_bind. exists y. split; [done|]. by eapply list_elem_of_lookup_2. }
  intros [|i] [|j] x y b Hi Hj Hij Hb; cbn in Hi, Hj; [done|..]; intros Hb'; simplify_eq.
  - eapply H2; [exact Hb|]. by eapply D.
  - eapply H2; [exact Hb'|]. by eapply D.
  - eapply I2; [exact Hi|exact Hj|congruence|exact Hb|exact Hb'].
Qed.

Lemma elem_of_tree_S n m f g :
  g ∈ tree_frames (S n) m f <->
  g = f \/ exists i, 0 <= i < 512 /\ e_present (entry m f i) = true /\ g ∈ tree_frames n m (e_addr (entry m f i)).
Proof.
  cbn [tree_frames]. rewrite elem_of_app, list_elem_of_singleton, list_elem_of_bind. split.
  - intros [(i & Hg & Hi%elem_of_seqZ)| ->]; [|by left]. right. exists i. destruct (e_present _) eqn:Ep; [|set_solver].
    split_and!; [lia..|done|done].
  - intros [->|(i & Hi & Hp & Hg)]; [by right|]. left. exists i. rewrite Hp. split; [done|]. apply elem_of_seqZ. lia.
Qed.

Lemma tree_root n m f : f ∈ tree_frames n m f.
Proof. destruct n; [by left|]. apply elem_of_tree_S. by left. Qed.

(** The children of a table have frames of their own. *)
Lemma tree_NoDup_S n m f :
  NoDup (tree_frames (S n) m f) ->
  (forall i, 0 <= i < 512 -> e_present (entry m f i) = true ->
     NoDup (tree_frames n m (e_addr (entry m f i))) /\ f ∉ tree_frames n m (e_addr (entry m f i))) /\
  (forall i j g, 0 <= i < 512 -> 0 <= j < 512 -> i <> j -> e_present (entry m f i) = true -> e_present (entry m f j) = true ->
     g ∈ tree_frames n m (e_addr (entry m f i)) -> g ∉ tree_frames n m (e_addr (entry m f j))).
Proof.
  cbn [tree_frames]. intros (H1 & H2 & _)%NoDup_app. apply NoDup_bind_inv in H1 as [H1 H3]. split.
  - intros i Hi Hp. assert (Hin : i ∈ seqZ 0 512) by (apply elem_of_seqZ; lia). split.
    + specialize (H1 i Hin). cbn beta zeta in H1. by rewrite Hp in H1.
    + intros Hf. apply (H2 f); [|by left]. apply list_elem_of_bind. exists i. cbn zeta. by rewrite Hp.
  - intros i j g Hi Hj Hij Hpi Hpj Hg.
    pose proof (H3 (Z.to_nat i) (Z.to_nat j) i j g) as H. cbn beta zeta in H. rewrite Hpi, Hpj in H.
    apply H; [|..|done]; [apply lookup_seqZ; lia|apply lookup_seqZ; lia|lia].
Qed.

Lemma entry_same m m' f i : same_frame m m' f -> 0 <= i < 512 -> entry m' f i = entry m f i.
Proof. intros H Hi. apply H. lia. Qed.

(** A tree depends on its own frames only. *)
Lemma tree_local n m m' : forall f,
  (forall g, g ∈ tree_frames n m f -> same_frame m m' g) ->
  tree_frames n m' f = tree_frames n m f /\ (tree_good n m f -> tree_good n m' f) /\
  (forall va, walk n m' f va = walk n m f va).
Proof.
  induction n as [|n IH]; intros f Hs; [done|].
  assert (Hf : forall i, 0 <= i < 512 -> entry m' f i = entry m f i).
  { intros i Hi. apply entry_same; [|done]. apply Hs, tree_root. }
  assert (Hc : forall i, 0 <= i < 512 -> e_present (entry m f i) = true -> forall g,
    g ∈ tree_frames n m (e_addr (entry m f i)) -> same_frame m m' g).
  { intros i Hi Hp g Hg. apply Hs, elem_of_tree_S. right. by exists i. }
  split_and!.
  - cbn [tree_frames]. f_equal. apply bind_ext_in. intros i Hi%elem_of_seqZ. rewrite Hf by lia.
    cbn zeta. destruct (e_present _) eqn:Hp; [|done]. apply IH. apply Hc; [lia|done].
  - cbn [tree_good]. intros Hg i Hi. specialize (Hg i Hi). rewrite Hf by done. cbn zeta in *.
    destruct (e_present _) eqn:Hp; [|done]. destruct Hg as [G1 G2]. split; [done|]. apply IH; [|done]. by apply Hc.
  - intros va. cbn [walk]. pose proof (va_index_bound n va) as Hb. rewrite Hf by done.
    destruct (e_present _) eqn:Hp; [|done]. destruct (IH (e_addr (entry m f (va_index n va)))) as (_ & _ & ->); [by apply Hc|done].
Qed.

(** A translation ends in a page of the tree. *)
Lemma walk_in_tree n m va : forall f g u w, walk n m f va = Some (g, u, w) -> g ∈ tree_frames n m f.
Proof.
  induction n as [|n IH]; intros f g u w; cbn [walk]; [intros [= -> _ _]; by left|].
  destruct (e_present _) eqn:Hp; [|done]. destruct (walk n m _ va) as [[[g' u'] w']|] eqn:Ew; [|done]. intros [= -> _ _].
  apply elem_of_tree_S. right. exists (va_index n va). split_and!; [apply va_index_bound..|done|by eapply IH].
Qed.

Lemma walk_S n m f va :
  walk (S n) m f va =
  (let e := entry m f (va_index n va) in
   if e_present e then
     match walk n m (e_addr e) va with
     | Some (g, u, w) => Some (g, e_user e && u, e_writable e && w)
     | None => None
     end
   else None).
Proof. done. Qed.

Lemma bind_update_perm {A B} (f g : A -> list B) (l : list A) (i : A) (a : list B) :
  NoDup l -> i ∈ l -> (forall j, j ∈ l -> j <> i -> g j = f j) -> g i ≡ₚ a ++ f i -> l ≫= g ≡ₚ a ++ (l ≫= f).
Proof.
  intros Hnd Hi Hne Hp. apply list_elem_of_split in Hi as (l1 & l2 & ->).
  apply NoDup_app in Hnd as (_ & Hd & Hnd). apply NoDup_cons in Hnd as [Hn2 _].
  rewrite !bind_app. cbn [mbind list_bind]. fold (mbind (M := list) g) (mbind (M := list) f).
  rewrite (bind_ext_in g f l1), (bind_ext_in g f l2).
  - rewrite Hp. solve_Permutation.
  - intros j Hj. apply Hne; [apply elem_of_app; right; by right|]. intros ->. done.
  - intros j Hj. apply Hne; [apply elem_of_app; by left|]. intros ->. apply (Hd i Hj). by left.
Qed.

(** The page decides the translation. *)
Lemma va_index_page n va va' : va / 4096 = va' / 4096 -> va_index n va = va_index n va'.
Proof.
  intros H. unfold va_index. rewrite Z.pow_add_r by lia. change (2 ^ 12) with 4096.
  rewrite <- !Z.div_div by lia. by rewrite H.
Qed.

Lemma walk_page n m f va va' : va / 4096 = va' / 4096 -> walk n m f va = walk n m f va'.
Proof.
  intros H. revert f. induction n as [|n IH]; intros f; [done|]. rewrite !walk_S. cbn zeta.
  by rewrite (va_index_page n va va' H), IH.
Qed.
