(* ===== verification/AddrSpace.v ===== *)
(** * Address spaces

    [mm/addr_space.rs]: the page tables of a process are created with the
    kernel's entries, copied for [fork] and taken down, in physical memory. The
    crate's [map_to] is an interface. *)

From stdpp Require Import base numbers list gmap.
From Stdlib Require Import ZArith Lia.
From S2P Require Import Prelude Frame PageTable.
#[local] Open Scope Z_scope.

(** [OffsetPageTable::map_to(page, frame, flags, allocator)] on the tables of a
    root; any error is [tt]. *)
Class OffsetPageTable : Type := {
  map_to : list MemoryRegion -> Z -> Z -> Z -> Z -> prog Phys unit unit
}.

Definition USER_FLAGS : Z := Z.lor (Z.lor FLAG_PRESENT FLAG_WRITABLE) FLAG_USER.

Section AddrSpace.
Context {OPT : OffsetPageTable} (memory_map : list MemoryRegion).
#[local] Abbreviation pprog := (prog Phys Empty_set).

(** [VirtAddr::new] *)
Definition VirtAddr_new (a : Z) : pprog Z :=
  passert ((a <? 2 ^ 47) || (2 ^ 64 - 2 ^ 47 <=? a)) ;;! pret a.

(** [copy_nonoverlapping(src, dst, 4096)] between two frames. *)
Definition copy_frame (src dst : Z) : pprog unit :=
  pfold (fun _ i => let! w := read_word (src + 8 * i) in write_word (dst + 8 * i) w) (seqZ 0 512) tt.

(** [table.zero()] *)
Definition zero_table (f : Z) : pprog unit := pfold (fun _ i => write_word (f + 8 * i) 0) (seqZ 0 512) tt.

Definition new_sharing_kernel (kernel_pml4 : Z) : pprog Z :=
  let! o := allocate_frame memory_map in
  let! frame := punwrap o in
  zero_table frame ;;!
  copy_frame kernel_pml4 frame ;;!
  pret frame.

(** The body of the loop over a table of level 1. *)
Definition copy_leaf (root e va : Z) : pprog unit :=
  match e_frame e with
  | Some parent_leaf =>
      let! o := allocate_frame memory_map in
      let! child_leaf := punwrap o in
      copy_frame parent_leaf child_leaf ;;!
      let! va := VirtAddr_new va in
      let! r := ptry (map_to memory_map root (containing_address va) child_leaf USER_FLAGS) in
      match r with inl _ => pret tt | inr _ => ppanic end
  | None => pret tt
  end.

(** [copy_subtree] at level [n + 1]. *)
Fixpoint copy_subtree (n : nat) (frame va_base root : Z) : pprog unit :=
  pfold (fun _ i =>
    let! e := read_word (frame + 8 * i) in
    if negb (e_present e) then pret tt
    else
      let va := Z.lor va_base (Z.shiftl i (12 + 9 * Z.of_nat n)) in
      match n with
      | O => copy_leaf root e va
      | S n' =>
          match e_frame e with
          | Some child_tbl => passert (negb (e_huge e)) ;;! copy_subtree n' child_tbl va root
          | None => pret tt
          end
      end) (seqZ 0 512) tt.

(** An entry that is the kernel's: the same child table. *)
Definition shared (kernel_e e : Z) : bool := e_present kernel_e && (e_addr kernel_e =? e_addr e).

Definition fork_from (parent_pml4 kernel_pml4 : Z) : pprog Z :=
  let! child := new_sharing_kernel kernel_pml4 in
  pfold (fun _ i =>
    let! e := read_word (parent_pml4 + 8 * i) in
    if negb (e_present e) then pret tt
    else
      let! k := read_word (kernel_pml4 + 8 * i) in
      if shared k e then pret tt
      else
        match e_frame e with
        | Some l3 => copy_subtree 2 l3 (Z.shiftl i 39) child
        | None => pret tt
        end) (seqZ 0 512) tt ;;!
  pret child.

(** [free_subtree] at level [n + 1]. *)
Fixpoint free_subtree (n : nat) (frame : Z) : pprog unit :=
  pfold (fun _ i =>
    let! e := read_word (frame + 8 * i) in
    if negb (e_present e) then pret tt
    else
      match n with
      | O =>
          passert (e_user e) ;;!
          match e_frame e with Some leaf => deallocate_frame leaf | None => pret tt end
      | S n' =>
          passert (negb (e_huge e)) ;;!
          match e_frame e with Some child => free_subtree n' child | None => pret tt end
      end) (seqZ 0 512) tt ;;!
  deallocate_frame frame.

(** [destroy], with the root that is active in CR3. *)
Definition destroy (pml4_frame active : Z) : pprog unit :=
  passert (negb (pml4_frame =? active)) ;;!
  pfold (fun _ i =>
    let! e := read_word (pml4_frame + 8 * i) in
    if negb (e_present e) then pret tt
    else
      let! k := read_word (active + 8 * i) in
      if shared k e then pret tt
      else match e_frame e with Some l3 => free_subtree 2 l3 | None => pret tt end) (seqZ 0 512) tt ;;!
  deallocate_frame pml4_frame.
End AddrSpace.

(** ** Teardown *)

Section Spec.
Context {OPT : OffsetPageTable} (memory_map : list MemoryRegion) (MO : map_ok memory_map).
#[local] Abbreviation alloc_ok := (alloc_ok memory_map).
#[local] Abbreviation usable := (usable_frames memory_map).

Definition no (_ : Empty_set) (_ : Phys) : Prop := False.

Lemma owned_aligned s owned free f : alloc_ok s owned free -> f ∈ owned -> f mod 4096 = 0 /\ 0 < f < 2 ^ 52.
Proof. intros O Hf. eapply usable_bounds; [done|]. by eapply handed_usable, (ok_owned _ _ _ _ O). Qed.

(** Two frames have no address in common. *)
Lemma frames_apart f g a : f mod 4096 = 0 -> g mod 4096 = 0 -> f <= a < f + 4096 -> g <= a < g + 4096 -> f = g.
Proof. intros Hf Hg H1 H2. pose proof (Z.div_mod f 4096). pose proof (Z.div_mod g 4096). lia. Qed.

(** The frames [l] have been given back, in this order. *)
Definition freed (s : Phys) (owned : gset Z) (free l : list Z) (s' : Phys) : Prop :=
  alloc_ok s' (owned ∖ list_to_set l) (rev l ++ free) /\ next s' = next s /\
  (forall a, a ∉ l -> ram_word (ram s') a = ram_word (ram s) a).

Lemma freed_nil s owned free : alloc_ok s owned free -> freed s owned free [] s.
Proof. intros O. split_and!; [|done..]. replace (owned ∖ list_to_set []) with owned by set_solver. done. Qed.

Lemma freed_app s owned free l1 l2 s1 s2 :
  freed s owned free l1 s1 -> freed s1 (owned ∖ list_to_set l1) (rev l1 ++ free) l2 s2 -> freed s owned free (l1 ++ l2) s2.
Proof.
  intros (O1 & N1 & R1) (O2 & N2 & R2). split_and!; [|congruence|].
  - rewrite rev_app_distr, <- app_assoc.
    replace (owned ∖ list_to_set (l1 ++ l2)) with (owned ∖ list_to_set l1 ∖ list_to_set l2) by set_solver. exact O2.
  - intros a Ha. rewrite R2, R1 by set_solver. done.
Qed.

Lemma wp_deallocate s owned free f :
  alloc_ok s owned free -> f ∈ owned -> wp (deallocate_frame f) (fun _ s' => freed s owned free [f] s') no s.
Proof.
  intros O Hf. eapply wp_mono; [by apply (deallocate_frame_spec _ MO)| |done]. intros _ s' (O' & N' & _ & R').
  split_and!; [|done|].
  - replace (owned ∖ list_to_set [f]) with (owned ∖ {[f]}) by set_solver. exact O'.
  - intros a Ha. unfold ram_word. rewrite R', lookup_insert_ne by set_solver. done.
Qed.

(** Returned frames leave the others as they were. *)
Lemma freed_same s owned free l s' f :
  alloc_ok s owned free -> (forall g, g ∈ l -> g ∈ owned) -> freed s owned free l s' ->
  f mod 4096 = 0 -> f ∉ l -> same_frame (ram s) (ram s') f.
Proof.
  intros O Hl (_ & _ & R) Hf Hn a Ha. apply R. intros Hin.
  destruct (owned_aligned _ _ _ a O (Hl a Hin)) as [Hm _].
  assert (a = f) as -> by (eapply (frames_apart a f a); [done|done|lia|done]). done.
Qed.

(** A loop that returns the frames [c i] at each step. *)
Lemma free_loop (body : unit -> Z -> prog Phys Empty_set unit) s owned free (c : Z -> list Z) :
  alloc_ok s owned free -> NoDup (seqZ 0 512 ≫= c) -> (forall g, g ∈ seqZ 0 512 ≫= c -> g ∈ owned) ->
  (forall i s1 owned1 free1, 0 <= i < 512 -> alloc_ok s1 owned1 free1 ->
     (forall f, f mod 4096 = 0 -> f ∉ seqZ 0 512 ≫= c \/ f ∈ c i -> same_frame (ram s) (ram s1) f) ->
     (forall g, g ∈ c i -> g ∈ owned1) -> wp (body tt i) (fun _ s' => freed s1 owned1 free1 (c i) s') no s1) ->
  wp (pfold body (seqZ 0 512) tt) (fun _ s' => freed s owned free (seqZ 0 512 ≫= c) s') no s.
Proof.
  intros O Hnd Hown Hbody.
  apply (wp_pfold_range body (fun i _ s' => freed s owned free (seqZ 0 i ≫= c) s')); [done|by apply freed_nil|].
  intros i [] s1 Hi Hf. replace (seqZ 0 (i + 1)) with (seqZ 0 i ++ [i]).
  2:{ rewrite seqZ_app by lia. f_equal. }
  rewrite bind_app. cbn [mbind list_bind]. rewrite app_nil_r.
  assert (Hsub : forall j, 0 <= j < 512 -> forall g, g ∈ c j -> g ∈ seqZ 0 512 ≫= c).
  { intros j Hj g Hg. apply list_elem_of_bind. exists j. split; [done|]. apply elem_of_seqZ. lia. }
  assert (Hdone : forall g, g ∈ seqZ 0 i ≫= c -> g ∈ seqZ 0 512 ≫= c).
  { intros g (j & Hg & Hj%elem_of_seqZ)%list_elem_of_bind. eapply (Hsub j); [lia|done]. }
  assert (Hnew : forall g, g ∈ c i -> g ∉ seqZ 0 i ≫= c).
  { intros g Hg (j & Hg' & Hj%elem_of_seqZ)%list_elem_of_bind. apply NoDup_bind_inv in Hnd as [_ Hd].
    eapply (Hd (Z.to_nat i) (Z.to_nat j) i j g); [apply lookup_seqZ; lia|apply lookup_seqZ; lia|lia|done|done]. }
  eapply wp_mono; [apply (Hbody i s1 (owned ∖ list_to_set (seqZ 0 i ≫= c)) (rev (seqZ 0 i ≫= c) ++ free))| |done].
  - done.
  - by destruct Hf.
  - intros f Hm Hcase. eapply freed_same; [exact O| |exact Hf|done|].
    + intros g Hg. by apply Hown, Hdone.
    + intros Hin. destruct Hcase as [Hn|Hin']; [by apply Hn, Hdone|by eapply Hnew].
  - intros g Hg. apply elem_of_difference. split; [by apply Hown, (Hsub i)|].
    rewrite elem_of_list_to_set. by apply Hnew.
  - intros ? s' Hf'. by eapply freed_app.
Qed.

Lemma wp_read_phys s a (Q : Z -> Phys -> Prop) : Q (ram_word (ram s) a) s -> wp (read_word a) Q no s.
Proof. intros HQ. by apply wp_word. Qed.

Lemma e_frame_good e : e_good e -> e_frame e = Some (e_addr e).
Proof. intros (Hp & Hh & _). unfold e_frame. by rewrite Hp, Hh. Qed.

(** A program that gives back the frames of a tree of level [n]. *)
Definition frees (n : nat) (m : Z -> prog Phys Empty_set unit) : Prop :=
  forall s owned free f,
    alloc_ok s owned free -> NoDup (tree_frames n (ram s) f) -> (forall g, g ∈ tree_frames n (ram s) f -> g ∈ owned) ->
    tree_good n (ram s) f -> wp (m f) (fun _ s' => freed s owned free (tree_frames n (ram s) f) s') no s.

(** The loop over a table, when [k] gives back the tree of an entry. *)
Lemma frees_table n child (k : Z -> prog Phys Empty_set unit) :
  frees n child -> (forall e s, e_good e -> k e s = child (e_addr e) s) ->
  frees (S n) (fun f =>
    pfold (fun _ i => let! e := read_word (f + 8 * i) in if negb (e_present e) then pret tt else k e) (seqZ 0 512) tt ;;!
    deallocate_frame f).
Proof.
  intros Hchild Hk s owned free f O Hnd Hown Hg.
  set (c := fun i => let e := entry (ram s) f i in if e_present e then tree_frames n (ram s) (e_addr e) else []).
  assert (Hf : f ∈ owned) by apply Hown, tree_root. destruct (owned_aligned _ _ _ _ O Hf) as [Hal _].
  pose proof (tree_NoDup_S _ _ _ Hnd) as [Hsub _]. cbn [tree_frames] in *. fold c in Hnd, Hown |- *.
  apply NoDup_app in Hnd as (Hnd & Hnf & _).
  assert (Hfl : f ∉ seqZ 0 512 ≫= c) by (intros Hin; apply (Hnf f Hin); by left).
  apply wp_bind. eapply wp_mono; [apply (free_loop _ s owned free c O Hnd)| |done].
  - intros g Hin. apply Hown, elem_of_app. by left.
  - intros i s1 owned1 free1 Hi O1 Hsame Hin. apply wp_bind, wp_read_phys.
    assert (He : ram_word (ram s1) (f + 8 * i) = entry (ram s) f i) by (apply (Hsame f); [done|by left|lia]).
    rewrite He. specialize (Hg i Hi). unfold c in *. cbn zeta in *. destruct (e_present (entry (ram s) f i)) eqn:Hp.
    2:{ apply wp_ret. by apply freed_nil. }
    destruct Hg as [Ge Gt]. destruct (Hsub i Hi Hp) as [Nd _]. cbn [negb]. unfold wp. rewrite Hk by done.
    destruct (tree_local n (ram s) (ram s1) (e_addr (entry (ram s) f i))) as (T1 & T2 & _).
    { intros g Hg. apply Hsame; [|by right]. by eapply (owned_aligned _ _ _ _ O1), Hin. }
    rewrite <- T1. apply Hchild; [done|by rewrite T1|by rewrite T1|by apply T2].
  - intros ? s1 F1. eapply wp_mono; [apply (wp_deallocate s1 _ _ f (proj1 F1))| |done].
    + apply elem_of_difference. split; [done|]. by rewrite elem_of_list_to_set.
    + intros ? s2 F2. eapply freed_app; [exact F1|exact F2].
Qed.

Lemma frees_page : frees 0 deallocate_frame.
Proof. intros s owned free f O _ Hown _. apply wp_deallocate; [done|]. apply Hown. by left. Qed.

Lemma frees_subtree n : frees (S n) (free_subtree n).
Proof.
  induction n as [|n IH].
  - eapply (frees_table 0 deallocate_frame (fun e => passert (e_user e) ;;!
      match e_frame e with Some leaf => deallocate_frame leaf | None => pret tt end)); [apply frees_page|].
    intros e s Hg. rewrite (e_frame_good e Hg). destruct Hg as (_ & _ & -> & _). done.
  - eapply (frees_table (S n) (free_subtree n) (fun e => passert (negb (e_huge e)) ;;!
      match e_frame e with Some child => free_subtree n child | None => pret tt end)); [exact IH|].
    intros e s Hg. rewrite (e_frame_good e Hg). destruct Hg as (_ & -> & _). done.
Qed.

(** ** Spaces *)

(** A slot of the root that is not the one of the table [k]. *)
Definition private (m : gmap Z Z) (root k i : Z) : bool :=
  e_present (entry m root i) && negb (shared (entry m k i) (entry m root i)).

Definition slot_frames (m : gmap Z Z) (root i : Z) : list Z := tree_frames 3 m (e_addr (entry m root i)).

(** The frames of a space: the trees of its private slots, and its root. *)
Definition space_frames (m : gmap Z Z) (root k : Z) : list Z :=
  (seqZ 0 512 ≫= fun i => if private m root k i then slot_frames m root i else []) ++ [root].

(** The private part of a space is made of frames of its own, all in use, and
    lies in the lower half. *)
Record space_ok (m : gmap Z Z) (owned : gset Z) (root k : Z) : Prop := {
  sp_nodup : NoDup (space_frames m root k);
  sp_owned g : g ∈ space_frames m root k -> g ∈ owned;
  sp_good i : 0 <= i < 512 -> private m root k i = true ->
    e_good (entry m root i) /\ tree_good 3 m (e_addr (entry m root i)) /\ i < 256
}.

Lemma space_root m root k : root ∈ space_frames m root k.
Proof. apply elem_of_app. right. by left. Qed.

Lemma destroy_spec s owned free root active :
  alloc_ok s owned free -> space_ok (ram s) owned root active -> active mod 4096 = 0 ->
  active ∉ space_frames (ram s) root active ->
  wp (destroy root active) (fun _ s' => freed s owned free (space_frames (ram s) root active) s') no s.
Proof.
  intros O [Hnd Hown Hg] Hact Hna.
  set (c := fun i => if private (ram s) root active i then slot_frames (ram s) root i else []).
  assert (Hr : root ∈ owned) by apply Hown, space_root. destruct (owned_aligned _ _ _ _ O Hr) as [Hal _].
  unfold space_frames in *. fold c in Hnd, Hown, Hna |- *. apply NoDup_app in Hnd as (Hnd & Hnf & _).
  apply not_elem_of_app in Hna as [Hna Hne]. apply not_elem_of_cons in Hne as [Hne _].
  assert (Hrl : root ∉ seqZ 0 512 ≫= c) by (intros Hin; apply (Hnf root Hin); by left).
  unfold destroy. apply wp_bind, wp_assert; [by rewrite (proj2 (Z.eqb_neq root active)) by congruence|].
  apply wp_bind. eapply wp_mono; [apply (free_loop _ s owned free c O Hnd)| |done].
  - intros g Hin. apply Hown, elem_of_app. by left.
  - intros i s1 owned1 free1 Hi O1 Hsame Hin. apply wp_bind, wp_read_phys.
    assert (He : ram_word (ram s1) (root + 8 * i) = entry (ram s) root i) by (apply (Hsame root); [done|by left|lia]).
    assert (Hk : ram_word (ram s1) (active + 8 * i) = entry (ram s) active i) by (apply (Hsame active); [done|by left|lia]).
    rewrite He. specialize (Hg i Hi). apply NoDup_bind_inv in Hnd as [Nd _].
    specialize (Nd i ltac:(apply elem_of_seqZ; lia)). unfold c, private in *.
    destruct (e_present (entry (ram s) root i)) eqn:Hp; cbn [negb andb] in *; [|apply wp_ret; by apply freed_nil].
    apply wp_bind, wp_read_phys. rewrite Hk.
    destruct (shared (entry (ram s) active i) (entry (ram s) root i)); cbn [negb] in *; [apply wp_ret; by apply freed_nil|].
    destruct (Hg eq_refl) as (Ge & Gt & _). rewrite (e_frame_good _ Ge).
    destruct (tree_local 3 (ram s) (ram s1) (e_addr (entry (ram s) root i))) as (T1 & T2 & _).
    { intros g Hin'. apply Hsame; [|by right]. by eapply (owned_aligned _ _ _ _ O1), Hin. }
    unfold slot_frames in *. rewrite <- T1. apply frees_subtree; [done|by rewrite T1|by rewrite T1|by apply T2].
  - intros ? s1 F1. eapply wp_mono; [apply (wp_deallocate s1 _ _ root (proj1 F1))| |done].
    + apply elem_of_difference. split; [done|]. by rewrite elem_of_list_to_set.
    + intros ? s2 F2. eapply freed_app; [exact F1|exact F2].
Qed.

(** ** Creation *)

(** A change of the words of one frame. *)
Definition outside (f : Z) (m m' : gmap Z Z) : Prop := forall a, ~ (f <= a < f + 4096) -> ram_word m' a = ram_word m a.

Lemma outside_same f g m m' : f mod 4096 = 0 -> g mod 4096 = 0 -> g <> f -> outside f m m' -> same_frame m m' g.
Proof. intros Hf Hg Hne Ho a Ha. apply Ho. intros Ha'. by apply Hne, (frames_apart g f a). Qed.

Lemma free_chain_ext m m' head l : (forall f, f ∈ l -> ram_word m' f = ram_word m f) -> chain m head l -> chain m' head l.
Proof.
  revert head. induction l as [|f l IH]; intros head H; cbn [chain]; [done|]. intros [-> Hc]. split; [done|].
  rewrite H by (by left). apply IH; [|done]. intros g Hg. apply H. by right.
Qed.

Lemma alloc_outside s owned free f m' :
  alloc_ok s owned free -> f ∈ owned -> outside f (ram s) m' -> alloc_ok (set_ram m' s) owned free.
Proof.
  intros O Hf Ho. pose proof O as [O1 O2 O3 O4 O5]. split; try done. cbn [ram set_ram free_list].
  eapply free_chain_ext; [|done]. intros g Hg. apply Ho. intros Hr. destruct (O5 f Hf) as [Hh Hn].
  destruct (usable_bounds _ MO f) as [Hf1 _]; [by eapply handed_usable|].
  destruct (usable_bounds _ MO g) as [Hg1 _]; [by eapply handed_usable, O4|].
  assert (g = f) as -> by (eapply (frames_apart g f g); [done|done|lia|lia]). done.
Qed.

(** A loop that stores [val i] in the words of a frame, where [val] is read
    elsewhere. *)
Lemma fill_frame (body : unit -> Z -> prog Phys Empty_set unit) (val : Z -> Z) s f :
  (forall i m, 0 <= i < 512 -> outside f (ram s) m ->
     body tt i (set_ram m s) = (Ret tt, set_ram (<[f + 8 * i := val i]> m) s)) ->
  exists m, pfold body (seqZ 0 512) tt s = (Ret tt, set_ram m s) /\ outside f (ram s) m /\
    forall i, 0 <= i < 512 -> ram_word m (f + 8 * i) = val i.
Proof.
  intros Hb.
  assert (Hw : wp (pfold body (seqZ 0 512) tt) (fun _ s' => exists m, s' = set_ram m s /\ outside f (ram s) m /\
    forall i, 0 <= i < 512 -> ram_word m (f + 8 * i) = val i) (fun _ _ => False) s).
  { apply (wp_pfold_range body (fun k _ s' => exists m, s' = set_ram m s /\ outside f (ram s) m /\
      forall i, 0 <= i < k -> ram_word m (f + 8 * i) = val i)); [done| |].
    - exists (ram s). split_and!; [by destruct s|done|lia].
    - intros k [] s1 Hk (m & -> & Ho & Hv). unfold wp. rewrite Hb by (done || lia). eexists. split_and!; [done| |].
      + intros a Ha. unfold ram_word. rewrite lookup_insert_ne by lia. by apply Ho.
      + intros i Hi. unfold ram_word. destruct (decide (i = k)) as [->|]; [by rewrite lookup_insert_eq|].
        rewrite lookup_insert_ne by lia. apply Hv. lia. }
  destruct (wp_total _ _ _ Hw) as ([] & s' & E & m & -> & Ho & Hv). by exists m.
Qed.

Lemma copy_frame_spec s src dst :
  src mod 4096 = 0 -> dst mod 4096 = 0 -> src <> dst ->
  exists m, copy_frame src dst s = (Ret tt, set_ram m s) /\ outside dst (ram s) m /\ copied (ram s) src m dst.
Proof.
  intros Hs Hd Hne. apply (fill_frame _ (fun i => ram_word (ram s) (src + 8 * i))). intros i m Hi Ho.
  unfold read_word, write_word, pbind, pget, pret, pmodify. cbn [ram set_ram].
  by rewrite (outside_same dst src (ram s) m) by (done || lia).
Qed.

Lemma zero_table_spec s f :
  exists m, zero_table f s = (Ret tt, set_ram m s) /\ outside f (ram s) m /\ forall i, 0 <= i < 512 -> entry m f i = 0.
Proof. apply (fill_frame _ (fun _ => 0)). done. Qed.

(** [allocate_frame().expect(..)] *)
Lemma wpp_allocate {A} (k : Z -> prog Phys Empty_set A) s owned free (Q : A -> Phys -> Prop) :
  alloc_ok s owned free -> cursor_ok memory_map s ->
  (forall f s' free', f ∈ usable -> f ∉ owned -> ram s' = ram s -> cursor_ok memory_map s' ->
     alloc_ok s' ({[f]} ∪ owned) free' -> wpp (k f) Q no (exhausted memory_map) s') ->
  wpp (let! o := allocate_frame memory_map in let! f := punwrap o in k f) Q no (exhausted memory_map) s.
Proof.
  intros O Hc Hk. apply wpp_bind. eapply wpp_mono; [apply wpp_wp, (allocate_frame_spec _ MO s owned free O)| |done|done].
  { unfold cursor_ok in Hc. lia. }
  intros [f|] s' [Hr H]; [|by destruct H as (_ & _ & H & _)].
  destruct H as (Hu & Hn & Hc' & free' & O'). apply wpp_bind, wpp_wp, wp_ret. eapply Hk; [done..|by apply Hc'|exact O'].
Qed.

(** A frame that an allocation cannot give: in use, or not the allocator's. *)
Definition settled (owned : gset Z) (g : Z) : Prop := g mod 4096 = 0 /\ (g ∈ owned \/ g ∉ usable).

Lemma settled_ne owned g f : settled owned g -> f ∈ usable -> f ∉ owned -> g <> f.
Proof. intros [_ [H|H]] Hu Hn ->; done. Qed.

Record created (s : Phys) (owned : gset Z) (kernel child : Z) (s' : Phys) : Prop := {
  cr_usable : child ∈ usable;
  cr_fresh : child ∉ owned;
  cr_alloc : exists free', alloc_ok s' ({[child]} ∪ owned) free';
  cr_cursor : cursor_ok memory_map s';
  cr_outside : outside child (ram s) (ram s');
  cr_entry i : 0 <= i < 512 -> entry (ram s') child i = entry (ram s) kernel i
}.

Lemma new_sharing_kernel_spec s owned free kernel :
  alloc_ok s owned free -> cursor_ok memory_map s -> settled owned kernel ->
  wpp (new_sharing_kernel memory_map kernel) (created s owned kernel) no (exhausted memory_map) s.
Proof.
  intros O Hc Hk. unfold new_sharing_kernel. eapply wpp_allocate; [done..|].
  intros child s1 free1 Hu Hn Hr Hc1 O1. pose proof (settled_ne _ _ _ Hk Hu Hn) as Hne.
  assert (Hin : child ∈ {[child]} ∪ owned) by set_solver.
  destruct (owned_aligned _ _ _ _ O1 Hin) as [Hal _]. destruct Hk as [Hka _].
  destruct (zero_table_spec s1 child) as (m1 & E1 & Ho1 & _). set (s2 := set_ram m1 s1) in *.
  destruct (copy_frame_spec s2 kernel child Hka Hal Hne) as (m2 & E2 & Ho2 & Hcp).
  apply wpp_wp. unfold wp, pbind. rewrite E1, E2. cbn [pret].
  assert (Ho : outside child (ram s) m2) by (intros a Ha; rewrite Ho2 by done; cbn [ram set_ram s2]; by rewrite Ho1, Hr).
  split; [done|done| |done|done|].
  - exists free1. apply (alloc_outside s2 _ _ child); [|done|done]. by apply (alloc_outside s1 _ _ child).
  - intros i Hi. unfold entry. cbn [ram set_ram]. rewrite Hcp by done. cbn [ram set_ram s2]. rewrite <- Hr.
    apply (outside_same child kernel (ram s1) m1); [done..|lia].
Qed.
End Spec.
