(* ===== verification/ForkSpace.v ===== *)
(** * Copying an address space

    What the page-table crate promises of [map_to], and the proof that
    [fork_from] gives the child a copy of the parent's pages in frames of its
    own. *)

From stdpp Require Import base numbers list gmap.
From Stdlib Require Import ZArith Lia.
From S2P Require Import Prelude Frame PageTable AddrSpace.
#[local] Open Scope Z_scope.

(** The frames below a slot of a root. *)
Definition slot_tree (m : gmap Z Z) (root i : Z) : list Z :=
  if e_present (entry m root i) then slot_frames m root i else [].

(** A slot of a root is empty, or the tree of a user's pages. *)
Definition slot_good (m : gmap Z Z) (root i : Z) : Prop :=
  if e_present (entry m root i) then e_good (entry m root i) /\ tree_good 3 m (e_addr (entry m root i))
  else entry m root i = 0.

(** The result of a mapping: the tables [new] and the page are added to the tree
    of the slot, and no other page changes. *)
Record mapped_in (memory_map : list MemoryRegion) (s : Phys) (owned : gset Z) (root page frame : Z) (new : list Z) (s' : Phys) :
    Prop := {
  mi_fresh g : g ∈ new -> g ∉ owned;
  mi_nodup : NoDup new;
  mi_alloc : exists free, alloc_ok memory_map s' (list_to_set new ∪ owned) free;
  mi_cursor : cursor_ok memory_map s';
  mi_present : e_present (entry (ram s') root (va_index 3 page)) = true;
  mi_good : slot_good (ram s') root (va_index 3 page);
  mi_frames : slot_tree (ram s') root (va_index 3 page) ≡ₚ (frame :: new) ++ slot_tree (ram s) root (va_index 3 page);
  mi_walk va : 0 <= va < 2 ^ 48 -> va_index 3 va = va_index 3 page ->
    walk 4 (ram s') root va = if decide (va / 4096 = page / 4096) then Some (frame, true, true) else walk 4 (ram s) root va;
  mi_slots j : 0 <= j < 512 -> j <> va_index 3 page -> entry (ram s') root j = entry (ram s) root j;
  mi_same g : g mod 4096 = 0 -> g <> root -> g ∉ new -> g ∉ slot_tree (ram s) root (va_index 3 page) ->
    same_frame (ram s) (ram s') g;
  mi_pages va g u w : va_index 3 va = va_index 3 page -> walk 4 (ram s) root va = Some (g, u, w) ->
    same_frame (ram s) (ram s') g
}.

(** [map_to] of a page that is not mapped: it succeeds, or the frames for the
    tables run out. *)
Class OffsetPageTableLaws {OPT : OffsetPageTable} (memory_map : list MemoryRegion) : Prop := {
  map_to_law s owned free root page frame :
    alloc_ok memory_map s owned free -> cursor_ok memory_map s ->
    root ∈ owned -> frame ∈ owned -> frame <> root ->
    NoDup (slot_tree (ram s) root (va_index 3 page)) ->
    (forall g, g ∈ slot_tree (ram s) root (va_index 3 page) -> g ∈ owned /\ g <> root /\ g <> frame) ->
    slot_good (ram s) root (va_index 3 page) ->
    page mod 4096 = 0 -> 0 <= page < 2 ^ 47 -> walk 4 (ram s) root page = None ->
    wp (map_to memory_map root page frame USER_FLAGS)
      (fun _ s' => exists new, mapped_in memory_map s owned root page frame new s')
      (fun _ s' => exhausted memory_map s') s
}.

Section Fork.
Context {OPT : OffsetPageTable} (memory_map : list MemoryRegion) (MO : map_ok memory_map).
Context {L : OffsetPageTableLaws memory_map}.
#[local] Abbreviation alloc_ok := (alloc_ok memory_map).
#[local] Abbreviation usable := (usable_frames memory_map).

(** The state before the copy, and the roots. *)
Context (m0 : gmap Z Z) (owned0 : gset Z) (parent kernel child : Z).

(** What the parent and the kernel must be: the parent's private slots are the
    kernel's empty ones. *)
Record forkable : Prop := {
  fk_space : space_ok m0 owned0 parent kernel;
  fk_kernel : settled memory_map owned0 kernel;
  fk_apart : kernel ∉ space_frames m0 parent kernel;
  fk_empty i : 0 <= i < 512 -> e_present (entry m0 kernel i) = false -> entry m0 kernel i = 0;
  fk_shared i : 0 <= i < 512 -> e_present (entry m0 kernel i) = true -> private m0 parent kernel i = false;
}.

(** The child has a copy of the parent's pages in [P], and nothing else of its
    own. *)
Record copying (P : Z -> Prop) (s : Phys) (owned : gset Z) : Prop := {
  cp_alloc : exists free, alloc_ok s owned free;
  cp_cursor : cursor_ok memory_map s;
  cp_old g : g ∈ owned0 -> g ∈ owned;
  cp_same g : settled memory_map owned0 g -> same_frame m0 (ram s) g;
  cp_space : space_ok (ram s) owned child kernel;
  cp_fresh g : g ∈ space_frames (ram s) child kernel -> g ∉ owned0;
  cp_kernel i : 0 <= i < 512 -> e_present (entry m0 kernel i) = true -> entry (ram s) child i = entry m0 kernel i;
  cp_empty i : 0 <= i < 512 -> e_present (entry (ram s) child i) = false -> entry (ram s) child i = 0;
  cp_walk va : 0 <= va < 2 ^ 48 -> e_present (entry m0 kernel (va_index 3 va)) = false ->
    (P (va / 4096) -> exists f u w f', walk 4 m0 parent va = Some (f, u, w) /\
       walk 4 (ram s) child va = Some (f', true, true) /\ copied m0 f (ram s) f') /\
    (~ P (va / 4096) -> walk 4 (ram s) child va = None)
}.

(** ** The child during the copy *)

(** The kernel's table is as it was, and the child has its entries. *)
Definition based (m : gmap Z Z) : Prop :=
  forall i, 0 <= i < 512 -> entry m kernel i = entry m0 kernel i /\
    (e_present (entry m0 kernel i) = true -> entry m child i = entry m0 kernel i).

Lemma copying_based P s owned : forkable -> copying P s owned -> based (ram s).
Proof.
  intros FK C i Hi. split; [|by apply (cp_kernel _ _ _ C)]. apply entry_same; [|done]. apply (cp_same _ _ _ C), (fk_kernel FK).
Qed.

(** The private slots of the child are the present ones the kernel does not have. *)
Lemma child_private m i :
  based m -> 0 <= i < 512 ->
  private m child kernel i = if e_present (entry m0 kernel i) then false else e_present (entry m child i).
Proof.
  intros B Hi. destruct (B i Hi) as [Bk Bc]. unfold private, shared. rewrite Bk.
  destruct (e_present (entry m0 kernel i)) eqn:Hk; cbn [andb negb]; [|apply andb_true_r].
  rewrite (Bc eq_refl), Z.eqb_refl. apply andb_false_r.
Qed.

Definition own_slot (m : gmap Z Z) (i : Z) : list Z := if e_present (entry m0 kernel i) then [] else slot_tree m child i.

Lemma child_frames m : based m -> space_frames m child kernel = (seqZ 0 512 ≫= own_slot m) ++ [child].
Proof.
  intros B. unfold space_frames. f_equal. apply bind_ext_in. intros i Hi%elem_of_seqZ.
  rewrite (child_private m i B) by lia. unfold own_slot, slot_tree. by destruct (e_present (entry m0 kernel i)).
Qed.

Lemma own_slot_in m i g : 0 <= i < 512 -> g ∈ own_slot m i -> g ∈ seqZ 0 512 ≫= own_slot m.
Proof. intros Hi Hg. apply list_elem_of_bind. exists i. split; [done|]. apply elem_of_seqZ. lia. Qed.

(** The frames of a slot of the child are its own. *)
Lemma own_slot_facts P s owned i :
  forkable -> copying P s owned -> 0 <= i < 512 -> e_present (entry m0 kernel i) = false ->
  NoDup (slot_tree (ram s) child i) /\ slot_good (ram s) child i /\
  (forall g, g ∈ slot_tree (ram s) child i -> g ∈ space_frames (ram s) child kernel /\ g ∈ owned /\ g <> child /\ g ∉ owned0) /\
  (forall j g, 0 <= j < 512 -> j <> i -> g ∈ slot_tree (ram s) child i -> g ∉ own_slot (ram s) j).
Proof.
  intros FK C Hi Hk. pose proof (cp_space _ _ _ C) as [Hnd Hown Hgood]. pose proof (cp_fresh _ _ _ C) as Hfr.
  rewrite (child_frames _ (copying_based _ _ _ FK C)) in Hnd, Hown, Hfr |- *. apply NoDup_app in Hnd as (Hnd & Hnr & _).
  apply NoDup_bind_inv in Hnd as [Hn1 Hn2].
  assert (Ho : own_slot (ram s) i = slot_tree (ram s) child i) by (unfold own_slot; by rewrite Hk).
  split_and!.
  - rewrite <- Ho. apply Hn1. apply elem_of_seqZ. lia.
  - unfold slot_good. destruct (e_present (entry (ram s) child i)) eqn:Hp; [|by apply (cp_empty _ _ _ C)].
    destruct (Hgood i Hi) as (G1 & G2 & _); [|done]. rewrite (child_private _ i (copying_based _ _ _ FK C) Hi). by rewrite Hk.
  - intros g Hg. rewrite <- Ho in Hg. assert (Hin : g ∈ (seqZ 0 512 ≫= own_slot (ram s)) ++ [child]).
    { apply elem_of_app. left. by eapply own_slot_in. }
    split_and!; [done|by apply Hown| |by apply Hfr]. intros ->. apply (Hnr child); [by eapply own_slot_in|by left].
  - intros j g Hj Hne Hg. rewrite <- Ho in Hg.
    apply (Hn2 (Z.to_nat i) (Z.to_nat j) i j g); [apply lookup_seqZ; lia|apply lookup_seqZ; lia|lia|done].
Qed.

(** A slot depends on its entry and its frames. *)
Lemma slot_local m m' root i :
  entry m' root i = entry m root i -> (forall g, g ∈ slot_tree m root i -> same_frame m m' g) ->
  slot_tree m' root i = slot_tree m root i /\ (slot_good m root i -> slot_good m' root i) /\
  (forall va, va_index 3 va = i -> walk 4 m' root va = walk 4 m root va).
Proof.
  intros He Hs. unfold slot_tree, slot_good, slot_frames in *. rewrite He.
  destruct (e_present (entry m root i)) eqn:Hp.
  - destruct (tree_local 3 m m' (e_addr (entry m root i)) Hs) as (T1 & T2 & T3). split_and!; [done| |].
    + intros [G1 G2]. split; [done|by apply T2].
    + intros va Hv. rewrite !walk_S, Hv, He. cbn zeta. by rewrite Hp, T3.
  - split_and!; [done|done|]. intros va Hv. rewrite !walk_S, Hv, He. cbn zeta. by rewrite Hp.
Qed.

(** A page of a slot is one of its frames. *)
Lemma walk_slot m root va g u w : walk 4 m root va = Some (g, u, w) -> g ∈ slot_tree m root (va_index 3 va).
Proof.
  rewrite walk_S. cbn zeta. unfold slot_tree, slot_frames. destruct (e_present _); [|done].
  destruct (walk 3 _ _ va) as [[[g' u'] w']|] eqn:Ew; [|done]. intros [= -> _ _]. by eapply walk_in_tree.
Qed.

Section Step.
Context (FK : forkable) (P : Z -> Prop) (s : Phys) (owned : gset Z) (C : copying P s owned).
Context (page frame : Z) (new : list Z) (s' : Phys) (M : mapped_in memory_map s owned child page frame new s').
#[local] Abbreviation i := (va_index 3 page).
Context (Ki : e_present (entry m0 kernel i) = false).

Lemma owned_usable g : g ∈ owned -> g ∈ usable /\ g mod 4096 = 0.
Proof.
  intros Hg. destruct (cp_alloc _ _ _ C) as [free O]. split; [|by eapply owned_aligned].
  eapply handed_usable. by apply (ok_owned _ _ _ _ O).
Qed.

Lemma step_settled g : settled memory_map owned0 g -> same_frame (ram s) (ram s') g.
Proof.
  intros [Ha Hs]. pose proof (own_slot_facts P s owned i FK C (va_index_bound _ _) Ki) as (_ & _ & Hf & _).
  assert (Hown : forall x, x ∈ owned -> x ∉ owned0 -> g <> x).
  { intros x Hx Hn ->. destruct Hs as [|Hs]; [done|]. by apply Hs, owned_usable. }
  destruct (mi_alloc _ _ _ _ _ _ _ _ M) as [free O'].
  apply (mi_same _ _ _ _ _ _ _ _ M); [done| | |].
  - apply Hown; [apply (sp_owned _ _ _ _ (cp_space _ _ _ C)), space_root|apply (cp_fresh _ _ _ C), space_root].
  - intros Hin. pose proof (mi_fresh _ _ _ _ _ _ _ _ M g Hin) as Hn. destruct Hs as [Hs|Hs]; [by apply Hn, (cp_old _ _ _ C)|].
    apply Hs. eapply handed_usable. apply (ok_owned _ _ _ _ O'). set_solver.
  - intros Hin. destruct (Hf g Hin) as (_ & Ho & _ & Hn). by apply (Hown g).
Qed.

Lemma step_other j :
  0 <= j < 512 -> j <> i -> e_present (entry m0 kernel j) = false ->
  (forall g, g ∈ slot_tree (ram s) child j -> same_frame (ram s) (ram s') g) /\
  slot_tree (ram s') child j = slot_tree (ram s) child j /\ slot_good (ram s') child j /\
  (forall va, va_index 3 va = j -> walk 4 (ram s') child va = walk 4 (ram s) child va).
Proof.
  intros Hj Hne Hk. pose proof (own_slot_facts P s owned j FK C Hj Hk) as (_ & Hgood & Hf & Hd).
  assert (Hsame : forall g, g ∈ slot_tree (ram s) child j -> same_frame (ram s) (ram s') g).
  { intros g Hg. destruct (Hf g Hg) as (_ & Ho & Hc & _). apply (mi_same _ _ _ _ _ _ _ _ M); [by apply owned_usable|done| |].
    - intros Hin. by apply (mi_fresh _ _ _ _ _ _ _ _ M g Hin).
    - specialize (Hd i g (va_index_bound _ _) ltac:(congruence) Hg). unfold own_slot in Hd. by rewrite Ki in Hd. }
  destruct (slot_local (ram s) (ram s') child j) as (L1 & L2 & L3); [by apply (mi_slots _ _ _ _ _ _ _ _ M)|done|].
  split_and!; [done|done|by apply L2|done].
Qed.

Lemma step_based : based (ram s').
Proof.
  intros j Hj. destruct (copying_based _ _ _ FK C j Hj) as [B1 B2]. split.
  - rewrite <- B1. apply entry_same; [|done]. apply step_settled, (fk_kernel FK).
  - intros Hk. rewrite (mi_slots _ _ _ _ _ _ _ _ M); [by apply B2|done|]. intros ->. congruence.
Qed.

Lemma step_frames : space_frames (ram s') child kernel ≡ₚ (frame :: new) ++ space_frames (ram s) child kernel.
Proof.
  rewrite (child_frames _ step_based), (child_frames _ (copying_based _ _ _ FK C)), app_assoc. f_equiv.
  apply (bind_update_perm _ _ _ i); [apply NoDup_seqZ|apply elem_of_seqZ; pose proof (va_index_bound 3 page); lia| |].
  - intros j Hj%elem_of_seqZ Hne. unfold own_slot. destruct (e_present (entry m0 kernel j)) eqn:Hk; [done|].
    apply step_other; [lia|done|done].
  - unfold own_slot. rewrite Ki. apply (mi_frames _ _ _ _ _ _ _ _ M).
Qed.

Context (Fo : frame ∈ owned) (Fn : frame ∉ owned0) (Fs : frame ∉ space_frames (ram s) child kernel).
Context (Hpage : 0 <= page < 2 ^ 47).

Lemma index_low : i < 256.
Proof.
  unfold va_index. change (2 ^ (12 + 9 * Z.of_nat 3)) with (2 ^ 39). rewrite Z.mod_small.
  - apply Z.div_lt_upper_bound; lia.
  - split; [apply Z.div_pos; lia|]. apply Z.div_lt_upper_bound; lia.
Qed.

Lemma step_space : space_ok (ram s') (list_to_set new ∪ owned) child kernel.
Proof.
  pose proof (cp_space _ _ _ C) as [Hnd Hown Hgood]. split.
  - rewrite step_frames. apply NoDup_app. split_and!; [| |done].
    + apply NoDup_cons. split; [|apply (mi_nodup _ _ _ _ _ _ _ _ M)]. intros Hin. by apply (mi_fresh _ _ _ _ _ _ _ _ M frame Hin).
    + intros g [->|Hg]%elem_of_cons; [done|]. intros Hin%Hown. by apply (mi_fresh _ _ _ _ _ _ _ _ M g Hg).
  - intros g. rewrite step_frames. intros [[->|Hg]%elem_of_cons|Hg%Hown]%elem_of_app; set_solver.
  - intros j Hj. rewrite (child_private _ j step_based Hj). destruct (e_present (entry m0 kernel j)) eqn:Hk; [done|]. intros Hp.
    destruct (decide (j = i)) as [->|Hne].
    + pose proof (mi_good _ _ _ _ _ _ _ _ M) as G. unfold slot_good in G. rewrite Hp in G. destruct G. split_and!; [done..|apply index_low].
    + destruct (step_other j Hj Hne Hk) as (_ & _ & G & _). unfold slot_good in G. rewrite Hp in G. destruct G as [G1 G2].
      split_and!; [done..|]. apply (Hgood j Hj). rewrite (child_private _ j (copying_based _ _ _ FK C) Hj), Hk.
      by rewrite <- (mi_slots _ _ _ _ _ _ _ _ M j Hj Hne).
Qed.

Context (f : Z) (u w : bool) (Wp : walk 4 m0 parent page = Some (f, u, w)) (Hcp : copied m0 f (ram s) frame).
Context (Hnew : ~ P (page / 4096)).

Lemma frame_kept : same_frame (ram s) (ram s') frame.
Proof.
  pose proof (own_slot_facts P s owned i FK C (va_index_bound _ _) Ki) as (_ & _ & Hf & _).
  apply (mi_same _ _ _ _ _ _ _ _ M); [by apply owned_usable| | |].
  - intros ->. by apply Fs, space_root.
  - intros Hin. by apply (mi_fresh _ _ _ _ _ _ _ _ M frame Hin).
  - intros Hin. by apply Fs, Hf.
Qed.

Lemma copied_same x y : copied m0 x (ram s) y -> same_frame (ram s) (ram s') y -> copied m0 x (ram s') y.
Proof. intros H1 H2 k Hk. rewrite H2 by lia. by apply H1. Qed.

Lemma step_walk va :
  0 <= va < 2 ^ 48 -> e_present (entry m0 kernel (va_index 3 va)) = false ->
  (va / 4096 = page / 4096 \/ P (va / 4096) -> exists f u w f', walk 4 m0 parent va = Some (f, u, w) /\
     walk 4 (ram s') child va = Some (f', true, true) /\ copied m0 f (ram s') f') /\
  (~ (va / 4096 = page / 4096 \/ P (va / 4096)) -> walk 4 (ram s') child va = None).
Proof.
  intros Hva Hk. destruct (cp_walk _ _ _ C va Hva Hk) as [W1 W2].
  destruct (decide (va / 4096 = page / 4096)) as [He|Hne].
  - split; [intros _|tauto]. exists f, u, w, frame. rewrite (walk_page 4 m0 parent va page He). split_and!; [done| |].
    + rewrite (mi_walk _ _ _ _ _ _ _ _ M va Hva (va_index_page 3 va page He)). by rewrite decide_True.
    + by apply copied_same, frame_kept.
  - assert (Hw : walk 4 (ram s') child va = walk 4 (ram s) child va /\
      forall g u w, walk 4 (ram s) child va = Some (g, u, w) -> same_frame (ram s) (ram s') g).
    { destruct (decide (va_index 3 va = i)) as [Hi|Hi].
      - split; [by rewrite (mi_walk _ _ _ _ _ _ _ _ M va Hva Hi), decide_False|].
        intros g u' w'. by apply (mi_pages _ _ _ _ _ _ _ _ M).
      - destruct (step_other (va_index 3 va) (va_index_bound _ _) Hi Hk) as (S1 & _ & _ & S4).
        split; [by apply S4|]. intros g u' w' Hg. eapply S1, walk_slot, Hg. }
    destruct Hw as [-> Hs]. split; [|intros H; apply W2; tauto]. intros [|HP]; [done|].
    destruct (W1 HP) as (x & u' & w' & x' & E1 & E2 & E3). exists x, u', w', x'. split_and!; [done..|].
    apply copied_same; [done|]. by eapply Hs.
Qed.

Lemma copying_map : copying (fun p => p = page / 4096 \/ P p) s' (list_to_set new ∪ owned).
Proof.
  split.
  - apply (mi_alloc _ _ _ _ _ _ _ _ M).
  - apply (mi_cursor _ _ _ _ _ _ _ _ M).
  - intros g Hg%(cp_old _ _ _ C). set_solver.
  - intros g Hg a Ha. rewrite (step_settled g Hg a Ha). by apply (cp_same _ _ _ C g Hg).
  - apply step_space.
  - intros g. rewrite step_frames. intros [[->|Hg]%elem_of_cons|Hg]%elem_of_app; [done| |by apply (cp_fresh _ _ _ C)].
    intros Hin%(cp_old _ _ _ C). by apply (mi_fresh _ _ _ _ _ _ _ _ M g Hg).
  - intros j Hj. by apply step_based.
  - intros j Hj Hp. destruct (decide (j = i)) as [->|Hne]; [by rewrite (mi_present _ _ _ _ _ _ _ _ M) in Hp|].
    rewrite (mi_slots _ _ _ _ _ _ _ _ M j Hj Hne) in *. by apply (cp_empty _ _ _ C).
  - apply step_walk.
Qed.
End Step.

Lemma copying_ext (P P' : Z -> Prop) s owned : (forall p, P p <-> P' p) -> copying P s owned -> copying P' s owned.
Proof.
  intros H [C1 C2 C3 C4 C5 C6 C7 C8 C9]. split; try done. intros va Hva Hk. destruct (C9 va Hva Hk) as [W1 W2].
  split; [by rewrite <- H|by rewrite <- H].
Qed.

(** Every frame in use was so before, or is the child's. *)
Definition exact (s : Phys) (owned : gset Z) : Prop :=
  forall g, g ∈ owned -> g ∈ owned0 \/ g ∈ space_frames (ram s) child kernel.

(** The copy depends on the child's frames and the old ones. *)
Lemma copying_local P s owned s' owned' :
  forkable -> copying P s owned ->
  (forall g, g ∈ space_frames (ram s) child kernel -> same_frame (ram s) (ram s') g) ->
  (forall g, settled memory_map owned0 g -> same_frame (ram s) (ram s') g) ->
  (forall g, g ∈ owned -> g ∈ owned') -> (exists free, alloc_ok s' owned' free) -> cursor_ok memory_map s' ->
  copying P s' owned' /\ space_frames (ram s') child kernel = space_frames (ram s) child kernel.
Proof.
  intros FK C Hs Hset Hsub HA Hc. pose proof (copying_based _ _ _ FK C) as B.
  assert (He : forall j, 0 <= j < 512 -> entry (ram s') child j = entry (ram s) child j).
  { intros j Hj. apply entry_same; [|done]. apply Hs, space_root. }
  assert (B' : based (ram s')).
  { intros j Hj. destruct (B j Hj) as [B1 B2]. rewrite He by done. split; [|done].
    rewrite <- B1. apply entry_same; [|done]. apply Hset, (fk_kernel FK). }
  assert (Hslot : forall j, 0 <= j < 512 -> e_present (entry m0 kernel j) = false ->
    slot_tree (ram s') child j = slot_tree (ram s) child j /\ slot_good (ram s') child j /\
    (forall va, va_index 3 va = j -> walk 4 (ram s') child va = walk 4 (ram s) child va)).
  { intros j Hj Hk. destruct (own_slot_facts P s owned j FK C Hj Hk) as (_ & G & Hf & _).
    destruct (slot_local (ram s) (ram s') child j (He j Hj)) as (L1 & L2 & L3); [intros g Hg; by apply Hs, Hf|]. auto. }
  assert (Hfr : space_frames (ram s') child kernel = space_frames (ram s) child kernel).
  { rewrite (child_frames _ B'), (child_frames _ B). f_equal. apply bind_ext_in. intros j Hj%elem_of_seqZ. unfold own_slot.
    destruct (e_present (entry m0 kernel j)) eqn:Hk; [done|]. apply Hslot; [lia|done]. }
  split; [|done]. pose proof (cp_space _ _ _ C) as [Hnd Hown Hgood]. split; [done|done| | | | | | |].
  - intros g Hg. by apply Hsub, (cp_old _ _ _ C).
  - intros g Hg a Ha. rewrite (Hset g Hg a Ha). by apply (cp_same _ _ _ C g Hg).
  - split; [by rewrite Hfr|rewrite Hfr; auto|]. intros j Hj. rewrite (child_private _ j B' Hj).
    destruct (e_present (entry m0 kernel j)) eqn:Hk; [done|]. intros Hp.
    destruct (Hslot j Hj Hk) as (_ & G & _). unfold slot_good in G. rewrite Hp in G. destruct G as [G1 G2].
    split_and!; [done..|]. apply (Hgood j Hj). rewrite (child_private _ j B Hj), Hk. by rewrite <- He.
  - rewrite Hfr. apply (cp_fresh _ _ _ C).
  - intros j Hj. by apply B'.
  - intros j Hj. rewrite He by done. by apply (cp_empty _ _ _ C).
  - intros va Hva Hk. destruct (cp_walk _ _ _ C va Hva Hk) as [W1 W2].
    destruct (Hslot _ (va_index_bound 3 va) Hk) as (_ & _ & Hw). rewrite (Hw va eq_refl). split; [|done].
    intros HP. destruct (W1 HP) as (x & u' & w' & x' & E1 & E2 & E3). exists x, u', w', x'. split_and!; [done..|].
    intros k Hk'. rewrite <- E3 by done. apply (Hs x'); [|lia].
    by eapply (own_slot_facts P s owned _ FK C (va_index_bound 3 va) Hk), walk_slot.
Qed.

Lemma containing_aligned a : a mod 4096 = 0 -> containing_address a = a.
Proof. intros H. unfold containing_address. lia. Qed.

(** A fresh frame is filled with the contents of an old one. *)
Lemma copy_page_spec {A} (k : Z -> prog Phys Empty_set A) (Q : A -> Phys -> Prop) P s owned f :
  forkable -> copying P s owned -> settled memory_map owned0 f ->
  (forall leaf s2, copying P s2 ({[leaf]} ∪ owned) -> leaf ∉ owned -> copied m0 f (ram s2) leaf ->
     space_frames (ram s2) child kernel = space_frames (ram s) child kernel -> wpp (k leaf) Q no (exhausted memory_map) s2) ->
  wpp (let! o := allocate_frame memory_map in let! leaf := punwrap o in copy_frame f leaf ;;! k leaf)
    Q no (exhausted memory_map) s.
Proof.
  intros FK C Hf Hkont. destruct (cp_alloc _ _ _ C) as [free O].
  eapply wpp_allocate; [exact MO|exact O|apply (cp_cursor _ _ _ C)|].
  intros leaf s1 free1 Hu Hn Hr Hc1 O1. assert (Hin : leaf ∈ {[leaf]} ∪ owned) by by apply elem_of_union_l, elem_of_singleton.
  destruct (owned_aligned _ MO _ _ _ _ O1 Hin) as [Hla _].
  assert (Hn0 : leaf ∉ owned0) by (intros H; by apply Hn, (cp_old _ _ _ C)).
  assert (Hne : f <> leaf) by by eapply settled_ne.
  destruct (copy_frame_spec s1 f leaf (proj1 Hf) Hla Hne) as (m2 & E2 & Ho2 & Hcp). set (s2 := set_ram m2 s1) in *.
  apply wpp_bind, wpp_wp. unfold wp. rewrite E2. fold s2. rewrite Hr in Ho2, Hcp.
  destruct (copying_local P s owned s2 ({[leaf]} ∪ owned) FK C) as [C2 Hfr2].
  - intros g Hg%(sp_owned _ _ _ _ (cp_space _ _ _ C)). apply (outside_same leaf g (ram s) m2); [exact Hla| | |exact Ho2].
    + by eapply (owned_aligned _ MO _ _ _ _ O).
    + intros ->. exact (Hn Hg).
  - intros g Hg. apply (outside_same leaf g (ram s) m2); [exact Hla|apply Hg| |exact Ho2]. by eapply settled_ne.
  - intros g Hg. by apply elem_of_union_r.
  - exists free1. apply (alloc_outside _ MO s1 _ _ leaf); [done|done|]. by rewrite Hr.
  - done.
  - apply Hkont; [exact C2|exact Hn| |exact Hfr2]. intros i Hi. cbn [ram set_ram s2]. rewrite Hcp by done.
    apply (cp_same _ _ _ C _ Hf). lia.
Qed.

(** The filled frame is mapped. *)
Lemma map_page_spec P s owned leaf va f u w :
  forkable -> copying P s owned -> leaf ∈ owned -> leaf ∉ owned0 -> leaf ∉ space_frames (ram s) child kernel ->
  copied m0 f (ram s) leaf -> 0 <= va < 2 ^ 47 -> va mod 4096 = 0 -> e_present (entry m0 kernel (va_index 3 va)) = false ->
  walk 4 m0 parent va = Some (f, u, w) -> ~ P (va / 4096) ->
  wpp (let! r := ptry (map_to memory_map child va leaf USER_FLAGS) in match r with inl _ => pret tt | inr _ => ppanic end)
    (fun _ s' => exists new, copying (fun p => p = va / 4096 \/ P p) s' (list_to_set new ∪ owned) /\
       space_frames (ram s') child kernel ≡ₚ (leaf :: new) ++ space_frames (ram s) child kernel) no (exhausted memory_map) s.
Proof.
  intros FK C Ho Hn0 Hns Hcp Hva Hal Hk Hw HP. destruct (cp_alloc _ _ _ C) as [free O].
  destruct (own_slot_facts P s owned _ FK C (va_index_bound 3 va) Hk) as (Hnd & Hgood & Hf & _).
  assert (Hm : wp (map_to memory_map child va leaf USER_FLAGS)
    (fun _ s' => exists new, mapped_in memory_map s owned child va leaf new s') (fun _ s' => exhausted memory_map s') s).
  { apply (map_to_law s owned free); [exact O|apply (cp_cursor _ _ _ C)| |exact Ho| |exact Hnd| |exact Hgood|done|done|].
    - apply (sp_owned _ _ _ _ (cp_space _ _ _ C)), space_root.
    - intros ->. apply Hns, space_root.
    - intros g Hg. destruct (Hf g Hg) as (H1 & H2 & H3 & _). split_and!; [exact H2|exact H3|]. intros ->. exact (Hns H1).
    - apply (cp_walk _ _ _ C va); [lia|done|done]. }
  apply wpp_bind. unfold wpp at 1, ptry. unfold wp in Hm.
  destruct (map_to memory_map child va leaf USER_FLAGS s) as [[[]|[]| |] s']; [| |done|done].
  - destruct Hm as [new M]. apply wpp_wp, wp_ret. exists new. split.
    + eapply (copying_map FK P s owned C va leaf new s' M Hk); done || exact Hns || exact Hcp.
    + exact (step_frames FK P s owned C va leaf new s' M Hk).
  - exact Hm.
Qed.

(** One page is copied. *)
Lemma copy_leaf_spec P s owned e va u w :
  forkable -> copying P s owned -> exact s owned -> e_good e -> settled memory_map owned0 (e_addr e) ->
  0 <= va < 2 ^ 47 -> va mod 4096 = 0 -> e_present (entry m0 kernel (va_index 3 va)) = false ->
  walk 4 m0 parent va = Some (e_addr e, u, w) -> ~ P (va / 4096) ->
  wpp (copy_leaf memory_map child e va)
    (fun _ s' => exists owned', copying (fun p => p = va / 4096 \/ P p) s' owned' /\ exact s' owned') no (exhausted memory_map) s.
Proof.
  intros FK C X Ge Hf Hva Hal Hk Hw HP. unfold copy_leaf. rewrite (e_frame_good e Ge).
  eapply copy_page_spec; [exact FK|exact C|exact Hf|]. intros leaf s2 C2 Hn Hcp Hfr.
  apply wpp_bind, wpp_wp. unfold VirtAddr_new. apply wp_bind, wp_assert; [by rewrite (proj2 (Z.ltb_lt va _)) by lia|].
  apply wp_ret. rewrite (containing_aligned va Hal).
  eapply wpp_mono; [eapply (map_page_spec P s2 ({[leaf]} ∪ owned) leaf va (e_addr e) u w FK C2)| |done|done].
  - by apply elem_of_union_l, elem_of_singleton.
  - intros H. by apply Hn, (cp_old _ _ _ C).
  - rewrite Hfr. intros H. apply Hn, (sp_owned _ _ _ _ (cp_space _ _ _ C)), H.
  - exact Hcp.
  - exact Hva.
  - exact Hal.
  - exact Hk.
  - exact Hw.
  - exact HP.
  - intros _ s' (new & C' & Hp). eexists. split; [exact C'|]. intros g.
    rewrite Hp, Hfr. intros [Hg%elem_of_list_to_set|[->%elem_of_singleton|Hg]%elem_of_union]%elem_of_union.
    + right. apply elem_of_app. left. by right.
    + right. apply elem_of_app. left. by left.
    + destruct (X g Hg) as [|H]; [by left|]. right. apply elem_of_app. by right.
Qed.

(** ** Copying a tree *)

(** The addresses a table of level [n] translates. *)
Definition span (n : nat) : Z := 2 ^ (12 + 9 * Z.of_nat n).

Lemma span_S n : span (S n) = 512 * span n.
Proof. unfold span. rewrite <- (Z.pow_add_r 2 9) by lia. f_equal. lia. Qed.

Lemma span_pos n : 0 < span n.
Proof. unfold span. apply Z.pow_pos_nonneg; lia. Qed.

Lemma span_page n : exists k, 0 < k /\ span n = 4096 * k.
Proof.
  exists (2 ^ (9 * Z.of_nat n)). split; [apply Z.pow_pos_nonneg; lia|]. unfold span.
  rewrite Z.pow_add_r by lia. done.
Qed.

Lemma va_index_in n base i va :
  base mod span (S n) = 0 -> 0 <= i < 512 -> base + i * span n <= va < base + (i + 1) * span n -> va_index n va = i.
Proof.
  intros Hb Hi Hva. pose proof (span_pos n) as Hp. unfold va_index. fold (span n). rewrite span_S in Hb.
  assert (Hd : va / span n = base / (512 * span n) * 512 + i).
  { symmetry. apply (Z.div_unique va (span n) _ (va - base - i * span n)); [lia|].
    pose proof (Z.div_mod base (512 * span n) ltac:(lia)). nia. }
  rewrite Hd, Z.add_comm, Z.mod_add, Z.mod_small by lia. done.
Qed.

(** A tree of the parent at a base address. *)
Record source (n : nat) (f base : Z) : Prop := {
  so_base : base mod span n = 0 /\ 0 <= base /\ base + span n <= 2 ^ 47;
  so_kernel va : base <= va < base + span n -> e_present (entry m0 kernel (va_index 3 va)) = false;
  so_good : tree_good n m0 f;
  so_settled g : g ∈ tree_frames n m0 f -> settled memory_map owned0 g;
  so_walk va g u w : base <= va < base + span n -> walk n m0 f va = Some (g, u, w) ->
    exists u' w', walk 4 m0 parent va = Some (g, u', w')
}.

Lemma source_child n f base i :
  source (S n) f base -> 0 <= i < 512 -> e_present (entry m0 f i) = true ->
  e_good (entry m0 f i) /\ source n (e_addr (entry m0 f i)) (base + i * span n).
Proof.
  intros [(B1 & B2 & B3) K G S W] Hi Hp. pose proof (span_pos n) as Hs.
  pose proof (G i Hi) as Gi. cbn zeta in Gi. rewrite Hp in Gi. destruct Gi as [Ge Gt]. split; [done|].
  assert (Hsub : forall va, base + i * span n <= va < base + i * span n + span n -> base <= va < base + span (Datatypes.S n)).
  { intros va Hva. rewrite span_S. nia. }
  split.
  - rewrite span_S in B1, B3. split_and!; [|nia|nia].
    apply Z.mod_divide in B1 as [k Hk]; [|lia]. apply Z.mod_divide; [lia|]. exists (k * 512 + i). lia.
  - intros va Hva. by apply K, Hsub.
  - done.
  - intros g Hg. apply S, elem_of_tree_S. right. by exists i.
  - intros va g u w Hva Hw. apply (W va g (e_user (entry m0 f i) && u) (e_writable (entry m0 f i) && w)); [by apply Hsub|].
    rewrite walk_S, (va_index_in n base i va B1 Hi) by lia. cbn zeta. by rewrite Hp, Hw.
Qed.

Definition in_span (base len p : Z) : Prop := base <= p * 4096 < base + len.

(** A program that copies the tree of an entry. *)
Definition copies (n : nat) (m : Z -> Z -> prog Phys Empty_set unit) : Prop :=
  forall P s owned e base,
    copying P s owned -> exact s owned -> e_good e -> source n (e_addr e) base ->
    (forall p, in_span base (span n) p -> ~ P p) ->
    wpp (m e base) (fun _ s' => exists owned',
        copying (fun p => P p \/ in_span base (span n) p /\ is_Some (walk n m0 (e_addr e) (p * 4096))) s' owned' /\ exact s' owned')
      no (exhausted memory_map) s.

Lemma copies_leaf : forkable -> copies 0 (copy_leaf memory_map child).
Proof.
  intros FK P s owned e base C X Ge So HP. destruct So as [(B1 & B2 & B3) K _ S W].
  change (span 0) with 4096 in *. destruct (W base (e_addr e) true true ltac:(lia) eq_refl) as (u & w & Hw).
  assert (Hb : base = base / 4096 * 4096) by (pose proof (Z.div_mod base 4096); lia).
  eapply wpp_mono; [apply (copy_leaf_spec P s owned e base u w FK C X Ge)| |done|done].
  - apply S. by left.
  - lia.
  - done.
  - apply K. lia.
  - exact Hw.
  - apply HP. unfold in_span. lia.
  - intros _ s' (owned' & C' & X'). exists owned'. split; [|done]. eapply copying_ext; [|exact C'].
    intros p. unfold in_span. cbn [walk]. split.
    + intros [->|]; [|by left]. right. split; [lia|by eexists].
    + intros [|[Hp _]]; [by right|]. left. lia.
Qed.

Lemma walk_entry n f base i p :
  base mod span (S n) = 0 -> 0 <= i < 512 -> in_span (base + i * span n) (span n) p ->
  is_Some (walk (S n) m0 f (p * 4096)) <->
  e_present (entry m0 f i) = true /\ is_Some (walk n m0 (e_addr (entry m0 f i)) (p * 4096)).
Proof.
  intros Hb Hi Hp. unfold in_span in Hp. rewrite walk_S, (va_index_in n base i _ Hb Hi) by lia. cbn zeta.
  destruct (e_present (entry m0 f i)); [|split; [intros [? [=]]|by intros [[=] _]]].
  destruct (walk n m0 _ _) as [[[g u] w]|]; split; [|intros _; by eexists|by intros [? [=]]|by intros [_ [? [=]]]].
  intros _. split; [done|by eexists].
Qed.

Lemma va_lor n base i :
  base mod span (S n) = 0 -> 0 <= i < 512 -> Z.lor base (Z.shiftl i (12 + 9 * Z.of_nat n)) = base + i * span n.
Proof.
  intros Hb Hi. rewrite Z.shiftl_mul_pow2 by lia. fold (span n). apply Z.mod_divide in Hb as [k ->]; [|pose proof (span_pos (S n)); lia].
  pose proof (span_pos n). pose proof (lor_shiftl_add k (i * span n) (12 + 9 * Z.of_nat (S n)) ltac:(lia)) as H0.
  rewrite Z.shiftl_mul_pow2 in H0 by lia. apply H0. fold (span (S n)). rewrite span_S. nia.
Qed.

(** The loop over a table of the parent. *)
Lemma copies_table n k P s owned f base :
  forkable -> copies n k -> copying P s owned -> exact s owned -> source (S n) f base ->
  (forall p, in_span base (span (S n)) p -> ~ P p) ->
  wpp (pfold (fun _ i =>
         let! e := read_word (f + 8 * i) in
         if negb (e_present e) then pret tt else k e (Z.lor base (Z.shiftl i (12 + 9 * Z.of_nat n)))) (seqZ 0 512) tt)
    (fun _ s' => exists owned',
        copying (fun p => P p \/ in_span base (span (S n)) p /\ is_Some (walk (S n) m0 f (p * 4096))) s' owned' /\ exact s' owned')
      no (exhausted memory_map) s.
Proof.
  intros FK Hk C X So HP. pose proof (span_pos n) as Hsp. destruct (so_base _ _ _ So) as (B1 & B2 & B3).
  set (P' := fun i p => P p \/ in_span base (i * span n) p /\ is_Some (walk (S n) m0 f (p * 4096))).
  eapply wpp_mono; [apply (wpp_pfold_range _ (fun i _ s' => exists owned', copying (P' i) s' owned' /\ exact s' owned')); [done| |]| |done|done].
  - exists owned. split; [|done]. eapply copying_ext; [|exact C]. unfold P', in_span. intros p. split; [by left|]. intros [|[? _]]; [done|lia].
  - intros i [] s1 Hi (owned1 & C1 & X1). apply wpp_bind, wpp_wp, wp_read_phys.
    assert (He : ram_word (ram s1) (f + 8 * i) = entry m0 f i).
    { apply (cp_same _ _ _ C1 f); [apply (so_settled _ _ _ So), tree_root|lia]. }
    rewrite He, (va_lor n base i B1 ltac:(lia)).
    assert (Hext : forall p, P' (i + 1) p <-> P' i p \/ in_span (base + i * span n) (span n) p /\ is_Some (walk (S n) m0 f (p * 4096))).
    { intros p. unfold P', in_span. split.
      - intros [|[Hp Hw]]; [by left; left|]. destruct (decide (p * 4096 < base + i * span n)); [left; right|right]; (split; [lia|done]).
      - intros [[|[Hp Hw]]|[Hp Hw]]; [by left|right..]; (split; [lia|done]). }
    destruct (e_present (entry m0 f i)) eqn:Hp; cbn [negb].
    2:{ apply wpp_wp, wp_ret. exists owned1. split; [|done]. eapply copying_ext; [|exact C1]. intros p. rewrite Hext. split; [by left|].
        intros [|[Hin Hw]]; [done|]. apply (walk_entry n f base i p B1 ltac:(lia) Hin) in Hw as [? _]. congruence. }
    destruct (source_child n f base i So ltac:(lia) Hp) as [Ge Sc].
    eapply wpp_mono; [apply (Hk (P' i) s1 owned1 _ _ C1 X1 Ge Sc)| |done|done].
    + intros p Hin [HPp|[Hin' _]]; [|unfold in_span in *; lia]. apply (HP p); [|done]. unfold in_span in *. rewrite span_S. nia.
    + intros _ s2 (owned2 & C2 & X2). exists owned2. split; [|done]. eapply copying_ext; [|exact C2]. intros p. rewrite Hext.
      split; intros [|[Hin Hw]]; try (by left); right; (split; [done|]).
      * apply (walk_entry n f base i p B1 ltac:(lia) Hin). done.
      * by apply (walk_entry n f base i p B1 ltac:(lia) Hin) in Hw as [_ ?].
  - intros _ s' (owned' & C' & X'). exists owned'. split; [|done]. unfold P' in C'. rewrite span_S. exact C'.
Qed.

Lemma copies_subtree n : forkable -> copies (S n) (fun e base => copy_subtree memory_map n (e_addr e) base child).
Proof.
  intros FK. induction n as [|n IH]; intros P s owned e base C X _ So HP; cbn [copy_subtree].
  - by apply (copies_table 0 (copy_leaf memory_map child) P s owned); [|apply copies_leaf|..].
  - eapply (copies_table (S n) (fun e va => match e_frame e with
      | Some child_tbl => passert (negb (e_huge e)) ;;! copy_subtree memory_map n child_tbl va child
      | None => pret tt end) P s owned); [done| |done..].
    intros P1 s1 owned1 e1 base1 C1 X1 Ge1 So1 HP1. rewrite (e_frame_good e1 Ge1).
    apply wpp_bind, wpp_wp, wp_assert; [by destruct Ge1 as (_ & -> & _)|]. by eapply IH.
Qed.

(** ** The slots of the parent *)

Lemma private_absent i : forkable -> 0 <= i < 512 -> private m0 parent kernel i = true -> e_present (entry m0 kernel i) = false.
Proof. intros FK Hi Hp. destruct (e_present (entry m0 kernel i)) eqn:Hk; [|done]. by rewrite (fk_shared FK i Hi Hk) in Hp. Qed.

Lemma slot_index i va : 0 <= i < 512 -> i * span 3 <= va < i * span 3 + span 3 -> va_index 3 va = i.
Proof. intros Hi Hva. apply (va_index_in 3 0); [done|done|lia]. Qed.

(** A private slot of the parent is a tree to copy. *)
Lemma source_slot i :
  forkable -> (forall g, g ∈ owned0 -> g mod 4096 = 0) -> 0 <= i < 512 -> private m0 parent kernel i = true ->
  e_good (entry m0 parent i) /\ source 3 (e_addr (entry m0 parent i)) (i * span 3).
Proof.
  intros FK Hal Hi Hp. destruct (sp_good _ _ _ _ (fk_space FK) i Hi Hp) as (Ge & Gt & Hlow).
  split; [done|]. change (span 3) with (2 ^ 39) in *. split; [| |done| |].
  - change (span 3) with (2 ^ 39). split_and!; [apply Z.mod_mul; lia|lia|lia].
  - change (span 3) with (2 ^ 39). intros va Hva. rewrite (slot_index i va Hi) by (change (span 3) with (2 ^ 39); lia).
    by apply private_absent.
  - intros g Hg. assert (Hin : g ∈ owned0).
    { apply (sp_owned _ _ _ _ (fk_space FK)), elem_of_app. left. apply list_elem_of_bind. exists i. rewrite Hp.
      split; [exact Hg|]. apply elem_of_seqZ. lia. }
    split; [by apply Hal|by left].
  - change (span 3) with (2 ^ 39). intros va g u w Hva Hw.
    rewrite walk_S, (slot_index i va Hi) by (change (span 3) with (2 ^ 39); lia). cbn zeta.
    destruct Ge as (-> & _ & -> & ->). rewrite Hw. by eexists _, _.
Qed.

(** The child just created. *)
Lemma copying_created s owned s' :
  m0 = ram s -> owned = owned0 -> forkable -> created memory_map s owned kernel child s' ->
  copying (fun _ => False) s' ({[child]} ∪ owned0) /\ exact s' ({[child]} ∪ owned0).
Proof.
  intros Em -> FK [Cu Cf Ca Cc Co Ce]. rewrite <- Em in *.
  assert (Hal : child mod 4096 = 0) by by apply (usable_bounds _ MO).
  assert (Hset : forall g, settled memory_map owned0 g -> same_frame m0 (ram s') g).
  { intros g Hg. apply (outside_same child g m0 (ram s') Hal (proj1 Hg)); [|done]. by eapply settled_ne. }
  assert (B : based (ram s')).
  { intros i Hi. split; [|intros _; by apply Ce]. apply entry_same; [|done]. apply Hset, (fk_kernel FK). }
  assert (Hfr : space_frames (ram s') child kernel = [child]).
  { rewrite (child_frames _ B). replace (seqZ 0 512 ≫= own_slot (ram s')) with (seqZ 0 512 ≫= (fun _ : Z => @nil Z)).
    - done.
    - apply bind_ext_in. intros i Hi%elem_of_seqZ. unfold own_slot, slot_tree. rewrite Ce by lia.
      by destruct (e_present (entry m0 kernel i)). }
  split; [|intros g [->%elem_of_singleton|Hg]%elem_of_union; [right; rewrite Hfr; by left|by left]].
  split; [done|done| |done| | | | |].
  - intros g Hg. by apply elem_of_union_r.
  - split; [rewrite Hfr; apply NoDup_singleton| |].
    + intros g. rewrite Hfr. intros ->%list_elem_of_singleton. by apply elem_of_union_l, elem_of_singleton.
    + intros i Hi. rewrite (child_private _ i B Hi), Ce by done. by destruct (e_present (entry m0 kernel i)).
  - intros g. rewrite Hfr. by intros ->%list_elem_of_singleton.
  - intros i Hi _. by apply Ce.
  - intros i Hi. rewrite Ce by done. by apply (fk_empty FK).
  - intros va Hva Hk. split; [done|]. intros _. rewrite walk_S, Ce by apply va_index_bound. cbn zeta. by rewrite Hk.
Qed.

Definition copied_below (i p : Z) : Prop :=
  in_span 0 (i * span 3) p /\ e_present (entry m0 kernel (va_index 3 (p * 4096))) = false /\
  is_Some (walk 4 m0 parent (p * 4096)).

Lemma copied_below_all va :
  0 <= va < 2 ^ 48 -> e_present (entry m0 kernel (va_index 3 va)) = false ->
  copied_below 512 (va / 4096) <-> is_Some (walk 4 m0 parent va).
Proof.
  intros Hva Hk. assert (Hpg : va / 4096 * 4096 / 4096 = va / 4096) by by apply Z.div_mul.
  unfold copied_below, in_span. change (512 * span 3) with (2 ^ 48).
  rewrite (va_index_page 3 _ va Hpg), (walk_page 4 _ _ _ va Hpg).
  pose proof (Z.div_mod va 4096 ltac:(lia)). pose proof (Z.mod_pos_bound va 4096 ltac:(lia)).
  split; [by intros (_ & _ & ?)|]. intros Hw. split_and!; [lia..|done|done].
Qed.

Lemma copied_below_succ i p :
  0 <= i < 512 ->
  copied_below (i + 1) p <-> copied_below i p \/
    in_span (i * span 3) (span 3) p /\ e_present (entry m0 kernel i) = false /\ is_Some (walk 4 m0 parent (p * 4096)).
Proof.
  intros Hi. pose proof (span_pos 3) as Hsp. unfold copied_below, in_span. split.
  - intros (Hp & Hk & Hw). destruct (decide (p * 4096 < i * span 3)); [left; split_and!; [lia..|done|done]|right].
    rewrite (slot_index i) in Hk by lia. split_and!; [lia..|done|done].
  - intros [(Hp & Hk & Hw)|(Hp & Hk & Hw)]; (split_and!; [lia..| |done]); [done|]. by rewrite (slot_index i) by lia.
Qed.

(** The loop over the slots. *)
Lemma fork_slots s owned :
  forkable -> (forall g, g ∈ owned0 -> g mod 4096 = 0) -> copying (fun _ => False) s owned -> exact s owned ->
  wpp (pfold (fun _ i =>
         let! e := read_word (parent + 8 * i) in
         if negb (e_present e) then pret tt
         else
           let! k := read_word (kernel + 8 * i) in
           if shared k e then pret tt
           else
             match e_frame e with
             | Some l3 => copy_subtree memory_map 2 l3 (Z.shiftl i 39) child
             | None => pret tt
             end) (seqZ 0 512) tt)
    (fun _ s' => exists owned', copying (copied_below 512) s' owned' /\ exact s' owned') no (exhausted memory_map) s.
Proof.
  intros FK Hal C X. change 512 with (0 + 512) at 2.
  apply (wpp_pfold_range _ (fun i _ s' => exists owned', copying (copied_below i) s' owned' /\ exact s' owned')); [done| |].
  { exists owned. split; [|done]. eapply copying_ext; [|exact C]. intros p. unfold copied_below, in_span. split; [done|lia]. }
  intros i [] s1 Hi (owned1 & C1 & X1).
  assert (Hpar : ram_word (ram s1) (parent + 8 * i) = entry m0 parent i).
  { apply (cp_same _ _ _ C1 parent); [|lia]. assert (parent ∈ owned0) by apply (sp_owned _ _ _ _ (fk_space FK)), space_root.
    split; [by apply Hal|by left]. }
  assert (Hker : ram_word (ram s1) (kernel + 8 * i) = entry m0 kernel i).
  { apply (cp_same _ _ _ C1 kernel); [apply (fk_kernel FK)|lia]. }
  pose proof (fun p => copied_below_succ i p ltac:(lia)) as Hext.
  assert (Hskip : (e_present (entry m0 kernel i) = false -> forall p, in_span (i * span 3) (span 3) p -> walk 4 m0 parent (p * 4096) = None) ->
    exists owned', copying (copied_below (i + 1)) s1 owned' /\ exact s1 owned').
  { intros Hn. exists owned1. split; [|done]. eapply copying_ext; [|exact C1]. intros p. rewrite Hext. split; [by left|].
    intros [|(Hp & Hk & [? Hw])]; [done|]. rewrite (Hn Hk p Hp) in Hw. done. }
  apply wpp_bind, wpp_wp, wp_read_phys. rewrite Hpar. destruct (e_present (entry m0 parent i)) eqn:Hp; cbn [negb].
  2:{ apply wpp_wp, wp_ret, Hskip. intros _ p Hin. unfold in_span in Hin. rewrite walk_S, (slot_index i) by lia. cbn zeta. by rewrite Hp. }
  apply wpp_bind, wpp_wp, wp_read_phys. rewrite Hker. destruct (shared (entry m0 kernel i) (entry m0 parent i)) eqn:Hsh.
  { apply wpp_wp, wp_ret, Hskip. intros Hk. unfold shared in Hsh. by rewrite Hk in Hsh. }
  assert (Hpr : private m0 parent kernel i = true) by (unfold private; by rewrite Hp, Hsh).
  destruct (source_slot i FK Hal ltac:(lia) Hpr) as [Ge So]. rewrite (e_frame_good _ Ge), Z.shiftl_mul_pow2 by lia.
  change (2 ^ 39) with (span 3).
  eapply wpp_mono; [apply (copies_subtree 2 FK _ s1 owned1 (entry m0 parent i) _ C1 X1 Ge So)| |done|done].
  - unfold copied_below, in_span. lia.
  - intros _ s2 (owned2 & C2 & X2). exists owned2. split; [|done]. eapply copying_ext; [|exact C2]. intros p. rewrite Hext.
    pose proof (private_absent i FK ltac:(lia) Hpr) as Hk.
    assert (Hw : in_span (i * span 3) (span 3) p ->
      is_Some (walk 4 m0 parent (p * 4096)) <-> is_Some (walk 3 m0 (e_addr (entry m0 parent i)) (p * 4096))).
    { intros Hin. rewrite (walk_entry 3 parent 0 i p eq_refl) by (done || lia). rewrite Hp. tauto. }
    tauto.
Qed.
End Fork.

(** ** Theorems *)

Section Theorems.
Context {OPT : OffsetPageTable} (memory_map : list MemoryRegion) (MO : map_ok memory_map).
Context {L : OffsetPageTableLaws memory_map}.
#[local] Abbreviation alloc_ok := (alloc_ok memory_map).

(** The child is a copy of the parent in frames of its own. *)
Record forked (s : Phys) (owned : gset Z) (parent kernel child : Z) (s' : Phys) (owned' : gset Z) : Prop := {
  fd_alloc : exists free, alloc_ok s' owned' free;
  fd_owned g : g ∈ owned' <-> g ∈ owned \/ g ∈ space_frames (ram s') child kernel;
  fd_fresh g : g ∈ space_frames (ram s') child kernel -> g ∉ owned;
  fd_child : forkable memory_map (ram s') owned' child kernel;
  fd_same g : settled memory_map owned g -> same_frame (ram s) (ram s') g;
  fd_kernel i : 0 <= i < 512 -> e_present (entry (ram s) kernel i) = true -> entry (ram s') child i = entry (ram s) kernel i;
  fd_pages va : 0 <= va < 2 ^ 48 -> e_present (entry (ram s) kernel (va_index 3 va)) = false ->
    match walk 4 (ram s) parent va with
    | Some (f, _, _) => exists f', walk 4 (ram s') child va = Some (f', true, true) /\ copied (ram s) f (ram s') f'
    | None => walk 4 (ram s') child va = None
    end
}.

Lemma fork_from_spec s owned free parent kernel :
  alloc_ok s owned free -> cursor_ok memory_map s -> forkable memory_map (ram s) owned parent kernel ->
  wpp (fork_from memory_map parent kernel) (fun child s' => exists owned', forked s owned parent kernel child s' owned')
    no (exhausted memory_map) s.
Proof.
  intros O Hc FK. unfold fork_from. apply wpp_bind.
  eapply wpp_mono; [apply (new_sharing_kernel_spec _ MO s owned free kernel O Hc (fk_kernel _ _ _ _ _ FK))| |done|done].
  intros child s1 Hcr. destruct (copying_created memory_map MO (ram s) owned parent kernel child s owned s1 eq_refl eq_refl FK Hcr)
    as [C1 X1].
  assert (Hal : forall g, g ∈ owned -> g mod 4096 = 0) by (intros g Hg; by eapply (owned_aligned _ MO _ _ _ _ O)).
  apply wpp_bind. eapply wpp_mono; [apply (fork_slots memory_map MO (ram s) owned parent kernel child s1 _ FK Hal C1 X1)| |done|done].
  intros _ s2 (owned2 & C2 & X2). apply wpp_wp, wp_ret. exists owned2.
  pose proof (copying_based _ _ _ _ _ _ _ _ _ FK C2) as B. split.
  - apply (cp_alloc _ _ _ _ _ _ _ _ _ C2).
  - intros g. split; [apply X2|]. intros [Hg|Hg]; [by apply (cp_old _ _ _ _ _ _ _ _ _ C2)|].
    by apply (sp_owned _ _ _ _ (cp_space _ _ _ _ _ _ _ _ _ C2)).
  - apply (cp_fresh _ _ _ _ _ _ _ _ _ C2).
  - destruct (fk_kernel _ _ _ _ _ FK) as [Hka Hks]. split.
    + apply (cp_space _ _ _ _ _ _ _ _ _ C2).
    + split; [done|]. destruct Hks as [Hks|Hks]; [left; by apply (cp_old _ _ _ _ _ _ _ _ _ C2)|by right].
    + intros Hin. destruct (cp_alloc _ _ _ _ _ _ _ _ _ C2) as [free2 O2].
      destruct Hks as [Hks|Hks]; [exact (cp_fresh _ _ _ _ _ _ _ _ _ C2 kernel Hin Hks)|]. apply Hks. eapply handed_usable.
      apply (ok_owned _ _ _ _ O2), (sp_owned _ _ _ _ (cp_space _ _ _ _ _ _ _ _ _ C2)), Hin.
    + intros i Hi. destruct (B i Hi) as [-> _]. by apply (fk_empty _ _ _ _ _ FK).
    + intros i Hi. destruct (B i Hi) as [-> _]. intros Hp. rewrite (child_private (ram s) kernel child _ i B Hi). by rewrite Hp.
  - apply (cp_same _ _ _ _ _ _ _ _ _ C2).
  - apply (cp_kernel _ _ _ _ _ _ _ _ _ C2).
  - intros va Hva Hk. destruct (cp_walk _ _ _ _ _ _ _ _ _ C2 va Hva Hk) as [W1 W2].
    pose proof (copied_below_all (ram s) parent kernel va Hva Hk) as Hb.
    destruct (walk 4 (ram s) parent va) as [[[f u] w]|] eqn:Ew.
    + destruct W1 as (f1 & u1 & w1 & f' & E1 & E2 & E3); [apply Hb; by eexists|]. simplify_eq. by exists f'.
    + apply W2. rewrite Hb. by intros [? [=]].
Qed.

(** C4. [fork_from] gives the child an isolated copy of the parent. The child's
    root has the kernel's entries; at every other address it maps a page exactly
    where the parent does, with the same contents, for the user and writable; its
    tables and pages are frames that were not in use before, each in the tree
    once, and are all that was allocated; no frame in use and no frame of the
    kernel has changed. The child can itself be forked and destroyed. The only
    panic is the exhaustion of the frames. *)
Theorem fork_isolated s owned free parent kernel :
  alloc_ok s owned free -> cursor_ok memory_map s -> forkable memory_map (ram s) owned parent kernel ->
  wpp (fork_from memory_map parent kernel) (fun child s' => exists owned', forked s owned parent kernel child s' owned')
    no (exhausted memory_map) s.
Proof. apply fork_from_spec. Qed.

(** C21. [destroy] gives back the frames of a space exactly: those of the private
    trees and the root, each once, and they become the head of the free list;
    the memory of every other frame is as it was, the kernel's tables included.
    With [fork_from] before it, the frames in use are those before the fork. *)
Theorem destroy_exact s owned free root kernel :
  alloc_ok s owned free -> cursor_ok memory_map s -> forkable memory_map (ram s) owned root kernel ->
  wp (destroy root kernel)
    (fun _ s' => alloc_ok s' (owned ∖ list_to_set (space_frames (ram s) root kernel)) (rev (space_frames (ram s) root kernel) ++ free) /\
       forall g, g mod 4096 = 0 -> g ∉ space_frames (ram s) root kernel -> same_frame (ram s) (ram s') g) no s /\
  wpp (let! child := fork_from memory_map root kernel in destroy child kernel)
    (fun _ s' => (exists free', alloc_ok s' owned free') /\
       forall g, settled memory_map owned g -> same_frame (ram s) (ram s') g) no (exhausted memory_map) s.
Proof.
  intros O Hc FK.
  assert (Hd : forall s owned free root, alloc_ok s owned free -> forkable memory_map (ram s) owned root kernel ->
    wp (destroy root kernel) (fun _ s' => freed memory_map s owned free (space_frames (ram s) root kernel) s') no s).
  { intros s1 owned1 free1 root1 O1 [F1 [F2 _] F3 _ _]. by apply destroy_spec. }
  split.
  - eapply wp_mono; [by apply (Hd s owned free)| |done]. intros ? s' F. split; [apply F|]. intros g Hg Hn.
    eapply freed_same; [exact MO|exact O| |exact F|exact Hg|exact Hn]. apply (sp_owned _ _ _ _ (fk_space _ _ _ _ _ FK)).
  - apply wpp_bind. eapply wpp_mono; [by apply (fork_from_spec s owned free root kernel)| |done|done].
    intros child s1 (owned1 & [[free1 O1] Fo Ff Fc Fs _ _]). apply wpp_wp.
    eapply wp_mono; [by apply (Hd s1 owned1 free1 child)| |done]. intros ? s2 F. split.
    + eexists. replace owned with (owned1 ∖ list_to_set (space_frames (ram s1) child kernel)); [apply F|].
      apply leibniz_equiv. intros g. rewrite elem_of_difference, elem_of_list_to_set, Fo. split; [tauto|].
      intros Hg. split; [by left|]. intros Hin. exact (Ff g Hin Hg).
    + intros g Hg x Hx. rewrite <- (Fs g Hg x Hx). eapply freed_same; [exact MO|exact O1| |exact F|apply Hg| |exact Hx].
      * intros y Hy. apply Fo. by right.
      * intros Hin. destruct Hg as [_ [Hg|Hg]]; [exact (Ff g Hin Hg)|]. apply Hg. eapply handed_usable.
        apply (ok_owned _ _ _ _ O1), Fo. by right.
Qed.
End Theorems.
