(* ===== verification/PageMap.v ===== *)
(** * A page-table mapper

    An implementation of the interface of [map_to] on four-level tables, which
    shows that what [ForkSpace] asks of the crate can hold, and the theorems of
    [ForkSpace] on a concrete machine. *)

From stdpp Require Import base numbers list gmap.
From Stdlib Require Import ZArith Lia.
From S2P Require Import Prelude Frame PageTable AddrSpace ForkSpace.
#[local] Open Scope Z_scope.

Definition lift {A} (m : prog Phys Empty_set A) : prog Phys unit A := pmap_err (Empty_set_rect _) m.

(** A table of level [n + 1]: missing tables are allocated, zeroed and linked. *)
Fixpoint map_at (memory_map : list MemoryRegion) (n : nat) (table va frame flags : Z) : prog Phys unit unit :=
  let slot := table + 8 * va_index n va in
  let! e := read_word slot in
  match n with
  | O => if e =? 0 then write_word slot (Z.lor frame flags) else pfail tt
  | S n' =>
      if e =? 0 then
        let! o := allocate_frame memory_map in
        match o with
        | None => pfail tt
        | Some f => lift (zero_table f) ;;! write_word slot (Z.lor f flags) ;;! map_at memory_map n' f va frame flags
        end
      else map_at memory_map n' (e_addr e) va frame flags
  end.

#[export] Instance SimpleMapper : OffsetPageTable := { map_to mm root page frame flags := map_at mm 3 root page frame flags }.

(** The same indices in the tables of the levels up to [n]. *)
Definition same_path (n : nat) (va va' : Z) : Prop := forall k, (k < n)%nat -> va_index k va' = va_index k va.

Section Insert.
Context (memory_map : list MemoryRegion) (MO : map_ok memory_map).
#[local] Abbreviation alloc_ok := (alloc_ok memory_map).

(** A page has been added to the tree of level [n]. *)
Record inserted (n : nat) (s : Phys) (owned : gset Z) (table va frame : Z) (new : list Z) (s' : Phys) : Prop := {
  in_fresh g : g ∈ new -> g ∉ owned;
  in_nodup : NoDup new;
  in_alloc : exists free, alloc_ok s' (list_to_set new ∪ owned) free;
  in_cursor : cursor_ok memory_map s';
  in_good : tree_good n (ram s') table;
  in_frames : tree_frames n (ram s') table ≡ₚ (frame :: new) ++ tree_frames n (ram s) table;
  in_path va' : same_path n va va' -> walk n (ram s') table va' = Some (frame, true, true);
  in_walk va' : ~ same_path n va va' -> walk n (ram s') table va' = walk n (ram s) table va';
  in_same g : g mod 4096 = 0 -> g ∉ new -> g ∉ tree_frames n (ram s) table -> same_frame (ram s) (ram s') g;
  in_pages va' g u w : walk n (ram s) table va' = Some (g, u, w) -> same_frame (ram s) (ram s') g
}.

(** The children of a table: trees of level [n]. *)
Definition child_frames_of (n : nat) (m : gmap Z Z) (f i : Z) : list Z :=
  if e_present (entry m f i) then tree_frames n m (e_addr (entry m f i)) else [].

Lemma tree_frames_S n m f : tree_frames (S n) m f = (seqZ 0 512 ≫= child_frames_of n m f) ++ [f].
Proof. done. Qed.

Definition child_walk (n : nat) (m : gmap Z Z) (f i va : Z) : option (Z * bool * bool) :=
  if e_present (entry m f i) then walk n m (e_addr (entry m f i)) va else None.

(** The tables of [USER_FLAGS] allow what their tables allow. *)
Lemma walk_tree_good n m f va :
  tree_good (S n) m f -> walk (S n) m f va = child_walk n m f (va_index n va) va.
Proof.
  intros G. specialize (G (va_index n va) (va_index_bound n va)). rewrite walk_S. unfold child_walk. cbn zeta in *.
  destruct (e_present _); [|done]. destruct G as [(_ & _ & -> & ->) _]. by destruct (walk n m _ va) as [[[g u] w]|].
Qed.

Lemma user_entry f : f mod 4096 = 0 -> 0 <= f < 2 ^ 52 -> e_good (Z.lor f USER_FLAGS) /\ e_addr (Z.lor f USER_FLAGS) = f.
Proof.
  intros Hm Hb. split; [|by apply addr_lor]. unfold e_good, e_present, e_huge, e_user, e_writable.
  rewrite !testbit_flags by (done || lia). done.
Qed.

(** A table whose entry [i] has changed, and nothing else below it. *)
Lemma tree_update n m m' table i frame new :
  0 <= i < 512 -> tree_good (S n) m table ->
  (forall j, 0 <= j < 512 -> j <> i -> entry m' table j = entry m table j /\
     forall g, g ∈ child_frames_of n m table j -> same_frame m m' g) ->
  e_good (entry m' table i) -> tree_good n m' (e_addr (entry m' table i)) ->
  tree_frames n m' (e_addr (entry m' table i)) ≡ₚ (frame :: new) ++ child_frames_of n m table i ->
  tree_good (S n) m' table /\ tree_frames (S n) m' table ≡ₚ (frame :: new) ++ tree_frames (S n) m table /\
  (forall va, va_index n va <> i -> walk (S n) m' table va = walk (S n) m table va).
Proof.
  intros Hi G Ho Ge Gt Hp.
  assert (Hj : forall j, 0 <= j < 512 -> j <> i ->
    child_frames_of n m' table j = child_frames_of n m table j /\
    (e_present (entry m table j) = true -> tree_good n m' (e_addr (entry m table j)) /\
       forall va, walk n m' (e_addr (entry m table j)) va = walk n m (e_addr (entry m table j)) va)).
  { intros j Hj Hne. destruct (Ho j Hj Hne) as [He Hs]. unfold child_frames_of in *. rewrite He. specialize (G j Hj). cbn zeta in G.
    destruct (e_present (entry m table j)); [|done]. destruct (tree_local n m m' _ Hs) as (-> & T2 & T3). naive_solver. }
  split_and!.
  - intros j Hj'. cbn zeta. destruct (decide (j = i)) as [->|Hne].
    + destruct Ge as [Hpi Ge']. rewrite Hpi. split; [by split|done].
    + destruct (Ho j Hj' Hne) as [-> _]. specialize (G j Hj'). cbn zeta in G. destruct (Hj j Hj' Hne) as [_ Hg].
      destruct (e_present (entry m table j)); [|done]. destruct G. split; [done|]. by apply Hg.
  - rewrite !tree_frames_S, app_assoc. f_equiv. apply (bind_update_perm _ _ _ i); [apply NoDup_seqZ|apply elem_of_seqZ; lia| |].
    + intros j Hj'%elem_of_seqZ Hne. apply Hj; [lia|done].
    + unfold child_frames_of at 1. destruct Ge as [-> _]. done.
  - intros va Hne. rewrite !walk_S. destruct (Ho _ (va_index_bound n va) Hne) as [-> _]. cbn zeta.
    destruct (Hj _ (va_index_bound n va) Hne) as [_ Hg]. destruct (e_present _); [|done].
    destruct Hg as [_ ->]; done.
Qed.

(** What [map_at] needs of the tree of level [n]. *)
Record insertable (n : nat) (s : Phys) (owned : gset Z) (table va frame : Z) : Prop := {
  it_alloc : exists free, alloc_ok s owned free;
  it_cursor : cursor_ok memory_map s;
  it_nodup : NoDup (tree_frames n (ram s) table);
  it_owned g : g ∈ tree_frames n (ram s) table -> g ∈ owned /\ g <> frame;
  it_frame : frame ∈ owned;
  it_good : tree_good n (ram s) table;
  it_none : walk n (ram s) table va = None
}.

Lemma owned_frame s owned f : (exists free, alloc_ok s owned free) -> f ∈ owned -> f mod 4096 = 0 /\ 0 <= f < 2 ^ 52.
Proof. intros [free O] Hf. destruct (owned_aligned _ MO _ _ _ _ O Hf). lia. Qed.

Lemma child_in_tree n m f i g : 0 <= i < 512 -> g ∈ child_frames_of n m f i -> g ∈ tree_frames (S n) m f.
Proof.
  intros Hi Hg. unfold child_frames_of in Hg. destruct (e_present _) eqn:Hp; [|by apply not_elem_of_nil in Hg].
  apply elem_of_tree_S. right. by exists i.
Qed.

(** The children of a table have no frame in common, nor with the table. *)
Lemma children_apart n m f i j g :
  NoDup (tree_frames (S n) m f) -> 0 <= i < 512 -> 0 <= j < 512 -> j <> i -> g ∈ child_frames_of n m f j ->
  g <> f /\ g ∉ child_frames_of n m f i.
Proof.
  intros Hnd Hi Hj Hne Hg. apply tree_NoDup_S in Hnd as [N1 N2]. unfold child_frames_of in *.
  destruct (e_present (entry m f j)) eqn:Hpj; [|by apply not_elem_of_nil in Hg]. split.
  - intros ->. by apply (N1 j Hj Hpj).
  - destruct (e_present (entry m f i)) eqn:Hpi; [|apply not_elem_of_nil]. by apply (N2 j i g).
Qed.

(** A page below a table, and the page of one of its children. *)
Lemma page_child n m f va g u w :
  tree_good (S n) m f -> walk (S n) m f va = Some (g, u, w) ->
  walk n m (e_addr (entry m f (va_index n va))) va = Some (g, u, w) /\ g ∈ child_frames_of n m f (va_index n va).
Proof.
  intros G. rewrite (walk_tree_good n m f va G). unfold child_walk, child_frames_of. destruct (e_present _); [|done].
  intros Hw. split; [done|]. by eapply walk_in_tree.
Qed.

(** A page added below the entry of a table is added to the tree of the table. *)
Record below (n : nat) (s : Phys) (owned : gset Z) (table va frame : Z) (new : list Z) (s' : Phys) : Prop := {
  bl_fresh g : g ∈ new -> g ∉ owned;
  bl_nodup : NoDup new;
  bl_alloc : exists free, alloc_ok s' (list_to_set new ∪ owned) free;
  bl_cursor : cursor_ok memory_map s';
  bl_others j : 0 <= j < 512 -> j <> va_index n va -> entry (ram s') table j = entry (ram s) table j;
  bl_same g : g mod 4096 = 0 -> g ∉ new -> g <> table -> g ∉ child_frames_of n (ram s) table (va_index n va) ->
    same_frame (ram s) (ram s') g;
  bl_entry : e_good (entry (ram s') table (va_index n va));
  bl_good : tree_good n (ram s') (e_addr (entry (ram s') table (va_index n va)));
  bl_frames : tree_frames n (ram s') (e_addr (entry (ram s') table (va_index n va))) ≡ₚ
    (frame :: new) ++ child_frames_of n (ram s) table (va_index n va);
  bl_path va' : same_path n va va' ->
    walk n (ram s') (e_addr (entry (ram s') table (va_index n va))) va' = Some (frame, true, true);
  bl_walk va' : ~ same_path n va va' ->
    walk n (ram s') (e_addr (entry (ram s') table (va_index n va))) va' = child_walk n (ram s) table (va_index n va) va';
  bl_pages va' g u w : child_walk n (ram s) table (va_index n va) va' = Some (g, u, w) -> same_frame (ram s) (ram s') g
}.

Lemma inserted_up n s owned table va frame new s' :
  insertable (S n) s owned table va frame -> below n s owned table va frame new s' ->
  inserted (S n) s owned table va frame new s'.
Proof.
  intros [IA IC IN IO IF IG IW] [B1 B2 B3 B4 B5 B6 B7 B8 B9 B10 B11 B12].
  set (i := va_index n va) in *. pose proof (va_index_bound n va) as Hi. fold i in Hi.
  assert (Hother : forall j g, 0 <= j < 512 -> j <> i -> g ∈ child_frames_of n (ram s) table j -> same_frame (ram s) (ram s') g).
  { intros j g Hj Hne Hg. destruct (children_apart n (ram s) table i j g) as [H1 H2]; [done..|].
    assert (Ho : g ∈ owned) by by eapply IO, child_in_tree.
    apply B6; [apply (owned_frame _ _ _ IA Ho)| |done|done]. intros Hin. by apply (B1 g). }
  destruct (tree_update n (ram s) (ram s') table i frame new Hi IG) as (T1 & T2 & T3); [|done..|].
  { intros j Hj Hne. split; [by apply B5|]. intros g. by apply Hother. }
  split; [done..| | | |].
  - intros va' Hp. rewrite walk_tree_good by done. unfold child_walk. rewrite (Hp n) by lia. fold i.
    destruct B7 as [-> _]. apply B10. intros k Hk. apply Hp. lia.
  - intros va' Hp. destruct (decide (va_index n va' = i)) as [Heq|Hne]; [|by apply T3].
    rewrite !walk_tree_good by done. rewrite Heq. unfold child_walk at 1. destruct B7 as [-> _]. apply B11.
    intros Hq. apply Hp. intros k Hk. destruct (decide (k = n)) as [->|]; [done|]. apply Hq. lia.
  - intros g Hg Hn Ht. apply B6; [done|done| |].
    + intros ->. apply Ht, tree_root.
    + intros Hin. by eapply Ht, child_in_tree.
  - intros va' g u w Hw. destruct (decide (va_index n va' = i)) as [Heq|Hne].
    + rewrite walk_tree_good, Heq in Hw by done. by eapply B12.
    + eapply (Hother (va_index n va')); [apply va_index_bound|done|]. by eapply page_child.
Qed.

(** What [map_at] needs of the entry of a table. *)
Record slot_insertable (n : nat) (s : Phys) (owned : gset Z) (table va frame : Z) : Prop := {
  si_alloc : exists free, alloc_ok s owned free;
  si_cursor : cursor_ok memory_map s;
  si_table : table ∈ owned;
  si_nodup : NoDup (child_frames_of n (ram s) table (va_index n va));
  si_owned g : g ∈ child_frames_of n (ram s) table (va_index n va) -> g ∈ owned /\ g <> frame /\ g <> table;
  si_frame : frame ∈ owned;
  si_good : let e := entry (ram s) table (va_index n va) in
    if e_present e then e_good e /\ tree_good n (ram s) (e_addr e) else e = 0;
  si_none : child_walk n (ram s) table (va_index n va) va = None
}.

Lemma insertable_slot n s owned table va frame :
  insertable (S n) s owned table va frame -> slot_insertable n s owned table va frame.
Proof.
  intros [IA IC IN IO IF IG IW]. pose proof (va_index_bound n va) as Hi. rewrite walk_tree_good in IW by done.
  pose proof (tree_NoDup_S _ _ _ IN) as [N1 _].
  split; [done|done|apply IO, tree_root| | |done|by apply IG|done].
  - unfold child_frames_of. destruct (e_present _) eqn:Hp; [|constructor]. by apply N1.
  - intros g Hg. destruct (IO g) as [Ho Hf]; [by eapply child_in_tree|]. split_and!; [done..|]. intros ->.
    unfold child_frames_of in Hg. destruct (e_present _) eqn:Hp; [|by apply not_elem_of_nil in Hg]. by apply (N1 _ Hi Hp).
Qed.

(** The three cases: a page's entry, a table that is there, a new table. *)
Lemma below_leaf s owned table va frame :
  slot_insertable 0 s owned table va frame -> entry (ram s) table (va_index 0 va) = 0 ->
  below 0 s owned table va frame [] (set_ram (<[table + 8 * va_index 0 va := Z.lor frame USER_FLAGS]> (ram s)) s).
Proof.
  intros [IA IC Ht IN IO IF IG IW] He. set (i := va_index 0 va) in *. set (m' := <[_ := _]> (ram s)). destruct (owned_frame _ _ _ IA Ht) as [Hta _].
  destruct (owned_frame _ _ _ IA IF) as [Hfa Hfb]. destruct (user_entry frame Hfa Hfb) as [Ue Ua].
  assert (Hei : entry m' table i = Z.lor frame USER_FLAGS) by (unfold entry, ram_word, m'; by rewrite lookup_insert_eq).
  pose proof (va_index_bound 0 va) as Hi. fold i in Hi.
  assert (Ho : outside table (ram s) m') by (intros a Ha; unfold ram_word, m'; by rewrite lookup_insert_ne by lia).
  split; fold i; cbn [ram set_ram]; rewrite ?Hei, ?Ua; [by intros g ?%not_elem_of_nil|constructor| |exact IC| | |exact Ue|done| |done| |].
  - destruct IA as [free O]. exists free. rewrite list_to_set_nil, union_empty_l_L. by apply (alloc_outside _ MO s _ _ table).
  - intros j Hj Hne. unfold entry, ram_word, m'. by rewrite lookup_insert_ne by lia.
  - intros g Hg _ Hne _. by apply (outside_same table).
  - unfold child_frames_of. by rewrite He.
  - intros va' Hp. by destruct Hp; intros k Hk; lia.
  - intros va' g u w. unfold child_walk. by rewrite He.
Qed.

Lemma below_table n s owned table va frame new s' :
  slot_insertable (S n) s owned table va frame -> e_present (entry (ram s) table (va_index (S n) va)) = true ->
  inserted (S n) s owned (e_addr (entry (ram s) table (va_index (S n) va))) va frame new s' ->
  below (S n) s owned table va frame new s'.
Proof.
  intros [IA IC Ht IN IO IF IG IW] Hp [J1 J2 J3 J4 J5 J6 J7 J8 J9 J10]. set (i := va_index (S n) va) in *.
  pose proof (va_index_bound (S n) va) as Hi. fold i in Hi. cbn zeta in IG. rewrite Hp in IG. destruct IG as [Ge _].
  assert (Hc : child_frames_of (S n) (ram s) table i = tree_frames (S n) (ram s) (e_addr (entry (ram s) table i))).
  { unfold child_frames_of. by rewrite Hp. }
  assert (Hnt : table ∉ tree_frames (S n) (ram s) (e_addr (entry (ram s) table i))).
  { rewrite <- Hc. intros Hin. by destruct (IO table Hin) as (_ & _ & ?). }
  assert (Hts : same_frame (ram s) (ram s') table).
  { apply J9; [apply (owned_frame _ _ _ IA Ht)| |done]. intros Hin. by apply (J1 table). }
  assert (He : forall j, 0 <= j < 512 -> entry (ram s') table j = entry (ram s) table j) by (intros j Hj; by apply entry_same).
  assert (Hw : forall va', child_walk (S n) (ram s) table i va' = walk (S n) (ram s) (e_addr (entry (ram s) table i)) va').
  { intros va'. unfold child_walk. by rewrite Hp. }
  split; fold i; rewrite ?He, ?Hc by done; try done.
  - intros j Hj _. by apply He.
  - intros g Hg Hn Hne. by apply J9.
  - intros va' Hq. rewrite Hw. by apply J8.
  - intros va' g u w. rewrite Hw. apply J10.
Qed.

Lemma empty_table n m f :
  (forall i, 0 <= i < 512 -> entry m f i = 0) ->
  tree_frames (S n) m f = [f] /\ tree_good (S n) m f /\ forall va, walk (S n) m f va = None.
Proof.
  intros H. split_and!.
  - rewrite tree_frames_S. replace (seqZ 0 512 ≫= child_frames_of n m f) with (seqZ 0 512 ≫= (fun _ : Z => @nil Z)); [done|].
    apply bind_ext_in. intros i Hi%elem_of_seqZ. unfold child_frames_of. by rewrite H by lia.
  - intros i Hi. cbn zeta. by rewrite H.
  - intros va. rewrite walk_S, H by apply va_index_bound. done.
Qed.

(** A fresh table, zeroed and linked. *)
Definition linked (s : Phys) (table i nf : Z) (s2 : Phys) : Prop :=
  exists m1, outside nf (ram s) m1 /\ (forall j, 0 <= j < 512 -> entry m1 nf j = 0) /\
    ram s2 = <[table + 8 * i := Z.lor nf USER_FLAGS]> m1.

Lemma linked_facts s table i nf s2 :
  linked s table i nf s2 -> table mod 4096 = 0 -> nf mod 4096 = 0 -> nf <> table -> 0 <= i < 512 ->
  (forall j, 0 <= j < 512 -> entry (ram s2) nf j = 0) /\ entry (ram s2) table i = Z.lor nf USER_FLAGS /\
  (forall j, 0 <= j < 512 -> j <> i -> entry (ram s2) table j = entry (ram s) table j) /\
  (forall g, g mod 4096 = 0 -> g <> nf -> g <> table -> same_frame (ram s) (ram s2) g).
Proof.
  intros (m1 & Ho & Hz & Hr) Ht Hn Hne Hi.
  assert (Hout : outside table m1 (ram s2)).
  { intros a Ha. unfold ram_word. by rewrite Hr, lookup_insert_ne by lia. }
  split_and!.
  - intros j Hj. rewrite <- (Hz j Hj). apply entry_same; [|done]. by apply (outside_same table).
  - unfold entry, ram_word. by rewrite Hr, lookup_insert_eq.
  - intros j Hj Hj'. transitivity (entry m1 table j).
    + unfold entry, ram_word. by rewrite Hr, lookup_insert_ne by lia.
    + apply entry_same; [|done]. apply (outside_same nf); [done|done|congruence|done].
  - intros g Hg H1 H2 a Ha. transitivity (ram_word m1 a).
    + by apply (outside_same table g m1 (ram s2)).
    + by apply (outside_same nf g (ram s) m1).
Qed.

Lemma below_new n s owned table va frame nf s2 new s' :
  slot_insertable (S n) s owned table va frame -> entry (ram s) table (va_index (S n) va) = 0 ->
  nf ∉ owned -> nf mod 4096 = 0 /\ 0 <= nf < 2 ^ 52 -> linked s table (va_index (S n) va) nf s2 ->
  inserted (S n) s2 ({[nf]} ∪ owned) nf va frame new s' -> below (S n) s owned table va frame (nf :: new) s'.
Proof.
  intros [IA IC Ht IN IO IF IG IW] He Hno [Hna Hnb] Hl [J1 J2 J3 J4 J5 J6 J7 J8 J9 J10].
  set (i := va_index (S n) va) in *. pose proof (va_index_bound (S n) va) as Hi. fold i in Hi.
  destruct (owned_frame _ _ _ IA Ht) as [Hta _].
  assert (Hne : nf <> table) by (intros ->; done).
  destruct (linked_facts s table i nf s2 Hl Hta Hna Hne Hi) as (L1 & L2 & L3 & L4).
  destruct (empty_table n (ram s2) nf L1) as (T1 & T2 & T3). destruct (user_entry nf Hna Hnb) as [Ue Ua].
  assert (Hout : forall g, g ∈ new -> g <> nf /\ g ∉ owned) by (intros g Hg%J1; apply not_elem_of_union in Hg as [?%not_elem_of_singleton ?]; done).
  assert (Hts : same_frame (ram s2) (ram s') table).
  { apply J9; [done| |rewrite T1, list_elem_of_singleton; congruence]. intros Hin. by apply (Hout table). }
  assert (Hei : entry (ram s') table i = Z.lor nf USER_FLAGS) by (rewrite <- L2; by apply entry_same).
  split; fold i; rewrite ?Hei, ?Ua.
  - intros g [->|Hg]%elem_of_cons; [done|by apply Hout].
  - apply NoDup_cons. split; [|done]. intros Hin. by destruct (Hout nf Hin).
  - destruct J3 as [free O]. exists free. replace (list_to_set (nf :: new) ∪ owned) with (list_to_set new ∪ ({[nf]} ∪ owned)); [done|].
    by rewrite list_to_set_cons, (assoc_L (∪) (list_to_set new)), (comm_L (∪) (list_to_set new) {[nf]}).
  - done.
  - intros j Hj Hji. rewrite <- (L3 j Hj Hji). by apply entry_same.
  - intros g Hg Hn Hgt _ a Ha. apply not_elem_of_cons in Hn as [Hg1 Hg2]. rewrite <- (L4 g Hg Hg1 Hgt a Ha).
    apply (J9 g); [done|done|rewrite T1, list_elem_of_singleton; done|done].
  - done.
  - done.
  - unfold child_frames_of. rewrite He. rewrite J6, T1. cbn [e_present Z.testbit]. rewrite app_nil_r. solve_Permutation.
  - done.
  - intros va' Hp. rewrite J8, T3 by done. unfold child_walk. by rewrite He.
  - intros va' g u w. unfold child_walk. by rewrite He.
Qed.

Lemma wp_lift {A} (m : prog Phys Empty_set A) s a s' (Q : A -> Phys -> Prop) (X : unit -> Phys -> Prop) :
  m s = (Ret a, s') -> Q a s' -> wp (lift m) Q X s.
Proof. intros E HQ. unfold wp, lift, pmap_err. by rewrite E. Qed.

Lemma insertable_new n s owned table va frame nf s2 i :
  slot_insertable (S n) s owned table va frame -> nf ∉ owned -> linked s table i nf s2 -> 0 <= i < 512 ->
  (exists free, alloc_ok s2 ({[nf]} ∪ owned) free) -> cursor_ok memory_map s2 ->
  insertable (S n) s2 ({[nf]} ∪ owned) nf va frame.
Proof.
  intros [IA IC Ht IN IO IF IG IW] Hn Hl Hi A2 C2.
  assert (Hnf : nf ∈ {[nf]} ∪ owned) by by apply elem_of_union_l, elem_of_singleton.
  destruct (linked_facts s table i nf s2 Hl) as (L1 & _); [|apply (owned_frame _ _ _ A2 Hnf)|by intros ->|done|].
  { apply (owned_frame _ _ _ IA Ht). }
  destruct (empty_table n (ram s2) nf L1) as (T1 & T2 & T3). split; [done|done| | | |done|done].
  - rewrite T1. apply NoDup_singleton.
  - intros g. rewrite T1. intros ->%list_elem_of_singleton. split; [done|]. by intros ->.
  - by apply elem_of_union_r.
Qed.

Lemma map_at_spec n : forall s owned table va frame,
  slot_insertable n s owned table va frame ->
  wp (map_at memory_map n table va frame USER_FLAGS) (fun _ s' => exists new, below n s owned table va frame new s')
    (fun _ s' => exhausted memory_map s') s.
Proof.
  induction n as [|n IH]; intros s owned table va frame I; cbn [map_at]; apply wp_bind, wp_word.
  all: change (ram_word (ram s) (table + 8 * ?i)) with (entry (ram s) table i).
  all: pose proof I as [IA IC Ht IN IO IF IG IW]; unfold child_walk in IW; cbn zeta in IG.
  - destruct (e_present _) eqn:Hp; [done|]. rewrite IG. cbn [Z.eqb]. apply wp_modify. exists []. by apply below_leaf.
  - destruct (e_present (entry (ram s) table (va_index (S n) va))) eqn:Hp.
    + destruct (_ =? 0) eqn:E0; zbool; [by rewrite E0 in Hp|]. destruct IG as [Ge Gt].
      unfold child_frames_of in IN, IO. rewrite Hp in IN, IO.
      assert (Ic : insertable (S n) s owned (e_addr (entry (ram s) table (va_index (S n) va))) va frame).
      { split; try done. intros g Hg. by destruct (IO g Hg) as (? & ? & _). }
      eapply wp_mono; [by apply (IH s owned), insertable_slot| |done].
      intros ? s' [new J]. exists new. apply below_table; [done|done|]. by apply inserted_up.
    + rewrite IG. cbn [Z.eqb]. destruct IA as [free O]. apply wp_bind.
      eapply wp_mono; [apply (allocate_frame_spec _ MO s owned free O); unfold cursor_ok in IC; lia| |done].
      intros [nf|] s1 [Hr H]; [|by destruct H as (_ & _ & H & _)]. destruct H as (Hu & Hn & Hc & free1 & O1).
      destruct (zero_table_spec s1 nf) as (m1 & E1 & Ho1 & Hz). apply wp_bind. eapply wp_lift; [exact E1|].
      apply wp_bind, wp_modify. cbn [ram set_ram]. set (s2 := set_ram _ _). pose proof (va_index_bound (S n) va) as Hi.
      assert (Hnf : nf ∈ {[nf]} ∪ owned) by by apply elem_of_union_l, elem_of_singleton.
      assert (Hl : linked s table (va_index (S n) va) nf s2).
      { exists m1. rewrite Hr in Ho1. split; [exact Ho1|]. split; [exact Hz|reflexivity]. }
      assert (A2 : exists free, alloc_ok s2 ({[nf]} ∪ owned) free).
      { exists free1. apply (owner_write_ok _ MO (set_ram m1 s1) _ _ table); [|by apply elem_of_union_r|lia].
        by apply (alloc_outside _ MO s1 _ _ nf). }
      assert (I2 : insertable (S n) s2 ({[nf]} ∪ owned) nf va frame) by (eapply insertable_new; [done..|by apply Hc]).
      eapply wp_mono; [by apply (IH s2 ({[nf]} ∪ owned)), insertable_slot| |done]. intros ? s' [new J]. exists (nf :: new).
      eapply below_new; [done..|apply (owned_frame _ _ _ A2 Hnf)|done|]. by apply inserted_up.
Qed.
End Insert.

(** ** The laws *)

(** The indices of an address are the digits of its page. *)
Lemma same_page va va' :
  0 <= va < 2 ^ 48 -> 0 <= va' < 2 ^ 48 -> va_index 3 va' = va_index 3 va -> same_path 3 va va' -> va' / 4096 = va / 4096.
Proof.
  intros H1 H2 H3 Hp. pose proof (Hp 0%nat ltac:(lia)) as P0. pose proof (Hp 1%nat ltac:(lia)) as P1.
  pose proof (Hp 2%nat ltac:(lia)) as P2. unfold va_index in *.
  assert (D : forall a k, 0 <= k -> a / 2 ^ (12 + 9 * k) = a / 4096 / 2 ^ (9 * k)).
  { intros a k Hk. rewrite Z.pow_add_r, <- Z.div_div by lia. done. }
  rewrite !D in * by lia. set (x := va / 4096) in *. set (y := va' / 4096) in *.
  assert (Hx : 0 <= x < 2 ^ 36) by (split; [apply Z.div_pos; lia|apply Z.div_lt_upper_bound; lia]).
  assert (Hy : 0 <= y < 2 ^ 36) by (split; [apply Z.div_pos; lia|apply Z.div_lt_upper_bound; lia]).
  clearbody x y. clear D Hp H1 H2. change (2 ^ (9 * Z.of_nat 0)) with 1 in P0. change (2 ^ (9 * Z.of_nat 1)) with 512 in P1.
  change (2 ^ (9 * Z.of_nat 2)) with (512 * 512) in P2. change (2 ^ (9 * Z.of_nat 3)) with (512 * 512 * 512) in H3.
  rewrite !Z.div_1_r in P0. assert (D2 : forall z, z / (512 * 512) = z / 512 / 512) by (intros z; by rewrite <- Z.div_div).
  assert (D3 : forall z, z / (512 * 512 * 512) = z / 512 / 512 / 512) by (intros z; by rewrite <- !Z.div_div).
  rewrite !D2 in P2. rewrite !D3 in H3.
  assert (E3 : y / 512 / 512 / 512 = x / 512 / 512 / 512).
  { assert (Hz : forall z, 0 <= z < 2 ^ 36 -> z / 512 / 512 / 512 mod 512 = z / 512 / 512 / 512).
    { intros z Hz. apply Z.mod_small. Z.to_euclidean_division_equations; lia. }
    rewrite (Hz y Hy), (Hz x Hx) in H3. exact H3. }
  assert (E2 : y / 512 / 512 = x / 512 / 512).
  { rewrite (Z.div_mod (y / 512 / 512) 512), (Z.div_mod (x / 512 / 512) 512) by done. congruence. }
  assert (E1 : y / 512 = x / 512) by (rewrite (Z.div_mod (y / 512) 512), (Z.div_mod (x / 512) 512) by done; congruence).
  rewrite (Z.div_mod y 512), (Z.div_mod x 512) by done. congruence.
Qed.

Lemma walk_slot_good m root va :
  slot_good m root (va_index 3 va) -> walk 4 m root va = child_walk 3 m root (va_index 3 va) va.
Proof.
  intros G. rewrite walk_S. unfold child_walk, slot_good in *. cbn zeta. destruct (e_present _); [|done].
  destruct G as [(_ & _ & -> & ->) _]. by destruct (walk 3 m _ va) as [[[g u] w]|].
Qed.

#[export] Instance SimpleMapperLaws memory_map (MO : map_ok memory_map) : OffsetPageTableLaws memory_map.
Proof.
  split. intros s owned free root page frame O Hc Hr Hf Hfr Hnd Hown Hgood Hal Hpg Hw.
  pose proof (walk_slot_good _ _ _ Hgood) as Ew. rewrite Hw in Ew.
  assert (Hs : slot_insertable memory_map 3 s owned root page frame).
  { split; [by exists free|done..| |done|exact Hgood|done].
    intros g Hg. destruct (Hown g Hg) as (? & ? & ?). done. }
  unfold map_to, SimpleMapper. eapply wp_mono; [by apply (map_at_spec _ MO)| |done].
  intros ? s' [new [B1 B2 B3 B4 B5 B6 B7 B8 B9 B10 B11 B12]]. exists new.
  assert (G' : slot_good (ram s') root (va_index 3 page)).
  { unfold slot_good. destruct B7 as [Hp B7]. rewrite Hp. split; [by split|done]. }
  split; [done|done|done|done|by destruct B7|done| | |done| |].
  - unfold slot_tree at 1. pose proof B7 as [-> _]. exact B9.
  - intros va Hva Hi. rewrite walk_slot_good by (by rewrite Hi). rewrite (walk_slot_good (ram s)) by (by rewrite Hi).
    rewrite Hi. unfold child_walk at 1. pose proof B7 as [-> _]. case_decide as Hd.
    + apply B10. intros k _. by apply va_index_page.
    + apply B11. intros Hp. apply Hd. apply (same_page page va); [lia|done|done|done].
  - intros g Hg Hn Hne Ht. by apply B6.
  - intros va g u w Hi Hwk. apply (B12 va g u w). rewrite <- Hi, <- walk_slot_good by (by rewrite Hi). done.
Qed.

(** ** A concrete machine *)

Fixpoint tree_goodb (n : nat) (m : gmap Z Z) (f : Z) : bool :=
  match n with
  | O => true
  | S n' =>
      forallb (fun i =>
        let e := entry m f i in
        if e_present e then negb (e_huge e) && e_user e && e_writable e && tree_goodb n' m (e_addr e) else e =? 0) (seqZ 0 512)
  end.

Lemma forallb_range (P : Z -> bool) n : forallb P (seqZ 0 n) = true -> forall i, 0 <= i < n -> P i = true.
Proof. intros H i Hi. rewrite forallb_forall in H. apply H, list_elem_of_In, elem_of_seqZ. lia. Qed.

Lemma tree_goodb_ok n m : forall f, tree_goodb n m f = true -> tree_good n m f.
Proof.
  induction n as [|n IH]; intros f H; [done|]. intros i Hi. cbn [tree_goodb] in H. apply (forallb_range _ _ H) in Hi. cbn zeta in *.
  destruct (e_present _) eqn:Hp; [|by apply Z.eqb_eq]. apply andb_true_iff in Hi as [[[Hh Hu]%andb_true_iff Hw]%andb_true_iff Ht].
  split; [|by apply IH]. split_and!; [done|by apply negb_true_iff|done|done].
Qed.

(** Frames 1 to 32 are usable; the kernel's root is frame 40, with one table. *)
Definition small_map : list MemoryRegion := [mkRegion false 0 1; mkRegion true 1 33].

Definition small_kernel : Z := 40 * 4096.

(** A process with one page, one word of which is set: the root is frame 1, the
    page frame 2, the tables frames 3 to 5. *)
Definition small_state : Phys :=
  mkPhys (list_to_map [(small_kernel, 41 * 4096 + 3); (4096, 41 * 4096 + 3); (4096 + 8 * 255, 12288 + 7); (12288, 16384 + 7);
            (16384, 20480 + 7); (20480 + 8, 8192 + 7); (8192 + 16, 48879)]) 5 None.

Lemma small_map_ok : map_ok small_map.
Proof.
  assert (D : forall r, r ∈ small_map -> is_usable r = true -> r = mkRegion true 1 33).
  { intros r Hr Hu. repeat (apply elem_of_cons in Hr as [->|Hr]; [done|]). by apply not_elem_of_nil in Hr. }
  split.
  - intros r Hr Hu. rewrite (D r Hr Hu). cbn. lia.
  - apply (bool_decide_unpack (NoDup small_map)). vm_compute. done.
  - intros r r' Hr Hr' Hne Hu Hu'. by rewrite (D r Hr Hu), (D r' Hr' Hu') in Hne.
Qed.

Definition small_owned : gset Z := list_to_set ((fun i => 4096 * i) <$> seqZ 1 5).

Lemma small_alloc : alloc_ok small_map small_state small_owned [].
Proof.
  split; [vm_compute; done|vm_compute; done|constructor|by intros f ?%not_elem_of_nil|].
  intros f Hf. split; [|apply not_elem_of_nil]. unfold small_owned in Hf. rewrite elem_of_list_to_set in Hf.
  replace (handed small_map small_state) with ((fun i => 4096 * i) <$> seqZ 1 5); [done|vm_compute; done].
Qed.

Lemma small_forkable : forkable small_map (ram small_state) small_owned 4096 small_kernel.
Proof.
  assert (Hfr : space_frames (ram small_state) 4096 small_kernel = [8192; 20480; 16384; 12288; 4096]) by (vm_compute; done).
  split.
  - split; rewrite ?Hfr.
    + apply (bool_decide_unpack (NoDup _)). vm_compute. done.
    + apply Forall_forall, (bool_decide_unpack (Forall (fun g => g ∈ small_owned) _)). vm_compute. done.
    + intros i Hi Hp.
      assert (Hb : forallb (fun i => negb (private (ram small_state) 4096 small_kernel i) || (i =? 255)) (seqZ 0 512) = true)
        by (vm_compute; done).
      apply (forallb_range _ _ Hb) in Hi. rewrite Hp in Hi. cbn in Hi. zbool. subst i.
      split; [vm_compute; repeat split|]. split; [apply tree_goodb_ok; vm_compute; reflexivity|lia].
  - split; [done|]. right. apply (bool_decide_unpack (small_kernel ∉ _)). vm_compute. done.
  - rewrite Hfr. apply (bool_decide_unpack (small_kernel ∉ _)). vm_compute. done.
  - intros i Hi Hp.
    assert (Hb : forallb (fun i => let e := entry (ram small_state) small_kernel i in e_present e || (e =? 0)) (seqZ 0 512) = true)
      by (vm_compute; done).
    apply (forallb_range _ _ Hb) in Hi. cbn zeta in Hi. rewrite Hp in Hi. by apply Z.eqb_eq.
  - intros i Hi Hp.
    assert (Hb : forallb (fun i => negb (e_present (entry (ram small_state) small_kernel i)) ||
      negb (private (ram small_state) 4096 small_kernel i)) (seqZ 0 512) = true) by (vm_compute; done).
    apply (forallb_range _ _ Hb) in Hi. rewrite Hp in Hi. by apply negb_true_iff.
Qed.

Lemma small_cursor : cursor_ok small_map small_state.
Proof. vm_compute. done. Qed.

#[local] Instance small_laws : OffsetPageTableLaws small_map := SimpleMapperLaws small_map small_map_ok.

(** The page of the process, and what the kernel computes with it. *)
Lemma small_page :
  walk 4 (ram small_state) 4096 0x7F8000001000 = Some (8192, true, true) /\ ram_word (ram small_state) (8192 + 8 * 2) = 48879 /\
  e_present (entry (ram small_state) small_kernel (va_index 3 0x7F8000001000)) = false.
Proof. vm_compute. repeat split. Qed.

Lemma small_fork_returns :
  exists child s' f u w, fork_from small_map 4096 small_kernel small_state = (Ret child, s') /\
    walk 4 (ram s') child 0x7F8000001000 = Some (f, u, w) /\ f <> 8192.
Proof.
  assert (Hb : (match fork_from small_map 4096 small_kernel small_state with
                | (Ret child, s') => match walk 4 (ram s') child 0x7F8000001000 with Some (f, _, _) => negb (f =? 8192) | None => false end
                | _ => false end) = true) by (vm_compute; reflexivity).
  destruct (fork_from small_map 4096 small_kernel small_state) as [[child|[]| |] s']; [|discriminate Hb..].
  destruct (walk 4 (ram s') child 0x7F8000001000) as [[[f u] w]|] eqn:Hw; [|discriminate Hb].
  exists child, s', f, u, w. split; [reflexivity|]. split; [exact Hw|]. by apply negb_true_iff, Z.eqb_neq in Hb.
Qed.

#[local] Opaque small_state small_owned small_map fork_from destroy walk space_frames.

Lemma fork_isolated_witness :
  exists child s' owned', fork_from small_map 4096 small_kernel small_state = (Ret child, s') /\
    forked small_map small_state small_owned 4096 small_kernel child s' owned' /\
    exists f, walk 4 (ram s') child 0x7F8000001000 = Some (f, true, true) /\ f <> 8192 /\ ram_word (ram s') (f + 8 * 2) = 48879.
Proof.
  pose proof (fork_isolated small_map small_map_ok small_state small_owned [] 4096 small_kernel small_alloc small_cursor small_forkable) as W.
  destruct small_fork_returns as (child & s' & f & u & w & E & Hf & Hne). unfold wpp in W. rewrite E in W. destruct W as [owned' W].
  exists child, s', owned'. split; [exact E|]. split; [exact W|]. destruct small_page as (Hw & Hb & Hk).
  assert (H48 : 0 <= 0x7F8000001000 < 2 ^ 48) by lia. pose proof (fd_pages _ _ _ _ _ _ _ _ W 0x7F8000001000 H48 Hk) as Hp.
  rewrite Hw in Hp. destruct Hp as (f' & Hw' & Hc). rewrite Hf in Hw'. injection Hw' as -> -> ->.
  exists f'. split; [exact Hf|]. split; [exact Hne|]. rewrite (Hc 2 ltac:(lia)). exact Hb.
Defined.

#[local] Transparent small_state small_owned space_frames.
Lemma small_frames : space_frames (ram small_state) 4096 small_kernel = [8192; 20480; 16384; 12288; 4096].
Proof. vm_compute. reflexivity. Qed.

Lemma small_emptied : small_owned ∖ list_to_set [8192; 20480; 16384; 12288; 4096] = ∅.
Proof. vm_compute. reflexivity. Qed.

#[local] Opaque small_state small_owned space_frames.

Lemma destroy_exact_witness :
  exists s', destroy 4096 small_kernel small_state = (Ret tt, s') /\ alloc_ok small_map s' ∅ [4096; 12288; 16384; 20480; 8192].
Proof.
  destruct (destroy_exact small_map small_map_ok small_state small_owned [] 4096 small_kernel small_alloc small_cursor small_forkable)
    as [W _].
  destruct (wp_total _ _ _ W) as ([] & s' & E & O & _). exists s'. split; [exact E|].
  rewrite small_frames, small_emptied in O. exact O.
Defined.
