(* ===== verification/Vga.v ===== *)
(** * The text screen

    The writer of [drivers/vga.rs] over the 80x25 video memory.  A store
    outside the buffer is a [Panic]; the theorem states what the screen shows
    as a function of the text that was printed. *)

From stdpp Require Import base numbers list.
From Stdlib Require Import ZArith Lia.
From S2P Require Import Prelude.
#[local] Open Scope Z_scope.

Definition BUFFER_HEIGHT : nat := 25.
Definition BUFFER_WIDTH : nat := 80.

Inductive Color : Type :=
| Black | Blue | Green | Cyan | Red | Magenta | Brown | LightGray
| DarkGray | LightBlue | LightGreen | LightCyan | LightRed | Pink | Yellow | White.

(** [color as u8] *)
Definition color_code_of (c : Color) : Z :=
  match c with
  | Black => 0 | Blue => 1 | Green => 2 | Cyan => 3
  | Red => 4 | Magenta => 5 | Brown => 6 | LightGray => 7
  | DarkGray => 8 | LightBlue => 9 | LightGreen => 10 | LightCyan => 11
  | LightRed => 12 | Pink => 13 | Yellow => 14 | White => 15
  end.

(** [ColorCode::new]: the shift of a [u8] drops what leaves the byte. *)
Definition ColorCode_new (fg bg : Color) : Z :=
  Z.lor (Z.shiftl (color_code_of bg) 4 mod U8) (color_code_of fg).

Record ScreenChar : Type := mkChar { ascii : byte; c_color : Z }.

(** The [WRITER] and the video memory behind it. *)
Record Screen : Type := mkScreen {
  vram : list ScreenChar;
  column : nat;
  color : Z
}.

Definition set_vram (v : list ScreenChar) (s : Screen) : Screen := mkScreen v (column s) (color s).

Definition set_column (c : nat) (s : Screen) : Screen := mkScreen (vram s) c (color s).

(** [Writer::new] *)
Definition Writer_new (v : list ScreenChar) : Screen := mkScreen v 0 (ColorCode_new White Black).

(** [Writer::cell] *)
Definition cell (row col : nat) : nat := (row * BUFFER_WIDTH + col)%nat.

Definition sprog (A : Type) : Type := prog Screen Empty_set A.

(** [write_volatile] and [read_volatile] on a cell of the buffer. *)
Definition write_cell (i : nat) (c : ScreenChar) : sprog unit :=
  let! s := pget in
  passert (i <? length (vram s))%nat ;;!
  pput (set_vram (<[i := c]> (vram s)) s).

Definition read_cell (i : nat) : sprog ScreenChar :=
  let! s := pget in punwrap (vram s !! i).

Definition clear_row (row : nat) : sprog unit :=
  let! s := pget in
  let blank := mkChar x20 (color s) in
  pfold (fun _ col => write_cell (cell row col) blank) (seq 0 BUFFER_WIDTH) tt.

Definition new_line : sprog unit :=
  pfold (fun _ row =>
    pfold (fun _ col =>
      let! c := read_cell (cell row col) in
      write_cell (cell (row - 1) col) c) (seq 0 BUFFER_WIDTH) tt)
    (seq 1 (BUFFER_HEIGHT - 1)) tt ;;!
  clear_row (BUFFER_HEIGHT - 1) ;;!
  pmodify (set_column 0).

Definition write_byte (b : byte) : sprog unit :=
  match b with
  | x0a => new_line
  | _ =>
      let! s := pget in
      (if (BUFFER_WIDTH <=? column s)%nat then new_line else pret tt) ;;!
      let! s := pget in
      write_cell (cell (BUFFER_HEIGHT - 1) (column s)) (mkChar b (color s)) ;;!
      pmodify (set_column (S (column s)))
  end.

(** The replacement [write_filtered] prints for a byte. *)
Definition filtered (b : byte) : byte :=
  if in_range 0x20 0x7e b || Byte.eqb b x0a then b else xfe.

Definition write_filtered (bytes : list byte) : sprog unit :=
  pfold (fun _ b => write_byte (filtered b)) bytes tt.

Definition write_string (s : list byte) : sprog unit := write_filtered s.

Definition backspace : sprog unit :=
  let! s := pget in
  if (0 <? column s)%nat then
    pmodify (set_column (column s - 1)) ;;!
    write_cell (cell (BUFFER_HEIGHT - 1) (column s - 1)) (mkChar x20 (color s))
  else pret tt.

(** [vga::write_bytes] *)
Definition vga_write_bytes (bytes : list byte) : sprog unit := write_filtered bytes.

(** ** What the screen shows *)

Definition CELLS : nat := (BUFFER_HEIGHT * BUFFER_WIDTH)%nat.

(** Pieces of at most [n] bytes; an empty line is one empty row. *)
Fixpoint chunks (fuel n : nat) (l : list byte) : list (list byte) :=
  match fuel with
  | O => [l]
  | S fuel' => if (length l <=? n)%nat then [l] else take n l :: chunks fuel' n (drop n l)
  end.

(** The rows a text takes: its lines, cut at the width of the screen. *)
Definition rows_of (text : list byte) : list (list byte) :=
  concat ((fun line => chunks (length line) BUFFER_WIDTH line) <$> split_on x0a text).

(** A row of the screen: its characters, padded with blanks. *)
Definition row_cells (col : Z) (row : list byte) : list ScreenChar :=
  ((fun b => mkChar b col) <$> row) ++ replicate (BUFFER_WIDTH - length row) (mkChar x20 col).

Definition lastn {A} (n : nat) (l : list A) : list A := drop (length l - n) l.

(** The video memory holds the end of [hist] followed by the row [cur], at
    whose end the cursor stands. *)
Record shows (s : Screen) (hist : list ScreenChar) (cur : list byte) : Prop := {
  sh_hist : (CELLS - BUFFER_WIDTH <= length hist)%nat;
  sh_cur : (length cur <= BUFFER_WIDTH)%nat;
  sh_col : column s = length cur;
  sh_vram : vram s = lastn CELLS (hist ++ row_cells (color s) cur)
}.

(** ** Scrolling *)

Lemma wp_write_cell i c s (Q : unit -> Screen -> Prop) X :
  (i < length (vram s))%nat -> Q tt (set_vram (<[i := c]> (vram s)) s) -> wp (write_cell i c) Q X s.
Proof. intros Hi HQ. unfold write_cell. apply wp_bind, wp_get, wp_bind, wp_assert; [by apply Nat.ltb_lt|done]. Qed.

Lemma wp_read_cell i c s (Q : ScreenChar -> Screen -> Prop) X :
  vram s !! i = Some c -> Q c s -> wp (read_cell i) Q X s.
Proof. intros Hi HQ. unfold read_cell. apply wp_bind, wp_get. by eapply wp_unwrap. Qed.

(** The buffer after the first [k] cells were moved up a row. *)
Definition shifted (k : nat) (v : list ScreenChar) : list ScreenChar :=
  take k (drop BUFFER_WIDTH v) ++ drop k v.

Lemma shifted_0 v : shifted 0 v = v.
Proof. unfold shifted. by rewrite take_0, drop_0. Qed.

Lemma length_shifted k v : (k + BUFFER_WIDTH <= length v)%nat -> length (shifted k v) = length v.
Proof. intros. unfold shifted. rewrite length_app, length_take, !length_drop. lia. Qed.

Lemma shifted_lookup k v : (k + BUFFER_WIDTH <= length v)%nat ->
  shifted k v !! (k + BUFFER_WIDTH)%nat = v !! (k + BUFFER_WIDTH)%nat.
Proof.
  intros. unfold shifted. rewrite lookup_app_r by (rewrite length_take, length_drop; lia).
  rewrite lookup_drop, length_take, length_drop. f_equal. lia.
Qed.

Lemma shifted_step k v c :
  v !! (k + BUFFER_WIDTH)%nat = Some c -> <[k := c]> (shifted k v) = shifted (S k) v.
Proof.
  intros Hc. assert (k + BUFFER_WIDTH < length v)%nat by (by eapply lookup_lt_Some).
  unfold shifted. rewrite (take_S_r _ k c) by (rewrite lookup_drop; by rewrite Nat.add_comm).
  destruct (lookup_lt_is_Some_2 v k) as [d Hd]; [lia|].
  rewrite (drop_S v d k) by done. rewrite <- app_assoc.
  rewrite insert_app_r_alt by (rewrite length_take, length_drop; lia).
  rewrite length_take, length_drop. replace (k - _)%nat with 0%nat by lia. done.
Qed.

Lemma wp_copy_row v row s :
  (1 <= row)%nat -> (row * BUFFER_WIDTH + BUFFER_WIDTH <= length v)%nat ->
  wp (pfold (fun _ col => let! c := read_cell (cell row col) in write_cell (cell (row - 1) col) c)
        (seq 0 BUFFER_WIDTH) tt : sprog unit)
    (fun _ s' => s' = set_vram (shifted (row * BUFFER_WIDTH) v) s) (fun _ _ => False)
    (set_vram (shifted ((row - 1) * BUFFER_WIDTH) v) s).
Proof.
  intros H1 Hl.
  set (I k (_ : unit) s' := s' = set_vram (shifted ((row - 1) * BUFFER_WIDTH + k) v) s).
  replace (row * BUFFER_WIDTH)%nat with ((row - 1) * BUFFER_WIDTH + (0 + BUFFER_WIDTH))%nat
    by (unfold BUFFER_WIDTH; lia).
  apply (wp_pfold_seq _ I); [unfold I; by rewrite Nat.add_0_r|].
  intros k [] s' Hk ->. unfold cell. set (i := ((row - 1) * BUFFER_WIDTH + k)%nat).
  replace (row * BUFFER_WIDTH + k)%nat with (i + BUFFER_WIDTH)%nat
    by (subst i; unfold BUFFER_WIDTH in *; lia).
  assert (i + BUFFER_WIDTH < length v)%nat by (subst i; unfold BUFFER_WIDTH in *; lia).
  destruct (lookup_lt_is_Some_2 v (i + BUFFER_WIDTH)) as [c Hc]; [done|].
  apply wp_bind. eapply wp_read_cell; [cbn; rewrite shifted_lookup by lia; done|].
  apply wp_write_cell; [cbn; rewrite length_shifted; lia|].
  unfold I, set_vram. cbn. rewrite (shifted_step i v c Hc). do 2 f_equal. subst i. lia.
Qed.

(** The buffer after [k] cells of the last row were cleared. *)
Lemma wp_clear_last s :
  length (vram s) = CELLS ->
  wp (clear_row (BUFFER_HEIGHT - 1))
    (fun _ s' => s' = set_vram (take (CELLS - BUFFER_WIDTH) (vram s) ++
                                replicate BUFFER_WIDTH (mkChar x20 (color s))) s) (fun _ _ => False) s.
Proof.
  intros Hl. unfold clear_row. apply wp_bind, wp_get.
  set (b := mkChar x20 (color s)).
  set (n := (CELLS - BUFFER_WIDTH)%nat). assert (n = 1920)%nat as Hn by done.
  set (J k := take n (vram s) ++ replicate k b ++ drop (n + k) (vram s)).
  set (I k (_ : unit) s' := s' = set_vram (J k) s).
  eapply wp_mono; [apply (wp_pfold_seq _ I (fun _ _ => False) 0 BUFFER_WIDTH) | | done].
  - unfold I, J. cbn [replicate app]. rewrite Nat.add_0_r, take_drop. by destruct s.
  - intros k [] s' Hk ->. unfold BUFFER_WIDTH, CELLS in *. apply wp_write_cell.
    + unfold J. cbn [vram set_vram]. rewrite !length_app, length_take, length_replicate, length_drop.
      unfold cell, BUFFER_WIDTH, BUFFER_HEIGHT in *. lia.
    + unfold I, set_vram. cbn [vram column color]. f_equal.
      replace (cell (BUFFER_HEIGHT - 1) k) with (n + k)%nat by (unfold cell, BUFFER_HEIGHT, BUFFER_WIDTH in *; lia).
      unfold J. rewrite insert_app_r_alt by (rewrite length_take; lia). f_equal.
      rewrite length_take. replace (_ - _)%nat with k by lia.
      rewrite insert_app_r_alt by (rewrite length_replicate; lia). rewrite length_replicate, Nat.sub_diag.
      destruct (lookup_lt_is_Some_2 (vram s) (n + k)) as [d Hd]; [lia|].
      rewrite (drop_S _ d) by done. rewrite replicate_S_end, <- app_assoc.
      done.
  - intros [] s' ->. unfold J. f_equal. rewrite drop_ge; [by rewrite app_nil_r|].
    rewrite Hl, Hn. done.
Qed.

Lemma wp_new_line s :
  length (vram s) = CELLS ->
  wp new_line
    (fun _ s' => s' = mkScreen (drop BUFFER_WIDTH (vram s) ++ replicate BUFFER_WIDTH (mkChar x20 (color s)))
                        0 (color s)) (fun _ _ => False) s.
Proof.
  intros Hl. unfold new_line. apply wp_bind.
  set (I k (_ : unit) s' := s' = set_vram (shifted ((k - 1) * BUFFER_WIDTH) (vram s)) s).
  eapply wp_mono; [apply (wp_pfold_seq _ I (fun _ _ => False) 1 (BUFFER_HEIGHT - 1)) | | intros ? ? []].
  - unfold I. rewrite shifted_0. by destruct s.
  - intros row [] s' Hrow ->. unfold I. replace (S row - 1)%nat with row by lia.
    apply wp_copy_row; [lia|]. rewrite Hl. unfold CELLS, BUFFER_HEIGHT, BUFFER_WIDTH in *. lia.
  - intros [] s' ->. unfold CELLS in Hl. apply wp_bind. eapply wp_mono; [apply wp_clear_last| |intros ? ? []].
    + cbn [vram set_vram]. rewrite length_shifted; [done|].
      rewrite Hl. unfold BUFFER_HEIGHT, BUFFER_WIDTH. lia.
    + intros [] s' ->. unfold pmodify, wp, set_column, set_vram. cbn [vram column color].
      f_equal. f_equal. unfold shifted. rewrite take_app_le.
      2: { rewrite length_take, length_drop, Hl. unfold CELLS, BUFFER_HEIGHT, BUFFER_WIDTH. lia. }
      rewrite take_take, take_ge; [done|]. rewrite length_drop, Hl.
      unfold CELLS, BUFFER_HEIGHT, BUFFER_WIDTH. lia.
Qed.

(** ** The text *)

Lemma length_row_cells col row : (length row <= BUFFER_WIDTH)%nat -> length (row_cells col row) = BUFFER_WIDTH.
Proof. intros. unfold row_cells. rewrite length_app, length_fmap, length_replicate. lia. Qed.

Lemma length_lastn {A} n (l : list A) : (n <= length l)%nat -> length (lastn n l) = n.
Proof. intros. unfold lastn. rewrite length_drop. lia. Qed.

Lemma lastn_app_r {A} n (l1 l2 : list A) :
  (length l2 <= n)%nat -> (n <= length l1 + length l2)%nat ->
  lastn n (l1 ++ l2) = lastn (n - length l2) l1 ++ l2.
Proof.
  intros. unfold lastn. rewrite drop_app_le by (rewrite length_app; lia). rewrite length_app.
  do 2 f_equal. lia.
Qed.

Lemma lastn_drop {A} n m (l : list A) : (m <= n <= length l)%nat -> drop m (lastn n l) = lastn (n - m) l.
Proof. intros. unfold lastn. rewrite drop_drop. f_equal. lia. Qed.

Lemma shows_length s hist cur : shows s hist cur -> length (vram s) = CELLS.
Proof.
  intros [H1 H2 H3 ->]. rewrite length_lastn; [done|]. rewrite length_app, length_row_cells by done.
  lia.
Qed.

Lemma wp_new_line_shows s hist cur :
  shows s hist cur ->
  wp new_line (fun _ s' => color s' = color s /\ shows s' (hist ++ row_cells (color s) cur) [])
    (fun _ _ => False) s.
Proof.
  intros H. eapply wp_mono; [by eapply wp_new_line, shows_length| |intros ? ? []].
  intros [] s' ->. split; [done|]. destruct H as [H1 H2 H3 H4].
  pose proof (length_row_cells (color s) cur H2) as Hr.
  assert (CELLS = 2000)%nat by done. assert (BUFFER_WIDTH = 80)%nat by done.
  split; cbn [column color vram length]; rewrite ?length_app; try lia.
  rewrite H4. rewrite lastn_drop by (rewrite length_app; lia).
  rewrite (lastn_app_r _ (hist ++ _)).
  - rewrite length_row_cells by (cbn; lia). done.
  - rewrite length_row_cells by (cbn; lia). lia.
  - rewrite length_app, !length_row_cells by (cbn; lia). lia.
Qed.

Lemma row_cells_snoc col cur b :
  (length cur < BUFFER_WIDTH)%nat ->
  <[length cur := mkChar b col]> (row_cells col cur) = row_cells col (cur ++ [b]).
Proof.
  intros Hc. unfold row_cells. rewrite insert_app_r_alt by (rewrite length_fmap; lia).
  rewrite length_fmap, Nat.sub_diag, fmap_app, <- app_assoc, length_app. f_equal. cbn [length].
  replace (BUFFER_WIDTH - length cur)%nat with (S (BUFFER_WIDTH - (length cur + 1))) by lia. done.
Qed.

(** Printing [b] after the rows [hist] and the unfinished row [cur]. *)
Definition put (col : Z) (st : list ScreenChar * list byte) (b : byte) : list ScreenChar * list byte :=
  let '(hist, cur) := st in
  if Byte.eqb b x0a then (hist ++ row_cells col cur, [])
  else if (BUFFER_WIDTH <=? length cur)%nat then (hist ++ row_cells col cur, [b])
  else (hist, cur ++ [b]).

Lemma wp_write_byte s hist cur b :
  shows s hist cur ->
  wp (write_byte b)
    (fun _ s' => color s' = color s /\
                 shows s' (put (color s) (hist, cur) b).1 (put (color s) (hist, cur) b).2)
    (fun _ _ => False) s.
Proof.
  intros H. unfold put. destruct (Byte.eqb b x0a) eqn:Eb.
  { apply byte_eqb_eq in Eb as ->. by apply wp_new_line_shows. }
  assert (write_byte b = (let! s := pget in
      (if (BUFFER_WIDTH <=? column s)%nat then new_line else pret tt) ;;!
      let! s := pget in
      write_cell (cell (BUFFER_HEIGHT - 1) (column s)) (mkChar b (color s)) ;;!
      pmodify (set_column (S (column s))))) as -> by (destruct b; done).
  assert (Hput : forall t h c, shows t h c -> (length c < BUFFER_WIDTH)%nat -> color t = color s ->
    wp (let! s := pget in
        write_cell (cell (BUFFER_HEIGHT - 1) (column s)) (mkChar b (color s)) ;;!
        pmodify (set_column (S (column s))))
      (fun _ s' => color s' = color s /\ shows s' h (c ++ [b])) (fun _ _ => False) t).
  { intros t h c Ht Hc Hcol. pose proof (shows_length _ _ _ Ht) as Hlen. destruct Ht as [H1 H2 H3 H4].
    assert (CELLS = 2000)%nat by done. assert (BUFFER_WIDTH = 80)%nat by done.
    assert (cell (BUFFER_HEIGHT - 1) (column t) = 1920 + length c)%nat as Hi by (rewrite H3; done).
    apply wp_bind, wp_get, wp_bind. rewrite Hi. apply wp_write_cell; [lia|].
    split; [done|]. split; cbn [column color vram set_vram set_column]; rewrite ?length_app; cbn [length]; try lia.
    rewrite H4, <- row_cells_snoc by done.
    pose proof (length_row_cells (color t) c H2).
    rewrite !lastn_app_r by (rewrite ?length_insert; lia). rewrite length_insert.
    rewrite insert_app_r_alt by (rewrite length_lastn; lia). rewrite length_lastn by lia.
    do 2 f_equal. lia. }
  apply wp_bind, wp_get, wp_bind. rewrite (sh_col _ _ _ H).
  destruct (BUFFER_WIDTH <=? length cur)%nat eqn:Hw; zbool.
  - eapply wp_mono; [by apply wp_new_line_shows| |done]. intros [] s' [Hc Hs].
    eapply wp_mono; [apply (Hput _ _ _ Hs)|done|done]; [unfold BUFFER_WIDTH; cbn; lia|done].
  - apply wp_ret. by apply Hput.
Qed.

Lemma wp_write_filtered s st bytes :
  shows s st.1 st.2 ->
  wp (write_filtered bytes)
    (fun _ s' => color s' = color s /\
       shows s' (foldl (put (color s)) st (filtered <$> bytes)).1
                (foldl (put (color s)) st (filtered <$> bytes)).2)
    (fun _ _ => False) s.
Proof.
  unfold write_filtered. revert s st. induction bytes as [|b bytes IH]; intros s [hist cur] H.
  { by apply wp_ret. }
  cbn [pfold]. rewrite fmap_cons. cbn [foldl]. apply wp_bind.
  eapply wp_mono; [by apply wp_write_byte| |done]. intros [] s' [Hc Hs].
  eapply wp_mono; [by apply IH| |done]. intros [] s'' [Hc' Hs']. rewrite Hc in *. done.
Qed.

(** ** The rows of a text *)

Definition rows_of_line (line : list byte) : list (list byte) := chunks (length line) BUFFER_WIDTH line.

Lemma chunks_fuel f n l : (0 < n)%nat -> (length l <= f)%nat -> chunks f n l = chunks (length l) n l.
Proof.
  intros Hn. revert l. induction (lt_wf f) as [f _ IH]; intros l Hl.
  destruct f as [|f].
  { by destruct l; [|cbn in Hl; lia]. }
  destruct l as [|b l]; [done|]. cbn [chunks length].
  destruct (S (length l) <=? n)%nat eqn:E; [done|]. zbool. f_equal. cbn [length] in Hl.
  assert (length (drop n (b :: l)) <= length l)%nat by (rewrite length_drop; cbn [length]; lia).
  rewrite (IH f) by lia. symmetry. apply IH; lia.
Qed.

Lemma rows_of_line_short line : (length line <= BUFFER_WIDTH)%nat -> rows_of_line line = [line].
Proof.
  intros. unfold rows_of_line. destruct line; [done|]. cbn [length chunks].
  by rewrite (proj2 (Nat.leb_le _ _)).
Qed.

Lemma rows_of_line_long line rest :
  length line = BUFFER_WIDTH -> rest <> [] -> rows_of_line (line ++ rest) = line :: rows_of_line rest.
Proof.
  intros Hl Hr. unfold rows_of_line at 1. rewrite length_app.
  destruct rest as [|b rest]; [done|]. cbn [length]. rewrite Nat.add_succ_r. cbn [chunks].
  rewrite length_app. cbn [length]. rewrite (proj2 (Nat.leb_gt _ _)) by lia.
  rewrite take_app_length', drop_app_length' by done. f_equal.
  apply chunks_fuel; unfold BUFFER_WIDTH in *; cbn [length]; lia.
Qed.

(** The rows printed from the unfinished row [cur] on. *)
Fixpoint wrap (cur text : list byte) : list (list byte) :=
  match text with
  | [] => [cur]
  | b :: text' =>
      if Byte.eqb b x0a then cur :: wrap [] text'
      else if (BUFFER_WIDTH <=? length cur)%nat then cur :: wrap [b] text'
      else wrap (cur ++ [b]) text'
  end.

Lemma wrap_rows cur text :
  (length cur <= BUFFER_WIDTH)%nat ->
  wrap cur text = match split_on x0a text with
                  | [] => []
                  | w :: ws => rows_of_line (cur ++ w) ++ concat (rows_of_line <$> ws)
                  end.
Proof.
  revert cur. induction text as [|b text IH]; intros cur Hc; cbn [wrap split_on].
  { by rewrite (app_nil_r cur), rows_of_line_short. }
  pose proof (split_on_nonempty x0a text).
  destruct (split_on x0a text) as [|w ws]; [done|]. destruct (Byte.eqb b x0a).
  - rewrite IH by (cbn; lia). by rewrite (app_nil_r cur), (rows_of_line_short cur).
  - destruct (BUFFER_WIDTH <=? length cur)%nat eqn:E; zbool.
    + rewrite IH by (unfold BUFFER_WIDTH in *; cbn; lia). rewrite (rows_of_line_long cur (b :: w)) by (done || lia). done.
    + rewrite IH by (rewrite length_app; cbn; lia). by rewrite <- app_assoc.
Qed.

Lemma split_on_app cur text :
  x0a ∉ cur ->
  split_on x0a (cur ++ text) = match split_on x0a text with [] => [] | w :: ws => (cur ++ w) :: ws end.
Proof.
  induction cur as [|b cur IH]; cbn [app split_on]; [by destruct (split_on x0a text)|].
  rewrite not_elem_of_cons. intros [Hb Hn]. rewrite IH by done.
  rewrite (proj2 (byte_eqb_neq b x0a)) by done.
  pose proof (split_on_nonempty x0a text). by destruct (split_on x0a text).
Qed.

Lemma wrap_nonempty cur text : wrap cur text <> [].
Proof.
  revert cur. induction text as [|b text IH]; intros cur; cbn [wrap]; [done|].
  destruct (Byte.eqb b x0a); [done|]. by destruct (BUFFER_WIDTH <=? length cur)%nat.
Qed.

Lemma last_wrap_cons row cur text : last (row :: wrap cur text) = last (wrap cur text).
Proof. pose proof (wrap_nonempty cur text). by destruct (wrap cur text). Qed.

Lemma put_rows col st text :
  (foldl (put col) st text).1 ++ row_cells col (foldl (put col) st text).2 =
    st.1 ++ concat (row_cells col <$> wrap st.2 text) /\
  last (wrap st.2 text) = Some (foldl (put col) st text).2.
Proof.
  revert st. induction text as [|b text IH]; intros [hist cur]; cbn [foldl wrap fst snd].
  { cbn. by rewrite app_nil_r. }
  destruct (IH (put col (hist, cur) b)) as [-> H2]. unfold put in *.
  destruct (Byte.eqb b x0a); [|destruct (BUFFER_WIDTH <=? length cur)%nat]; cbn [fst snd] in *;
    rewrite ?last_wrap_cons, ?fmap_cons; cbn [concat]; rewrite <- ?app_assoc; done.
Qed.

(** The screen shows what was printed: when the video memory holds the end
    of some history followed by the unfinished row [cur], printing any bytes
    leaves it holding the last 25 rows of that history followed by the text,
    cut into lines at the newlines and into rows at column 80, with the bytes
    outside printable ASCII replaced; the cursor stands after the last
    character, and no store leaves the buffer. *)
Theorem screen_shows_text s hist cur bytes :
  shows s hist cur -> x0a ∉ cur ->
  wp (vga_write_bytes bytes)
    (fun _ s' =>
       let rows := rows_of (cur ++ (filtered <$> bytes)) in
       vram s' = lastn CELLS (hist ++ concat (row_cells (color s) <$> rows)) /\
       last (length <$> rows) = Some (column s') /\ length (vram s') = CELLS)
    (fun _ _ => False) s.
Proof.
  intros H Hn. eapply wp_mono; [by apply (wp_write_filtered s (hist, cur))| |done].
  intros [] s' [Hc Hs].
  destruct (put_rows (color s) (hist, cur) (filtered <$> bytes)) as [H1 H2].
  assert (Hr : rows_of (cur ++ (filtered <$> bytes)) = wrap cur (filtered <$> bytes)).
  { unfold rows_of. rewrite wrap_rows by apply H. rewrite split_on_app by done.
    by destruct (split_on x0a _). }
  cbv zeta. rewrite Hr. split_and!.
  - rewrite (sh_vram _ _ _ Hs), Hc, H1. done.
  - cbn [snd] in H2. rewrite fmap_last, H2. cbn. by rewrite (sh_col _ _ _ Hs).
  - by eapply shows_length.
Qed.

Lemma screen_shows_text_witness :
  let s := Writer_new (replicate CELLS (mkChar x20 15)) in
  shows s (replicate (CELLS - BUFFER_WIDTH) (mkChar x20 15)) [] /\
  wp (vga_write_bytes (bs "ok"))
    (fun _ s' =>
       let rows := rows_of ([] ++ (filtered <$> bs "ok")) in
       vram s' = lastn CELLS (replicate (CELLS - BUFFER_WIDTH) (mkChar x20 15) ++
                              concat (row_cells (color s) <$> rows)) /\
       last (length <$> rows) = Some (column s') /\ length (vram s') = CELLS)
    (fun _ _ => False) s.
Proof.
  intros s.
  assert (H : shows s (replicate (CELLS - BUFFER_WIDTH) (mkChar x20 15)) []).
  { split; [rewrite length_replicate; lia|cbn; unfold BUFFER_WIDTH; lia|reflexivity|vm_compute; reflexivity]. }
  split; [exact H|]. apply (screen_shows_text _ _ [] (bs "ok") H). apply not_elem_of_nil.
Defined.
