(* ===== verification/Machine.v ===== *)
(** * The processor as the assembly of the kernel uses it

    The registers, the stack in memory and the instructions that occur in
    [src/arch/x86_64/context.rs] and [src/arch/x86_64/syscall.rs]; a routine is
    the list of its instructions, one per line of the source. *)

From stdpp Require Import base numbers list gmap.
From Stdlib Require Import ZArith Lia.
From S2P Require Import Prelude.
#[local] Open Scope Z_scope.

Inductive reg : Type :=
| RAX | RBX | RCX | RDX | RSI | RDI | RBP | RSP
| R8 | R9 | R10 | R11 | R12 | R13 | R14 | R15.

#[export] Instance reg_eq_dec : EqDecision reg.
Proof. solve_decision. Defined.

(** [mem] holds the 64-bit words of the kernel stacks, by address.  [cr3] is the
    page-table root, [rsp0] the stack of the TSS, [fs_base] the MSR, [fpu] what
    [fxsave] would store, [scratch] and [kstack] the statics
    [SYSCALL_SCRATCH] and [SYSCALL_KERNEL_RSP]. *)
Record machine : Type := mkMachine {
  gpr : reg -> Z;
  rip : Z;
  rflags : Z;
  cs : Z;
  ss : Z;
  mem : gmap Z Z;
  cr3 : Z;
  rsp0 : Z;
  fs_base : Z;
  fpu : list byte;
  scratch : Z;
  kstack : Z;
}.

Definition set_gpr (g : reg -> Z) (m : machine) : machine :=
  mkMachine g (rip m) (rflags m) (cs m) (ss m) (mem m) (cr3 m) (rsp0 m) (fs_base m) (fpu m) (scratch m) (kstack m).
Definition set_mem (w : gmap Z Z) (m : machine) : machine :=
  mkMachine (gpr m) (rip m) (rflags m) (cs m) (ss m) w (cr3 m) (rsp0 m) (fs_base m) (fpu m) (scratch m) (kstack m).
Definition set_rip (x : Z) (m : machine) : machine :=
  mkMachine (gpr m) x (rflags m) (cs m) (ss m) (mem m) (cr3 m) (rsp0 m) (fs_base m) (fpu m) (scratch m) (kstack m).
Definition set_rflags (x : Z) (m : machine) : machine :=
  mkMachine (gpr m) (rip m) x (cs m) (ss m) (mem m) (cr3 m) (rsp0 m) (fs_base m) (fpu m) (scratch m) (kstack m).
Definition set_segments (c s : Z) (m : machine) : machine :=
  mkMachine (gpr m) (rip m) (rflags m) c s (mem m) (cr3 m) (rsp0 m) (fs_base m) (fpu m) (scratch m) (kstack m).
Definition set_cr3 (x : Z) (m : machine) : machine :=
  mkMachine (gpr m) (rip m) (rflags m) (cs m) (ss m) (mem m) x (rsp0 m) (fs_base m) (fpu m) (scratch m) (kstack m).
Definition set_rsp0 (x : Z) (m : machine) : machine :=
  mkMachine (gpr m) (rip m) (rflags m) (cs m) (ss m) (mem m) (cr3 m) x (fs_base m) (fpu m) (scratch m) (kstack m).
Definition set_fs_base (x : Z) (m : machine) : machine :=
  mkMachine (gpr m) (rip m) (rflags m) (cs m) (ss m) (mem m) (cr3 m) (rsp0 m) x (fpu m) (scratch m) (kstack m).
Definition set_fpu (x : list byte) (m : machine) : machine :=
  mkMachine (gpr m) (rip m) (rflags m) (cs m) (ss m) (mem m) (cr3 m) (rsp0 m) (fs_base m) x (scratch m) (kstack m).
Definition set_scratch (x : Z) (m : machine) : machine :=
  mkMachine (gpr m) (rip m) (rflags m) (cs m) (ss m) (mem m) (cr3 m) (rsp0 m) (fs_base m) (fpu m) x (kstack m).
Definition set_kstack (x : Z) (m : machine) : machine :=
  mkMachine (gpr m) (rip m) (rflags m) (cs m) (ss m) (mem m) (cr3 m) (rsp0 m) (fs_base m) (fpu m) (scratch m) x.

(** ** Memory and registers *)

Definition wset (g : reg -> Z) (r : reg) (x : Z) : reg -> Z :=
  fun q => if decide (q = r) then x else g q.

Definition set_reg (r : reg) (x : Z) (m : machine) : machine := set_gpr (wset (gpr m) r x) m.

Definition word (w : gmap Z Z) (a : Z) : Z := default 0 (w !! a).

(** A 64-bit address computation. *)
Definition addr (a : Z) : Z := a mod U64.

Definition push (x : Z) (m : machine) : machine :=
  let sp := addr (gpr m RSP - 8) in
  set_reg RSP sp (set_mem (<[sp := x]> (mem m)) m).

Definition top (m : machine) : Z := word (mem m) (gpr m RSP).

Definition drop_word (m : machine) : machine := set_reg RSP (addr (gpr m RSP + 8)) m.

(** ** Instructions *)

Definition IF_BIT : Z := 0x200.

Inductive instr : Type :=
| Push (r : reg)
| PushImm (x : Z)
| PushScratch            (* push qword ptr [rip + scratch] *)
| Pop (r : reg)
| StoreRspAtRdi          (* mov [rdi], rsp *)
| MovRR (dst src : reg)  (* mov dst, src *)
| StoreScratchRsp        (* mov [rip + scratch], rsp *)
| LoadRspKstack          (* mov rsp, [rip + kstack] *)
| Sti
| CallR15 (ret : Z)      (* call r15, with the address that follows it *)
| RetNear
| Iretq
| Syscall (lstar sfmask kcs kss : Z) (* with what the MSRs hold *)
| Sysretq (ucs uss : Z). (* with the selectors the CPU takes from STAR *)

Definition exec (i : instr) (m : machine) : machine :=
  match i with
  | Push r => push (gpr m r) m
  | PushImm x => push x m
  | PushScratch => push (scratch m) m
  | Pop RSP => set_reg RSP (top m) m
  | Pop r => drop_word (set_reg r (top m) m)
  | StoreRspAtRdi => set_mem (<[gpr m RDI := gpr m RSP]> (mem m)) m
  | MovRR dst src => set_reg dst (gpr m src) m
  | StoreScratchRsp => set_scratch (gpr m RSP) m
  | LoadRspKstack => set_reg RSP (kstack m) m
  | Sti => set_rflags (Z.lor (rflags m) IF_BIT) m
  | CallR15 ret => set_rip (gpr m R15) (push ret m)
  | RetNear => drop_word (set_rip (top m) m)
  | Iretq =>
      let sp := gpr m RSP in
      let w k := word (mem m) (addr (sp + 8 * k)) in
      set_reg RSP (w 3) (set_segments (w 1) (w 4) (set_rflags (w 2) (set_rip (w 0) m)))
  | Syscall lstar sfmask kcs kss =>
      let m1 := set_reg R11 (rflags m) (set_reg RCX (rip m) m) in
      set_segments kcs kss (set_rip lstar (set_rflags (Z.ldiff (rflags m) sfmask) m1))
  | Sysretq ucs uss =>
      set_segments ucs uss (set_rip (gpr m RCX) (set_rflags (gpr m R11) m))
  end.

Fixpoint run (l : list instr) (m : machine) : machine :=
  match l with
  | [] => m
  | i :: l' => run l' (exec i m)
  end.

(** A Rust function that stores [xs] downwards from [sp], the first one highest. *)
Fixpoint store_down (sp : Z) (xs : list Z) (w : gmap Z Z) : Z * gmap Z Z :=
  match xs with
  | [] => (sp, w)
  | x :: xs' => store_down (addr (sp - 8)) xs' (<[addr (sp - 8) := x]> w)
  end.

(** ** Lemmas *)

Lemma addr_small a : 0 <= a < U64 -> addr a = a.
Proof. apply Z.mod_small. Qed.

Lemma run_app l1 l2 m : run (l1 ++ l2) m = run l2 (run l1 m).
Proof. revert m; induction l1 as [|i l1 IH]; intros m; [done|]. apply IH. Qed.

Lemma wset_eq g r x : wset g r x r = x.
Proof. unfold wset. by rewrite decide_True. Qed.

Lemma wset_ne g r x q : q <> r -> wset g r x q = g q.
Proof. unfold wset. intros. by rewrite decide_False. Qed.

Lemma fmap_wset g r x (rs : list reg) : r ∉ rs -> wset g r x <$> rs = g <$> rs.
Proof.
  intros Hr. apply list_fmap_ext. intros i q Hq. apply wset_ne. intros ->. apply Hr.
  by eapply list_elem_of_lookup_2.
Qed.

Lemma word_insert_eq w a x : word (<[a := x]> w) a = x.
Proof. unfold word. by rewrite lookup_insert_eq. Qed.

Lemma word_insert_ne w a b x : a <> b -> word (<[a := x]> w) b = word w b.
Proof. unfold word. intros. by rewrite lookup_insert_ne. Qed.

(** The words below [hi] are those listed, the first one highest. *)
Fixpoint words_below (w : gmap Z Z) (hi : Z) (xs : list Z) : Prop :=
  match xs with
  | [] => True
  | x :: xs' => word w (hi - 8) = x /\ words_below w (hi - 8) xs'
  end.

Lemma words_below_ext w w' hi xs :
  (forall a, hi - 8 * Z.of_nat (length xs) <= a < hi -> word w' a = word w a) ->
  words_below w hi xs -> words_below w' hi xs.
Proof.
  revert hi; induction xs as [|x xs IH]; intros hi E; [done|]. intros [H1 H2]. cbn [length] in E. split.
  - rewrite E; [done|lia].
  - apply IH; [|done]. intros a Ha. apply E. lia.
Qed.

Lemma store_down_spec sp xs w :
  8 * Z.of_nat (length xs) <= sp < U64 ->
  (store_down sp xs w).1 = sp - 8 * Z.of_nat (length xs) /\
  words_below (store_down sp xs w).2 sp xs /\
  forall a, ~ (sp - 8 * Z.of_nat (length xs) <= a < sp) -> word (store_down sp xs w).2 a = word w a.
Proof.
  revert sp w; induction xs as [|x xs IH]; intros sp w Hsp; [simpl; split_and!; [lia|done|done]|].
  cbn [length store_down] in *. rewrite addr_small by lia.
  destruct (IH (sp - 8) (<[sp - 8 := x]> w) ltac:(lia)) as (E1 & E2 & E3).
  split_and!; [lia| |].
  - split; [|done]. rewrite E3 by lia. apply word_insert_eq.
  - intros a Ha. rewrite E3 by lia. apply word_insert_ne. lia.
Qed.

(** A run of pushes stores the registers downwards. *)
Lemma run_pushes rs m :
  RSP ∉ rs -> 8 * Z.of_nat (length rs) <= gpr m RSP < U64 ->
  let m' := run (Push <$> rs) m in
  m' = set_gpr (gpr m') (set_mem (mem m') m) /\
  gpr m' RSP = gpr m RSP - 8 * Z.of_nat (length rs) /\
  (forall r, r <> RSP -> gpr m' r = gpr m r) /\
  words_below (mem m') (gpr m RSP) (gpr m <$> rs) /\
  forall a, ~ (gpr m RSP - 8 * Z.of_nat (length rs) <= a < gpr m RSP) -> word (mem m') a = word (mem m) a.
Proof.
  revert m; induction rs as [|r rs IH]; intros m Hr Hsp.
  { simpl. split_and!; try done; [by destruct m|lia]. }
  apply not_elem_of_cons in Hr as [Hr Hrs]. cbn [fmap list_fmap run exec length] in *.
  set (m1 := push (gpr m r) m).
  assert (gpr m1 RSP = gpr m RSP - 8) as E0.
  { unfold m1, push. cbn. rewrite wset_eq, addr_small by lia. done. }
  assert (forall q, q <> RSP -> gpr m1 q = gpr m q) as E1.
  { intros q Hq. unfold m1, push. cbn. by apply wset_ne. }
  assert (mem m1 = <[gpr m RSP - 8 := gpr m r]> (mem m)) as E2.
  { unfold m1, push. cbn. by rewrite addr_small by lia. }
  destruct (IH m1 Hrs ltac:(lia)) as (F & G1 & G2 & G3 & G4). rewrite E0 in *.
  split_and!.
  - rewrite F at 1. done.
  - lia.
  - intros q Hq. by rewrite G2, E1.
  - split.
    + rewrite G4 by lia. rewrite E2. apply word_insert_eq.
    + assert (gpr m1 <$> rs = gpr m <$> rs) as <-; [|done].
      apply list_fmap_ext. intros i q Hq. apply E1. intros ->. apply Hrs. by eapply list_elem_of_lookup_2.
  - intros a Ha. rewrite G4 by lia. rewrite E2. apply word_insert_ne. lia.
Qed.

(** The words from [lo] up are those listed. *)
Fixpoint words_at (w : gmap Z Z) (lo : Z) (xs : list Z) : Prop :=
  match xs with
  | [] => True
  | x :: xs' => word w lo = x /\ words_at w (lo + 8) xs'
  end.

Lemma words_at_app w lo xs ys :
  words_at w lo (xs ++ ys) <-> words_at w lo xs /\ words_at w (lo + 8 * Z.of_nat (length xs)) ys.
Proof.
  revert lo; induction xs as [|x xs IH]; intros lo.
  - cbn [app length words_at]. rewrite Z.add_0_r. naive_solver.
  - cbn [app length words_at]. rewrite IH.
    replace (lo + 8 + 8 * Z.of_nat (length xs)) with (lo + 8 * Z.of_nat (S (length xs))) by lia. naive_solver.
Qed.

Lemma words_below_at w hi xs :
  words_below w hi xs <-> words_at w (hi - 8 * Z.of_nat (length xs)) (rev xs).
Proof.
  revert hi; induction xs as [|x xs IH]; intros hi; [done|].
  cbn [rev words_below length]. rewrite words_at_app, IH, length_rev. cbn [words_at].
  replace (hi - 8 - 8 * Z.of_nat (length xs)) with (hi - 8 * Z.of_nat (S (length xs))) by lia.
  replace (hi - 8 * Z.of_nat (S (length xs)) + 8 * Z.of_nat (length xs)) with (hi - 8) by lia. naive_solver.
Qed.

Lemma words_at_ext w w' lo xs :
  (forall a, lo <= a < lo + 8 * Z.of_nat (length xs) -> word w' a = word w a) ->
  words_at w lo xs -> words_at w' lo xs.
Proof.
  revert lo; induction xs as [|x xs IH]; intros lo E; [done|]. intros [H1 H2]. cbn [length] in E. split.
  - rewrite E; [done|lia].
  - apply IH; [|done]. intros a Ha. apply E. lia.
Qed.

Lemma exec_pop r m : r <> RSP -> exec (Pop r) m = drop_word (set_reg r (top m) m).
Proof. by destruct r. Qed.

(** A run of pops loads the registers upwards. *)
Lemma run_pops rs xs m :
  RSP ∉ rs -> NoDup rs -> length xs = length rs -> words_at (mem m) (gpr m RSP) xs ->
  0 <= gpr m RSP -> gpr m RSP + 8 * Z.of_nat (length rs) < U64 ->
  let m' := run (Pop <$> rs) m in
  m' = set_gpr (gpr m') m /\ gpr m' RSP = gpr m RSP + 8 * Z.of_nat (length rs) /\
  (forall r, r <> RSP -> r ∉ rs -> gpr m' r = gpr m r) /\
  gpr m' <$> rs = xs.
Proof.
  revert xs m; induction rs as [|r rs IH]; intros xs m Hr Hnd Hl Hw Hlo Hhi.
  { destruct xs; [|done]. simpl. split_and!; try done; [by destruct m|lia]. }
  destruct xs as [|x xs]; [done|]. destruct Hw as [Hw1 Hw2]. injection Hl as Hl.
  apply not_elem_of_cons in Hr as [Hr Hrs]. apply NoDup_cons in Hnd as [Hn Hnd].
  cbn [fmap list_fmap run length] in *. rewrite exec_pop by done.
  set (m1 := drop_word (set_reg r (top m) m)).
  assert (gpr m1 RSP = gpr m RSP + 8) as E0.
  { unfold m1, drop_word. cbn. rewrite wset_eq, wset_ne, addr_small by (done || lia). done. }
  assert (forall q, q <> RSP -> gpr m1 q = wset (gpr m) r x q) as E1.
  { intros q Hq. unfold m1, drop_word, top. cbn. rewrite wset_ne by done. by rewrite Hw1. }
  destruct (IH xs m1) as (F & G1 & G2 & G3); [done|done|done| |lia|lia|].
  { rewrite E0. done. }
  split_and!.
  - rewrite F at 1. done.
  - lia.
  - intros q Hq [Hq1 Hq2]%not_elem_of_cons. rewrite G2, E1, wset_ne by done. done.
  - f_equal; [|done]. rewrite G2, E1 by done. apply wset_eq.
Qed.

(** Equal images are equal at each register. *)
Lemma fmap_eq_each (f g : reg -> Z) (rs : list reg) : f <$> rs = g <$> rs -> forall r, r ∈ rs -> f r = g r.
Proof.
  induction rs as [|q rs IH]; intros E r Hr; [by apply elem_of_nil in Hr|].
  injection E as E1 E2. apply elem_of_cons in Hr as [->|Hr]; [done|by apply IH].
Qed.

(** Conversion compares addresses rather than unfolding the memory. *)
#[global] Opaque word.
