(* ===== verification/Context.v ===== *)
(** * Context switching

    [src/arch/x86_64/context.rs]: the assembly that saves and restores a
    thread, the initial stacks of new threads, and [switch_task]; and the
    [syscall]/[sysretq] trampolines and the stack of a forked child of
    [src/arch/x86_64/syscall.rs]. *)

From stdpp Require Import base numbers list gmap.
From Stdlib Require Import ZArith Lia.
From S2P Require Import Prelude Machine.
#[local] Open Scope Z_scope.

(** ** Floating-point areas *)

Definition FPU_SIZE : nat := 512.

Definition FpuArea_new_clean : list byte :=
  let area := zeros FPU_SIZE in
  let area := splice area 0 (to_le 2 0x037F) in
  splice area 24 (to_le 4 0x1F80).

Definition FpuArea_save_current (m : machine) : list byte := fpu m.

Definition fxsave (m : machine) : list byte := fpu m.

Definition fxrstor (area : list byte) (m : machine) : machine := set_fpu area m.

(** ** Assembly *)

(** [ferros_switch_context]. *)
Definition ferros_switch_context : list instr :=
  [Push RBP; Push RBX; Push R12; Push R13; Push R14; Push R15;
   StoreRspAtRdi; MovRR RSP RSI;
   Pop R15; Pop R14; Pop R13; Pop R12; Pop RBX; Pop RBP; RetNear].

(** [ferros_thread_trampoline] up to the call; [ret] is the address of its halt loop. *)
Definition ferros_thread_trampoline (ret : Z) : list instr := [Sti; CallR15 ret].

Definition ferros_user_thread_trampoline : list instr :=
  [Push R12; Push R14; PushImm 0x202; Push R13; Push R15; Iretq].

(** [switch_context]: the call pushes the address where the caller resumes. *)
Definition switch_context (old_rsp new_rsp ret : Z) (m : machine) : machine :=
  run ferros_switch_context (push ret (set_reg RSI new_rsp (set_reg RDI old_rsp m))).

(** ** Initial stacks *)

(** [tramp] and [entry] are code addresses. *)
Definition init_thread_stack (tramp stack_top entry : Z) (w : gmap Z Z) : Z * gmap Z Z :=
  store_down stack_top [tramp; 0; 0; 0; 0; 0; entry] w.

Definition init_user_thread_stack (tramp kstack_top entry user_stack_top user_cs user_ss : Z)
    (w : gmap Z Z) : Z * gmap Z Z :=
  store_down kstack_top [tramp; 0; 0; user_ss; user_cs; user_stack_top; entry] w.

(** ** Task switch *)

Definition set_kernel_stack (r : Z) (m : machine) : machine := set_rsp0 r m.

(** [top & !0xF]. *)
Definition align16 (a : Z) : Z := Z.ldiff a 0xF.

Definition set_syscall_stack (t : Z) (m : machine) : machine := set_kstack (align16 t) m.

(** Everything of [switch_task] before the call of [switch_context]; the first
    component is what [fxsave] stores for the outgoing task. *)
Definition load_task (next_cr3 next_rsp0 next_fs_base : Z) (next_fpu : list byte) (m : machine)
    : list byte * machine :=
  let old_fpu := fxsave m in
  let m := fxrstor next_fpu m in
  let m := set_kernel_stack next_rsp0 m in
  let m := set_fs_base next_fs_base m in
  let m := if negb (next_rsp0 =? 0) then set_syscall_stack next_rsp0 m else m in
  let m := if negb (next_cr3 =? cr3 m) then set_cr3 next_cr3 m else m in
  (old_fpu, m).

Definition switch_task (old_rsp new_rsp next_cr3 next_rsp0 next_fs_base : Z) (next_fpu : list byte)
    (ret : Z) (m : machine) : list byte * machine :=
  let '(old_fpu, m) := load_task next_cr3 next_rsp0 next_fs_base next_fpu m in
  (old_fpu, switch_context old_rsp new_rsp ret m).

(** ** System call trampolines *)

(** [SyscallRegs], in the order of the frame, lowest address first. *)
Record SyscallRegs : Type := mkSyscallRegs {
  sr_r15 : Z; sr_r14 : Z; sr_r13 : Z; sr_r12 : Z; sr_rbp : Z; sr_rbx : Z;
  sr_r9 : Z; sr_r8 : Z; sr_r10 : Z; sr_rdx : Z; sr_rsi : Z; sr_rdi : Z;
  sr_rflags : Z; sr_rip : Z; sr_rax : Z; sr_user_rsp : Z;
}.

Definition frame_words (f : SyscallRegs) : list Z :=
  [sr_r15 f; sr_r14 f; sr_r13 f; sr_r12 f; sr_rbp f; sr_rbx f;
   sr_r9 f; sr_r8 f; sr_r10 f; sr_rdx f; sr_rsi f; sr_rdi f;
   sr_rflags f; sr_rip f; sr_rax f; sr_user_rsp f].

(** [ferros_syscall_entry] up to the call of the dispatcher. *)
Definition ferros_syscall_entry : list instr :=
  [StoreScratchRsp; LoadRspKstack; PushScratch;
   Push RAX; Push RCX; Push R11; Push RDI; Push RSI; Push RDX; Push R10; Push R8; Push R9;
   Push RBX; Push RBP; Push R12; Push R13; Push R14; Push R15;
   MovRR RDI RSP].

Definition ferros_syscall_return (ucs uss : Z) : list instr :=
  [Pop R15; Pop R14; Pop R13; Pop R12; Pop RBP; Pop RBX; Pop R9; Pop R8; Pop R10;
   Pop RDX; Pop RSI; Pop RDI; Pop R11; Pop RCX; Pop RAX; Pop RSP; Sysretq ucs uss].

(** [init_fork_child_stack]; [sysret] is the address of [ferros_syscall_return]. *)
Definition init_fork_child_stack (sysret kstack_top : Z) (parent : SyscallRegs) (w : gmap Z Z)
    : Z * gmap Z Z :=
  store_down kstack_top
    [sr_user_rsp parent; 0; sr_rip parent; sr_rflags parent; sr_rdi parent; sr_rsi parent;
     sr_rdx parent; sr_r10 parent; sr_r8 parent; sr_r9 parent; sr_rbx parent; sr_rbp parent;
     sr_r12 parent; sr_r13 parent; sr_r14 parent; sr_r15 parent;
     sysret; 0; 0; 0; 0; 0; 0] w.

(** * Lemmas *)

(** The registers a switch saves, lowest address first, and the seven words a
    thread that is not running has on its stack. *)
Definition callee_saved : list reg := [R15; R14; R13; R12; RBX; RBP].

Definition context_of (m : machine) (ret : Z) : list Z := (gpr m <$> callee_saved) ++ [ret].

Definition CONTEXT_BYTES : Z := 56.

Definition within (lo n a : Z) : Prop := lo <= a < lo + n.

(** The device state a thread does not carry on its stack. *)
Definition same_control (m m' : machine) : Prop :=
  rflags m' = rflags m /\ cs m' = cs m /\ ss m' = ss m /\ cr3 m' = cr3 m /\ rsp0 m' = rsp0 m /\
  fs_base m' = fs_base m /\ fpu m' = fpu m /\ scratch m' = scratch m /\ kstack m' = kstack m.

Lemma same_control_refl m : same_control m m.
Proof. done. Qed.

Lemma same_control_trans m1 m2 m3 : same_control m1 m2 -> same_control m2 m3 -> same_control m1 m3.
Proof. unfold same_control. intuition congruence. Qed.

Lemma same_control_set g w m : same_control m (set_gpr g (set_mem w m)).
Proof. done. Qed.

Lemma same_control_eq m m' g w : m' = set_gpr g (set_mem w m) -> same_control m m'.
Proof. intros ->. apply same_control_set. Qed.

Lemma gpr_set_gpr g m : gpr (set_gpr g m) = g.
Proof. done. Qed.

Lemma mem_set_gpr g m : mem (set_gpr g m) = mem m.
Proof. done. Qed.

Lemma control_set_gpr {A} (field : machine -> A) g m :
  (forall g m, field (set_gpr g m) = field m) -> field (set_gpr g m) = field m.
Proof. auto. Qed.

Lemma same_control_eq' m m' g : m' = set_gpr g m ->
  mem m' = mem m /\ cr3 m' = cr3 m /\ fs_base m' = fs_base m /\ fpu m' = fpu m.
Proof. by intros ->. Qed.

(** The first half of [ferros_switch_context]. *)
Definition switch_save : list instr :=
  [Push RBP; Push RBX; Push R12; Push R13; Push R14; Push R15; StoreRspAtRdi; MovRR RSP RSI].

Lemma switch_save_app :
  switch_save = (Push <$> rev callee_saved) ++ [StoreRspAtRdi; MovRR RSP RSI].
Proof. done. Qed.

Lemma switch_context_app : ferros_switch_context = switch_save ++ ((Pop <$> callee_saved) ++ [RetNear]).
Proof. done. Qed.

Lemma run_store_rsp m :
  run [StoreRspAtRdi; MovRR RSP RSI] m =
  set_gpr (wset (gpr m) RSP (gpr m RSI)) (set_mem (<[gpr m RDI := gpr m RSP]> (mem m)) m).
Proof. done. Qed.

Lemma push_spec x m :
  8 <= gpr m RSP < U64 ->
  push x m = set_gpr (wset (gpr m) RSP (gpr m RSP - 8)) (set_mem (<[gpr m RSP - 8 := x]> (mem m)) m).
Proof. intros. unfold push. rewrite addr_small by lia. done. Qed.

Lemma switch_save_spec old_rsp new_rsp ret m :
  CONTEXT_BYTES <= gpr m RSP < U64 -> ~ within (gpr m RSP - CONTEXT_BYTES) CONTEXT_BYTES old_rsp ->
  let m' := run switch_save (push ret (set_reg RSI new_rsp (set_reg RDI old_rsp m))) in
  same_control m m' /\ gpr m' RSP = new_rsp /\
  words_at (mem m') (gpr m RSP - CONTEXT_BYTES) (context_of m ret) /\
  word (mem m') old_rsp = gpr m RSP - CONTEXT_BYTES /\
  forall a, ~ within (gpr m RSP - CONTEXT_BYTES) CONTEXT_BYTES a -> a <> old_rsp ->
    word (mem m') a = word (mem m) a.
Proof.
  unfold CONTEXT_BYTES, within. intros Hsp Hold.
  set (sp := gpr m RSP) in *.
  set (m0 := set_reg RSI new_rsp (set_reg RDI old_rsp m)).
  assert (gpr m0 RSP = sp) as Esp by done.
  rewrite (push_spec ret m0) by (rewrite Esp; lia).
  set (m1 := set_gpr _ _).
  assert (gpr m1 RSP = sp - 8) as Esp1 by (unfold m1; cbn [gpr set_gpr]; by rewrite wset_eq, Esp).
  rewrite switch_save_app, run_app.
  destruct (run_pushes (rev callee_saved) m1) as (F & G1 & G2 & G3 & G4);
    [by apply (bool_decide_unpack _); vm_compute|rewrite Esp1; cbn; lia|].
  set (m2 := run _ m1) in *. clearbody m2. rewrite Esp1 in *. cbn [rev callee_saved app length] in *.
  assert (gpr m2 RSP = sp - 56) as Esp2 by (rewrite G1; lia).
  assert (gpr m2 RDI = old_rsp) as Edi by (rewrite G2 by done; done).
  assert (gpr m2 RSI = new_rsp) as Esi by (rewrite G2 by done; done).
  assert (word (mem m2) (sp - 8) = ret) as Eret.
  { rewrite G4 by lia. unfold m1. cbn [mem set_gpr set_mem]. rewrite Esp. apply word_insert_eq. }
  rewrite run_store_rsp, Edi, Esp2, Esi. clearbody sp.
  split_and!.
  - apply same_control_trans with m1; [done|]. apply same_control_trans with m2; [|done].
    by apply same_control_eq in F.
  - cbn. apply wset_eq.
  - cbn [mem set_reg set_gpr set_mem].
    apply (words_at_ext (mem m2)).
    { intros a Ha. apply word_insert_ne. cbn in Ha. lia. }
    apply words_below_at in G3. unfold context_of. apply words_at_app.
    assert (rev (gpr m1 <$> [RBP; RBX; R12; R13; R14; R15]) = gpr m <$> callee_saved) as Esave.
    { unfold m1, m0. cbn [gpr set_gpr set_mem set_reg fmap list_fmap rev app callee_saved].
      by rewrite !wset_ne. }
    rewrite Esave in G3.
    split; [|split; [|done]].
    + replace (sp - 56) with (sp - 8 - 8 * Z.of_nat (length (gpr m1 <$> [RBP; RBX; R12; R13; R14; R15])))
        by (cbn; lia). done.
    + rewrite <- Eret. f_equal. cbn. lia.
  - cbn [mem set_reg set_gpr set_mem]. apply word_insert_eq.
  - intros a Ha Hne. cbn [mem set_reg set_gpr set_mem]. rewrite word_insert_ne by done.
    rewrite G4 by lia. unfold m1. cbn [mem set_gpr set_mem]. rewrite Esp. apply word_insert_ne. lia.
Qed.

(** The second half: the thread whose context is on the stack resumes. *)
Lemma resume_spec m xs x :
  length xs = length callee_saved ->
  0 <= gpr m RSP -> gpr m RSP + CONTEXT_BYTES < U64 -> words_at (mem m) (gpr m RSP) (xs ++ [x]) ->
  let m' := run ((Pop <$> callee_saved) ++ [RetNear]) m in
  same_control m m' /\ mem m' = mem m /\ gpr m' RSP = gpr m RSP + CONTEXT_BYTES /\
  context_of m' (rip m') = xs ++ [x] /\
  forall r, r <> RSP -> r ∉ callee_saved -> gpr m' r = gpr m r.
Proof.
  unfold CONTEXT_BYTES. intros Hl Hlo Hhi [Hw [Hx _]]%words_at_app. rewrite run_app.
  destruct (run_pops callee_saved xs m) as (F & G1 & G2 & G3);
    [cbn; set_solver|by repeat (constructor; [set_solver|]); constructor|done|done|done|cbn; lia|].
  set (m1 := run _ m) in *. clearbody m1. cbn [callee_saved length] in G1.
  assert (top m1 = x) as Etop.
  { unfold top. rewrite G1, F. cbn [mem set_gpr]. rewrite <- Hx, Hl. done. }
  cbn [run exec]. rewrite Etop. unfold drop_word. cbn [gpr set_rip].
  rewrite addr_small by lia. split_and!.
  - apply same_control_trans with m1; [by rewrite F|done].
  - rewrite F. done.
  - cbn. rewrite wset_eq. lia.
  - unfold context_of. cbn [rip set_reg set_gpr set_rip]. f_equal. rewrite <- G3.
    apply list_fmap_ext. intros i r Hr. cbn [gpr set_reg set_gpr set_rip]. apply wset_ne.
    intros ->. do 6 (destruct i as [|i]; [done|]). done.
  - intros r Hr Hn. cbn [gpr set_reg set_gpr set_rip]. rewrite wset_ne by done. by apply G2.
Qed.

(** The words a switch to [new_rsp] may not overwrite before it pops them. *)
Definition apart (sp old_rsp new_rsp : Z) : Prop :=
  forall a, within new_rsp CONTEXT_BYTES a -> ~ within (sp - CONTEXT_BYTES) CONTEXT_BYTES a /\ a <> old_rsp.

Lemma switch_context_spec old_rsp new_rsp ret m xs x :
  CONTEXT_BYTES <= gpr m RSP < U64 -> ~ within (gpr m RSP - CONTEXT_BYTES) CONTEXT_BYTES old_rsp ->
  0 <= new_rsp -> new_rsp + CONTEXT_BYTES < U64 ->
  length xs = length callee_saved -> words_at (mem m) new_rsp (xs ++ [x]) ->
  apart (gpr m RSP) old_rsp new_rsp ->
  let m' := switch_context old_rsp new_rsp ret m in
  same_control m m' /\ gpr m' RSP = new_rsp + CONTEXT_BYTES /\ context_of m' (rip m') = xs ++ [x] /\
  words_at (mem m') (gpr m RSP - CONTEXT_BYTES) (context_of m ret) /\
  word (mem m') old_rsp = gpr m RSP - CONTEXT_BYTES /\
  forall a, ~ within (gpr m RSP - CONTEXT_BYTES) CONTEXT_BYTES a -> a <> old_rsp ->
    word (mem m') a = word (mem m) a.
Proof.
  intros Hsp Hold Hlo Hhi Hl Hw Hap. unfold switch_context.
  rewrite switch_context_app, run_app.
  destruct (switch_save_spec old_rsp new_rsp ret m Hsp Hold) as (F & G1 & G2 & G3 & G4).
  set (m1 := run switch_save _) in *. clearbody m1.
  destruct (resume_spec m1 xs x) as (F' & K1 & K2 & K3 & _); [done|by rewrite G1|by rewrite G1| |].
  { rewrite G1. eapply words_at_ext; [|exact Hw]. intros a Ha. apply G4; apply Hap.
    all: unfold within, CONTEXT_BYTES in *; rewrite length_app, Hl in Ha; cbn in Ha; lia. }
  set (m2 := run _ m1) in *. clearbody m2. rewrite K1, K2, G1.
  split_and!; try done. by apply same_control_trans with m1.
Qed.

Lemma load_task_spec next_cr3 next_rsp0 next_fs_base next_fpu m old_fpu m' :
  load_task next_cr3 next_rsp0 next_fs_base next_fpu m = (old_fpu, m') ->
  old_fpu = fpu m /\ gpr m' = gpr m /\ mem m' = mem m /\ rip m' = rip m /\ rflags m' = rflags m /\
  cr3 m' = next_cr3 /\ rsp0 m' = next_rsp0 /\ fs_base m' = next_fs_base /\ fpu m' = next_fpu /\
  kstack m' = (if next_rsp0 =? 0 then kstack m else align16 next_rsp0).
Proof.
  unfold load_task. intros [= <- <-].
  destruct (next_rsp0 =? 0) eqn:E1; cbn; destruct (next_cr3 =? cr3 m) eqn:E2; cbn; zbool; subst; done.
Qed.

(** ** Entering user mode *)

Lemma word_at_nth w lo xs k x :
  words_at w lo xs -> xs !! k = Some x -> word w (lo + 8 * Z.of_nat k) = x.
Proof.
  revert lo k; induction xs as [|y xs IH]; intros lo k; [done|]. intros [Hy Hxs]. destruct k as [|k].
  - intros [= <-]. rewrite <- Hy. f_equal. lia.
  - intros Hk. rewrite <- (IH (lo + 8) k Hxs Hk). f_equal. lia.
Qed.

(** One push, whatever the operand. *)
Lemma run_push i l x m :
  8 <= gpr m RSP < U64 -> exec i m = push x m ->
  run (i :: l) m =
  run l (set_gpr (wset (gpr m) RSP (gpr m RSP - 8)) (set_mem (<[gpr m RSP - 8 := x]> (mem m)) m)).
Proof. intros ? E. cbn [run]. rewrite E. by rewrite push_spec. Qed.

Lemma user_trampoline_spec m :
  40 <= gpr m RSP < U64 ->
  let m' := run ferros_user_thread_trampoline m in
  rip m' = gpr m R15 /\ cs m' = gpr m R13 /\ rflags m' = 0x202 /\ gpr m' RSP = gpr m R14 /\ ss m' = gpr m R12 /\
  cr3 m' = cr3 m /\ rsp0 m' = rsp0 m /\ fs_base m' = fs_base m /\ fpu m' = fpu m /\
  forall a, ~ within (gpr m RSP - 40) 40 a -> word (mem m') a = word (mem m) a.
Proof.
  intros Hsp. unfold ferros_user_thread_trampoline, within.
  do 5 (erewrite run_push; [|cbn [gpr set_gpr]; rewrite ?wset_eq; lia|reflexivity];
        cbn [gpr mem set_gpr set_mem]; rewrite ?wset_eq; rewrite ?wset_ne by done).
  set (sp := gpr m RSP) in *. cbn [run exec gpr mem set_gpr set_mem set_reg set_segments set_rflags set_rip
    rip cs ss rflags cr3 rsp0 fs_base fpu]. rewrite ?wset_eq.
  rewrite !addr_small by lia.
  split_and!; try done; try (repeat (rewrite word_insert_ne by lia);
    match goal with |- word (<[?a := _]> _) ?b = _ => replace b with a by lia end; apply word_insert_eq).
  intros a Ha. by repeat (rewrite word_insert_ne by lia).
Qed.

(** ** System calls *)

(** What user code can observe of its registers. *)
Definition user_regs : list reg :=
  [R15; R14; R13; R12; RBP; RBX; R9; R8; R10; RDX; RSI; RDI].

(** The frame the entry trampoline builds from the state at the [syscall]
    instruction; [rip u] is the address that follows it. *)
Definition frame_of (u : machine) : SyscallRegs :=
  mkSyscallRegs (gpr u R15) (gpr u R14) (gpr u R13) (gpr u R12) (gpr u RBP) (gpr u RBX)
    (gpr u R9) (gpr u R8) (gpr u R10) (gpr u RDX) (gpr u RSI) (gpr u RDI)
    (rflags u) (rip u) (gpr u RAX) (gpr u RSP).

Definition frame_regs (f : SyscallRegs) : list Z :=
  [sr_r15 f; sr_r14 f; sr_r13 f; sr_r12 f; sr_rbp f; sr_rbx f;
   sr_r9 f; sr_r8 f; sr_r10 f; sr_rdx f; sr_rsi f; sr_rdi f].

(** The state a frame describes is the state of user code. *)
Definition returns_to (f : SyscallRegs) (ucs uss : Z) (m : machine) : Prop :=
  rip m = sr_rip f /\ rflags m = sr_rflags f /\ cs m = ucs /\ ss m = uss /\
  gpr m RSP = sr_user_rsp f /\ gpr m RAX = sr_rax f /\
  gpr m <$> user_regs = frame_regs f.

Definition FRAME_BYTES : Z := 128.

(** The registers the entry trampoline pushes after the user stack pointer. *)
Definition entry_pushes : list reg :=
  [RAX; RCX; R11; RDI; RSI; RDX; R10; R8; R9; RBX; RBP; R12; R13; R14; R15].

Lemma syscall_entry_app :
  ferros_syscall_entry =
  [StoreScratchRsp; LoadRspKstack] ++ (PushScratch :: (Push <$> entry_pushes) ++ [MovRR RDI RSP]).
Proof. done. Qed.

Lemma syscall_return_app ucs uss :
  ferros_syscall_return ucs uss =
  (Pop <$> (user_regs ++ [R11; RCX; RAX])) ++ [Pop RSP; Sysretq ucs uss].
Proof. done. Qed.

Lemma run_mov_rdi_rsp m : run [MovRR RDI RSP] m = set_gpr (wset (gpr m) RDI (gpr m RSP)) m.
Proof. done. Qed.

Lemma run_load_kstack m :
  run [StoreScratchRsp; LoadRspKstack] m =
  set_gpr (wset (gpr m) RSP (kstack m)) (set_scratch (gpr m RSP) m).
Proof. done. Qed.

Lemma exec_syscall lstar sfmask kcs kss m :
  exec (Syscall lstar sfmask kcs kss) m =
  set_gpr (wset (wset (gpr m) RCX (rip m)) R11 (rflags m))
    (set_segments kcs kss (set_rip lstar (set_rflags (Z.ldiff (rflags m) sfmask) m))).
Proof. done. Qed.

Lemma syscall_entry_spec lstar sfmask kcs kss u :
  FRAME_BYTES <= kstack u < U64 ->
  let m := run ferros_syscall_entry (exec (Syscall lstar sfmask kcs kss) u) in
  gpr m RSP = kstack u - FRAME_BYTES /\ gpr m RDI = gpr m RSP /\
  words_at (mem m) (kstack u - FRAME_BYTES) (frame_words (frame_of u)) /\
  (forall a, ~ within (kstack u - FRAME_BYTES) FRAME_BYTES a -> word (mem m) a = word (mem u) a) /\
  rflags m = Z.ldiff (rflags u) sfmask /\ cr3 m = cr3 u /\ fs_base m = fs_base u /\ fpu m = fpu u.
Proof.
  unfold FRAME_BYTES, within. intros Hk.
  rewrite exec_syscall, syscall_entry_app, run_app, run_load_kstack.
  set (m0 := set_gpr _ (set_scratch _ _)).
  assert (gpr m0 = wset (wset (wset (gpr u) RCX (rip u)) R11 (rflags u)) RSP (kstack u)) as E0 by done.
  assert (scratch m0 = gpr u RSP) as Esc by (unfold m0; cbn [scratch gpr set_gpr set_scratch]; by rewrite !wset_ne).
  assert (mem m0 = mem u /\ rflags m0 = Z.ldiff (rflags u) sfmask /\ cr3 m0 = cr3 u /\ fs_base m0 = fs_base u /\ fpu m0 = fpu u) as (M1 & M2 & M3 & M4 & M5) by done.
  clearbody m0. assert (gpr m0 RSP = kstack u) as Esp by (rewrite E0; apply wset_eq).
  rewrite (run_push _ _ (gpr u RSP)) by (rewrite ?Esp; (lia || (cbn [exec]; by rewrite Esc))).
  rewrite Esp. set (m1 := set_gpr _ (set_mem _ m0)).
  assert (gpr m1 = wset (gpr m0) RSP (kstack u - 8)) as E1 by done.
  assert (mem m1 = <[kstack u - 8 := gpr u RSP]> (mem m0)) as E2 by done.
  assert (same_control m0 m1) as Hc by done. clearbody m1.
  assert (rev (gpr m1 <$> entry_pushes) ++ [gpr u RSP] = frame_words (frame_of u)) as Efr.
  { rewrite E1, E0. cbn [fmap list_fmap rev app entry_pushes]. unfold frame_words, frame_of.
    cbn [sr_r15 sr_r14 sr_r13 sr_r12 sr_rbp sr_rbx sr_r9 sr_r8 sr_r10 sr_rdx sr_rsi sr_rdi
         sr_rflags sr_rip sr_rax sr_user_rsp].
    by repeat (rewrite wset_eq || rewrite wset_ne by done). }
  assert (gpr m1 RSP = kstack u - 8) as Esp1 by (rewrite E1; apply wset_eq).
  rewrite run_app. destruct (run_pushes entry_pushes m1) as (F & G1 & G2 & G3 & G4);
    [by apply (bool_decide_unpack _); vm_compute|rewrite Esp1; cbn; lia|].
  set (m2 := run _ m1) in *. clearbody m2. rewrite Esp1 in *. cbn [length entry_pushes] in G1, G4.
  assert (word (mem m2) (kstack u - 8) = gpr u RSP) as Ersp.
  { rewrite G4 by lia. rewrite E2. apply word_insert_eq. }
  apply words_below_at in G3. apply same_control_eq in F. destruct Hc as (? & ? & ? & ? & ? & ? & ? & ? & ?).
  destruct F as (? & ? & ? & ? & ? & ? & ? & ? & ?).
  rewrite run_mov_rdi_rsp, gpr_set_gpr, mem_set_gpr, (control_set_gpr rflags), (control_set_gpr cr3),
    (control_set_gpr fs_base), (control_set_gpr fpu) by done.
  rewrite wset_eq, wset_ne by done. split_and!; try congruence; [lia| |].
  - rewrite <- Efr. apply words_at_app. split.
    + rewrite length_fmap in G3. cbn [length entry_pushes] in G3.
      replace (kstack u - 128) with (kstack u - 8 - 8 * Z.of_nat 15) by lia. exact G3.
    + split; [|done]. rewrite <- Ersp, length_rev, length_fmap. f_equal. cbn. lia.
  - intros a Ha. rewrite G4 by lia. rewrite E2, word_insert_ne by lia. by rewrite M1.
Qed.

Lemma frame_words_split f :
  frame_words f = (frame_regs f ++ [sr_rflags f; sr_rip f; sr_rax f]) ++ [sr_user_rsp f].
Proof. done. Qed.

Lemma frame_regs_length f : length (frame_regs f ++ [sr_rflags f; sr_rip f; sr_rax f]) = 15%nat.
Proof. done. Qed.

Lemma run_sysret ucs uss m :
  run [Pop RSP; Sysretq ucs uss] m =
  set_gpr (wset (gpr m) RSP (top m))
    (set_segments ucs uss (set_rip (gpr m RCX) (set_rflags (gpr m R11) m))).
Proof. done. Qed.

Lemma syscall_return_spec ucs uss f m :
  0 <= gpr m RSP -> gpr m RSP + FRAME_BYTES < U64 -> words_at (mem m) (gpr m RSP) (frame_words f) ->
  let m' := run (ferros_syscall_return ucs uss) m in
  returns_to f ucs uss m' /\ mem m' = mem m /\ cr3 m' = cr3 m /\ fs_base m' = fs_base m /\ fpu m' = fpu m.
Proof.
  unfold FRAME_BYTES. intros Hlo Hhi Hw.
  set (rs := user_regs ++ [R11; RCX; RAX]).
  rewrite frame_words_split in Hw. apply words_at_app in Hw as [Hw [Hx _]].
  rewrite syscall_return_app, run_app. fold rs.
  destruct (run_pops rs (frame_regs f ++ [sr_rflags f; sr_rip f; sr_rax f]) m) as (F & G1 & G2 & G3);
    [by apply (bool_decide_unpack _); vm_compute|by apply (bool_decide_unpack _); vm_compute|done|done|done|cbn; lia|].
  set (m1 := run _ m) in *. clearbody m1. cbn [rs user_regs length app] in G1.
  assert (top m1 = sr_user_rsp f) as Etop.
  { unfold top. rewrite G1, F. cbn [mem set_gpr]. by rewrite frame_regs_length in Hx. }
  rewrite run_sysret, Etop. unfold rs in G3. rewrite fmap_app in G3.
  apply app_inj_1 in G3 as [G3 G4]; [|done]. rewrite !fmap_cons in G4. injection G4 as G4 G5 G6.
  apply same_control_eq' in F as (E1 & E2 & E3 & E4). unfold returns_to.
  rewrite gpr_set_gpr, fmap_wset by (by apply (bool_decide_unpack _); vm_compute).
  rewrite wset_eq, wset_ne by done. by split_and!.
Qed.
