(* ===== verification/ContextTheorems.v ===== *)
(** * Theorems about context switches and system call entry *)

From stdpp Require Import base numbers list gmap.
From Stdlib Require Import ZArith Lia.
From S2P Require Import Prelude Machine Context.
#[local] Open Scope Z_scope.

(** A stack pointer with room for a saved context below it. *)
Definition roomy (sp : Z) : Prop := CONTEXT_BYTES <= sp < U64.

Lemma within_dec_apart sp old_rsp new_rsp :
  (new_rsp + CONTEXT_BYTES <= sp - CONTEXT_BYTES \/ sp <= new_rsp) ->
  (old_rsp < new_rsp \/ new_rsp + CONTEXT_BYTES <= old_rsp) -> apart sp old_rsp new_rsp.
Proof. unfold apart, within. intros. lia. Qed.

(** Popping the context that is on the stack of [m]. *)
Lemma context_of_inj m ret m' ret' :
  context_of m' ret' = context_of m ret -> ret' = ret /\ forall r, r ∈ callee_saved -> gpr m' r = gpr m r.
Proof.
  unfold context_of. intros [E [= ->]]%app_inj_2; [|done]. split; [done|]. by apply fmap_eq_each.
Qed.

(** C9. A thread that is switched out and later switched back in resumes at the
    address where it left, with its stack pointer and every callee-saved
    register as they were, whatever the other threads did in between, as long
    as they left the seven words it saved on its own stack alone. *)
Theorem switch_roundtrip old_a old_b new_b ret_a ret_b m mb xs x :
  roomy (gpr m RSP) -> ~ within (gpr m RSP - CONTEXT_BYTES) CONTEXT_BYTES old_a ->
  0 <= new_b -> new_b + CONTEXT_BYTES < U64 -> apart (gpr m RSP) old_a new_b ->
  length xs = length callee_saved -> words_at (mem m) new_b (xs ++ [x]) ->
  let m1 := switch_context old_a new_b ret_a m in
  (forall a, within (gpr m RSP - CONTEXT_BYTES) CONTEXT_BYTES a -> word (mem mb) a = word (mem m1) a) ->
  roomy (gpr mb RSP) -> ~ within (gpr mb RSP - CONTEXT_BYTES) CONTEXT_BYTES old_b ->
  apart (gpr mb RSP) old_b (gpr m RSP - CONTEXT_BYTES) ->
  let m2 := switch_context old_b (word (mem m1) old_a) ret_b mb in
  rip m2 = ret_a /\ gpr m2 RSP = gpr m RSP /\ forall r, r ∈ callee_saved -> gpr m2 r = gpr m r.
Proof.
  intros Hsp Hold Hb0 Hb Hap Hl Hw m1 Hkept Hspb Holdb Hapb m2.
  destruct (switch_context_spec old_a new_b ret_a m xs x) as (_ & _ & _ & K1 & K2 & _); try done.
  fold m1 in K1, K2. unfold m2. rewrite K2. unfold roomy, CONTEXT_BYTES in *.
  destruct (switch_context_spec old_b (gpr m RSP - 56) ret_b mb (gpr m <$> callee_saved) ret_a)
    as (_ & K3 & K4 & _); try (done || (unfold CONTEXT_BYTES; lia)).
  { eapply words_at_ext; [|exact K1]. intros a Ha. apply Hkept. unfold within.
    rewrite length_app, length_fmap in Ha. cbn in Ha. lia. }
  apply context_of_inj in K4 as [-> K4]. split_and!; [done| |done]. rewrite K3. unfold CONTEXT_BYTES. lia.
Qed.

Definition idle_machine (sp : Z) (w : gmap Z Z) : machine :=
  mkMachine (fun r => match r with RSP => sp | RBX => 11 | R12 => 12 | RBP => 13 | _ => 0 end)
    0 0x2 8 16 w 0x1000 0 0 FpuArea_new_clean 0 0.

Lemma switch_roundtrip_witness :
  let m := idle_machine 0x9000 (init_thread_stack 0x500 0x8000 0x700 ∅).2 in
  let m1 := switch_context 0x100 (0x8000 - 56) 0x600 m in
  let m2 := switch_context 0x108 (word (mem m1) 0x100) 0x610 m1 in
  rip m2 = 0x600 /\ gpr m2 RSP = 0x9000 /\ forall r, r ∈ callee_saved -> gpr m2 r = gpr m r.
Proof.
  intros m m1 m2. assert (gpr m1 RSP = 0x8000) as E1 by (vm_compute; reflexivity).
  apply (switch_roundtrip 0x100 0x108 (0x8000 - 56) 0x600 0x610 m m1 [0x700; 0; 0; 0; 0; 0] 0x500);
    rewrite ?E1; change (gpr m RSP) with 0x9000; try done.
  - unfold within, CONTEXT_BYTES. lia.
  - unfold apart, within, CONTEXT_BYTES. lia.
  - unfold within, CONTEXT_BYTES. lia.
  - unfold apart, within, CONTEXT_BYTES. lia.
Defined.

Lemma run_thread_trampoline halt m :
  8 <= gpr m RSP < U64 ->
  run (ferros_thread_trampoline halt) m =
  set_rip (gpr m R15) (set_rflags (Z.lor (rflags m) IF_BIT)
    (set_gpr (wset (gpr m) RSP (gpr m RSP - 8)) (set_mem (<[gpr m RSP - 8 := halt]> (mem m)) m))).
Proof.
  intros Hsp. unfold ferros_thread_trampoline. cbn [run]. cbn [exec].
  rewrite push_spec by exact Hsp. done.
Qed.

(** The first switch to a kernel thread made by [spawn] reaches its entry
    point through the trampoline with interrupts enabled, the stack pointer one
    word below the (16-byte aligned) top of its stack, as the ABI wants at a
    function entry, and the address of the halt loop as its return address. *)
Theorem new_thread_starts tramp halt top entry old_rsp ret w m :
  let '(rsp, w') := init_thread_stack tramp top entry w in
  CONTEXT_BYTES <= top -> top < U64 -> top mod 16 = 0 -> mem m = w' ->
  roomy (gpr m RSP) -> ~ within (gpr m RSP - CONTEXT_BYTES) CONTEXT_BYTES old_rsp ->
  apart (gpr m RSP) old_rsp rsp ->
  let m1 := switch_context old_rsp rsp ret m in
  let m2 := run (ferros_thread_trampoline halt) m1 in
  rip m1 = tramp /\ rip m2 = entry /\ Z.testbit (rflags m2) 9 = true /\
  gpr m2 RSP = top - 8 /\ gpr m2 RSP mod 16 = 8 /\ word (mem m2) (gpr m2 RSP) = halt.
Proof.
  unfold init_thread_stack. set (xs := [tramp; 0; 0; 0; 0; 0; entry]).
  destruct (store_down top xs w) as [rsp w'] eqn:E. unfold roomy, CONTEXT_BYTES.
  intros Ht0 Ht Hal Hm Hsp Hold Hap. set (m1 := switch_context _ _ _ _). set (m2 := run _ m1).
  destruct (store_down_spec top xs w) as (S1 & S2 & _); [cbn; lia|]. rewrite E in S1, S2.
  cbn [fst snd length xs] in S1, S2. apply words_below_at in S2. cbn [length xs rev app] in S2.
  destruct (switch_context_spec old_rsp rsp ret m [entry; 0; 0; 0; 0; 0] tramp) as (C & K1 & K2 & _);
    unfold CONTEXT_BYTES; try (done || lia); [by rewrite Hm, S1|].
  fold m1 in C, K1, K2. clearbody m1. unfold context_of in K2.
  apply app_inj_2 in K2 as [K2 [= Hrip]]; [|done].
  unfold callee_saved in K2. rewrite !fmap_cons in K2. injection K2 as Hr15 _.
  unfold CONTEXT_BYTES in K1. unfold m2. rewrite run_thread_trampoline by lia. rewrite Hr15, K1.
  cbn [rip rflags gpr mem set_rip set_gpr set_mem set_rflags]. rewrite wset_eq.
  replace (rsp + 56 - 8) with (top - 8) by lia. split_and!; try done.
  - rewrite Z.lor_spec. apply orb_true_r.
  - rewrite Zminus_mod, Hal. done.
  - apply word_insert_eq.
Qed.

Lemma new_thread_starts_witness :
  let '(rsp, w') := init_thread_stack 0x500 0x8000 0x700 ∅ in
  let m1 := switch_context 0x100 rsp 0x600 (idle_machine 0x9000 w') in
  let m2 := run (ferros_thread_trampoline 0x502) m1 in
  rip m1 = 0x500 /\ rip m2 = 0x700 /\ Z.testbit (rflags m2) 9 = true /\
  gpr m2 RSP = 0x8000 - 8 /\ gpr m2 RSP mod 16 = 8 /\ word (mem m2) (gpr m2 RSP) = 0x502.
Proof.
  apply (new_thread_starts 0x500 0x502 0x8000 0x700 0x100 0x600 ∅ (idle_machine 0x9000 (init_thread_stack 0x500 0x8000 0x700 ∅).2));
    try done; change (gpr (idle_machine _ _) RSP) with 0x9000.
  - unfold within, CONTEXT_BYTES. lia.
  - match goal with |- apart _ _ ?a => change a with 0x7FC8 end. unfold apart, within, CONTEXT_BYTES. lia.
Defined.

(** The first switch to a user thread leaves the kernel through [iretq] at
    exactly the entry point, user stack and ring-3 selectors it was made with,
    with RFLAGS [0x202] (interrupts enabled), in the address space and with the
    FPU state and FS base the task switch loaded. *)
Theorem user_thread_enters_ring3 tramp top entry ustack ucs uss old_rsp ret w m ncr3 nfs nfpu :
  let '(rsp, w') := init_user_thread_stack tramp top entry ustack ucs uss w in
  CONTEXT_BYTES <= top -> top < U64 -> top <> 0 -> mem m = w' ->
  roomy (gpr m RSP) -> ~ within (gpr m RSP - CONTEXT_BYTES) CONTEXT_BYTES old_rsp ->
  apart (gpr m RSP) old_rsp rsp ->
  let '(saved, m1) := switch_task old_rsp rsp ncr3 top nfs nfpu ret m in
  let m2 := run ferros_user_thread_trampoline m1 in
  saved = fpu m /\ rip m1 = tramp /\ rip m2 = entry /\ cs m2 = ucs /\ ss m2 = uss /\
  gpr m2 RSP = ustack /\ rflags m2 = 0x202 /\ cr3 m2 = ncr3 /\ rsp0 m2 = top /\
  fs_base m2 = nfs /\ fpu m2 = nfpu.
Proof.
  unfold init_user_thread_stack. set (xs := [tramp; 0; 0; uss; ucs; ustack; entry]).
  destruct (store_down top xs w) as [rsp w'] eqn:E. unfold roomy, CONTEXT_BYTES.
  intros Ht0 Ht Hnz Hm Hsp Hold Hap.
  destruct (store_down_spec top xs w) as (S1 & S2 & _); [cbn; lia|]. rewrite E in S1, S2.
  cbn [fst snd length xs] in S1, S2. apply words_below_at in S2. cbn [length xs rev app] in S2.
  unfold switch_task. destruct (load_task _ _ _ _ m) as [saved m0] eqn:El.
  apply load_task_spec in El as (-> & L1 & L2 & _ & _ & L3 & L4 & L5 & L6 & _).
  destruct (switch_context_spec old_rsp rsp ret m0 [entry; ustack; ucs; uss; 0; 0] tramp) as (C & K1 & K2 & _);
    unfold CONTEXT_BYTES; rewrite ?L1; try (done || lia); [by rewrite L2, Hm, S1|].
  set (m1 := switch_context _ _ _ _) in *. clearbody m1. unfold context_of in K2.
  apply app_inj_2 in K2 as [K2 [= Hrip]]; [|done].
  unfold callee_saved in K2. rewrite !fmap_cons in K2. injection K2 as H15 H14 H13 H12 _.
  unfold CONTEXT_BYTES in K1. destruct C as (_ & _ & _ & C1 & C2 & C3 & C4 & _).
  destruct (user_trampoline_spec m1) as (U1 & U2 & U3 & U4 & U5 & U6 & U7 & U8 & U9 & _); [lia|].
  set (m2 := run _ m1) in *. clearbody m2. split_and!; congruence.
Qed.

Lemma user_thread_enters_ring3_witness :
  let '(rsp, w') := init_user_thread_stack 0x500 0x8000 0x400000 0x7F8010000FF0 0x23 0x1B ∅ in
  let '(saved, m1) := switch_task 0x100 rsp 0x2000 0x8000 0 FpuArea_new_clean 0x600 (idle_machine 0x9000 w') in
  let m2 := run ferros_user_thread_trampoline m1 in
  saved = FpuArea_new_clean /\ rip m1 = 0x500 /\ rip m2 = 0x400000 /\ cs m2 = 0x23 /\ ss m2 = 0x1B /\
  gpr m2 RSP = 0x7F8010000FF0 /\ rflags m2 = 0x202 /\ cr3 m2 = 0x2000 /\ rsp0 m2 = 0x8000 /\
  fs_base m2 = 0 /\ fpu m2 = FpuArea_new_clean.
Proof.
  apply (user_thread_enters_ring3 0x500 0x8000 0x400000 0x7F8010000FF0 0x23 0x1B 0x100 0x600 ∅
    (idle_machine 0x9000 (init_user_thread_stack 0x500 0x8000 0x400000 0x7F8010000FF0 0x23 0x1B ∅).2)
    0x2000 0 FpuArea_new_clean); try done; change (gpr (idle_machine _ _) RSP) with 0x9000.
  - unfold within, CONTEXT_BYTES. lia.
  - match goal with |- apart _ _ ?a => change a with 0x7FC8 end. unfold apart, within, CONTEXT_BYTES. lia.
Defined.

(** C25. A system call is transparent to the calling program: whatever the
    dispatcher does on the kernel stack, if it leaves the frame it was given
    equal to [f'], the program continues with the registers of [f']; and the
    frame it was given is the program's state at the [syscall] instruction,
    with interrupts masked in the kernel.  So a dispatcher that only sets [rax]
    changes no register of the program but [rax], [rcx] and [r11]. *)
Theorem syscall_roundtrip lstar sfmask kcs kss ucs uss u k f' :
  FRAME_BYTES <= kstack u -> kstack u < U64 -> Z.testbit sfmask 9 = true ->
  let m := run ferros_syscall_entry (exec (Syscall lstar sfmask kcs kss) u) in
  gpr k RSP = gpr m RSP -> words_at (mem k) (gpr m RDI) (frame_words f') ->
  words_at (mem m) (gpr m RDI) (frame_words (frame_of u)) /\
  gpr m RSP mod 16 = kstack u mod 16 /\ Z.testbit (rflags m) 9 = false /\
  let r := run (ferros_syscall_return ucs uss) k in
  returns_to f' ucs uss r /\ cr3 r = cr3 k /\ fs_base r = fs_base k /\ fpu r = fpu k.
Proof.
  intros Hk0 Hk Hmask m Hrsp Hf.
  destruct (syscall_entry_spec lstar sfmask kcs kss u) as (E1 & E2 & E3 & _ & E4 & _); [done|].
  fold m in E1, E2, E3, E4. clearbody m. rewrite E2 in *. rewrite E1 in *. unfold FRAME_BYTES in *.
  destruct (syscall_return_spec ucs uss f' k) as (R1 & _ & R2 & R3 & R4);
    [lia|unfold FRAME_BYTES; lia|by rewrite Hrsp|].
  split_and!; try done.
  - rewrite Zminus_mod. change (128 mod 16) with 0. rewrite Z.sub_0_r. apply Zmod_mod.
  - rewrite E4, Z.ldiff_spec, Hmask. apply andb_false_r.
Qed.

Definition user_machine : machine :=
  mkMachine (fun r => match r with RSP => 0x7F8010000F00 | RAX => 39 | RBX => 5 | RDI => 7 | _ => 1 end)
    0x401000 0x202 0x23 0x1B ∅ 0x2000 0x8000 0x7000 FpuArea_new_clean 0 0x8000.

Lemma syscall_roundtrip_witness :
  let m := run ferros_syscall_entry (exec (Syscall 0x500 0x200 8 16) user_machine) in
  words_at (mem m) (gpr m RDI) (frame_words (frame_of user_machine)) /\
  gpr m RSP mod 16 = 0x8000 mod 16 /\ Z.testbit (rflags m) 9 = false /\
  let r := run (ferros_syscall_return 0x23 0x1B) m in
  returns_to (frame_of user_machine) 0x23 0x1B r /\ cr3 r = cr3 m /\ fs_base r = fs_base m /\ fpu r = fpu m.
Proof.
  apply (syscall_roundtrip 0x500 0x200 8 16 0x23 0x1B user_machine
    (run ferros_syscall_entry (exec (Syscall 0x500 0x200 8 16) user_machine)) (frame_of user_machine));
    try done; by vm_compute.
Defined.

(** The frame of the parent with the child's result in it. *)
Definition child_frame (f : SyscallRegs) : SyscallRegs :=
  mkSyscallRegs (sr_r15 f) (sr_r14 f) (sr_r13 f) (sr_r12 f) (sr_rbp f) (sr_rbx f)
    (sr_r9 f) (sr_r8 f) (sr_r10 f) (sr_rdx f) (sr_rsi f) (sr_rdi f)
    (sr_rflags f) (sr_rip f) 0 (sr_user_rsp f).

Lemma words_at_fork_child ktop sysret parent w :
  184 <= ktop < U64 ->
  let '(rsp, w') := init_fork_child_stack sysret ktop parent w in
  rsp = ktop - 184 /\ words_at w' rsp ([0; 0; 0; 0; 0; 0] ++ [sysret]) /\
  words_at w' (rsp + CONTEXT_BYTES) (frame_words (child_frame parent)).
Proof.
  intros Hk. unfold init_fork_child_stack. set (xs := _ :: _).
  destruct (store_down ktop xs w) as [rsp w'] eqn:E.
  destruct (store_down_spec ktop xs w) as (S1 & S2 & _); [cbn; lia|]. rewrite E in S1, S2.
  apply words_below_at in S2. cbn [fst snd] in S1, S2. rewrite <- S1 in S2.
  assert (rev xs = ([0; 0; 0; 0; 0; 0] ++ [sysret]) ++ frame_words (child_frame parent)) as Ex by done.
  rewrite Ex in S2. apply words_at_app in S2 as [S2 S3]. cbn [length xs] in S1.
  split_and!; [lia|done|]. exact S3.
Qed.

(** The first time a forked child runs, the task switch takes it into the
    return trampoline and it continues in user mode at the instruction after
    the parent's [fork], with every register of the parent's frame except that
    [rax] is 0, in its own address space. *)
Theorem fork_child_resumes sysret ktop parent ucs uss old_rsp ret w m ncr3 nfs nfpu :
  let '(rsp, w') := init_fork_child_stack sysret ktop parent w in
  CONTEXT_BYTES + FRAME_BYTES <= ktop -> ktop < U64 -> mem m = w' ->
  roomy (gpr m RSP) -> ~ within (gpr m RSP - CONTEXT_BYTES) CONTEXT_BYTES old_rsp ->
  (forall a, within rsp (CONTEXT_BYTES + FRAME_BYTES) a ->
     ~ within (gpr m RSP - CONTEXT_BYTES) CONTEXT_BYTES a /\ a <> old_rsp) ->
  let '(saved, m1) := switch_task old_rsp rsp ncr3 ktop nfs nfpu ret m in
  let m2 := run (ferros_syscall_return ucs uss) m1 in
  rip m1 = sysret /\ returns_to (child_frame parent) ucs uss m2 /\
  cr3 m2 = ncr3 /\ fs_base m2 = nfs /\ fpu m2 = nfpu.
Proof.
  pose proof (words_at_fork_child ktop sysret parent w) as Hst.
  destruct (init_fork_child_stack sysret ktop parent w) as [rsp w'].
  unfold roomy, FRAME_BYTES, CONTEXT_BYTES in *. intros Hk0 Hk Hm Hsp Hold Hap.
  destruct Hst as (Hrsp & W1 & W2); [lia|].
  unfold switch_task. destruct (load_task _ _ _ _ m) as [saved m0] eqn:El.
  apply load_task_spec in El as (-> & L1 & L2 & _ & _ & L3 & L4 & L5 & L6 & _).
  destruct (switch_context_spec old_rsp rsp ret m0 [0; 0; 0; 0; 0; 0] sysret) as (C & K1 & K2 & _ & _ & K3);
    unfold CONTEXT_BYTES; rewrite ?L1; try (done || lia); [by rewrite L2, Hm| |].
  { unfold apart, within, CONTEXT_BYTES in *. intros a Ha. apply Hap. lia. }
  set (m1 := switch_context _ _ _ _) in *. clearbody m1. unfold context_of in K2.
  apply app_inj_2 in K2 as [K2 [= Hrip]]; [|done].
  unfold CONTEXT_BYTES in *. rewrite L1, L2 in K3. destruct C as (_ & _ & _ & C1 & C2 & C3 & C4 & _).
  destruct (syscall_return_spec ucs uss (child_frame parent) m1) as (R1 & _ & R2 & R3 & R4);
    [lia|unfold FRAME_BYTES; lia| |split_and!; congruence].
  rewrite K1. eapply words_at_ext; [|exact W2]. intros a Ha.
  assert (within rsp (56 + 128) a) as Hin by (unfold within; cbn in Ha; lia).
  destruct (Hap a Hin). rewrite K3 by done. by rewrite Hm.
Qed.

Lemma fork_child_resumes_witness :
  let '(rsp, w') := init_fork_child_stack 0x480 0x8000 (frame_of user_machine) ∅ in
  let '(saved, m1) := switch_task 0x100 rsp 0x3000 0x8000 0x7000 FpuArea_new_clean 0x600 (idle_machine 0x9000 w') in
  let m2 := run (ferros_syscall_return 0x23 0x1B) m1 in
  rip m1 = 0x480 /\ returns_to (child_frame (frame_of user_machine)) 0x23 0x1B m2 /\
  cr3 m2 = 0x3000 /\ fs_base m2 = 0x7000 /\ fpu m2 = FpuArea_new_clean.
Proof.
  apply (fork_child_resumes 0x480 0x8000 (frame_of user_machine) 0x23 0x1B 0x100 0x600 ∅
    (idle_machine 0x9000 (init_fork_child_stack 0x480 0x8000 (frame_of user_machine) ∅).2)
    0x3000 0x7000 FpuArea_new_clean); try done; change (gpr (idle_machine _ _) RSP) with 0x9000.
  - unfold within, CONTEXT_BYTES. lia.
  - match goal with |- forall a, within ?r _ a -> _ => change r with 0x7F48 end.
    unfold within, FRAME_BYTES, CONTEXT_BYTES. lia.
Defined.
