(* ===== verification/Sched.v ===== *)
(** * Scheduler

    [src/sched/thread.rs]: the thread table, creation, exit, signals, waiting,
    blocking, reaping and the round-robin switch.  A call of [switch_to_next]
    that switches ends in the thread it switched to: what follows it in the
    caller runs when the caller is switched back in. *)

From stdpp Require Import base numbers list gmap.
From Stdlib Require Import ZArith Lia.
From S2P Require Import Prelude Machine Context.
#[local] Open Scope Z_scope.

(** ** Data *)

Inductive State : Type := Runnable | Blocked | Zombie | Dead | Reaped.

Inductive BlockReason : Type := NotBlocked | Child | Stdin | Pipe.

#[export] Instance State_eq_dec : EqDecision State.
Proof. solve_decision. Defined.
#[export] Instance BlockReason_eq_dec : EqDecision BlockReason.
Proof. solve_decision. Defined.

(** [stack] is the box of the kernel stack, as its address and length. *)
Record Thread : Type := mkThread {
  pid : Z;
  parent : Z;
  exit_status : option Z;
  term_signal : option Z;
  pending_signals : Z;
  t_rsp : Z;
  stack : option (Z * Z);
  t_cr3 : option Z;
  kernel_stack_top : Z;
  t_fs_base : Z;
  t_fpu : list byte;
  state : State;
  blocked_on : BlockReason;
}.

Record Scheduler : Type := mkScheduler {
  threads : list Thread;
  current : nat;
  kernel_cr3 : Z;
}.

(** The statics of the module and the processor. *)
Record Kernel : Type := mkKernel {
  SCHEDULER : option Scheduler;
  PREEMPTION_ENABLED : bool;
  NEXT_PID : Z;
  STDIN_BLOCKS : Z;
  cpu : machine;
}.

Definition STACK_SIZE : Z := 4096 * 4.

(** ** Field updates *)

Definition set_state (x : State) (t : Thread) : Thread :=
  mkThread (pid t) (parent t) (exit_status t) (term_signal t) (pending_signals t) (t_rsp t) (stack t)
    (t_cr3 t) (kernel_stack_top t) (t_fs_base t) (t_fpu t) x (blocked_on t).
Definition set_blocked_on (x : BlockReason) (t : Thread) : Thread :=
  mkThread (pid t) (parent t) (exit_status t) (term_signal t) (pending_signals t) (t_rsp t) (stack t)
    (t_cr3 t) (kernel_stack_top t) (t_fs_base t) (t_fpu t) (state t) x.
Definition set_parent (x : Z) (t : Thread) : Thread :=
  mkThread (pid t) x (exit_status t) (term_signal t) (pending_signals t) (t_rsp t) (stack t)
    (t_cr3 t) (kernel_stack_top t) (t_fs_base t) (t_fpu t) (state t) (blocked_on t).
Definition set_exit (st : Z) (sig : option Z) (t : Thread) : Thread :=
  mkThread (pid t) (parent t) (Some st) sig (pending_signals t) (t_rsp t) (stack t)
    (t_cr3 t) (kernel_stack_top t) (t_fs_base t) (t_fpu t) (state t) (blocked_on t).
Definition set_pending (x : Z) (t : Thread) : Thread :=
  mkThread (pid t) (parent t) (exit_status t) (term_signal t) x (t_rsp t) (stack t)
    (t_cr3 t) (kernel_stack_top t) (t_fs_base t) (t_fpu t) (state t) (blocked_on t).
Definition set_saved (rsp : Z) (area : list byte) (t : Thread) : Thread :=
  mkThread (pid t) (parent t) (exit_status t) (term_signal t) (pending_signals t) rsp (stack t)
    (t_cr3 t) (kernel_stack_top t) (t_fs_base t) area (state t) (blocked_on t).
Definition set_owned (c : option Z) (s : option (Z * Z)) (t : Thread) : Thread :=
  mkThread (pid t) (parent t) (exit_status t) (term_signal t) (pending_signals t) (t_rsp t) s
    c (kernel_stack_top t) (t_fs_base t) (t_fpu t) (state t) (blocked_on t).
Definition set_thread_fs (x : Z) (t : Thread) : Thread :=
  mkThread (pid t) (parent t) (exit_status t) (term_signal t) (pending_signals t) (t_rsp t) (stack t)
    (t_cr3 t) (kernel_stack_top t) x (t_fpu t) (state t) (blocked_on t).

Definition set_threads (ts : list Thread) (s : Scheduler) : Scheduler :=
  mkScheduler ts (current s) (kernel_cr3 s).
Definition set_sched (s : Scheduler) (k : Kernel) : Kernel :=
  mkKernel (Some s) (PREEMPTION_ENABLED k) (NEXT_PID k) (STDIN_BLOCKS k) (cpu k).
Definition set_cpu (m : machine) (k : Kernel) : Kernel :=
  mkKernel (SCHEDULER k) (PREEMPTION_ENABLED k) (NEXT_PID k) (STDIN_BLOCKS k) m.
Definition set_next_pid (n : Z) (k : Kernel) : Kernel :=
  mkKernel (SCHEDULER k) (PREEMPTION_ENABLED k) n (STDIN_BLOCKS k) (cpu k).

(** Functions of the module return their value; a failed [expect] or index is
    [Panic], and there is no error value. *)
Definition kprog (A : Type) : Type := prog Kernel Empty_set A.

(** [SCHEDULER.lock().as_mut().expect("scheduler not initialized")] *)
Definition scheduler : kprog Scheduler := let! k := pget in punwrap (SCHEDULER k).

Definition put_sched (s : Scheduler) : kprog unit := pmodify (set_sched s).

(** [sched.threads[i]] *)
Definition thread_at (s : Scheduler) (i : nat) : kprog Thread := punwrap (threads s !! i).

(** ** Start *)

Definition zero_thread : Thread :=
  mkThread 0 0 None None 0 0 None None 0 0 FpuArea_new_clean Runnable NotBlocked.

Definition init : kprog unit :=
  let! k := pget in put_sched (mkScheduler [zero_thread] 0 (cr3 (cpu k))).

(** ** The current thread *)

Definition current_field {A} (dflt : A) (f : Thread -> A) : kprog A :=
  let! k := pget in
  match SCHEDULER k with
  | None => pret dflt
  | Some s => let! t := thread_at s (current s) in pret (f t)
  end.

Definition current_pid : kprog Z := current_field 0 pid.

Definition current_ppid : kprog Z := current_field 0 parent.

Definition current_fs_base : kprog Z := current_field 0 t_fs_base.

Definition set_current_fs_base (x : Z) : kprog unit :=
  let! k := pget in
  match SCHEDULER k with
  | None => pret tt
  | Some s =>
      let! _ := thread_at s (current s) in
      put_sched (set_threads (alter (set_thread_fs x) (current s) (threads s)) s)
  end.

Definition exec_replace_cr3 (new : Z) : kprog Z :=
  let! s := scheduler in
  let! t := thread_at s (current s) in
  let! old := punwrap (t_cr3 t) in
  put_sched (set_threads
    (alter (fun t => set_thread_fs 0 (set_owned (Some new) (stack t) t)) (current s) (threads s)) s) ;;!
  pret old.

Definition get_kernel_cr3 : kprog Z := let! s := scheduler in pret (kernel_cr3 s).

(** ** Creation *)

(** [NEXT_PID.fetch_add(1, SeqCst)]: atomics wrap. *)
Definition fetch_add_pid : kprog Z :=
  let! k := pget in
  pmodify (set_next_pid ((NEXT_PID k + 1) mod U32)) ;;! pret (NEXT_PID k).

Definition push_thread (t : Thread) : kprog unit :=
  let! s := scheduler in put_sched (set_threads (threads s ++ [t]) s).

(** [base] is the address of the box the allocator returns, [tramp] that of the
    thread trampoline. *)
Definition spawn (tramp base entry : Z) : kprog unit :=
  let top := align16 (base + STACK_SIZE) in
  let! k := pget in
  let '(rsp, w) := init_thread_stack tramp top entry (mem (cpu k)) in
  pmodify (set_cpu (set_mem w (cpu k))) ;;!
  let! parent := current_pid in
  let! pid := fetch_add_pid in
  push_thread (mkThread pid parent None None 0 rsp (Some (base, STACK_SIZE)) None top 0
                 FpuArea_new_clean Runnable NotBlocked).

Definition add_user_task (rsp cr3 kernel_stack_top : Z) (kstack : Z * Z) (fs_base : Z) : kprog Z :=
  let! parent := current_pid in
  let! pid := fetch_add_pid in
  let! k := pget in
  push_thread (mkThread pid parent None None 0 rsp (Some kstack) (Some cr3) kernel_stack_top fs_base
                 (FpuArea_save_current (cpu k)) Runnable NotBlocked) ;;!
  pret pid.

Definition start_preemption : kprog unit :=
  pmodify (fun k => mkKernel (SCHEDULER k) true (NEXT_PID k) (STDIN_BLOCKS k) (cpu k)).

Definition stop_preemption : kprog unit :=
  pmodify (fun k => mkKernel (SCHEDULER k) false (NEXT_PID k) (STDIN_BLOCKS k) (cpu k)).

(** ** Termination and signals *)

Definition is_alive (s : State) : bool :=
  match s with Runnable | Blocked => true | _ => false end.

Definition state_is (s : State) (t : Thread) : bool := bool_decide (state t = s).

Definition blocked_for (r : BlockReason) (t : Thread) : bool :=
  state_is Blocked t && bool_decide (blocked_on t = r).

(** The loop that wakes the first waiting parent and stops. *)
Fixpoint wake_parent (parent_pid : Z) (ts : list Thread) : list Thread :=
  match ts with
  | [] => []
  | t :: ts' =>
      if (pid t =? parent_pid) && blocked_for Child t then set_state Runnable t :: ts'
      else t :: wake_parent parent_pid ts'
  end.

Definition orphan (p : Z) (t : Thread) : Thread := if parent t =? p then set_parent 0 t else t.

(** [terminate]; [None] is an index out of range. *)
Definition terminate (s : Scheduler) (idx : nat) (status : Z) (signal : option Z) : option Scheduler :=
  match threads s !! idx with
  | None => None
  | Some t =>
      let ts := alter (fun t => set_state Zombie (set_exit status signal t)) idx (threads s) in
      let ts := map (orphan (pid t)) ts in
      match ts !! idx with
      | None => None
      | Some t' =>
          let parent_pid := parent t' in
          Some (set_threads (if parent_pid =? 0 then ts else wake_parent parent_pid ts) s)
      end
  end.

Definition default_terminates (sig : Z) : bool :=
  negb (existsb (Z.eqb sig) [17; 18; 19; 20; 21; 22; 23; 28]).

Inductive SignalOutcome : Type := Delivered | NoSuchProcess.

(** [iter().position(p)] *)
Fixpoint position {A} (p : A -> bool) (l : list A) : option nat :=
  match l with
  | [] => None
  | x :: l' => if p x then Some O else option_map S (position p l')
  end.

Definition signal_target (target_pid : Z) (t : Thread) : bool :=
  (pid t =? target_pid) && bool_decide (is_Some (t_cr3 t)) && is_alive (state t).

(** [1u64 << n], which panics for [n >= 64]. *)
Definition u64_shl1 (n : Z) : kprog Z := if (0 <=? n) && (n <? 64) then pret (Z.shiftl 1 n) else ppanic.

(** The closure of [signal]: [true] asks to switch away. *)
Definition signal_post (target_pid sig : Z) : kprog (bool + SignalOutcome) :=
  let! s := scheduler in
  match position (signal_target target_pid) (threads s) with
  | None => pret (inr NoSuchProcess)
  | Some idx =>
      if sig =? 0 then pret (inl false) else
      let! bit := u64_shl1 (sig - 1) in
      let s1 := set_threads (alter (fun t => set_pending (Z.lor (pending_signals t) bit) t) idx (threads s)) s in
      if default_terminates sig then
        let! s2 := punwrap (terminate s1 idx (128 + sig) (Some sig)) in
        put_sched s2 ;;! pret (inl (idx =? current s)%nat)
      else put_sched s1 ;;! pret (inl false)
  end.

(** ** Waiting *)

Inductive WaitResult : Type :=
| Collected (pid status : Z) (signal : option Z)
| WouldBlock
| NoChildren.

Definition is_mine (cur_pid : Z) (want : option Z) (t : Thread) : bool :=
  (parent t =? cur_pid) && match want with None => true | Some p => pid t =? p end.

(** [want_pid] is an [i64]. *)
Definition wanted (want_pid : Z) : option Z := if 0 <? want_pid then Some (want_pid mod U32) else None.

Definition try_collect_or_block (want_pid : Z) : kprog WaitResult :=
  let! s := scheduler in
  let cur := current s in
  let! t := thread_at s cur in
  let mine := is_mine (pid t) (wanted want_pid) in
  match position (fun t => mine t && state_is Zombie t) (threads s) with
  | Some i =>
      let! c := thread_at s i in
      put_sched (set_threads (alter (set_state Dead) i (threads s)) s) ;;!
      pret (Collected (pid c) (default 0 (exit_status c)) (term_signal c))
  | None =>
      if existsb (fun t => mine t && is_alive (state t)) (threads s) then
        put_sched (set_threads (alter (fun t => set_blocked_on Child (set_state Blocked t)) cur (threads s)) s) ;;!
        pret WouldBlock
      else pret NoChildren
  end.

(** ** The switch *)

(** The first runnable thread strictly after [cur], in a circle. *)
Fixpoint first_runnable (ts : list Thread) (cur : nat) (i : nat) (n : nat) : option nat :=
  match n with
  | O => None
  | S n' =>
      let c := ((cur + i) mod length ts)%nat in
      match ts !! c with
      | Some t => if state_is Runnable t then Some c else first_runnable ts cur (S i) n'
      | None => None
      end
  end.

Definition next_runnable (s : Scheduler) : option nat :=
  first_runnable (threads s) (current s) 1 (length (threads s) - 1).

Section Switch.
(** The address of [threads[i].rsp], and the address in [switch_task] where a
    thread that is switched out resumes. *)
Variable rsp_cell : nat -> Z.
Variable resume : Z.

Definition switch_to_next : kprog bool :=
  let! k := pget in
  match SCHEDULER k with
  | None => pret false
  | Some s =>
      let cur := current s in
      match next_runnable s with
      | Some n =>
          let! _ := thread_at s cur in
          let! tn := thread_at s n in
          let next_cr3 := default (kernel_cr3 s) (t_cr3 tn) in
          let '(old_fpu, m) :=
            switch_task (rsp_cell cur) (t_rsp tn) next_cr3 (kernel_stack_top tn) (t_fs_base tn) (t_fpu tn)
              resume (cpu k) in
          let ts := alter (set_saved (word (mem m) (rsp_cell cur)) old_fpu) cur (threads s) in
          pput (set_cpu m (set_sched (mkScheduler ts n (kernel_cr3 s)) k)) ;;! pret true
      | None =>
          let! t := thread_at s cur in
          passert (state_is Runnable t) ;;! pret false
      end
  end.

(** [unreachable!] after a switch that did not happen. *)
Definition switch_away : kprog unit := let! b := switch_to_next in passert b.

Definition exit_current_inner (status : Z) (signal : option Z) : kprog unit :=
  pmodify (fun k => set_cpu (set_rflags (Z.ldiff (rflags (cpu k)) IF_BIT) (cpu k)) k) ;;!
  let! s := scheduler in
  let! s' := punwrap (terminate s (current s) status signal) in
  put_sched s' ;;! switch_away.

Definition exit_current (status : Z) : kprog unit := exit_current_inner status None.

Definition exit_current_killed (sig : Z) : kprog unit := exit_current_inner (128 + sig) (Some sig).

(** [None]: the caller was the target, and another thread runs now. *)
Definition signal (target_pid sig : Z) : kprog (option SignalOutcome) :=
  let! r := signal_post target_pid sig in
  match r with
  | inl true =>
      pmodify (fun k => set_cpu (set_rflags (Z.ldiff (rflags (cpu k)) IF_BIT) (cpu k)) k) ;;!
      switch_away ;;! pret None
  | inl false => pret (Some Delivered)
  | inr o => pret (Some o)
  end.

(** One iteration of the loop of [wait_current]: [None] means that the caller
    blocked and another thread runs; it iterates again when it is switched in. *)
Definition wait_current (want_pid : Z) : kprog (option (option (Z * Z * option Z))) :=
  let! r := try_collect_or_block want_pid in
  match r with
  | Collected p st sig => pret (Some (Some (p, st, sig)))
  | NoChildren => pret (Some None)
  | WouldBlock =>
      pmodify (fun k => set_cpu (set_rflags (Z.ldiff (rflags (cpu k)) IF_BIT) (cpu k)) k) ;;!
      switch_to_next ;;! pret None
  end.

Definition block_current (r : BlockReason) : kprog unit :=
  let! s := scheduler in
  let! _ := thread_at s (current s) in
  put_sched (set_threads (alter (fun t => set_blocked_on r (set_state Blocked t)) (current s) (threads s)) s).

Definition block_current_on_stdin : kprog unit :=
  block_current Stdin ;;!
  pmodify (fun k => mkKernel (SCHEDULER k) (PREEMPTION_ENABLED k) (NEXT_PID k)
                      ((STDIN_BLOCKS k + 1) mod U64) (cpu k)) ;;!
  switch_to_next ;;! pret tt.

Definition block_current_on_pipe : kprog unit := block_current Pipe ;;! switch_to_next ;;! pret tt.

Definition yield_now : kprog unit :=
  let! k := pget in
  let was_enabled := Z.testbit (rflags (cpu k)) 9 in
  pmodify (fun k => set_cpu (set_rflags (Z.ldiff (rflags (cpu k)) IF_BIT) (cpu k)) k) ;;!
  let! switched := switch_to_next in
  if negb switched && was_enabled
  then pmodify (fun k => set_cpu (set_rflags (Z.lor (rflags (cpu k)) IF_BIT) (cpu k)) k)
  else pret tt.

Definition on_timer_tick : kprog unit :=
  let! k := pget in
  if PREEMPTION_ENABLED k then switch_to_next ;;! pret tt else pret tt.
End Switch.

(** ** Wake-ups *)

Definition wake (r : BlockReason) (t : Thread) : Thread :=
  if blocked_for r t then set_state Runnable t else t.

Definition wake_all (r : BlockReason) : kprog unit :=
  let! k := pget in
  match SCHEDULER k with
  | None => pret tt
  | Some s => put_sched (set_threads (map (wake r) (threads s)) s)
  end.

Definition wake_stdin_readers : kprog unit := wake_all Stdin.

Definition wake_pipe_waiters : kprog unit := wake_all Pipe.

(** ** Reaping *)

Definition collectable (t : Thread) : bool :=
  state_is Dead t || (state_is Zombie t && (parent t =? 0)).

(** The loop over the table with its index; the corpses in order. *)
Fixpoint reap_loop (cur i : nat) (ts : list Thread) : list Thread * list (option Z * option (Z * Z)) :=
  match ts with
  | [] => ([], [])
  | t :: ts' =>
      let '(ts1, cs) := reap_loop cur (S i) ts' in
      if negb (i =? cur)%nat && collectable t
      then (set_state Reaped (set_owned None None t) :: ts1, (t_cr3 t, stack t) :: cs)
      else (t :: ts1, cs)
  end.

(** [reap]: the corpses whose address spaces are destroyed and forgotten, and
    whose stacks are dropped, by the loop that follows. *)
Definition reap (global_installed : bool) : kprog (list (option Z * option (Z * Z))) :=
  if negb global_installed then pret [] else
  let! k := pget in
  match SCHEDULER k with
  | None => pret []
  | Some s =>
      let '(ts, corpses) := reap_loop (current s) 0 (threads s) in
      put_sched (set_threads ts s) ;;! pret corpses
  end.
