(* ===== verification/SchedInv.v ===== *)
(** * Invariant of the thread table

    Every operation of the scheduler replaces each thread of the table by one
    with the same pid, or appends a thread.  The table invariant is kept by
    such updates under local conditions, which each operation discharges. *)

From stdpp Require Import base numbers list gmap.
From Stdlib Require Import ZArith Lia.
From S2P Require Import Prelude Machine Context Sched.
#[local] Open Scope Z_scope.

Definition alive (t : Thread) : Prop := is_alive (state t) = true.

(** Thread 0 is the kernel's and always runnable; pids are unique and below the
    next one; a parent is thread 0 or alive; exactly the threads that are not
    alive have an exit status; a reaped thread owns nothing; a thread that
    waits for a child has one that is alive, so its wake-up is still to come. *)
Record table_ok (ts : list Thread) (np : Z) : Prop := {
  tk_zero : exists t, ts !! 0%nat = Some t /\ pid t = 0 /\ t_cr3 t = None /\ state t = Runnable;
  tk_pids : forall i j t u, ts !! i = Some t -> ts !! j = Some u -> pid t = pid u -> i = j;
  tk_bound : forall i t, ts !! i = Some t -> 0 <= pid t < np;
  tk_parent : forall i t, ts !! i = Some t ->
    parent t = 0 \/ exists j p, ts !! j = Some p /\ pid p = parent t /\ alive p;
  tk_status : forall i t, ts !! i = Some t -> alive t <-> exit_status t = None;
  tk_owned : forall i t, ts !! i = Some t -> state t = Reaped -> t_cr3 t = None /\ stack t = None;
  tk_wait : forall i t, ts !! i = Some t -> blocked_for Child t = true ->
    exists j c, ts !! j = Some c /\ parent c = pid t /\ alive c;
}.

(** Between calls the current thread runs. *)
Definition current_runs (s : Scheduler) : Prop :=
  exists t, threads s !! current s = Some t /\ state t = Runnable.

Definition sched_ok (s : Scheduler) (np : Z) : Prop := table_ok (threads s) np /\ current_runs s.

Definition kernel_ok (k : Kernel) : Prop :=
  exists s, SCHEDULER k = Some s /\ sched_ok s (NEXT_PID k) /\ 0 < NEXT_PID k < U32.

(** The current thread is a user process. *)
Definition user_current (k : Kernel) : Prop :=
  exists s t, SCHEDULER k = Some s /\ threads s !! current s = Some t /\ is_Some (t_cr3 t).

(** ** Table updates *)

Lemma alter_imap {A} (g : A -> A) i (l : list A) :
  alter g i l = imap (fun j x => if (j =? i)%nat then g x else x) l.
Proof.
  apply list_eq. intros j. rewrite list_lookup_imap.
  destruct (Nat.eqb_spec j i) as [->|Hne].
  - rewrite list_lookup_alter_eq. done.
  - rewrite list_lookup_alter_ne by done. by destruct (l !! j).
Qed.

Lemma map_imap {A B} (g : A -> B) (l : list A) : map g l = imap (fun _ x => g x) l.
Proof. symmetry. apply (imap_const g). Qed.

Lemma lookup_imap_inv {A B} (f : nat -> A -> B) l i y :
  imap f l !! i = Some y -> exists x, l !! i = Some x /\ y = f i x.
Proof. rewrite list_lookup_imap. intros (x & E & ->)%fmap_Some. eauto. Qed.

Lemma lookup_imap_some {A B} (f : nat -> A -> B) l i x :
  l !! i = Some x -> imap f l !! i = Some (f i x).
Proof. intros E. by rewrite list_lookup_imap, E. Qed.

Lemma blocked_for_spec r t : blocked_for r t = true <-> state t = Blocked /\ blocked_on t = r.
Proof. unfold blocked_for, state_is. rewrite andb_true_iff, !bool_decide_eq_true. done. Qed.

Lemma state_is_spec s t : state_is s t = true <-> state t = s.
Proof. unfold state_is. apply bool_decide_eq_true. Qed.

(** A pointwise update keeps the invariant under conditions on each thread. *)
Lemma table_ok_imap ts np (f : nat -> Thread -> Thread) :
  table_ok ts np ->
  (forall i t, ts !! i = Some t -> pid (f i t) = pid t) ->
  (forall t, ts !! 0%nat = Some t -> state t = Runnable -> t_cr3 (f 0%nat t) = t_cr3 t /\ state (f 0%nat t) = Runnable) ->
  (forall i t, ts !! i = Some t -> parent (f i t) = 0 \/
     exists j p, ts !! j = Some p /\ pid p = parent (f i t) /\ alive (f j p)) ->
  (forall i t, ts !! i = Some t -> (alive t <-> exit_status t = None) -> alive (f i t) <-> exit_status (f i t) = None) ->
  (forall i t, ts !! i = Some t -> (state t = Reaped -> t_cr3 t = None /\ stack t = None) ->
     state (f i t) = Reaped -> t_cr3 (f i t) = None /\ stack (f i t) = None) ->
  (forall i t, ts !! i = Some t -> blocked_for Child (f i t) = true ->
     exists j c, ts !! j = Some c /\ parent (f j c) = pid t /\ alive (f j c)) ->
  table_ok (imap f ts) np.
Proof.
  intros [Z P B Pa St Ow W] Hpid Hz Hpa Hst How Hw. split.
  - destruct Z as (t & E & ? & ? & ?). exists (f 0%nat t). rewrite (lookup_imap_some _ _ _ _ E).
    destruct (Hz t E) as [-> ->]; [done|]. by rewrite Hpid.
  - intros i j t u (t0 & E1 & ->)%lookup_imap_inv (u0 & E2 & ->)%lookup_imap_inv.
    rewrite !Hpid by done. by apply P.
  - intros i t (t0 & E & ->)%lookup_imap_inv. rewrite Hpid by done. by eapply B.
  - intros i t (t0 & E & ->)%lookup_imap_inv. destruct (Hpa i t0 E) as [|(j & p & Ej & Ep & Ha)]; [by left|].
    right. exists j, (f j p). rewrite (lookup_imap_some _ _ _ _ Ej), Hpid by done. done.
  - intros i t (t0 & E & ->)%lookup_imap_inv. apply Hst; [done|by eapply St].
  - intros i t (t0 & E & ->)%lookup_imap_inv. apply How; [done|by eapply Ow].
  - intros i t (t0 & E & ->)%lookup_imap_inv Hb. rewrite Hpid by done.
    destruct (Hw i t0 E Hb) as (j & c & Ec & Hc & Ha). exists j, (f j c).
    by rewrite (lookup_imap_some _ _ _ _ Ec).
Qed.

(** An update that keeps everything the relations between threads depend on. *)
Definition keeps (ts : list Thread) (f : nat -> Thread -> Thread) : Prop :=
  forall i t, ts !! i = Some t ->
    pid (f i t) = pid t /\ parent (f i t) = parent t /\ is_alive (state (f i t)) = is_alive (state t) /\
    exit_status (f i t) = exit_status t /\
    (state t = Runnable -> state (f i t) = Runnable) /\
    (state t = Reaped <-> state (f i t) = Reaped) /\
    (blocked_for Child (f i t) = true -> blocked_for Child t = true) /\
    (t_cr3 t = None <-> t_cr3 (f i t) = None) /\ stack (f i t) = stack t.

Lemma table_ok_keeps ts np f : keeps ts f -> table_ok ts np -> table_ok (imap f ts) np.
Proof.
  intros K T. unfold keeps, alive in *.
  apply table_ok_imap; [done|..].
  - intros i t E. by apply K.
  - intros t E Hr. destruct (tk_zero _ _ T) as (t' & E' & _ & Hc & _). rewrite E in E'. injection E' as <-.
    pose proof (K 0%nat t E). rewrite Hc. naive_solver.
  - intros i t E. pose proof (K i t E) as Ki. destruct (tk_parent _ _ T i t E) as [|(j & p & Ej & Ep & Ha)].
    + left. naive_solver congruence.
    + right. exists j, p. pose proof (K j p Ej). unfold alive in *. naive_solver congruence.
  - intros i t E Hi. pose proof (K i t E). unfold alive in *. naive_solver congruence.
  - intros i t E Hi Hr. pose proof (K i t E). naive_solver congruence.
  - intros i t E Hb. pose proof (K i t E). destruct (tk_wait _ _ T i t E) as (j & c & Ej & Ec & Ha); [naive_solver|].
    exists j, c. pose proof (K j c Ej). unfold alive in *. naive_solver congruence.
Qed.

Lemma imap_cons_shift {A B} (f : A -> B) x l :
  imap (fun _ y => f y) (x :: l) = f x :: imap (fun _ y => f y) l.
Proof. done. Qed.

Lemma table_NoDup ts np : table_ok ts np -> NoDup (pid <$> ts).
Proof.
  intros T. apply NoDup_alt. intros i j x. rewrite !list_lookup_fmap.
  intros (t & Et & ->)%fmap_Some (u & Eu & E)%fmap_Some. by eapply tk_pids.
Qed.

Definition woken (p : Z) (t : Thread) : Thread :=
  if (pid t =? p) && blocked_for Child t then set_state Runnable t else t.

Lemma map_id_absent p ts : p ∉ pid <$> ts -> map (woken p) ts = ts.
Proof.
  induction ts as [|t ts IH]; [done|]. rewrite fmap_cons, not_elem_of_cons. intros [Hne Hn].
  cbn [map]. rewrite IH by done. unfold woken. by rewrite (proj2 (Z.eqb_neq _ _)).
Qed.

Lemma wake_parent_map p ts : NoDup (pid <$> ts) -> wake_parent p ts = map (woken p) ts.
Proof.
  induction ts as [|t ts IH]; [done|]. rewrite fmap_cons, NoDup_cons. intros [Hn Hnd].
  cbn [wake_parent map]. rewrite IH by done. unfold woken at 2.
  destruct ((pid t =? p) && blocked_for Child t) eqn:E; [|done]. zbool. subst. by rewrite map_id_absent.
Qed.

(** What [terminate] does to each thread; [t0] is the one that ends. *)
Definition ended (idx : nat) (t0 : Thread) (status : Z) (sig : option Z) (i : nat) (t : Thread) : Thread :=
  let t1 := orphan (pid t0) (if (i =? idx)%nat then set_state Zombie (set_exit status sig t) else t) in
  let pp := parent (orphan (pid t0) t0) in
  if pp =? 0 then t1 else woken pp t1.

Lemma pid_orphan p t : pid (orphan p t) = pid t.
Proof. unfold orphan. by destruct (parent t =? p). Qed.

Lemma imap_imap_gen {A B C} (g : nat -> B -> C) (f : nat -> A -> B) l :
  imap g (imap f l) = imap (fun i x => g i (f i x)) l.
Proof. apply list_eq. intros i. rewrite !list_lookup_imap. by destruct (l !! i). Qed.

Lemma terminate_spec s np idx t0 status sig :
  table_ok (threads s) np -> threads s !! idx = Some t0 ->
  terminate s idx status sig = Some (set_threads (imap (ended idx t0 status sig) (threads s)) s).
Proof.
  intros T E. unfold terminate. rewrite E, alter_imap, map_imap, imap_imap_gen.
  rewrite (lookup_imap_some _ _ _ _ E), Nat.eqb_refl.
  assert (parent (orphan (pid t0) (set_state Zombie (set_exit status sig t0))) = parent (orphan (pid t0) t0)) as ->.
  { unfold orphan. cbn. by destruct (parent t0 =? pid t0). }
  do 2 f_equal. unfold ended. destruct (parent (orphan (pid t0) t0) =? 0) eqn:Ep; [done|].
  rewrite wake_parent_map, map_imap, imap_imap_gen; [done|].
  replace (pid <$> _) with (pid <$> threads s); [by eapply table_NoDup|].
  apply list_eq. intros i. rewrite !list_lookup_fmap, list_lookup_imap.
  destruct (threads s !! i); [|done]. cbn. rewrite pid_orphan. by destruct (i =? idx)%nat.
Qed.

(** The fields of an ended table, thread by thread. *)
Lemma ended_fields idx t0 status sig i t :
  let t' := ended idx t0 status sig i t in
  pid t' = pid t /\ parent t' = (if parent t =? pid t0 then 0 else parent t) /\
  t_cr3 t' = t_cr3 t /\ stack t' = stack t /\ t_rsp t' = t_rsp t /\ blocked_on t' = blocked_on t /\
  kernel_stack_top t' = kernel_stack_top t /\ t_fs_base t' = t_fs_base t /\ t_fpu t' = t_fpu t /\
  exit_status t' = (if (i =? idx)%nat then Some status else exit_status t) /\
  term_signal t' = (if (i =? idx)%nat then sig else term_signal t) /\
  state t' = (if (i =? idx)%nat then Zombie
              else let pp := parent (orphan (pid t0) t0) in
                   if negb (pp =? 0) && (pid t =? pp) && blocked_for Child t then Runnable else state t).
Proof.
  unfold ended, woken, orphan, blocked_for, state_is.
  destruct (i =? idx)%nat; cbn; destruct (parent t =? pid t0) eqn:E1; cbn;
    destruct (parent t0 =? pid t0) eqn:E2; cbn; destruct (parent t0 =? 0) eqn:E3; cbn;
    try destruct (pid t =? parent t0) eqn:E4; cbn; try (by split_and!);
    destruct (bool_decide (state t = Blocked)), (bool_decide (blocked_on t = Child)); cbn; by split_and!.
Qed.

Lemma ended_self idx t0 status sig t : state (ended idx t0 status sig idx t) = Zombie.
Proof.
  destruct (ended_fields idx t0 status sig idx t) as (_ & _ & _ & _ & _ & _ & _ & _ & _ & _ & _ & ->).
  by rewrite Nat.eqb_refl.
Qed.

Lemma ended_runs idx t0 status sig i t :
  i <> idx -> state t = Runnable -> state (ended idx t0 status sig i t) = Runnable.
Proof.
  intros Hi Hr. destruct (ended_fields idx t0 status sig i t) as (_ & _ & _ & _ & _ & _ & _ & _ & _ & _ & _ & ->).
  rewrite (proj2 (Nat.eqb_neq i idx)) by done. cbv zeta. by case_match.
Qed.

Lemma table_ok_terminate s np idx t0 status sig :
  table_ok (threads s) np -> threads s !! idx = Some t0 -> idx <> 0%nat ->
  table_ok (imap (ended idx t0 status sig) (threads s)) np.
Proof.
  intros T E Hidx.
  assert (forall i t, threads s !! i = Some t -> i <> idx -> alive t -> alive (ended idx t0 status sig i t)) as Hal.
  { intros i t _ Hi Ha. pose proof (ended_fields idx t0 status sig i t) as F. cbv zeta in F.
    unfold alive in *. destruct F as (_ & _ & _ & _ & _ & _ & _ & _ & _ & _ & _ & ->).
    rewrite (proj2 (Nat.eqb_neq _ _) Hi). by case_match. }
  apply table_ok_imap; [done|..].
  - intros i t _. apply (ended_fields idx t0 status sig i t).
  - intros t Et Hr. pose proof (ended_fields idx t0 status sig 0 t) as F. cbv zeta in F.
    destruct F as (_ & _ & -> & _ & _ & _ & _ & _ & _ & _ & _ & ->).
    rewrite (proj2 (Nat.eqb_neq 0 idx)) by done. split; [done|]. by case_match.
  - intros i t Et. pose proof (ended_fields idx t0 status sig i t) as F. cbv zeta in F.
    destruct F as (_ & -> & _). destruct (parent t =? pid t0) eqn:Ep; [by left|].
    destruct (tk_parent _ _ T i t Et) as [|(j & p & Ej & Hp & Ha)]; [by left|].
    right. exists j, p. split_and!; [done|done|]. apply Hal; [done| |done].
    intros ->. zbool. congruence.
  - intros i t Et Hi. pose proof (ended_fields idx t0 status sig i t) as F. cbv zeta in F. unfold alive in *.
    destruct F as (_ & _ & _ & _ & _ & _ & _ & _ & _ & -> & _ & ->).
    destruct (i =? idx)%nat; [done|]. rewrite <- Hi.
    case_match eqn:Ew; [|done]. zbool. apply blocked_for_spec in H0 as [-> _]. done.
  - intros i t Et Hi Hr. pose proof (ended_fields idx t0 status sig i t) as F. cbv zeta in F.
    destruct F as (_ & _ & -> & -> & _ & _ & _ & _ & _ & _ & _ & Es). rewrite Es in Hr. apply Hi.
    destruct (i =? idx)%nat; [done|]. by case_match.
  - intros i t Et Hb. pose proof (ended_fields idx t0 status sig i t) as F. cbv zeta in F.
    apply blocked_for_spec in Hb as [Hb1 Hb2].
    destruct F as (_ & _ & _ & _ & _ & Eb & _ & _ & _ & _ & _ & Es). rewrite Es in Hb1. rewrite Eb in Hb2.
    destruct (Nat.eqb_spec i idx) as [->|Hi]; [done|].
    destruct (negb _ && _ && _) eqn:Ew in Hb1; [done|].
    assert (blocked_for Child t = true) as Hbt by (by apply blocked_for_spec).
    destruct (tk_wait _ _ T i t Et Hbt) as (j & c & Ec & Hc & Ha).
    assert (pid t <> pid t0) as Hpp by (intros Hpp; apply Hi; by eapply (tk_pids _ _ T)).
    destruct (Nat.eq_dec j idx) as [->|Hj].
    + exfalso. rewrite E in Ec. injection Ec as <-. rewrite Hbt, andb_true_r in Ew.
      unfold orphan in Ew. rewrite (proj2 (Z.eqb_neq (parent t0) (pid t0))) in Ew by congruence.
      rewrite Hc, Z.eqb_refl, andb_true_r in Ew. zbool.
      destruct (tk_zero _ _ T) as (z & Ez & Hz & _ & Hzr).
      assert (0%nat = i) as <- by (eapply (tk_pids _ _ T); eauto; congruence).
      rewrite Et in Ez. congruence.
    + exists j, c. pose proof (ended_fields idx t0 status sig j c) as F. cbv zeta in F.
      destruct F as (_ & -> & _). split_and!; [done| |by apply Hal].
      rewrite Hc. by rewrite (proj2 (Z.eqb_neq (pid t) (pid t0))).
Qed.

(** ** The switch *)

Lemma first_runnable_some ts cur i n c :
  first_runnable ts cur i n = Some c ->
  exists d, (i <= d < i + n)%nat /\ c = ((cur + d) mod length ts)%nat /\
    (exists t, ts !! c = Some t /\ state t = Runnable) /\
    forall d', (i <= d' < d)%nat -> forall t, ts !! ((cur + d') mod length ts)%nat = Some t -> state t <> Runnable.
Proof.
  revert i; induction n as [|n IH]; intros i; [done|]. cbn [first_runnable].
  destruct (ts !! ((cur + i) mod length ts)%nat) as [t|] eqn:E; [|done]. destruct (state_is Runnable t) eqn:Es.
  - intros [= <-]. apply state_is_spec in Es. exists i. split_and!; [lia|lia|done|by eauto|lia].
  - intros (d & Hd & -> & Ht & Hno)%IH. exists d. split_and!; [lia|lia|done|done|].
    intros d' Hd'. destruct (decide (d' = i)) as [->|]; [|apply Hno; lia].
    intros t' Et' Hr. rewrite E in Et'. injection Et' as <-. apply state_is_spec in Hr. congruence.
Qed.

Lemma first_runnable_none ts cur i n :
  (0 < length ts)%nat -> first_runnable ts cur i n = None ->
  forall d t, (i <= d < i + n)%nat -> ts !! ((cur + d) mod length ts)%nat = Some t -> state t <> Runnable.
Proof.
  intros Hl. revert i; induction n as [|n IH]; intros i; [lia|]. cbn [first_runnable].
  assert (((cur + i) mod length ts < length ts)%nat) as Hb by (apply Nat.mod_upper_bound; lia).
  apply lookup_lt_is_Some_2 in Hb as [t E]. rewrite E. destruct (state_is Runnable t) eqn:Es; [done|].
  intros Hn d t' Hd Et'. destruct (decide (d = i)) as [->|]; [|eapply (IH (S i)); eauto; lia].
  rewrite E in Et'. injection Et' as <-. intros Hr%state_is_spec. congruence.
Qed.

(** Every other thread is at some distance from the current one. *)
Definition distance (len cur i : nat) : nat := ((i + len - cur) mod len)%nat.

Lemma distance_spec len cur i :
  (cur < len)%nat -> (i < len)%nat -> ((cur + distance len cur i) mod len = i)%nat /\ (distance len cur i < len)%nat.
Proof.
  intros Hc Hi. unfold distance. split; [|apply Nat.mod_upper_bound; lia].
  rewrite Nat.Div0.add_mod_idemp_r. replace (cur + (i + len - cur))%nat with (i + 1 * len)%nat by lia.
  rewrite Nat.Div0.mod_add. by apply Nat.mod_small.
Qed.

Lemma distance_pos len cur i : (cur < len)%nat -> (i < len)%nat -> i <> cur -> (0 < distance len cur i)%nat.
Proof.
  intros Hc Hi Hne. destruct (distance_spec len cur i Hc Hi) as [H1 _].
  destruct (distance len cur i) eqn:E; [|lia]. rewrite Nat.add_0_r, Nat.mod_small in H1 by done. lia.
Qed.

Lemma next_runnable_none s np :
  table_ok (threads s) np -> (current s < length (threads s))%nat -> next_runnable s = None -> current s = 0%nat.
Proof.
  intros T Hc Hn. destruct (decide (current s = 0%nat)) as [|Hne]; [done|exfalso].
  destruct (tk_zero _ _ T) as (z & Ez & _ & _ & Hr).
  assert (0 < length (threads s))%nat as Hl by (by apply lookup_lt_Some in Ez).
  destruct (distance_spec (length (threads s)) (current s) 0 Hc Hl) as [D1 D2].
  pose proof (distance_pos _ _ _ Hc Hl ltac:(done)).
  eapply (first_runnable_none _ _ _ _ Hl Hn (distance (length (threads s)) (current s) 0) z); [lia| |done].
  by rewrite D1.
Qed.

Lemma keeps_saved ts i rsp area : keeps ts (fun j t => if (j =? i)%nat then set_saved rsp area t else t).
Proof. intros j t _. destruct (j =? i)%nat; split_and!; tauto. Qed.

Section SwitchOk.
Variable rsp_cell : nat -> Z.
Variable resume : Z.

(** A switch keeps the table, ends in a runnable thread, and happens whenever
    the caller is not runnable. *)
Lemma switch_to_next_ok k s :
  SCHEDULER k = Some s -> table_ok (threads s) (NEXT_PID k) -> (current s < length (threads s))%nat ->
  wp (switch_to_next rsp_cell resume)
     (fun b k' => exists s', SCHEDULER k' = Some s' /\ sched_ok s' (NEXT_PID k') /\ NEXT_PID k' = NEXT_PID k /\
        ((forall t, threads s !! current s = Some t -> state t <> Runnable) -> b = true))
     (fun _ _ => False) k.
Proof.
  intros Hk T Hc. destruct (lookup_lt_is_Some_2 _ _ Hc) as [t Et].
  unfold wp, switch_to_next, pget, pbind. rewrite Hk. unfold thread_at. rewrite Et. cbn [punwrap pret].
  destruct (next_runnable s) as [n|] eqn:En.
  - apply first_runnable_some in En as (d & Hd & Hn & (tn & Etn & Hrun) & _). rewrite Etn. cbn [punwrap pret].
    destruct (switch_task _ _ _ _ _ _ _ _) as [old m]. cbn. eexists; split; [done|]. split_and!; [|done|done].
    split; cbn [threads].
    + rewrite alter_imap. by apply table_ok_keeps; [apply keeps_saved|].
    + unfold current_runs. cbn [threads current]. rewrite alter_imap, (lookup_imap_some _ _ _ _ Etn).
      eexists; split; [done|]. by destruct (n =? current s)%nat.
  - pose proof (next_runnable_none s _ T Hc En) as E0. destruct (tk_zero _ _ T) as (z & Ez & _ & _ & Hr).
    rewrite E0, Ez in Et. injection Et as <-. rewrite (proj2 (state_is_spec _ _) Hr). cbn.
    exists s. split_and!; [done| |done|].
    + split; [done|]. exists z. by rewrite E0.
    + intros Hnr. exfalso. by eapply Hnr.
Qed.
End SwitchOk.

(** ** Creation *)

Lemma table_ok_push ts np t :
  table_ok ts np -> pid t = np -> state t = Runnable -> exit_status t = None -> 0 <= np ->
  (parent t = 0 \/ exists j p, ts !! j = Some p /\ pid p = parent t /\ alive p) ->
  table_ok (ts ++ [t]) (np + 1).
Proof.
  intros [Z P B Pa St Ow W] Hp Hs He Hnp Hpar.
  assert (forall i u, (ts ++ [t]) !! i = Some u -> ts !! i = Some u \/ (i = length ts /\ u = t)) as L.
  { intros i u. rewrite lookup_app_Some. intros [?|[? E]]; [by left|]. right.
    destruct (i - length ts)%nat eqn:Ei; [|done]. cbn in E. split; [lia|congruence]. }
  assert (forall i u, ts !! i = Some u -> (ts ++ [t]) !! i = Some u) as R by (intros; by apply lookup_app_l_Some).
  split.
  - naive_solver.
  - intros i j a b [Ha|[-> ->]]%L [Hb|[-> ->]]%L Eq; try done; [by eapply P| |].
    + pose proof (B _ _ Ha). lia.
    + pose proof (B _ _ Hb). lia.
  - intros i a [Ha|[-> ->]]%L; [pose proof (B _ _ Ha); lia|lia].
  - intros i a [Ha|[-> ->]]%L; [destruct (Pa _ _ Ha) as [|(j & p & ? & ? & ?)]|destruct Hpar as [|(j & p & ? & ? & ?)]];
      eauto 8.
  - intros i a [Ha|[-> ->]]%L; [by eapply St|]. unfold alive. by rewrite Hs.
  - intros i a [Ha|[-> ->]]%L; [by eapply Ow|congruence].
  - intros i a [Ha|[-> ->]]%L Hb.
    + destruct (W _ _ Ha Hb) as (j & c & ? & ? & ?). eauto 8.
    + apply blocked_for_spec in Hb as [? _]. congruence.
Qed.

(** ** Blocking *)

Lemma table_ok_block ts np i r t :
  table_ok ts np -> i <> 0%nat -> ts !! i = Some t -> alive t ->
  (r = Child -> exists j c, ts !! j = Some c /\ parent c = pid t /\ alive c) ->
  table_ok (alter (fun t => set_blocked_on r (set_state Blocked t)) i ts) np.
Proof.
  intros T Hi E Hal Hch. rewrite alter_imap.
  assert (forall j u, ts !! j = Some u -> alive u ->
    alive (if (j =? i)%nat then set_blocked_on r (set_state Blocked u) else u)) as Ha.
  { intros j u _ ?. by destruct (j =? i)%nat. }
  apply table_ok_imap; [done|..].
  - intros j u _. by destruct (j =? i)%nat.
  - intros u _ ?. by rewrite (proj2 (Nat.eqb_neq 0 i)).
  - intros j u Eu. destruct (tk_parent _ _ T j u Eu) as [Hp|(k & p & Ek & Hp & Hpa)].
    + left. by destruct (j =? i)%nat.
    + right. exists k, p. split_and!; [done| |by apply Ha]. by destruct (j =? i)%nat.
  - intros j u Eu Hu. destruct (Nat.eqb_spec j i) as [->|]; [|done].
    rewrite E in Eu. injection Eu as <-. unfold alive in *. cbn. tauto.
  - intros j u _ Hu. by destruct (j =? i)%nat.
  - intros j u Eu Hb.
    assert (exists k c, ts !! k = Some c /\ parent c = pid u /\ alive c) as (k & c & Ek & Hc & Hca).
    { destruct (Nat.eqb_spec j i) as [->|].
      - rewrite E in Eu. injection Eu as <-. apply blocked_for_spec in Hb as [_ Hb]. by apply Hch.
      - by eapply tk_wait. }
    exists k, c. split_and!; [done| |by apply Ha]. by destruct (k =? i)%nat.
Qed.

Lemma table_ok_collect ts np i t :
  table_ok ts np -> ts !! i = Some t -> state t = Zombie -> table_ok (alter (set_state Dead) i ts) np.
Proof.
  intros T E Hz. rewrite alter_imap. apply table_ok_keeps; [|done].
  intros j u Eu. destruct (Nat.eqb_spec j i) as [->|]; [|by split_and!].
  rewrite E in Eu. injection Eu as <-. unfold blocked_for, state_is. cbn. rewrite Hz. by split_and!.
Qed.

(** ** Wake-ups and reaping *)

Lemma table_ok_wake ts np r : r <> Child -> table_ok ts np -> table_ok (map (wake r) ts) np.
Proof.
  intros Hr T. rewrite map_imap. apply table_ok_keeps; [|done]. intros i t _. unfold wake.
  destruct (blocked_for r t) eqn:E; [|by split_and!].
  apply blocked_for_spec in E as [E1 E2]. unfold blocked_for, state_is. cbn. rewrite E1. by split_and!.
Qed.

Definition reaped (cur i : nat) (t : Thread) : Thread :=
  if negb (i =? cur)%nat && collectable t then set_state Reaped (set_owned None None t) else t.

Lemma reap_loop_spec cur b ts :
  reap_loop cur b ts =
  (imap (fun i => reaped cur (b + i)) ts,
   omap (fun p => if negb (p.1 =? cur)%nat && collectable p.2 then Some (t_cr3 p.2, stack p.2) else None)
        (imap (fun i t => ((b + i)%nat, t)) ts)).
Proof.
  revert b; induction ts as [|t ts IH]; intros b; [done|]. cbn [reap_loop imap]. rewrite IH.
  rewrite Nat.add_0_r.
  assert (imap (reaped cur ∘ (fun i => (b + i)%nat) ∘ S) ts = imap (fun i => reaped cur (S b + i)) ts) as E1.
  { apply imap_ext. intros i x _. cbn. f_equal. lia. }
  assert (imap ((fun i t => ((b + i)%nat, t)) ∘ S) ts = imap (fun i t => ((S b + i)%nat, t)) ts) as E2.
  { apply imap_ext. intros i x _. cbn. f_equal. lia. }
  unfold compose in E1, E2 |- *. cbn [omap list_omap fst snd]. rewrite E1, E2.
  assert (reaped cur b t = if negb (b =? cur)%nat && collectable t
                           then set_state Reaped (set_owned None None t) else t) as -> by done.
  by destruct (negb (b =? cur)%nat && collectable t).
Qed.

Lemma collectable_dead t : collectable t = true -> is_alive (state t) = false /\ state t <> Reaped.
Proof.
  unfold collectable. rewrite orb_true_iff, andb_true_iff, !state_is_spec. intros [->|[-> _]]; done.
Qed.

Lemma table_ok_reap ts np cur : table_ok ts np -> table_ok (imap (reaped cur) ts) np.
Proof.
  intros T.
  assert (forall i t, is_alive (state (reaped cur i t)) = is_alive (state t) /\ parent (reaped cur i t) = parent t /\
    pid (reaped cur i t) = pid t /\ exit_status (reaped cur i t) = exit_status t) as F.
  { intros i t. unfold reaped. destruct (negb (i =? cur)%nat && collectable t) eqn:E; [|done].
    zbool. apply collectable_dead in H0 as [-> _]. done. }
  apply table_ok_imap; [done|..]; unfold alive.
  - intros i t _. apply F.
  - intros t _ Hr. unfold reaped, collectable, state_is. rewrite Hr. cbn. by rewrite andb_false_r.
  - intros i t E. destruct (F i t) as (_ & -> & _).
    destruct (tk_parent _ _ T i t E) as [|(j & p & Ej & Hp & Ha)]; [by left|right].
    exists j, p. destruct (F j p) as (-> & _). done.
  - intros i t _. by destruct (F i t) as (-> & _ & _ & ->).
  - intros i t _ Ho. unfold reaped. by destruct (negb (i =? cur)%nat && collectable t).
  - intros i t E Hb. assert (blocked_for Child t = true) as Hbt.
    { revert Hb. unfold reaped. by destruct (negb (i =? cur)%nat && collectable t). }
    destruct (tk_wait _ _ T i t E Hbt) as (j & c & Ej & Hc & Ha). exists j, c.
    by destruct (F j c) as (-> & -> & _).
Qed.
