(* ===== verification/SchedOps.v ===== *)
(** * Scheduler calls keep the invariant

    The calls the rest of the kernel makes, with the conditions it makes them
    under, and a proof that none of them panics or breaks the invariant. *)

From stdpp Require Import base numbers list gmap.
From Stdlib Require Import ZArith Lia.
From S2P Require Import Prelude Machine Context Sched SchedInv.
#[local] Open Scope Z_scope.

(** ** Calls *)

Inductive Call : Type :=
| CSpawn (tramp base entry : Z)
| CAddUser (rsp cr3 ktop : Z) (kstack : Z * Z) (fs : Z)
| CSetFs (x : Z)
| CExec (new : Z)
| CExit (status : Z)
| CKilled (sig : Z)
| CSignal (target sig : Z)
| CWait (want : Z)
| CBlockStdin
| CBlockPipe
| CWakeStdin
| CWakePipe
| CReap
| CYield
| CTick
| CStart
| CStop.

Section Calls.
Variable rsp_cell : nat -> Z.
Variable resume : Z.

Definition exec_call (c : Call) : kprog unit :=
  match c with
  | CSpawn tramp base entry => spawn tramp base entry
  | CAddUser rsp cr3 ktop kstack fs => add_user_task rsp cr3 ktop kstack fs ;;! pret tt
  | CSetFs x => set_current_fs_base x
  | CExec new => exec_replace_cr3 new ;;! pret tt
  | CExit status => exit_current rsp_cell resume status
  | CKilled sig => exit_current_killed rsp_cell resume sig
  | CSignal target sig => signal rsp_cell resume target sig ;;! pret tt
  | CWait want => wait_current rsp_cell resume want ;;! pret tt
  | CBlockStdin => block_current_on_stdin rsp_cell resume
  | CBlockPipe => block_current_on_pipe rsp_cell resume
  | CWakeStdin => wake_stdin_readers
  | CWakePipe => wake_pipe_waiters
  | CReap => reap true ;;! pret tt
  | CYield => yield_now rsp_cell resume
  | CTick => on_timer_tick rsp_cell resume
  | CStart => start_preemption
  | CStop => stop_preemption
  end.

(** Processes exit, wait, block and exec; a signal number is at most 64; the
    pid counter does not wrap. *)
Definition allowed (c : Call) (k : Kernel) : Prop :=
  match c with
  | CSpawn _ _ _ | CAddUser _ _ _ _ _ => NEXT_PID k + 1 < U32
  | CExec _ | CExit _ | CKilled _ | CWait _ | CBlockStdin | CBlockPipe => user_current k
  | CSignal _ sig => 0 <= sig <= 64
  | _ => True
  end.

(** ** Steps of the monad *)

Lemma wp_scheduler k s (Q : Scheduler -> Kernel -> Prop) X :
  SCHEDULER k = Some s -> Q s k -> wp scheduler Q X k.
Proof. intros E HQ. unfold wp, scheduler, pget, pbind. by rewrite E. Qed.

Lemma wp_thread_at s i t k (Q : Thread -> Kernel -> Prop) X :
  threads s !! i = Some t -> Q t k -> wp (thread_at s i) Q X k.
Proof. intros E HQ. unfold thread_at. by rewrite E. Qed.

Lemma wp_put_sched s k (Q : unit -> Kernel -> Prop) X : Q tt (set_sched s k) -> wp (put_sched s) Q X k.
Proof. done. Qed.

Lemma wp_current_field {A} (d : A) f k s t (Q : A -> Kernel -> Prop) X :
  SCHEDULER k = Some s -> threads s !! current s = Some t -> Q (f t) k -> wp (current_field d f) Q X k.
Proof. intros E Et HQ. unfold wp, current_field, pget, pbind, thread_at. by rewrite E, Et. Qed.

Definition no_err (e : Empty_set) (k : Kernel) : Prop := False.

(** The table after an operation, the counter kept. *)
Lemma kernel_ok_set k s ts :
  SCHEDULER k = Some s -> 0 < NEXT_PID k < U32 -> table_ok ts (NEXT_PID k) ->
  current_runs (set_threads ts s) -> kernel_ok (set_sched (set_threads ts s) k).
Proof. intros E Hn T C. exists (set_threads ts s). done. Qed.

Lemma user_not_zero k s t :
  SCHEDULER k = Some s -> table_ok (threads s) (NEXT_PID k) -> threads s !! current s = Some t ->
  is_Some (t_cr3 t) -> current s <> 0%nat.
Proof.
  intros _ T Et [c Hc] E0. rewrite E0 in Et. destruct (tk_zero _ _ T) as (z & Ez & _ & Hz & _). congruence.
Qed.

(** A switch from a state whose table is in order ends in order. *)
Lemma switch_ends_ok k s :
  SCHEDULER k = Some s -> 0 < NEXT_PID k < U32 -> table_ok (threads s) (NEXT_PID k) ->
  (current s < length (threads s))%nat ->
  wp (switch_to_next rsp_cell resume) (fun b k' => kernel_ok k' /\
        ((forall t, threads s !! current s = Some t -> state t <> Runnable) -> b = true)) no_err k.
Proof.
  intros E Hn T Hc. eapply wp_mono; [by apply (switch_to_next_ok rsp_cell resume k s)| |done].
  intros b k' (s' & E' & Hok & Hnp & Hb). split; [|done]. exists s'. by rewrite Hnp in *.
Qed.

(** Operations that only rewrite the table and stay in the current thread. *)
Lemma current_runs_imap s f :
  current_runs s -> (forall t, state t = Runnable -> state (f (current s) t) = Runnable) ->
  current_runs (set_threads (imap f (threads s)) s).
Proof.
  intros (t & E & Hr) Hf. exists (f (current s) t). cbn [threads current set_threads].
  rewrite (lookup_imap_some _ _ _ _ E). auto.
Qed.

Lemma current_in_range s : current_runs s -> (current s < length (threads s))%nat.
Proof. intros (t & E & _). by apply lookup_lt_Some in E. Qed.

Lemma spawn_ok tramp base entry k :
  kernel_ok k -> NEXT_PID k + 1 < U32 -> wp (spawn tramp base entry) (fun _ => kernel_ok) no_err k.
Proof.
  intros (s & E & [T (t & Et & Hr)] & Hn) Hp. unfold spawn. apply wp_bind, wp_get.
  destruct (init_thread_stack _ _ _ _) as [rsp w]. apply wp_bind, wp_modify.
  apply wp_bind. eapply wp_current_field; [exact E|exact Et|].
  apply wp_bind, wp_bind, wp_get, wp_bind, wp_modify, wp_ret.
  apply wp_bind. eapply wp_scheduler; [exact E|]. apply wp_put_sched. cbn [NEXT_PID set_cpu].
  rewrite Z.mod_small by lia. eexists; split; [done|]. split; [|cbn; lia]. split.
  - apply table_ok_push; try done; [lia|]. right. exists (current s), t. unfold alive. by rewrite Hr.
  - exists t. split; [|done]. by apply lookup_app_l_Some.
Qed.

Lemma add_user_ok rsp c ktop kst fs k :
  kernel_ok k -> NEXT_PID k + 1 < U32 ->
  wp (add_user_task rsp c ktop kst fs) (fun p k' => kernel_ok k' /\ p = NEXT_PID k) no_err k.
Proof.
  intros (s & E & [T (t & Et & Hr)] & Hn) Hp. unfold add_user_task.
  apply wp_bind. eapply wp_current_field; [exact E|exact Et|].
  apply wp_bind, wp_bind, wp_get, wp_bind, wp_modify, wp_ret, wp_bind, wp_get.
  apply wp_bind, wp_bind. eapply wp_scheduler; [exact E|]. apply wp_put_sched, wp_ret.
  cbn [NEXT_PID set_cpu]. rewrite Z.mod_small by lia. split; [|done].
  eexists; split; [done|]. split; [|cbn; lia]. split.
  - apply table_ok_push; try done; [lia|]. right. exists (current s), t. unfold alive. by rewrite Hr.
  - exists t. split; [|done]. by apply lookup_app_l_Some.
Qed.

Lemma set_fs_ok x k : kernel_ok k -> wp (set_current_fs_base x) (fun _ => kernel_ok) no_err k.
Proof.
  intros (s & E & [T C] & Hn). pose proof C as (t & Et & Hr). unfold set_current_fs_base.
  apply wp_bind, wp_get. rewrite E. apply wp_bind. eapply wp_thread_at; [done|]. apply wp_put_sched.
  rewrite alter_imap. apply kernel_ok_set; [done..| |].
  - apply table_ok_keeps; [|done]. intros i u _. destruct (i =? current s)%nat; split_and!; tauto.
  - apply current_runs_imap; [done|]. intros u Hu. by rewrite Nat.eqb_refl.
Qed.

Lemma exec_ok new k : kernel_ok k -> user_current k ->
  wp (exec_replace_cr3 new) (fun old k' => kernel_ok k' /\ user_current k') no_err k.
Proof.
  intros (s & E & [T C] & Hn) (s' & t & E' & Et & [c Hc]). rewrite E in E'. injection E' as <-.
  unfold exec_replace_cr3. apply wp_bind. eapply wp_scheduler; [done|].
  apply wp_bind. eapply wp_thread_at; [done|]. apply wp_bind. eapply wp_unwrap; [done|].
  apply wp_bind, wp_put_sched, wp_ret. rewrite alter_imap. split.
  - apply kernel_ok_set; [done..| |].
    + apply table_ok_keeps; [|done]. intros i u Eu. destruct (Nat.eqb_spec i (current s)) as [->|]; [|by split_and!].
      rewrite Et in Eu. injection Eu as <-. cbn. rewrite Hc. by split_and!.
    + apply current_runs_imap; [done|]. intros u Hu. by rewrite Nat.eqb_refl.
  - eexists _, _. split; [done|]. cbn [threads current set_threads].
    rewrite (lookup_imap_some _ _ _ _ Et), Nat.eqb_refl. by split.
Qed.

Lemma exit_ok status sig k : kernel_ok k -> user_current k ->
  wp (exit_current_inner rsp_cell resume status sig) (fun _ => kernel_ok) no_err k.
Proof.
  intros (s & E & [T C] & Hn) (s' & t & E' & Et & Hu). rewrite E in E'. injection E' as <-.
  pose proof (user_not_zero k s t E T Et Hu) as Hz. unfold exit_current_inner, switch_away.
  apply wp_bind, wp_modify, wp_bind. eapply wp_scheduler; [done|].
  apply wp_bind. eapply wp_unwrap; [by eapply terminate_spec|]. apply wp_bind, wp_put_sched.
  apply wp_bind. eapply wp_mono.
  - eapply switch_ends_ok; [done|done|by eapply table_ok_terminate|].
    cbn [threads current set_threads]. rewrite length_imap. by apply current_in_range.
  - intros b k' [Hk Hb]. rewrite Hb; [done|]. cbn [threads current set_threads].
    intros u (v & _ & ->)%lookup_imap_inv. by rewrite ended_self.
  - done.
Qed.

Lemma position_spec {A} (p : A -> bool) l i :
  position p l = Some i -> exists x, l !! i = Some x /\ p x = true.
Proof.
  revert i; induction l as [|y l IH]; intros i; [done|]. cbn [position].
  destruct (p y) eqn:E; [intros [= <-]; eauto|].
  destruct (position p l) as [j|]; [|done]. intros [= <-]. cbn. by apply IH.
Qed.

Lemma position_none {A} (p : A -> bool) l : position p l = None -> forall i x, l !! i = Some x -> p x = false.
Proof.
  induction l as [|y l IH]; intros Hn i x; [done|]. cbn [position] in Hn. destruct (p y) eqn:E; [done|].
  destruct (position p l); [done|]. destruct i; [by intros [= <-]|by apply IH].
Qed.

Lemma signal_target_spec p t :
  signal_target p t = true <-> pid t = p /\ is_Some (t_cr3 t) /\ alive t.
Proof.
  unfold signal_target, alive. rewrite !andb_true_iff, bool_decide_eq_true, Z.eqb_eq. tauto.
Qed.

(** Recording a pending signal changes nothing else. *)
Lemma table_ok_pending ts np i x : table_ok ts np ->
  table_ok (alter (fun t => set_pending (Z.lor (pending_signals t) x) t) i ts) np.
Proof.
  intros T. rewrite alter_imap. apply table_ok_keeps; [|done].
  intros j t _. destruct (j =? i)%nat; split_and!; tauto.
Qed.

Lemma signal_ok target sig k : kernel_ok k -> 0 <= sig <= 64 ->
  wp (signal rsp_cell resume target sig) (fun _ => kernel_ok) no_err k.
Proof.
  intros (s & E & [T C] & Hn) Hsig. unfold signal, signal_post.
  apply wp_bind, wp_bind. eapply wp_scheduler; [done|].
  destruct (position (signal_target target) (threads s)) as [idx|] eqn:Ep; [|by apply wp_ret, wp_ret; exists s].
  apply position_spec in Ep as (t & Et & (_ & [c Hc] & _)%signal_target_spec).
  destruct (sig =? 0) eqn:E0; [by apply wp_ret, wp_ret; exists s|]. zbool.
  unfold u64_shl1. rewrite (proj2 (Z.leb_le 0 _)), (proj2 (Z.ltb_lt _ 64)) by lia. cbn [andb].
  apply wp_bind, wp_ret. set (bit := Z.shiftl 1 (sig - 1)). clearbody bit.
  set (s1 := set_threads _ s).
  assert (table_ok (threads s1) (NEXT_PID k)) as T1 by by apply table_ok_pending.
  assert (current_runs s1) as C1.
  { unfold s1. rewrite alter_imap. apply current_runs_imap; [done|]. intros u. by destruct (current s =? idx)%nat. }
  destruct (default_terminates sig).
  2:{ apply wp_bind, wp_put_sched, wp_ret, wp_ret. by exists s1. }
  assert (threads s1 !! idx = Some (set_pending (Z.lor (pending_signals t) bit) t)) as Et1.
  { unfold s1. cbn. by rewrite list_lookup_alter_eq, Et. }
  assert (idx <> 0%nat) as Hz.
  { intros ->. destruct (tk_zero _ _ T) as (z & Ez & _ & Hz & _). congruence. }
  apply wp_bind. eapply wp_unwrap; [by eapply terminate_spec|]. apply wp_bind, wp_put_sched, wp_ret.
  pose proof (table_ok_terminate s1 _ _ _ (128 + sig) (Some sig) T1 Et1 Hz) as T2.
  destruct (Nat.eqb_spec idx (current s)) as [->|Hne].
  - apply wp_bind, wp_modify, wp_bind. unfold switch_away. apply wp_bind. eapply wp_mono.
    + eapply switch_ends_ok; [done|done|done|]. cbn [threads current set_threads].
      rewrite length_imap. by apply (current_in_range s1).
    + intros b k' [Hk Hb]. rewrite Hb; [done|]. cbn [threads current set_threads].
      intros u (v & _ & ->)%lookup_imap_inv. change (current s1) with (current s). by rewrite ended_self.
    + done.
  - apply wp_ret. eexists; split; [done|]. split; [|done]. split; [done|].
    apply current_runs_imap; [done|]. intros u Hu. by apply ended_runs.
Qed.
(** ** Waiting and blocking *)

Lemma existsb_lookup {A} (p : A -> bool) l : existsb p l = true -> exists i x, l !! i = Some x /\ p x = true.
Proof.
  intros (x & Hin & Hp)%existsb_exists. apply list_elem_of_In, list_elem_of_lookup_1 in Hin as [i Hi]. eauto.
Qed.

(** The three outcomes of one attempt to collect a child. *)
Lemma try_collect_spec want k s t :
  SCHEDULER k = Some s -> threads s !! current s = Some t ->
  let mine := is_mine (pid t) (wanted want) in
  wp (try_collect_or_block want)
     (fun r k' => match r with
        | Collected p st sig => exists i c, threads s !! i = Some c /\ mine c = true /\ state c = Zombie /\
            p = pid c /\ st = default 0 (exit_status c) /\ sig = term_signal c /\
            k' = set_sched (set_threads (alter (set_state Dead) i (threads s)) s) k
        | WouldBlock =>
            (forall i c, threads s !! i = Some c -> mine c = true -> state c <> Zombie) /\
            (exists i c, threads s !! i = Some c /\ mine c = true /\ alive c) /\
            k' = set_sched (set_threads (alter (fun t => set_blocked_on Child (set_state Blocked t))
                                           (current s) (threads s)) s) k
        | NoChildren =>
            (forall i c, threads s !! i = Some c -> mine c = true -> state c <> Zombie /\ ~ alive c) /\ k' = k
        end) no_err k.
Proof.
  intros E Et mine. unfold try_collect_or_block. apply wp_bind. eapply wp_scheduler; [done|].
  apply wp_bind. eapply wp_thread_at; [done|]. fold mine.
  destruct (position _ _) as [i|] eqn:Ep.
  - apply position_spec in Ep as (c & Ec & [Hm Hz%state_is_spec]%andb_true_iff).
    apply wp_bind. eapply wp_thread_at; [done|]. apply wp_bind, wp_put_sched, wp_ret. eauto 12.
  - pose proof (position_none _ _ Ep) as Hnz.
    assert (forall i c, threads s !! i = Some c -> mine c = true -> state c <> Zombie) as Hz.
    { intros i c Ec Hm Hs%state_is_spec. pose proof (Hnz i c Ec) as Hx. cbv beta in Hx. by rewrite Hm, Hs in Hx. }
    destruct (existsb _ _) eqn:Ex.
    + apply existsb_lookup in Ex as (i & c & Ec & [Hm Ha]%andb_true_iff).
      apply wp_bind, wp_put_sched, wp_ret. eauto 12.
    + apply wp_ret. split; [|done]. intros i c Ec Hm. split; [by eapply Hz|]. intros Ha.
      assert (existsb (fun t => mine t && is_alive (state t)) (threads s) = true); [|congruence].
      apply existsb_exists. exists c. split; [|by rewrite Hm, Ha].
      apply list_elem_of_In. by eapply list_elem_of_lookup_2.
Qed.

Lemma is_mine_parent p w t : is_mine p w t = true -> parent t = p.
Proof. unfold is_mine. intros [H _]%andb_true_iff. by apply Z.eqb_eq. Qed.

Lemma blocked_switch_ok k s t r :
  SCHEDULER k = Some s -> 0 < NEXT_PID k < U32 -> table_ok (threads s) (NEXT_PID k) -> current s <> 0%nat ->
  threads s !! current s = Some t -> state t = Runnable ->
  (r = Child -> exists j c, threads s !! j = Some c /\ parent c = pid t /\ alive c) ->
  forall k', SCHEDULER k' = Some (set_threads (alter (fun t => set_blocked_on r (set_state Blocked t))
                                                 (current s) (threads s)) s) ->
  NEXT_PID k' = NEXT_PID k -> wp (switch_to_next rsp_cell resume) (fun _ => kernel_ok) no_err k'.
Proof.
  intros E Hn T Hz Et Hr Hch k' E' Hn'. eapply wp_mono.
  - eapply switch_ends_ok; [exact E'|by rewrite Hn'| |].
    + rewrite Hn'. eapply table_ok_block; try done. unfold alive. by rewrite Hr.
    + cbn [threads current set_threads]. rewrite length_alter. by apply lookup_lt_Some in Et.
  - intros b k2 [Hk2 _]. exact Hk2.
  - done.
Qed.

Lemma wait_ok want k : kernel_ok k -> user_current k ->
  wp (wait_current rsp_cell resume want) (fun _ => kernel_ok) no_err k.
Proof.
  intros (s & E & [T C] & Hn) (s' & t & E' & Et & Hu). rewrite E in E'. injection E' as <-.
  pose proof (user_not_zero k s t E T Et Hu) as Hz. pose proof C as (t' & Et' & Hr).
  rewrite Et in Et'. injection Et' as <-. unfold wait_current. apply wp_bind.
  eapply wp_mono; [by eapply try_collect_spec| |done]. intros [p st sg| |] k'.
  - intros (i & c & Ec & Hm & Hzo & _ & _ & _ & ->). apply wp_ret. apply kernel_ok_set; [done..| |].
    + by eapply table_ok_collect.
    + rewrite alter_imap. apply current_runs_imap; [done|]. intros u Hru.
      destruct (Nat.eqb_spec (current s) i) as [<-|]; [|done]. congruence.
  - intros (_ & (i & c & Ec & Hm & Ha) & ->). apply wp_bind, wp_modify, wp_bind.
    eapply wp_mono; [eapply (blocked_switch_ok k s t Child); try done| |done].
    + intros _. exists i, c. split_and!; [done| |done]. by eapply is_mine_parent.
    + intros b k2 Hk2. by apply wp_ret.
  - intros [_ ->]. apply wp_ret. by exists s.
Qed.

Lemma block_ok r k : kernel_ok k -> user_current k -> r <> Child ->
  wp (block_current r) (fun _ k' => wp (switch_to_next rsp_cell resume) (fun _ => kernel_ok) no_err k' /\
    forall k2, SCHEDULER k2 = SCHEDULER k' -> NEXT_PID k2 = NEXT_PID k' ->
      wp (switch_to_next rsp_cell resume) (fun _ => kernel_ok) no_err k2) no_err k.
Proof.
  intros (s & E & [T C] & Hn) (s' & t & E' & Et & Hu) Hr. rewrite E in E'. injection E' as <-.
  pose proof (user_not_zero k s t E T Et Hu) as Hz. destruct C as (t' & Et' & Hrun).
  rewrite Et in Et'. injection Et' as <-. unfold block_current.
  apply wp_bind. eapply wp_scheduler; [done|]. apply wp_bind. eapply wp_thread_at; [done|]. apply wp_put_sched.
  split; [|intros k2 E2 N2]; by eapply (blocked_switch_ok k s t r).
Qed.

Lemma wake_ok r k : kernel_ok k -> r <> Child -> wp (wake_all r) (fun _ => kernel_ok) no_err k.
Proof.
  intros (s & E & [T C] & Hn) Hr. unfold wake_all. apply wp_bind, wp_get. rewrite E. apply wp_put_sched.
  apply kernel_ok_set; [done..|by apply table_ok_wake|]. rewrite map_imap. apply current_runs_imap; [done|].
  intros t Ht. unfold wake. by destruct (blocked_for r t).
Qed.

Lemma reap_ok k : kernel_ok k -> wp (reap true) (fun _ => kernel_ok) no_err k.
Proof.
  intros (s & E & [T C] & Hn). unfold reap. cbn [negb]. apply wp_bind, wp_get. rewrite E, reap_loop_spec.
  apply wp_bind, wp_put_sched, wp_ret. apply kernel_ok_set; [done..|by apply table_ok_reap|].
  apply current_runs_imap; [done|]. intros t Ht. unfold reaped. cbn. by rewrite Nat.eqb_refl.
Qed.

Lemma tick_ok k : kernel_ok k -> wp (switch_to_next rsp_cell resume) (fun _ => kernel_ok) no_err k.
Proof.
  intros (s & E & [T C] & Hn). eapply wp_mono;
    [eapply switch_ends_ok; [done|done|done|by apply current_in_range]| |done]. by intros b k' [? _].
Qed.

Lemma kernel_ok_ext k k' :
  SCHEDULER k' = SCHEDULER k -> NEXT_PID k' = NEXT_PID k -> kernel_ok k -> kernel_ok k'.
Proof. unfold kernel_ok. by intros -> ->. Qed.

(** No call panics, and each keeps the invariant. *)
Lemma exec_call_ok c k : kernel_ok k -> allowed c k -> wp (exec_call c) (fun _ => kernel_ok) no_err k.
Proof.
  intros Hk Ha. destruct c; cbn [exec_call allowed] in *.
  - by apply spawn_ok.
  - apply wp_bind. eapply wp_mono; [by apply add_user_ok| |done]. by intros ? ? [? _].
  - by apply set_fs_ok.
  - apply wp_bind. eapply wp_mono; [by apply exec_ok| |done]. by intros ? ? [? _].
  - by apply exit_ok.
  - by apply exit_ok.
  - apply wp_bind. eapply wp_mono; [by apply signal_ok| |done]. done.
  - apply wp_bind. eapply wp_mono; [by apply wait_ok| |done]. done.
  - apply wp_bind. eapply wp_mono; [by apply (block_ok Stdin)| |done]. intros _ k' [_ Hs].
    apply wp_bind, wp_modify, wp_bind. eapply wp_mono; [by apply Hs| |done]. done.
  - apply wp_bind. eapply wp_mono; [by apply (block_ok Pipe)| |done]. intros _ k' [Hs _].
    apply wp_bind. eapply wp_mono; [by apply Hs| |done]. done.
  - by apply wake_ok.
  - by apply wake_ok.
  - apply wp_bind. eapply wp_mono; [by apply reap_ok| |done]. done.
  - apply wp_bind, wp_get, wp_bind, wp_modify, wp_bind. eapply wp_mono; [apply tick_ok| |done].
    + by apply (kernel_ok_ext k).
    + intros b k' Hk'. case_match; [|done]. by apply wp_modify, (kernel_ok_ext k').
  - apply wp_bind, wp_get. destruct (PREEMPTION_ENABLED k); [|done].
    apply wp_bind. eapply wp_mono; [by apply tick_ok| |done]. done.
  - by apply wp_modify, (kernel_ok_ext k).
  - by apply wp_modify, (kernel_ok_ext k).
Qed.
End Calls.
