(* ===== verification/SchedTheorems.v ===== *)
(** * Theorems about the scheduler *)

From stdpp Require Import base numbers list gmap.
From Stdlib Require Import ZArith Lia.
From S2P Require Import Prelude Machine Context Sched SchedInv SchedOps.
#[local] Open Scope Z_scope.

(** ** How a thread may change

    [rank] orders the life of a thread: alive, zombie, collected, reaped. *)
Definition rank (s : State) : nat :=
  match s with Runnable | Blocked => 0 | Zombie => 1 | Dead => 2 | Reaped => 3 end.

Definition saved_context (t : Thread) : Z * Z * Z * list byte :=
  (t_rsp t, kernel_stack_top t, t_fs_base t, t_fpu t).

(** [mine] says that the thread is the caller. *)
Definition may_become (mine : bool) (t t' : Thread) : Prop :=
  pid t' = pid t /\ (rank (state t) <= rank (state t'))%nat /\
  (parent t' = parent t \/ parent t' = 0) /\
  (rank (state t) <> 0%nat -> exit_status t' = exit_status t /\ term_signal t' = term_signal t) /\
  (mine = false -> saved_context t' = saved_context t /\
     (state t' <> Reaped -> t_cr3 t' = t_cr3 t /\ stack t' = stack t)).

Definition evolves (cur : nat) (ts ts' : list Thread) : Prop :=
  forall i t, ts !! i = Some t -> exists t', ts' !! i = Some t' /\ may_become (i =? cur)%nat t t'.

Lemma may_become_refl b t : may_become b t t.
Proof. unfold may_become. naive_solver lia. Qed.

Lemma rank_zero_alive t : rank (state t) = 0%nat <-> is_alive (state t) = true.
Proof. by destruct (state t). Qed.

Lemma may_become_trans b t1 t2 t3 : may_become b t1 t2 -> may_become b t2 t3 -> may_become b t1 t3.
Proof.
  intros (P1 & R1 & A1 & S1 & C1) (P2 & R2 & A2 & S2 & C2). unfold may_become.
  split_and!; [congruence|lia|naive_solver congruence| |].
  - intros H. destruct S1 as [? ?]; [done|]. destruct S2 as [? ?]; [lia|]. split; congruence.
  - intros H. destruct (C1 H) as [E1 F1], (C2 H) as [E2 F2]. split; [congruence|].
    intros Hn. destruct (F2 Hn). destruct F1; [|split; congruence].
    intros Hr. apply Hn. destruct (state t3); rewrite Hr in R2; cbn in R2; try lia. done.
Qed.

Lemma evolves_refl cur ts : evolves cur ts ts.
Proof. intros i t E. eauto using may_become_refl. Qed.

Lemma evolves_trans cur ts1 ts2 ts3 : evolves cur ts1 ts2 -> evolves cur ts2 ts3 -> evolves cur ts1 ts3.
Proof.
  intros E1 E2 i t Et. destruct (E1 i t Et) as (t2 & Et2 & M1). destruct (E2 i t2 Et2) as (t3 & Et3 & M2).
  eauto using may_become_trans.
Qed.

Lemma evolves_imap cur ts f :
  (forall i t, ts !! i = Some t -> may_become (i =? cur)%nat t (f i t)) -> evolves cur ts (imap f ts).
Proof. intros H i t E. exists (f i t). rewrite (lookup_imap_some _ _ _ _ E). auto. Qed.

(** The caller's own entry may change in any field but its rank and status. *)
Lemma evolves_alter cur ts f :
  (forall t, ts !! cur = Some t -> may_become true t (f t)) -> evolves cur ts (alter f cur ts).
Proof.
  intros H. rewrite alter_imap. apply evolves_imap. intros i t E.
  destruct (Nat.eqb_spec i cur) as [->|]; [by apply H|apply may_become_refl].
Qed.

Lemma evolves_terminate cur s np idx t0 status sig :
  table_ok (threads s) np -> threads s !! idx = Some t0 -> alive t0 ->
  evolves cur (threads s) (imap (ended idx t0 status sig) (threads s)).
Proof.
  intros T E Ha. apply evolves_imap. intros i t Et.
  pose proof (ended_fields idx t0 status sig i t) as F. cbv zeta in F.
  set (t' := ended idx t0 status sig i t) in *. clearbody t'.
  destruct F as (F1 & F2 & F3 & F4 & F5 & F6 & F7 & F8 & F9 & F10 & F11 & F12).
  assert (i = idx -> is_alive (state t) = true) as Hal by (intros ->; rewrite E in Et; by injection Et as <-).
  unfold may_become, saved_context. split_and!; [done| | | |].
  - rewrite F12. destruct (Nat.eqb_spec i idx) as [Hi|]; [rewrite (proj2 (rank_zero_alive t)) by auto; lia|].
    destruct (negb _ && _ && _) eqn:Ew; [|done]. zbool. apply blocked_for_spec in H0 as [-> _]. done.
  - rewrite F2. destruct (parent t =? pid t0); auto.
  - rewrite F10, F11. destruct (Nat.eqb_spec i idx) as [Hi|]; [|done]. intros Hr. exfalso. apply Hr.
    apply rank_zero_alive. auto.
  - intros _. by rewrite F3, F4, F5, F7, F8, F9.
Qed.

(** ** What each call does to the table *)

Section Rel.
Variable rsp_cell : nat -> Z.
Variable resume : Z.

Lemma switch_evolves k s :
  SCHEDULER k = Some s -> table_ok (threads s) (NEXT_PID k) -> (current s < length (threads s))%nat ->
  wp (switch_to_next rsp_cell resume)
     (fun _ k' => exists s', SCHEDULER k' = Some s' /\ evolves (current s) (threads s) (threads s')) no_err k.
Proof.
  intros Hk T Hc. destruct (lookup_lt_is_Some_2 _ _ Hc) as [t Et].
  unfold wp, switch_to_next, pget, pbind. rewrite Hk. unfold thread_at. rewrite Et. cbn [punwrap pret].
  destruct (next_runnable s) as [n|] eqn:En.
  - apply first_runnable_some in En as (d & Hd & Hn & (tn & Etn & Hrun) & _). rewrite Etn. cbn [punwrap pret].
    destruct (switch_task _ _ _ _ _ _ _ _) as [old m]. cbn. eexists; split; [done|]. cbn [threads].
    apply evolves_alter. intros u _. unfold may_become. cbn. naive_solver lia.
  - pose proof (next_runnable_none s _ T Hc En) as E0. destruct (tk_zero _ _ T) as (z & Ez & _ & _ & Hr).
    rewrite E0, Ez in Et. injection Et as <-. rewrite (proj2 (state_is_spec _ _) Hr). cbn.
    eauto using evolves_refl.
Qed.

(** A switch after an update of the table. *)
Lemma switch_after cur ts k s :
  SCHEDULER k = Some s -> cur = current s -> evolves cur ts (threads s) ->
  table_ok (threads s) (NEXT_PID k) -> (current s < length (threads s))%nat ->
  wp (switch_to_next rsp_cell resume)
     (fun _ k' => exists s', SCHEDULER k' = Some s' /\ evolves cur ts (threads s')) no_err k.
Proof.
  intros E -> Ev T Hc. eapply wp_mono; [by eapply switch_evolves| |done].
  intros b k' (s' & E' & Ev'). eauto using evolves_trans.
Qed.

Definition Evolved (s : Scheduler) (k' : Kernel) : Prop :=
  exists s', SCHEDULER k' = Some s' /\ evolves (current s) (threads s) (threads s').

Lemma evolves_app cur ts l : evolves cur ts (ts ++ l).
Proof. intros i t E. exists t. split; [by apply lookup_app_l_Some|apply may_become_refl]. Qed.

Lemma spawn_evolves tramp base entry k s t :
  SCHEDULER k = Some s -> threads s !! current s = Some t ->
  wp (spawn tramp base entry) (fun _ => Evolved s) no_err k.
Proof.
  intros E Et. unfold spawn. apply wp_bind, wp_get.
  destruct (init_thread_stack _ _ _ _) as [rsp w]. apply wp_bind, wp_modify.
  apply wp_bind. eapply wp_current_field; [exact E|exact Et|].
  apply wp_bind, wp_bind, wp_get, wp_bind, wp_modify, wp_ret.
  apply wp_bind. eapply wp_scheduler; [exact E|]. apply wp_put_sched.
  eexists; split; [done|]. apply evolves_app.
Qed.

Lemma add_user_evolves rsp c ktop kst fs k s t :
  SCHEDULER k = Some s -> threads s !! current s = Some t ->
  wp (add_user_task rsp c ktop kst fs) (fun _ => Evolved s) no_err k.
Proof.
  intros E Et. unfold add_user_task.
  apply wp_bind. eapply wp_current_field; [exact E|exact Et|].
  apply wp_bind, wp_bind, wp_get, wp_bind, wp_modify, wp_ret, wp_bind, wp_get.
  apply wp_bind, wp_bind. eapply wp_scheduler; [exact E|]. apply wp_put_sched, wp_ret.
  eexists; split; [done|]. apply evolves_app.
Qed.

Lemma set_fs_evolves x k s t :
  SCHEDULER k = Some s -> threads s !! current s = Some t ->
  wp (set_current_fs_base x) (fun _ => Evolved s) no_err k.
Proof.
  intros E Et. unfold set_current_fs_base. apply wp_bind, wp_get. rewrite E.
  apply wp_bind. eapply wp_thread_at; [done|]. apply wp_put_sched. eexists; split; [done|].
  apply evolves_alter. intros u _. unfold may_become. cbn. naive_solver lia.
Qed.

Lemma exec_evolves new k s t :
  SCHEDULER k = Some s -> threads s !! current s = Some t -> is_Some (t_cr3 t) ->
  wp (exec_replace_cr3 new) (fun _ => Evolved s) no_err k.
Proof.
  intros E Et [c Hc]. unfold exec_replace_cr3. apply wp_bind. eapply wp_scheduler; [done|].
  apply wp_bind. eapply wp_thread_at; [done|]. apply wp_bind. eapply wp_unwrap; [done|].
  apply wp_bind, wp_put_sched, wp_ret. eexists; split; [done|].
  apply evolves_alter. intros u _. unfold may_become. cbn. naive_solver lia.
Qed.

(** A switch away from a thread that just ended. *)
Lemma switch_away_evolves k s t idx status sig :
  SCHEDULER k = Some (set_threads (imap (ended idx t status sig) (threads s)) s) -> 0 < NEXT_PID k < U32 ->
  table_ok (threads s) (NEXT_PID k) -> threads s !! idx = Some t -> alive t -> idx <> 0%nat ->
  idx = current s -> wp (switch_away rsp_cell resume) (fun _ => Evolved s) no_err k.
Proof.
  intros E Hn T Et Ha Hz Hi. set (s' := set_threads _ s) in E.
  assert (table_ok (threads s') (NEXT_PID k)) as T' by by eapply table_ok_terminate.
  assert ((current s' < length (threads s'))%nat) as Hc.
  { cbn [s' threads current set_threads]. rewrite length_imap, <- Hi. by apply lookup_lt_Some in Et. }
  apply wp_bind. eapply wp_mono; [apply wp_conj|..].
  - by apply (switch_ends_ok rsp_cell resume k s').
  - eapply (switch_after (current s) (threads s) k s'); try done. by eapply evolves_terminate.
  - cbv beta. intros b k' [[_ Hb] Ev]. rewrite Hb; [done|]. cbn [s' threads current set_threads].
    intros u (v & _ & ->)%lookup_imap_inv. rewrite <- Hi. by rewrite ended_self.
  - by intros e k' [[] _].
Qed.

Lemma exit_evolves status sig k s t :
  SCHEDULER k = Some s -> 0 < NEXT_PID k < U32 -> table_ok (threads s) (NEXT_PID k) ->
  threads s !! current s = Some t -> state t = Runnable -> is_Some (t_cr3 t) ->
  wp (exit_current_inner rsp_cell resume status sig) (fun _ => Evolved s) no_err k.
Proof.
  intros E Hn T Et Hr Hu. pose proof (user_not_zero k s t E T Et Hu) as Hz.
  unfold exit_current_inner. apply wp_bind, wp_modify, wp_bind. eapply wp_scheduler; [done|].
  apply wp_bind. eapply wp_unwrap; [by eapply terminate_spec|]. apply wp_bind, wp_put_sched.
  eapply switch_away_evolves; try done. unfold alive. by rewrite Hr.
Qed.

Lemma pending_may_become b x t : may_become b t (set_pending x t).
Proof. unfold may_become. cbn. naive_solver lia. Qed.

Lemma signal_evolves target sig k s :
  SCHEDULER k = Some s -> 0 < NEXT_PID k < U32 -> table_ok (threads s) (NEXT_PID k) -> 0 <= sig <= 64 ->
  wp (signal rsp_cell resume target sig) (fun _ => Evolved s) no_err k.
Proof.
  intros E Hn T Hsig. unfold signal, signal_post. apply wp_bind, wp_bind. eapply wp_scheduler; [done|].
  assert (Evolved s k) as Hrefl by (exists s; split; [done|apply evolves_refl]).
  destruct (position (signal_target target) (threads s)) as [idx|] eqn:Ep; [|by apply wp_ret, wp_ret].
  apply position_spec in Ep as (t & Et & (_ & [c Hc] & Ha)%signal_target_spec).
  destruct (sig =? 0) eqn:E0; [by apply wp_ret, wp_ret|]. zbool.
  unfold u64_shl1. rewrite (proj2 (Z.leb_le 0 _)), (proj2 (Z.ltb_lt _ 64)) by lia. cbn [andb].
  apply wp_bind, wp_ret. set (bit := Z.shiftl 1 (sig - 1)). clearbody bit. set (s1 := set_threads _ s).
  assert (table_ok (threads s1) (NEXT_PID k)) as T1 by by apply table_ok_pending.
  assert (evolves (current s) (threads s) (threads s1)) as Ev1.
  { cbn [s1 threads set_threads]. rewrite alter_imap. apply evolves_imap. intros i u _.
    destruct (i =? idx)%nat; [apply pending_may_become|apply may_become_refl]. }
  destruct (default_terminates sig).
  2:{ apply wp_bind, wp_put_sched, wp_ret, wp_ret. by exists s1. }
  set (t1 := set_pending (Z.lor (pending_signals t) bit) t).
  assert (threads s1 !! idx = Some t1) as Et1 by (unfold s1; cbn; by rewrite list_lookup_alter_eq, Et).
  assert (idx <> 0%nat) as Hz.
  { intros ->. destruct (tk_zero _ _ T) as (z & Ez & _ & Hz & _). congruence. }
  apply wp_bind. eapply wp_unwrap; [by eapply terminate_spec|]. apply wp_bind, wp_put_sched, wp_ret.
  destruct (Nat.eqb_spec idx (current s)) as [->|Hne].
  - apply wp_bind, wp_modify, wp_bind. eapply wp_mono; [by eapply (switch_away_evolves _ s1)| |done].
    intros _ k' (s' & E' & Ev'). apply wp_ret. exists s'. split; [done|]. by eapply evolves_trans.
  - apply wp_ret. eexists; split; [done|]. eapply evolves_trans; [done|].
    by eapply (evolves_terminate (current s) s1).
Qed.

Lemma block_evolves cur ts r : (forall t, ts !! cur = Some t -> alive t) ->
  evolves cur ts (alter (fun t => set_blocked_on r (set_state Blocked t)) cur ts).
Proof.
  intros Ha. apply evolves_alter. intros u Eu. pose proof (Ha u Eu) as Hu%rank_zero_alive.
  unfold may_become. cbn. rewrite Hu. naive_solver lia.
Qed.

Lemma blocked_switch_evolves k s t r :
  SCHEDULER k = Some s -> table_ok (threads s) (NEXT_PID k) -> current s <> 0%nat ->
  threads s !! current s = Some t -> state t = Runnable ->
  (r = Child -> exists j c, threads s !! j = Some c /\ parent c = pid t /\ alive c) ->
  forall k', SCHEDULER k' = Some (set_threads (alter (fun t => set_blocked_on r (set_state Blocked t))
                                                 (current s) (threads s)) s) ->
  NEXT_PID k' = NEXT_PID k -> wp (switch_to_next rsp_cell resume) (fun _ => Evolved s) no_err k'.
Proof.
  intros E T Hz Et Hr Hch k' E' Hn'. assert (alive t) as Ha by (unfold alive; by rewrite Hr).
  eapply (switch_after (current s) (threads s)); [exact E'|done| | |].
  - cbn [threads set_threads]. apply block_evolves. intros u Eu. rewrite Et in Eu. by injection Eu as <-.
  - rewrite Hn'. by eapply table_ok_block.
  - cbn [threads current set_threads]. rewrite length_alter. by apply lookup_lt_Some in Et.
Qed.

Lemma wake_evolves r k s : SCHEDULER k = Some s -> wp (wake_all r) (fun _ => Evolved s) no_err k.
Proof.
  intros E. unfold wake_all. apply wp_bind, wp_get. rewrite E. apply wp_put_sched. eexists; split; [done|].
  cbn [threads set_threads]. rewrite map_imap. apply evolves_imap. intros i t _. unfold wake.
  destruct (blocked_for r t) eqn:Hb; [|apply may_become_refl]. apply blocked_for_spec in Hb as [Hb _].
  unfold may_become. cbn. rewrite Hb. naive_solver lia.
Qed.

Lemma reap_evolves k s : SCHEDULER k = Some s -> wp (reap true) (fun _ => Evolved s) no_err k.
Proof.
  intros E. unfold reap. cbn [negb]. apply wp_bind, wp_get. rewrite E, reap_loop_spec.
  apply wp_bind, wp_put_sched, wp_ret. eexists; split; [done|]. cbn [threads set_threads].
  apply evolves_imap. intros i t _. unfold reaped.
  destruct (negb _ && collectable t) eqn:Hc; [|apply may_become_refl].
  unfold may_become. cbn. split_and!; try done; [destruct (state t); cbn; lia|by left].
Qed.

Lemma wait_evolves want k s t :
  SCHEDULER k = Some s -> table_ok (threads s) (NEXT_PID k) -> threads s !! current s = Some t ->
  state t = Runnable -> is_Some (t_cr3 t) ->
  wp (wait_current rsp_cell resume want) (fun _ => Evolved s) no_err k.
Proof.
  intros E T Et Hr Hu. pose proof (user_not_zero k s t E T Et Hu) as Hz. unfold wait_current. apply wp_bind.
  eapply wp_mono; [by eapply try_collect_spec| |done]. intros [p st sg| |] k'.
  - intros (i & c & Ec & Hm & Hzo & _ & _ & _ & ->). apply wp_ret. eexists; split; [done|].
    cbn [threads set_threads]. rewrite alter_imap. apply evolves_imap. intros j u Eu.
    destruct (Nat.eqb_spec j i) as [->|]; [|apply may_become_refl].
    rewrite Ec in Eu. injection Eu as <-. unfold may_become. cbn. rewrite Hzo. naive_solver lia.
  - intros (_ & (i & c & Ec & Hm & Ha) & ->). apply wp_bind, wp_modify, wp_bind.
    eapply wp_mono; [eapply (blocked_switch_evolves k s t Child); try done| |done].
    + intros _. exists i, c. split_and!; [done| |done]. by eapply is_mine_parent.
    + intros b k2 Hk2. by apply wp_ret.
  - intros [_ ->]. apply wp_ret. exists s. split; [done|apply evolves_refl].
Qed.

Lemma call_evolves c k s : kernel_ok k -> SCHEDULER k = Some s -> allowed c k ->
  wp (exec_call rsp_cell resume c) (fun _ => Evolved s) no_err k.
Proof.
  intros (s0 & E0 & [T C] & Hn) E Ha. rewrite E in E0. injection E0 as <-.
  destruct C as (t & Et & Hr).
  assert (user_current k -> is_Some (t_cr3 t)) as Hu.
  { intros (s1 & t1 & E1 & Et1 & Hu). rewrite E in E1. injection E1 as <-. rewrite Et in Et1. by injection Et1 as <-. }
  assert (Evolved s k) as Hrefl by (exists s; split; [done|apply evolves_refl]).
  assert (forall k', SCHEDULER k' = Some s -> NEXT_PID k' = NEXT_PID k ->
    wp (switch_to_next rsp_cell resume) (fun _ => Evolved s) no_err k') as Hsw.
  { intros k' E' N'. apply switch_evolves; [done|by rewrite N'|by apply lookup_lt_Some in Et]. }
  destruct c; cbn [exec_call allowed] in *.
  - by eapply spawn_evolves.
  - apply wp_bind. eapply wp_mono; [by eapply add_user_evolves| |done]. done.
  - by eapply set_fs_evolves.
  - apply wp_bind. eapply wp_mono; [by eapply exec_evolves; auto| |done]. done.
  - by eapply exit_evolves; auto.
  - by eapply exit_evolves; auto.
  - apply wp_bind. eapply wp_mono; [by eapply signal_evolves| |done]. done.
  - apply wp_bind. eapply wp_mono; [by eapply wait_evolves; auto| |done]. done.
  - unfold block_current_on_stdin, block_current. apply wp_bind, wp_bind. eapply wp_scheduler; [done|].
    apply wp_bind. eapply wp_thread_at; [done|]. apply wp_put_sched, wp_bind, wp_modify, wp_bind.
    eapply wp_mono; [eapply (blocked_switch_evolves k s t Stdin); try done| |done]; [|done].
    eapply user_not_zero; eauto.
  - unfold block_current_on_pipe, block_current. apply wp_bind, wp_bind. eapply wp_scheduler; [done|].
    apply wp_bind. eapply wp_thread_at; [done|]. apply wp_put_sched, wp_bind.
    eapply wp_mono; [eapply (blocked_switch_evolves k s t Pipe); try done| |done]; [|done].
    eapply user_not_zero; eauto.
  - by apply (wake_evolves Stdin).
  - by apply (wake_evolves Pipe).
  - apply wp_bind. eapply wp_mono; [by apply (reap_evolves k s)| |done]. done.
  - apply wp_bind, wp_get, wp_bind, wp_modify, wp_bind. eapply wp_mono; [by apply Hsw| |done].
    intros b k' Hk'. by case_match.
  - apply wp_bind, wp_get. destruct (PREEMPTION_ENABLED k); [|done].
    apply wp_bind. eapply wp_mono; [by apply Hsw| |done]. done.
  - done.
  - done.
Qed.
End Rel.

(** ** Reachable states

    From [init], by calls under their conditions, with any code of the running
    thread in between: it may change the processor and memory, not the table. *)

Section Reach.
Variable rsp_cell : nat -> Z.
Variable resume : Z.

Inductive reachable : Kernel -> Prop :=
| reach_init m k : init (mkKernel None false 1 0 m) = (Ret tt, k) -> reachable k
| reach_call c k k' : reachable k -> allowed c k -> exec_call rsp_cell resume c k = (Ret tt, k') -> reachable k'
| reach_run m k : reachable k -> reachable (set_cpu m k).

Lemma init_ok m : kernel_ok (mkKernel (Some (mkScheduler [zero_thread] 0 (cr3 m))) false 1 0 m).
Proof.
  eexists; split; [done|]. split; [|done]. split; [|by exists zero_thread]. cbn [threads].
  assert (forall i t, [zero_thread] !! i = Some t -> i = 0%nat /\ t = zero_thread) as L.
  { intros [|i] t; cbn; [by intros [= <-]|done]. }
  split.
  - by exists zero_thread.
  - intros i j t u [-> ->]%L [-> ->]%L _. done.
  - intros i t [-> ->]%L. cbn. lia.
  - intros i t [-> ->]%L. by left.
  - intros i t [-> ->]%L. done.
  - intros i t [-> ->]%L. done.
  - intros i t [-> ->]%L. done.
Qed.

Lemma reachable_ok k : reachable k -> kernel_ok k.
Proof.
  induction 1 as [m k E|c k k' _ IH Ha E|m k _ IH].
  - injection E as <-. apply init_ok.
  - pose proof (exec_call_ok rsp_cell resume c k IH Ha) as W. unfold wp in W. by rewrite E in W.
  - by apply (kernel_ok_ext k).
Qed.

(** A specification that excludes panics and errors yields the result. *)
Lemma wp_returns {A} (m : kprog A) Q k : wp m Q no_err k -> exists a k', m k = (Ret a, k') /\ Q a k'.
Proof. unfold wp. destruct (m k) as [[a| | |] k']; try done. eauto. Qed.
End Reach.

(** C2. From any state the kernel can reach, every scheduler call made under its
    conditions returns without a panic (there is always a thread to switch to,
    and no index or [expect] fails) and leaves the table in order: thread 0
    runnable, unique pids, a running current thread, living parents, an exit
    status exactly on ended threads, nothing owned by reaped ones. *)
Theorem sched_safe rsp_cell resume c k :
  reachable rsp_cell resume k -> allowed c k ->
  kernel_ok k /\ exists k', exec_call rsp_cell resume c k = (Ret tt, k') /\ kernel_ok k'.
Proof.
  intros Hk%reachable_ok Ha. split; [done|].
  pose proof (exec_call_ok rsp_cell resume c k Hk Ha) as W. apply wp_returns in W as ([] & k' & E & Hk').
  eauto.
Qed.

Definition boot_cpu : machine :=
  mkMachine (fun r => match r with RSP => 0x9000 | _ => 0 end) 0 0x2 8 16 ∅ 0x1000 0 0 FpuArea_new_clean 0 0.

Definition cell_of (i : nat) : Z := 0x100 + 8 * Z.of_nat i.

(** The kernel after [init] and one user process, with the process running. *)
Definition booted : Kernel := (init (mkKernel None false 1 0 boot_cpu)).2.

Definition with_process : Kernel :=
  (exec_call cell_of 0x600 (CAddUser 0x7F00 0x2000 0x8000 (0x4000, 0x4000) 0) booted).2.

Definition process_running : Kernel := (exec_call cell_of 0x600 CYield with_process).2.

Lemma with_process_reachable : reachable cell_of 0x600 with_process.
Proof.
  apply (reach_call _ _ (CAddUser 0x7F00 0x2000 0x8000 (0x4000, 0x4000) 0) booted); [|done|done].
  by apply (reach_init _ _ boot_cpu).
Qed.

Lemma process_running_reachable : reachable cell_of 0x600 process_running.
Proof. by apply (reach_call _ _ CYield with_process); [apply with_process_reachable|..]. Qed.

Lemma sched_safe_witness :
  kernel_ok process_running /\ exists k', exec_call cell_of 0x600 (CExit 3) process_running = (Ret tt, k') /\ kernel_ok k'.
Proof.
  apply (sched_safe cell_of 0x600 (CExit 3) process_running process_running_reachable).
  by eexists _, _.
Defined.

(** Whatever call is made, each thread of the table stays at its place with
    its pid, only moves forward through alive, zombie, collected and reaped,
    keeps the exit status and signal it ended with, and, unless it is itself
    the caller, keeps the saved stack pointer, FPU area, FS base and kernel
    stack it will be resumed with, and its address space until it is reaped. *)
Theorem sched_respects_threads rsp_cell resume c k s :
  reachable rsp_cell resume k -> SCHEDULER k = Some s -> allowed c k ->
  exists k' s', exec_call rsp_cell resume c k = (Ret tt, k') /\ SCHEDULER k' = Some s' /\
    evolves (current s) (threads s) (threads s').
Proof.
  intros Hk%reachable_ok E Ha. pose proof (call_evolves rsp_cell resume c k s Hk E Ha) as W.
  apply wp_returns in W as ([] & k' & E' & s' & Es' & Hev). eauto.
Qed.

Lemma sched_respects_threads_witness :
  exists k' s', exec_call cell_of 0x600 (CExit 3) process_running = (Ret tt, k') /\ SCHEDULER k' = Some s' /\
    evolves 1 (threads (default (mkScheduler [] 0 0) (SCHEDULER process_running))) (threads s').
Proof.
  apply (sched_respects_threads cell_of 0x600 (CExit 3) process_running
    (default (mkScheduler [] 0 0) (SCHEDULER process_running)) process_running_reachable); [done|].
  by eexists _, _.
Defined.

(** ** Round robin *)

Lemma switch_result rsp_cell resume k s :
  kernel_ok k -> SCHEDULER k = Some s ->
  wp (switch_to_next rsp_cell resume)
     (fun b k' => exists s', SCHEDULER k' = Some s' /\ length (threads s') = length (threads s) /\
        current s' = default (current s) (next_runnable s) /\ b = bool_decide (is_Some (next_runnable s))) no_err k.
Proof.
  intros (s0 & E0 & [T C] & Hn) E. rewrite E in E0. injection E0 as <-.
  pose proof (current_in_range s C) as Hc. destruct C as (t & Et & Hr).
  unfold wp, switch_to_next, pget, pbind. rewrite E. unfold thread_at. rewrite Et. cbn [punwrap pret].
  destruct (next_runnable s) as [n|] eqn:En.
  - apply first_runnable_some in En as (d & Hd & Hx & (tn & Etn & Hrun) & _). rewrite Etn. cbn [punwrap pret].
    destruct (switch_task _ _ _ _ _ _ _ _) as [old m]. cbn. eexists; split; [done|]. cbn.
    by rewrite length_alter.
  - rewrite (proj2 (state_is_spec _ _) Hr). cbn. by exists s.
Qed.

Lemma next_runnable_closer s n i t :
  (current s < length (threads s))%nat -> next_runnable s = Some n ->
  threads s !! i = Some t -> state t = Runnable -> i <> current s ->
  n = i \/ (distance (length (threads s)) n i < distance (length (threads s)) (current s) i)%nat.
Proof.
  intros Hc Hn Et Hr Hne. assert (i < length (threads s))%nat as Hi by by apply lookup_lt_Some in Et.
  apply first_runnable_some in Hn as (d & Hd & -> & _ & Hno). set (len := length (threads s)) in *.
  destruct (distance_spec len (current s) i Hc Hi) as [D1 D2].
  pose proof (distance_pos len (current s) i Hc Hi Hne) as D3. set (e := distance len (current s) i) in *.
  destruct (decide (e = d)) as [<-|Hed]; [by left|right].
  assert (d < e)%nat as Hlt.
  { destruct (decide (d < e)%nat); [done|]. exfalso. eapply (Hno e); [lia| |done]. by rewrite D1. }
  assert (((current s + d) mod len < len)%nat) as Hb by (apply Nat.mod_upper_bound; lia).
  enough (distance len ((current s + d) mod len) i = e - d)%nat by lia.
  clearbody e. unfold distance. rewrite <- D1 at 1.
  assert (((current s + e) mod len + len - (current s + d) mod len) mod len = (e - d) mod len)%nat as ->.
  { apply Nat2Z.inj. rewrite !Nat2Z.inj_mod, !Nat2Z.inj_sub, !Nat2Z.inj_add, !Nat2Z.inj_mod, !Nat2Z.inj_add by lia.
    set (L := Z.of_nat len).
    replace ((Z.of_nat (current s) + Z.of_nat e) mod L + L - (Z.of_nat (current s) + Z.of_nat d) mod L)
      with (((Z.of_nat (current s) + Z.of_nat e) mod L - (Z.of_nat (current s) + Z.of_nat d) mod L) + 1 * L) by lia.
    rewrite Z_mod_plus_full, <- Zminus_mod. f_equal. lia. }
  apply Nat.mod_small. lia.
Qed.

(** C23. Switching is round-robin: from any reachable state, a switch moves to a
    thread that brings every other runnable thread strictly closer to its turn
    (or to that thread itself), so a thread that stays runnable gets the
    processor after at most as many switches as there are threads; and no
    switch happens only when no other thread is runnable. *)
Theorem switch_round_robin rsp_cell resume k s i t :
  reachable rsp_cell resume k -> SCHEDULER k = Some s ->
  threads s !! i = Some t -> state t = Runnable -> i <> current s ->
  exists k' s', switch_to_next rsp_cell resume k = (Ret true, k') /\ SCHEDULER k' = Some s' /\
    length (threads s') = length (threads s) /\
    (current s' = i \/
     (distance (length (threads s)) (current s') i < distance (length (threads s)) (current s) i)%nat) /\
    (distance (length (threads s)) (current s) i < length (threads s))%nat.
Proof.
  intros Hk%reachable_ok E Et Hr Hne. pose proof (switch_result rsp_cell resume k s Hk E) as W.
  destruct Hk as (s0 & E0 & [T C] & Hn). rewrite E in E0. injection E0 as <-.
  pose proof (current_in_range s C) as Hc. assert (i < length (threads s))%nat as Hi by by apply lookup_lt_Some in Et.
  destruct (distance_spec _ _ _ Hc Hi) as [D1 D2]. pose proof (distance_pos _ _ _ Hc Hi Hne) as D3.
  apply wp_returns in W as (b & k' & Ek & s' & Es' & Hl & Hcur & Hb).
  destruct (next_runnable s) as [n|] eqn:En.
  - exists k', s'. rewrite bool_decide_eq_true_2 in Hb by done. subst b. rewrite Hcur. cbn [default].
    split_and!; try done. by eapply next_runnable_closer.
  - exfalso. assert (0 < length (threads s))%nat as Hl0 by lia.
    eapply (first_runnable_none _ _ _ _ Hl0 En (distance (length (threads s)) (current s) i) t);
      [lia|by rewrite D1|done].
Qed.

Lemma switch_round_robin_witness :
  exists k' s', switch_to_next cell_of 0x600 with_process = (Ret true, k') /\ SCHEDULER k' = Some s' /\
    length (threads s') = 2%nat /\
    (current s' = 1%nat \/ (distance 2 (current s') 1 < distance 2 0 1)%nat) /\ (distance 2 0 1 < 2)%nat.
Proof.
  apply (switch_round_robin cell_of 0x600 with_process (default (mkScheduler [] 0 0) (SCHEDULER with_process)) 1
    (mkThread 1 0 None None 0 0x7F00 (Some (0x4000, 0x4000)) (Some 0x2000) 0x8000 0 FpuArea_new_clean Runnable NotBlocked)
    with_process_reachable); done.
Defined.

(** ** Waiting *)

(** A process that waits gets the pid, status and signal of one of its own
    zombie children that matches the request, which no later wait can collect
    again (it becomes [Dead]); it is told that it has no children exactly when
    no matching child is alive or a zombie; and it blocks exactly when a
    matching child is alive and none is a zombie. *)
Theorem wait_contract rsp_cell resume want k s t :
  reachable rsp_cell resume k -> SCHEDULER k = Some s -> threads s !! current s = Some t -> is_Some (t_cr3 t) ->
  let mine c := is_mine (pid t) (wanted want) c = true in
  exists r k', wait_current rsp_cell resume want k = (Ret r, k') /\
  match r with
  | Some (Some (p, st, sig)) => exists i c s', threads s !! i = Some c /\ mine c /\ state c = Zombie /\
      pid c = p /\ exit_status c = Some st /\ term_signal c = sig /\
      SCHEDULER k' = Some s' /\ threads s' = alter (set_state Dead) i (threads s)
  | Some None => k' = k /\ forall i c, threads s !! i = Some c -> mine c -> state c = Dead \/ state c = Reaped
  | None => (forall i c, threads s !! i = Some c -> mine c -> state c <> Zombie) /\
      exists i c, threads s !! i = Some c /\ mine c /\ alive c
  end.
Proof.
  intros Hk%reachable_ok E Et Hu mine. pose proof Hk as (s0 & E0 & [T C] & Hn).
  rewrite E in E0. injection E0 as <-.
  assert (user_current k) as Huc by (by eexists _, _).
  assert (wp (wait_current rsp_cell resume want) (fun _ _ => True) no_err k) as W.
  { eapply wp_mono; [by apply wait_ok| |]; done. }
  apply wp_returns in W as (r & k' & Er & _). exists r, k'. split; [done|].
  pose proof (try_collect_spec want k s t E Et) as W.
  unfold wait_current, pbind in Er. unfold wp in W.
  destruct (try_collect_or_block want k) as [[[p st sig| |]| | |] k1]; try done.
  - injection Er as <- <-. destruct W as (i & c & Ec & Hm & Hz & -> & -> & -> & ->). exists i, c. eexists.
    split_and!; try done. destruct (exit_status c) eqn:Est; [done|]. exfalso.
    pose proof (proj2 (tk_status _ _ T i c Ec) Est) as Ha. unfold alive in Ha. by rewrite Hz in Ha.
  - assert (r = None) as ->.
    { destruct (pmodify _ k1) as [[[]| | |] k2]; [|done..].
      destruct (switch_to_next rsp_cell resume k2) as [[b| | |] k3]; [|done..]. by injection Er as <- <-. }
    destruct W as (H1 & H2 & _). done.
  - injection Er as <- <-. destruct W as [H1 ->]. split; [done|]. intros i c Ec Hm.
    destruct (H1 i c Ec Hm) as [H2 H3]. unfold alive in H3. destruct (state c); cbn in H3; naive_solver.
Qed.

(** Thread 1 forked thread 2, which was then killed by a signal. *)
Definition forked : Kernel :=
  (exec_call cell_of 0x600 (CAddUser 0x6F00 0x3000 0x7000 (0x3000, 0x4000) 0) process_running).2.

Definition parent_with_zombie : Kernel := (exec_call cell_of 0x600 (CSignal 2 15) forked).2.

Lemma forked_reachable : reachable cell_of 0x600 forked.
Proof.
  apply (reach_call _ _ (CAddUser 0x6F00 0x3000 0x7000 (0x3000, 0x4000) 0) process_running);
    [apply process_running_reachable|done|done].
Qed.

Lemma parent_with_zombie_reachable : reachable cell_of 0x600 parent_with_zombie.
Proof. apply (reach_call _ _ (CSignal 2 15) forked); [apply forked_reachable|cbn; lia|done]. Qed.

Lemma wait_contract_witness :
  exists r k', wait_current cell_of 0x600 (-1) parent_with_zombie = (Ret r, k') /\
  r = Some (Some (2, 143, Some 15)).
Proof.
  edestruct (wait_contract cell_of 0x600 (-1) parent_with_zombie
    (default (mkScheduler [] 0 0) (SCHEDULER parent_with_zombie))
    (default zero_thread (threads (default (mkScheduler [] 0 0) (SCHEDULER parent_with_zombie)) !! 1%nat))
    parent_with_zombie_reachable) as (r & k' & E & _); [done|done|by eexists|].
  exists r, k'. split; [exact E|]. vm_compute in E. by injection E.
Defined.

(** ** Wake-ups *)

Lemma ended_wakes idx t0 status sig i t :
  i <> idx -> pid t <> pid t0 -> pid t <> 0 -> parent t0 = pid t -> blocked_for Child t = true ->
  state (ended idx t0 status sig i t) = Runnable.
Proof.
  intros Hi Hp Hz Hpar Hb.
  destruct (ended_fields idx t0 status sig i t) as (_ & _ & _ & _ & _ & _ & _ & _ & _ & _ & _ & ->).
  rewrite (proj2 (Nat.eqb_neq i idx)) by done. cbv zeta. unfold orphan.
  rewrite (proj2 (Z.eqb_neq (parent t0) (pid t0))) by congruence.
  by rewrite Hpar, Z.eqb_refl, (proj2 (Z.eqb_neq (pid t) 0)), Hb by done.
Qed.

Lemma switch_keeps_states rsp_cell resume k s : SCHEDULER k = Some s ->
  forall b k', switch_to_next rsp_cell resume k = (Ret b, k') ->
  exists s', SCHEDULER k' = Some s' /\ forall i t, threads s !! i = Some t ->
    exists t', threads s' !! i = Some t' /\ state t' = state t /\ parent t' = parent t /\ pid t' = pid t /\
      exit_status t' = exit_status t /\ term_signal t' = term_signal t.
Proof.
  intros E b k'. unfold switch_to_next, pget, pbind. rewrite E. unfold thread_at.
  destruct (next_runnable s) as [n|]; destruct (threads s !! current s) as [t|] eqn:Et; try done.
  - destruct (threads s !! n) as [tn|]; [|done]. cbn [punwrap pret].
    destruct (switch_task _ _ _ _ _ _ _ _) as [old m].
    cbn. intros [= <- <-]. eexists; split; [done|]. cbn [threads]. intros i u Eu. rewrite alter_imap.
    rewrite (lookup_imap_some _ _ _ _ Eu). eexists; split; [done|]. by destruct (i =? current s)%nat.
  - cbn. destruct (state_is Runnable t); [|done]. intros [= <- <-]. exists s. split; [done|]. eauto 10.
Qed.

(** The table an exit leaves behind, up to the saved context of the caller. *)
Lemma exit_states rsp_cell resume status sig k s cur :
  kernel_ok k -> SCHEDULER k = Some s -> threads s !! current s = Some cur -> is_Some (t_cr3 cur) ->
  wp (exit_current_inner rsp_cell resume status sig)
     (fun _ k' => exists s', SCHEDULER k' = Some s' /\ forall i t, threads s !! i = Some t ->
        exists t', threads s' !! i = Some t' /\ let e := ended (current s) cur status sig i t in
          state t' = state e /\ parent t' = parent e /\ pid t' = pid t /\ exit_status t' = exit_status e /\ term_signal t' = term_signal e) no_err k.
Proof.
  intros Hk E Ecur Hu. pose proof Hk as (s0 & E0 & [T C] & Hn). rewrite E in E0. injection E0 as <-.
  pose proof (user_not_zero k s cur E T Ecur Hu) as Hz. unfold exit_current_inner, switch_away.
  apply wp_bind, wp_modify, wp_bind. eapply wp_scheduler; [done|].
  apply wp_bind. eapply wp_unwrap; [by eapply terminate_spec|]. apply wp_bind, wp_put_sched, wp_bind.
  set (k1 := set_sched _ _). set (s1 := set_threads _ s) in k1.
  assert (wp (switch_to_next rsp_cell resume) (fun b k' => kernel_ok k' /\
        ((forall t, threads s1 !! current s1 = Some t -> state t <> Runnable) -> b = true)) no_err k1) as W.
  { apply switch_ends_ok; [done|done|by eapply table_ok_terminate|].
    cbn [threads current set_threads s1]. rewrite length_imap. by apply current_in_range. }
  apply wp_returns in W as (b & k2 & E2 & _ & Hb). unfold wp. rewrite E2.
  rewrite Hb. 2:{ intros u (v & _ & ->)%lookup_imap_inv. by rewrite ended_self. }
  eapply switch_keeps_states in E2 as (s' & Es' & Hst); [|done]. exists s'. split; [done|].
  intros i t Et. destruct (Hst _ _ (lookup_imap_some _ _ _ _ Et)) as (t' & Et' & H1 & H2 & H3 & H4 & H5).
  exists t'. split_and!; try done. rewrite H3. by apply ended_fields.
Qed.

(** C7. No wake-up is lost: a process blocked in [wait] always has a living child
    (so the exit that will wake it is still to come), and when a child of it
    exits, it is runnable again after the exit, while the orphans of the child
    now belong to thread 0. *)
Theorem no_lost_wakeup rsp_cell resume k s i t :
  reachable rsp_cell resume k -> SCHEDULER k = Some s -> threads s !! i = Some t -> blocked_for Child t = true ->
  (exists j c, threads s !! j = Some c /\ parent c = pid t /\ alive c) /\
  forall cur status, threads s !! current s = Some cur -> is_Some (t_cr3 cur) -> parent cur = pid t ->
  exists k' s' t', exit_current rsp_cell resume status k = (Ret tt, k') /\ SCHEDULER k' = Some s' /\
    threads s' !! i = Some t' /\ pid t' = pid t /\ state t' = Runnable /\
    forall j u, threads s !! j = Some u -> parent u = pid cur ->
      exists u', threads s' !! j = Some u' /\ parent u' = 0.
Proof.
  intros Hk%reachable_ok E Et Hb. pose proof Hk as (s0 & E0 & [T C] & Hn). rewrite E in E0. injection E0 as <-.
  split; [by eapply tk_wait|]. intros cur status Ecur Hu Hpar.
  pose proof (exit_states rsp_cell resume status None k s cur Hk E Ecur Hu) as W.
  apply wp_returns in W as ([] & k' & Ek & s' & Es' & Hst).
  destruct (Hst i t Et) as (t' & Et' & Hs' & _ & Hp' & _).
  assert (pid t <> 0) as Hz.
  { intros Hz. destruct (tk_zero _ _ T) as (z & Ez & Hpz & _ & Hrz). apply blocked_for_spec in Hb as [Hb _].
    assert (i = 0%nat) as -> by (eapply (tk_pids _ _ T); eauto; congruence). congruence. }
  assert (i <> current s) as Hi.
  { intros ->. destruct C as (c' & Ec' & Hrc). apply blocked_for_spec in Hb as [Hb _]. congruence. }
  assert (pid t <> pid cur) as Hpp by (intros Hpp; apply Hi; by eapply (tk_pids _ _ T)).
  exists k', s', t'. split_and!; try done.
  - rewrite Hs'. by apply ended_wakes.
  - intros j u Eu Hju. destruct (Hst j u Eu) as (u' & Eu' & _ & Hpu & _).
    exists u'. split; [done|]. rewrite Hpu.
    destruct (ended_fields (current s) cur status None j u) as (_ & -> & _).
    by rewrite (proj2 (Z.eqb_eq _ _) Hju).
Qed.

(** The parent waits and its child runs. *)
Definition parent_waits : Kernel := (exec_call cell_of 0x600 (CWait (-1)) forked).2.

Definition sched_of (k : Kernel) : Scheduler := default (mkScheduler [] 0 0) (SCHEDULER k).

Definition thread_of (k : Kernel) (i : nat) : Thread := default zero_thread (threads (sched_of k) !! i).

Lemma parent_waits_reachable : reachable cell_of 0x600 parent_waits.
Proof.
  apply (reach_call _ _ (CWait (-1)) forked); [apply forked_reachable|by eexists _, _|].
  vm_compute. reflexivity.
Qed.

Lemma no_lost_wakeup_witness :
  exists k' s' t', exit_current cell_of 0x600 5 parent_waits = (Ret tt, k') /\ SCHEDULER k' = Some s' /\
    threads s' !! 1%nat = Some t' /\ pid t' = 1 /\ state t' = Runnable.
Proof.
  destruct (no_lost_wakeup cell_of 0x600 parent_waits (sched_of parent_waits) 1 (thread_of parent_waits 1)
    parent_waits_reachable) as [_ H]; [vm_compute; reflexivity..|].
  destruct (H (thread_of parent_waits 2) 5) as (k' & s' & t' & ? & ? & ? & ? & ? & _);
    [vm_compute; reflexivity|eexists; vm_compute; reflexivity|vm_compute; reflexivity|].
  exists k', s', t'. split_and!; assumption.
Defined.

(** ** Signals *)

(** A signal is delivered exactly to a living user process with that pid, and
    never to a kernel thread, a zombie or a reaped entry: otherwise the answer
    is "no such process" and nothing changes.  Signal 0 only checks.  Any other
    one is recorded as pending, and one whose default action terminates makes
    another process a zombie with status [128 + sig], its other fields kept. *)
Theorem signal_contract rsp_cell resume target sig k s :
  reachable rsp_cell resume k -> SCHEDULER k = Some s -> 0 <= sig <= 64 ->
  (forall t, threads s !! current s = Some t -> pid t <> target) ->
  exists r k', signal rsp_cell resume target sig k = (Ret (Some r), k') /\
  match r with
  | NoSuchProcess => k' = k /\
      forall i t, threads s !! i = Some t -> pid t = target -> t_cr3 t = None \/ ~ alive t
  | Delivered => exists i t, threads s !! i = Some t /\ pid t = target /\ is_Some (t_cr3 t) /\ alive t /\
      if sig =? 0 then k' = k else
      exists s' t', SCHEDULER k' = Some s' /\ threads s' !! i = Some t' /\ current s' = current s /\
        pending_signals t' = Z.lor (pending_signals t) (2 ^ (sig - 1)) /\
        if default_terminates sig
        then state t' = Zombie /\ exit_status t' = Some (128 + sig) /\ term_signal t' = Some sig
        else state t' = state t /\ forall j u, j <> i -> threads s !! j = Some u -> threads s' !! j = Some u
  end.
Proof.
  intros Hk%reachable_ok E Hsig Hother. pose proof Hk as (s0 & E0 & [T C] & Hn). rewrite E in E0. injection E0 as <-.
  unfold signal, signal_post, scheduler, pget, pbind. rewrite E. cbn [punwrap pret].
  destruct (position (signal_target target) (threads s)) as [idx|] eqn:Ep.
  2:{ exists NoSuchProcess, k. split; [done|]. split; [done|]. intros i t Et Hp.
      pose proof (position_none _ _ Ep i t Et) as Hf. destruct (t_cr3 t) eqn:Ec; [right|by left]. intros Ha.
      assert (signal_target target t = true) by (apply signal_target_spec; by rewrite Ec). congruence. }
  apply position_spec in Ep as (t & Et & (Hp & Hc & Ha)%signal_target_spec).
  assert (idx <> current s) as Hne by (intros ->; by eapply Hother).
  destruct (sig =? 0) eqn:E0; [exists Delivered, k; cbn; eauto 8|]. zbool.
  unfold u64_shl1. rewrite (proj2 (Z.leb_le 0 _)), (proj2 (Z.ltb_lt _ 64)) by lia. cbn [andb pret].
  rewrite Z.shiftl_1_l. set (s1 := set_threads _ s). set (t1 := set_pending (Z.lor (pending_signals t) (2 ^ (sig - 1))) t).
  assert (threads s1 !! idx = Some t1) as Et1 by (unfold s1; cbn; by rewrite list_lookup_alter_eq, Et).
  assert (table_ok (threads s1) (NEXT_PID k)) as T1 by by apply table_ok_pending.
  destruct (default_terminates sig) eqn:Edt.
  - rewrite (terminate_spec s1 _ _ t1 _ _ T1 Et1). cbn [punwrap pret put_sched pmodify].
    rewrite (proj2 (Nat.eqb_neq idx (current s))) by done. eexists Delivered, _. split; [done|].
    exists idx, t. split_and!; try done. eexists _, _. split; [done|].
    cbn [threads set_threads current]. rewrite (lookup_imap_some _ _ _ _ Et1). split; [done|]. split; [done|].
    pose proof (ended_fields idx t1 (128 + sig) (Some sig) idx t1) as F. cbv zeta in F. rewrite Nat.eqb_refl in F.
    split; [|by destruct F as (_ & _ & _ & _ & _ & _ & _ & _ & _ & ? & ? & ?)].
    unfold ended, woken, orphan. rewrite Nat.eqb_refl. by repeat case_match.
  - cbn [punwrap pret put_sched pmodify]. eexists Delivered, _. split; [done|].
    exists idx, t. split_and!; try done. exists s1, t1. split_and!; try done.
    intros j u Hj Eu. unfold s1. cbn. by rewrite list_lookup_alter_ne.
Qed.

Lemma signal_contract_witness :
  exists r k', signal cell_of 0x600 2 15 forked = (Ret (Some r), k') /\ r = Delivered.
Proof.
  destruct (signal_contract cell_of 0x600 2 15 forked (sched_of forked) forked_reachable) as (r & k' & E & _);
    [vm_compute; reflexivity|lia| |].
  - intros t Et. vm_compute in Et. injection Et as <-. vm_compute. discriminate.
  - exists r, k'. split; [exact E|]. vm_compute in E. by injection E.
Defined.

(** ** Reaping *)

(** No two threads own the same address space. *)
Definition cr3_unique (ts : list Thread) : Prop :=
  forall i j t u a, ts !! i = Some t -> ts !! j = Some u -> t_cr3 t = Some a -> t_cr3 u = Some a -> i = j.

Lemma elem_of_corpses cur b ts x :
  x ∈ (reap_loop cur b ts).2 <->
  exists i t, ts !! i = Some t /\ (b + i)%nat <> cur /\ collectable t = true /\ x = (t_cr3 t, stack t).
Proof.
  rewrite reap_loop_spec. cbn [snd]. rewrite list_elem_of_omap. split.
  - intros ([j t] & Hin & Hx). apply list_elem_of_lookup in Hin as (i & Hi).
    apply lookup_imap_inv in Hi as (t' & Et & [= -> ->]). cbn in Hx. case_match; [|done]. zbool.
    injection Hx as <-. exists i, t'. done.
  - intros (i & t & Et & Hne & Hc & ->). exists ((b + i)%nat, t). split.
    + apply list_elem_of_lookup. exists i. by apply (lookup_imap_some (fun i t => ((b + i)%nat, t))).
    + cbn. rewrite (proj2 (Nat.eqb_neq _ _)) by done. by rewrite Hc.
Qed.

Lemma corpses_NoDup cur b ts : cr3_unique ts -> NoDup (omap fst (reap_loop cur b ts).2).
Proof.
  revert b. induction ts as [|t ts IH]; intros b U; [constructor|]. cbn [reap_loop].
  assert (cr3_unique ts) as U' by (intros i j t1 t2 a E1 E2 H1 H2; by injection (U (S i) (S j) t1 t2 a E1 E2 H1 H2)).
  specialize (IH (S b) U'). destruct (reap_loop cur (S b) ts) as [ts1 cs] eqn:Er. cbn in IH.
  destruct (negb (b =? cur)%nat && collectable t); [|done]. cbn. destruct (t_cr3 t) as [a|] eqn:Ea; [|done].
  constructor; [|done]. intros ([c st] & Hin & Hc)%list_elem_of_omap. cbn in Hc. subst c.
  assert ((Some a, st) ∈ (reap_loop cur (S b) ts).2) as Hin' by by rewrite Er.
  apply elem_of_corpses in Hin' as (i & u & Eu & _ & _ & [= Hu _]).
  by pose proof (U 0%nat (S i) t u a eq_refl Eu Ea (eq_sym Hu)).
Qed.


Definition collected : Kernel := (exec_call cell_of 0x600 (CWait (-1)) parent_with_zombie).2.

Lemma collected_reachable : reachable cell_of 0x600 collected.
Proof.
  apply (reach_call _ _ (CWait (-1)) parent_with_zombie); [apply parent_with_zombie_reachable|by eexists _, _|].
  vm_compute. reflexivity.
Qed.


(** ** What a switch installs *)

(** C22. After a switch to thread [n] the processor is exactly that thread's: its
    address space (the kernel's for a kernel thread), kernel stack in the TSS
    and for system calls, FS base, FPU state, and the registers, stack pointer
    and resume address it saved; and the thread that was left has its FPU state
    and its own registers saved where its next switch will find them. *)
Theorem switch_installs rsp_cell resume k s t n tn xs x :
  kernel_ok k -> SCHEDULER k = Some s -> threads s !! current s = Some t ->
  next_runnable s = Some n -> threads s !! n = Some tn ->
  let sp := gpr (cpu k) RSP in
  CONTEXT_BYTES <= sp -> sp < U64 -> ~ within (sp - CONTEXT_BYTES) CONTEXT_BYTES (rsp_cell (current s)) ->
  0 <= t_rsp tn -> t_rsp tn + CONTEXT_BYTES < U64 -> apart sp (rsp_cell (current s)) (t_rsp tn) ->
  length xs = length callee_saved -> words_at (mem (cpu k)) (t_rsp tn) (xs ++ [x]) -> n <> current s ->
  exists k' s' t' tn', switch_to_next rsp_cell resume k = (Ret true, k') /\ SCHEDULER k' = Some s' /\
    current s' = n /\ threads s' !! current s = Some t' /\ threads s' !! n = Some tn' /\ tn' = tn /\
    let c := cpu k' in
    cr3 c = default (kernel_cr3 s) (t_cr3 tn) /\ rsp0 c = kernel_stack_top tn /\ fs_base c = t_fs_base tn /\
    fpu c = t_fpu tn /\ kstack c = (if kernel_stack_top tn =? 0 then kstack (cpu k) else align16 (kernel_stack_top tn)) /\
    gpr c RSP = t_rsp tn + CONTEXT_BYTES /\ rip c = x /\ gpr c <$> callee_saved = xs /\
    t_fpu t' = fpu (cpu k) /\ t_rsp t' = sp - CONTEXT_BYTES /\
    words_at (mem c) (t_rsp t') (context_of (cpu k) resume).
Proof.
  intros Hk E Et En Etn sp Hsp0 Hsp Hcell Hr0 Hr1 Hap Hl Hw Hne.
  unfold switch_to_next, pbind, pget. rewrite E, En. unfold thread_at. rewrite Et, Etn. cbn [punwrap pret].
  unfold switch_task. destruct (load_task _ _ _ _ (cpu k)) as [old m0] eqn:El.
  apply load_task_spec in El as (-> & L1 & L2 & _ & _ & L3 & L4 & L5 & L6 & L7).
  destruct (switch_context_spec (rsp_cell (current s)) (t_rsp tn) resume m0 xs x) as (C & K1 & K2 & K3 & K4 & _);
    rewrite ?L1, ?L2; try done.
  set (m := switch_context _ _ _ _) in *. clearbody m. rewrite L1 in K3, K4. fold sp in K3, K4.
  unfold context_of in K2. apply app_inj_2 in K2 as [K2 [= K5]]; [|done].
  destruct C as (_ & _ & _ & C1 & C2 & C3 & C4 & _ & C5).
  do 4 eexists. split; [done|]. split; [done|]. cbn [threads current cpu set_cpu set_sched].
  rewrite alter_imap, (lookup_imap_some _ _ _ _ Et), (lookup_imap_some _ _ _ _ Etn), Nat.eqb_refl.
  rewrite (proj2 (Nat.eqb_neq n (current s))) by done. cbn [t_fpu t_rsp set_saved].
  split_and!; try done; try congruence.
  rewrite K4. replace (context_of (cpu k) resume) with (context_of m0 resume); [done|].
  unfold context_of. by rewrite L1.
Qed.

(** A kernel whose second thread has an initial context on its stack. *)
Definition spawned : Kernel := (exec_call cell_of 0x600 (CSpawn 0x500 0x4000 0x700) booted).2.

Lemma spawned_ok : kernel_ok spawned.
Proof.
  apply (reachable_ok cell_of 0x600). apply (reach_call _ _ (CSpawn 0x500 0x4000 0x700) booted); [|done|].
  - by apply (reach_init _ _ boot_cpu).
  - vm_compute. reflexivity.
Qed.

Lemma switch_installs_witness :
  exists k', switch_to_next cell_of 0x600 spawned = (Ret true, k') /\
    cr3 (cpu k') = 0x1000 /\ rsp0 (cpu k') = 0x8000 /\ rip (cpu k') = 0x500 /\ gpr (cpu k') RSP = 0x8000.
Proof.
  destruct (switch_installs cell_of 0x600 spawned (sched_of spawned) (thread_of spawned 0) 1 (thread_of spawned 1)
    [0x700; 0; 0; 0; 0; 0] 0x500 spawned_ok)
    as (k' & s' & t' & tn' & E & _ & _ & _ & _ & _ & H1 & H2 & _ & _ & _ & H3 & H4 & _);
    try (vm_compute; reflexivity); try done.
  - change (~ within (0x9000 - CONTEXT_BYTES) CONTEXT_BYTES 0x100). unfold within, CONTEXT_BYTES. lia.
  - change (apart 0x9000 0x100 0x7FC8). unfold apart, within, CONTEXT_BYTES. lia.
  - exists k'. split_and!; assumption.
Defined.
