(* ===== verification/Faults.v ===== *)
(** * Exceptions

    The interrupt table and the exception handlers of [arch/x86_64/interrupts.rs]: a
    fault in ring 3 ends the process, a fault in ring 0 is a panic.  The timer's
    handler is in [Syscall], the keyboard's in [Keyboard]. *)

From stdpp Require Import base numbers list gmap.
From Stdlib Require Import ZArith Lia.
From S2P Require Import Prelude Abi Machine Context Sched SchedInv SchedOps SchedTheorems.
#[local] Open Scope Z_scope.

Definition PIC_1_OFFSET : Z := 32.
Definition PIC_2_OFFSET : Z := PIC_1_OFFSET + 8.

Inductive InterruptIndex : Type := Timer | Keyboard.
Definition as_u8 (i : InterruptIndex) : Z := match i with Timer => PIC_1_OFFSET | Keyboard => PIC_1_OFFSET + 1 end.

Inductive Handler : Type := HBreakpoint | HDoubleFault | HPageFault | HGeneralProtection | HTimer | HKeyboard.

(** [IDT]: the exceptions at their fixed vectors. *)
Definition IDT (vector : Z) : option Handler :=
  if vector =? 3 then Some HBreakpoint
  else if vector =? 8 then Some HDoubleFault
  else if vector =? 13 then Some HGeneralProtection
  else if vector =? 14 then Some HPageFault
  else if vector =? as_u8 Timer then Some HTimer
  else if vector =? as_u8 Keyboard then Some HKeyboard
  else None.

(** The kernel, and [USER_FAULT_KILLS]. *)
Record FaultWorld : Type := mkFault { fkern : Kernel; USER_FAULT_KILLS : Z }.

(** The frame the processor pushes: of it the code segment counts. *)
Record InterruptStackFrame : Type := mkFrame { f_rip : Z; f_cs : Z; f_rsp : Z }.

Section Handlers.
Variable rsp_cell : nat -> Z.
Variable resume : Z.
#[local] Abbreviation fprog A := (prog FaultWorld Empty_set A).

Definition in_fkern {A} (m : kprog A) : fprog A := pzoom fkern (fun k w => mkFault k (USER_FAULT_KILLS w)) m.

(** Another thread runs when it is done. *)
Definition kill_faulting_user_process : fprog unit :=
  pmodify (fun w => mkFault (fkern w) ((USER_FAULT_KILLS w + 1) mod U64)) ;;!
  in_fkern (exit_current_killed rsp_cell resume SIGSEGV).

Definition breakpoint_handler : fprog unit := pret tt.
Definition double_fault_handler : fprog unit := ppanic.

(** [PageFaultErrorCode::USER_MODE] is bit 2. *)
Definition page_fault_handler (error_code : Z) : fprog unit :=
  if Z.testbit error_code 2 then kill_faulting_user_process else ppanic.

Definition general_protection_fault_handler (frame : InterruptStackFrame) : fprog unit :=
  if Z.land (f_cs frame) 3 =? 3 then kill_faulting_user_process else ppanic.

(** The exception at a vector; a vector without a handler is a fault of its own. *)
Definition exception (vector error_code : Z) (frame : InterruptStackFrame) : fprog unit :=
  match IDT vector with
  | Some HBreakpoint => breakpoint_handler
  | Some HDoubleFault => double_fault_handler
  | Some HPageFault => page_fault_handler error_code
  | Some HGeneralProtection => general_protection_fault_handler frame
  | _ => ppanic
  end.
End Handlers.


