(* ===== verification/Console.v ===== *)
(** * The console line discipline

    [drivers/console.rs]: characters from the keyboard are edited into lines,
    completed lines are queued for [read(0)], the input is echoed to the screen
    and the blocked readers are woken. *)

From stdpp Require Import base numbers list gmap.
From Stdlib Require Import ZArith Lia.
From S2P Require Import Prelude Vga Machine Context Sched SchedInv SchedTheorems.
#[local] Open Scope Z_scope.

Record Console : Type := mkConsole { line : list byte; ready : list byte }.

(** The console with the screen it echoes to and the scheduler it wakes. *)
Record Tty : Type := mkTty {
  CONSOLE : option Console;
  screen : Screen;
  kern : Kernel
}.

Definition set_console (c : option Console) (t : Tty) : Tty := mkTty c (screen t) (kern t).
Definition set_screen (s : Screen) (t : Tty) : Tty := mkTty (CONSOLE t) s (kern t).
Definition set_kern (k : Kernel) (t : Tty) : Tty := mkTty (CONSOLE t) (screen t) k.

Definition console_init : prog (option Console) Empty_set unit := pput (Some (mkConsole [] [])).

Inductive Echo : Type := EchoChar (b : byte) | Newline | Backspace | Nothing.

(** The part of [feed_char] under the console lock. *)
Definition feed_line (b : byte) (con : Console) : Console * Echo :=
  if Byte.eqb b x0a || Byte.eqb b x0d then
    (mkConsole [] (ready con ++ line con ++ [x0a]), Newline)
  else if Byte.eqb b x08 || Byte.eqb b x7f then
    match rev (line con) with
    | _ :: l => (mkConsole (rev l) (ready con), Backspace)
    | [] => (con, Nothing)
    end
  else if in_range 0x20 0x7e b then
    (mkConsole (line con ++ [b]) (ready con), EchoChar b)
  else (con, Nothing).

Definition feed_char (c : Z) : prog Tty Empty_set unit :=
  if negb (c <? 128) then pret tt
  else
    let! t := pget in
    let! echo :=
      match CONSOLE t with
      | Some con =>
          let '(con', echo) := feed_line (z2b c) con in
          pmodify (set_console (Some con')) ;;! pret echo
      | None => pret Nothing
      end in
    (match echo with
     | EchoChar b => pzoom screen set_screen (vga_write_bytes [b])
     | Newline => pzoom screen set_screen (vga_write_bytes [x0a])
     | Backspace => pzoom screen set_screen backspace
     | Nothing => pret tt
     end) ;;!
    match echo with
    | Newline => pzoom kern set_kern wake_stdin_readers
    | _ => pret tt
    end.

(** [take_ready]: [max] is a [usize]. *)
Definition take_ready (max : Z) : prog (option Console) Empty_set (list byte) :=
  let! g := pget in
  match g with
  | Some con =>
      let line_len :=
        match position (fun b => Byte.eqb b x0a) (ready con) with
        | Some i => S i
        | None => length (ready con)
        end in
      let n := Z.to_nat (Z.min max (Z.of_nat line_len)) in
      pput (Some (mkConsole (line con) (drop n (ready con)))) ;;!
      pret (take n (ready con))
  | None => pret []
  end.

Definition unread (bytes : list byte) : prog (option Console) Empty_set unit :=
  match bytes with
  | [] => pret tt
  | _ =>
      pmodify (fun g =>
        match g with
        | Some con => Some (mkConsole (line con) (foldl (fun r b => b :: r) (ready con) (rev bytes)))
        | None => None
        end)
  end.

(** ** Specification *)

(** What is left of a line after its edits. *)
Definition edit_key (l : list byte) (b : byte) : list byte :=
  if Byte.eqb b x08 || Byte.eqb b x7f then take (pred (length l)) l
  else if in_range 0x20 0x7e b then l ++ [b]
  else l.

Definition edited (keys : list byte) : list byte := foldl edit_key [] keys.

(** The keys the terminal takes: ASCII, with carriage return as newline. *)
Definition keys_of (typed : list Z) : list byte :=
  (fun c => if Byte.eqb (z2b c) x0d then x0a else z2b c) <$> filter (fun c => c < 128) typed.

(** The lines typed so far, the last one unfinished. *)
Definition typed_lines (typed : list Z) : list (list byte) := split_on x0a (keys_of typed).

(** The bytes of the finished lines, and the line being edited. *)
Definition finished (lines : list (list byte)) : list byte :=
  concat ((fun l => edited l ++ [x0a]) <$> removelast lines).

Definition unfinished (lines : list (list byte)) : list byte := edited (default [] (last lines)).

(** A run: keys arrive, readers take lines, a reader whose buffer is bad puts
    its line back; [typed] and [delivered] are what went in and came out. *)
Inductive console_run : Tty -> list Z -> list byte -> Tty -> Prop :=
| run_start t : console_run t [] [] t
| run_feed t typed out t1 c t2 :
    console_run t typed out t1 -> feed_char c t1 = (Ret tt, t2) ->
    console_run t (typed ++ [c]) out t2
| run_take t typed out t1 n bytes g :
    console_run t typed out t1 -> 0 <= n -> take_ready n (CONSOLE t1) = (Ret bytes, g) ->
    console_run t typed (out ++ bytes) (set_console g t1)
| run_fault t typed out t1 n bytes g g' :
    console_run t typed out t1 -> 0 <= n -> take_ready n (CONSOLE t1) = (Ret bytes, g) ->
    unread bytes g = (Ret tt, g') ->
    console_run t typed out (set_console g' t1).

(** ** Lines *)

Lemma split_on_snoc c l k :
  exists init lst, split_on c l = init ++ [lst] /\
    split_on c (l ++ [k]) = if Byte.eqb k c then init ++ [lst; []] else init ++ [lst ++ [k]].
Proof.
  induction l as [|x l (init & lst & IH1 & IH2)]; cbn [split_on app].
  { exists [], []. split; [done|]. by destruct (Byte.eqb k c). }
  rewrite IH1, IH2. destruct (Byte.eqb x c).
  - exists ([] :: init), lst. split; [done|]. by destruct (Byte.eqb k c).
  - destruct init as [|w ws]; cbn [app].
    + exists [], (x :: lst). split; [done|]. by destruct (Byte.eqb k c).
    + exists ((x :: w) :: ws), lst. split; [done|]. by destruct (Byte.eqb k c).
Qed.

Lemma removelast_snoc {A} (l : list A) x : removelast (l ++ [x]) = l.
Proof. apply removelast_last. Qed.

Lemma edited_snoc l k : edited (l ++ [k]) = edit_key (edited l) k.
Proof. unfold edited. by rewrite foldl_app. Qed.

Lemma key_of_feed b con k :
  k = (if Byte.eqb b x0d then x0a else b) ->
  (feed_line b con).1 =
    if Byte.eqb k x0a then mkConsole [] (ready con ++ line con ++ [x0a])
    else mkConsole (edit_key (line con) k) (ready con).
Proof.
  intros ->. unfold feed_line, edit_key. destruct (Byte.eqb b x0d) eqn:Ed.
  { apply byte_eqb_eq in Ed as ->. done. }
  rewrite orb_false_r. destruct (Byte.eqb b x0a); [done|].
  destruct (Byte.eqb b x08 || Byte.eqb b x7f); [|by destruct (in_range _ _ _); destruct con].
  destruct con as [l r]. cbn [line ready]. destruct l as [|y l _] using rev_ind; [done|].
  rewrite rev_unit, length_app. cbn [length fst]. rewrite rev_involutive.
  replace (pred (length l + 1)) with (length l) by lia. by rewrite take_app_length.
Qed.

(** One key moves the state from the lines typed before it to those after. *)
Lemma feed_line_spec typed c con out :
  c < 128 ->
  out ++ ready con = finished (typed_lines typed) -> line con = unfinished (typed_lines typed) ->
  let con' := (feed_line (z2b c) con).1 in
  out ++ ready con' = finished (typed_lines (typed ++ [c])) /\
  line con' = unfinished (typed_lines (typed ++ [c])).
Proof.
  intros Hc Hr Hl. cbv zeta. unfold typed_lines, keys_of in *.
  rewrite filter_app, fmap_app. rewrite (filter_cons_True _ c []) by done.
  rewrite fmap_cons. change (fmap _ (filter _ [])) with (@nil byte).
  set (k := if Byte.eqb (z2b c) x0d then x0a else z2b c).
  rewrite (key_of_feed (z2b c) con k) by done.
  destruct (split_on_snoc x0a ((fun c => if Byte.eqb (z2b c) x0d then x0a else z2b c) <$>
                               filter (fun c => c < 128) typed) k) as (init & lst & E1 & E2).
  rewrite E2. rewrite E1 in Hr, Hl. clear E1 E2. unfold finished, unfinished in *.
  rewrite removelast_snoc in Hr. rewrite last_snoc in Hl. cbn [from_option id] in Hl.
  destruct (Byte.eqb k x0a).
  - cbn [ready line]. change (init ++ [lst; []]) with (init ++ [lst] ++ [[]]).
    rewrite (app_assoc init), removelast_snoc, last_snoc, fmap_app, concat_app, app_assoc, Hr, Hl.
    cbn. by rewrite app_nil_r.
  - cbn [ready line]. rewrite removelast_snoc, last_snoc. cbn [from_option id]. by rewrite edited_snoc, Hl.
Qed.

Lemma foldl_push_front (l r : list byte) : foldl (fun r b => b :: r) r (rev l) = l ++ r.
Proof. revert r. induction l as [|b l IH]; intros r; cbn [rev]; [done|]. by rewrite foldl_app, IH. Qed.

(** [unread] undoes [take_ready]. *)
Lemma unread_take n g bytes g' g'' :
  0 <= n -> take_ready n g = (Ret bytes, g') -> unread bytes g' = (Ret tt, g'') -> g'' = g.
Proof.
  unfold take_ready, pbind, pget, pput, pret. destruct g as [con|].
  - set (k := Z.to_nat _). intros Hn [= <- <-]. unfold unread.
    destruct (take k (ready con)) as [|b l] eqn:E.
    + intros [= <-]. do 2 f_equal. destruct con as [ln rd]. cbn [line ready] in *. f_equal.
      rewrite <- (take_drop k rd) at 2. by rewrite E.
    + unfold pmodify. intros [= <-]. destruct con as [ln rd]. cbn [line ready] in *. do 2 f_equal.
      change (rev l ++ [b]) with (rev (b :: l)). rewrite foldl_push_front, <- E. apply take_drop.
  - intros _ [= <- <-]. cbn. by intros [= <-].
Qed.

(** ** Echo *)

Definition screen_ok (s : Screen) : Prop := length (vram s) = CELLS /\ (column s <= BUFFER_WIDTH)%nat.

Lemma wp_write_byte_ok s b : screen_ok s -> wp (write_byte b) (fun _ s' => screen_ok s') (fun _ _ => False) s.
Proof.
  intros [Hl Hc].
  assert (Hn : forall t, length (vram t) = CELLS ->
    wp new_line (fun _ t' => length (vram t') = CELLS /\ column t' = 0%nat) (fun _ _ => False) t).
  { intros t Ht. eapply wp_mono; [by apply wp_new_line| |done]. intros [] t' ->. split; [|done].
    cbn [vram]. rewrite length_app, length_drop, length_replicate, Ht. done. }
  assert (Hp : forall t, length (vram t) = CELLS -> (column t < BUFFER_WIDTH)%nat ->
    wp (let! s := pget in
        write_cell (cell (BUFFER_HEIGHT - 1) (column s)) (mkChar b (color s)) ;;!
        pmodify (set_column (S (column s)))) (fun _ s' => screen_ok s') (fun _ _ => False) t).
  { intros t Ht Hw. apply wp_bind, wp_get, wp_bind, wp_write_cell.
    - rewrite Ht. unfold CELLS, cell, BUFFER_HEIGHT, BUFFER_WIDTH in *. lia.
    - split; cbn; [by rewrite length_insert|lia]. }
  destruct (Byte.eqb b x0a) eqn:Eb.
  { apply byte_eqb_eq in Eb as ->. eapply wp_mono; [by apply Hn| |done].
    intros [] t [? ?]. split; [done|]. lia. }
  assert (write_byte b = (let! s := pget in
      (if (BUFFER_WIDTH <=? column s)%nat then new_line else pret tt) ;;!
      let! s := pget in
      write_cell (cell (BUFFER_HEIGHT - 1) (column s)) (mkChar b (color s)) ;;!
      pmodify (set_column (S (column s))))) as -> by (destruct b; done).
  apply wp_bind, wp_get, wp_bind. destruct (BUFFER_WIDTH <=? column s)%nat eqn:Hw; zbool.
  - eapply wp_mono; [by apply Hn| |done]. intros [] t [Ht Hc0]. apply Hp; [done|].
    rewrite Hc0. unfold BUFFER_WIDTH. lia.
  - apply wp_ret. by apply Hp.
Qed.

Lemma wp_backspace_ok s : screen_ok s -> wp backspace (fun _ s' => screen_ok s') (fun _ _ => False) s.
Proof.
  intros [Hl Hc]. unfold backspace. apply wp_bind, wp_get. destruct (0 <? column s)%nat eqn:E; zbool; [|by apply wp_ret].
  apply wp_bind, wp_modify, wp_write_cell; cbn [vram set_column].
  - rewrite Hl. unfold CELLS, cell, BUFFER_HEIGHT, BUFFER_WIDTH in *. lia.
  - split; cbn; [by rewrite length_insert|lia].
Qed.

(** No thread waits for the keyboard. *)
Definition no_stdin_waiter (k : Kernel) : Prop :=
  forall s t, SCHEDULER k = Some s -> t ∈ threads s -> blocked_for Stdin t = false.

Lemma wp_wake_all r k (Q : unit -> Kernel -> Prop) X :
  (forall s, SCHEDULER k = Some s -> Q tt (set_sched (set_threads (map (wake r) (threads s)) s) k)) ->
  (SCHEDULER k = None -> Q tt k) -> wp (wake_all r) Q X k.
Proof.
  intros H1 H2. unfold wake_all. apply wp_bind, wp_get. destruct (SCHEDULER k) eqn:E; [by apply H1|by apply H2].
Qed.

Lemma blocked_for_wake r t : blocked_for r (wake r t) = false.
Proof.
  unfold wake. destruct (blocked_for r t) eqn:E; [|done]. unfold blocked_for. cbn.
  rewrite andb_false_iff. left. by apply bool_decide_eq_false_2.
Qed.

Lemma wp_feed_char c t :
  screen_ok (screen t) ->
  wp (feed_char c)
    (fun _ t' => screen_ok (screen t') /\
       CONSOLE t' = (if c <? 128 then (fun con => (feed_line (z2b c) con).1) <$> CONSOLE t else CONSOLE t) /\
       (CONSOLE t <> None -> c = 10 \/ c = 13 -> no_stdin_waiter (kern t')))
    (fun _ _ => False) t.
Proof.
  intros Hs. unfold feed_char. destruct (c <? 128) eqn:Hc; cbn [negb]; zbool.
  2: { apply wp_ret. split_and!; [done..|]. lia. }
  apply wp_bind, wp_get. destruct (CONSOLE t) as [con|] eqn:Econ; [|apply wp_bind, wp_ret; by apply wp_bind, wp_ret, wp_ret].
  destruct (feed_line (z2b c) con) as [con' echo] eqn:Ef.
  assert (Hnl : c = 10 \/ c = 13 -> echo = Newline).
  { intros [->| ->]; [change (z2b 10) with x0a in Ef|change (z2b 13) with x0d in Ef];
      unfold feed_line in Ef; cbn [Byte.eqb orb] in Ef; by injection Ef. }
  assert (Hcon : Some con' = (fun con => (feed_line (z2b c) con).1) <$> Some con) by (cbn; by rewrite Ef).
  apply wp_bind, wp_bind, wp_modify, wp_ret.
  assert (Hw : forall b, wp (vga_write_bytes [b]) (fun _ s' => screen_ok s') (fun _ _ => False) (screen t)).
  { intros b. unfold vga_write_bytes, write_filtered. cbn [pfold]. apply wp_bind.
    eapply wp_mono; [by apply wp_write_byte_ok| |done]. intros [] s' ?. by apply wp_ret. }
  destruct echo as [b| | |]; apply wp_bind.
  - apply wp_zoom. eapply wp_mono; [apply Hw| |done]. intros [] s' Hs'. apply wp_ret.
    split_and!; [done|done|]. intros _ H. by apply Hnl in H.
  - apply wp_zoom. eapply wp_mono; [apply Hw| |done]. intros [] s' Hs'.
    apply wp_zoom, wp_wake_all; cbn [kern set_screen set_console screen CONSOLE set_kern].
    + intros s E. split_and!; [done|done|]. intros _ _ s2 x. cbn [SCHEDULER set_sched kern].
      intros [= <-]. cbn [threads set_threads]. intros (y & -> & _)%list_elem_of_fmap.
      apply blocked_for_wake.
    + intros E. split_and!; [done|done|]. intros _ _ s x E'. cbn in E'. congruence.
  - apply wp_zoom. eapply wp_mono; [by apply wp_backspace_ok| |done]. intros [] s' Hs'. apply wp_ret.
    split_and!; [done|done|]. intros _ H. by apply Hnl in H.
  - apply wp_ret, wp_ret. split_and!; [done|done|]. intros _ H. by apply Hnl in H.
Qed.

(** ** Delivery *)

Lemma position_prefix (r : list byte) i :
  position (fun b => Byte.eqb b x0a) r = Some i -> (x0a ∉ take i r) /\ r !! i = Some x0a.
Proof.
  revert i. induction r as [|b r IH]; intros i; cbn [position]; [done|].
  destruct (Byte.eqb b x0a) eqn:E.
  - intros [= <-]. apply byte_eqb_eq in E as ->. split; [apply not_elem_of_nil|done].
  - destruct (position _ r) as [j|]; [|done]. intros [= <-]. destruct (IH j) as [H1 H2]; [done|].
    split; [|done]. cbn [take]. apply byte_eqb_neq in E. rewrite not_elem_of_cons. done.
Qed.

Lemma position_None (r : list byte) : position (fun b => Byte.eqb b x0a) r = None -> x0a ∉ r.
Proof.
  induction r as [|b r IH]; cbn [position]; [by intros _ ?%elem_of_nil|].
  destruct (Byte.eqb b x0a) eqn:E; [done|]. destruct (position _ r); [done|]. intros _.
  apply byte_eqb_neq in E. rewrite not_elem_of_cons. split; [done|]. by apply IH.
Qed.

(** [take_ready] takes a non-empty prefix of the first line. *)
Lemma take_ready_spec n con :
  0 < n ->
  exists bytes rest,
    take_ready n (Some con) = (Ret bytes, Some (mkConsole (line con) rest)) /\
    ready con = bytes ++ rest /\ Z.of_nat (length bytes) <= n /\
    (forall i, bytes !! i = Some x0a -> S i = length bytes) /\ (bytes = [] -> ready con = []).
Proof.
  intros Hn. unfold take_ready, pbind, pget, pput, pret.
  set (len := match position _ _ with Some i => S i | None => _ end).
  assert (Hlen : (len <= length (ready con))%nat /\ (len = 0%nat -> ready con = []) /\
                 (forall j, (j < len)%nat -> ready con !! j = Some x0a -> len = S j)).
  { subst len. destruct (position _ _) as [i|] eqn:E.
    - apply position_prefix in E as [H1 H2]. pose proof (lookup_lt_Some _ _ _ H2).
      split_and!; [lia|done|]. intros j Hj Hx. destruct (decide (j = i)) as [->|]; [done|].
      exfalso. apply H1. apply list_elem_of_lookup. exists j. rewrite lookup_take_lt by lia. done.
    - apply position_None in E. split_and!; [lia|by intros ?%nil_length_inv|].
      intros j _ Hx. exfalso. apply E. apply list_elem_of_lookup. by exists j. }
  clearbody len. destruct Hlen as (H1 & H2 & H3). set (k := Z.to_nat _).
  assert (Hk : length (take k (ready con)) = k) by (rewrite length_take; lia).
  exists (take k (ready con)), (drop k (ready con)).
  split_and!; [done|by rewrite take_drop|rewrite Hk; lia| |].
  - intros i Hi. pose proof (lookup_lt_Some _ _ _ Hi) as Hlt. rewrite Hk in *.
    rewrite lookup_take_lt in Hi by done. specialize (H3 i ltac:(lia) Hi). lia.
  - intros E. rewrite E in Hk. apply H2. cbn in Hk. lia.
Qed.

(** The console delivers every finished line once, in order and edited: in
    any interleaving of key presses, reads and reads that fault, the bytes
    delivered so far followed by the queue are the finished lines, each with
    its erased characters gone and a newline at its end, and the pending line
    is the unfinished one; a read takes a prefix of one line and finds nothing
    only when no line is queued; a key press is always handled, and Enter
    leaves no thread blocked on the keyboard. *)
Theorem console_delivers t typed out t' :
  CONSOLE t = Some (mkConsole [] []) -> screen_ok (screen t) -> console_run t typed out t' ->
  exists con,
    CONSOLE t' = Some con /\
    out ++ ready con = finished (typed_lines typed) /\ line con = unfinished (typed_lines typed) /\
    (forall n, 0 < n -> exists bytes rest,
       take_ready n (CONSOLE t') = (Ret bytes, Some (mkConsole (line con) rest)) /\
       ready con = bytes ++ rest /\ Z.of_nat (length bytes) <= n /\
       (forall i, bytes !! i = Some x0a -> S i = length bytes) /\ (bytes = [] -> ready con = [])) /\
    (forall c, exists t2, feed_char c t' = (Ret tt, t2) /\
       (c = 10 \/ c = 13 -> no_stdin_waiter (kern t2))).
Proof.
  intros Hc Hs Hrun.
  assert (H : screen_ok (screen t') /\ exists con, CONSOLE t' = Some con /\
    out ++ ready con = finished (typed_lines typed) /\ line con = unfinished (typed_lines typed)).
  { induction Hrun as [|t typed out t1 c t2 _ IH Hf|t typed out t1 n bytes g _ IH Hn Ht
                       |t typed out t1 n bytes g g' _ IH Hn Ht Hu].
    - split; [done|]. eexists. split_and!; [done|by vm_compute|by vm_compute].
    - destruct (IH Hc Hs) as (Hs1 & con & E & Hr & Hl).
      pose proof (wp_feed_char c t1 Hs1) as Hw. unfold wp in Hw. rewrite Hf, E in Hw.
      destruct Hw as (Hs2 & E2 & _). split; [done|]. destruct (c <? 128) eqn:Hlt; zbool.
      + eexists. split; [done|]. by apply feed_line_spec.
      + exists con. split; [done|]. unfold typed_lines, keys_of in *. rewrite filter_app.
        rewrite (filter_cons_False _ c []) by lia. change (filter _ []) with (@nil Z).
        by rewrite app_nil_r.
    - destruct (IH Hc Hs) as (Hs1 & con & E & Hr & Hl). split; [done|]. rewrite E in Ht. cbn in Ht.
      injection Ht as <- <-. eexists. split; [done|]. cbn [ready line].
      by rewrite <- app_assoc, take_drop.
    - destruct (IH Hc Hs) as (Hs1 & con & E & Hr & Hl). split; [done|].
      rewrite (unread_take _ _ _ _ _ Hn Ht Hu). by exists con. }
  destruct H as (Hs' & con & E & Hr & Hl). exists con. split_and!; [done..| |].
  - intros n Hn. rewrite E. by apply take_ready_spec.
  - intros c. pose proof (wp_feed_char c t' Hs') as Hw. unfold wp in Hw.
    destruct (feed_char c t') as [[[]| | |] t2]; try done. exists t2. split; [done|].
    intros H. apply Hw; [by rewrite E|done].
Qed.

Definition sample_tty : Tty :=
  mkTty (Some (mkConsole [] [])) (Writer_new (replicate CELLS (mkChar x20 15))) booted.

(** The state after [ls], a typing error, its correction and Enter. *)
Definition sample_typed : list Z := [108; 115; 120; 8; 13].

Definition sample_fed : Tty := foldl (fun t c => (feed_char c t).2) sample_tty sample_typed.

Lemma run_feeds t cs :
  screen_ok (screen t) ->
  console_run t cs [] (foldl (fun t c => (feed_char c t).2) t cs) /\
  screen_ok (screen (foldl (fun t c => (feed_char c t).2) t cs)).
Proof.
  intros Hs. induction cs as [|c cs [IH1 IH2]] using rev_ind; [split; [constructor|done]|].
  rewrite foldl_app. cbn [foldl]. set (t1 := foldl _ t cs) in *. pose proof (wp_feed_char c t1 IH2) as Hw.
  unfold wp in Hw. destruct (feed_char c t1) as [[[]| | |] t2] eqn:E; try done.
  split; [|apply Hw]. by eapply run_feed.
Qed.

Lemma console_delivers_witness :
  finished (typed_lines sample_typed) = bs "ls" ++ [x0a] /\
  exists con, CONSOLE sample_fed = Some con /\ [] ++ ready con = finished (typed_lines sample_typed).
Proof.
  assert (Hs : screen_ok (screen sample_tty)).
  { split; [apply length_replicate|]. change (column (screen sample_tty)) with 0%nat. lia. }
  split; [vm_compute; reflexivity|].
  destruct (console_delivers sample_tty sample_typed [] sample_fed) as (con & E & H & _);
    [reflexivity|exact Hs|exact (proj1 (run_feeds sample_tty sample_typed Hs))|].
  exists con. split; [exact E|exact H].
Defined.
