(* ===== verification/Executor.v ===== *)
(** * The executor of kernel tasks

    [sched/mod.rs] (tasks), [sched/executor.rs] and [sched/simple_executor.rs].  The
    executor runs in the idle thread with interrupts on, so an interrupt may come
    between any two of its steps and wake a task; the machine below takes the steps
    one by one. *)

From stdpp Require Import base numbers list gmap.
From Stdlib Require Import ZArith Lia.
From S2P Require Import Prelude.
#[local] Open Scope Z_scope.

(** ** Tasks *)

(** [TaskId::new]: a 64-bit counter. *)
Definition task_id_new {E} : prog Z E Z := let! n := pget in pput ((n + 1) mod U64) ;;! pret n.

(** One step of the poll of a future, up to the next thing another thread or an
    interrupt can see. *)
Inductive Polled (F : Type) : Type :=
| Goes (f : F)
| Pending (f : F)
| Ready
| PollPanics.
Arguments Goes {F} f.
Arguments Pending {F} f.
Arguments Ready {F}.
Arguments PollPanics {F}.

(** A step of future [f] of task [id] (its waker) on the shared state, with the tasks
    it wakes; and what an interrupt does. *)
Class Futures (F Sh Ev : Type) : Type := {
  poll_step : Z -> F -> Sh -> Polled F * Sh * list Z;
  irq : Ev -> Sh -> Sh * list Z
}.

(** ** [Executor] *)

(** Where [run] is: the head of the loop of [run_ready_tasks]; in the poll of a task;
    at [thread::reap]; and in [sleep_if_idle] before [disable], before [is_empty], and
    halted. *)
Inductive Pc : Type := Popping | Polling (id : Z) | Reaping | Disabling | Checking | Halted | Panicked.

#[export] Instance Pc_eq_dec : EqDecision Pc.
Proof. solve_decision. Defined.

(** [ArrayQueue::new(100)]. *)
Definition TASK_QUEUE_SIZE : nat := 100.

Record Executor (F Sh : Type) : Type := mkExecutor {
  tasks : gmap Z F; task_queue : list Z; waker_cache : gset Z; shared : Sh; pc : Pc
}.
Arguments mkExecutor {F Sh} tasks task_queue waker_cache shared pc.
Arguments tasks {F Sh} e.
Arguments task_queue {F Sh} e.
Arguments waker_cache {F Sh} e.
Arguments shared {F Sh} e.
Arguments pc {F Sh} e.

Section Executor.
Context {F Sh Ev : Type} {FU : Futures F Sh Ev}.
#[local] Abbreviation Executor := (Executor F Sh).
Implicit Types x : Executor.

Definition set_pc (p : Pc) x : Executor := mkExecutor (tasks x) (task_queue x) (waker_cache x) (shared x) p.
Definition set_tasks (t : gmap Z F) x : Executor := mkExecutor t (task_queue x) (waker_cache x) (shared x) (pc x).
Definition set_queue (q : list Z) x : Executor := mkExecutor (tasks x) q (waker_cache x) (shared x) (pc x).
Definition set_cache (c : gset Z) x : Executor := mkExecutor (tasks x) (task_queue x) c (shared x) (pc x).
Definition set_shared (s : Sh) x : Executor := mkExecutor (tasks x) (task_queue x) (waker_cache x) s (pc x).

Definition Executor_new (s : Sh) : Executor := mkExecutor ∅ [] ∅ s Popping.

(** [TaskWaker::wake_task]: [push(..).expect("task_queue is full")]. *)
Definition wake_task (id : Z) x : Executor :=
  if (length (task_queue x) <? TASK_QUEUE_SIZE)%nat then set_queue (task_queue x ++ [id]) x else set_pc Panicked x.

Definition wake_all (ids : list Z) x : Executor := fold_left (fun x id => wake_task id x) ids x.

(** [insert(..).is_some()] panics, and so does a full queue. *)
Definition spawn (id : Z) (f : F) x : Executor :=
  match tasks x !! id with
  | Some _ => set_pc Panicked x
  | None => wake_task id (set_tasks (<[id := f]> (tasks x)) x)
  end.

(** A step of [run]. *)
Definition run_step x : Executor :=
  match pc x with
  | Popping =>
      match task_queue x with
      | [] => set_pc Reaping x
      | id :: q =>
          match tasks x !! id with
          | None => set_queue q x
          | Some _ => set_pc (Polling id) (set_cache ({[id]} ∪ waker_cache x) (set_queue q x))
          end
      end
  | Polling id =>
      match tasks x !! id with
      | None => x
      | Some f =>
          let '(r, s, woken) := poll_step id f (shared x) in
          let x := set_shared s x in
          wake_all woken
            match r with
            | Goes f => set_tasks (<[id := f]> (tasks x)) x
            | Pending f => set_pc Popping (set_tasks (<[id := f]> (tasks x)) x)
            | Ready => set_pc Popping (set_cache (waker_cache x ∖ {[id]}) (set_tasks (delete id (tasks x)) x))
            | PollPanics => set_pc Panicked x
            end
      end
  | Reaping => set_pc Disabling x
  | Disabling => set_pc Checking x
  | Checking => set_pc (match task_queue x with [] => Halted | _ => Popping end) x
  | Halted | Panicked => x
  end.

(** Interrupts are off from [disable] to [enable] or [hlt]. *)
Definition interruptible (p : Pc) : bool := match p with Checking | Panicked => false | _ => true end.

(** An interrupt; [hlt] goes on after it. *)
Definition interrupt (e : Ev) x : Executor :=
  let '(s, woken) := irq e (shared x) in
  wake_all woken (set_shared s (match pc x with Halted => set_pc Popping x | _ => x end)).

Inductive step : Executor -> Executor -> Prop :=
| step_run x : step x (run_step x)
| step_irq e x : interruptible (pc x) = true -> step x (interrupt e x).

(** ** What always holds *)

(** The types of the machine's parts: the queue fits its array, only live tasks have
    a cached waker, the task being polled is alive, and a halted executor has no task
    to run. *)
Record exec_ok x : Prop := {
  eo_fits : (length (task_queue x) <= TASK_QUEUE_SIZE)%nat;
  eo_cache : waker_cache x ⊆ dom (tasks x);
  eo_polling id : pc x = Polling id -> is_Some (tasks x !! id);
  eo_halted : pc x = Halted -> task_queue x = []
}.

Lemma wake_task_ok id x : exec_ok x -> pc x <> Halted -> exec_ok (wake_task id x) /\ pc (wake_task id x) <> Halted.
Proof.
  intros [O1 O2 O3 O4] Hp. unfold wake_task. destruct (length (task_queue x) <? TASK_QUEUE_SIZE)%nat eqn:E; zbool; [|by split].
  split; [|done]. split; [|done|done|done]. cbn [task_queue set_queue]. rewrite length_app. cbn. lia.
Qed.

Lemma wake_all_ok ids x : exec_ok x -> (ids = [] \/ pc x <> Halted) -> exec_ok (wake_all ids x).
Proof.
  revert x. induction ids as [|id ids IH]; intros x O Hp; [done|]. destruct Hp as [|Hp]; [done|]. cbn [wake_all fold_left].
  destruct (wake_task_ok id x O Hp) as [O' Hp']. apply IH; [done|by right].
Qed.

Lemma run_step_ok x : exec_ok x -> exec_ok (run_step x).
Proof.
  intros [O1 O2 O3 O4]. unfold run_step. destruct (pc x) as [|id| | | | |] eqn:Ep.
  - destruct (task_queue x) as [|id q] eqn:Eq; [by split; cbn; rewrite ?Eq|]. cbn [length] in O1. destruct (tasks x !! id) eqn:Et.
    + split; cbn; [lia|apply union_subseteq; split; [apply singleton_subseteq_l, elem_of_dom; eauto|done]|intros i [= <-]; eauto|done].
    + split; cbn; [lia|done|congruence|congruence].
  - destruct (tasks x !! id) as [f|] eqn:Et; [|destruct (O3 id eq_refl); congruence]. destruct (poll_step id f (shared x)) as [[r s] woken].
    assert (Hd : forall f', dom (<[id := f']> (tasks x)) = dom (tasks x)) by (intros f'; rewrite dom_insert_L; apply subseteq_union_1_L, singleton_subseteq_l, elem_of_dom; eauto).
    apply wake_all_ok; [|right; destruct r; cbn; rewrite ?Ep; done]. destruct r as [f'|f'| |]; split; cbn; rewrite ?Hd, ?Ep; try done.
    + intros i [= <-]. rewrite lookup_insert_eq. eauto.
    + rewrite dom_delete_L. set_solver.
  - by split.
  - by split.
  - destruct (task_queue x) eqn:Eq; split; cbn; by rewrite ?Eq.
  - split; [done|done|congruence|intros _; by apply O4].
  - split; [done|done|congruence|congruence].
Qed.

Lemma interrupt_ok e x : exec_ok x -> exec_ok (interrupt e x).
Proof.
  intros [O1 O2 O3 O4]. unfold interrupt. destruct (irq e (shared x)) as [s woken]. apply wake_all_ok; [|right; by destruct (pc x) eqn:Ep; cbn; rewrite ?Ep].
  destruct (pc x) eqn:Ep; split; cbn; rewrite ?Ep; done.
Qed.

End Executor.

(** ** [SimpleExecutor] *)

Section Simple.
Context {F Sh : Type} (poll : F -> Sh -> option F * Sh).

(** A queue of tasks; [poll] gives [None] for [Ready]. *)
Definition simple_spawn (f : F) (q : list F) : list F := q ++ [f].

Definition simple_turn {E} (q : list F) : prog Sh E (list F + unit) :=
  match q with
  | [] => pret (inr tt)
  | f :: q' =>
      let! s := pget in
      let r := poll f s in
      pput r.2 ;;!
      pret (inl (match r.1 with Some f' => q' ++ [f'] | None => q' end))
  end.

Definition simple_run {E} (q : list F) : prog Sh E unit := forever simple_turn q.
End Simple.

(** Tasks that need finitely many polls: the run ends, all of them done. *)
Section SimpleEnds.
Context {F Sh : Type} (poll : F -> Sh -> option F * Sh) (left : F -> nat).
Context (Hleft : forall f s f', (poll f s).1 = Some f' -> (left f' < left f)%nat).

Definition polls_left (q : list F) : Z := foldr (fun f n => 1 + Z.of_nat (left f) + n) 0 q.

Lemma polls_left_app q f : polls_left (q ++ [f]) = polls_left q + 1 + Z.of_nat (left f).
Proof. unfold polls_left. induction q; cbn in *; lia. Qed.

Lemma simple_run_ends {E} q s (X : E -> Sh -> Prop) : polls_left q < 2 ^ 128 -> wp (simple_run poll q) (fun _ _ => True) X s.
Proof.
  intros Hq. apply (wp_forever _ (fun _ _ => True) (fun q _ => polls_left q)); [|clear; intros q s _; unfold polls_left; induction q; cbn; lia|done|done].
  intros [|f q'] s' _; [by apply wp_ret|]. apply wp_bind, wp_get, wp_bind, wp_put, wp_ret. split; [done|].
  pose proof (Hleft f s') as Hl. change (polls_left (f :: q')) with (1 + Z.of_nat (left f) + polls_left q').
  destruct (poll f s').1 as [f'|]; [|lia]. rewrite polls_left_app. specialize (Hl f' eq_refl). lia.
Qed.
End SimpleEnds.
