(* ===== verification/Keyboard.v ===== *)
(** * The keyboard

    [drivers/keyboard.rs] and the keyboard interrupt of [arch/x86_64/interrupts.rs]:
    the interrupt puts scancodes in a queue and wakes the task [process_input], which
    the executor polls and which feeds the console. *)

From stdpp Require Import base numbers list gmap.
From Stdlib Require Import ZArith Lia.
From S2P Require Import Prelude Executor.
#[local] Open Scope Z_scope.

Definition QUEUE_SIZE : nat := 128.

Inductive DecodedKey : Type := Unicode (c : Z) | RawKey.

(** [PS2Keyboard] of the library [pc_keyboard]. *)
Class Decoder (D Event : Type) : Type := {
  decoder_new : D;
  add_byte : Z -> D -> D * option Event;
  process_keyevent : Event -> D -> D * option DecodedKey
}.

(** [SCANCODE_QUEUE] and [WAKER], and what was given to [console::feed_char] so far. *)
Record KbdShared : Type := mkKbd { SCANCODE_QUEUE : option (list Z); WAKER : option Z; fed : list Z }.

(** Where [process_input] is: in [poll_next] at the first [pop], at [register], at the
    second [pop], at [take]; and with a byte for the decoder. *)
Inductive KbdPc : Type := FirstPop | Register | SecondPop | TakeWaker (b : Z) | Decode (b : Z).

(** [init]: [call_once]. *)
Definition keyboard_init (s : KbdShared) : KbdShared :=
  match SCANCODE_QUEUE s with Some _ => s | None => mkKbd (Some []) (WAKER s) (fed s) end.

(** [add_scancode], with the task that [WAKER.wake()] wakes: [AtomicWaker] forgets its
    waker then. *)
Definition add_scancode (b : Z) (s : KbdShared) : KbdShared * list Z :=
  match SCANCODE_QUEUE s with
  | Some q =>
      if (length q <? QUEUE_SIZE)%nat
      then (mkKbd (Some (q ++ [b])) None (fed s), match WAKER s with Some id => [id] | None => [] end)
      else (s, [])
  | None => (s, [])
  end.

(** The timer, and the keyboard with a scancode from port 0x60. *)
Inductive Irq : Type := TimerIrq | KeyboardIrq (b : Z).

Definition keyboard_interrupt_handler (e : Irq) (s : KbdShared) : KbdShared * list Z :=
  match e with TimerIrq => (s, []) | KeyboardIrq b => add_scancode b s end.

Section Keyboard.
Context {D Event : Type} {DC : Decoder D Event}.

Record KbdFuture : Type := mkKbdFuture { at_ : KbdPc; decoder : D }.

(** The body of the loop of [process_input]: the characters for [feed_char]. *)
Definition decode (b : Z) (d : D) : D * list Z :=
  let '(d, ev) := add_byte b d in
  match ev with
  | None => (d, [])
  | Some ev =>
      let '(d, key) := process_keyevent ev d in
      match key with
      | Some (Unicode c) => (d, [c])
      | _ => (d, [])
      end
  end.

(** A step of the poll; [cx.waker()] wakes the task itself. *)
Definition process_input (id : Z) (f : KbdFuture) (s : KbdShared) : Polled KbdFuture * KbdShared * list Z :=
  match SCANCODE_QUEUE s with
  | None => (PollPanics, s, [])
  | Some q =>
      let goes p := Goes (mkKbdFuture p (decoder f)) in
      match at_ f with
      | FirstPop =>
          match q with
          | b :: q' => (goes (Decode b), mkKbd (Some q') (WAKER s) (fed s), [])
          | [] => (goes Register, s, [])
          end
      | Register => (goes SecondPop, mkKbd (Some q) (Some id) (fed s), [])
      | SecondPop =>
          match q with
          | b :: q' => (goes (TakeWaker b), mkKbd (Some q') (WAKER s) (fed s), [])
          | [] => (Pending (mkKbdFuture FirstPop (decoder f)), s, [])
          end
      | TakeWaker b => (goes (Decode b), mkKbd (Some q) None (fed s), [])
      | Decode b =>
          let '(d, cs) := decode b (decoder f) in
          (Goes (mkKbdFuture FirstPop d), mkKbd (Some q) (WAKER s) (fed s ++ cs), [])
      end
  end.

#[export] Instance Kbd_Futures : Futures KbdFuture KbdShared Irq := { poll_step := process_input; irq := keyboard_interrupt_handler }.

(** What the decoder makes of a row of scancodes. *)
Definition decode_all (bs : list Z) : D * list Z :=
  fold_left (fun r b => let '(d, cs) := decode b r.1 in (d, r.2 ++ cs)) bs (decoder_new, []).

Lemma decode_all_app bs b : decode_all (bs ++ [b]) = ((decode b (decode_all bs).1).1, (decode_all bs).2 ++ (decode b (decode_all bs).1).2).
Proof. unfold decode_all. rewrite fold_left_app. cbn. by destruct (decode _ _). Qed.

(** [kernel_main]: the queue is there, the task is spawned. *)
Definition kid : Z := 0.
Definition booted : Executor KbdFuture KbdShared :=
  spawn kid (mkKbdFuture FirstPop decoder_new) (Executor_new (keyboard_init (mkKbd None None []))).

(** A run, with the scancodes the queue had room for. *)
Definition accepted (e : Irq) (s : KbdShared) : list Z :=
  match e, SCANCODE_QUEUE s with
  | KeyboardIrq b, Some q => if (length q <? QUEUE_SIZE)%nat then [b] else []
  | _, _ => []
  end.

Inductive reach : Executor KbdFuture KbdShared -> list Z -> Prop :=
| reach_boot : reach booted []
| reach_run x acc : reach x acc -> reach (run_step x) acc
| reach_irq e x acc : reach x acc -> interruptible (pc x) = true -> reach (interrupt e x) (acc ++ accepted e (shared x)).

(** ** The invariant *)

Definition in_hand (p : KbdPc) : list Z := match p with TakeWaker b | Decode b => [b] | _ => [] end.

Record input_ok (x : Executor KbdFuture KbdShared) (acc : list Z) : Prop := {
  io_task : exists p pre q, tasks x = {[kid := mkKbdFuture p (decode_all pre).1]} /\ SCANCODE_QUEUE (shared x) = Some q /\
    fed (shared x) = (decode_all pre).2 /\ acc = pre ++ in_hand p ++ q /\ (length q <= QUEUE_SIZE)%nat /\
    (* between polls it begins at the first pop; before the second, no wake-up was missed *)
    (pc x <> Polling kid -> p = FirstPop) /\ (pc x = Polling kid -> p = SecondPop -> q = [] -> WAKER (shared x) = Some kid) /\
    (* what waits, the task comes to *)
    (pc x = Polling kid \/ kid ∈ task_queue x \/ (q = [] /\ WAKER (shared x) = Some kid));
  io_waker : WAKER (shared x) = None \/ WAKER (shared x) = Some kid;
  io_ids : Forall (fun id => id = kid) (task_queue x);
  io_polling id : pc x = Polling id -> id = kid
}.

Lemma booted_ok : input_ok booted [].
Proof.
  split; [|by left|cbn; by repeat constructor|done]. exists FirstPop, [], []. split_and!; [done|done|done|done|unfold QUEUE_SIZE; cbn; lia|done|done|]. right. left. by apply list_elem_of_singleton.
Qed.

Lemma run_step_input x acc : input_ok x acc -> input_ok (run_step x) acc.
Proof.
  intros [(p & pre & q & H1 & H2 & H3 & H4 & H5 & H6 & H7 & H8) W I Po]. unfold run_step. destruct (pc x) as [|id| | | | |] eqn:Ep.
  - specialize (H6 ltac:(done)). subst p. destruct H8 as [|H8]; [done|]. destruct (task_queue x) as [|id tq] eqn:Eq.
    + split; cbn; [|done|by rewrite Eq|done]. exists FirstPop, pre, q. rewrite Eq. split_and!; auto; done.
    + apply Forall_cons in I as [-> I]. rewrite H1, lookup_singleton_eq. split; cbn; [|done|done|by intros id [= <-]]. exists FirstPop, pre, q. split_and!; auto; done.
  - specialize (Po id eq_refl) as ->. rewrite H1, lookup_singleton_eq. cbn [poll_step Kbd_Futures]. unfold process_input. rewrite H2. cbn [at_ decoder].
    destruct p as [| | |b|b].
    + destruct q as [|b q]; cbn [wake_all fold_left]; (split; cbn; [|done|done|by rewrite Ep; intros id [= <-]]); rewrite H1, insert_singleton, Ep.
      * exists Register, pre, []. by split_and!; auto.
      * exists (Decode b), pre, q. cbn in H5. split_and!; auto; try done. lia.
    + cbn [wake_all fold_left]. split; cbn; [|by right|done|by rewrite Ep; intros id [= <-]]. rewrite H1, insert_singleton, Ep. exists SecondPop, pre, q. by split_and!; auto.
    + destruct q as [|b q]; cbn [wake_all fold_left].
      * split; cbn; [|done|done|done]. rewrite H1, insert_singleton. exists FirstPop, pre, []. split_and!; auto; done.
      * split; cbn; [|done|done|by rewrite Ep; intros id [= <-]]. rewrite H1, insert_singleton, Ep. exists (TakeWaker b), pre, q. cbn in H5. split_and!; auto; try done. lia.
    + cbn [wake_all fold_left]. split; cbn; [|by left|done|by rewrite Ep; intros id [= <-]]. rewrite H1, insert_singleton, Ep. exists (Decode b), pre, q. by split_and!; auto.
    + pose proof (decode_all_app pre b) as Hd. destruct (decode b (decode_all pre).1) as [d cs] eqn:Ed. cbn [fst snd] in Hd. cbn [wake_all fold_left].
      split; cbn; [|done|done|by rewrite Ep; intros id [= <-]]. rewrite H1, insert_singleton, Ep. exists FirstPop, (pre ++ [b]), q. rewrite Hd. cbn [fst snd].
      split_and!; auto; [by rewrite H3|rewrite H4; by rewrite <- app_assoc|done].
  - specialize (H6 ltac:(done)). destruct H8 as [|H8]; [done|]. split; cbn; [|done|done|done]. exists p, pre, q. split_and!; auto; done.
  - specialize (H6 ltac:(done)). destruct H8 as [|H8]; [done|]. split; cbn; [|done|done|done]. exists p, pre, q. split_and!; auto; done.
  - specialize (H6 ltac:(done)). split; cbn; [|done|done|by destruct (task_queue x)]. exists p, pre, q. destruct H8 as [|H8]; [done|]. split_and!; auto; by destruct (task_queue x).
  - split; [|done|done|congruence]. exists p, pre, q. rewrite Ep. by split_and!.
  - split; [|done|done|congruence]. exists p, pre, q. rewrite Ep. by split_and!.
Qed.

Lemma interrupt_input e x acc : input_ok x acc -> interruptible (pc x) = true ->
  pc (interrupt e x) = Panicked \/ input_ok (interrupt e x) (acc ++ accepted e (shared x)).
Proof.
  intros [(p & pre & q & H1 & H2 & H3 & H4 & H5 & H6 & H7 & H8) W I Po] Hi. unfold interrupt.
  set (x0 := match pc x with Halted => set_pc Popping x | _ => x end).
  assert (X0 : tasks x0 = tasks x /\ task_queue x0 = task_queue x /\ shared x0 = shared x /\ (pc x0 = Polling kid <-> pc x = Polling kid) /\ (forall id, pc x0 = Polling id -> id = kid)).
  { unfold x0. destruct (pc x) eqn:Ep; cbn; rewrite ?Ep; split_and!; try done; split; congruence. }
  destruct X0 as (X1 & X2 & X3 & X4 & X5). destruct e as [|b]; cbn [irq Kbd_Futures keyboard_interrupt_handler accepted].
  { right. cbn [wake_all fold_left]. rewrite app_nil_r. split; cbn; rewrite ?X1, ?X2; [|done|done|done]. exists p, pre, q. rewrite X4. by split_and!. }
  unfold add_scancode. rewrite H2. destruct (length q <? QUEUE_SIZE)%nat eqn:Eq; zbool.
  2:{ right. cbn [wake_all fold_left]. rewrite app_nil_r. split; cbn; rewrite ?X1, ?X2; [|done|done|done]. exists p, pre, q. rewrite X4. by split_and!. }
  set (x1 := set_shared _ x0).
  assert (Hgen : forall x', tasks x' = tasks x -> shared x' = shared x1 -> pc x' = pc x0 -> Forall (fun id => id = kid) (task_queue x') -> (pc x = Polling kid \/ kid ∈ task_queue x') ->
    input_ok x' (acc ++ [b])).
  { intros x' G1 G2 G3 G4 G5. split; rewrite ?G1, ?G2, ?G3; cbn; [|by left|done|done]. exists p, pre, (q ++ [b]). rewrite X4.
    split_and!; auto; [by rewrite H4, <- !app_assoc|rewrite length_app; cbn; lia|intros _ _ Hn; by destruct q|]. destruct G5; auto. }
  destruct W as [W|W]; rewrite W; cbn [wake_all fold_left].
  - right. apply Hgen; cbn; [done|done|done|by rewrite X2|]. rewrite X2. destruct H8 as [|[|[_ H8]]]; auto. congruence.
  - unfold wake_task. destruct (length (task_queue x1) <? _)%nat; [right|by left]. apply Hgen; cbn; [done|done|done| |].
    + rewrite X2. apply Forall_app. split; [done|by repeat constructor].
    + right. apply elem_of_app. right. by apply list_elem_of_singleton.
Qed.

Lemma reach_ok x acc : reach x acc -> pc x = Panicked \/ input_ok x acc.
Proof.
  induction 1 as [|x acc _ IH|e x acc _ IH Hi]; [right; apply booted_ok| |].
  - destruct IH as [IH|IH]; [left; unfold run_step; by rewrite IH|right; by apply run_step_input].
  - destruct IH as [IH|IH]; [by rewrite IH in Hi|by apply interrupt_input].
Qed.

Lemma booted_exec_ok : exec_ok booted.
Proof. split; [change (1 <= TASK_QUEUE_SIZE)%nat; unfold TASK_QUEUE_SIZE; lia|done|done|done]. Qed.

Lemma reach_exec_ok x acc : reach x acc -> exec_ok x.
Proof. induction 1; [apply booted_exec_ok|by apply run_step_ok|by apply interrupt_ok]. Qed.

(** ** Progress *)

Definition pc_weight (p : KbdPc) : nat :=
  match p with FirstPop => 7 | Register => 6 | SecondPop => 5 | TakeWaker _ => 9 | Decode _ => 8 end.

Definition weight (x : Executor KbdFuture KbdShared) : nat :=
  (6 * length (default [] (SCANCODE_QUEUE (shared x))) + 6 * length (task_queue x) +
   match pc x with
   | Polling id => match tasks x !! id with Some f => pc_weight (at_ f) | None => 0 end
   | Popping => 4
   | Reaping => match task_queue x with [] => 3 | _ => 7 end
   | Disabling => match task_queue x with [] => 2 | _ => 6 end
   | Checking => match task_queue x with [] => 1 | _ => 5 end
   | Halted | Panicked => 0
   end)%nat.

#[local] Ltac fields := cbn [wake_all fold_left set_pc set_tasks set_queue set_cache set_shared tasks task_queue shared pc SCANCODE_QUEUE default length at_ pc_weight].

Lemma run_step_weight x acc : input_ok x acc -> pc x <> Panicked -> pc x <> Halted -> (weight (run_step x) < weight x)%nat /\ pc (run_step x) <> Panicked.
Proof.
  intros [(p & pre & q & H1 & H2 & _) W I Po] Hp Hh. unfold run_step, weight. rewrite H2. destruct (pc x) as [|id| | | | |] eqn:Ep; try done.
  - destruct (task_queue x) as [|id tq] eqn:Eq; [fields; rewrite Eq, H2; fields; split; [lia|done]|]. apply Forall_cons in I as [-> _]. rewrite H1, lookup_singleton_eq. fields.
    rewrite H1, H2, lookup_singleton_eq. fields. split; [|done]. destruct p; fields; lia.
  - specialize (Po id eq_refl) as ->. rewrite H1, lookup_singleton_eq. cbn [poll_step Kbd_Futures]. unfold process_input. rewrite H2. fields. cbn [decoder].
    destruct p as [| | |b|b]; [destruct q as [|b q]| |destruct q as [|b q]| |destruct (decode b (decode_all pre).1) as [d cs]];
      fields; rewrite ?H1, ?Ep, ?H2; try rewrite lookup_insert_eq; fields; unfold id; fields; (split; [lia|done]).
  - fields. rewrite H2. destruct (task_queue x); fields; (split; [lia|done]).
  - fields. rewrite H2. destruct (task_queue x); fields; (split; [lia|done]).
  - destruct (task_queue x) eqn:Eq; fields; rewrite Eq, H2; fields; (split; [lia|done]).
Qed.

Lemma runs_to_halt n : forall x acc, input_ok x acc -> pc x <> Panicked -> (weight x <= n)%nat ->
  exists k, pc (Nat.iter k run_step x) = Halted /\ input_ok (Nat.iter k run_step x) acc.
Proof.
  induction n as [|n IH]; intros x acc Hi Hp Hw; (destruct (decide (pc x = Halted)) as [Hh|Hh]; [by exists 0%nat|]).
  - destruct (run_step_weight x acc Hi Hp Hh). lia.
  - destruct (run_step_weight x acc Hi Hp Hh) as [Hlt Hp']. destruct (IH (run_step x) acc) as (k & H1 & H2); [by apply run_step_input|done|lia|].
    exists (S k). rewrite Nat.iter_succ_r. done.
Qed.

(** [iter] of the thread alone is a run. *)
Lemma reach_iter k x acc : reach x acc -> reach (Nat.iter k run_step x) acc.
Proof. intros R. induction k; [done|]. cbn. by constructor. Qed.

(** ** Properties *)

End Keyboard.

(** ** A decoder, and witnesses *)

#[export] Instance PlainDecoder : Decoder unit Z := {
  decoder_new := tt; add_byte b d := (d, Some b); process_keyevent e d := (d, Some (Unicode e))
}.

Lemma reach_runs {D Event} {DC : Decoder D Event} k x acc : reach x acc -> reach (Nat.iter k run_step x) acc.
Proof. apply reach_iter. Qed.

(** Two keys, the second between the task's registration and its second look. *)
Definition two_keys : Executor KbdFuture KbdShared :=
  interrupt (KeyboardIrq 66) (Nat.iter 3 run_step (interrupt (KeyboardIrq 65) (run_step (run_step booted)))).

Lemma two_keys_reached : reach two_keys [65; 66].
Proof.
  unfold two_keys. change [65; 66] with (([] ++ [65]) ++ [66]).
  assert (R1 : reach (interrupt (KeyboardIrq 65) (run_step (run_step booted))) ([] ++ [65])) by (apply (reach_irq (KeyboardIrq 65)); [repeat constructor|reflexivity]).
  apply (reach_irq (KeyboardIrq 66) (Nat.iter 3 run_step _) _ (reach_runs 3 _ _ R1)). reflexivity.
Qed.


Lemma rtc_runs k (x y : Executor KbdFuture KbdShared) : rtc step x y -> rtc step x (Nat.iter k run_step y).
Proof. intros R. induction k as [|k IH]; [exact R|]. eapply rtc_r; [exact IH|]. apply (step_run (Nat.iter k run_step y)). Qed.

Lemma rtc_irq e (x y : Executor KbdFuture KbdShared) : rtc step x y -> interruptible (pc y) = true -> rtc step x (interrupt e y).
Proof. intros R H. eapply rtc_r; [exact R|]. by apply step_irq. Qed.

Lemma two_keys_steps : rtc step booted two_keys.
Proof.
  unfold two_keys. apply rtc_irq; [|reflexivity]. apply (rtc_runs 3). apply rtc_irq; [|reflexivity]. apply (rtc_runs 2 booted booted), rtc_refl.
Qed.


(** A key between [register] and the second [pop], over and over. *)
Definition race (x : Executor KbdFuture KbdShared) : Executor KbdFuture KbdShared :=
  Nat.iter 3 run_step (interrupt (KeyboardIrq 30) (Nat.iter 2 run_step x)).

Definition raced (n : nat) : Executor KbdFuture KbdShared := Nat.iter n race (run_step booted).

Lemma raced_open : forallb (fun n => interruptible (pc (Nat.iter 2 run_step (raced n)))) (seq 0 101) = true.
Proof. vm_compute. reflexivity. Qed.

Lemma raced_reached n : (n <= 100)%nat -> exists acc, reach (raced n) acc.
Proof.
  induction n as [|n IH]; intros Hn; [exists []; repeat constructor|]. destruct IH as [acc R]; [lia|]. change (raced (S n)) with (race (raced n)). unfold race.
  eexists. apply reach_runs, reach_irq; [apply reach_runs; exact R|]. pose proof raced_open as H. rewrite forallb_forall in H. apply H, in_seq. lia.
Qed.

Lemma raced_panics : pc (interrupt (KeyboardIrq 30) (Nat.iter 2 run_step (raced 100))) = Panicked.
Proof. vm_compute. reflexivity. Qed.

(** A burst of keys can panic the kernel: a scancode that comes between [register] and
    the second [pop] wakes the task, which finds the byte and goes on in the same
    poll, so the wake-up stays behind in the ready queue; after a hundred such keys
    the queue is full, and the next one panics in the interrupt handler. *)
Theorem key_burst_panics : exists (x : Executor KbdFuture KbdShared) acc, reach x acc /\ pc x = Panicked.
Proof.
  destruct (raced_reached 100 ltac:(lia)) as [acc R]. exists (interrupt (KeyboardIrq 30) (Nat.iter 2 run_step (raced 100))). eexists. split; [|exact raced_panics].
  apply reach_irq; [apply reach_runs; exact R|]. pose proof raced_open as H. rewrite forallb_forall in H. apply H, in_seq. lia.
Qed.
