(* ===== verification/Serial.v ===== *)
(** * The serial port

    [drivers/serial.rs]: COM1, a 16550 UART behind I/O ports. *)

From stdpp Require Import base numbers list gmap.
From Stdlib Require Import ZArith Lia.
From S2P Require Import Prelude Pci.
#[local] Open Scope Z_scope.

Definition COM1_BASE : Z := 0x3F8.

(** What is behind the ports, and whether [SERIAL1] was initialised. *)
Record SerialWorld (V : Type) : Type := mkSerial { sv : V; SERIAL1 : bool }.
Arguments mkSerial {V} sv SERIAL1.
Arguments sv {V} s.
Arguments SERIAL1 {V} s.

Section Serial.
Context {V : Type} {P : PortIO V}.
#[local] Abbreviation sprog E A := (prog (SerialWorld V) E A).

Definition outb {E} (port x : Z) : sprog E unit := pmodify (fun w => mkSerial (port_out 1 port x (sv w)) (SERIAL1 w)).
Definition inb {E} (port : Z) : sprog E Z :=
  let! w := pget in
  let '(x, v) := port_in 1 port (sv w) in
  pput (mkSerial v (SERIAL1 w)) ;;! pret x.

Definition init {E} (base : Z) : sprog E unit :=
  outb (base + 1) 0x00 ;;!
  outb (base + 3) 0x80 ;;!
  outb base 0x03 ;;!
  outb (base + 1) 0x00 ;;!
  outb (base + 3) 0x03 ;;!
  outb (base + 2) 0xC7 ;;!
  outb (base + 4) 0x0B.

Definition is_transmit_empty {E} (base : Z) : sprog E bool :=
  let! x := inb (base + 5) in pret (negb (Z.land x 0x20 =? 0)).

Definition send_byte {E} (base : Z) (b : byte) : sprog E unit :=
  forever (fun _ : unit => let! empty := is_transmit_empty base in pret (if (empty : bool) then inr tt else inl tt)) tt ;;!
  outb base (b2z b).

(** [SERIAL1.lock()]: the first use initialises the port. *)
Definition serial1 {E} : sprog E Z :=
  let! w := pget in
  (if SERIAL1 w then pret tt else init COM1_BASE ;;! pmodify (fun w => mkSerial (sv w) true)) ;;!
  pret COM1_BASE.

Definition write_bytes {E} (bytes : list byte) : sprog E unit :=
  let! port := serial1 in
  pfold (fun _ b => send_byte port b) bytes tt.

(** [_print], of the text that the arguments make: [write_str]. *)
Definition print {E} (text : list byte) : sprog E unit :=
  let! port := serial1 in
  pfold (fun _ b => send_byte port b) text tt.
End Serial.

(** ** The chip *)

(** A 16550 at a base port: the interrupt enable, line, FIFO and modem control
    registers, the divisor, whether the transmitter was seen empty, and the bytes
    that went out. *)
Record Uart16550 : Type := mkUart { IER : Z; LCR : Z; FCR : Z; MCR : Z; DLL : Z; DLM : Z; empty : bool; line : list Z }.

Definition DLAB (u : Uart16550) : bool := Z.testbit (LCR u) 7.

(** A write to a register; register 0 is the data register or, with DLAB, the low
    half of the divisor. *)
Definition uart_write (r x : Z) (u : Uart16550) : Uart16550 :=
  if r =? 0 then
    if DLAB u then mkUart (IER u) (LCR u) (FCR u) (MCR u) x (DLM u) (empty u) (line u)
    else mkUart (IER u) (LCR u) (FCR u) (MCR u) (DLL u) (DLM u) false (line u ++ [x])
  else if r =? 1 then
    if DLAB u then mkUart (IER u) (LCR u) (FCR u) (MCR u) (DLL u) x (empty u) (line u)
    else mkUart x (LCR u) (FCR u) (MCR u) (DLL u) (DLM u) (empty u) (line u)
  else if r =? 2 then mkUart (IER u) (LCR u) x (MCR u) (DLL u) (DLM u) (empty u) (line u)
  else if r =? 3 then mkUart (IER u) x (FCR u) (MCR u) (DLL u) (DLM u) (empty u) (line u)
  else if r =? 4 then mkUart (IER u) (LCR u) (FCR u) x (DLL u) (DLM u) (empty u) (line u)
  else u.

Definition set_empty (b : bool) (u : Uart16550) : Uart16550 := mkUart (IER u) (LCR u) (FCR u) (MCR u) (DLL u) (DLM u) b (line u).

Class Uart (V : Type) {P : PortIO V} : Type := { uart_at : V -> Z -> Uart16550 -> Prop; uart_busy : V -> nat }.

(** A write to the data register is good once the transmitter was seen empty; it
    becomes so after finitely many looks. *)
Class UartLaws (V : Type) {P : PortIO V} {UV : Uart V} : Prop := {
  uart_out v base u r x : uart_at v base u -> 0 <= r <= 4 -> (r = 0 -> DLAB u = false -> empty u = true) ->
    uart_at (port_out 1 (base + r) x v) base (uart_write r x u);
  uart_status v base u x v' : uart_at v base u -> port_in 1 (base + 5) v = (x, v') ->
    uart_at v' base (if Z.testbit x 5 then set_empty true u else u) /\ (Z.testbit x 5 = false -> (uart_busy v' < uart_busy v)%nat);
  uart_prompt v base u : uart_at v base u -> Z.of_nat (uart_busy v) < 2 ^ 64
}.

(** 38400 baud, 8N1, FIFOs on, no interrupts. *)
Definition configured (u : Uart16550) : Prop := IER u = 0 /\ LCR u = 3 /\ FCR u = 0xC7 /\ MCR u = 0x0B /\ DLL u = 3 /\ DLM u = 0.

Section Theorems.
Context {V : Type} {P : PortIO V} {UV : Uart V} {UL : UartLaws V}.
Implicit Types w : SerialWorld V.

(** [SERIAL1], if it is initialised, is set up; before, the chip is as after reset. *)
Definition serial_ok w (sent : list Z) : Prop :=
  exists u, uart_at (sv w) COM1_BASE u /\ line u = sent /\ if SERIAL1 w then configured u else DLAB u = false.

Lemma wp_outb {E} base r x u w (Q : unit -> SerialWorld V -> Prop) (X : E -> SerialWorld V -> Prop) :
  uart_at (sv w) base u -> 0 <= r <= 4 -> (r = 0 -> DLAB u = false -> empty u = true) ->
  (forall v, uart_at v base (uart_write r x u) -> Q tt (mkSerial v (SERIAL1 w))) -> wp (outb (base + r) x) Q X w.
Proof. intros Hu Hr He HQ. apply wp_modify, HQ. by apply uart_out. Qed.

Lemma wp_serial_init {E} w u (Q : unit -> SerialWorld V -> Prop) (X : E -> SerialWorld V -> Prop) :
  uart_at (sv w) COM1_BASE u -> DLAB u = false ->
  (forall v u', uart_at v COM1_BASE u' -> line u' = line u -> configured u' -> Q tt (mkSerial v (SERIAL1 w))) -> wp (init COM1_BASE) Q X w.
Proof.
  intros Hu Hd HQ. unfold init.
  apply wp_bind. eapply wp_outb; [exact Hu|done|done|]. intros v1 H1. unfold uart_write at 1 in H1. rewrite Hd in H1. cbn -[Z.testbit] in H1.
  apply wp_bind. eapply wp_outb; [exact H1|done|done|]. intros v2 H2. cbn in H2.
  apply wp_bind. change (outb COM1_BASE 3) with (outb (V := V) (E := E) (COM1_BASE + 0) 3). eapply wp_outb; [exact H2|done|done|]. intros v3 H3. cbn in H3.
  apply wp_bind. eapply wp_outb; [exact H3|done|done|]. intros v4 H4. cbn in H4.
  apply wp_bind. eapply wp_outb; [exact H4|done|done|]. intros v5 H5. cbn in H5.
  apply wp_bind. eapply wp_outb; [exact H5|done|done|]. intros v6 H6. cbn in H6.
  eapply wp_outb; [exact H6|done|done|]. intros v7 H7. cbn in H7. by eapply HQ.
Qed.

Lemma bit_5 x : negb (Z.land x 0x20 =? 0) = Z.testbit x 5.
Proof.
  change 0x20 with (2 ^ 5). destruct (Z.testbit x 5) eqn:E.
  - apply negb_true_iff, Z.eqb_neq. intros H. assert (Hb : Z.testbit (Z.land x (2 ^ 5)) 5 = false) by (by rewrite H). by rewrite Z.land_spec, E in Hb.
  - apply negb_false_iff, Z.eqb_eq. apply Z.bits_inj'. intros n Hn. rewrite Z.land_spec, Z.bits_0, Z.pow2_bits_eqb by lia.
    destruct (5 =? n) eqn:En; zbool; [by subst n; rewrite E|apply andb_false_r].
Qed.

Lemma wp_send_byte {E} b w sent (X : E -> SerialWorld V -> Prop) : serial_ok w sent -> SERIAL1 w = true ->
  wp (send_byte COM1_BASE b) (fun _ w' => serial_ok w' (sent ++ [b2z b]) /\ SERIAL1 w' = true) X w.
Proof.
  intros (u & Hu & Hl & Hc) Hs. rewrite Hs in Hc. apply wp_bind.
  eapply (wp_mono _ (fun _ w' => exists u', uart_at (sv w') COM1_BASE u' /\ line u' = sent /\ configured u' /\ empty u' = true /\ SERIAL1 w' = true) _ (fun _ _ => False)); [| |done].
  - apply (wp_forever _ (fun _ w' => uart_at (sv w') COM1_BASE u /\ SERIAL1 w' = true) (fun _ w' => Z.of_nat (uart_busy (sv w')))).
    + intros [] w' [Hu' Hs']. apply wp_bind, wp_bind. unfold inb. apply wp_bind, wp_get. destruct (port_in 1 (COM1_BASE + 5) (sv w')) as [x v'] eqn:Ex.
      apply wp_bind, wp_put, wp_ret, wp_ret, wp_ret. rewrite bit_5. destruct (uart_status _ _ _ _ _ Hu' Ex) as [H1 H2]. destruct (Z.testbit x 5).
      * exists (set_empty true u). by split_and!.
      * split; [done|]. specialize (H2 eq_refl). cbn. lia.
    + intros _ w' _. lia.
    + done.
    + pose proof (uart_prompt _ _ _ Hu). lia.
  - intros _ w' (u' & H1 & H2 & H3 & H4 & H5). rewrite <- (Z.add_0_r COM1_BASE). eapply wp_outb; [exact H1|done|done|]. intros v Hv. split; [|done].
    assert (Hd : DLAB u' = false) by (destruct H3 as (_ & HL & _); unfold DLAB; by rewrite HL). unfold uart_write in Hv. rewrite Hd in Hv. cbn in Hv.
    eexists. split; [exact Hv|]. cbn. rewrite H5. split; [by rewrite H2|]. exact H3.
Qed.

Lemma wp_serial1 {E} w sent (Q : Z -> SerialWorld V -> Prop) (X : E -> SerialWorld V -> Prop) : serial_ok w sent ->
  (forall w', serial_ok w' sent -> SERIAL1 w' = true -> Q COM1_BASE w') -> wp serial1 Q X w.
Proof.
  intros (u & Hu & Hl & Hc) HQ. apply wp_bind, wp_get. apply wp_bind. destruct (SERIAL1 w) eqn:Es.
  - apply wp_ret, wp_ret, HQ; [|done]. exists u. by rewrite Es.
  - apply wp_bind. eapply wp_serial_init; [done|done|]. intros v u' H1 H2 H3. apply wp_modify, wp_ret, HQ; [|done]. exists u'. cbn. by rewrite H2.
Qed.

(** [write_bytes] and [_print] on a 16550 that is as after reset, or was used before:
    the first use sets it to 38400 baud, 8N1, FIFOs on and interrupts off, and every
    use puts exactly the bytes given on the line, in order, after what went out
    before, writing the data register only when the transmitter is empty.  It always
    ends. *)
Theorem serial_exact w sent bytes text : serial_ok w sent ->
  wp (write_bytes bytes ;;! print text : prog (SerialWorld V) Empty_set unit)
    (fun _ w' => serial_ok w' (sent ++ map b2z bytes ++ map b2z text) /\ SERIAL1 w' = true) (fun _ _ => False) w.
Proof.
  intros Hw. assert (Hall : forall l w1 sent1, serial_ok w1 sent1 -> SERIAL1 w1 = true ->
    wp (pfold (fun _ b => send_byte COM1_BASE b) l tt : prog (SerialWorld V) Empty_set unit) (fun _ w' => serial_ok w' (sent1 ++ map b2z l) /\ SERIAL1 w' = true) (fun _ _ => False) w1).
  { induction l as [|b l IH]; intros w1 sent1 H1 H2; cbn [pfold map]; [apply wp_ret; by rewrite app_nil_r|].
    apply wp_bind. eapply wp_mono; [by apply (wp_send_byte b w1 sent1 (fun _ _ => False))| |done]. intros [] w2 [H3 H4].
    eapply wp_mono; [by apply IH| |done]. intros [] w3 H5. by rewrite <- app_assoc in H5. }
  apply wp_bind, wp_bind. eapply wp_serial1; [done|]. intros w1 H1 H2. eapply wp_mono; [by apply Hall| |done]. intros [] w2 [H3 H4].
  apply wp_bind. eapply wp_serial1; [done|]. intros w3 H5 H6. eapply wp_mono; [by apply Hall| |done]. intros [] w4. by rewrite <- app_assoc.
Qed.
End Theorems.

(** ** A chip that is busy for two looks after each byte *)

Record SimUart : Type := mkSimUart { su : Uart16550; su_busy : nat }.

#[export] Instance SimUart_Ports : PortIO SimUart := {
  port_in _ p s := if p =? COM1_BASE + 5 then match su_busy s with O => (0x20, mkSimUart (set_empty true (su s)) 0) | S n => (0, mkSimUart (su s) n) end else (0, s);
  port_out _ p x s := mkSimUart (uart_write (p - COM1_BASE) x (su s)) 2
}.
#[export] Instance SimUart_Uart : Uart SimUart := { uart_at s base u := base = COM1_BASE /\ u = su s /\ (su_busy s <= 2)%nat; uart_busy := su_busy }.
#[export] Instance SimUart_Laws : UartLaws SimUart.
Proof.
  split.
  - intros s base u r x (-> & -> & _) _ _. cbn. split_and!; [done|f_equal; lia|lia].
  - intros s base u x v' (-> & -> & Hb). cbn. rewrite Z.eqb_refl. destruct (su_busy s) as [|n] eqn:En; intros [= <- <-]; cbn; (split; [split; [done|split; [done|lia]]|]); [done|lia].
  - intros s base u (_ & _ & Hb). cbn. lia.
Qed.

Definition uart_reset : SerialWorld SimUart := mkSerial (mkSimUart (mkUart 0 0 0 0 0 0 false []) 0) false.

Lemma serial_exact_witness :
  fst ((write_bytes (bs "hi") ;;! print (bs "!") : prog (SerialWorld SimUart) Empty_set unit) uart_reset) = Ret tt /\
  wp (write_bytes (bs "hi") ;;! print (bs "!") : prog (SerialWorld SimUart) Empty_set unit)
    (fun _ w' => serial_ok w' [104; 105; 33] /\ SERIAL1 w' = true) (fun _ _ => False) uart_reset.
Proof.
  split; [vm_compute; reflexivity|]. apply (serial_exact uart_reset [] (bs "hi") (bs "!")). exists (mkUart 0 0 0 0 0 0 false []). cbn. split; [|split; reflexivity]. split; [reflexivity|split; [reflexivity|lia]].
Defined.
