(* ===== verification/NetStack.v ===== *)
(** * The interface of the socket layer

    What the file layer uses of [net/socket.rs].  A handle names a socket of
    the shared stack; errors are positive [errno] values. *)

From stdpp Require Import base list gmap.
From Stdlib Require Import ZArith.
From S2P Require Import Prelude.
#[local] Open Scope Z_scope.

Inductive SockKind : Type := Udp | Tcp.

#[export] Instance SockKind_eq_dec : EqDecision SockKind.
Proof. solve_decision. Defined.

(** An address is its four octets; a receive gives the bytes it put at the
    front of a buffer of the given size. *)
Class NetStack (N : Type) : Type := {
  udp_socket : prog N Z Z;
  tcp_socket : prog N Z Z;
  close_socket : Z -> prog N Empty_set unit;
  udp_bind : Z -> Z -> prog N Z unit;
  udp_sendto : Z -> list byte -> list byte -> Z -> prog N Z Z;
  udp_recvfrom : Z -> nat -> prog N Z (list byte * list byte * Z);
  tcp_connect : Z -> list byte -> Z -> prog N Z unit;
  tcp_send : Z -> list byte -> prog N Z Z;
  tcp_recv : Z -> nat -> prog N Z (list byte)
}.

(** What holds of the operations in a state [n], for a view [sockets] of which
    sockets there are.  An operation on one of them, of its kind, does not panic, and
    only the first two and [close_socket] change which there are; a receive fits its
    buffer. *)
Record socket_laws {N : Type} {NS : NetStack N} (sockets : N -> gmap Z SockKind) (n : N) : Prop := {
  sl_udp_socket :
    wp udp_socket (fun h n' => sockets n !! h = None /\ sockets n' = <[h := Udp]> (sockets n)) (fun _ n' => sockets n' = sockets n) n;
  sl_tcp_socket :
    wp tcp_socket (fun h n' => sockets n !! h = None /\ sockets n' = <[h := Tcp]> (sockets n)) (fun _ n' => sockets n' = sockets n) n;
  sl_close_socket h :
    is_Some (sockets n !! h) -> wp (close_socket h) (fun _ n' => sockets n' = delete h (sockets n)) (fun _ _ => False) n;
  sl_udp_bind h p :
    sockets n !! h = Some Udp -> wp (udp_bind h p) (fun _ n' => sockets n' = sockets n) (fun _ n' => sockets n' = sockets n) n;
  sl_udp_sendto h d ip p : sockets n !! h = Some Udp ->
    wp (udp_sendto h d ip p) (fun _ n' => sockets n' = sockets n) (fun _ n' => sockets n' = sockets n) n;
  sl_udp_recvfrom h cap : sockets n !! h = Some Udp ->
    wp (udp_recvfrom h cap) (fun r n' => (length r.1.1 <= cap)%nat /\ sockets n' = sockets n) (fun _ n' => sockets n' = sockets n) n;
  sl_tcp_connect h ip p : sockets n !! h = Some Tcp ->
    wp (tcp_connect h ip p) (fun _ n' => sockets n' = sockets n) (fun _ n' => sockets n' = sockets n) n;
  sl_tcp_send h d : sockets n !! h = Some Tcp ->
    wp (tcp_send h d) (fun _ n' => sockets n' = sockets n) (fun _ n' => sockets n' = sockets n) n;
  sl_tcp_recv h cap : sockets n !! h = Some Tcp ->
    wp (tcp_recv h cap) (fun r n' => (length r <= cap)%nat /\ sockets n' = sockets n) (fun _ n' => sockets n' = sockets n) n
}.

Class NetStackLaws (N : Type) {NS : NetStack N} : Type := {
  sockets : N -> gmap Z SockKind;
  sockets_laws n : socket_laws sockets n
}.

(** ** An instance

    A stack without a network: sockets open, nothing arrives. *)

Definition idle_open (k : SockKind) : prog (gmap Z SockKind) Z Z :=
  let! m := pget in let h := fresh (dom m) in pput (<[h := k]> m) ;;! pret h.

#[export] Instance IdleStack : NetStack (gmap Z SockKind) := {
  udp_socket := idle_open Udp;
  tcp_socket := idle_open Tcp;
  close_socket h := let! m := pget in passert (bool_decide (is_Some (m !! h))) ;;! pput (delete h m);
  udp_bind _ _ := pret tt;
  udp_sendto _ data _ _ := pret (Z.of_nat (length data));
  udp_recvfrom _ _ := pfail 11;
  tcp_connect _ _ _ := pfail 111;
  tcp_send _ _ := pfail 107;
  tcp_recv _ _ := pret []
}.

#[export] Instance IdleStackLaws : NetStackLaws (gmap Z SockKind).
Proof.
  exists (fun m => m). intros n. split; intros; try done.
  1,2: unfold wp; cbn; split; [apply not_elem_of_dom, is_fresh|done].
  - unfold wp, close_socket, IdleStack, pbind, pget, passert. by rewrite bool_decide_true.
  - unfold wp. cbn. split; [lia|done].
Defined.
