(* ===== verification/Dns.v ===== *)
(** * Names and addresses

    [net/dns.rs]: a query for an address record and the first address of an answer.
    A position is a [usize]; an index outside the message panics where the code
    indexes and gives [None] (a [Fail]) where it uses [get]. *)

From stdpp Require Import base numbers list gmap.
From Stdlib Require Import ZArith Lia.
From S2P Require Import Prelude.
#[local] Open Scope Z_scope.

Definition QTYPE_A : Z := 1.
Definition QCLASS_IN : Z := 1.

Definition dprog (A : Type) : Type := prog unit unit A.

(** [?] on an [Option], and the checked and the plain [+] of [usize]. *)
Definition try_opt {A} (o : option A) : dprog A := pok_or o tt.
Definition checked_add (a b : nat) : dprog nat :=
  if Z.of_nat a + Z.of_nat b <? U64 then pret (a + b)%nat else pfail tt.
Definition plus_usize (a b : nat) : dprog nat :=
  passert (Z.of_nat a + Z.of_nat b <? U64) ;;! pret (a + b)%nat.

Definition be16 (hi lo : byte) : Z := b2z hi * 256 + b2z lo.
Definition to_be16 (x : Z) : list byte := [z2b (x / 256); z2b (x mod 256)].

(** [write], with the buffer and the position it moves. *)
Definition write (out : list byte) (pos : nat) (bytes : list byte) : dprog (list byte * nat) :=
  let! end_ := checked_add pos (length bytes) in
  if (length out <? end_)%nat then pfail tt
  else pret (take pos out ++ bytes ++ drop end_ out, end_).

(** [str::strip_suffix] and [str::split] at the dot. *)
Definition DOT : byte := x2e.
Definition strip_dot (s : list byte) : list byte :=
  match last s with Some c => if Byte.eqb c DOT then take (length s - 1) s else s | None => s end.
Fixpoint split_dot (s : list byte) : list (list byte) :=
  match s with
  | [] => [[]]
  | c :: s' =>
      if Byte.eqb c DOT then [] :: split_dot s'
      else match split_dot s' with [] => [[c]] | l :: ls => (c :: l) :: ls end
  end.

Fixpoint write_labels (labels : list (list byte)) (out : list byte) (pos : nat) : dprog (list byte * nat) :=
  match labels with
  | [] => pret (out, pos)
  | label :: labels' =>
      if (length label =? 0)%nat || (63 <? length label)%nat then pfail tt
      else
        let! '(out, pos) := write out pos [z2b (Z.of_nat (length label))] in
        let! '(out, pos) := write out pos label in
        write_labels labels' out pos
  end.

Definition build_query (id : Z) (hostname : list byte) (out : list byte) : dprog (list byte * nat) :=
  let! '(out, pos) := write out 0 (to_be16 id) in
  let! '(out, pos) := write out pos [x01; x00] in
  let! '(out, pos) := write out pos [x00; x01] in
  let! '(out, pos) := write out pos [x00; x00; x00; x00; x00; x00] in
  let! '(out, pos) := write_labels (split_dot (strip_dot hostname)) out pos in
  let! '(out, pos) := write out pos [x00] in
  let! '(out, pos) := write out pos (to_be16 QTYPE_A) in
  write out pos (to_be16 QCLASS_IN).

Definition index (msg : list byte) (i : nat) : dprog byte := punwrap (msg !! i).
Definition get (msg : list byte) (i : nat) : dprog byte := try_opt (msg !! i).

Fixpoint skip_name_loop (fuel : nat) (msg : list byte) (pos : nat) : dprog nat :=
  match fuel with
  | O => pdiverge
  | S f =>
      let! len := get msg pos in
      if Z.land (b2z len) 0xc0 =? 0xc0 then
        let! p := plus_usize pos 1 in
        let! _ := get msg p in
        plus_usize pos 2
      else if b2z len =? 0 then plus_usize pos 1
      else
        let! pos := checked_add pos (1 + Z.to_nat (b2z len)) in
        skip_name_loop f msg pos
  end.
Definition skip_name (msg : list byte) (pos : nat) : dprog nat := skip_name_loop (S (length msg)) msg pos.

Inductive Answer : Type := Ipv4 (addr : list byte) | NoIpv4 | Ignore.

Fixpoint skip_questions (n : nat) (msg : list byte) (pos : nat) : dprog nat :=
  match n with
  | O => pret pos
  | S n' =>
      let! pos := skip_name msg pos in
      let! pos := checked_add pos 4 in
      skip_questions n' msg pos
  end.

(** [u16::from_be_bytes([*msg.get(pos + d)?, *msg.get(pos + d + 1)?])] *)
Definition get_be16 (msg : list byte) (pos d : nat) : dprog Z :=
  let! p := plus_usize pos d in
  let! hi := get msg p in
  let! p := plus_usize pos (d + 1) in
  let! lo := get msg p in
  pret (be16 hi lo).

Fixpoint scan_answers (n : nat) (msg : list byte) (pos : nat) : dprog (list byte) :=
  match n with
  | O => pfail tt
  | S n' =>
      let! pos := skip_name msg pos in
      let! rtype := get_be16 msg pos 0 in
      let! rclass := get_be16 msg pos 2 in
      let! rdlen := get_be16 msg pos 8 in
      let! rdata := checked_add pos 10 in
      let! rend := checked_add rdata (Z.to_nat rdlen) in
      if (length msg <? rend)%nat then pfail tt
      else if (rtype =? QTYPE_A) && (rclass =? QCLASS_IN) && (rdlen =? 4) then
        let! a := index msg rdata in
        let! b := index msg (rdata + 1) in
        let! c := index msg (rdata + 2) in
        let! d := index msg (rdata + 3) in
        pret [a; b; c; d]
      else scan_answers n' msg rend
  end.

Definition find_a (msg : list byte) : dprog (list byte) :=
  let! flags := index msg 3 in
  if negb (Z.land (b2z flags) 0x0f =? 0) then pfail tt
  else
    let! q1 := index msg 4 in
    let! q0 := index msg 5 in
    let! a1 := index msg 6 in
    let! a0 := index msg 7 in
    let! pos := skip_questions (Z.to_nat (be16 q1 q0)) msg 12 in
    scan_answers (Z.to_nat (be16 a1 a0)) msg pos.

Definition parse_answer (id : Z) (msg : list byte) : dprog Answer :=
  if (length msg <? 12)%nat then pret Ignore
  else
    let! i1 := index msg 0 in
    let! i0 := index msg 1 in
    if negb (be16 i1 i0 =? id) then pret Ignore
    else
      let! r := ptry (find_a msg) in
      pret (match r with inl addr => Ipv4 addr | inr _ => NoIpv4 end).
