(* ===== verification/DnsTheorems.v ===== *)
(** * Names and addresses: theorems

    The query is the encoding of its labels, and an answer gives exactly the first
    address record of a message, whatever bytes came from the network. *)

From stdpp Require Import base numbers list gmap.
From Stdlib Require Import ZArith Lia.
From S2P Require Import Prelude Dns.
#[local] Open Scope Z_scope.

(** ** Positions *)

Definition short (msg : list byte) : Prop := Z.of_nat (length msg) < 2 ^ 63.

Lemma checked_add_ok a b s : Z.of_nat a + Z.of_nat b < U64 -> checked_add a b s = (Ret (a + b)%nat, s).
Proof. intros H. unfold checked_add. by rewrite (proj2 (Z.ltb_lt _ _)). Qed.

Lemma wp_checked_add a b Q X s : (Q (a + b)%nat s) -> X tt s -> wp (checked_add a b) Q X s.
Proof. intros HQ HX. unfold checked_add. by destruct (_ <? _). Qed.

Lemma plus_usize_ok a b s : Z.of_nat a + Z.of_nat b < U64 -> plus_usize a b s = (Ret (a + b)%nat, s).
Proof. intros H. unfold plus_usize, pbind, passert. by rewrite (proj2 (Z.ltb_lt _ _)). Qed.

Lemma wp_runs {S E A} (m : prog S E A) (Q : A -> S -> Prop) X s a s' : m s = (Ret a, s') -> Q a s' -> wp m Q X s.
Proof. intros E0. unfold wp. by rewrite E0. Qed.

Lemma wp_get_byte msg i Q X s : (forall b, msg !! i = Some b -> Q b s) -> X tt s -> wp (get msg i) Q X s.
Proof. intros HQ HX. unfold get, try_opt, pok_or. destruct (msg !! i) as [b|] eqn:E; [by apply HQ|done]. Qed.

Lemma get_ok msg i b s : msg !! i = Some b -> get msg i s = (Ret b, s).
Proof. intros H. unfold get, try_opt. by rewrite H. Qed.

Lemma index_ok msg i b s : msg !! i = Some b -> index msg i s = (Ret b, s).
Proof. intros H. unfold index. by rewrite H. Qed.

Lemma lookup_drop_head {A} (l tl : list A) i x : drop i l = x :: tl -> l !! i = Some x /\ drop (S i) l = tl.
Proof.
  intros H. split; [by rewrite <- (Nat.add_0_r i), <- lookup_drop, H|]. change (S i) with (1 + i)%nat. rewrite Nat.add_comm, <- drop_drop, H. done.
Qed.

Lemma drop_app_add {A} (l a b : list A) i : drop i l = a ++ b -> drop (i + length a) l = b.
Proof. intros H. by rewrite <- drop_drop, H, drop_app_length. Qed.

(** ** Names *)

Inductive NameEnd : Type := Root | Pointer (hi lo : byte).

Definition enc_labels (ls : list (list byte)) : list byte := mjoin ((fun l => z2b (Z.of_nat (length l)) :: l) <$> ls).
Definition enc_end (e : NameEnd) : list byte := match e with Root => [x00] | Pointer hi lo => [hi; lo] end.

(** A name as a message holds it: labels up to the root or to a pointer.  The
    lengths 64 to 191, which the format reserves, count as lengths. *)
Definition is_name (nm : list byte) : Prop :=
  exists ls e, Forall (fun l => 1 <= Z.of_nat (length l) <= 191) ls /\
    match e with Root => True | Pointer hi _ => 192 <= b2z hi end /\ nm = enc_labels ls ++ enc_end e.

Lemma enc_labels_cons l ls : enc_labels (l :: ls) = z2b (Z.of_nat (length l)) :: l ++ enc_labels ls.
Proof. done. Qed.

Lemma high_bits x : 0 <= x < 256 -> (Z.land x 0xc0 =? 0xc0) = (192 <=? x).
Proof.
  intros Hx. replace x with (Z.of_nat (Z.to_nat x)) by lia. assert (Hn : (Z.to_nat x < 256)%nat) by lia. revert Hn. generalize (Z.to_nat x). clear x Hx.
  intros n Hn. apply (proj1 (Forall_forall (fun n => (Z.land (Z.of_nat n) 192 =? 192) = (192 <=? Z.of_nat n)) (seq 0 256))).
  - apply (bool_decide_unpack _). vm_compute. exact I.
  - apply elem_of_seq. lia.
Qed.

Lemma z2b_len (l : list byte) : Z.of_nat (length l) < 256 -> b2z (z2b (Z.of_nat (length l))) = Z.of_nat (length l).
Proof. intros H. rewrite b2z_z2b. apply Z.mod_small. lia. Qed.

Lemma skip_name_complete fuel msg pos ls e tl :
  short msg -> Forall (fun l => 1 <= Z.of_nat (length l) <= 191) ls -> match e with Root => True | Pointer hi _ => 192 <= b2z hi end ->
  drop pos msg = enc_labels ls ++ enc_end e ++ tl -> (length ls < fuel)%nat ->
  skip_name_loop fuel msg pos tt = (Ret (pos + length (enc_labels ls ++ enc_end e))%nat, tt).
Proof.
  intros Hs. revert pos fuel. induction ls as [|l ls IH]; intros pos fuel Hok He Hd Hf; (destruct fuel as [|fuel]; [lia|]); cbn [skip_name_loop].
  - assert (Hpos : (pos + length (enc_end e) <= length msg)%nat).
    { assert (Hl : length (drop pos msg) = length (enc_end e ++ tl)) by (by rewrite Hd). rewrite length_drop, length_app in Hl.
      destruct e; cbn in *; lia. }
    unfold short in Hs. assert (HU : 2 ^ 63 < U64) by (unfold U64; lia). destruct e as [|hi lo]; cbn [enc_end app length enc_labels fmap list_fmap mjoin list_join] in *.
    + apply lookup_drop_head in Hd as [Hd _]. unfold pbind. rewrite (get_ok _ _ _ _ Hd). change (b2z x00) with 0. cbn [Z.land Z.eqb]. by apply plus_usize_ok; lia.
    + apply lookup_drop_head in Hd as [Hd [Hd' _]%lookup_drop_head]. unfold pbind. rewrite (get_ok _ _ _ _ Hd), high_bits by apply b2z_range.
      rewrite (proj2 (Z.leb_le _ _)) by done. rewrite plus_usize_ok by lia. rewrite Nat.add_1_r, (get_ok _ _ _ _ Hd'). apply plus_usize_ok. lia.
  - apply Forall_cons in Hok as [Hl Hok]. rewrite enc_labels_cons in *. cbn [app] in Hd. rewrite <- app_assoc in Hd.
    destruct (lookup_drop_head _ _ _ _ Hd) as [Hx Hrest]. unfold pbind. rewrite (get_ok _ _ _ _ Hx), high_bits by apply b2z_range.
    rewrite z2b_len by lia. rewrite (proj2 (Z.leb_gt _ _)) by lia. rewrite (proj2 (Z.eqb_neq _ _)) by lia. rewrite Nat2Z.id.
    assert (Hlen : (pos + 1 + length l <= length msg)%nat).
    { assert (E0 : length (drop pos msg) = S (length l + length (enc_labels ls ++ enc_end e ++ tl))).
      { rewrite Hd. cbn [length]. by rewrite length_app. }
      rewrite length_drop in E0. lia. }
    rewrite checked_add_ok by (unfold short, U64 in *; lia). rewrite IH; [|done|done| |cbn in Hf; lia].
    + match goal with |- (Ret ?a, _) = (Ret ?b, _) => replace a with b; [done|] end. cbn [app length]. rewrite !length_app. lia.
    + replace (pos + (1 + length l))%nat with (S pos + length l)%nat by lia. exact (drop_app_add _ _ _ _ Hrest).
Qed.

(** What [skip_name] steps over. *)
Definition named (msg : list byte) (pos p' : nat) : Prop :=
  exists nm, is_name nm /\ drop pos msg = nm ++ drop p' msg /\ p' = (pos + length nm)%nat.

Lemma is_name_label l nm : 1 <= Z.of_nat (length l) <= 191 -> is_name nm -> is_name (z2b (Z.of_nat (length l)) :: l ++ nm).
Proof.
  intros Hl (ls & e & Hok & He & ->). exists (l :: ls), e. split_and!; [by constructor|done|]. unfold enc_labels. cbn. by rewrite app_assoc.
Qed.

Lemma wp_skip_loop fuel msg pos :
  short msg -> (0 < fuel)%nat -> (length msg < fuel + pos)%nat -> wp (skip_name_loop fuel msg pos) (fun p' _ => named msg pos p') (fun _ _ => True) tt.
Proof.
  intros Hs. revert pos. induction fuel as [|fuel IH]; intros pos H0 Hf; cbn [skip_name_loop]; [lia|].
  - apply wp_bind, wp_get_byte; [|done]. intros b Hb. pose proof (lookup_lt_Some _ _ _ Hb) as Hlt. pose proof (b2z_range b) as Hr.
    unfold short in Hs. assert (HU : 2 ^ 63 < U64) by (unfold U64; lia). rewrite high_bits by done.
    destruct (192 <=? b2z b) eqn:E1; zbool.
    + apply wp_bind. eapply wp_runs; [apply plus_usize_ok; lia|]. apply wp_bind, wp_get_byte; [|done]. intros b' Hb'.
      eapply wp_runs; [apply plus_usize_ok; lia|]. exists [b; b']. split_and!; [exists [], (Pointer b b'); by split_and!| |done].
      rewrite (drop_S msg b) by done. rewrite Nat.add_1_r in Hb'. rewrite (drop_S msg b') by done. cbn. do 3 f_equal. lia.
    + destruct (b2z b =? 0) eqn:E2; zbool.
      * eapply wp_runs; [apply plus_usize_ok; lia|]. exists [b]. assert (b = x00) as -> by (apply b2z_inj; done).
        split_and!; [exists [], Root; by split_and!| |done]. rewrite (drop_S msg x00) by done. cbn. do 2 f_equal. lia.
      * apply wp_bind, wp_checked_add; [|done]. eapply wp_mono; [apply IH; lia| |done].
        intros p' [] (nm & Hnm & Hd & ->). set (l := take (Z.to_nat (b2z b)) (drop (S pos) msg)).
        assert (Hin : (pos + (1 + Z.to_nat (b2z b)) < length msg)%nat).
        { destruct Hnm as (ls & e & _ & _ & ->). apply (f_equal length) in Hd. rewrite length_drop, !length_app, length_drop in Hd. destruct e; cbn in Hd; lia. }
        assert (Hl : length l = Z.to_nat (b2z b)) by (unfold l; rewrite length_take, length_drop; lia).
        exists (b :: l ++ nm). split_and!.
        -- replace b with (z2b (Z.of_nat (length l))) at 1 by (apply b2z_inj; rewrite b2z_z2b, Hl, Z2Nat.id, Z.mod_small; lia).
           apply is_name_label; [lia|done].
        -- rewrite (drop_S msg b) by done. rewrite <- app_comm_cons. f_equal. rewrite <- app_assoc, <- Hd. unfold l.
           replace (pos + (1 + Z.to_nat (b2z b)))%nat with (S pos + Z.to_nat (b2z b))%nat by lia. by rewrite <- drop_drop, take_drop.
        -- cbn. rewrite length_app. lia.
Qed.

Lemma wp_skip_name msg pos : short msg -> wp (skip_name msg pos) (fun p' _ => named msg pos p') (fun _ _ => True) tt.
Proof. intros Hs. apply wp_skip_loop; [done|lia|lia]. Qed.

Lemma length_labels ls : (length ls <= length (enc_labels ls))%nat.
Proof. induction ls as [|l ls IH]; [done|]. rewrite enc_labels_cons. cbn [length]. rewrite length_app. lia. Qed.

Lemma skip_name_at msg pos nm tl : short msg -> is_name nm -> drop pos msg = nm ++ tl -> skip_name msg pos tt = (Ret (pos + length nm)%nat, tt).
Proof.
  intros Hs (ls & e & Hok & He & ->) Hd. eapply skip_name_complete; [done..|by rewrite Hd, <- app_assoc|].
  apply (f_equal length) in Hd. rewrite length_drop, !length_app in Hd. pose proof (length_labels ls). destruct e; cbn in Hd; lia.
Qed.

(** ** Sections *)

(** A question: a name, a type and a class. *)
Definition is_question (q : list byte) : Prop := exists nm rest, is_name nm /\ length rest = 4%nat /\ q = nm ++ rest.

(** A record: a name, a type, a class, a lifetime, and data with its length. *)
Record Rec : Type := mkRec { rc_name : list byte; rc_type : Z; rc_class : Z; rc_ttl : list byte; rc_data : list byte }.

Definition enc_rec (r : Rec) : list byte :=
  rc_name r ++ to_be16 (rc_type r) ++ to_be16 (rc_class r) ++ rc_ttl r ++ to_be16 (Z.of_nat (length (rc_data r))) ++ rc_data r.

Definition rec_ok (r : Rec) : Prop :=
  is_name (rc_name r) /\ 0 <= rc_type r < 65536 /\ 0 <= rc_class r < 65536 /\ length (rc_ttl r) = 4%nat /\ Z.of_nat (length (rc_data r)) < 65536.

Definition is_address (r : Rec) : Prop := rc_type r = QTYPE_A /\ rc_class r = QCLASS_IN /\ length (rc_data r) = 4%nat.

(** The header and its counts. *)
Definition be16_at (msg : list byte) (i : nat) : Z :=
  match msg !! i, msg !! (i + 1)%nat with Some hi, Some lo => be16 hi lo | _, _ => 0 end.
Definition rcode (msg : list byte) : Z := match msg !! 3%nat with Some b => Z.land (b2z b) 0x0f | None => 0 end.

(** A message whose first address record holds [a]: the records before it, which
    are others, and its own lie within what the header counts. *)
Definition first_address (msg a : list byte) : Prop :=
  exists qs rs r tl, rcode msg = 0 /\ drop 12 msg = mjoin qs ++ mjoin (enc_rec <$> rs) ++ enc_rec r ++ tl /\
    Forall is_question qs /\ Z.of_nat (length qs) = be16_at msg 4 /\
    Forall (fun r => rec_ok r /\ ~ is_address r) rs /\ Z.of_nat (length rs) < be16_at msg 6 /\
    rec_ok r /\ is_address r /\ rc_data r = a.

Lemma be16_to x : 0 <= x < 65536 -> be16 (z2b (x / 256)) (z2b (x mod 256)) = x.
Proof.
  intros Hx. unfold be16. rewrite !b2z_z2b. pose proof (Z.div_mod x 256 ltac:(lia)). pose proof (Z.mod_pos_bound x 256 ltac:(lia)).
  assert (0 <= x / 256 < 256) by (split; [apply Z.div_pos; lia|apply Z.div_lt_upper_bound; lia]).
  rewrite (Z.mod_small (x / 256)), (Z.mod_small (x mod 256)) by lia. lia.
Qed.

Lemma to_be16_of hi lo : to_be16 (be16 hi lo) = [hi; lo] /\ 0 <= be16 hi lo < 65536.
Proof.
  unfold to_be16, be16. pose proof (b2z_range hi). pose proof (b2z_range lo).
  rewrite Z.div_add_l, (Z.div_small (b2z lo)), Z.add_0_r by lia. rewrite Z.add_comm, Z.mod_add, Z.mod_small by lia.
  rewrite !z2b_b2z. split; [done|lia].
Qed.

Lemma mjoin_cons {A} (x : list A) l : mjoin (x :: l) = x ++ mjoin l.
Proof. done. Qed.

Lemma wp_skip_questions n msg pos :
  short msg ->
  wp (skip_questions n msg pos)
    (fun p' _ => (p' < length msg)%nat -> exists qs, length qs = n /\ Forall is_question qs /\ drop pos msg = mjoin qs ++ drop p' msg) (fun _ _ => True) tt.
Proof.
  intros Hs. revert pos. induction n as [|n IH]; intros pos; cbn [skip_questions]; [apply wp_ret; by exists []|].
  apply wp_bind. eapply wp_mono; [by apply wp_skip_name| |done]. intros p1 [] (nm & Hnm & Hd & _). apply wp_bind, wp_checked_add; [|done].
  eapply wp_mono; [apply IH| |done]. intros p' [] Hq Hp'. destruct (Hq Hp') as (qs & Hl & Hqs & Hd').
  exists ((nm ++ take 4 (drop p1 msg)) :: qs). split_and!; [by cbn; rewrite Hl| |].
  - constructor; [|done]. exists nm, (take 4 (drop p1 msg)). split_and!; [done| |done]. rewrite length_take.
    apply (f_equal length) in Hd'. rewrite length_drop, length_app, length_drop in Hd'. rewrite length_drop. lia.
  - rewrite mjoin_cons, <- !app_assoc, <- Hd', <- drop_drop, take_drop. exact Hd.
Qed.

Lemma skip_questions_at qs msg pos tl : short msg -> Forall is_question qs -> drop pos msg = mjoin qs ++ tl ->
  skip_questions (length qs) msg pos tt = (Ret (pos + length (mjoin qs))%nat, tt).
Proof.
  intros Hs. revert pos. induction qs as [|q qs IH]; intros pos Hqs Hd; cbn [skip_questions length]; [by rewrite Nat.add_0_r|].
  apply Forall_cons in Hqs as [(nm & rest & Hnm & Hr & ->) Hqs]. rewrite mjoin_cons in *. rewrite <- !app_assoc in Hd.
  unfold pbind. rewrite (skip_name_at _ _ _ _ Hs Hnm Hd). pose proof (drop_app_add _ _ _ _ Hd) as Hd1. pose proof (drop_app_add _ _ _ _ Hd1) as Hd2.
  assert (Hlen : (pos + length nm + 4 <= length msg)%nat).
  { apply (f_equal length) in Hd. rewrite length_drop, !length_app in Hd. destruct Hnm as (ls & e & _ & _ & ->). rewrite length_app in Hd. destruct e; cbn in Hd; rewrite length_app; cbn; lia. }
  rewrite checked_add_ok by (unfold short, U64 in *; lia). rewrite <- Hr at 1. rewrite (IH _ Hqs Hd2).
  rewrite !length_app. f_equal. f_equal. lia.
Qed.

(** ** Records *)

Lemma wp_get_be16 msg pos d Q X :
  short msg -> (pos <= length msg)%nat -> (d < 100)%nat ->
  (forall hi lo, msg !! (pos + d)%nat = Some hi -> msg !! (pos + (d + 1))%nat = Some lo -> Q (be16 hi lo) tt) -> X tt tt ->
  wp (get_be16 msg pos d) Q X tt.
Proof.
  intros Hs Hp Hd HQ HX. assert (Hu : Z.of_nat pos + 200 < U64) by (unfold short, U64 in *; lia). unfold get_be16.
  apply wp_bind. eapply wp_runs; [apply plus_usize_ok; lia|]. apply wp_bind, wp_get_byte; [|done]. intros hi Hhi.
  apply wp_bind. eapply wp_runs; [apply plus_usize_ok; lia|]. apply wp_bind, wp_get_byte; [|done]. intros lo Hlo. by apply wp_ret, HQ.
Qed.

Lemma record_at msg pos p1 b0 b1 b2 b3 b8 b9 :
  named msg pos p1 -> msg !! (p1 + 0)%nat = Some b0 -> msg !! (p1 + 1)%nat = Some b1 -> msg !! (p1 + 2)%nat = Some b2 -> msg !! (p1 + 3)%nat = Some b3 ->
  msg !! (p1 + 8)%nat = Some b8 -> msg !! (p1 + 9)%nat = Some b9 -> (p1 + 10 + Z.to_nat (be16 b8 b9) <= length msg)%nat ->
  exists r, rec_ok r /\ drop pos msg = enc_rec r ++ drop (p1 + 10 + Z.to_nat (be16 b8 b9)) msg /\
    rc_type r = be16 b0 b1 /\ rc_class r = be16 b2 b3 /\ rc_data r = take (Z.to_nat (be16 b8 b9)) (drop (p1 + 10) msg).
Proof.
  intros (nm & Hnm & Hd & _) H0 H1 H2 H3 H8 H9 Hend. set (n := Z.to_nat (be16 b8 b9)) in *.
  destruct (to_be16_of b0 b1) as [E01 R01]. destruct (to_be16_of b2 b3) as [E23 R23]. destruct (to_be16_of b8 b9) as [E89 R89].
  assert (Hlen : length (take n (drop (p1 + 10) msg)) = n) by (rewrite length_take, length_drop; lia).
  exists (mkRec nm (be16 b0 b1) (be16 b2 b3) (take 4 (drop (p1 + 4) msg)) (take n (drop (p1 + 10) msg))).
  split_and!; cbn [rc_type rc_class rc_data]; try done.
  - split_and!; cbn; try done; [lia..|rewrite length_take, length_drop; lia|rewrite Hlen; unfold n; lia].
  - unfold enc_rec. cbn [rc_name rc_type rc_class rc_ttl rc_data]. rewrite Hlen. unfold n at 1. rewrite Z2Nat.id by lia. rewrite E01, E23, E89.
    rewrite Hd, <- !app_assoc. f_equal. cbn [app]. rewrite Nat.add_0_r in H0.
    rewrite (drop_S msg b0 p1) by done. rewrite Nat.add_1_r in H1. rewrite (drop_S msg b1) by done.
    replace (p1 + 2)%nat with (S (S p1)) in H2 by lia. rewrite (drop_S msg b2) by done.
    replace (p1 + 3)%nat with (S (S (S p1))) in H3 by lia. rewrite (drop_S msg b3) by done. do 4 f_equal.
    replace (S (S (S (S p1)))) with (p1 + 4)%nat by lia. rewrite <- (take_drop 4 (drop (p1 + 4) msg)) at 1. f_equal. rewrite drop_drop.
    replace (p1 + 4 + 4)%nat with (p1 + 8)%nat by lia. rewrite (drop_S msg b8) by done.
    replace (p1 + 9)%nat with (S (p1 + 8)) in H9 by lia. rewrite (drop_S msg b9) by done. do 2 f_equal.
    replace (S (S (p1 + 8))) with (p1 + 10)%nat by lia. rewrite <- (take_drop n (drop (p1 + 10) msg)) at 1. f_equal. by rewrite drop_drop.
Qed.

(** The records a scan of at most [n] of them finds its address in. *)
Definition scanned (msg : list byte) (pos n : nat) (a : list byte) : Prop :=
  exists rs r tl, drop pos msg = mjoin (enc_rec <$> rs) ++ enc_rec r ++ tl /\ (length rs < n)%nat /\
    Forall (fun r => rec_ok r /\ ~ is_address r) rs /\ rec_ok r /\ is_address r /\ rc_data r = a.

Lemma wp_scan_answers n msg pos : short msg -> wp (scan_answers n msg pos) (fun a _ => scanned msg pos n a) (fun _ _ => True) tt.
Proof.
  intros Hs. revert pos. induction n as [|n IH]; intros pos; cbn [scan_answers]; [done|].
  apply wp_bind. eapply wp_mono; [by apply wp_skip_name| |done]. intros p1 [] Hnm.
  assert (Hp1 : (p1 <= length msg)%nat).
  { destruct Hnm as (nm & (ls & e & _ & _ & ->) & Hd & ->). apply (f_equal length) in Hd. rewrite length_drop, !length_app, length_drop in Hd. rewrite length_app. destruct e; cbn in *; lia. }
  apply wp_bind, wp_get_be16; [done|done|lia| |done]. intros b0 b1 H0 H1. apply wp_bind, wp_get_be16; [done|done|lia| |done]. intros b2 b3 H2 H3.
  apply wp_bind, wp_get_be16; [done|done|lia| |done]. intros b8 b9 H8 H9. apply wp_bind, wp_checked_add; [|done]. apply wp_bind, wp_checked_add; [|done].
  destruct (length msg <? _)%nat eqn:El; zbool; [done|].
  destruct (record_at _ _ _ _ _ _ _ _ _ Hnm H0 H1 H2 H3 H8 H9 El) as (r & Hr & Hd & Ht & Hc & Hdata). destruct (to_be16_of b8 b9) as [_ R89].
  assert (Hlen : length (rc_data r) = Z.to_nat (be16 b8 b9)) by (rewrite Hdata, length_take, length_drop; lia).
  destruct (_ && _) eqn:Ea.
  - apply andb_prop in Ea as [[Et Ec]%andb_prop El4]. zbool. rewrite El4 in *. change (Z.to_nat 4) with 4%nat in *.
    assert (Hbytes : exists x y z w, rc_data r = [x; y; z; w] /\ msg !! (p1 + 10)%nat = Some x /\ msg !! (p1 + 10 + 1)%nat = Some y /\
      msg !! (p1 + 10 + 2)%nat = Some z /\ msg !! (p1 + 10 + 3)%nat = Some w).
    { destruct (rc_data r) as [|x [|y [|z [|w [|]]]]]; try done. exists x, y, z, w. split; [done|].
      assert (Hl : forall i c, take 4 (drop (p1 + 10) msg) !! i = Some c -> msg !! (p1 + 10 + i)%nat = Some c).
      { intros i c Hi. apply lookup_take_Some in Hi as [Hi _]. by rewrite lookup_drop in Hi. }
      rewrite <- Hdata in Hl. rewrite <- (Nat.add_0_r (p1 + 10)) at 1. split_and!; by apply Hl. }
    destruct Hbytes as (x & y & z & w & E0 & B0 & B1 & B2 & B3).
    apply wp_bind. eapply wp_runs; [by apply index_ok|]. apply wp_bind. eapply wp_runs; [by apply index_ok|].
    apply wp_bind. eapply wp_runs; [by apply index_ok|]. apply wp_bind. eapply wp_runs; [by apply index_ok|]. apply wp_ret.
    exists [], r, (drop (p1 + 10 + 4) msg). split_and!; [done|cbn; lia|constructor|done|split_and!; congruence|done].
  - eapply wp_mono; [apply IH| |done]. intros a [] (rs & r' & tl & Hd' & Hn & Hrs & Hr' & Ha & Hda).
    exists (r :: rs), r', tl. split_and!; [|cbn; lia| |done..].
    + rewrite fmap_cons, mjoin_cons, Hd, Hd', <- !app_assoc. done.
    + constructor; [|done]. split; [done|]. intros (A1 & A2 & A3). rewrite <- Ht, <- Hc, A1, A2, !Z.eqb_refl in Ea. cbn in Ea. zbool. lia.
Qed.

Lemma get_be16_at msg p d x tl :
  short msg -> (d < 100)%nat -> 0 <= x < 65536 -> drop (p + d) msg = to_be16 x ++ tl -> get_be16 msg p d tt = (Ret x, tt).
Proof.
  intros Hs Hd Hx H. cbn [to_be16 app] in H. apply lookup_drop_head in H as [H1 [H2 _]%lookup_drop_head].
  pose proof (lookup_lt_Some _ _ _ H2). unfold get_be16, pbind, short in *.
  rewrite plus_usize_ok by (unfold U64; lia). rewrite (get_ok _ _ _ _ H1). rewrite plus_usize_ok by (unfold U64; lia).
  replace (p + (d + 1))%nat with (S (p + d)) by lia. rewrite (get_ok _ _ _ _ H2). unfold pret. by rewrite be16_to.
Qed.

Lemma length_to_be16 x : length (to_be16 x) = 2%nat.
Proof. done. Qed.

(** One record: the scan stops at an address and steps over any other. *)
Lemma scan_one n msg pos r tl :
  short msg -> rec_ok r -> drop pos msg = enc_rec r ++ tl ->
  (is_address r -> scan_answers (S n) msg pos tt = (Ret (rc_data r), tt)) /\
  (~ is_address r -> scan_answers (S n) msg pos tt = scan_answers n msg (pos + length (enc_rec r)) tt).
Proof.
  intros Hs (Hnm & Ht & Hc & Httl & Hdl) Hd. unfold enc_rec in Hd. rewrite <- !app_assoc in Hd.
  pose proof (drop_app_add _ _ _ _ Hd) as D0. pose proof (drop_app_add _ _ _ _ D0) as D2. pose proof (drop_app_add _ _ _ _ D2) as D4.
  pose proof (drop_app_add _ _ _ _ D4) as D8. pose proof (drop_app_add _ _ _ _ D8) as D10. rewrite !length_to_be16, ?Httl in *.
  set (p1 := (pos + length (rc_name r))%nat) in *.
  assert (Hlen : (p1 + 10 + length (rc_data r) <= length msg)%nat).
  { assert (E0 : drop p1 msg <> []) by (rewrite D0; done). apply (f_equal length) in D0. rewrite length_drop in D0.
    rewrite !length_app, !length_to_be16, Httl in D0. lia. }
  assert (Hstep : scan_answers (S n) msg pos tt =
    (if (rc_type r =? QTYPE_A) && (rc_class r =? QCLASS_IN) && (Z.of_nat (length (rc_data r)) =? 4) then
       (let! a := index msg (p1 + 10) in let! b := index msg (p1 + 10 + 1) in let! c := index msg (p1 + 10 + 2) in let! d := index msg (p1 + 10 + 3) in pret [a; b; c; d])
     else scan_answers n msg (p1 + 10 + length (rc_data r))) tt).
  { cbn [scan_answers]. unfold pbind at 1. rewrite (skip_name_at _ _ _ _ Hs Hnm Hd). fold p1.
    unfold pbind at 1. rewrite (get_be16_at msg p1 0 (rc_type r) _ Hs ltac:(lia) Ht ltac:(rewrite Nat.add_0_r; exact D0)).
    unfold pbind at 1. rewrite (get_be16_at msg p1 2 (rc_class r) _ Hs ltac:(lia) Hc D2).
    unfold pbind at 1. rewrite (get_be16_at msg p1 8 (Z.of_nat (length (rc_data r))) (rc_data r ++ tl) Hs ltac:(lia) ltac:(lia)) by (rewrite <- D8; f_equal; lia).
    unfold short in Hs. unfold pbind at 1. rewrite checked_add_ok by (unfold U64; lia). unfold pbind at 1. rewrite Nat2Z.id.
    rewrite checked_add_ok by (unfold U64; lia). by rewrite (proj2 (Nat.ltb_ge _ _)) by lia. }
  rewrite Hstep. split.
  - intros (A1 & A2 & A3). rewrite A1, A2, A3. replace ((QTYPE_A =? QTYPE_A) && _ && _) with true by done. cbv iota.
    replace (p1 + 2 + 2 + 4 + 2)%nat with (p1 + 10)%nat in D10 by lia. destruct (rc_data r) as [|x [|y [|z [|w [|]]]]]; try done. cbn [app] in D10.
    apply lookup_drop_head in D10 as [B0 D11]. apply lookup_drop_head in D11 as [B1 D12]. apply lookup_drop_head in D12 as [B2 D13]. apply lookup_drop_head in D13 as [B3 _].
    replace (p1 + 10 + 1)%nat with (S (p1 + 10)) by lia. replace (p1 + 10 + 2)%nat with (S (S (p1 + 10))) by lia. replace (p1 + 10 + 3)%nat with (S (S (S (p1 + 10)))) by lia.
    unfold pbind. by rewrite (index_ok _ _ _ _ B0), (index_ok _ _ _ _ B1), (index_ok _ _ _ _ B2), (index_ok _ _ _ _ B3).
  - intros Hna. destruct (_ && _) eqn:Ea.
    + exfalso. apply Hna. apply andb_prop in Ea as [[A1 A2]%andb_prop A3]. zbool. split_and!; [done..|lia].
    + f_equal. unfold enc_rec. rewrite !length_app, !length_to_be16, Httl. lia.
Qed.

Lemma scan_answers_at rs r n msg pos tl :
  short msg -> Forall (fun r => rec_ok r /\ ~ is_address r) rs -> rec_ok r -> is_address r -> (length rs < n)%nat ->
  drop pos msg = mjoin (enc_rec <$> rs) ++ enc_rec r ++ tl -> scan_answers n msg pos tt = (Ret (rc_data r), tt).
Proof.
  intros Hs Hrs Hr Ha. revert n pos. induction Hrs as [|r' rs [Hr' Hna] _ IH]; intros n pos Hn Hd; (destruct n as [|n]; [cbn in Hn; lia|]).
  - by apply (scan_one n msg pos r tl).
  - rewrite fmap_cons, mjoin_cons, <- app_assoc in Hd. rewrite (proj2 (scan_one n msg pos r' _ Hs Hr' Hd) Hna).
    apply IH; [cbn in Hn; lia|]. exact (drop_app_add _ _ _ _ Hd).
Qed.

Lemma msg_byte (msg : list byte) i : (i < length msg)%nat -> exists b, msg !! i = Some b.
Proof. intros Hi. apply lookup_lt_is_Some_2 in Hi as [b Hb]. by exists b. Qed.

(** What [find_a] reads of the header before it walks the message. *)
Lemma find_a_header msg : (12 <= length msg)%nat ->
  find_a msg tt = (if negb (rcode msg =? 0) then pfail tt
                   else let! pos := skip_questions (Z.to_nat (be16_at msg 4)) msg 12 in scan_answers (Z.to_nat (be16_at msg 6)) msg pos) tt.
Proof.
  intros Hl. destruct (msg_byte msg 3) as [b3 H3]; [lia|]. destruct (msg_byte msg 4) as [b4 H4]; [lia|]. destruct (msg_byte msg 5) as [b5 H5]; [lia|].
  destruct (msg_byte msg 6) as [b6 H6]; [lia|]. destruct (msg_byte msg 7) as [b7 H7]; [lia|].
  unfold find_a, rcode, be16_at. rewrite (pbind_step _ _ _ _ _ (index_ok _ _ _ tt H3)), H3. destruct (negb _); [done|].
  rewrite (pbind_step _ _ _ _ _ (index_ok _ _ _ tt H4)), (pbind_step _ _ _ _ _ (index_ok _ _ _ tt H5)), (pbind_step _ _ _ _ _ (index_ok _ _ _ tt H6)),
    (pbind_step _ _ _ _ _ (index_ok _ _ _ tt H7)). cbn [Nat.add]. by rewrite H4, H5, H6, H7.
Qed.

Lemma be16_at_range msg i : 0 <= be16_at msg i.
Proof. unfold be16_at. repeat case_match; try done. unfold be16. pose proof (b2z_range b). pose proof (b2z_range b0). lia. Qed.

Lemma wp_find_a msg : short msg -> (12 <= length msg)%nat -> wp (find_a msg) (fun a _ => first_address msg a) (fun _ _ => True) tt.
Proof.
  intros Hs Hl. unfold wp. rewrite find_a_header by done. destruct (negb _) eqn:Er; [done|]. apply negb_false_iff in Er. zbool.
  change (wp (let! pos := skip_questions (Z.to_nat (be16_at msg 4)) msg 12 in scan_answers (Z.to_nat (be16_at msg 6)) msg pos) (fun a _ => first_address msg a) (fun _ _ => True) tt).
  apply wp_bind. eapply wp_mono; [by apply wp_skip_questions| |done]. intros p1 [] Hq. eapply wp_mono; [by apply wp_scan_answers| |done].
  intros a [] (rs & r & tl & Hd & Hn & Hrs & Hr & Ha & Hda). assert (Hp1 : (p1 < length msg)%nat).
  { destruct (decide (p1 < length msg)%nat); [done|]. rewrite drop_ge in Hd by lia. apply (f_equal length) in Hd. unfold enc_rec in Hd. rewrite !length_app, !length_to_be16 in Hd. cbn in Hd. lia. }
  destruct (Hq Hp1) as (qs & Hqn & Hqs & Hd0). pose proof (be16_at_range msg 4). exists qs, rs, r, tl. split_and!; [done|by rewrite Hd0, Hd|done|lia|done|lia|done..].
Qed.

Lemma find_a_at msg a : short msg -> (12 <= length msg)%nat -> first_address msg a -> find_a msg tt = (Ret a, tt).
Proof.
  intros Hs Hl (qs & rs & r & tl & Hrc & Hd & Hqs & Hqn & Hrs & Hrn & Hr & Ha & <-). rewrite find_a_header, Hrc by done. cbn [Z.eqb negb].
  rewrite <- Hqn, Nat2Z.id. rewrite (pbind_step _ _ _ _ _ (skip_questions_at _ _ _ _ Hs Hqs Hd)).
  eapply scan_answers_at; [done..|lia|]. exact (drop_app_add _ _ _ _ Hd).
Qed.

(** ** Queries *)

(** A query for the name with these labels. *)
Definition query (id : Z) (ls : list (list byte)) : list byte :=
  to_be16 id ++ [x01; x00; x00; x01; x00; x00; x00; x00; x00; x00] ++ enc_labels ls ++ [x00; x00; x01; x00; x01].

Definition label_ok (l : list byte) : bool := negb (length l =? 0)%nat && (length l <=? 63)%nat.

(** The buffer holds [w] in front. *)
Definition front (w out : list byte) : list byte := w ++ drop (length w) out.

Lemma write_front w out bytes : short out -> Z.of_nat (length bytes) < 2 ^ 62 -> (length w <= length out)%nat ->
  write (front w out) (length w) bytes tt =
  if (length (w ++ bytes) <=? length out)%nat then (Ret (front (w ++ bytes) out, length (w ++ bytes)), tt) else (Fail tt, tt).
Proof.
  intros Hs Hb Hw. unfold write. rewrite (pbind_step _ _ _ _ _ (checked_add_ok (length w) (length bytes) tt ltac:(unfold short, U64 in *; lia))).
  assert (Hl : length (front w out) = length out) by (unfold front; rewrite length_app, length_drop; lia). rewrite Hl, <- length_app.
  destruct (length out <? _)%nat eqn:E; zbool; [by rewrite (proj2 (Nat.leb_gt _ _))|]. rewrite (proj2 (Nat.leb_le _ _)) by done.
  unfold pret, front. do 3 f_equal. rewrite take_app_length, <- app_assoc. do 2 f_equal. rewrite length_app, drop_app_ge by lia. rewrite drop_drop. f_equal. lia.
Qed.

Lemma bind_write {A} w out bytes (k : list byte * nat -> dprog A) : short out -> Z.of_nat (length bytes) < 2 ^ 62 -> (length w <= length out)%nat ->
  pbind (write (front w out) (length w) bytes) k tt =
  if (length (w ++ bytes) <=? length out)%nat then k (front (w ++ bytes) out, length (w ++ bytes)) tt else (Fail tt, tt).
Proof. intros Hs Hb Hw. unfold pbind. rewrite write_front by done. by destruct (_ <=? _)%nat. Qed.

Lemma write_labels_front ls w out : short out -> (length w <= length out)%nat ->
  write_labels ls (front w out) (length w) tt =
  if forallb label_ok ls && (length (w ++ enc_labels ls) <=? length out)%nat
  then (Ret (front (w ++ enc_labels ls) out, length (w ++ enc_labels ls)), tt) else (Fail tt, tt).
Proof.
  intros Hs. revert w. induction ls as [|l ls IH]; intros w Hw; cbn [write_labels forallb].
  - change (enc_labels []) with (@nil byte). rewrite app_nil_r, (proj2 (Nat.leb_le _ _)) by done. done.
  - unfold label_ok at 1. destruct (length l =? 0)%nat eqn:E0; cbn [negb orb andb]; [done|]. rewrite Nat.ltb_antisym.
    destruct (length l <=? 63)%nat eqn:E1; cbn [negb]; [|done]. zbool. rewrite bind_write by (done || cbn; lia). rewrite enc_labels_cons.
    destruct (_ <=? _)%nat eqn:E2; zbool.
    + rewrite bind_write by (done || lia). destruct (length ((w ++ _) ++ l) <=? _)%nat eqn:E3; zbool.
      * rewrite IH by done. by rewrite <- !app_assoc.
      * rewrite (proj2 (Nat.leb_gt _ _)); [by rewrite andb_false_r|]. rewrite !length_app in *. cbn [length] in *. rewrite length_app. lia.
    + rewrite (proj2 (Nat.leb_gt _ _)); [by rewrite andb_false_r|]. rewrite !length_app in *. cbn [length] in *. rewrite length_app. lia.
Qed.

Lemma build_query_labels id hostname out : short out ->
  build_query id hostname out tt =
  let ls := split_dot (strip_dot hostname) in
  if forallb label_ok ls && (length (query id ls) <=? length out)%nat then (Ret (front (query id ls) out, length (query id ls)), tt) else (Fail tt, tt).
Proof.
  intros Hs. unfold build_query. cbv zeta. set (ls := split_dot _). set (q := query id ls).
  assert (Hlen : length q = (17 + length (enc_labels ls))%nat) by (unfold q, query; rewrite !length_app; cbn; lia).
  assert (Hbig : forall w : list byte, (length w <= length q)%nat -> (length out < length w)%nat ->
    (Fail tt, tt) = if forallb label_ok ls && (length q <=? length out)%nat then (Ret (front q out, length q), tt) else (Fail tt : res unit (list byte * nat), tt)).
  { intros w Hw Ho. rewrite (proj2 (Nat.leb_gt _ _)) by lia. by rewrite andb_false_r. }
  assert (Hw : forall (w bytes : list byte) (k : list byte * nat -> dprog (list byte * nat)) r, (length w <= length out)%nat -> (length bytes <= 6)%nat ->
    ((length (w ++ bytes) <= length out)%nat -> k (front (w ++ bytes) out, length (w ++ bytes)) tt = r) ->
    ((length out < length (w ++ bytes))%nat -> (Fail tt, tt) = r) -> pbind (write (front w out) (length w) bytes) k tt = r).
  { intros w bytes k r H1 H2 H3 H4. rewrite bind_write by (done || lia). destruct (length (w ++ bytes) <=? _)%nat eqn:E; zbool; [by apply H3|by apply H4]. }
  change out with (front [] out) at 1. change 0%nat with (length (@nil byte)).
  apply Hw; [cbn; lia|cbn; lia|intros L1|apply Hbig; cbn; lia]. apply Hw; [done|cbn; lia|intros L2|apply Hbig; cbn; lia].
  apply Hw; [done|cbn; lia|intros L3|apply Hbig; cbn; lia]. apply Hw; [done|cbn; lia|intros L4|apply Hbig; cbn; lia].
  set (w4 := (_ ++ [x00; x00; x00; x00; x00; x00])) in *. unfold pbind at 1. rewrite write_labels_front by done.
  destruct (forallb label_ok ls) eqn:Ef; cbn [andb]; [|done]. destruct (length (w4 ++ _) <=? _)%nat eqn:E5; zbool.
  2:{ rewrite (proj2 (Nat.leb_gt _ _)); [done|]. rewrite length_app in E5. change (length w4) with 12%nat in E5. lia. }
  assert (H4 : length (w4 ++ enc_labels ls) = (12 + length (enc_labels ls))%nat) by (by rewrite length_app).
  apply Hw; [done|cbn; lia|intros L6|intros Hx; refine (Hbig _ _ Hx); rewrite length_app, H4, Hlen; cbn; lia].
  apply Hw; [done|cbn; lia|intros L7|intros Hx; refine (Hbig _ _ Hx); rewrite !length_app, Hlen; rewrite length_app in H4; cbn in *; lia].
  rewrite write_front by (done || (cbn; lia)). replace ((((w4 ++ enc_labels ls) ++ [x00]) ++ to_be16 QTYPE_A) ++ to_be16 QCLASS_IN) with q; [done|].
  unfold q, query, w4. rewrite <- !app_assoc. done.
Qed.

(** The labels with dots between them. *)
Fixpoint join_dot (ls : list (list byte)) : list byte :=
  match ls with [] => [] | [l] => l | l :: ls' => l ++ DOT :: join_dot ls' end.

Lemma split_dot_app l s : DOT ∉ l -> split_dot (l ++ DOT :: s) = l :: split_dot s.
Proof.
  induction l as [|c l IH]; intros Hl; cbn [app split_dot]; [done|]. rewrite not_elem_of_cons in Hl. destruct Hl as [Hc Hl].
  destruct (Byte.eqb c DOT) eqn:E; [by apply Byte.byte_dec_bl in E|]. by rewrite IH.
Qed.

Lemma split_dot_none l : DOT ∉ l -> split_dot l = [l].
Proof.
  induction l as [|c l IH]; intros Hl; cbn [split_dot]; [done|]. rewrite not_elem_of_cons in Hl. destruct Hl as [Hc Hl].
  destruct (Byte.eqb c DOT) eqn:E; [by apply Byte.byte_dec_bl in E|]. by rewrite IH.
Qed.

Lemma split_join_dot ls : ls <> [] -> Forall (fun l => DOT ∉ l) ls -> split_dot (join_dot ls) = ls.
Proof.
  intros Hne Hls. induction Hls as [|l ls Hl Hls IH]; [done|]. destruct ls as [|l' ls]; [by apply split_dot_none|].
  change (join_dot (l :: l' :: ls)) with (l ++ DOT :: join_dot (l' :: ls)). rewrite split_dot_app by done. by rewrite IH.
Qed.

(** ** Properties *)

(** [build_query], for a name given by its labels, with or without a last dot: the
    query is the header, the labels each with its length, the root, and the type
    and class, put at the front of the buffer; it fails exactly when a label is
    empty or longer than 63 bytes or the buffer is too small.  It never panics. *)
Theorem dns_query_exact id hostname ls out :
  ls <> [] -> Forall (fun l => DOT ∉ l) ls -> strip_dot hostname = join_dot ls -> short out ->
  build_query id hostname out tt =
  if forallb label_ok ls && (length (query id ls) <=? length out)%nat
  then (Ret (query id ls ++ drop (length (query id ls)) out, length (query id ls)), tt) else (Fail tt, tt).
Proof. intros Hne Hls Hj Hs. rewrite build_query_labels by done. by rewrite Hj, split_join_dot. Qed.

Lemma dns_query_exact_witness :
  build_query 0x1234 (bs "ya.ru.") (zeros 64) tt =
  if forallb label_ok [bs "ya"; bs "ru"] && (length (query 0x1234 [bs "ya"; bs "ru"]) <=? length (zeros 64))%nat
  then (Ret (query 0x1234 [bs "ya"; bs "ru"] ++ drop (length (query 0x1234 [bs "ya"; bs "ru"])) (zeros 64), length (query 0x1234 [bs "ya"; bs "ru"])), tt)
  else (Fail tt, tt).
Proof.
  apply (dns_query_exact 0x1234 (bs "ya.ru.") [bs "ya"; bs "ru"] (zeros 64)); [done| |vm_compute; reflexivity|vm_compute; reflexivity].
  repeat constructor; by apply (bool_decide_unpack _).
Defined.

Lemma parse_answer_spec id msg :
  short msg ->
  exists r, parse_answer id msg tt = (Ret r, tt) /\
    match r with
    | Ignore => (length msg < 12)%nat \/ be16_at msg 0 <> id
    | Ipv4 a => (12 <= length msg)%nat /\ be16_at msg 0 = id /\ first_address msg a
    | NoIpv4 => (12 <= length msg)%nat /\ be16_at msg 0 = id /\ forall a, ~ first_address msg a
    end.
Proof.
  intros Hs. unfold parse_answer. destruct (length msg <? 12)%nat eqn:El; zbool; [exists Ignore; split; [done|by left]|].
  destruct (msg_byte msg 0) as [b0 H0]; [lia|]. destruct (msg_byte msg 1) as [b1 H1]; [lia|].
  rewrite (pbind_step _ _ _ _ _ (index_ok _ _ _ tt H0)), (pbind_step _ _ _ _ _ (index_ok _ _ _ tt H1)).
  assert (Hid : be16_at msg 0 = be16 b0 b1) by (unfold be16_at; cbn [Nat.add]; by rewrite H0, H1). rewrite Hid.
  destruct (be16 b0 b1 =? id) eqn:Ei; zbool; cbn [negb]; [|exists Ignore; split; [done|by right]].
  pose proof (wp_find_a msg Hs El) as Hw. pose proof (fun a => find_a_at msg a Hs El) as Hc. unfold wp in Hw. unfold pbind, ptry.
  destruct (find_a msg tt) as [[a|[]| |] []]; try done; [exists (Ipv4 a); by split_and!|exists NoIpv4; split_and!; try done]. intros a Ha. by specialize (Hc a Ha).
Qed.

(** C29. [parse_answer], on any bytes from the network: no index leaves the message and
    nothing overflows or loops; a message too short or with another identifier is
    ignored; otherwise the result is an address exactly when the message has no
    error code and, after the questions its header counts, an address record of the
    Internet class among its answers, and then it is the first one's. *)
Theorem dns_answer_exact id msg :
  short msg ->
  exists r, parse_answer id msg tt = (Ret r, tt) /\
    match r with
    | Ignore => (length msg < 12)%nat \/ be16_at msg 0 <> id
    | Ipv4 a => (12 <= length msg)%nat /\ be16_at msg 0 = id /\ first_address msg a
    | NoIpv4 => (12 <= length msg)%nat /\ be16_at msg 0 = id /\ forall a, ~ first_address msg a
    end.
Proof. apply parse_answer_spec. Qed.

(** An answer with an alias before the address. *)
Definition reply : list byte :=
  to_be16 7 ++ [x81; x80; x00; x01; x00; x02; x00; x00; x00; x00] ++ (enc_labels [bs "ya"; bs "ru"] ++ [x00; x00; x01; x00; x01]) ++
  enc_rec (mkRec [xc0; x0c] 5 1 [x00; x00; x00; x3c] [xc0; x0c]) ++ enc_rec (mkRec [xc0; x0c] 1 1 [x00; x00; x00; x3c] [x05; xff; xff; x46]).

Lemma dns_answer_exact_witness : parse_answer 7 reply tt = (Ret (Ipv4 [x05; xff; xff; x46]), tt) /\ first_address reply [x05; xff; xff; x46].
Proof.
  assert (Hr : parse_answer 7 reply tt = (Ret (Ipv4 [x05; xff; xff; x46]), tt)) by (vm_compute; reflexivity). split; [exact Hr|].
  destruct (dns_answer_exact 7 reply) as (r & E & H); [vm_compute; reflexivity|]. rewrite Hr in E. injection E as <-. apply H.
Defined.
