(* ===== verification/UserDns.v ===== *)
(** * The names of C programs

    [user/c/dns.h]: the query builder and the answer reader that the C network
    clients share.  An [int] is kept in its range, and leaving it, or touching a
    byte outside an array, is undefined (a [Panic]).  A C string is the bytes before
    its terminator, and a pointer into it the bytes from there on.

    The kernel has a reader and a builder of its own ([net/dns.rs]); the two agree. *)

From stdpp Require Import base numbers list gmap.
From Stdlib Require Import ZArith Lia.
From S2P Require Import Prelude Dns DnsTheorems.
#[local] Open Scope Z_scope.

(** A signed [int]. *)
Definition int (z : Z) : dprog Z := passert ((- 2 ^ 31 <=? z) && (z <? 2 ^ 31)) ;;! pret z.

(** [a[i]], and [a[i] = b]. *)
Definition rd (a : list byte) (i : Z) : dprog byte := if 0 <=? i then punwrap (a !! Z.to_nat i) else ppanic.
Definition wr (a : list byte) (i : Z) (b : byte) : dprog (list byte) :=
  passert ((0 <=? i) && (i <? Z.of_nat (length a))) ;;! pret (<[Z.to_nat i := b]> a).

(** [out[n++] = b] for each byte. *)
Fixpoint put_all (out : list byte) (n : Z) (bytes : list byte) : dprog (list byte * Z) :=
  match bytes with
  | [] => pret (out, n)
  | b :: bytes' =>
      let! out := wr out n b in
      let! n := int (n + 1) in
      put_all out n bytes'
  end.

(** [while ( *dot && *dot != '.') dot++]: what it passes, and where it stops. *)
Fixpoint to_dot (p : list byte) : list byte * list byte :=
  match p with
  | [] => ([], [])
  | c :: p' => if Byte.eqb c DOT then ([], p) else let (l, r) := to_dot p' in (c :: l, r)
  end.

(** The loop over the labels; [None] is the return of [-1]. *)
Fixpoint build_loop (fuel : nat) (p out : list byte) (n cap : Z) : dprog (option (list byte * Z)) :=
  match fuel with
  | O => pdiverge
  | S f =>
      match p with
      | [] => pret (Some (out, n))
      | _ =>
          let (label, dot) := to_dot p in
          let! len := int (Z.of_nat (length label)) in
          if (len =? 0) || (63 <? len) then pret None
          else
            let! e := int (n + 1) in
            let! e := int (e + len) in
            if cap <? e then pret None
            else
              let! '(out, n) := put_all out n (z2b len :: label) in
              build_loop f (match dot with [] => [] | _ :: rest => rest end) out n cap
      end
  end.

Definition dns_build (id : Z) (name out : list byte) (cap : Z) : dprog (option (list byte * Z)) :=
  if cap <? 12 then pret None
  else
    let! '(out, n) := put_all out 0
      [z2b (Z.shiftr id 8); z2b id; x01; x00; x00; x01; x00; x00; x00; x00; x00; x00] in
    let! r := build_loop (S (length name)) name out n cap in
    match r with
    | None => pret None
    | Some (out, n) =>
        let! e := int (n + 5) in
        if cap <? e then pret None
        else
          let! '(out, n) := put_all out n [x00; x00; x01; x00; x01] in
          pret (Some (out, n))
    end.

(** [dns_skip_name]; [-1] is [None]. *)
Fixpoint dns_skip_loop (fuel : nat) (msg : list byte) (len pos : Z) : dprog (option Z) :=
  match fuel with
  | O => pdiverge
  | S f =>
      if pos <? len then
        let! c := rd msg pos in
        if Z.land (b2z c) 0xc0 =? 0xc0 then
          let! e := int (pos + 2) in
          pret (if e <=? len then Some e else None)
        else if b2z c =? 0 then let! e := int (pos + 1) in pret (Some e)
        else
          let! pos := int (pos + (1 + b2z c)) in
          dns_skip_loop f msg len pos
      else pret None
  end.
Definition dns_skip_name (msg : list byte) (len pos : Z) : dprog (option Z) := dns_skip_loop (S (Z.to_nat len)) msg len pos.

(** [(msg[i] << 8) | msg[i + 1]] *)
Definition rd16 (msg : list byte) (i : Z) : dprog Z :=
  let! hi := rd msg i in
  let! i := int (i + 1) in
  let! lo := rd msg i in
  pret (Z.lor (Z.shiftl (b2z hi) 8) (b2z lo)).

Fixpoint first_a_questions (qd : nat) (msg : list byte) (len pos : Z) : dprog (option Z) :=
  match qd with
  | O => pret (Some pos)
  | S qd' =>
      let! p := dns_skip_name msg len pos in
      match p with
      | None => pret None
      | Some pos => let! pos := int (pos + 4) in first_a_questions qd' msg len pos
      end
  end.

Fixpoint first_a_answers (an : nat) (msg : list byte) (len pos : Z) : dprog (option (list byte)) :=
  match an with
  | O => pret None
  | S an' =>
      let! p := dns_skip_name msg len pos in
      match p with
      | None => pret None
      | Some pos =>
          let! rdata := int (pos + 10) in
          if len <? rdata then pret None
          else
            let! type := rd16 msg pos in
            let! cls := rd16 msg (pos + 2) in
            let! rdlen := rd16 msg (pos + 8) in
            let! rend := int (rdata + rdlen) in
            if len <? rend then pret None
            else if (type =? 1) && (cls =? 1) && (rdlen =? 4) then
              let! a := rd msg rdata in
              let! b := rd msg (rdata + 1) in
              let! c := rd msg (rdata + 2) in
              let! d := rd msg (rdata + 3) in
              pret (Some [a; b; c; d])
            else first_a_answers an' msg len rend
      end
  end.

(** The address, where the code returns 1. *)
Definition dns_first_a (msg : list byte) (len : Z) : dprog (option (list byte)) :=
  if len <? 12 then pret None
  else
    let! qd := rd16 msg 4 in
    let! an := rd16 msg 6 in
    let! pos := first_a_questions (Z.to_nat qd) msg len 12 in
    match pos with
    | None => pret None
    | Some pos => first_a_answers (Z.to_nat an) msg len pos
    end.

(** ** Lemmas *)

Definition INT_MAX : Z := 2 ^ 31 - 1.

Lemma int_ok z s : - 2 ^ 31 <= z < 2 ^ 31 -> int z s = (Ret z, s).
Proof.
  intros Hz. unfold int, pbind, passert. rewrite (proj2 (Z.leb_le _ _)), (proj2 (Z.ltb_lt _ _)) by lia. done.
Qed.

Lemma bind_int {A} z (k : Z -> dprog A) s : - 2 ^ 31 <= z < 2 ^ 31 -> pbind (int z) k s = k z s.
Proof. intros Hz. by rewrite (pbind_step _ _ _ _ _ (int_ok z s Hz)). Qed.

Lemma rd_at msg (i : nat) b s : msg !! i = Some b -> rd msg (Z.of_nat i) s = (Ret b, s).
Proof. intros Hb. unfold rd. rewrite (proj2 (Z.leb_le _ _)), Nat2Z.id, Hb by lia. done. Qed.

Lemma rd16_at msg (i : nat) hi lo s :
  Z.of_nat (length msg) <= 2 ^ 31 - 1 -> msg !! i = Some hi -> msg !! S i = Some lo -> rd16 msg (Z.of_nat i) s = (Ret (be16 hi lo), s).
Proof.
  intros Hl H1 H2. pose proof (lookup_lt_Some _ _ _ H2). unfold rd16. rewrite (pbind_step _ _ _ _ _ (rd_at _ _ _ _ H1)), bind_int by lia.
  replace (Z.of_nat i + 1) with (Z.of_nat (S i)) by lia. rewrite (pbind_step _ _ _ _ _ (rd_at _ _ _ _ H2)). unfold pret. do 2 f_equal.
  pose proof (b2z_range lo). by rewrite lor_shiftl_add by lia.
Qed.

(** What a reader of the kernel's gives a C program: [None] is an answer. *)
Definition opt_res {A B} (f : A -> B) (r : res unit A * unit) : res unit (option B) * unit :=
  (match r.1 with Ret a => Ret (Some (f a)) | Fail _ => Ret None | Panic => Panic | Diverge => Diverge end, tt).

Section Reader.
Context (msg : list byte) (Hm : Z.of_nat (length msg) <= INT_MAX - 2 ^ 17).

Lemma short_msg : short msg.
Proof. unfold short, INT_MAX in *. lia. Qed.

Lemma skip_loop_agrees fuel pos :
  dns_skip_loop fuel msg (Z.of_nat (length msg)) (Z.of_nat pos) tt = opt_res Z.of_nat (skip_name_loop fuel msg pos tt).
Proof using Hm.
  revert pos. induction fuel as [|fuel IH]; intros pos; cbn [dns_skip_loop skip_name_loop]; [done|].
  unfold INT_MAX in Hm. destruct (_ <? _) eqn:El; zbool.
  - destruct (msg_byte msg pos) as [b Hb]; [lia|]. pose proof (b2z_range b) as Hr.
    rewrite (pbind_step _ _ _ _ _ (rd_at _ _ _ _ Hb)), (pbind_step _ _ _ _ _ (get_ok _ _ _ tt Hb)). destruct (_ =? 0xc0).
    + rewrite bind_int by lia. rewrite (pbind_step _ _ _ _ _ (plus_usize_ok pos 1 tt ltac:(unfold U64; lia))).
      destruct (_ <=? _) eqn:E2; zbool.
      * destruct (msg_byte msg (pos + 1)) as [b' Hb']; [lia|]. rewrite (pbind_step _ _ _ _ _ (get_ok _ _ _ tt Hb')).
        rewrite plus_usize_ok by (unfold U64; lia). unfold pret, opt_res. cbn [fst]. do 3 f_equal. lia.
      * unfold pbind, get, try_opt. by rewrite lookup_ge_None_2 by lia.
    + destruct (_ =? 0).
      * rewrite bind_int by lia. rewrite plus_usize_ok by (unfold U64; lia). unfold pret, opt_res. cbn [fst]. do 3 f_equal. lia.
      * rewrite bind_int by lia. rewrite (pbind_step _ _ _ _ _ (checked_add_ok pos (1 + Z.to_nat (b2z b)) tt ltac:(unfold U64; lia))).
        rewrite <- IH. f_equal. lia.
  - unfold pbind, get, try_opt. by rewrite lookup_ge_None_2 by lia.
Qed.

Lemma skip_agrees pos : dns_skip_name msg (Z.of_nat (length msg)) (Z.of_nat pos) tt = opt_res Z.of_nat (skip_name msg pos tt).
Proof using Hm. unfold dns_skip_name, skip_name. rewrite Nat2Z.id. apply skip_loop_agrees. Qed.

(** A name ends within the message. *)
Lemma skip_cases pos : skip_name msg pos tt = (Fail tt, tt) \/ exists p, (p <= length msg)%nat /\ skip_name msg pos tt = (Ret p, tt).
Proof using Hm.
  pose proof (wp_skip_name msg pos short_msg) as W. unfold wp in W. destruct (skip_name msg pos tt) as [[p|[]| |] []]; try done; [right|by left].
  exists p. split; [|done]. destruct W as (nm & (ls & e & _ & _ & ->) & Hd & ->). apply (f_equal length) in Hd.
  rewrite length_drop, !length_app, length_drop in Hd. rewrite length_app. destruct e; cbn in *; lia.
Qed.

Lemma questions_agree n pos :
  first_a_questions n msg (Z.of_nat (length msg)) (Z.of_nat pos) tt = opt_res Z.of_nat (skip_questions n msg pos tt).
Proof using Hm.
  revert pos. induction n as [|n IH]; intros pos; cbn [first_a_questions skip_questions]; [done|]. unfold INT_MAX in Hm.
  unfold pbind at 1. rewrite skip_agrees. destruct (skip_cases pos) as [E|(p & Hp & E)].
  - unfold pbind. by rewrite E.
  - rewrite (pbind_step _ _ _ _ _ E), E. cbn [opt_res fst]. rewrite bind_int by lia.
    rewrite (pbind_step _ _ _ _ _ (checked_add_ok p 4 tt ltac:(unfold U64; lia))). rewrite <- IH. f_equal. lia.
Qed.

(** The two bytes of a field, as both readers see them. *)
Lemma field_agrees (pos d : nat) :
  (pos + d + 2 <= length msg)%nat ->
  exists x, 0 <= x < 65536 /\ get_be16 msg pos d tt = (Ret x, tt) /\ forall i, i = Z.of_nat (pos + d) -> rd16 msg i tt = (Ret x, tt).
Proof using Hm.
  intros Hl. destruct (msg_byte msg (pos + d)) as [hi H1]; [lia|]. destruct (msg_byte msg (pos + (d + 1))) as [lo H2]; [lia|].
  exists (be16 hi lo). split; [apply to_be16_of|]. pose proof Hm as Hm'. unfold INT_MAX in Hm'. split.
  - unfold get_be16. rewrite (pbind_step _ _ _ _ _ (plus_usize_ok pos d tt ltac:(unfold U64; lia))).
    rewrite (pbind_step _ _ _ _ _ (get_ok _ _ _ tt H1)), (pbind_step _ _ _ _ _ (plus_usize_ok pos (d + 1) tt ltac:(unfold U64; lia))).
    by rewrite (pbind_step _ _ _ _ _ (get_ok _ _ _ tt H2)).
  - intros i ->. apply rd16_at; [lia|done|]. by replace (S (pos + d)) with (pos + (d + 1))%nat by lia.
Qed.

Lemma byte_agrees (i : nat) :
  (i < length msg)%nat -> exists b, index msg i tt = (Ret b, tt) /\ forall j, j = Z.of_nat i -> rd msg j tt = (Ret b, tt).
Proof.
  intros Hi. destruct (msg_byte msg i Hi) as [b Hb]. exists b. split; [by apply index_ok|]. intros j ->. by apply rd_at.
Qed.

(** A record that does not reach its length field. *)
Lemma cut_record {A} pos (k : Z -> Z -> Z -> dprog A) :
  (pos <= length msg)%nat -> (length msg < pos + 10)%nat ->
  (let! t := get_be16 msg pos 0 in let! c := get_be16 msg pos 2 in let! l := get_be16 msg pos 8 in k t c l) tt = (Fail tt, tt).
Proof using Hm.
  intros Hp Hl. set (m := pbind _ _). assert (W : wp m (fun _ _ => False) (fun _ _ => True) tt).
  { subst m. apply wp_bind, wp_get_be16; [apply short_msg|done|lia| |done]. intros b0 b1 _ _.
    apply wp_bind, wp_get_be16; [apply short_msg|done|lia| |done]. intros b2 b3 _ _.
    apply wp_bind, wp_get_be16; [apply short_msg|done|lia| |done]. intros b8 b9 _ H9. apply lookup_lt_Some in H9. lia. }
  unfold wp in W. by destruct (m tt) as [[a|[]| |] []].
Qed.

Lemma answers_agree n pos :
  first_a_answers n msg (Z.of_nat (length msg)) (Z.of_nat pos) tt = opt_res id (scan_answers n msg pos tt).
Proof using Hm.
  revert pos. induction n as [|n IH]; intros pos; cbn [first_a_answers scan_answers]; [done|]. pose proof Hm as Hm'. unfold INT_MAX in Hm'.
  unfold pbind at 1. rewrite skip_agrees. destruct (skip_cases pos) as [E|(p & Hp & E)]; [unfold pbind; by rewrite E|].
  rewrite (pbind_step _ _ _ _ _ E), E. cbn [opt_res fst]. rewrite bind_int by lia. destruct (_ <? _) eqn:El; zbool.
  { by rewrite cut_record by lia. }
  destruct (field_agrees p 0) as (t & Ht & Kt & Ct); [lia|]. rewrite (pbind_step _ _ _ _ _ Kt), (pbind_step _ _ _ _ _ (Ct (Z.of_nat p) ltac:(lia))).
  destruct (field_agrees p 2) as (c & Hc & Kc & Cc); [lia|]. rewrite (pbind_step _ _ _ _ _ Kc), (pbind_step _ _ _ _ _ (Cc (Z.of_nat p + 2) ltac:(lia))).
  destruct (field_agrees p 8) as (l & Hl & Kl & Cl); [lia|]. rewrite (pbind_step _ _ _ _ _ Kl), (pbind_step _ _ _ _ _ (Cl (Z.of_nat p + 8) ltac:(lia))).
  rewrite bind_int by lia. rewrite (pbind_step _ _ _ _ _ (checked_add_ok p 10 tt ltac:(unfold U64; lia))).
  rewrite (pbind_step _ _ _ _ _ (checked_add_ok (p + 10) (Z.to_nat l) tt ltac:(unfold U64; lia))).
  destruct (length msg <? _)%nat eqn:Ee; zbool.
  { rewrite (proj2 (Z.ltb_lt _ _)) by lia. done. }
  rewrite (proj2 (Z.ltb_ge _ _)) by lia. unfold QTYPE_A, QCLASS_IN. destruct (_ && _) eqn:Ea.
  - apply andb_true_iff in Ea as [_ E4]. zbool.
    destruct (byte_agrees (p + 10)) as (a0 & K0 & C0); [lia|]. rewrite (pbind_step _ _ _ _ _ K0), (pbind_step _ _ _ _ _ (C0 (Z.of_nat p + 10) ltac:(lia))).
    destruct (byte_agrees (p + 10 + 1)) as (a1 & K1 & C1); [lia|]. rewrite (pbind_step _ _ _ _ _ K1), (pbind_step _ _ _ _ _ (C1 (Z.of_nat p + 10 + 1) ltac:(lia))).
    destruct (byte_agrees (p + 10 + 2)) as (a2 & K2 & C2); [lia|]. rewrite (pbind_step _ _ _ _ _ K2), (pbind_step _ _ _ _ _ (C2 (Z.of_nat p + 10 + 2) ltac:(lia))).
    destruct (byte_agrees (p + 10 + 3)) as (a3 & K3 & C3); [lia|]. rewrite (pbind_step _ _ _ _ _ K3), (pbind_step _ _ _ _ _ (C3 (Z.of_nat p + 10 + 3) ltac:(lia))). done.
  - rewrite <- IH. f_equal. lia.
Qed.

Lemma first_a_agrees : (12 <= length msg)%nat -> rcode msg = 0 ->
  dns_first_a msg (Z.of_nat (length msg)) tt = opt_res id (find_a msg tt).
Proof using Hm.
  intros Hl Hrc. rewrite find_a_header, Hrc by done. cbn [Z.eqb negb]. unfold dns_first_a. rewrite (proj2 (Z.ltb_ge _ _)) by lia.
  assert (Hf : forall B (k : Z -> dprog B) i, (i + 2 <= 12)%nat -> pbind (rd16 msg (Z.of_nat i)) k tt = k (be16_at msg i) tt).
  { intros B k i Hi. destruct (msg_byte msg i) as [hi H1]; [lia|]. destruct (msg_byte msg (S i)) as [lo H2]; [lia|].
    rewrite (pbind_step _ _ _ _ _ (rd16_at msg i hi lo tt ltac:(unfold INT_MAX in *; lia) H1 H2)). unfold be16_at. replace (i + 1)%nat with (S i) by lia. by rewrite H1, H2. }
  change 4 with (Z.of_nat 4). rewrite Hf by lia. change 6 with (Z.of_nat 6). rewrite Hf by lia.
  change 12 with (Z.of_nat 12). unfold pbind. rewrite questions_agree.
  destruct (skip_questions _ msg 12 tt) as [[p|[]| |] []]; try done. cbn [opt_res fst]. apply answers_agree.
Qed.
End Reader.

(** ** The builder *)

Lemma to_dot_spec p : exists l r, to_dot p = (l, r) /\ p = l ++ r /\ (DOT ∉ l) /\ (r = [] \/ exists r', r = DOT :: r').
Proof.
  induction p as [|c p IH]; cbn [to_dot]; [exists [], []; split_and!; [done..|apply not_elem_of_nil|by left]|].
  destruct (Byte.eqb c DOT) eqn:E.
  - apply Byte.byte_dec_bl in E as ->. exists [], (DOT :: p). split_and!; [done..|apply not_elem_of_nil|eauto].
  - destruct IH as (l & r & -> & -> & Hl & Hr). exists (c :: l), r. split_and!; [done..| |done].
    apply not_elem_of_cons. split; [|done]. intros <-. by rewrite (Byte.byte_dec_lb eq_refl) in E.
Qed.

(** The labels the loop sees: those of the kernel, and none for the empty name. *)
Definition labels (p : list byte) : list (list byte) := match p with [] => [] | _ => split_dot (strip_dot p) end.

Lemma strip_dot_none l : DOT ∉ l -> strip_dot l = l.
Proof.
  intros Hl. unfold strip_dot. destruct (last l) as [c|] eqn:E; [|done]. destruct (Byte.eqb c DOT) eqn:Ec; [|done].
  apply Byte.byte_dec_bl in Ec as ->. apply last_Some in E as [l' ->]. set_solver.
Qed.

Lemma strip_dot_last l : strip_dot (l ++ [DOT]) = l.
Proof.
  unfold strip_dot. rewrite last_snoc, (Byte.byte_dec_lb eq_refl), length_app, Nat.add_sub, take_app_length. done.
Qed.

Lemma strip_dot_app l r : r <> [] -> strip_dot (l ++ r) = l ++ strip_dot r.
Proof.
  intros Hr. destruct r as [|x r _] using rev_ind; [done|]. unfold strip_dot. rewrite app_assoc, !last_snoc. destruct (Byte.eqb x DOT); [|by rewrite app_assoc].
  rewrite !length_app, !Nat.add_sub, <- length_app, !take_app_length. done.
Qed.

Lemma labels_step p l r : p <> [] -> to_dot p = (l, r) -> labels p = l :: labels (tail r).
Proof.
  intros Hp E. destruct (to_dot_spec p) as (l' & r' & E' & Hpr & Hl & Hr). rewrite E in E'. injection E' as <- <-.
  assert (Hlab : labels p = split_dot (strip_dot p)) by (by destruct p). rewrite Hlab, Hpr. destruct Hr as [->|[r' ->]]; cbn [tail].
  - rewrite app_nil_r, strip_dot_none, split_dot_none by done. done.
  - destruct r' as [|c r'].
    + rewrite strip_dot_last, split_dot_none by done. done.
    + change (DOT :: c :: r') with ([DOT] ++ c :: r'). rewrite app_assoc, strip_dot_app, <- app_assoc by done. cbn [app]. by rewrite split_dot_app.
Qed.

Section Builder.
Context (out : list byte) (Ho : Z.of_nat (length out) <= INT_MAX - 2 ^ 17).
#[local] Abbreviation len l := (Z.of_nat (length l)).

Lemma put_all_front bytes w :
  (length (w ++ bytes) <= length out)%nat -> put_all (front w out) (len w) bytes tt = (Ret (front (w ++ bytes) out, len (w ++ bytes)), tt).
Proof using Ho.
  revert w. unfold INT_MAX in Ho. induction bytes as [|b bytes IH]; intros w Hw; cbn [put_all]; [by rewrite app_nil_r|].
  rewrite length_app in Hw. cbn [length] in Hw.
  assert (Hwr : wr (front w out) (len w) b tt = (Ret (front (w ++ [b]) out), tt)).
  { unfold wr, pbind, passert, front. rewrite length_app, length_drop. rewrite (proj2 (Z.leb_le _ _)), (proj2 (Z.ltb_lt _ _)) by lia. cbn [andb].
    unfold pret. do 2 f_equal. rewrite Nat2Z.id, <- (Nat.add_0_r (length w)) at 1. rewrite insert_app_r, length_app, <- app_assoc. f_equal.
    destruct (lookup_lt_is_Some_2 out (length w)) as [x Hx]; [lia|]. rewrite (drop_S _ _ _ Hx). cbn [length app]. by rewrite Nat.add_1_r. }
  rewrite (pbind_step _ _ _ _ _ Hwr), bind_int by lia. replace (len w + 1) with (len (w ++ [b])) by (rewrite length_app; cbn; lia).
  rewrite IH by (rewrite !length_app; cbn; lia). by rewrite <- app_assoc.
Qed.

Lemma build_loop_labels fuel p w :
  (length p < fuel)%nat -> (length w <= length out)%nat -> len p <= INT_MAX ->
  build_loop fuel p (front w out) (len w) (len out) tt =
  let ls := labels p in
  if forallb label_ok ls && (length (w ++ enc_labels ls) <=? length out)%nat
  then (Ret (Some (front (w ++ enc_labels ls) out, len (w ++ enc_labels ls))), tt) else (Ret None, tt).
Proof using Ho.
  revert p w. unfold INT_MAX in *. induction fuel as [|fuel IH]; intros p w Hf Hw Hp; cbn [build_loop]; [lia|].
  destruct p as [|c0 p0] eqn:Ep; [|rewrite <- Ep in *; assert (Hne : p <> []) by (by rewrite Ep); clear Ep].
  { cbn [labels forallb andb]. change (enc_labels []) with (@nil byte). rewrite app_nil_r, (proj2 (Nat.leb_le _ _)) by done. done. }
  destruct (to_dot_spec p) as (l & r & E & Hpr & _ & Hr). rewrite E. rewrite (labels_step p l r Hne E). cbv zeta.
  assert (Hlr : (length p = length l + length r)%nat) by (by rewrite Hpr, length_app).
  rewrite bind_int by lia. cbn [forallb]. unfold label_ok at 1. destruct (len l =? 0) eqn:E0; zbool; cbn [orb].
  { rewrite (proj2 (Nat.eqb_eq _ _)) by lia. done. }
  rewrite (proj2 (Nat.eqb_neq _ _)) by lia. cbn [negb andb]. destruct (63 <? len l) eqn:E1; zbool.
  { rewrite (proj2 (Nat.leb_gt _ _)) by lia. done. }
  rewrite (proj2 (Nat.leb_le _ _)) by lia. cbn [andb]. rewrite !bind_int by lia. rewrite enc_labels_cons, app_comm_cons.
  destruct (len out <? _) eqn:E2; zbool.
  { rewrite (proj2 (Nat.leb_gt _ _)) by (rewrite !length_app; cbn [length]; lia). by rewrite andb_false_r. }
  assert (Hfit : (length (w ++ z2b (len l) :: l) <= length out)%nat) by (rewrite length_app; cbn [length]; lia).
  rewrite (pbind_step _ _ _ _ _ (put_all_front _ _ Hfit)). replace (match r with [] => [] | _ :: rest => rest end) with (tail r) by (by destruct r).
  assert (Ht : (length (tail r) < length p)%nat) by (destruct r; cbn [tail length] in *; lia).
  rewrite IH by (done || lia). cbv zeta. by rewrite <- !app_assoc.
Qed.

Lemma dns_build_query id name : 0 <= id < 65536 -> name <> [] -> len name <= INT_MAX ->
  dns_build id name out (len out) tt = opt_res (fun r => (r.1, Z.of_nat r.2)) (build_query id name out tt).
Proof using Ho.
  intros Hid Hne Hn. rewrite build_query_labels by (unfold short, INT_MAX in *; lia). cbv zeta.
  assert (Hlab : split_dot (strip_dot name) = labels name) by (by destruct name). rewrite Hlab. set (ls := labels name).
  assert (Hlen : length (query id ls) = (17 + length (enc_labels ls))%nat) by (unfold query; rewrite !length_app; cbn; lia).
  unfold dns_build. destruct (len out <? 12) eqn:E; zbool.
  { rewrite (proj2 (Nat.leb_gt _ _)) by lia. by rewrite andb_false_r. }
  set (hd := [_; _; x01; x00; x00; x01; x00; x00; x00; x00; x00; x00]).
  assert (Hhd : put_all out 0 hd tt = (Ret (front hd out, 12), tt)).
  { change out with (front [] out) at 1. change 0 with (len (@nil byte)). rewrite put_all_front by (cbn; lia). done. }
  rewrite (pbind_step _ _ _ _ _ Hhd). change 12 with (len hd). unfold pbind at 1. rewrite build_loop_labels by (done || cbn; lia). fold ls. cbv zeta.
  destruct (forallb label_ok ls); cbn [andb]; [|done]. assert (Hw : length (hd ++ enc_labels ls) = (12 + length (enc_labels ls))%nat) by (by rewrite length_app).
  unfold INT_MAX in *. destruct (length (hd ++ _) <=? _)%nat eqn:E1; zbool; [|by rewrite (proj2 (Nat.leb_gt _ _)) by lia].
  rewrite bind_int by lia. destruct (len out <? _) eqn:E2; zbool; [by rewrite (proj2 (Nat.leb_gt _ _)) by lia|].
  rewrite (proj2 (Nat.leb_le _ _)) by lia. rewrite (pbind_step _ _ _ _ _ (put_all_front [x00; x00; x01; x00; x01] (hd ++ enc_labels ls) ltac:(rewrite length_app; cbn [length]; lia))).
  assert (Hq : (hd ++ enc_labels ls) ++ [x00; x00; x01; x00; x01] = query id ls).
  { unfold query, hd, to_be16. rewrite <- !app_assoc. cbn [app]. rewrite Z.shiftr_div_pow2 by lia. change (2 ^ 8) with 256. do 2 f_equal.
    unfold z2b. by rewrite Z.mod_mod by lia. }
  rewrite Hq. done.
Qed.
End Builder.

(** ** Properties *)


(** An answer for [ya.ru]: the question, and an address record whose name points
    to it. *)
Definition sample_answer : list byte :=
  [x12; x34; x81; x80; x00; x01; x00; x01; x00; x00; x00; x00; x02] ++ bs "ya" ++ [x02] ++ bs "ru" ++ [x00; x00; x01; x00; x01] ++
  [xc0; x0c; x00; x01; x00; x01; x00; x00; x00; x3c; x00; x04; x4d; x58; x37; xf2].

