(* ===== verification/Files.v ===== *)
(** * File system calls

    [syscall/files.rs]: the descriptor tables of the processes, files with
    write-back, pipes, directories, the heap break, and sockets.  Pipe buffers
    and socket reference counts are cells of a shared store, as the [Arc]s of
    the source are; a descriptor that is cloned or dropped updates its cell.
    A read that blocks ends with what is left to do when its thread runs
    again. *)

From stdpp Require Import base numbers list gmap.
From Stdlib Require Import ZArith Lia.
From S2P Require Import Prelude BlockDev Fat Vfs Abi Uaccess Paging Vga Machine Context Sched Console NetStack.
#[local] Open Scope Z_scope.

Definition MAX_FDS : nat := 16.

Definition SEEK_SET : Z := 0.
Definition SEEK_CUR : Z := 1.
Definition SEEK_END : Z := 2.

Definition USER_HEAP_BASE : Z := 0x7F8020000000.
Definition USER_HEAP_MAX : Z := USER_HEAP_BASE + 0x40000000.

(** [mm/heap.rs]: no buffer larger than the kernel heap can be allocated. *)
Definition HEAP_SIZE : Z := 1024 * 1024.

(** ** Data *)

Record OpenFile : Type := mkOpenFile {
  f_name : list byte;
  f_data : list byte;
  f_offset : Z;
  f_writable : bool;
  f_dirty : bool;
  f_is_dir : bool
}.

Definition set_f_offset (o : Z) (f : OpenFile) : OpenFile :=
  mkOpenFile (f_name f) (f_data f) o (f_writable f) (f_dirty f) (f_is_dir f).

Record SocketEnd : Type := mkSocketEnd { handle : Z; s_kind : SockKind; refs : nat }.

(** A pipe end names the cell of its shared buffer. *)
Inductive Fd : Type :=
| FdConsole
| FdVga
| FdSerial
| FdFile (f : OpenFile)
| FdPipeRead (buf : nat)
| FdPipeWrite (buf : nat)
| FdSocket (s : SocketEnd).

Record PipeBuf : Type := mkPipeBuf { p_data : list byte; readers : Z; writers : Z }.

Record ProcState : Type := mkProcState {
  fds : list (option Fd);
  cwd : list byte;
  brk : Z
}.

Definition set_fds (l : list (option Fd)) (p : ProcState) : ProcState := mkProcState l (cwd p) (brk p).
Definition set_cwd (c : list byte) (p : ProcState) : ProcState := mkProcState (fds p) c (brk p).
Definition set_brk (b : Z) (p : ProcState) : ProcState := mkProcState (fds p) (cwd p) b.

(** [ProcState::default] *)
Definition ProcState_default : ProcState :=
  mkProcState [Some FdConsole; Some FdVga; Some FdSerial] (bs "/") USER_HEAP_BASE.

(** The statics of [syscall/mod.rs] (descriptor, length, byte sum and stack
    pointer of the last device write; the exits) and the tick counter. *)
Record Stats : Type := mkStats {
  LAST_WRITE : Z * Z * Z * Z;
  LAST_EXIT_CODE : Z;
  EXIT_CODE_SUM : Z;
  EXIT_CALLS : Z;
  TICKS : Z
}.

Definition set_last_write (x : Z * Z * Z * Z) (t : Stats) : Stats :=
  mkStats x (LAST_EXIT_CODE t) (EXIT_CODE_SUM t) (EXIT_CALLS t) (TICKS t).

(** The kernel state the calls work on: the registry, the [Arc] cells, the
    address spaces by their root, and the components behind the descriptors. *)
Record Sys (D N F : Type) : Type := mkSys {
  tty : Tty;
  PROCESSES : gmap Z ProcState;
  PIPES : gmap nat PipeBuf;
  ARCS : gmap nat Z;
  SPACES : gmap Z UserSpace;
  FRAMES : option F;
  NET : N;
  DISK : D;
  SERIAL : list byte;
  STATS : Stats
}.
Arguments mkSys {D N F}.
Arguments tty {D N F}.
Arguments PROCESSES {D N F}.
Arguments PIPES {D N F}.
Arguments ARCS {D N F}.
Arguments SPACES {D N F}.
Arguments FRAMES {D N F}.
Arguments NET {D N F}.
Arguments DISK {D N F}.
Arguments SERIAL {D N F}.
Arguments STATS {D N F}.

(** A read that waits: for a line, for a pipe, or inside a [readv] with the
    vectors that are left, the length of the one being filled and the total. *)
Inductive Pending : Type :=
| WaitStdin (buf count : Z)
| WaitPipe (pipe : nat) (buf count : Z)
| WaitReadv (fd iov : Z) (rest : list Z) (len total : Z) (p : Pending).

Section Files.
Context {D N F : Type} {BD : BlockDev D} {NS : NetStack N} {M : Mapper F}.
Context (rsp_cell : nat -> Z) (resume : Z).
Implicit Types s : Sys D N F.

Definition set_tty (x : Tty) s : Sys D N F :=
  mkSys x (PROCESSES s) (PIPES s) (ARCS s) (SPACES s) (FRAMES s) (NET s) (DISK s) (SERIAL s) (STATS s).
Definition set_procs (x : gmap Z ProcState) s : Sys D N F :=
  mkSys (tty s) x (PIPES s) (ARCS s) (SPACES s) (FRAMES s) (NET s) (DISK s) (SERIAL s) (STATS s).
Definition set_pipes (x : gmap nat PipeBuf) s : Sys D N F :=
  mkSys (tty s) (PROCESSES s) x (ARCS s) (SPACES s) (FRAMES s) (NET s) (DISK s) (SERIAL s) (STATS s).
Definition set_arcs (x : gmap nat Z) s : Sys D N F :=
  mkSys (tty s) (PROCESSES s) (PIPES s) x (SPACES s) (FRAMES s) (NET s) (DISK s) (SERIAL s) (STATS s).
Definition set_mm (x : gmap Z UserSpace) (f : option F) s : Sys D N F :=
  mkSys (tty s) (PROCESSES s) (PIPES s) (ARCS s) x f (NET s) (DISK s) (SERIAL s) (STATS s).
Definition set_net (x : N) s : Sys D N F :=
  mkSys (tty s) (PROCESSES s) (PIPES s) (ARCS s) (SPACES s) (FRAMES s) x (DISK s) (SERIAL s) (STATS s).
Definition set_disk (x : D) s : Sys D N F :=
  mkSys (tty s) (PROCESSES s) (PIPES s) (ARCS s) (SPACES s) (FRAMES s) (NET s) x (SERIAL s) (STATS s).
Definition set_serial (x : list byte) s : Sys D N F :=
  mkSys (tty s) (PROCESSES s) (PIPES s) (ARCS s) (SPACES s) (FRAMES s) (NET s) (DISK s) x (STATS s).
Definition set_stats (x : Stats) s : Sys D N F :=
  mkSys (tty s) (PROCESSES s) (PIPES s) (ARCS s) (SPACES s) (FRAMES s) (NET s) (DISK s) (SERIAL s) x.

Definition sysp (A : Type) : Type := prog (Sys D N F) Empty_set A.

(** [current_key]: the root of the page tables in CR3. *)
Definition current_key s : Z := cr3 (cpu (kern (tty s))).

Definition empty_space : UserSpace := {| us_pages := ∅; us_mem := ∅ |}.

(** The user half of the active address space. *)
Definition user_space s : UserSpace := default empty_space (SPACES s !! current_key s).

(** ** The components behind the calls *)

Definition in_user {E A} (m : prog UserSpace E A) : prog (Sys D N F) E A :=
  pzoom user_space (fun us s => set_mm (<[current_key s := us]> (SPACES s)) (FRAMES s) s) m.

Definition in_mm {E A} (m : prog (UserSpace * option F) E A) : prog (Sys D N F) E A :=
  pzoom (fun s => (user_space s, FRAMES s))
    (fun mm s => set_mm (<[current_key s := mm.1]> (SPACES s)) mm.2 s) m.

Definition in_kernel {A} (m : kprog A) : sysp A :=
  pzoom (fun s => kern (tty s)) (fun k s => set_tty (set_kern k (tty s)) s) m.

Definition in_console {A} (m : prog (option Console) Empty_set A) : sysp A :=
  pzoom (fun s => CONSOLE (tty s)) (fun c s => set_tty (set_console c (tty s)) s) m.

Definition in_screen {A} (m : sprog A) : sysp A :=
  pzoom (fun s => screen (tty s)) (fun c s => set_tty (set_screen c (tty s)) s) m.

Definition in_disk {A} (m : prog D FatError A) : prog (Sys D N F) FatError A := pzoom DISK set_disk m.

Definition in_net {E A} (m : prog N E A) : prog (Sys D N F) E A := pzoom NET set_net m.

(** ** Descriptors as shared references *)

Definition pipe_cell (p : nat) : sysp PipeBuf := let! s := pget in punwrap (PIPES s !! p).

Definition put_pipe (p : nat) (b : PipeBuf) : sysp unit :=
  pmodify (fun s => set_pipes (<[p := b]> (PIPES s)) s).

Definition arc_count (r : nat) : sysp Z := let! s := pget in punwrap (ARCS s !! r).

Definition put_arc (r : nat) (n : Z) : sysp unit := pmodify (fun s => set_arcs (<[r := n]> (ARCS s)) s).

(** [PipeRead::clone], [PipeWrite::clone], [SocketEnd::clone]; the other
    backings are copied. *)
Definition clone_fd (fd : Fd) : sysp Fd :=
  match fd with
  | FdPipeRead p =>
      let! b := pipe_cell p in
      let! n := u64_add (readers b) 1 in
      put_pipe p (mkPipeBuf (p_data b) n (writers b)) ;;! pret fd
  | FdPipeWrite p =>
      let! b := pipe_cell p in
      let! n := u64_add (writers b) 1 in
      put_pipe p (mkPipeBuf (p_data b) (readers b) n) ;;! pret fd
  | FdSocket e =>
      let! n := arc_count (refs e) in
      put_arc (refs e) (n + 1) ;;! pret fd
  | _ => pret fd
  end.

(** [PipeRead::drop], [PipeWrite::drop], [SocketEnd::drop]. *)
Definition drop_fd (fd : Fd) : sysp unit :=
  match fd with
  | FdPipeRead p =>
      let! b := pipe_cell p in
      let! n := u64_sub (readers b) 1 in
      put_pipe p (mkPipeBuf (p_data b) n (writers b)) ;;!
      if n =? 0 then in_kernel wake_pipe_waiters else pret tt
  | FdPipeWrite p =>
      let! b := pipe_cell p in
      let! n := u64_sub (writers b) 1 in
      put_pipe p (mkPipeBuf (p_data b) (readers b) n) ;;!
      if n =? 0 then in_kernel wake_pipe_waiters else pret tt
  | FdSocket e =>
      let! n := arc_count (refs e) in
      (if n =? 1 then in_net (close_socket (handle e)) else pret tt) ;;!
      put_arc (refs e) (n - 1)
  | _ => pret tt
  end.

Definition clone_slot (o : option Fd) : sysp (option Fd) :=
  match o with
  | Some fd => let! fd' := clone_fd fd in pret (Some fd')
  | None => pret None
  end.

Definition drop_slot (o : option Fd) : sysp unit :=
  match o with Some fd => drop_fd fd | None => pret tt end.

Fixpoint clone_slots (l : list (option Fd)) : sysp (list (option Fd)) :=
  match l with
  | [] => pret []
  | o :: l' => let! o' := clone_slot o in let! r := clone_slots l' in pret (o' :: r)
  end.

Fixpoint drop_slots (l : list (option Fd)) : sysp unit :=
  match l with
  | [] => pret tt
  | o :: l' => drop_slot o ;;! drop_slots l'
  end.

(** Dropping or overwriting the entry of a process drops its descriptors. *)
Definition drop_proc (o : option ProcState) : sysp unit :=
  match o with Some p => drop_slots (fds p) | None => pret tt end.

Definition insert_proc (key : Z) (p : ProcState) : sysp unit :=
  let! s := pget in
  pput (set_procs (<[key := p]> (PROCESSES s)) s) ;;!
  drop_proc (PROCESSES s !! key).

(** ** The registry *)

Definition forget_process (cr3_phys : Z) : sysp unit :=
  let! s := pget in
  pput (set_procs (delete cr3_phys (PROCESSES s)) s) ;;!
  drop_proc (PROCESSES s !! cr3_phys).

Definition process_count : sysp nat := let! s := pget in pret (base.size (PROCESSES s)).

Definition rekey_process (old_cr3 new_cr3 : Z) : sysp unit :=
  let! s := pget in
  match PROCESSES s !! old_cr3 with
  | Some p =>
      pput (set_procs (delete old_cr3 (PROCESSES s)) s) ;;!
      insert_proc new_cr3 (set_brk USER_HEAP_BASE p)
  | None => pret tt
  end.

Definition fork_fds (parent_cr3 child_cr3 : Z) : sysp unit :=
  let! s := pget in
  match PROCESSES s !! parent_cr3 with
  | Some p =>
      let! l := clone_slots (fds p) in
      insert_proc child_cr3 (mkProcState l (cwd p) (brk p))
  | None => pret tt
  end.

(** [with_current_proc]: the entry is created on the first use; what the
    closure leaves is put back. *)
Definition current_proc : sysp ProcState :=
  let! s := pget in
  match PROCESSES s !! current_key s with
  | Some p => pret p
  | None => pput (set_procs (<[current_key s := ProcState_default]> (PROCESSES s)) s) ;;! pret ProcState_default
  end.

Definition put_current_proc (p : ProcState) : sysp unit :=
  pmodify (fun s => set_procs (<[current_key s := p]> (PROCESSES s)) s).

Definition current_fds : sysp (list (option Fd)) := let! p := current_proc in pret (fds p).

Definition put_current_fds (l : list (option Fd)) : sysp unit :=
  let! p := current_proc in put_current_proc (set_fds l p).

(** [fds.get(fd).and_then(|s| s.as_ref())] *)
Definition get_fd (l : list (option Fd)) (fd : Z) : option Fd :=
  if (0 <=? fd) && (fd <? Z.of_nat (length l)) then mjoin (l !! Z.to_nat fd) else None.

(** A store to a slot that exists. *)
Definition set_slot (l : list (option Fd)) (fd : Z) (o : option Fd) : list (option Fd) :=
  <[Z.to_nat fd := o]> l.

(** The write-back of a dirty file, its failure ignored. *)
Definition release_one (o : option Fd) : sysp unit :=
  (match o with
   | Some (FdFile f) =>
       if f_writable f && f_dirty f then
         ptry (in_disk (Vfs.write_file (f_name f) (f_data f))) ;;! pret tt
       else pret tt
   | _ => pret tt
   end) ;;!
  drop_slot o.

Definition release_current_process_fds : sysp unit :=
  let! s := pget in
  match PROCESSES s !! current_key s with
  | Some p =>
      pput (set_procs (<[current_key s := set_fds [] p]> (PROCESSES s)) s) ;;!
      pfold (fun _ o => release_one o) (fds p) tt
  | None => pret tt
  end.

(** ** Paths *)

(** One component of [normalize]. *)
Definition push_comp (comps : list (list byte)) (part : list byte) : list (list byte) :=
  if bytes_eqb part [] || bytes_eqb part (bs ".") then comps
  else if bytes_eqb part (bs "..") then take (pred (length comps)) comps
  else comps ++ [part].

(** [comps.join("/")] *)
Fixpoint join (sep : byte) (l : list (list byte)) : list byte :=
  match l with
  | [] => []
  | [x] => x
  | x :: l' => x ++ sep :: join sep l'
  end.

Definition normalize (path : list byte) : list byte :=
  x2f :: join x2f (foldl push_comp [] (split_on x2f path)).

Definition resolve_from (dir path : list byte) : list byte :=
  match path with
  | x2f :: _ => normalize path
  | _ => normalize ((if bool_decide (last dir = Some x2f) then dir else dir ++ [x2f]) ++ path)
  end.

Definition resolve_path (path : list byte) : sysp (list byte) :=
  match path with
  | x2f :: _ => pret (normalize path)
  | _ => let! p := current_proc in pret (resolve_from (cwd p) path)
  end.

(** [path_arg]; [open], [chdir] and [mkdir] write the same steps out. *)
Definition path_arg (path_ptr : Z) : prog (Sys D N F) Z (list byte) :=
  let! path := in_user (read_user_cstr path_ptr) in
  if negb (utf8_ok path) then pfail ENOENT
  else match path with
       | [] => pfail ENOENT
       | _ => pmap_err (fun e : Empty_set => match e with end) (resolve_path path)
       end.

Definition fat_errno (e : FatError) : Z :=
  match e with
  | NotFound => ENOENT
  | IsADirectory => EISDIR
  | NotADirectory => ENOTDIR
  | AlreadyExists => EEXIST
  | NotEmpty => ENOTEMPTY
  | NoSpace | DirFull => ENOSPC
  | _ => EIO
  end.

(** ** Allocation of descriptors *)

Definition is_free (o : option Fd) : bool := match o with None => true | Some _ => false end.

(** [alloc_fd]: the table, and the descriptor or [-EMFILE]; an entry that does
    not fit is dropped. *)
Definition alloc_fd (l : list (option Fd)) (entry : Fd) : sysp (list (option Fd) * Z) :=
  match position is_free l with
  | Some i => pret (<[i := Some entry]> l, Z.of_nat i)
  | None =>
      if (length l <? MAX_FDS)%nat then pret (l ++ [Some entry], Z.of_nat (length l))
      else drop_fd entry ;;! pret (l, - EMFILE)
  end.

(** [with_current_fds(|fds| alloc_fd(fds, entry))] *)
Definition install_fd (entry : Fd) : sysp Z :=
  let! l := current_fds in
  let! '(l', r) := alloc_fd l entry in
  put_current_fds l' ;;! pret r.

(** ** Directories *)

Definition DT_DIR : byte := x04.
Definition DT_REG : byte := x08.
Definition HEADER : nat := 19.

Definition dirent_len (name : list byte) : nat := (div_ceil (HEADER + length name + 1) 8 * 8)%nat.

(** One [linux_dirent64]: the record is zeroed and its fields are stored. *)
Definition dirent (i start : nat) (item : DirItem) : list byte :=
  let name := item_name item in
  let reclen := dirent_len name in
  let rec0 := zeros reclen in
  let rec1 := splice rec0 0 (to_le 8 (Z.of_nat i + 1)) in
  let rec2 := splice rec1 8 (to_le 8 (Z.of_nat (start + reclen))) in
  let rec3 := splice rec2 16 (to_le 2 (Z.of_nat reclen)) in
  let rec4 := splice rec3 18 [if item_is_dir item then DT_DIR else DT_REG] in
  splice rec4 HEADER name.

Fixpoint serialize_from (i : nat) (out : list byte) (items : list DirItem) : list byte :=
  match items with
  | [] => out
  | item :: items' => serialize_from (S i) (out ++ dirent i (length out) item) items'
  end.

Definition serialize_dirents (items : list DirItem) : list byte := serialize_from 0 [] items.

(** ** open, chdir, getcwd *)

Definition has_flag (flags f : Z) : bool := negb (Z.land flags f =? 0).

(** The file or directory [open] puts behind the descriptor, or an error. *)
Definition open_file (path : list byte) (flags : Z) : prog (Sys D N F) Z OpenFile :=
  let writable := negb (Z.land flags O_ACCMODE =? O_RDONLY) in
  let! r := ptry (in_disk (Vfs.lookup path)) in
  match r with
  | inl (File existing) =>
      if has_flag flags O_TRUNC then
        pmap_err fat_errno (in_disk (Vfs.write_file path [])) ;;!
        pret (mkOpenFile path [] 0 writable false false)
      else
        pret (mkOpenFile path existing
                (if has_flag flags O_APPEND then Z.of_nat (length existing) else 0) writable false false)
  | inl (Dir items) =>
      if writable then pfail EISDIR
      else pret (mkOpenFile path (serialize_dirents items) 0 false false true)
  | inr NotFound =>
      if has_flag flags O_CREAT then
        pmap_err fat_errno (in_disk (Vfs.write_file path [])) ;;!
        pret (mkOpenFile path [] 0 writable false false)
      else pfail ENOENT
  | inr e => pfail (fat_errno e)
  end.

(** [Ok(v) => .., Err(errno) => -errno] *)
Definition or_errno {A} (m : prog (Sys D N F) Z A) (k : A -> sysp Z) : sysp Z :=
  let! r := ptry m in
  match r with
  | inl a => k a
  | inr e => pret (- e)
  end.

Definition sys_open (path_ptr flags : Z) : sysp Z :=
  or_errno (let! path := path_arg path_ptr in open_file path flags) (fun f => install_fd (FdFile f)).

Definition sys_chdir (path_ptr : Z) : sysp Z :=
  or_errno (path_arg path_ptr) (fun resolved =>
    let! r := ptry (in_disk (Vfs.lookup resolved)) in
    match r with
    | inl (Dir _) => let! p := current_proc in put_current_proc (set_cwd resolved p) ;;! pret 0
    | inl (File _) => pret (- ENOTDIR)
    | inr NotFound => pret (- ENOENT)
    | inr e => pret (- fat_errno e)
    end).

Definition sys_getcwd (buf size : Z) : sysp Z :=
  let! p := current_proc in
  let needed := Z.of_nat (length (cwd p)) + 1 in
  if size <? needed then pret (- ERANGE)
  else or_errno (in_user (copy_to_user buf (cwd p ++ [x00]))) (fun _ => pret needed).

(** The loop of [getdents64]: how many bytes of whole records fit. *)
Fixpoint dirent_span (fuel : nat) (data : list byte) (offset span count : Z) : sysp Z :=
  match fuel with
  | O => pdiverge
  | S fuel' =>
      if offset + span <? Z.of_nat (length data) then
        let rec := Z.to_nat (offset + span) in
        let! b0 := punwrap (data !! (rec + 16)%nat) in
        let! b1 := punwrap (data !! (rec + 17)%nat) in
        let reclen := from_le [b0; b1] in
        if count <? span + reclen then pret span
        else dirent_span fuel' data offset (span + reclen) count
      else pret span
  end.

Definition sys_getdents64 (fd buf count : Z) : sysp Z :=
  let! l := current_fds in
  match get_fd l fd with
  | Some (FdFile f) =>
      if f_is_dir f then
        let! span := dirent_span (S (length (f_data f))) (f_data f) (f_offset f) 0 count in
        if span =? 0 then
          pret (if Z.of_nat (length (f_data f)) <=? f_offset f then 0 else - EINVAL)
        else
          passert (f_offset f + span <=? Z.of_nat (length (f_data f))) ;;!
          or_errno (in_user (copy_to_user buf (slice (f_data f) (Z.to_nat (f_offset f)) (Z.to_nat span))))
            (fun _ => put_current_fds (set_slot l fd (Some (FdFile (set_f_offset (f_offset f + span) f)))) ;;!
                      pret span)
      else pret (- ENOTDIR)
  | Some _ => pret (- ENOTDIR)
  | None => pret (- EBADF)
  end.

(** ** write *)

(** [data.resize(end, 0)] of a buffer that grows. *)
Definition vec_resize (data : list byte) (end_ : Z) : sysp (list byte) :=
  passert (end_ <=? HEAP_SIZE) ;;!
  pret (data ++ zeros (Z.to_nat (end_ - Z.of_nat (length data)))).

(** [record_write] *)
Definition record_write (fd : Z) (bytes : list byte) (user_rsp : Z) : sysp unit :=
  pmodify (fun s =>
    set_stats (set_last_write (fd, Z.of_nat (length bytes), foldl (fun a b => a + b2z b) 0 bytes, user_rsp)
                 (STATS s)) s).

Definition serial_write_bytes (bytes : list byte) : sysp unit :=
  pmodify (fun s => set_serial (SERIAL s ++ bytes) s).

Definition write_device (fd buf count user_rsp : Z) (sink : list byte -> sysp unit) : sysp Z :=
  or_errno (in_user (with_user_bytes buf count)) (fun bytes =>
    sink bytes ;;!
    record_write fd bytes user_rsp ;;!
    pret (Z.of_nat (length bytes))).

Definition write_pipe (fd buf count : Z) : sysp Z :=
  let! l := current_fds in
  match get_fd l fd with
  | Some (FdPipeWrite p) =>
      if count =? 0 then pret 0
      else
        or_errno (in_user (with_user_bytes buf count)) (fun bytes =>
          let! b := pipe_cell p in
          if readers b =? 0 then pret (- EPIPE)
          else
            put_pipe p (mkPipeBuf (p_data b ++ bytes) (readers b) (writers b)) ;;!
            let n := Z.of_nat (length bytes) in
            (if 0 <? n then in_kernel wake_pipe_waiters else pret tt) ;;!
            pret n)
  | _ => pret (- EBADF)
  end.

(** The closure that stores the user's bytes in the file. *)
Definition store_bytes (f : OpenFile) (bytes : list byte) : sysp OpenFile :=
  let! end_ := u64_add (f_offset f) (Z.of_nat (length bytes)) in
  let! data := if Z.of_nat (length (f_data f)) <? end_ then vec_resize (f_data f) end_ else pret (f_data f) in
  pret (mkOpenFile (f_name f) (splice data (Z.to_nat (f_offset f)) bytes) end_ (f_writable f) true (f_is_dir f)).

Definition write_to_file (fd buf count : Z) : sysp Z :=
  let! l := current_fds in
  match get_fd l fd with
  | Some (FdFile f) =>
      or_errno (in_user (with_user_bytes buf count)) (fun bytes =>
        let! f' := store_bytes f bytes in
        put_current_fds (set_slot l fd (Some (FdFile f'))) ;;!
        pret (Z.of_nat (length bytes)))
  | _ => pret (- EBADF)
  end.

Definition sys_write (fd buf count user_rsp : Z) : sysp Z :=
  let! l := current_fds in
  match get_fd l fd with
  | Some FdVga => write_device fd buf count user_rsp (fun bytes => in_screen (vga_write_bytes bytes))
  | Some FdSerial => write_device fd buf count user_rsp serial_write_bytes
  | Some (FdPipeWrite _) => write_pipe fd buf count
  | Some (FdFile f) => if f_writable f && negb (f_is_dir f) then write_to_file fd buf count else pret (- EBADF)
  | Some _ => pret (- EBADF)
  | None => pret (- EBADF)
  end.

(** ** read *)

Definition settle (m : sysp Z) : sysp (Z + Pending) := let! r := m in pret (inl r).

(** A turn of the loop of [read_stdin], for a count that is not 0. *)
Definition read_stdin_turn (buf count : Z) : sysp (Z + Pending) :=
  let! bytes := in_console (take_ready count) in
  match bytes with
  | [] =>
      in_kernel (block_current_on_stdin rsp_cell resume) ;;!
      pret (inr (WaitStdin buf count))
  | _ =>
      let! r := ptry (in_user (copy_to_user buf bytes)) in
      match r with
      | inl _ => pret (inl (Z.of_nat (length bytes)))
      | inr e => in_console (unread bytes) ;;! pret (inl (- e))
      end
  end.

Definition read_stdin (buf count : Z) : sysp (Z + Pending) :=
  if count =? 0 then pret (inl 0) else read_stdin_turn buf count.

(** A turn of the loop of [read_pipe]. *)
Definition read_pipe_turn (pipe : nat) (buf count : Z) : sysp (Z + Pending) :=
  let! b := pipe_cell pipe in
  match p_data b with
  | [] =>
      if writers b =? 0 then pret (inl 0)
      else
        in_kernel (block_current_on_pipe rsp_cell resume) ;;!
        pret (inr (WaitPipe pipe buf count))
  | _ =>
      let n := Z.to_nat (Z.min count (Z.of_nat (length (p_data b)))) in
      put_pipe pipe (mkPipeBuf (drop n (p_data b)) (readers b) (writers b)) ;;!
      settle (or_errno (in_user (copy_to_user buf (take n (p_data b)))) (fun _ => pret (Z.of_nat n)))
  end.

Definition read_pipe (fd buf count : Z) : sysp (Z + Pending) :=
  let! l := current_fds in
  match get_fd l fd with
  | Some (FdPipeRead p) => if count =? 0 then pret (inl 0) else read_pipe_turn p buf count
  | _ => pret (inl (- EBADF))
  end.

Definition read_file_fd (fd buf count : Z) : sysp Z :=
  let! l := current_fds in
  match get_fd l fd with
  | Some (FdFile f) =>
      if f_is_dir f then pret (- EISDIR)
      else
        let len := Z.of_nat (length (f_data f)) in
        let start := Z.min (f_offset f) len in
        let n := Z.min (len - start) count in
        or_errno (in_user (copy_to_user buf (slice (f_data f) (Z.to_nat start) (Z.to_nat n)))) (fun _ =>
          put_current_fds (set_slot l fd (Some (FdFile (set_f_offset (f_offset f + n) f)))) ;;!
          pret n)
  | _ => pret (- EBADF)
  end.

Definition sys_read (fd buf count : Z) : sysp (Z + Pending) :=
  let! l := current_fds in
  match get_fd l fd with
  | Some FdConsole => read_stdin buf count
  | Some (FdPipeRead _) => read_pipe fd buf count
  | Some (FdFile _) => settle (read_file_fd fd buf count)
  | Some _ => pret (inl (- EBADF))
  | None => pret (inl (- EBADF))
  end.

(** ** mkdir, unlink, rmdir, stat *)

Definition fs_call {A} (path_ptr : Z) (op : list byte -> prog D FatError A) (k : A -> sysp Z) : sysp Z :=
  or_errno (path_arg path_ptr) (fun resolved =>
    let! r := ptry (in_disk (op resolved)) in
    match r with
    | inl a => k a
    | inr e => pret (- fat_errno e)
    end).

Definition sys_mkdir (path_ptr : Z) : sysp Z := fs_call path_ptr Vfs.mkdir (fun _ => pret 0).

Definition sys_unlink (path_ptr : Z) : sysp Z := fs_call path_ptr Vfs.unlink (fun _ => pret 0).

Definition sys_rmdir (path_ptr : Z) : sysp Z := fs_call path_ptr Vfs.rmdir (fun _ => pret 0).

Definition STAT_SIZE : nat := 144.

Definition build_stat (mode ino nlink size : Z) : list byte :=
  let b0 := zeros STAT_SIZE in
  let b1 := splice b0 8 (to_le 8 ino) in
  let b2 := splice b1 16 (to_le 8 nlink) in
  let b3 := splice b2 24 (to_le 4 mode) in
  let b4 := splice b3 48 (to_le 8 size) in
  let b5 := splice b4 56 (to_le 8 512) in
  splice b5 64 (to_le 8 ((size + 511) / 512)).

Definition file_mode (is_dir : bool) : Z :=
  if is_dir then Z.lor S_IFDIR 0x1ed else Z.lor S_IFREG 0x1a4.

Definition sys_stat (path_ptr statbuf : Z) : sysp Z :=
  fs_call path_ptr Vfs.stat (fun meta =>
    let st := build_stat (file_mode (meta_is_dir meta)) (meta_first_cluster meta)
                (if meta_is_dir meta then 2 else 1) (meta_size meta) in
    or_errno (in_user (copy_to_user statbuf st)) (fun _ => pret 0)).

(** The [struct stat] of an open descriptor. *)
Definition fd_stat (fd : Fd) : list byte :=
  match fd with
  | FdConsole | FdVga | FdSerial => build_stat (Z.lor S_IFCHR 0x190) 0 1 0
  | FdPipeRead _ | FdPipeWrite _ => build_stat (Z.lor S_IFIFO 0x180) 0 1 0
  | FdSocket _ => build_stat (Z.lor S_IFSOCK 0x180) 0 1 0
  | FdFile f =>
      build_stat (file_mode (f_is_dir f)) 0 (if f_is_dir f then 2 else 1) (Z.of_nat (length (f_data f)))
  end.

Definition sys_fstat (fd statbuf : Z) : sysp Z :=
  let! l := current_fds in
  match get_fd l fd with
  | None => pret (- EBADF)
  | Some b => or_errno (in_user (copy_to_user statbuf (fd_stat b))) (fun _ => pret 0)
  end.

(** ** brk *)

Definition page_up (x : Z) : sysp Z := let! y := u64_add x 0xFFF in pret (page_of y).

(** [while va < to { unmap(va); va += 4096 }] *)
Fixpoint unmap_loop (fuel : nat) (va to : Z) : sysp unit :=
  match fuel with
  | O => pdiverge
  | S fuel' =>
      if va <? to then
        in_mm (unmap_active_user_page va) ;;! unmap_loop fuel' (va + 4096) to
      else pret tt
  end.

(** The growth loop: [false] if a page could not be mapped, with the pages of
    this call unmapped again. *)
Fixpoint map_loop (fuel : nat) (from va to : Z) : sysp bool :=
  match fuel with
  | O => pdiverge
  | S fuel' =>
      if va <? to then
        let! ok := in_mm (map_active_user_page va) in
        if ok then map_loop fuel' from (va + 4096) to
        else unmap_loop (S (Z.to_nat ((va - from) / 4096))) from va ;;! pret false
      else pret true
  end.

Definition pages_between (from to : Z) : nat := S (Z.to_nat ((to - from) / 4096)).

Definition sys_brk (addr : Z) : sysp Z :=
  let! p := current_proc in
  let cur := brk p in
  if negb ((USER_HEAP_BASE <=? addr) && (addr <=? USER_HEAP_MAX)) then pret cur
  else if cur <? addr then
    let! from := page_up cur in
    let! to := page_up addr in
    let! ok := map_loop (pages_between from to) from from to in
    if ok then put_current_proc (set_brk addr p) ;;! pret addr else pret cur
  else
    (if addr <? cur then
       let! va := page_up addr in
       let! to := page_up cur in
       unmap_loop (pages_between va to) va to
     else pret tt) ;;!
    put_current_proc (set_brk addr p) ;;! pret addr.

(** ** close, dup2, fcntl, pipe, lseek *)

Definition sys_close (fd : Z) : sysp Z :=
  let! l := current_fds in
  match get_fd l fd with
  | None => pret (- EBADF)
  | Some e =>
      put_current_fds (set_slot l fd None) ;;!
      match e with
      | FdFile f =>
          if f_writable f && f_dirty f then
            let! r := ptry (in_disk (Vfs.write_file (f_name f) (f_data f))) in
            match r with
            | inl _ => pret 0
            | inr e => pret (- fat_errno e)
            end
          else pret 0
      | _ => drop_fd e ;;! pret 0
      end
  end.

(** [while fds.len() <= i { fds.push(None) }] *)
Definition grow_table (l : list (option Fd)) (i : nat) : list (option Fd) :=
  l ++ replicate (S i - length l) None.

Definition sys_dup2 (oldfd newfd : Z) : sysp Z :=
  if Z.of_nat MAX_FDS <=? newfd then pret (- EBADF)
  else
    let! l := current_fds in
    match get_fd l oldfd with
    | None => pret (- EBADF)
    | Some e =>
        if oldfd =? newfd then pret newfd
        else
          let! dup := clone_fd e in
          let l' := grow_table l (Z.to_nat newfd) in
          put_current_fds (set_slot l' newfd (Some dup)) ;;!
          drop_slot (mjoin (l' !! Z.to_nat newfd)) ;;!
          pret newfd
    end.

(** The first index from [idx] on that is free, or [MAX_FDS]. *)
Fixpoint free_from (l : list (option Fd)) (n idx : nat) : nat :=
  match n with
  | O => idx
  | S n' => match mjoin (l !! idx) with Some _ => free_from l n' (S idx) | None => idx end
  end.

Definition fcntl_dupfd (fd arg : Z) : sysp Z :=
  if Z.of_nat MAX_FDS <=? arg then pret (- EINVAL)
  else
    let! l := current_fds in
    match get_fd l fd with
    | None => pret (- EBADF)
    | Some e =>
        let! backing := clone_fd e in
        let start := Z.to_nat arg in
        let idx := free_from l (MAX_FDS - start) start in
        if (MAX_FDS <=? idx)%nat then drop_fd backing ;;! pret (- EMFILE)
        else
          put_current_fds (<[idx := Some backing]> (grow_table l idx)) ;;!
          pret (Z.of_nat idx)
    end.

Definition fd_access_mode (fd : Fd) : Z :=
  match fd with
  | FdConsole | FdPipeRead _ => O_RDONLY
  | FdVga | FdSerial | FdPipeWrite _ => O_WRONLY
  | FdSocket _ => O_RDWR
  | FdFile f => if f_writable f then O_RDWR else O_RDONLY
  end.

Definition sys_fcntl (fd cmd arg : Z) : sysp Z :=
  if cmd =? F_DUPFD then fcntl_dupfd fd arg
  else if (cmd =? F_GETFD) || (cmd =? F_SETFD) || (cmd =? F_SETFL) then
    let! l := current_fds in pret (match get_fd l fd with Some _ => 0 | None => - EBADF end)
  else if cmd =? F_GETFL then
    let! l := current_fds in
    pret (match get_fd l fd with Some e => fd_access_mode e | None => - EBADF end)
  else pret (- EINVAL).

(** The address of a new cell. *)
Definition next_cell {A} (m : gmap nat A) : nat := S (max_list (map_to_list m).*1).

Definition new_pipe : sysp nat :=
  let! s := pget in
  let p := next_cell (PIPES s) in
  put_pipe p (mkPipeBuf [] 1 1) ;;! pret p.

(** The two descriptors, or the error in both places. *)
Definition pipe_fds (p : nat) : sysp (Z * Z) :=
  let! l := current_fds in
  let! '(l1, r) := alloc_fd l (FdPipeRead p) in
  if r <? 0 then drop_fd (FdPipeWrite p) ;;! pret (r, r)
  else
    let! '(l2, w) := alloc_fd l1 (FdPipeWrite p) in
    if w <? 0 then
      put_current_fds (set_slot l2 r None) ;;! drop_fd (FdPipeRead p) ;;! pret (w, w)
    else put_current_fds l2 ;;! pret (r, w).

Definition sys_pipe (fds_ptr : Z) : sysp Z :=
  let! p := new_pipe in
  let! '(rfd, wfd) := pipe_fds p in
  if rfd <? 0 then pret rfd
  else if wfd <? 0 then pret wfd
  else or_errno (in_user (copy_to_user fds_ptr (to_le 4 rfd ++ to_le 4 wfd))) (fun _ => pret 0).

(** [i64::checked_add] *)
Definition i64_checked (z : Z) : option Z :=
  if (- 2 ^ 63 <=? z) && (z <? 2 ^ 63) then Some z else None.

Definition seek_base (f : OpenFile) (whence : Z) : option Z :=
  if whence =? SEEK_SET then Some 0
  else if whence =? SEEK_CUR then Some (f_offset f)
  else if whence =? SEEK_END then Some (Z.of_nat (length (f_data f)))
  else None.

Definition sys_lseek (fd offset whence : Z) : sysp Z :=
  let! l := current_fds in
  match get_fd l fd with
  | Some (FdFile f) =>
      match seek_base f whence with
      | None => pret (- EINVAL)
      | Some base =>
          match i64_checked (base + offset) with
          | Some pos =>
              if 0 <=? pos then
                put_current_fds (set_slot l fd (Some (FdFile (set_f_offset pos f)))) ;;! pret pos
              else pret (- EINVAL)
          | None => pret (- EINVAL)
          end
      end
  | Some _ => pret (- ESPIPE)
  | None => pret (- EBADF)
  end.

(** ** readv and writev *)

Definition read_iovec (iov index : Z) : prog (Sys D N F) Z (Z * Z) :=
  let! slot := pok_or (checked U64 (iov + index * 16)) EFAULT in
  let! b := in_user (with_user_bytes slot 16) in
  pret (from_le (slice b 0 8), from_le (slice b 8 8)).

(** The result of a vector that stopped: the error if nothing was moved yet. *)
Definition stopped (total err : Z) : Z := if total =? 0 then err else total.

Fixpoint writev_loop (fd iov : Z) (idxs : list Z) (total user_rsp : Z) : sysp Z :=
  match idxs with
  | [] => pret total
  | i :: rest =>
      let! r := ptry (read_iovec iov i) in
      match r with
      | inr errno => pret (stopped total (- errno))
      | inl (base, len) =>
          if len =? 0 then writev_loop fd iov rest total user_rsp
          else
            let! written := sys_write fd base len user_rsp in
            if written <? 0 then pret (stopped total written)
            else if written <? len then pret (total + written)
            else writev_loop fd iov rest (total + written) user_rsp
      end
  end.

Definition sys_writev (fd iov iovcnt user_rsp : Z) : sysp Z :=
  if IOV_MAX <? iovcnt then pret (- EINVAL)
  else writev_loop fd iov (seqZ 0 iovcnt) 0 user_rsp.

Fixpoint readv_loop (fd iov : Z) (idxs : list Z) (total : Z) : sysp (Z + Pending) :=
  match idxs with
  | [] => pret (inl total)
  | i :: rest =>
      let! r := ptry (read_iovec iov i) in
      match r with
      | inr errno => pret (inl (stopped total (- errno)))
      | inl (base, len) =>
          if len =? 0 then readv_loop fd iov rest total
          else
            let! r := sys_read fd base len in
            match r with
            | inr p => pret (inr (WaitReadv fd iov rest len total p))
            | inl got =>
                if got <? 0 then pret (inl (stopped total got))
                else if got <? len then pret (inl (total + got))
                else readv_loop fd iov rest (total + got)
            end
      end
  end.

Definition sys_readv (fd iov iovcnt : Z) : sysp (Z + Pending) :=
  if IOV_MAX <? iovcnt then pret (inl (- EINVAL))
  else readv_loop fd iov (seqZ 0 iovcnt) 0.

(** What a thread does when it runs again after it blocked in a read. *)
Fixpoint resume_read (p : Pending) : sysp (Z + Pending) :=
  match p with
  | WaitStdin buf count => read_stdin_turn buf count
  | WaitPipe pipe buf count => read_pipe_turn pipe buf count
  | WaitReadv fd iov rest len total q =>
      let! r := resume_read q in
      match r with
      | inr q' => pret (inr (WaitReadv fd iov rest len total q'))
      | inl got =>
          if got <? 0 then pret (inl (stopped total got))
          else if got <? len then pret (inl (total + got))
          else readv_loop fd iov rest (total + got)
      end
  end.

(** ** Sockets *)

Definition MAX_DGRAM : Z := 1472.
Definition SOCK_IO_MAX : Z := 4096.

Definition socket_handle (fd : Z) : prog (Sys D N F) Z (Z * SockKind) :=
  let! l := pmap_err (fun e : Empty_set => match e with end) current_fds in
  match get_fd l fd with
  | Some (FdSocket e) => pret (handle e, s_kind e)
  | Some _ => pfail ENOTSOCK
  | None => pfail EBADF
  end.

Definition parse_sockaddr_in (addr_ptr addrlen : Z) : prog (Sys D N F) Z (list byte * Z) :=
  if addrlen <? Z.of_nat SOCKADDR_IN_LEN then pfail EINVAL
  else
    let! b := in_user (with_user_bytes addr_ptr (Z.of_nat SOCKADDR_IN_LEN)) in
    if negb (from_le (slice b 0 2) =? AF_INET) then pfail EAFNOSUPPORT
    else pret (slice b 4 4, from_be (slice b 2 2)).

Definition encode_sockaddr_in (ip : list byte) (port : Z) : list byte :=
  let sa0 := zeros SOCKADDR_IN_LEN in
  let sa1 := splice sa0 0 (to_le 2 AF_INET) in
  let sa2 := splice sa1 2 (to_be 2 port) in
  splice sa2 4 ip.

Definition new_arc : sysp nat :=
  let! s := pget in
  let r := next_cell (ARCS s) in
  put_arc r 1 ;;! pret r.

Definition sys_socket (domain sock_type : Z) : sysp Z :=
  if negb (domain =? AF_INET) then pret (- EAFNOSUPPORT)
  else
    or_errno
      (if sock_type =? SOCK_DGRAM then let! h := in_net udp_socket in pret (h, Udp)
       else if sock_type =? SOCK_STREAM then let! h := in_net tcp_socket in pret (h, Tcp)
       else pfail EPROTONOSUPPORT)
      (fun hk => let! r := new_arc in install_fd (FdSocket (mkSocketEnd hk.1 hk.2 r))).

Definition sys_connect (fd addr_ptr addrlen : Z) : sysp Z :=
  or_errno
    (let! '(h, k) := socket_handle fd in
     if negb (bool_decide (k = Tcp)) then pfail EOPNOTSUPP
     else
       let! '(ip, port) := parse_sockaddr_in addr_ptr addrlen in
       in_net (tcp_connect h ip port)) (fun _ => pret 0).

Definition sys_bind (fd addr_ptr addrlen : Z) : sysp Z :=
  or_errno
    (let! '(h, k) := socket_handle fd in
     if negb (bool_decide (k = Udp)) then pfail EOPNOTSUPP
     else
       let! '(_, port) := parse_sockaddr_in addr_ptr addrlen in
       in_net (udp_bind h port)) (fun _ => pret 0).

Definition sys_sendto (fd buf len dest_addr addrlen : Z) : sysp Z :=
  or_errno
    (let! '(h, k) := socket_handle fd in
     match k with
     | Udp =>
         if MAX_DGRAM <? len then pfail EMSGSIZE
         else
           let! '(ip, port) := parse_sockaddr_in dest_addr addrlen in
           let! data := in_user (with_user_bytes buf len) in
           in_net (udp_sendto h data ip port)
     | Tcp =>
         let! data := in_user (with_user_bytes buf (Z.min len SOCK_IO_MAX)) in
         in_net (tcp_send h data)
     end) pret.

(** The sender's address, for a caller that asked for it. *)
Definition write_sender (ip : list byte) (port src_addr addrlen_ptr : Z) : prog (Sys D N F) Z unit :=
  let! b := in_user (with_user_bytes addrlen_ptr 4) in
  let sa := encode_sockaddr_in ip port in
  let w := Z.to_nat (Z.min (from_le b) (Z.of_nat (length sa))) in
  (if (0 <? w)%nat then in_user (copy_to_user src_addr (take w sa)) else pret tt) ;;!
  in_user (copy_to_user addrlen_ptr (to_le 4 (Z.of_nat SOCKADDR_IN_LEN))).

Definition sys_recvfrom (fd buf len src_addr addrlen_ptr : Z) : sysp Z :=
  or_errno
    (let! '(h, k) := socket_handle fd in
     let cap := Z.to_nat (Z.min len SOCK_IO_MAX) in
     let! '(data, ip, port) :=
       match k with
       | Udp => in_net (udp_recvfrom h cap)
       | Tcp => let! data := in_net (tcp_recv h cap) in pret (data, zeros 4, 0)
       end in
     passert (length data <=? cap)%nat ;;!
     in_user (copy_to_user buf data) ;;!
     (if bool_decide (k = Udp) && negb (src_addr =? 0) && negb (addrlen_ptr =? 0)
      then write_sender ip port src_addr addrlen_ptr else pret tt) ;;!
     pret (Z.of_nat (length data))) pret.
End Files.
