(* ===== verification/Paths.v ===== *)
(** * Path resolution

    [normalize] and [resolve_path] of [syscall/files.rs]: the paths the file
    layer hands to the file system are in a normal form, and resolving a
    relative path from a working directory is resolving the joined path. *)

From stdpp Require Import base numbers list.
From Stdlib Require Import ZArith Lia.
From S2P Require Import Prelude Files.
#[local] Open Scope Z_scope.

(** A component that names an entry. *)
Definition good_comp (c : list byte) : Prop :=
  c <> [] /\ c <> bs "." /\ c <> bs ".." /\ (x2f ∉ c).

(** A leading slash, and entries separated by single slashes. *)
Definition normal_path (path : list byte) : Prop :=
  exists comps, Forall good_comp comps /\ path = x2f :: join x2f comps.

(** Where a path leads, from the components [pos] below the root. *)
Definition walk (pos : list (list byte)) (path : list byte) : list (list byte) :=
  foldl push_comp pos (split_on x2f path).

Lemma push_comp_good pos c : Forall good_comp pos -> x2f ∉ c -> Forall good_comp (push_comp pos c).
Proof.
  intros Hp Hc. unfold push_comp. destruct (bytes_eqb c []) eqn:E1; [done|].
  destruct (bytes_eqb c (bs ".")) eqn:E2; [done|]. cbn [orb].
  destruct (bytes_eqb c (bs "..")) eqn:E3; [by apply Forall_take|].
  apply Forall_app. split; [done|]. apply Forall_singleton.
  split_and!; [..|done]; intros ->; by rewrite bytes_eqb_refl in *.
Qed.

Lemma push_comp_name pos c : good_comp c -> push_comp pos c = pos ++ [c].
Proof.
  intros (H1 & H2 & H3 & _). unfold push_comp.
  assert (Hne : forall d, c <> d -> bytes_eqb c d = false).
  { intros d Hd. destruct (bytes_eqb c d) eqn:E; [|done]. by apply bytes_eqb_eq in E. }
  by rewrite !Hne.
Qed.

Lemma push_names pos comps : Forall good_comp comps -> foldl push_comp pos comps = pos ++ comps.
Proof.
  revert pos. induction comps as [|c comps IH]; intros pos Hc; [by rewrite app_nil_r|].
  apply Forall_cons in Hc as [Hc Hcs]. cbn [foldl]. rewrite push_comp_name, IH by done.
  by rewrite <- app_assoc.
Qed.

Lemma split_no_sep path : Forall (fun c => x2f ∉ c) (split_on x2f path).
Proof.
  induction path as [|b path IH]; cbn [split_on]; [apply Forall_singleton, not_elem_of_nil|].
  destruct (Byte.eqb b x2f) eqn:E.
  - constructor; [apply not_elem_of_nil|done].
  - apply byte_eqb_neq in E. pose proof (split_on_nonempty x2f path).
    destruct (split_on x2f path) as [|w ws]; [done|]. apply Forall_cons in IH as [Hw Hws].
    constructor; [|done]. rewrite not_elem_of_cons. done.
Qed.

Lemma walk_good pos path : Forall good_comp pos -> Forall good_comp (walk pos path).
Proof.
  unfold walk. pose proof (split_no_sep path) as Hs. revert pos.
  induction (split_on x2f path) as [|c cs IH]; intros pos Hp; [done|].
  apply Forall_cons in Hs as [Hc Hcs]. cbn [foldl]. apply IH; [done|]. by apply push_comp_good.
Qed.

Lemma split_app c a b :
  split_on c (a ++ c :: b) = split_on c a ++ split_on c b.
Proof.
  induction a as [|x a IH]; cbn [app split_on].
  - by rewrite (proj2 (byte_eqb_eq c c)).
  - destruct (Byte.eqb x c); [by rewrite IH|]. rewrite IH. pose proof (split_on_nonempty c a).
    by destruct (split_on c a).
Qed.

Lemma split_one c a : c ∉ a -> split_on c a = [a].
Proof.
  induction a as [|x a IH]; [done|]. rewrite not_elem_of_cons. intros [Hx Ha]. cbn [split_on].
  rewrite (proj2 (byte_eqb_neq x c)), IH by done. done.
Qed.

Lemma split_join comps : comps <> [] -> Forall (fun c => x2f ∉ c) comps -> split_on x2f (join x2f comps) = comps.
Proof.
  intros Hn. induction comps as [|c comps IH]; [done|]. intros [Hc Hcs]%Forall_cons.
  destruct comps as [|d comps]; [by apply split_one|].
  change (join x2f (c :: d :: comps)) with (c ++ x2f :: join x2f (d :: comps)).
  by rewrite split_app, split_one, IH.
Qed.

(** A normal path is walked by its components. *)
Lemma walk_normal pos comps :
  Forall good_comp comps -> walk pos (x2f :: join x2f comps) = pos ++ comps.
Proof.
  intros Hc. unfold walk. cbn [split_on].
  change (Byte.eqb x2f x2f) with true. cbn iota. cbn [foldl].
  change (push_comp pos []) with pos. destruct comps as [|c comps].
  - cbn. change (push_comp pos []) with pos. by rewrite app_nil_r.
  - rewrite split_join by (done || (eapply Forall_impl; [exact Hc|]; unfold good_comp; naive_solver)).
    by apply push_names.
Qed.

Lemma walk_app pos a b : walk pos (a ++ x2f :: b) = walk (walk pos a) b.
Proof. unfold walk. by rewrite split_app, foldl_app. Qed.

Lemma normalize_walk path : normalize path = x2f :: join x2f (walk [] path).
Proof. done. Qed.

Lemma normalize_normal path : normal_path (normalize path).
Proof. exists (walk [] path). split; [by apply walk_good|done]. Qed.

Lemma normalize_fixed path : normal_path path -> normalize path = path.
Proof. intros (comps & Hc & ->). by rewrite normalize_walk, walk_normal. Qed.

(** The components of a normal path are those it is written from. *)
Lemma join_inj c1 c2 :
  Forall good_comp c1 -> Forall good_comp c2 -> join x2f c1 = join x2f c2 -> c1 = c2.
Proof.
  intros H1 H2 E. assert (W := walk_normal [] c1 H1). rewrite E, walk_normal in W by done. done.
Qed.

Lemma last_join comps : Forall good_comp comps -> comps <> [] -> last (x2f :: join x2f comps) <> Some x2f.
Proof.
  intros Hc Hn. assert (Hl : exists init c, comps = init ++ [c]).
  { destruct comps as [|c comps _] using rev_ind; [done|]. by exists comps, c. }
  destruct Hl as (init & c & ->). apply Forall_app in Hc as [_ (Hc0 & _ & _ & Hs)%Forall_singleton].
  destruct c as [|b c _] using rev_ind; [done|].
  assert (last (x2f :: join x2f (init ++ [c ++ [b]])) = Some b) as ->.
  - clear. induction init as [|d init IH]; [cbn [app join]; by rewrite app_comm_cons, last_snoc|].
    destruct (init ++ [c ++ [b]]) as [|e l] eqn:E; [by destruct init|].
    change ((d :: init) ++ [c ++ [b]]) with (d :: (init ++ [c ++ [b]])). rewrite E.
    change (join x2f (d :: e :: l)) with (d ++ x2f :: join x2f (e :: l)).
    change (x2f :: d ++ x2f :: join x2f (e :: l)) with ((x2f :: d) ++ x2f :: join x2f (e :: l)).
    rewrite last_app. destruct (last (x2f :: join x2f (e :: l))); [done|done].
  - intros [= ->]. apply Hs. rewrite elem_of_app, list_elem_of_singleton. by right.
Qed.

Definition is_absolute (path : list byte) : bool := match path with x2f :: _ => true | _ => false end.

Lemma resolve_from_walk comps path :
  Forall good_comp comps ->
  resolve_from (x2f :: join x2f comps) path =
    x2f :: join x2f (walk (if is_absolute path then [] else comps) path).
Proof.
  intros Hc. assert (Hrel : is_absolute path = false ->
    resolve_from (x2f :: join x2f comps) path = x2f :: join x2f (walk comps path)).
  { intros Hp. assert (resolve_from (x2f :: join x2f comps) path =
      normalize ((if bool_decide (last (x2f :: join x2f comps) = Some x2f) then x2f :: join x2f comps
                  else (x2f :: join x2f comps) ++ [x2f]) ++ path)) as ->.
    { destruct path as [|b path]; [done|]. by destruct b. }
    rewrite normalize_walk. f_equal. f_equal. destruct (decide (comps = [])) as [->|Hn].
    - rewrite bool_decide_true by done. cbn [join app].
      change (x2f :: path) with ([] ++ x2f :: path). by rewrite walk_app.
    - rewrite bool_decide_false by (by apply last_join). rewrite <- app_assoc. cbn [app].
      change (x2f :: join x2f comps ++ x2f :: path) with ((x2f :: join x2f comps) ++ x2f :: path).
      by rewrite walk_app, walk_normal. }
  destruct (is_absolute path) eqn:E; [|by apply Hrel].
  destruct path as [|b path]; [done|]. by destruct b.
Qed.

Lemma resolve_normal dir path : normal_path dir -> normal_path (resolve_from dir path).
Proof.
  intros (comps & Hc & ->). rewrite resolve_from_walk by done. eexists. split; [|done].
  apply walk_good. by destruct (is_absolute path).
Qed.


