(* ===== verification/FilesInv.v ===== *)
(** * The invariant of the file layer

    Reference counts: a pipe's [readers] and [writers] and a socket's strong
    count are the numbers of descriptors, over all processes, that refer to
    them.  Tables, files, the scheduler, the screen and the volume are well
    formed.  The primitives that clone, drop and store descriptors keep it. *)

From stdpp Require Import base numbers list gmap.
From Stdlib Require Import ZArith Lia.
From S2P Require Import Prelude BlockDev Fat FatLayout FatAlloc FatData FatDir FatVolume FatOps Vfs Abi Uaccess Paging.
From S2P Require Import Vga Machine Context Sched SchedInv SchedOps Console NetStack Files Paths.
#[local] Open Scope Z_scope.

(** ** Counting references *)

(** What a descriptor holds a counted reference to. *)
Inductive Ref : Type := RRead (p : nat) | RWrite (p : nat) | RSock (e : SocketEnd).

#[export] Instance SocketEnd_eq_dec : EqDecision SocketEnd.
Proof. solve_decision. Defined.

#[export] Instance Ref_eq_dec : EqDecision Ref.
Proof. solve_decision. Defined.

Definition ref_of (fd : Fd) : option Ref :=
  match fd with
  | FdPipeRead p => Some (RRead p)
  | FdPipeWrite p => Some (RWrite p)
  | FdSocket e => Some (RSock e)
  | _ => None
  end.

Definition one (r : Ref) (o : option Fd) : Z := if decide (o ≫= ref_of = Some r) then 1 else 0.

Definition cnt (r : Ref) (l : list (option Fd)) : Z := foldr (fun o n => one r o + n) 0 l.

(** The references of all processes. *)
Definition cnt_procs (r : Ref) (m : gmap Z ProcState) : Z :=
  map_fold (fun _ p n => cnt r (fds p) + n) 0 m.

Lemma one_range r o : 0 <= one r o <= 1.
Proof. unfold one. case_decide; lia. Qed.

Lemma one_None r : one r None = 0.
Proof. unfold one. by case_decide. Qed.

Lemma cnt_app r l1 l2 : cnt r (l1 ++ l2) = cnt r l1 + cnt r l2.
Proof. induction l1 as [|o l1 IH]; cbn [cnt foldr app]; [done|]. unfold cnt in *. lia. Qed.

Lemma cnt_cons r o l : cnt r (o :: l) = one r o + cnt r l.
Proof. done. Qed.

Lemma cnt_nil r : cnt r [] = 0.
Proof. done. Qed.

Lemma cnt_range r l : 0 <= cnt r l <= Z.of_nat (length l).
Proof.
  induction l as [|o l IH]; cbn [cnt foldr length]; [lia|]. pose proof (one_range r o).
  unfold cnt in IH. lia.
Qed.

Lemma cnt_replicate_None r n : cnt r (replicate n None) = 0.
Proof. induction n as [|n IH]; cbn [replicate]; [done|]. rewrite cnt_cons, one_None, IH. done. Qed.

Lemma cnt_insert r l i o o' :
  l !! i = Some o -> cnt r (<[i := o']> l) = cnt r l - one r o + one r o'.
Proof.
  revert i. induction l as [|x l IH]; intros [|i] Hi; cbn in Hi; try done.
  - injection Hi as ->. cbn. unfold cnt. lia.
  - cbn [insert list_insert]. change (<[i:=o']> l) with (list_insert i o' l) in *.
    rewrite !cnt_cons. specialize (IH _ Hi). unfold insert, list_insert in *. lia.
Qed.

Lemma cnt_lookup r l i o : l !! i = Some o -> one r o <= cnt r l.
Proof.
  revert i. induction l as [|x l IH]; intros [|i] Hi; cbn in Hi; try done; rewrite cnt_cons.
  - injection Hi as ->. pose proof (cnt_range r l). lia.
  - specialize (IH _ Hi). pose proof (one_range r x). lia.
Qed.

Lemma cnt_procs_insert r m k p :
  m !! k = None -> cnt_procs r (<[k := p]> m) = cnt r (fds p) + cnt_procs r m.
Proof. intros. unfold cnt_procs. rewrite map_fold_insert_L; [done| |done]. intros; lia. Qed.

Lemma cnt_procs_delete r m k p :
  m !! k = Some p -> cnt_procs r (delete k m) = cnt_procs r m - cnt r (fds p).
Proof.
  intros Hk. rewrite <- (insert_delete_id m k p Hk) at 2.
  rewrite cnt_procs_insert by apply lookup_delete_eq. lia.
Qed.

Lemma cnt_procs_update r m k p q :
  m !! k = Some p -> cnt_procs r (<[k := q]> m) = cnt_procs r m - cnt r (fds p) + cnt r (fds q).
Proof.
  intros Hk. rewrite <- insert_delete_eq, cnt_procs_insert by apply lookup_delete_eq.
  rewrite (cnt_procs_delete r m k p) by done. lia.
Qed.

Lemma cnt_procs_lookup r m k p : m !! k = Some p -> cnt r (fds p) <= cnt_procs r m.
Proof.
  intros Hk. pose proof (cnt_procs_delete r m k p Hk) as E.
  enough (0 <= cnt_procs r (delete k m)) by lia. generalize (delete k m). clear.
  intros m. unfold cnt_procs. apply (map_fold_weak_ind (fun n _ => 0 <= n)); [lia|].
  intros k p m' n _ Hn. pose proof (cnt_range r (fds p)). lia.
Qed.

(** At most [MAX_FDS] references per process. *)
Lemma cnt_procs_bound r m :
  (forall k p, m !! k = Some p -> (length (fds p) <= MAX_FDS)%nat) ->
  0 <= cnt_procs r m <= 16 * Z.of_nat (base.size m).
Proof.
  induction m as [|k p m Hk Hf IH] using map_first_key_ind; intros Hb.
  - unfold cnt_procs. rewrite map_fold_empty. lia.
  - rewrite cnt_procs_insert, map_size_insert_None by done.
    pose proof (cnt_range r (fds p)). pose proof (Hb k p (lookup_insert_eq _ _ _)) as Hl. unfold MAX_FDS in *.
    assert (0 <= cnt_procs r m <= 16 * Z.of_nat (base.size m)); [|lia].
    apply IH. intros k' p' Hk'. apply (Hb k'). rewrite lookup_insert_ne; [done|congruence].
Qed.

(** ** The invariant *)

(** A directory is read-only and its listing is in memory; a file is shorter
    than 4 GiB; positions are those of [i64]. *)
Definition file_ok (f : OpenFile) : Prop :=
  0 <= f_offset f < 2 ^ 63 /\ (f_is_dir f = false -> Z.of_nat (length (f_data f)) < U32) /\
  (f_is_dir f = true -> f_writable f = false) /\ (f_dirty f = true -> f_writable f = true).

Definition slot_ok (o : option Fd) : Prop :=
  match o with Some (FdFile f) => file_ok f | _ => True end.

Record proc_ok (p : ProcState) : Prop := {
  po_len : (length (fds p) <= MAX_FDS)%nat;
  po_slots : Forall slot_ok (fds p);
  po_cwd : normal_path (cwd p);
  po_brk : USER_HEAP_BASE <= brk p <= USER_HEAP_MAX
}.

Section Inv.
Context {D N F : Type} {BD : BlockDev D} `{NL : NetStackLaws N} {M : Mapper F} (v : Fat32).
Implicit Types s : Sys D N F.

(** The count a shared cell holds. *)
Definition strong s (r : Ref) : Z :=
  match r with
  | RRead p => from_option readers 0 (PIPES s !! p)
  | RWrite p => from_option writers 0 (PIPES s !! p)
  | RSock e => default 0 (ARCS s !! refs e)
  end.

(** The cells against the number [T] of descriptors that hold each reference: the
    counts are exact, the sockets of the stack are those some descriptor holds,
    and descriptors that share a count or a handle are the same socket. *)
Record refs_ok (T : Ref -> Z) s : Prop := {
  ro_read : forall p, strong s (RRead p) = T (RRead p);
  ro_write : forall p, strong s (RWrite p) = T (RWrite p);
  ro_arc : forall e, 0 < T (RSock e) -> strong s (RSock e) = T (RSock e);
  ro_unheld : forall a n, ARCS s !! a = Some n -> n = 0 \/ exists e, refs e = a /\ 0 < T (RSock e);
  ro_sockets : forall h k, sockets (NET s) !! h = Some k <-> exists e, handle e = h /\ s_kind e = k /\ 0 < T (RSock e);
  ro_same : forall e e', 0 < T (RSock e) -> 0 < T (RSock e') -> refs e = refs e' \/ handle e = handle e' -> e = e'
}.

(** The descriptors that hold [r], in the tables and in the hands of the call. *)
Definition total (held : list (option Fd)) s (r : Ref) : Z := cnt_procs r (PROCESSES s) + cnt r held.

(** [held] are descriptors in the hands of the running call. *)
Record inv (held : list (option Fd)) s : Prop := {
  inv_refs : refs_ok (total held s) s;
  inv_procs : forall k p, PROCESSES s !! k = Some p -> proc_ok p;
  inv_kernel : kernel_ok (kern (tty s));
  inv_screen : screen_ok (screen (tty s));
  inv_disk : exists O, volume_ok v (disk (DISK s)) O
}.

Lemma refs_ok_ext (T T' : Ref -> Z) s s' :
  refs_ok T s -> PIPES s' = PIPES s -> ARCS s' = ARCS s -> sockets (NET s') = sockets (NET s) -> (forall r, T' r = T r) -> refs_ok T' s'.
Proof.
  intros [R1 R2 R3 R4 R5 R6] Ep Ea En E. split; unfold strong in *; rewrite ?Ep, ?Ea, ?En.
  - intros p. by rewrite E.
  - intros p. by rewrite E.
  - intros e. rewrite E. apply R3.
  - intros a n Ha. destruct (R4 a n Ha) as [|(e & He & Ht)]; [by left|]. right. exists e. by rewrite E.
  - intros h k. rewrite R5. split; intros (e & H1 & H2 & H3); exists e; rewrite E in *; done.
  - intros e e'. rewrite !E. apply R6.
Qed.

(** A held reference is counted by its cell. *)
Lemma inv_strong held s r : inv held s -> 0 < total held s r -> strong s r = total held s r.
Proof. intros I Hr. pose proof (inv_refs _ _ I) as [R1 R2 R3 _ _ _]. destruct r; [apply R1|apply R2|by apply R3]. Qed.

(** Fewer processes than a reference count can count. *)
Definition few s : Prop := Z.of_nat (base.size (PROCESSES s)) <= 2 ^ 56.

(** There is room for one process more. *)
Definition room s : Prop := Z.of_nat (base.size (PROCESSES s)) < 2 ^ 56.

(** The registry and the current process are as before. *)
Definition same_procs s s' : Prop :=
  PROCESSES s' = PROCESSES s /\ current_key s' = current_key s.

Definition no_err' (e : Empty_set) s : Prop := False.

Lemma total_bound held s r :
  inv held s -> few s -> 0 <= total held s r < 2 ^ 61 + Z.of_nat (length held).
Proof.
  intros I Hf. unfold total. pose proof (cnt_range r held).
  pose proof (cnt_procs_bound r (PROCESSES s)) as Hb. unfold few in Hf.
  assert (0 <= cnt_procs r (PROCESSES s) <= 16 * Z.of_nat (base.size (PROCESSES s))); [|lia].
  apply Hb. intros k p Hk. by apply (inv_procs _ _ I k).
Qed.

(** ** Steps that leave the references alone *)

Definition upd_user (us : UserSpace) s : Sys D N F :=
  set_mm (<[current_key s := us]> (SPACES s)) (FRAMES s) s.

Lemma inv_upd_user held us s : inv held s -> inv held (upd_user us s).
Proof. intros [H1 H2 H3 H4 H5]. split; [by eapply refs_ok_ext|done..]. Qed.

Lemma wp_in_user {E A} (m : prog UserSpace E A) Q X (s : Sys D N F) :
  wp m (fun a us => Q a (upd_user us s)) (fun e us => X e (upd_user us s)) (user_space s) ->
  wp (in_user m) Q X s.
Proof. apply wp_zoom. Qed.

Lemma wp_or_errno {A} (m : prog (Sys D N F) Z A) k (Q : Z -> Sys D N F -> Prop) X s :
  wp m (fun a s' => wp (k a) Q X s') (fun e s' => Q (- e) s') s -> wp (or_errno m k) Q X s.
Proof. intros H. unfold or_errno. apply wp_bind, wp_try. eapply wp_mono; [exact H|done|]. intros. by apply wp_ret. Qed.

(** A checked store to user memory, and a checked load. *)
Lemma wp_copy_out held s buf data (Q : unit -> Sys D N F -> Prop) (X : Z -> Sys D N F -> Prop) :
  inv held s -> 0 <= buf ->
  (forall s', inv held s' -> same_procs s s' -> Q tt s') ->
  (forall e s', inv held s' -> same_procs s s' -> X e s') ->
  wp (in_user (copy_to_user buf data)) Q X s.
Proof.
  intros I Hb HQ HX. apply wp_in_user. eapply wp_mono; [by apply wp_copy_to_user| |].
  - intros [] us _. apply HQ; [by apply inv_upd_user|done].
  - intros e us _. apply HX; [by apply inv_upd_user|done].
Qed.

Lemma wp_copy_in held s buf count (Q : list byte -> Sys D N F -> Prop) (X : Z -> Sys D N F -> Prop) :
  inv held s -> 0 <= buf -> 0 <= count ->
  (forall bytes s', inv held s' -> same_procs s s' -> length bytes = Z.to_nat count -> buf + count <= USER_SPACE_END ->
                    Q bytes s') ->
  (forall e s', inv held s' -> same_procs s s' -> X e s') ->
  wp (in_user (with_user_bytes buf count)) Q X s.
Proof.
  intros I Hb Hc HQ HX. apply wp_in_user. eapply wp_mono; [by apply wp_with_user_bytes| |].
  - intros bytes us (-> & [Hr _] & ->). apply HQ; [by apply inv_upd_user|done|apply length_read_bytes|done].
  - intros e us _. apply HX; [by apply inv_upd_user|done].
Qed.

Lemma same_procs_refl s : same_procs s s.
Proof. done. Qed.

Lemma same_procs_trans s1 s2 s3 : same_procs s1 s2 -> same_procs s2 s3 -> same_procs s1 s3.
Proof. intros [H1 H2] [H3 H4]. split; congruence. Qed.

(** ** Cells *)

Lemma inv_held_perm held held' s :
  inv held s -> (forall r, cnt r held' = cnt r held) -> inv held' s.
Proof. intros [H1 H2 H3 H4 H5] E. split; [|done..]. eapply refs_ok_ext; [done..|]. intros r. unfold total. by rewrite E. Qed.

Lemma inv_held_None held s : inv held s <-> inv (None :: held) s.
Proof. split; intros I; (eapply inv_held_perm; [exact I|]); intros r; rewrite cnt_cons, one_None; lia. Qed.

(** Waking touches neither the references nor the processor. *)
Lemma wp_wake_pipe held s (Q : unit -> Sys D N F -> Prop) X :
  inv held s -> (forall s', inv held s' -> same_procs s s' -> Q tt s') ->
  wp (in_kernel wake_pipe_waiters) Q X s.
Proof.
  intros [H1 H2 H3 H4 H5] HQ. unfold in_kernel. apply wp_zoom.
  assert (Hw : wp (wake_all Pipe) (fun _ => kernel_ok) no_err (kern (tty s))) by (by apply wake_ok).
  assert (Hc : wp (wake_all Pipe) (fun _ k => cpu k = cpu (kern (tty s))) no_err (kern (tty s)))
    by (by apply wp_wake_all).
  eapply wp_mono; [exact (wp_conj _ _ _ _ _ _ Hw Hc)| |intros e k [[] _]].
  intros [] k [Hk Hk']. apply HQ; [split; [by eapply refs_ok_ext|done..]|]. split; [done|]. unfold current_key. cbn. by rewrite Hk'.
Qed.

Lemma wp_pipe_cell p b s (Q : PipeBuf -> Sys D N F -> Prop) X :
  PIPES s !! p = Some b -> Q b s -> wp (pipe_cell p) Q X s.
Proof. intros Hp HQ. unfold pipe_cell. apply wp_bind, wp_get. by eapply wp_unwrap. Qed.

Lemma wp_arc_count a n s (Q : Z -> Sys D N F -> Prop) X :
  ARCS s !! a = Some n -> Q n s -> wp (arc_count a) Q X s.
Proof. intros Hp HQ. unfold arc_count. apply wp_bind, wp_get. by eapply wp_unwrap. Qed.

(** A cell with a counted reference exists. *)
Lemma cell_exists held s r :
  inv held s -> 0 < total held s r ->
  match r with
  | RRead p | RWrite p => exists b, PIPES s !! p = Some b
  | RSock e => ARCS s !! refs e = Some (total held s r) /\ sockets (NET s) !! handle e = Some (s_kind e)
  end.
Proof.
  intros I Hr. pose proof (inv_strong _ _ _ I Hr) as Hs. destruct r as [p|p|e]; cbn in Hs.
  - destruct (PIPES s !! p); [eauto|cbn in Hs; lia].
  - destruct (PIPES s !! p); [eauto|cbn in Hs; lia].
  - split; [destruct (ARCS s !! refs e); cbn in Hs; [congruence|lia]|]. apply (inv_refs _ _ I). by exists e.
Qed.

(** Updating one cell by one reference more or fewer. *)
Lemma inv_put_pipe held held' s p b' :
  inv held s ->
  (forall r, cnt r held' = cnt r held + (if decide (r = RRead p) then readers b' - strong s (RRead p) else 0)
                                      + (if decide (r = RWrite p) then writers b' - strong s (RWrite p) else 0)) ->
  inv held' (set_pipes (<[p := b']> (PIPES s)) s).
Proof.
  intros [[R1 R2 R3 R4 R5 R6] H2 H3 H4 H5] Hc. split; [|done..].
  assert (Hsock : forall e, total held' (set_pipes (<[p := b']> (PIPES s)) s) (RSock e) = total held s (RSock e)).
  { intros e. unfold total. rewrite Hc, !decide_False by done. cbn [PROCESSES set_pipes]. lia. }
  split; cbn [strong PIPES set_pipes ARCS PROCESSES NET].
  - intros q. specialize (R1 q). unfold total in *. rewrite Hc, (decide_False (P := RRead q = RWrite p)) by done. cbn [strong] in R1. cbn [PROCESSES set_pipes].
    destruct (decide (q = p)) as [->|Hq]; [rewrite lookup_insert_eq, decide_True by done; cbn in *; lia|].
    rewrite lookup_insert_ne, decide_False by congruence. lia.
  - intros q. specialize (R2 q). unfold total in *. rewrite Hc, (decide_False (P := RWrite q = RRead p)) by done. cbn [strong] in R2. cbn [PROCESSES set_pipes].
    destruct (decide (q = p)) as [->|Hq]; [rewrite lookup_insert_eq, decide_True by done; cbn in *; lia|].
    rewrite lookup_insert_ne, decide_False by congruence. lia.
  - intros e. rewrite Hsock. apply R3.
  - intros a n Ha. destruct (R4 a n Ha) as [|(e & He & Ht)]; [by left|]. right. exists e. by rewrite Hsock.
  - intros h k. rewrite R5. split; intros (e & E1 & E2 & E3); exists e; rewrite Hsock in *; done.
  - intros e e'. rewrite !Hsock. apply R6.
Qed.

Lemma inv_set_pipe held held' s p b b' :
  inv held s -> PIPES s !! p = Some b ->
  (forall r, cnt r held' = cnt r held + (if decide (r = RRead p) then readers b' - readers b else 0)
                                      + (if decide (r = RWrite p) then writers b' - writers b else 0)) ->
  inv held' (set_pipes (<[p := b']> (PIPES s)) s).
Proof. intros I Hp Hc. eapply inv_put_pipe; [done|]. cbn [strong]. by rewrite Hp. Qed.

(** A reference more or fewer to a socket that stays. *)
Lemma inv_set_arc held held' s e n' :
  inv held s -> 0 < total held s (RSock e) -> 0 < n' ->
  (forall r, cnt r held' = cnt r held + (if decide (r = RSock e) then n' - total held s (RSock e) else 0)) ->
  inv held' (set_arcs (<[refs e := n']> (ARCS s)) s).
Proof.
  intros [[R1 R2 R3 R4 R5 R6] H2 H3 H4 H5] He Hn Hc. set (s' := set_arcs _ s). split; [|done..].
  assert (Hthis : total held' s' (RSock e) = n').
  { unfold total in *. rewrite Hc, decide_True by done. cbn [s' PROCESSES set_arcs] in *. lia. }
  assert (Hother : forall r, r <> RSock e -> total held' s' r = total held s r).
  { intros r Hr. unfold total. rewrite Hc, decide_False by done. cbn [s' PROCESSES set_arcs]. lia. }
  assert (Hpos : forall e', 0 < total held' s' (RSock e') <-> 0 < total held s (RSock e')).
  { intros e'. destruct (decide (e' = e)) as [->|]; [rewrite Hthis; lia|]. by rewrite Hother by congruence. }
  split; cbn [strong PIPES s' set_arcs ARCS PROCESSES NET].
  - intros p. rewrite Hother by done. apply R1.
  - intros p. rewrite Hother by done. apply R2.
  - intros e'. rewrite Hpos. intros He'. destruct (decide (e' = e)) as [->|Hne]; [by rewrite lookup_insert_eq, Hthis|].
    rewrite lookup_insert_ne, Hother by (try congruence; intros E; apply Hne, R6; auto). by apply R3.
  - intros a n. rewrite lookup_insert_Some. intros [[<- <-]|[_ Ha]]; [right; exists e; by rewrite Hpos|].
    destruct (R4 a n Ha) as [|(e' & E1 & E2)]; [by left|]. right. exists e'. by rewrite Hpos.
  - intros h k. rewrite R5. split; intros (e' & E1 & E2 & E3); exists e'; by rewrite Hpos in *.
  - intros e1 e2. rewrite !Hpos. apply R6.
Qed.

(** The last reference to a socket, which the stack removes. *)
Lemma inv_last_arc held s e net :
  inv (Some (FdSocket e) :: held) s -> total (Some (FdSocket e) :: held) s (RSock e) = 1 ->
  sockets net = delete (handle e) (sockets (NET s)) ->
  inv held (set_arcs (<[refs e := 0]> (ARCS s)) (set_net net s)).
Proof.
  intros [[R1 R2 R3 R4 R5 R6] H2 H3 H4 H5] He Hn. set (s' := set_arcs _ _). set (all := Some (FdSocket e) :: held) in *. split; [|done..].
  assert (Hone : forall r, one r (Some (FdSocket e)) = if decide (r = RSock e) then 1 else 0).
  { intros r. unfold one. cbn. repeat case_decide; congruence. }
  assert (Hthis : total held s' (RSock e) = 0).
  { unfold total, all in He. rewrite cnt_cons, Hone, decide_True in He by done. unfold total. cbn [s' PROCESSES set_arcs set_net]. lia. }
  assert (Hother : forall r, r <> RSock e -> total held s' r = total all s r).
  { intros r Hr. unfold total, all. rewrite cnt_cons, Hone, decide_False by done. done. }
  assert (Hpos : forall e', 0 < total held s' (RSock e') <-> e' <> e /\ 0 < total all s (RSock e')).
  { intros e'. destruct (decide (e' = e)) as [->|]; [rewrite Hthis; split; [lia|tauto]|]. rewrite Hother by congruence. tauto. }
  assert (He0 : 0 < total all s (RSock e)) by lia.
  split; cbn [strong PIPES s' set_arcs set_net ARCS PROCESSES NET].
  - intros p. rewrite Hother by done. apply R1.
  - intros p. rewrite Hother by done. apply R2.
  - intros e' [Hne He']%Hpos. rewrite lookup_insert_ne, Hother by (try congruence; intros E; apply Hne, R6; auto). by apply R3.
  - intros a n. rewrite lookup_insert_Some. intros [[_ <-]|[Ha' Ha]]; [by left|].
    destruct (R4 a n Ha) as [|(e' & E1 & E2)]; [by left|]. right. exists e'. rewrite Hpos. split_and!; [done|congruence|done].
  - intros h k. rewrite Hn, lookup_delete_Some, R5. split.
    + intros (Hh & e' & E1 & E2 & E3). exists e'. rewrite Hpos. split_and!; [done..|congruence|done].
    + intros (e' & E1 & E2 & [E3 E4]%Hpos). split; [|by exists e']. intros Hh. apply E3, R6; [done..|]. right. congruence.
  - intros e1 e2 [_ E1]%Hpos [_ E2]%Hpos. by apply R6.
Qed.

Lemma inv_set_net held s n : inv held s -> sockets n = sockets (NET s) -> inv held (set_net n s).
Proof. intros [H1 H2 H3 H4 H5] Hn. split; [by eapply refs_ok_ext|done..]. Qed.

(** A fresh count for a socket the stack just added. *)
Lemma inv_new_arc held s e net :
  inv held s -> ARCS s !! refs e = None -> sockets (NET s) !! handle e = None ->
  sockets net = <[handle e := s_kind e]> (sockets (NET s)) ->
  inv (Some (FdSocket e) :: held) (set_arcs (<[refs e := 1]> (ARCS s)) (set_net net s)).
Proof.
  intros I Ha Hh Hn. assert (Hno : forall e', 0 < total held s (RSock e') -> refs e' <> refs e /\ handle e' <> handle e).
  { intros e' He'. destruct (cell_exists _ _ (RSock e') I He') as [H1 H2]. split; congruence. }
  destruct I as [[R1 R2 R3 R4 R5 R6] H2 H3 H4 H5]. set (s' := set_arcs _ _). set (all := Some (FdSocket e) :: held) in *. split; [|done..].
  assert (Hall : forall r, total all s' r = total held s r + if decide (r = RSock e) then 1 else 0).
  { intros r. unfold total, all. rewrite cnt_cons. unfold one. cbn. repeat case_decide; simplify_eq; lia. }
  assert (Hz : total held s (RSock e) = 0).
  { destruct (decide (0 < total held s (RSock e))) as [Hp|]; [by destruct (Hno e Hp)|]. unfold total in *.
    pose proof (cnt_range (RSock e) held). pose proof (cnt_procs_bound (RSock e) (PROCESSES s)) as Hb.
    assert (0 <= cnt_procs (RSock e) (PROCESSES s)); [|lia]. apply Hb. intros k p Hk. by apply (H2 k). }
  assert (Hpos : forall e', 0 < total all s' (RSock e') <-> e' = e \/ 0 < total held s (RSock e')).
  { intros e'. rewrite Hall. case_decide as Hd; [injection Hd as ->; split; [by left|lia]|]. rewrite Z.add_0_r. split; [by right|]. intros [->|]; done. }
  split; cbn [strong PIPES s' set_arcs set_net ARCS PROCESSES NET].
  - intros p. rewrite Hall, decide_False, Z.add_0_r by done. apply R1.
  - intros p. rewrite Hall, decide_False, Z.add_0_r by done. apply R2.
  - intros e' [->|He']%Hpos; rewrite Hall; [by rewrite lookup_insert_eq, decide_True, Hz|]. destruct (Hno e' He') as [N1 N2].
    rewrite lookup_insert_ne, decide_False, Z.add_0_r by congruence. by apply R3.
  - intros a n. rewrite lookup_insert_Some. intros [[<- <-]|[_ Hn']]; [right; exists e; rewrite Hpos; auto|].
    destruct (R4 a n Hn') as [|(e' & E1 & E2)]; [by left|]. right. exists e'. rewrite Hpos. auto.
  - intros h k. rewrite Hn, lookup_insert_Some, R5. split.
    + intros [[<- <-]|[_ (e' & E1 & E2 & E3)]]; [exists e|exists e']; rewrite Hpos; auto.
    + intros (e' & E1 & E2 & [->|E3]%Hpos); [by left|]. right. destruct (Hno e' E3). split; [congruence|by exists e'].
  - intros e1 e2 [->|E1]%Hpos [->|E2]%Hpos; [done|..]; [destruct (Hno e2 E2); intros []; congruence|destruct (Hno e1 E1); intros []; congruence|by apply R6].
Qed.

Lemma one_ref fd r : ref_of fd = Some r -> forall r', one r' (Some fd) = if decide (r' = r) then 1 else 0.
Proof. intros E r'. unfold one. cbn. rewrite E. repeat case_decide; congruence. Qed.

Lemma one_no_ref fd : ref_of fd = None -> forall r', one r' (Some fd) = 0.
Proof. intros E r'. unfold one. cbn. rewrite E. by case_decide. Qed.

(** Closes the goals that compare counts of held descriptors. *)
Ltac solve_cnt :=
  intros; rewrite ?cnt_cons, ?cnt_app, ?one_None;
  repeat (erewrite one_ref by done); repeat (rewrite one_no_ref by done);
  cbn [readers writers]; repeat case_decide; simplify_eq; try done; try lia.

(** [clone]: one more reference, held by the caller. *)
Lemma wp_clone_fd held s fd (Q : Fd -> Sys D N F -> Prop) X :
  inv held s -> few s -> (length held <= 64)%nat ->
  (forall r, ref_of fd = Some r -> 0 < total held s r) ->
  (forall s', inv (Some fd :: held) s' -> same_procs s s' -> Q fd s') -> wp (clone_fd fd) Q X s.
Proof.
  intros I Hf Hl Hlive HQ.
  assert (Hb : forall r, ref_of fd = Some r -> 0 <= strong s r + 1 < U64).
  { intros r Hr. pose proof (total_bound held s r I Hf). rewrite (inv_strong held) by auto. unfold U64. lia. }
  destruct fd as [| | |f|p|p|e]; cbn [clone_fd];
    try (apply wp_ret, HQ; [eapply inv_held_perm; [done|]; solve_cnt|done]).
  - destruct (cell_exists _ _ (RRead p) I) as [b Hp]; [by apply Hlive|]. specialize (Hb (RRead p) eq_refl).
    cbn in Hb. rewrite Hp in Hb. cbn in Hb.
    apply wp_bind. eapply wp_pipe_cell; [done|]. apply wp_bind.
    eapply wp_unwrap; [by apply checked_spec|]. apply wp_bind, wp_modify, wp_ret, HQ; [|done].
    eapply inv_set_pipe; [done..|]. solve_cnt.
  - destruct (cell_exists _ _ (RWrite p) I) as [b Hp]; [by apply Hlive|]. specialize (Hb (RWrite p) eq_refl).
    cbn in Hb. rewrite Hp in Hb. cbn in Hb.
    apply wp_bind. eapply wp_pipe_cell; [done|]. apply wp_bind.
    eapply wp_unwrap; [by apply checked_spec|]. apply wp_bind, wp_modify, wp_ret, HQ; [|done].
    eapply inv_set_pipe; [done..|]. solve_cnt.
  - specialize (Hlive (RSock e) eq_refl). destruct (cell_exists _ _ (RSock e) I Hlive) as [Hn _].
    apply wp_bind. eapply wp_arc_count; [done|]. apply wp_bind, wp_modify, wp_ret, HQ; [|done].
    eapply inv_set_arc; [done..|lia|]. solve_cnt.
Qed.

(** [drop]: the caller's reference is gone, and with the last one the socket. *)
Lemma wp_drop_fd held s fd (Q : unit -> Sys D N F -> Prop) X :
  inv (Some fd :: held) s -> few s -> (length held <= 64)%nat ->
  (forall s', inv held s' -> same_procs s s' -> Q tt s') -> wp (drop_fd fd) Q X s.
Proof.
  intros I Hf Hl HQ.
  assert (Hlive : forall r, ref_of fd = Some r ->
    0 < total (Some fd :: held) s r /\ 0 < strong s r < U64).
  { intros r Hr. assert (0 < total (Some fd :: held) s r).
    - unfold total. rewrite cnt_cons, (one_ref fd r Hr), decide_True by done. pose proof (cnt_range r held).
      pose proof (cnt_procs_bound r (PROCESSES s)) as Hb.
      assert (0 <= cnt_procs r (PROCESSES s)); [|lia]. apply Hb. intros k p Hk. by apply (inv_procs _ _ I k).
    - split; [done|]. pose proof (total_bound _ s r I Hf) as Hs. rewrite (inv_strong _ _ _ I) by done.
      cbn [length] in Hs. unfold U64. lia. }
  destruct fd as [| | |f|p|p|e]; cbn [drop_fd];
    try (apply wp_ret, HQ; [eapply inv_held_perm; [done|]; solve_cnt|done]).
  - destruct (Hlive (RRead p)) as [Hc Hs]; [done|]. destruct (cell_exists _ _ _ I Hc) as [b Hp].
    cbn in Hs. rewrite Hp in Hs. cbn in Hs.
    apply wp_bind. eapply wp_pipe_cell; [done|]. apply wp_bind.
    eapply wp_unwrap; [apply checked_spec; unfold in_width; lia|]. apply wp_bind, wp_modify.
    set (s1 := set_pipes _ s). assert (inv held s1).
    { eapply inv_set_pipe; [done..|]. solve_cnt. }
    destruct (_ =? 0); [|apply wp_ret; by apply HQ]. eapply wp_wake_pipe; [done|]. intros. by apply HQ.
  - destruct (Hlive (RWrite p)) as [Hc Hs]; [done|]. destruct (cell_exists _ _ _ I Hc) as [b Hp].
    cbn in Hs. rewrite Hp in Hs. cbn in Hs.
    apply wp_bind. eapply wp_pipe_cell; [done|]. apply wp_bind.
    eapply wp_unwrap; [apply checked_spec; unfold in_width; lia|]. apply wp_bind, wp_modify.
    set (s1 := set_pipes _ s). assert (inv held s1).
    { eapply inv_set_pipe; [done..|]. solve_cnt. }
    destruct (_ =? 0); [|apply wp_ret; by apply HQ]. eapply wp_wake_pipe; [done|]. intros. by apply HQ.
  - destruct (Hlive (RSock e)) as [Hc Hs]; [done|]. destruct (cell_exists _ _ _ I Hc) as [Hn Hk].
    apply wp_bind. eapply wp_arc_count; [done|]. apply wp_bind. destruct (_ =? 1) eqn:E1; zbool.
    + unfold in_net. apply wp_zoom. eapply wp_mono; [apply (sl_close_socket _ _ (sockets_laws _)); by rewrite Hk| |intros []].
      intros [] n' Hn'. apply wp_modify, HQ; [|done]. rewrite E1. exact (inv_last_arc held s e n' I E1 Hn').
    + apply wp_ret, wp_modify, HQ; [|done]. eapply inv_set_arc; [done..|lia|]. solve_cnt.
Qed.

(** ** The table of the current process *)

(** The entry of the current process is [p]. *)
Definition at_proc (held : list (option Fd)) (p : ProcState) s : Prop :=
  inv held s /\ few s /\ PROCESSES s !! current_key s = Some p.

Lemma at_proc_same held held' p s s' :
  at_proc held p s -> same_procs s s' -> inv held' s' -> at_proc held' p s'.
Proof. intros (I & Hf & Hp) [E1 E2] I'. split_and!; [done| |]; unfold few in *; by rewrite ?E1, ?E2. Qed.

Lemma at_proc_ok held p s : at_proc held p s -> proc_ok p.
Proof. intros (I & _ & Hp). by eapply inv_procs. Qed.

Lemma default_ok : proc_ok ProcState_default.
Proof.
  split; [cbn; unfold MAX_FDS; lia|by do 3 (apply Forall_cons; split; [done|])| |cbn [brk ProcState_default]; unfold USER_HEAP_MAX, USER_HEAP_BASE; lia].
  exists []. by split.
Qed.

Lemma cnt_default r : cnt r (fds ProcState_default) = 0.
Proof. unfold ProcState_default, fds. rewrite !cnt_cons, !one_no_ref by done. done. Qed.

(** The current process has an entry, or there is room for it. *)
Definition ready s : Prop := few s /\ (room s \/ is_Some (PROCESSES s !! current_key s)).

Lemma room_ready s : room s -> ready s.
Proof. intros H. split; [unfold few, room in *; lia|by left]. Qed.

Lemma at_proc_ready held p s : at_proc held p s -> ready s.
Proof. intros (_ & Hf & Hp). split; [done|]. right. by eexists. Qed.

Lemma ready_same s s' : ready s -> same_procs s s' -> ready s'.
Proof. intros H [E1 E2]. unfold ready, few, room in *. by rewrite E1, E2. Qed.

Lemma wp_current_proc_first held s (Q : ProcState -> Sys D N F -> Prop) X :
  inv held s -> ready s ->
  (forall p s', at_proc held p s' -> current_key s' = current_key s -> DISK s' = DISK s ->
     p = default ProcState_default (PROCESSES s !! current_key s) -> kern (tty s') = kern (tty s) ->
     SPACES s' = SPACES s -> Q p s') ->
  wp current_proc Q X s.
Proof.
  intros I [Hf Hr] HQ. unfold current_proc. apply wp_bind, wp_get.
  destruct (PROCESSES s !! current_key s) as [p|] eqn:Hp.
  { apply wp_ret, HQ; [|done..]. by split_and!. }
  destruct Hr as [Hr|[? ?]]; [|done].
  apply wp_bind, wp_put, wp_ret, HQ; [|done..]. destruct I as [H1 H2 H3 H4 H5]. split_and!.
  - split; [| |done..]; cbn [PROCESSES set_procs].
    + eapply refs_ok_ext; [done..|]. intros r. unfold total. cbn [PROCESSES set_procs]. by rewrite cnt_procs_insert, cnt_default by done.
    + intros k p. rewrite lookup_insert_Some. intros [[_ <-]|[_ Hk]]; [apply default_ok|by eapply H2].
  - unfold few, room in *. cbn [PROCESSES set_procs]. rewrite map_size_insert_None by done. lia.
  - cbn. apply lookup_insert_eq.
Qed.

Lemma wp_current_proc held p s (Q : ProcState -> Sys D N F -> Prop) X :
  at_proc held p s -> Q p s -> wp current_proc Q X s.
Proof. intros (_ & _ & Hp) HQ. unfold current_proc. apply wp_bind, wp_get. by rewrite Hp. Qed.

Lemma wp_current_fds_first held s (Q : list (option Fd) -> Sys D N F -> Prop) X :
  inv held s -> ready s ->
  (forall p s', at_proc held p s' -> current_key s' = current_key s -> DISK s' = DISK s ->
     p = default ProcState_default (PROCESSES s !! current_key s) -> kern (tty s') = kern (tty s) ->
     SPACES s' = SPACES s -> Q (fds p) s') ->
  wp current_fds Q X s.
Proof.
  intros I Hr HQ. unfold current_fds. apply wp_bind. eapply wp_current_proc_first; [done..|].
  intros. apply wp_ret. by apply HQ.
Qed.

Lemma wp_current_fds held p s (Q : list (option Fd) -> Sys D N F -> Prop) X :
  at_proc held p s -> Q (fds p) s -> wp current_fds Q X s.
Proof. intros Hp HQ. unfold current_fds. apply wp_bind. eapply wp_current_proc; [done|]. by apply wp_ret. Qed.

Lemma at_proc_put held held' p q s :
  at_proc held p s -> proc_ok q ->
  (forall r, cnt r (fds q) + cnt r held' = cnt r (fds p) + cnt r held) ->
  at_proc held' q (set_procs (<[current_key s := q]> (PROCESSES s)) s).
Proof.
  intros ([H1 H2 H3 H4 H5] & Hf & Hp) Hq Hc. split_and!.
  - split; [| |done..]; cbn [PROCESSES set_procs].
    + eapply refs_ok_ext; [done..|]. intros r. unfold total. cbn [PROCESSES set_procs].
      rewrite (cnt_procs_update r _ _ p) by done. specialize (Hc r). lia.
    + intros k p'. rewrite lookup_insert_Some. intros [[_ <-]|[_ Hk]]; [done|by eapply H2].
  - unfold few in *. cbn [PROCESSES set_procs]. by rewrite map_size_insert_Some by eauto.
  - cbn. apply lookup_insert_eq.
Qed.

Lemma wp_put_current_proc held held' p q s (Q : unit -> Sys D N F -> Prop) X :
  at_proc held p s -> proc_ok q ->
  (forall r, cnt r (fds q) + cnt r held' = cnt r (fds p) + cnt r held) ->
  (forall s', at_proc held' q s' -> current_key s' = current_key s -> DISK s' = DISK s -> tty s' = tty s ->
     Q tt s') ->
  wp (put_current_proc q) Q X s.
Proof. intros Hp Hq Hc HQ. unfold put_current_proc. apply wp_modify, HQ; [|done..]. by eapply at_proc_put. Qed.

Lemma wp_put_current_fds held held' p l s (Q : unit -> Sys D N F -> Prop) X :
  at_proc held p s -> (length l <= MAX_FDS)%nat -> Forall slot_ok l ->
  (forall r, cnt r l + cnt r held' = cnt r (fds p) + cnt r held) ->
  (forall s', at_proc held' (set_fds l p) s' -> current_key s' = current_key s -> DISK s' = DISK s ->
     tty s' = tty s -> Q tt s') ->
  wp (put_current_fds l) Q X s.
Proof.
  intros Hp Hl Hs Hc HQ. unfold put_current_fds. apply wp_bind. eapply wp_current_proc; [done|].
  eapply wp_put_current_proc; [done| |done|done]. pose proof (at_proc_ok _ _ _ Hp) as [? ? ? ?]. by split.
Qed.

Lemma get_fd_Some l fd e :
  get_fd l fd = Some e -> 0 <= fd < Z.of_nat (length l) /\ l !! Z.to_nat fd = Some (Some e).
Proof.
  unfold get_fd. destruct ((0 <=? fd) && (fd <? Z.of_nat (length l))) eqn:E; [|done]. zbool.
  destruct (l !! Z.to_nat fd) as [[e'|]|]; cbn; [|done..]. by intros [= ->].
Qed.

(** A stored descriptor is well formed and counted. *)
Lemma get_fd_ok held p s fd e :
  at_proc held p s -> get_fd (fds p) fd = Some e ->
  slot_ok (Some e) /\ (forall r, ref_of e = Some r -> 0 < cnt_procs r (PROCESSES s)).
Proof.
  intros Hp [Hfd He]%get_fd_Some. pose proof (at_proc_ok _ _ _ Hp) as Hok. split.
  - eapply Forall_lookup_1; [apply Hok|done].
  - intros r Hr. pose proof (cnt_lookup r _ _ _ He) as H1. rewrite (one_ref e r Hr), decide_True in H1 by done.
    pose proof (cnt_procs_lookup r _ _ _ (proj2 (proj2 Hp))). lia.
Qed.

(** Storing to a slot that exists. *)
Lemma set_fd_ok l fd o o' :
  l !! Z.to_nat fd = Some o -> Forall slot_ok l -> slot_ok o' ->
  length (set_slot l fd o') = length l /\ Forall slot_ok (set_slot l fd o') /\
  (forall r, cnt r (set_slot l fd o') = cnt r l - one r o + one r o').
Proof.
  intros Ho Hs Ho'. unfold set_slot. split_and!; [by rewrite length_insert|by apply Forall_insert|].
  intros r. by apply cnt_insert.
Qed.

(** ** Allocation *)

Lemma position_is_free l i :
  position is_free l = Some i -> l !! i = Some None /\ forall j, (j < i)%nat -> exists e, l !! j = Some (Some e).
Proof.
  revert i. induction l as [|[e|] l IH]; intros i; cbn [position is_free]; [done| |].
  - destruct (position is_free l) as [j|]; [|done]. intros [= <-]. destruct (IH j) as [H1 H2]; [done|].
    split; [done|]. intros [|k] Hk; [by exists e|]. apply H2. lia.
  - intros [= <-]. split; [done|]. lia.
Qed.

Lemma position_not_free l :
  position is_free l = None -> forall j, (j < length l)%nat -> exists e, l !! j = Some (Some e).
Proof.
  induction l as [|[e|] l IH]; cbn [position is_free length]; [lia| |done].
  destruct (position is_free l) eqn:E; [done|]. intros _ [|j] Hj; [by exists e|]. apply IH; [done|lia].
Qed.

(** The table with [e] in the lowest free slot [i]. *)
Definition allocated (l l' : list (option Fd)) (e : Fd) (i : nat) : Prop :=
  l' !! i = Some (Some e) /\ (forall j, (j < i)%nat -> exists e', l !! j = Some (Some e')) /\
  (i < MAX_FDS)%nat /\ (forall j, j <> i -> mjoin (l' !! j) = mjoin (l !! j)) /\ mjoin (l !! i) = None.

(** The outcome of [alloc_fd], without the drop. *)
Lemma alloc_fd_cases l e :
  (length l <= MAX_FDS)%nat -> Forall slot_ok l -> slot_ok (Some e) ->
  (exists l' i, allocated l l' e i /\ (length l' <= MAX_FDS)%nat /\ Forall slot_ok l' /\
     (forall r, cnt r l' = cnt r l + one r (Some e)) /\
     forall s, alloc_fd l e s = (Ret (l', Z.of_nat i), s)) \/
  (length l = MAX_FDS /\ (forall j, (j < MAX_FDS)%nat -> exists e', l !! j = Some (Some e')) /\
   forall s, alloc_fd l e s = (drop_fd e ;;! pret (l, - EMFILE)) s).
Proof.
  intros Hl Hs He. unfold alloc_fd. destruct (position is_free l) as [i|] eqn:Ep.
  - apply position_is_free in Ep as [Hi Hlow]. pose proof (lookup_lt_Some _ _ _ Hi). left.
    exists (<[i := Some e]> l), i. split_and!.
    + split_and!; [by apply list_lookup_insert_eq|done|lia| |by rewrite Hi].
      intros j Hj. by rewrite list_lookup_insert_ne.
    + by rewrite length_insert.
    + by apply Forall_insert.
    + intros r. rewrite (cnt_insert r l i None), one_None by done. lia.
    + done.
  - pose proof (position_not_free _ Ep) as Hfull. destruct (length l <? MAX_FDS)%nat eqn:Hn; zbool.
    + left. exists (l ++ [Some e]), (length l). split_and!.
      * split_and!; [by rewrite list_lookup_middle|done|done| |].
        -- intros j Hj. destruct (decide (j < length l)%nat); [by rewrite lookup_app_l|].
           rewrite lookup_app_r by lia. rewrite (lookup_ge_None_2 l j) by lia.
           rewrite lookup_ge_None_2; [done|]. cbn. lia.
        -- by rewrite lookup_ge_None_2.
      * rewrite length_app. cbn. lia.
      * apply Forall_app. split; [done|]. by apply Forall_singleton.
      * intros r. rewrite cnt_app, cnt_cons. cbn. lia.
      * done.
    + right. split_and!; [lia| |done]. intros j Hj. apply Hfull. lia.
Qed.

Lemma wp_alloc_fd held p s l e (Q : list (option Fd) * Z -> Sys D N F -> Prop) X :
  at_proc (Some e :: held) p s -> (length held <= 64)%nat ->
  (length l <= MAX_FDS)%nat -> Forall slot_ok l -> slot_ok (Some e) ->
  (forall l' i, allocated l l' e i -> (length l' <= MAX_FDS)%nat -> Forall slot_ok l' ->
     (forall r, cnt r l' = cnt r l + one r (Some e)) -> Q (l', Z.of_nat i) s) ->
  (forall s', at_proc held p s' -> current_key s' = current_key s -> Q (l, - EMFILE) s') ->
  wp (alloc_fd l e) Q X s.
Proof.
  intros Hp Hh Hl Hs He HQ1 HQ2. destruct (alloc_fd_cases l e Hl Hs He) as [(l' & i & Ha & H1 & H2 & H3 & H4)|(_ & _ & H)].
  - unfold wp. rewrite H4. by apply HQ1.
  - unfold wp. rewrite H. change (wp (drop_fd e ;;! pret (l, - EMFILE)) Q X s). apply wp_bind.
    eapply wp_drop_fd; [apply Hp|apply Hp|done|]. intros s' I' Hsame. apply wp_ret, HQ2; [|apply Hsame].
    by eapply at_proc_same.
Qed.

Lemma wp_install_fd held s e (Q : Z -> Sys D N F -> Prop) X :
  inv (Some e :: held) s -> ready s -> (length held <= 64)%nat -> slot_ok (Some e) ->
  (forall p l' i s', allocated (fds p) l' e i -> at_proc held (set_fds l' p) s' ->
     p = default ProcState_default (PROCESSES s !! current_key s) ->
     current_key s' = current_key s -> Q (Z.of_nat i) s') ->
  (forall p s', at_proc held p s' -> current_key s' = current_key s -> Q (- EMFILE) s') ->
  wp (install_fd e) Q X s.
Proof.
  intros I R Hh He HQ1 HQ2. unfold install_fd. apply wp_bind.
  eapply wp_current_fds_first; [done..|]. intros p s1 Hp Hk _ Ep _ _.
  pose proof (at_proc_ok _ _ _ Hp) as [P1 P2 P3 P4]. apply wp_bind. eapply wp_alloc_fd; [done..| |].
  - intros l' i Ha H1 H2 H3. apply wp_bind. eapply (wp_put_current_fds (Some e :: held) held); [done..| |].
    + intros r. rewrite H3, cnt_cons. lia.
    + intros s' Hp' Hk' _ _. apply wp_ret. eapply HQ1; [done..|congruence].
  - intros s' Hp' Hk'. apply wp_bind. eapply (wp_put_current_fds held held); [done..|].
    intros s'' Hp'' Hk'' _ _. apply wp_ret. eapply HQ2; [done|congruence].
Qed.

(** ** Whole tables *)

Lemma wp_drop_slots l held s (Q : unit -> Sys D N F -> Prop) X :
  inv (l ++ held) s -> few s -> (length l + length held <= 64)%nat ->
  (forall s', inv held s' -> same_procs s s' -> Q tt s') -> wp (drop_slots l) Q X s.
Proof.
  revert s. induction l as [|[e|] l IH]; intros s I Hf Hl HQ; cbn [drop_slots drop_slot app length] in *.
  - by apply wp_ret, HQ.
  - apply wp_bind. eapply wp_drop_fd; [done..|rewrite length_app; lia|]. intros s1 I1 Hs1.
    apply IH; [done|unfold few in *; by rewrite (proj1 Hs1)|lia|].
    intros s2 I2 Hs2. apply HQ; [done|by eapply same_procs_trans].
  - apply wp_bind, wp_ret. apply inv_held_None in I. apply IH; [done..|lia|done].
Qed.

Lemma wp_clone_slots l held s (Q : list (option Fd) -> Sys D N F -> Prop) X :
  inv held s -> few s -> (length l + length held <= 64)%nat ->
  (forall r, cnt r l <= cnt_procs r (PROCESSES s)) ->
  (forall s', inv (l ++ held) s' -> same_procs s s' -> Q l s') -> wp (clone_slots l) Q X s.
Proof.
  revert held s Q. induction l as [|[e|] l IH]; intros held s Q I Hf Hl Hc HQ; cbn [clone_slots clone_slot app length] in *.
  - by apply wp_ret, HQ.
  - apply wp_bind, wp_bind. eapply wp_clone_fd; [done..|lia| |].
    + intros r Hr. specialize (Hc r). rewrite cnt_cons, (one_ref e r Hr), decide_True in Hc by done.
      unfold total. pose proof (cnt_range r l). pose proof (cnt_range r held). lia.
    + intros s1 I1 Hs1. apply wp_ret, wp_bind. eapply (IH (Some e :: held)); [done| |cbn; lia| |].
      * unfold few in *. by rewrite (proj1 Hs1).
      * intros r. rewrite (proj1 Hs1). specialize (Hc r). rewrite cnt_cons in Hc. pose proof (one_range r (Some e)). lia.
      * intros s2 I2 Hs2. apply wp_ret, HQ; [|by eapply same_procs_trans].
        eapply inv_held_perm; [done|]. intros r. rewrite !cnt_app, !cnt_cons, cnt_app. lia.
  - apply wp_bind, wp_ret, wp_bind. eapply IH; [done..|lia| |].
    + intros r. specialize (Hc r). rewrite cnt_cons, one_None in Hc. lia.
    + intros s1 I1 Hs1. apply wp_ret, HQ; [by apply inv_held_None in I1|done].
Qed.
End Inv.
