(* ===== verification/FilesOps.v ===== *)
(** * File system calls keep the invariant

    Every call of [syscall/files.rs] from a state that satisfies the invariant:
    it returns or blocks, never panics, and the invariant holds again. *)

From stdpp Require Import base numbers list gmap.
From Stdlib Require Import ZArith Lia.
From S2P Require Import Prelude BlockDev Fat FatLayout FatAlloc FatData FatDir FatVolume FatOps Vfs Abi Uaccess Paging.
From S2P Require Import Vga Machine Context Sched SchedInv SchedOps Console NetStack Files Paths FilesInv.
#[local] Open Scope Z_scope.

Section Disk.
Context {D N F : Type} `{BL : BlockDevLaws D} `{NL : NetStackLaws N} {M : Mapper F} (v : Fat32).
Implicit Types s : Sys D N F.

(** ** The disk *)

(** A path that leads to a file after a file was set led there before. *)
Lemma a_resolve_unset (P : Z -> Prop) F' Fv c0 t0 data c comps r :
  (forall c t, P c -> F' c t = a_set Fv c0 t0 (Some (AFile data)) c t) ->
  (forall c t id, P c -> Fv c t = Some (ADir id) -> P id) -> P c ->
  a_resolve F' c comps = inr r -> a_resolve Fv c comps = inr r /\ P r.1.
Proof.
  intros HF HP. revert c. induction comps as [|comp [|comp' rest] IH]; intros c Hc; [done| |].
  { cbn. by intros [= <-]. }
  change (a_resolve F' c (comp :: comp' :: rest)) with
    (match F' c (short_name_83 comp) with
     | None => inl NotFound
     | Some (AFile _) => inl NotADirectory
     | Some (ADir id) => a_resolve F' id (comp' :: rest)
     end).
  change (a_resolve Fv c (comp :: comp' :: rest)) with
    (match Fv c (short_name_83 comp) with
     | None => inl NotFound
     | Some (AFile _) => inl NotADirectory
     | Some (ADir id) => a_resolve Fv id (comp' :: rest)
     end).
  rewrite HF by done. unfold a_set. case_decide; [done|].
  destruct (Fv c (short_name_83 comp)) as [[|id]|] eqn:E; [done| |done]. intros Hr.
  apply (IH id); [by eapply HP|done].
Qed.

(** A write of one file leaves every writable path writable. *)
Lemma writable_after O (d d' : D) c0 t0 data path :
  volume_ok v (disk d) O -> becomes v O d d' (a_set (view v (disk d)) c0 t0 (Some (AFile data))) ->
  writable v (disk d) path -> writable v (disk d') path.
Proof.
  intros Hok (O' & _ & _ & Hv & _) Hw c name Hr.
  destruct (a_resolve_unset (is_directory O) _ (view v (disk d)) c0 t0 data (root_cluster v)
              (path_components path) (c, name) Hv) as [Hr' Hd].
  - intros c1 t1 id Hd. by eapply view_directory.
  - by eapply vol_root.
  - done.
  - destruct (Hw c name Hr') as [Hs Hn]. split; [done|]. intros id. rewrite Hv by done.
    unfold a_set. case_decide; [done|]. apply Hn.
Qed.

Lemma writable_same O (d d' : D) path :
  volume_ok v (disk d) O -> unchanged v O d d' -> writable v (disk d) path -> writable v (disk d') path.
Proof.
  intros Hok (_ & Hv & _) Hw c name Hr.
  assert (E : forall comps c, is_directory O c ->
    a_resolve (view v (disk d')) c comps = a_resolve (view v (disk d)) c comps /\
    forall r, a_resolve (view v (disk d)) c comps = inr r -> is_directory O r.1).
  { intros comps. induction comps as [|comp [|comp' rest] IH]; intros c1 Hc1; [done| |].
    { cbn. split; [done|]. by intros r [= <-]. }
    cbn [a_resolve]. rewrite Hv by done.
    destruct (view v (disk d) c1 (short_name_83 comp)) as [[|id]|] eqn:E; [done| |done].
    apply IH. by eapply view_directory. }
  destruct (E (path_components path) (root_cluster v)) as [E1 E2]; [by eapply vol_root|].
  rewrite E1 in Hr. destruct (Hw c name Hr) as [Hs Hn]. split; [done|]. intros id.
  rewrite Hv by (apply (E2 _ Hr)). apply Hn.
Qed.

Lemma inv_set_disk held d' s : inv v held s -> (exists O, volume_ok v (disk d') O) -> inv v held (set_disk d' s).
Proof. intros [H1 H2 H3 H4 H5] Hd. split; [by eapply refs_ok_ext|done..]. Qed.

(** An operation that only reads the disk. *)
Lemma wp_disk_ro {A E'} (m : prog D FatError A) res held s (Q : A + FatError -> Sys D N F -> Prop)
    (X : E' -> Sys D N F -> Prop) :
  computes v (DISK s) m res -> inv v held s ->
  (forall a d', res = inr a -> disk d' = disk (DISK s) -> inv v held (set_disk d' s) -> Q (inl a) (set_disk d' s)) ->
  (forall e d', res = inl e \/ fault v (DISK s) e -> disk d' = disk (DISK s) -> inv v held (set_disk d' s) ->
     Q (inr e) (set_disk d' s)) ->
  wp (ptry (in_disk m)) Q X s.
Proof.
  intros Hc I HQ HX. destruct (inv_disk _ _ _ I) as [O Hok]. apply wp_try, wp_zoom.
  eapply wp_mono; [exact Hc| |]; cbn beta.
  - intros a d' [Hr [E _]]. apply HQ; [done..|]. apply inv_set_disk; [done|]. exists O. by rewrite E.
  - intros e d' [[E _] Hr]. apply HX; [done..|]. apply inv_set_disk; [done|]. exists O. by rewrite E.
Qed.

(** [fs::write_file]: the volume stays well formed, and what was writable is. *)
Lemma wp_disk_write {E'} held s path data (Q : unit + FatError -> Sys D N F -> Prop)
    (X : E' -> Sys D N F -> Prop) :
  inv v held s -> writable v (disk (DISK s)) path -> Z.of_nat (length data) < U32 ->
  (forall r d', inv v held (set_disk d' s) ->
     (forall path', writable v (disk (DISK s)) path' -> writable v (disk d') path') -> Q r (set_disk d' s)) ->
  wp (ptry (in_disk (Vfs.write_file path data))) Q X s.
Proof.
  intros I Hw Hl HQ. destruct (inv_disk _ _ _ I) as [O Hok]. apply wp_try, wp_zoom.
  eapply wp_mono; [by apply (vfs_write_spec v (DISK s) O)| |]; cbn beta.
  - intros [] d' (c & name & _ & Hb). apply HQ.
    + apply inv_set_disk; [done|]. destruct Hb as (O' & ? & _). by exists O'.
    + intros path'. by eapply writable_after.
  - intros e d' [Hu _]. apply HQ.
    + apply inv_set_disk; [done|]. exists O. apply Hu.
    + intros path'. by eapply writable_same.
Qed.

(** The names on a path can be stored. *)
Definition nameable (V : gmap Z (list byte)) (path : list byte) : Prop :=
  forall c name, a_resolve (view v V) (root_cluster v) (path_components path) = inr (c, name) ->
    storable (short_name_83 name).

Lemma wp_disk_mkdir {E'} held s path (Q : unit + FatError -> Sys D N F -> Prop)
    (X : E' -> Sys D N F -> Prop) :
  inv v held s -> nameable (disk (DISK s)) path ->
  (forall r d', inv v held (set_disk d' s) -> Q r (set_disk d' s)) ->
  wp (ptry (in_disk (Vfs.mkdir path))) Q X s.
Proof.
  intros I Hn HQ. destruct (inv_disk _ _ _ I) as [O Hok]. apply wp_try, wp_zoom.
  eapply wp_mono; [by apply (vfs_mkdir_spec v (DISK s) O)| |]; cbn beta.
  - intros [] d' (c & name & new & _ & _ & _ & _ & O' & ? & _). apply HQ, inv_set_disk; [done|by exists O'].
  - intros e d' [Hu _]. apply HQ, inv_set_disk; [done|]. exists O. apply Hu.
Qed.

Lemma wp_disk_unlink {E'} held s path (Q : unit + FatError -> Sys D N F -> Prop)
    (X : E' -> Sys D N F -> Prop) :
  inv v held s -> (forall r d', inv v held (set_disk d' s) -> Q r (set_disk d' s)) ->
  wp (ptry (in_disk (Vfs.unlink path))) Q X s.
Proof.
  intros I HQ. destruct (inv_disk _ _ _ I) as [O Hok]. apply wp_try, wp_zoom.
  assert (Hrem : forall d', file_removed v O (DISK s) path d' -> inv v held (set_disk d' s)).
  { intros d' (c & name & data & _ & _ & O' & ? & _). apply inv_set_disk; [done|by exists O']. }
  eapply wp_mono; [by apply (vfs_unlink_spec v (DISK s) O)| |]; cbn beta.
  - intros [] d' Hr. by apply HQ, Hrem.
  - intros e d' [[Hu _]|[_ Hr]]; apply HQ; [|by apply Hrem].
    apply inv_set_disk; [done|]. exists O. apply Hu.
Qed.

Lemma wp_disk_rmdir {E'} held s path (Q : unit + FatError -> Sys D N F -> Prop)
    (X : E' -> Sys D N F -> Prop) :
  inv v held s -> (forall r d', inv v held (set_disk d' s) -> Q r (set_disk d' s)) ->
  wp (ptry (in_disk (Vfs.rmdir path))) Q X s.
Proof.
  intros I HQ. destruct (inv_disk _ _ _ I) as [O Hok]. apply wp_try, wp_zoom.
  assert (Hrem : forall d', dir_removed v O (disk (DISK s)) path d' -> inv v held (set_disk d' s)).
  { intros d' (c & name & id & _ & _ & _ & O' & ? & _). apply inv_set_disk; [done|by exists O']. }
  eapply wp_mono; [by apply (vfs_rmdir_spec v (DISK s) O)| |]; cbn beta.
  - intros [] d' [Hr _]. by apply HQ, Hrem.
  - intros e d' [[Hu _]|(_ & Hr & _)]; apply HQ; [|by apply Hrem].
    apply inv_set_disk; [done|]. exists O. apply Hu.
Qed.

(** Files on the disk are shorter than 4 GiB. *)
Lemma view_length V c t data : view v V c t = Some (AFile data) -> Z.of_nat (length data) < U32.
Proof.
  unfold view. destruct (is_dot t); [done|]. destruct (find_slot _ _ _) as [p|]; cbn [fmap option_fmap option_map]; [|done].
  unfold node_of. destruct (e_dir _); [done|]. intros [= <-]. unfold file_bytes. rewrite length_take.
  pose proof (from_le_range (slice (slot V p) 28 4)) as Hr. unfold e_size.
  assert (length (slice (slot V p) 28 4) <= 4)%nat by (unfold slice; rewrite length_take; lia).
  assert (256 ^ Z.of_nat (length (slice (slot V p) 28 4)) <= 256 ^ 4) by (apply Z.pow_le_mono_r; lia).
  assert (256 ^ 4 = U32) by done. lia.
Qed.
End Disk.

(** ** Calls *)

Section Ops.
Context {D N F : Type} `{BL : BlockDevLaws D} `{NL : NetStackLaws N} `{ML : MapperLaws F} (v : Fat32).
Context (rsp_cell : nat -> Z) (resume : Z).
Implicit Types s : Sys D N F.
#[local] Abbreviation inv := (inv v).
#[local] Abbreviation at_proc := (at_proc v).

(** The state a call that returns leaves. *)
Definition ok s s' : Prop := inv [] s' /\ ready s' /\ current_key s' = current_key s.

Lemma ok_at_proc p s s' : at_proc [] p s' -> current_key s' = current_key s -> ok s s'.
Proof. intros Hp Hk. split_and!; [apply Hp|by eapply at_proc_ready|done]. Qed.

Lemma ok_same s s' : inv [] s' -> ready s -> same_procs s s' -> ok s s'.
Proof. intros I Hr Hs. split_and!; [done|by eapply ready_same|apply Hs]. Qed.

Lemma ok_from s1 s2 s' : ok s2 s' -> current_key s2 = current_key s1 -> ok s1 s'.
Proof. intros (I & R & K) Hk. split_and!; [done..|congruence]. Qed.

Lemma ok_after held p s s1 s' :
  at_proc held p s1 -> current_key s1 = current_key s -> inv [] s' -> same_procs s1 s' -> ok s s'.
Proof. intros Hp Hk I Hs. eapply ok_from; [eapply ok_same; [done|by eapply at_proc_ready|done]|done]. Qed.

Definition cwd_of s : list byte := cwd (default ProcState_default (PROCESSES s !! current_key s)).

(** The path the argument [ptr] of a call names. *)
Definition arg_path s (ptr : Z) (path : list byte) : Prop :=
  exists raw, cstr_at (user_space s) ptr raw /\ path = resolve_from (cwd_of s) raw.

Lemma cwd_of_normal s : inv [] s -> normal_path (cwd_of s).
Proof.
  intros I. unfold cwd_of. destruct (PROCESSES s !! current_key s) as [p|] eqn:E; cbn [from_option id].
  - by eapply po_cwd, inv_procs.
  - apply default_ok.
Qed.

Lemma wp_resolve_path s raw (Q : list byte -> Sys D N F -> Prop) X :
  inv [] s -> ready s ->
  (forall s', ok s s' -> DISK s' = DISK s -> Q (resolve_from (cwd_of s) raw) s') ->
  wp (resolve_path raw) Q X s.
Proof.
  intros I R HQ.
  assert (Hrel : (forall l, raw <> x2f :: l) ->
    wp (let! p := current_proc in pret (resolve_from (cwd p) raw)) Q X s).
  { intros Hn. apply wp_bind. eapply wp_current_proc_first; [done..|].
    intros p s' Hp Hk Hd -> _ _. apply wp_ret, HQ; [by eapply ok_at_proc|done]. }
  destruct raw as [|b raw]; [by apply Hrel|].
  destruct (decide (b = x2f)) as [->|Hb].
  - apply wp_ret, HQ; [by split_and!|done].
  - assert (resolve_path (b :: raw) = (let! p := current_proc in pret (resolve_from (cwd p) (b :: raw)))) as ->
      by (by destruct b). apply Hrel. congruence.
Qed.

Lemma wp_path_arg s ptr (Q : list byte -> Sys D N F -> Prop) (X : Z -> Sys D N F -> Prop) :
  inv [] s -> ready s -> 0 <= ptr ->
  (forall path s', ok s s' -> DISK s' = DISK s -> arg_path s ptr path -> normal_path path -> Q path s') ->
  (forall e s', ok s s' -> X e s') ->
  wp (path_arg ptr) Q X s.
Proof.
  intros I R Hp HQ HX. unfold path_arg. apply wp_bind, wp_in_user.
  eapply wp_mono; [by apply wp_read_user_cstr| |].
  - intros raw us [-> Hc]. set (s1 := upd_user (user_space s) s).
    assert (I1 : inv [] s1) by (by apply inv_upd_user).
    assert (O1 : ok s s1) by (by apply ok_same).
    destruct (negb (utf8_ok raw)); [by apply wp_fail, HX|].
    destruct raw as [|b raw]; [by apply wp_fail, HX|].
    apply wp_map_err. eapply wp_resolve_path; [done|apply O1|]. intros s' O' Hd.
    apply HQ; [by eapply ok_from|done|by eexists|]. by apply resolve_normal, cwd_of_normal.
  - intros e us [-> _]. apply HX. apply ok_same; [by apply inv_upd_user|done..].
Qed.

(** ** Registry *)

Lemma wp_insert_proc key p held s (Q : unit -> Sys D N F -> Prop) X :
  inv (fds p ++ held) s -> room s -> proc_ok p -> (length held <= 32)%nat ->
  (forall s', inv held s' -> few s' -> Q tt s') -> wp (insert_proc key p) Q X s.
Proof.
  intros [H1 H2 H3 H4 H5] Hr Hp Hl HQ. unfold insert_proc. apply wp_bind, wp_get, wp_bind, wp_put.
  set (s1 := set_procs _ s).
  assert (Hf : few s1).
  { unfold few, room in *. subst s1. cbn [PROCESSES set_procs]. rewrite map_size_insert.
    destruct (PROCESSES s !! key); unfold id; lia. }
  assert (Hprocs : forall k q, PROCESSES s1 !! k = Some q -> proc_ok q).
  { intros k q. subst s1. cbn [PROCESSES set_procs]. rewrite lookup_insert_Some.
    intros [[_ <-]|[_ Hk]]; [done|by eapply H2]. }
  unfold drop_proc. destruct (PROCESSES s !! key) as [q|] eqn:Hq.
  - eapply (wp_drop_slots v (fds q) held); [|done| |].
    + split; [|done..]. eapply refs_ok_ext; [done..|]. intros r. unfold total. subst s1. cbn [PROCESSES set_procs].
      rewrite (cnt_procs_update r _ _ q) by done. rewrite !cnt_app. lia.
    + assert (proc_ok q) as [? _ _ _] by (by eapply H2). unfold MAX_FDS in *. lia.
    + intros s' I' [E _]. apply HQ; [done|]. unfold few in *. by rewrite E.
  - apply wp_ret, HQ; [|done]. split; [|done..]. eapply refs_ok_ext; [done..|]. intros r. unfold total. subst s1. cbn [PROCESSES set_procs].
    rewrite cnt_procs_insert by done. rewrite cnt_app. lia.
Qed.

Lemma forget_process_ok s k : inv [] s -> few s -> wp (forget_process k) (fun _ s' => inv [] s' /\ few s') no_err' s.
Proof.
  intros [H1 H2 H3 H4 H5] Hf. unfold forget_process. apply wp_bind, wp_get, wp_bind, wp_put.
  unfold drop_proc. destruct (PROCESSES s !! k) as [q|] eqn:Hq.
  - eapply (wp_drop_slots v (fds q) []).
    + split; [| |done..]; cbn [PROCESSES set_procs].
      * eapply refs_ok_ext; [done..|]. intros r. unfold total. cbn [PROCESSES set_procs].
        rewrite (cnt_procs_delete r _ _ q), cnt_app by done. lia.
      * intros k' q'. rewrite lookup_delete_Some. intros [_ Hk]. by eapply H2.
    + unfold few in *. cbn [PROCESSES set_procs]. rewrite map_size_delete_Some by eauto. lia.
    + assert (proc_ok q) as [? _ _ _] by (by eapply H2). unfold MAX_FDS in *. cbn. lia.
    + intros s' I' [E _]. split; [done|]. unfold few in *. rewrite E. cbn [PROCESSES set_procs].
      rewrite map_size_delete_Some by eauto. lia.
  - apply wp_ret. rewrite delete_id by done. split; [split; [by eapply refs_ok_ext|done..]|done].
Qed.

Lemma fork_fds_ok s parent child :
  inv [] s -> room s -> wp (fork_fds parent child) (fun _ s' => inv [] s' /\ few s') no_err' s.
Proof.
  intros I Hr. unfold fork_fds. apply wp_bind, wp_get.
  destruct (PROCESSES s !! parent) as [p|] eqn:Hp; [|apply wp_ret; split; [done|apply room_ready, Hr]].
  pose proof (inv_procs _ _ _ I _ _ Hp) as Hok. apply wp_bind.
  eapply (wp_clone_slots v (fds p) []); [done|apply room_ready, Hr| | |].
  - pose proof (po_len _ Hok). unfold MAX_FDS in *. cbn. lia.
  - intros r. by eapply cnt_procs_lookup.
  - intros s1 I1 [E1 _]. eapply (wp_insert_proc _ _ []); [done| |by destruct Hok; split|cbn; lia|done].
    unfold room in *. by rewrite E1.
Qed.

Lemma rekey_process_ok s old new :
  inv [] s -> room s -> wp (rekey_process old new) (fun _ s' => inv [] s' /\ few s') no_err' s.
Proof.
  intros I Hr. unfold rekey_process. apply wp_bind, wp_get.
  destruct (PROCESSES s !! old) as [p|] eqn:Hp; [|apply wp_ret; split; [done|apply room_ready, Hr]].
  pose proof (inv_procs _ _ _ I _ _ Hp) as Hok. destruct I as [H1 H2 H3 H4 H5].
  apply wp_bind, wp_put. eapply (wp_insert_proc _ _ []).
  - split; [| |done..]; cbn [PROCESSES set_procs].
    + eapply refs_ok_ext; [done..|]. intros r. unfold total. cbn [PROCESSES set_procs fds set_brk].
      rewrite (cnt_procs_delete r _ _ p), cnt_app by done. cbn [fds set_brk]. lia.
    + intros k' q'. rewrite lookup_delete_Some. intros [_ Hk]. by eapply H2.
  - unfold room in *. cbn [PROCESSES set_procs]. rewrite map_size_delete_Some by eauto. lia.
  - destruct Hok. split; [done..|]. cbn. unfold USER_HEAP_MAX. lia.
  - cbn. lia.
  - done.
Qed.

(** ** Open, close, and the table *)

Lemma slot_ok_file path data off w : 0 <= off < 2 ^ 63 -> Z.of_nat (length data) < U32 ->
  file_ok (mkOpenFile path data off w false false).
Proof.
  intros H1 H2. unfold file_ok. cbn [f_offset f_data f_is_dir f_writable f_dirty].
  split_and!; [lia..|done|done|done].
Qed.

Lemma wp_disk_write_err held s path data (Q : unit -> Sys D N F -> Prop) (X : Z -> Sys D N F -> Prop) :
  inv held s -> writable v (disk (DISK s)) path -> Z.of_nat (length data) < U32 ->
  (forall d', inv held (set_disk d' s) -> Q tt (set_disk d' s)) ->
  (forall e d', inv held (set_disk d' s) -> X e (set_disk d' s)) ->
  wp (pmap_err fat_errno (in_disk (Vfs.write_file path data))) Q X s.
Proof.
  intros I Hw Hl HQ HX. apply wp_map_err.
  assert (HH := wp_disk_write v held s path data
    (fun r s' => match r with inl _ => Q tt s' | inr e => X (fat_errno e) s' end) (fun (_ : Z) _ => False) I Hw Hl).
  unfold wp, ptry in *. destruct (in_disk (Vfs.write_file path data) s) as [[[]| | |] s']; apply HH;
    intros [[]|e'] d' I' _; auto.
Qed.

Lemma wp_open_file s path flags (Q : OpenFile -> Sys D N F -> Prop) (X : Z -> Sys D N F -> Prop) :
  inv [] s -> ready s -> nameable v (disk (DISK s)) path ->
  (forall f s', file_ok f -> ok s s' -> Q f s') -> (forall e s', ok s s' -> X e s') ->
  wp (open_file path flags) Q X s.
Proof.
  intros I R Hn HQ HX. unfold open_file. destruct (inv_disk _ _ _ I) as [O Hok].
  assert (Hd : forall d', inv [] (set_disk d' s) -> ok s (set_disk d' s)) by (intros; by apply ok_same).
  assert (Hcreate : forall d' w, disk d' = disk (DISK s) -> inv [] (set_disk d' s) -> writable v (disk d') path ->
    wp (pmap_err fat_errno (in_disk (Vfs.write_file path [])) ;;! pret (mkOpenFile path [] 0 w false false))
      Q X (set_disk d' s)).
  { intros d' w E I' Hw. apply wp_bind. eapply wp_disk_write_err; [done|done|done| |].
    - intros d2 I2. apply wp_ret, HQ; [by apply slot_ok_file|by apply Hd].
    - intros e d2 I2. by apply HX, Hd. }
  apply wp_bind. eapply wp_disk_ro; [by apply (vfs_lookup_spec v (DISK s) O)|done| |].
  - intros [data|items] d' Hr E I'.
    + assert (Hf : a_find (view v (disk (DISK s))) (root_cluster v) path = inr (AFile data)).
      { destruct (trim_matches x2f path); [done|].
        by destruct (a_find _ _ _) as [|[]]; simplify_eq. }
      unfold a_find in Hf. destruct (a_resolve _ _ _) as [|[c name]] eqn:Er; [done|].
      destruct (view v (disk (DISK s)) c (short_name_83 name)) as [n|] eqn:Ev; [|done]. injection Hf as ->.
      destruct (has_flag flags O_TRUNC).
      * apply Hcreate; [done..|]. rewrite E. intros c' name' Hr'. rewrite Er in Hr'. injection Hr' as <- <-.
        split; [by eapply Hn|]. intros id. by rewrite Ev.
      * apply wp_ret, HQ; [|by apply Hd]. apply view_length in Ev. apply slot_ok_file; [|done].
        unfold U32 in *. destruct (has_flag flags O_APPEND); lia.
    + destruct (negb _); [by apply wp_fail, HX, Hd|]. apply wp_ret, HQ; [|by apply Hd]. by split_and!.
  - intros e d' He E I'. destruct e; try (by apply wp_fail, HX, Hd).
    destruct (has_flag flags O_CREAT); [|by apply wp_fail, HX, Hd]. apply Hcreate; [done..|]. rewrite E.
    intros c name Hr. split; [by eapply Hn|]. intros id Hv. destruct He as [He|[[? ?] _]]; [|done].
    destruct (trim_matches x2f path); [done|]. unfold a_find in He. rewrite Hr, Hv in He. done.
Qed.

Lemma sys_open_ok s ptr flags :
  inv [] s -> ready s -> 0 <= ptr -> (forall path, arg_path s ptr path -> nameable v (disk (DISK s)) path) ->
  wp (sys_open ptr flags) (fun _ s' => ok s s') no_err' s.
Proof.
  intros I R Hp Hn. unfold sys_open. apply wp_or_errno, wp_bind. eapply wp_path_arg; [done..| |by intros].
  intros path s1 (I1 & R1 & K1) Hd Ha _. eapply wp_open_file; [done..| | |].
  - rewrite Hd. by apply Hn.
  - intros f s2 Hf (I2 & R2 & K2). eapply (wp_install_fd v []); [|done|cbn; lia|done| |].
    + eapply inv_held_perm; [done|]. intros r. by rewrite cnt_cons, one_no_ref.
    + intros p l' i s3 _ Hp3 _ K3. eapply ok_at_proc; [done|congruence].
    + intros p s3 Hp3 K3. eapply ok_at_proc; [done|congruence].
  - intros e s2 O2. by eapply ok_from.
Qed.

(** The backing of a descriptor of the current process. *)
Definition fd_at s (fd : Z) : option Fd :=
  get_fd (fds (default ProcState_default (PROCESSES s !! current_key s))) fd.

(** A dirty file can be written back. *)
Definition flushable s (o : option Fd) : Prop :=
  match o with
  | Some (FdFile f) => f_dirty f = true -> writable v (disk (DISK s)) (f_name f)
  | _ => True
  end.

Lemma dirty_short f : file_ok f -> f_dirty f = true -> Z.of_nat (length (f_data f)) < U32.
Proof. intros (_ & H1 & H2 & H3) Hd. apply H1. destruct (f_is_dir f); [|done]. rewrite H3 in H2 by done. by apply H2. Qed.

Lemma sys_close_ok s fd :
  inv [] s -> ready s -> flushable s (fd_at s fd) -> wp (sys_close fd) (fun _ s' => ok s s') no_err' s.
Proof.
  intros I R Hfl. unfold sys_close. apply wp_bind. eapply wp_current_fds_first; [done..|].
  intros p s1 Hp1 K1 D1 Ep _ _. unfold fd_at in Hfl. rewrite <- Ep in Hfl.
  destruct (get_fd (fds p) fd) as [e|] eqn:Ee; [|apply wp_ret; by eapply ok_at_proc].
  pose proof (get_fd_ok _ _ _ _ _ _ Hp1 Ee) as [Hs _]. pose proof (at_proc_ok _ _ _ _ Hp1) as [P1 P2 P3 P4].
  apply get_fd_Some in Ee as [_ He]. destruct (set_fd_ok _ fd _ None He P2) as (L1 & L2 & L3); [done|].
  apply wp_bind. eapply (wp_put_current_fds v [] [Some e]); [done|by rewrite L1|done| |].
  { intros r. rewrite L3, cnt_cons, one_None. cbn. lia. }
  intros s2 Hp2 K2 D2 _. assert (Hdrop : wp (drop_fd e ;;! pret 0) (fun _ s' => ok s s') no_err' s2).
  { apply wp_bind. eapply wp_drop_fd; [apply Hp2|apply Hp2|cbn; lia|]. intros s3 I3 S3. apply wp_ret.
    eapply ok_after; [done|congruence|done|done]. }
  destruct e as [| | |f| | |]; try exact Hdrop.
  assert (I2 : inv [] s2).
  { eapply inv_held_perm; [apply Hp2|]. intros r. by rewrite cnt_cons, one_no_ref. }
  destruct (f_writable f && f_dirty f) eqn:Ef.
  2: { apply wp_ret. eapply ok_after; [done|congruence|done|done]. }
  zbool. apply wp_bind. eapply wp_disk_write; [done| |by apply dirty_short|].
  - rewrite D2, D1. by apply Hfl.
  - intros r d' I3 _.
    assert (ok s (set_disk d' s2)).
    { eapply ok_after; [done|congruence|done|done]. }
    destruct r; by apply wp_ret.
Qed.

Lemma grow_table_ok l i :
  Forall slot_ok l ->
  length (grow_table l i) = Nat.max (length l) (S i) /\ Forall slot_ok (grow_table l i) /\
  (forall r, cnt r (grow_table l i) = cnt r l) /\ exists o, grow_table l i !! i = Some o /\ mjoin (l !! i) = o.
Proof.
  intros Hs. unfold grow_table. split_and!.
  - rewrite length_app, length_replicate. lia.
  - apply Forall_app. split; [done|]. apply Forall_replicate. done.
  - intros r. rewrite cnt_app, cnt_replicate_None. lia.
  - destruct (decide (i < length l)%nat) as [Hi|].
    + destruct (lookup_lt_is_Some_2 l i Hi) as [o Ho]. exists o. rewrite lookup_app_l, Ho by done. done.
    + exists None. rewrite lookup_app_r by lia. rewrite (lookup_ge_None_2 l) by lia.
      split; [|done]. apply lookup_replicate. split; [done|lia].
Qed.

Lemma sys_dup2_ok s old new :
  inv [] s -> ready s -> 0 <= new -> wp (sys_dup2 old new) (fun _ s' => ok s s') no_err' s.
Proof.
  intros I R Hn. unfold sys_dup2. destruct (_ <=? new) eqn:Hm; [apply wp_ret; by split_and!|]. zbool.
  apply wp_bind. eapply wp_current_fds_first; [done..|]. intros p s1 Hp1 K1 _ _ _ _.
  destruct (get_fd (fds p) old) as [e|] eqn:Ee; [|apply wp_ret; by eapply ok_at_proc].
  destruct (old =? new); [apply wp_ret; by eapply ok_at_proc|].
  pose proof (get_fd_ok _ _ _ _ _ _ Hp1 Ee) as [Hs Hc]. pose proof (at_proc_ok _ _ _ _ Hp1) as [P1 P2 P3 P4].
  apply wp_bind. eapply wp_clone_fd; [apply Hp1|apply Hp1|cbn; lia| |].
  { intros r Hr. specialize (Hc r Hr). unfold total. cbn. lia. }
  intros s2 I2 S2. assert (Hp2 : at_proc [Some e] p s2) by (by eapply at_proc_same).
  destruct (grow_table_ok (fds p) (Z.to_nat new) P2) as (G1 & G2 & G3 & o & G4 & _).
  destruct (set_fd_ok _ new _ (Some e) G4 G2 Hs) as (L1 & L2 & L3).
  apply wp_bind. eapply (wp_put_current_fds v [Some e] [o]); [done| |done| |].
  { rewrite L1, G1. unfold MAX_FDS in *. lia. }
  { intros r. rewrite L3, G3, !cnt_cons. cbn. lia. }
  intros s3 Hp3 K3 _ _. rewrite G4. change (mjoin (Some o)) with o.
  apply wp_bind. destruct o as [e'|]; cbn [drop_slot].
  - eapply wp_drop_fd; [apply Hp3|apply Hp3|cbn; lia|]. intros s4 I4 S4. apply wp_ret.
    eapply ok_after; [done| |done|done]. rewrite K3, (proj2 S2). done.
  - apply wp_ret, wp_ret. eapply (ok_after [None]); [done| |by apply inv_held_None, Hp3|done].
    rewrite K3, (proj2 S2). done.
Qed.

Lemma free_from_spec l n i :
  (i <= free_from l n i <= i + n)%nat /\
  ((free_from l n i < i + n)%nat -> mjoin (l !! free_from l n i) = None).
Proof.
  revert i. induction n as [|n IH]; intros i; cbn [free_from]; [lia|].
  destruct (mjoin (l !! i)) eqn:E; [|split; [lia|done]].
  destruct (IH (S i)) as [H1 H2]. split; [lia|]. intros. apply H2. lia.
Qed.

Lemma fcntl_dupfd_ok s fd arg :
  inv [] s -> ready s -> 0 <= arg -> wp (fcntl_dupfd fd arg) (fun _ s' => ok s s') no_err' s.
Proof.
  intros I R Hn. unfold fcntl_dupfd. destruct (_ <=? arg) eqn:Hm; [apply wp_ret; by split_and!|]. zbool.
  apply wp_bind. eapply wp_current_fds_first; [done..|]. intros p s1 Hp1 K1 _ _ _ _.
  destruct (get_fd (fds p) fd) as [e|] eqn:Ee; [|apply wp_ret; by eapply ok_at_proc].
  pose proof (get_fd_ok _ _ _ _ _ _ Hp1 Ee) as [Hs Hc]. pose proof (at_proc_ok _ _ _ _ Hp1) as [P1 P2 P3 P4].
  apply wp_bind. eapply wp_clone_fd; [apply Hp1|apply Hp1|cbn; lia| |].
  { intros r Hr. specialize (Hc r Hr). unfold total. cbn. lia. }
  intros s2 I2 S2. assert (Hp2 : at_proc [Some e] p s2) by (by eapply at_proc_same).
  assert (K2 : current_key s2 = current_key s) by (rewrite (proj2 S2); done).
  set (idx := free_from _ _ _). destruct (free_from_spec (fds p) (MAX_FDS - Z.to_nat arg) (Z.to_nat arg)) as [F1 F2].
  fold idx in F1, F2. destruct (MAX_FDS <=? idx)%nat eqn:Hi; zbool.
  - apply wp_bind. eapply wp_drop_fd; [apply Hp2|apply Hp2|cbn; lia|]. intros s3 I3 S3. apply wp_ret.
    by eapply ok_after.
  - destruct (grow_table_ok (fds p) idx P2) as (G1 & G2 & G3 & o & G4 & G5).
    rewrite F2 in G5 by lia. subst o.
    apply wp_bind. eapply (wp_put_current_fds v [Some e] []); [done| | | |].
    + rewrite length_insert, G1. lia.
    + by apply Forall_insert.
    + intros r. rewrite (cnt_insert r _ _ None), G3, one_None, cnt_cons by done. cbn. lia.
    + intros s3 Hp3 K3 _ _. apply wp_ret. eapply ok_at_proc; [done|congruence].
Qed.

Lemma sys_fcntl_ok s fd cmd arg :
  inv [] s -> ready s -> 0 <= arg -> wp (sys_fcntl fd cmd arg) (fun _ s' => ok s s') no_err' s.
Proof.
  intros I R Hn. unfold sys_fcntl. destruct (cmd =? F_DUPFD); [by apply fcntl_dupfd_ok|].
  assert (Hq : forall f, wp (let! l := current_fds in pret (f l)) (fun (_ : Z) s' => ok s s') no_err' s).
  { intros f. apply wp_bind. eapply wp_current_fds_first; [done..|]. intros. apply wp_ret. by eapply ok_at_proc. }
  destruct (_ || _ || _); [apply Hq|]. destruct (cmd =? F_GETFL); [apply Hq|]. apply wp_ret. by split_and!.
Qed.

Lemma sys_lseek_ok s fd off whence :
  inv [] s -> ready s -> wp (sys_lseek fd off whence) (fun _ s' => ok s s') no_err' s.
Proof.
  intros I R. unfold sys_lseek. apply wp_bind. eapply wp_current_fds_first; [done..|]. intros p s1 Hp1 K1 _ _ _ _.
  destruct (get_fd (fds p) fd) as [e|] eqn:Ee; [|apply wp_ret; by eapply ok_at_proc].
  pose proof (get_fd_ok _ _ _ _ _ _ Hp1 Ee) as [Hs _]. pose proof (at_proc_ok _ _ _ _ Hp1) as [P1 P2 P3 P4].
  destruct e as [| | |f| | |]; try (apply wp_ret; by eapply ok_at_proc).
  destruct (seek_base f whence) as [base|]; [|apply wp_ret; by eapply ok_at_proc].
  destruct (i64_checked (base + off)) as [pos|] eqn:Ep; [|apply wp_ret; by eapply ok_at_proc].
  destruct (0 <=? pos) eqn:H0; [|apply wp_ret; by eapply ok_at_proc].
  unfold i64_checked in Ep. destruct (_ && _) eqn:Er in Ep; [|done]. injection Ep as <-. zbool.
  apply get_fd_Some in Ee as [_ He].
  destruct (set_fd_ok _ fd _ (Some (FdFile (set_f_offset (base + off) f))) He P2) as (L1 & L2 & L3).
  { destruct Hs as (_ & ?). split; [cbn; lia|done]. }
  apply wp_bind. eapply (wp_put_current_fds v [] []); [done|by rewrite L1|done| |].
  { intros r. rewrite L3, !one_no_ref by done. lia. }
  intros s2 Hp2 K2 _ _. apply wp_ret. eapply ok_at_proc; [done|congruence].
Qed.

Lemma next_cell_fresh {A} (m : gmap nat A) : m !! next_cell m = None.
Proof.
  unfold next_cell. destruct (m !! _) as [a|] eqn:E; [|done]. exfalso.
  apply elem_of_map_to_list in E. apply (list_elem_of_fmap_2 fst) in E. cbn in E.
  apply max_list_elem_of_le in E. lia.
Qed.

Lemma wp_new_pipe s (Q : nat -> Sys D N F -> Prop) X :
  inv [] s ->
  (forall p s', inv [Some (FdPipeRead p); Some (FdPipeWrite p)] s' -> same_procs s s' -> Q p s') ->
  wp new_pipe Q X s.
Proof.
  intros I HQ. unfold new_pipe. apply wp_bind, wp_get, wp_bind, wp_modify, wp_ret, HQ; [|done].
  pose proof (next_cell_fresh (PIPES s)) as Hn. apply (inv_put_pipe v []); [done|]. cbn [strong]. rewrite Hn. cbn [from_option readers writers].
  intros r. rewrite !cnt_cons. erewrite !one_ref by done. repeat case_decide; lia.
Qed.

(** Both ends are installed, or none. *)
Lemma wp_pipe_fds s p (Q : Z * Z -> Sys D N F -> Prop) X :
  inv [Some (FdPipeRead p); Some (FdPipeWrite p)] s -> ready s ->
  (forall r w s', ok s s' -> 0 <= r -> 0 <= w -> Q (r, w) s') ->
  (forall s', ok s s' -> Q (- EMFILE, - EMFILE) s') ->
  wp (pipe_fds p) Q X s.
Proof.
  intros I R HQ1 HQ2. unfold pipe_fds. apply wp_bind. eapply wp_current_fds_first; [done..|].
  intros q s1 Hp1 K1 _ _ _ _. pose proof (at_proc_ok _ _ _ _ Hp1) as [P1 P2 P3 P4].
  apply wp_bind. eapply (wp_alloc_fd v [Some (FdPipeWrite p)]); [done|cbn; lia|done|done|done| |].
  - intros l1 i Ha1 L1 L2 L3. rewrite (proj2 (Z.ltb_ge (Z.of_nat i) 0)) by lia. apply wp_bind.
    eapply (wp_alloc_fd v [Some (FdPipeRead p)] q s1 l1); [|cbn; lia|done|done|done| |].
    + eapply at_proc_same; [exact Hp1|done|]. eapply inv_held_perm; [apply Hp1|]. intros r. rewrite !cnt_cons. cbn. lia.
    + intros l2 j _ M1 M2 M3. rewrite (proj2 (Z.ltb_ge (Z.of_nat j) 0)) by lia.
      apply wp_bind. eapply (wp_put_current_fds v _ []); [exact Hp1|done|done| |].
      * intros r. rewrite M3, L3, !cnt_cons. cbn. lia.
      * intros s2 Hp2 K2 _ _. apply wp_ret, HQ1; [eapply ok_at_proc; [done|congruence]|lia..].
    + intros s2 Hp2 K2. cbn [Z.ltb]. change (- EMFILE <? 0) with true. cbn iota.
      destruct Ha1 as (Ha & _ & _ & Hoth & Hnone).
      destruct (set_fd_ok l1 (Z.of_nat i) (Some (FdPipeRead p)) None) as (N1 & N2 & N3); [by rewrite Nat2Z.id|done|done|].
      apply wp_bind. eapply (wp_put_current_fds v _ [Some (FdPipeRead p)]); [exact Hp2|by rewrite N1|done| |].
      * intros r. rewrite N3, L3, one_None. cbn. lia.
      * intros s3 Hp3 K3 _ _. apply wp_bind. eapply wp_drop_fd; [apply Hp3|apply Hp3|cbn; lia|].
        intros s4 I4 S4. apply wp_ret, HQ2. eapply ok_after; [done|congruence|done|done].
  - intros s2 Hp2 K2. change (- EMFILE <? 0) with true. cbn iota. apply wp_bind.
    eapply wp_drop_fd; [apply Hp2|apply Hp2|cbn; lia|].
    intros s3 I3 S3. apply wp_ret, HQ2. eapply ok_after; [done|congruence|done|done].
Qed.

Lemma sys_pipe_ok s ptr : inv [] s -> ready s -> 0 <= ptr -> wp (sys_pipe ptr) (fun _ s' => ok s s') no_err' s.
Proof.
  intros I R Hp. unfold sys_pipe. apply wp_bind. eapply wp_new_pipe; [done|]. intros p s1 I1 S1.
  apply wp_bind. eapply wp_pipe_fds; [done|by eapply ready_same| |].
  - intros r w s2 O2 Hr Hw. rewrite !(proj2 (Z.ltb_ge _ 0)) by done. destruct O2 as (I2 & R2 & K2).
    assert (Hk : current_key s2 = current_key s) by (rewrite K2; apply S1).
    apply wp_or_errno. eapply wp_copy_out; [done..| |]; intros; try apply wp_ret;
      (eapply ok_from; [by apply ok_same|done]).
  - intros s2 O2. change (- EMFILE <? 0) with true. apply wp_ret. eapply ok_from; [done|apply S1].
Qed.

(** ** Paths *)

Lemma sys_getcwd_ok s buf size :
  inv [] s -> ready s -> 0 <= buf -> wp (sys_getcwd buf size) (fun _ s' => ok s s') no_err' s.
Proof.
  intros I R Hb. unfold sys_getcwd. apply wp_bind. eapply wp_current_proc_first; [done..|].
  intros p s1 Hp1 K1 _ _ _ _. destruct (size <? _); [apply wp_ret; by eapply ok_at_proc|].
  apply wp_or_errno. eapply wp_copy_out; [apply Hp1|done| |]; intros; try apply wp_ret; by eapply ok_after.
Qed.

Lemma sys_chdir_ok s ptr : inv [] s -> ready s -> 0 <= ptr -> wp (sys_chdir ptr) (fun _ s' => ok s s') no_err' s.
Proof.
  intros I R Hp. unfold sys_chdir. apply wp_or_errno. eapply wp_path_arg; [done..| |by intros].
  intros path s1 (I1 & R1 & K1) Hd _ Hn. destruct (inv_disk _ _ _ I1) as [O Hok].
  apply wp_bind. eapply wp_disk_ro; [by apply (vfs_lookup_spec v (DISK s1) O)|done| |].
  - intros [data|items] d' _ _ I2; [apply wp_ret; eapply ok_from; [by apply ok_same|done]|].
    apply wp_bind. eapply wp_current_proc_first; [done|by eapply ready_same|].
    intros p s3 Hp3 K3 _ _ _ _. pose proof (at_proc_ok _ _ _ _ Hp3) as [P1 P2 P3 P4].
    apply wp_bind. eapply (wp_put_current_proc v [] []); [done|by split|done|].
    intros s4 Hp4 K4 _ _. apply wp_ret. eapply ok_at_proc; [done|]. rewrite K4, K3. done.
  - intros e d' _ _ I2. destruct e; apply wp_ret; (eapply ok_from; [by apply ok_same|done]).
Qed.

Lemma sys_mkdir_ok s ptr :
  inv [] s -> ready s -> 0 <= ptr -> (forall path, arg_path s ptr path -> nameable v (disk (DISK s)) path) ->
  wp (sys_mkdir ptr) (fun _ s' => ok s s') no_err' s.
Proof.
  intros I R Hp Hn. unfold sys_mkdir, fs_call. apply wp_or_errno. eapply wp_path_arg; [done..| |by intros].
  intros path s1 (I1 & R1 & K1) Hd Ha _. apply wp_bind. eapply wp_disk_mkdir; [done|rewrite Hd; by apply Hn|].
  intros [] d' I2; apply wp_ret; (eapply ok_from; [by apply ok_same|done]).
Qed.

Lemma sys_unlink_ok s ptr : inv [] s -> ready s -> 0 <= ptr -> wp (sys_unlink ptr) (fun _ s' => ok s s') no_err' s.
Proof.
  intros I R Hp. unfold sys_unlink, fs_call. apply wp_or_errno. eapply wp_path_arg; [done..| |by intros].
  intros path s1 (I1 & R1 & K1) Hd Ha _. apply wp_bind. eapply wp_disk_unlink; [done|].
  intros [] d' I2; apply wp_ret; (eapply ok_from; [by apply ok_same|done]).
Qed.

Lemma sys_rmdir_ok s ptr : inv [] s -> ready s -> 0 <= ptr -> wp (sys_rmdir ptr) (fun _ s' => ok s s') no_err' s.
Proof.
  intros I R Hp. unfold sys_rmdir, fs_call. apply wp_or_errno. eapply wp_path_arg; [done..| |by intros].
  intros path s1 (I1 & R1 & K1) Hd Ha _. apply wp_bind. eapply wp_disk_rmdir; [done|].
  intros [] d' I2; apply wp_ret; (eapply ok_from; [by apply ok_same|done]).
Qed.

Lemma sys_stat_ok s ptr buf :
  inv [] s -> ready s -> 0 <= ptr -> 0 <= buf -> wp (sys_stat ptr buf) (fun _ s' => ok s s') no_err' s.
Proof.
  intros I R Hp Hb. unfold sys_stat, fs_call. apply wp_or_errno. eapply wp_path_arg; [done..| |by intros].
  intros path s1 (I1 & R1 & K1) Hd Ha _. destruct (inv_disk _ _ _ I1) as [O Hok].
  destruct (vfs_stat_spec v (DISK s1) O path Hok) as [res Hres].
  apply wp_bind. eapply wp_disk_ro; [done|done| |].
  - intros meta d' _ _ I2. apply wp_or_errno. eapply wp_copy_out; [done..| |]; intros s2 **; try apply wp_ret;
      (eapply (ok_from _ s1); [|done]); (eapply ok_same; [done..|]); by eapply same_procs_trans.
  - intros e d' _ _ I2. apply wp_ret. eapply ok_from; [by apply ok_same|done].
Qed.

Lemma sys_fstat_ok s fd buf :
  inv [] s -> ready s -> 0 <= buf -> wp (sys_fstat fd buf) (fun _ s' => ok s s') no_err' s.
Proof.
  intros I R Hb. unfold sys_fstat. apply wp_bind. eapply wp_current_fds_first; [done..|].
  intros p s1 Hp1 K1 _ _ _ _. destruct (get_fd _ _); [|apply wp_ret; by eapply ok_at_proc].
  apply wp_or_errno. eapply wp_copy_out; [apply Hp1|done| |]; intros; try apply wp_ret; by eapply ok_after.
Qed.

(** ** write *)

Lemma inv_set_screen held c s : inv held s -> screen_ok c -> inv held (set_tty (set_screen c (tty s)) s).
Proof. intros [H1 H2 H3 H4 H5] Hc. split; [by eapply refs_ok_ext|done..]. Qed.

Lemma wp_write_filtered_ok c bytes :
  screen_ok c -> wp (vga_write_bytes bytes) (fun _ c' => screen_ok c') (fun _ _ => False) c.
Proof.
  unfold vga_write_bytes, write_filtered. revert c. induction bytes as [|b bytes IH]; intros c Hc; cbn [pfold].
  - by apply wp_ret.
  - apply wp_bind. eapply wp_mono; [by apply wp_write_byte_ok| |done]. intros [] c' ?. by apply IH.
Qed.

(** A store to user memory that keeps the rest of the state. *)
Lemma wp_store_user s buf data (Q : unit -> Sys D N F -> Prop) (X : Z -> Sys D N F -> Prop) :
  0 <= buf ->
  (range_ok (user_space s) true buf (Z.of_nat (length data)) -> Q tt (upd_user (write_bytes buf data (user_space s)) s)) ->
  (~ range_ok (user_space s) true buf (Z.of_nat (length data)) -> X EFAULT (upd_user (user_space s) s)) ->
  wp (in_user (copy_to_user buf data)) Q X s.
Proof.
  intros Hb HQ HX. apply wp_in_user. eapply wp_mono; [by apply wp_copy_to_user| |].
  - intros [] us [Hr ->]. by apply HQ.
  - intros e us (-> & -> & Hr). by apply HX.
Qed.

Lemma wp_load_user s buf count (Q : list byte -> Sys D N F -> Prop) (X : Z -> Sys D N F -> Prop) :
  0 <= buf -> 0 <= count ->
  (range_ok (user_space s) false buf count ->
   Q (read_bytes (user_space s) buf (Z.to_nat count)) (upd_user (user_space s) s)) ->
  (~ range_ok (user_space s) false buf count -> X EFAULT (upd_user (user_space s) s)) ->
  wp (in_user (with_user_bytes buf count)) Q X s.
Proof.
  intros Hb Hc HQ HX. apply wp_in_user. eapply wp_mono; [by apply wp_with_user_bytes| |].
  - intros bytes us (-> & Hr & ->). by apply HQ.
  - intros e us (-> & -> & Hr). by apply HX.
Qed.

Lemma user_space_upd us s : user_space (upd_user us s) = us.
Proof. unfold user_space, upd_user. cbn [SPACES set_mm]. change (current_key (set_mm _ _ s)) with (current_key s). by rewrite lookup_insert_eq. Qed.

Lemma at_proc_upd_user held p us s : at_proc held p s -> at_proc held p (upd_user us s).
Proof. intros (I & Hf & Hp). split_and!; [by apply inv_upd_user|done|done]. Qed.

Lemma fd_at_proc held p s fd : at_proc held p s -> fd_at s fd = get_fd (fds p) fd.
Proof. intros (_ & _ & Hp). unfold fd_at. by rewrite Hp. Qed.

(** The table of the current process is still [p]. *)
Definition kept p s s' : Prop := at_proc [] p s' /\ current_key s' = current_key s.

Lemma kept_same p s s' : at_proc [] p s -> inv [] s' -> same_procs s s' -> kept p s s'.
Proof. intros Hp I S. split; [by eapply at_proc_same|apply S]. Qed.

Lemma kept_ok p s s1 s' : current_key s1 = current_key s -> kept p s1 s' -> ok s s'.
Proof. intros K [Hp K']. eapply ok_at_proc; [done|congruence]. Qed.

Lemma kept_trans p s1 s2 s3 : kept p s1 s2 -> kept p s2 s3 -> kept p s1 s3.
Proof. intros [_ K1] [Hp K2]. split; [done|congruence]. Qed.

Lemma write_device_ok p s fd buf count rsp sink :
  at_proc [] p s -> 0 <= buf -> 0 <= count ->
  (forall bytes s2 (Q : unit -> Sys D N F -> Prop), inv [] s2 -> same_procs s s2 ->
     (forall s3, inv [] s3 -> same_procs s s3 -> Q tt s3) -> wp (sink bytes) Q no_err' s2) ->
  wp (write_device fd buf count rsp sink) (fun _ s' => kept p s s') no_err' s.
Proof.
  intros Hp Hb Hc Hsink. unfold write_device. apply wp_or_errno.
  eapply wp_copy_in; [apply Hp|done..| |].
  - intros bytes s2 I2 S2 _ _. apply wp_bind. apply Hsink; [done..|]. intros s3 I3 S3.
    apply wp_bind, wp_modify, wp_ret. apply kept_same; [done| |done].
    destruct I3 as [H1 H2 H3 H4 H5]. split; [by eapply refs_ok_ext|done..].
  - intros e s2 I2 S2. by apply kept_same.
Qed.

Lemma inv_pipe_data held s p b data :
  inv held s -> PIPES s !! p = Some b ->
  inv held (set_pipes (<[p := mkPipeBuf data (readers b) (writers b)]> (PIPES s)) s).
Proof. intros I Hp. eapply inv_set_pipe; [done..|]. intros r. cbn. repeat case_decide; lia. Qed.

(** No thread waits for [r]. *)
Definition no_waiter (r : BlockReason) (k : Kernel) : Prop :=
  forall sc, SCHEDULER k = Some sc -> Forall (fun t => blocked_for r t = false) (threads sc).

Lemma wp_wake_pipe_all held s (Q : unit -> Sys D N F -> Prop) X :
  inv held s ->
  (forall s', inv held s' -> same_procs s s' -> PIPES s' = PIPES s -> user_space s' = user_space s ->
     no_waiter Pipe (kern (tty s')) -> Q tt s') ->
  wp (in_kernel wake_pipe_waiters) Q X s.
Proof.
  intros [H1 H2 H3 H4 H5] HQ. unfold in_kernel. apply wp_zoom.
  assert (Hw : wp (wake_all Pipe) (fun _ => kernel_ok) no_err (kern (tty s))) by (by apply wake_ok).
  assert (Hc : wp (wake_all Pipe) (fun _ k => cpu k = cpu (kern (tty s)) /\ no_waiter Pipe k) no_err (kern (tty s))).
  { apply wp_wake_all; intros; (split; [done|]).
    - intros sc [= <-]. cbn. apply Forall_map, Forall_forall. intros t _. apply blocked_for_wake.
    - intros sc E. congruence. }
  eapply wp_mono; [exact (wp_conj _ _ _ _ _ _ Hw Hc)| |intros e k [[] _]].
  intros [] k (Hk & Hk' & Hn). assert (Kk : current_key (set_tty (set_kern k (tty s)) s) = current_key s)
    by (unfold current_key; cbn; by rewrite Hk').
  apply HQ; [split; [by eapply refs_ok_ext|done..]|by split|done| |done]. unfold user_space. by rewrite Kk.
Qed.

(** The outcomes of a write to a pipe. *)
Definition pipe_written s s' (q : nat) (b : PipeBuf) (buf count r : Z) : Prop :=
  count = 0 /\ r = 0 /\ PIPES s' = PIPES s \/
  0 < count /\ ~ range_ok (user_space s) false buf count /\ r = - EFAULT /\ PIPES s' = PIPES s \/
  0 < count /\ range_ok (user_space s) false buf count /\ readers b = 0 /\ r = - EPIPE /\ PIPES s' = PIPES s \/
  0 < count /\ range_ok (user_space s) false buf count /\ readers b <> 0 /\ r = count /\
    PIPES s' = <[q := mkPipeBuf (p_data b ++ read_bytes (user_space s) buf (Z.to_nat count)) (readers b) (writers b)]> (PIPES s) /\
    no_waiter Pipe (kern (tty s')).

Lemma write_pipe_spec p s fd buf count q b :
  at_proc [] p s -> get_fd (fds p) fd = Some (FdPipeWrite q) -> PIPES s !! q = Some b -> 0 <= buf -> 0 <= count ->
  wp (write_pipe fd buf count)
    (fun r s' => kept p s s' /\ user_space s' = user_space s /\ pipe_written s s' q b buf count r) no_err' s.
Proof.
  intros Hp Ee Hq Hb Hc. unfold write_pipe. apply wp_bind. eapply wp_current_fds; [done|]. rewrite Ee.
  pose proof (at_proc_upd_user _ _ (user_space s) _ Hp) as Hp1.
  destruct (count =? 0) eqn:E0; zbool; [apply wp_ret; split_and!; [by split|done|by left]|].
  apply wp_or_errno, wp_load_user; [done..| |]; intros Hr.
  - apply wp_bind. eapply wp_pipe_cell; [done|]. destruct (readers b =? 0) eqn:E1; zbool.
    + apply wp_ret. split_and!; [by split|apply user_space_upd|]. right. right. left. split_and!; (done || lia).
    + apply wp_bind, wp_modify. set (bytes := read_bytes _ _ _). set (s3 := set_pipes _ _).
      assert (Hlen : Z.of_nat (length bytes) = count) by (unfold bytes; rewrite length_read_bytes; lia).
      assert (I3 : inv [] s3) by (by apply inv_pipe_data; [apply Hp1|]).
      cbv zeta. rewrite Hlen. apply wp_bind. destruct (0 <? count) eqn:E2; zbool; [|lia].
      eapply wp_wake_pipe_all; [done|]. intros s4 I4 S4 P4 U4 W4. apply wp_ret.
      split_and!; [apply kept_same; [exact Hp|done|exact S4]|rewrite U4; apply (user_space_upd (user_space s) s)|].
      right. right. right. split_and!; try done; lia.
  - split_and!; [by split|apply user_space_upd|]. right. left. split_and!; (done || lia).
Qed.

Lemma write_pipe_ok p s fd buf count q :
  at_proc [] p s -> get_fd (fds p) fd = Some (FdPipeWrite q) -> 0 <= buf -> 0 <= count ->
  wp (write_pipe fd buf count) (fun _ s' => kept p s s') no_err' s.
Proof.
  intros Hp Ee Hb Hc. destruct (get_fd_ok _ _ _ _ _ _ Hp Ee) as [_ Hlive]. specialize (Hlive _ eq_refl).
  destruct (cell_exists v [] s (RWrite q) (proj1 Hp)) as [b Hq]; [unfold total; rewrite cnt_nil; lia|].
  eapply wp_mono; [by eapply write_pipe_spec| |done]. by intros r s' [? _].
Qed.

(** The buffer of a file that a write must grow fits the kernel heap. *)
Definition write_fits (f : OpenFile) (count : Z) : Prop :=
  f_offset f + count <= Z.of_nat (length (f_data f)) \/ f_offset f + count <= HEAP_SIZE.

(** The file after the bytes were stored at its position. *)
Definition stored (f : OpenFile) (bytes : list byte) : OpenFile :=
  let off := Z.to_nat (f_offset f) in
  let padded := f_data f ++ zeros (off + length bytes - length (f_data f)) in
  mkOpenFile (f_name f) (splice padded off bytes) (f_offset f + Z.of_nat (length bytes)) (f_writable f) true (f_is_dir f).

Lemma wp_store_bytes f bytes s (Q : OpenFile -> Sys D N F -> Prop) X :
  0 <= f_offset f < 2 ^ 63 -> Z.of_nat (length bytes) < 2 ^ 63 -> write_fits f (Z.of_nat (length bytes)) ->
  Q (stored f bytes) s -> wp (store_bytes f bytes) Q X s.
Proof.
  intros Ho Hl Hfit HQ. unfold store_bytes. apply wp_bind.
  eapply wp_unwrap; [apply checked_spec; unfold in_width, U64; lia|]. apply wp_bind.
  unfold stored in HQ. set (n := (Z.to_nat (f_offset f) + length bytes - length (f_data f))%nat) in *.
  destruct (_ <? _) eqn:Hlt; zbool.
  - unfold vec_resize. apply wp_bind, wp_assert.
    { apply Z.leb_le. destruct Hfit; lia. }
    apply wp_ret, wp_ret. replace (Z.to_nat (_ - _)) with n by lia. exact HQ.
  - apply wp_ret, wp_ret. replace n with 0%nat in HQ by lia. cbn [zeros replicate] in HQ. by rewrite app_nil_r in HQ.
Qed.

Lemma stored_length f bytes :
  length (f_data (stored f bytes)) = Nat.max (length (f_data f)) (Z.to_nat (f_offset f) + length bytes).
Proof.
  unfold stored. cbn [f_data]. rewrite length_splice; rewrite length_app, length_zeros; lia.
Qed.

Lemma stored_ok f bytes :
  file_ok f -> f_writable f = true -> write_fits f (Z.of_nat (length bytes)) -> file_ok (stored f bytes).
Proof.
  intros (Ho & Hd & Hw & _) Hwr Hfit. assert (Hdir : f_is_dir f = false).
  { destruct (f_is_dir f); [|done]. by rewrite Hw in Hwr. }
  specialize (Hd Hdir). pose proof (stored_length f bytes) as Hlen. unfold write_fits, HEAP_SIZE, U32 in *.
  assert (Z.of_nat (length (f_data (stored f bytes))) < 2 ^ 32) by lia.
  split_and!; cbn [f_offset f_is_dir f_writable f_dirty stored]; try lia; intros; try done; try congruence.
Qed.

Lemma get_fd_set l fd e o : get_fd l fd = Some e -> get_fd (set_slot l fd o) fd = o.
Proof.
  intros [Hr He]%get_fd_Some. unfold get_fd, set_slot. rewrite length_insert.
  replace ((0 <=? fd) && (fd <? Z.of_nat (length l))) with true
    by (symmetry; apply andb_true_intro; split; [apply Z.leb_le|apply Z.ltb_lt]; lia).
  rewrite list_lookup_insert_eq by lia. by destruct o.
Qed.

(** The file behind a descriptor is replaced. *)
Lemma wp_put_file p s fd f f' (Q : unit -> Sys D N F -> Prop) X :
  at_proc [] p s -> get_fd (fds p) fd = Some (FdFile f) -> file_ok f' ->
  (forall s', at_proc [] (set_fds (set_slot (fds p) fd (Some (FdFile f'))) p) s' -> current_key s' = current_key s ->
     tty s' = tty s -> user_space s' = user_space s -> DISK s' = DISK s -> fd_at s' fd = Some (FdFile f') -> Q tt s') ->
  wp (put_current_fds (set_slot (fds p) fd (Some (FdFile f')))) Q X s.
Proof.
  intros Hp Ee Hf HQ. pose proof (at_proc_ok _ _ _ _ Hp) as [P1 P2 P3 P4].
  pose proof (get_fd_set _ _ _ (Some (FdFile f')) Ee) as Hset. apply get_fd_Some in Ee as [_ He].
  destruct (set_fd_ok _ fd _ (Some (FdFile f')) He P2 Hf) as (L1 & L2 & L3).
  unfold put_current_fds. apply wp_bind. eapply wp_current_proc; [done|]. unfold put_current_proc. apply wp_modify.
  assert (Hp' : at_proc [] (set_fds (set_slot (fds p) fd (Some (FdFile f'))) p)
            (set_procs (<[current_key s := set_fds (set_slot (fds p) fd (Some (FdFile f'))) p]> (PROCESSES s)) s)).
  { eapply (at_proc_put v []); [done|split; cbn [fds set_fds]; [by rewrite L1|done..]|].
    intros r. cbn [fds set_fds]. rewrite L3, !one_no_ref by done. lia. }
  apply HQ; [done..|]. by rewrite (fd_at_proc _ _ _ _ Hp').
Qed.

Lemma write_to_file_spec p s fd buf count f :
  at_proc [] p s -> get_fd (fds p) fd = Some (FdFile f) -> f_writable f = true ->
  0 <= buf -> 0 <= count -> write_fits f count ->
  wp (write_to_file fd buf count)
    (fun r s' => ok s s' /\ kern (tty s') = kern (tty s) /\ user_space s' = user_space s /\ DISK s' = DISK s /\
       (range_ok (user_space s) false buf count /\ r = count /\
        fd_at s' fd = Some (FdFile (stored f (read_bytes (user_space s) buf (Z.to_nat count)))) \/
        ~ range_ok (user_space s) false buf count /\ r = - EFAULT /\ fd_at s' fd = fd_at s fd)) no_err' s.
Proof.
  intros Hp Ee Hw Hb Hc Hfit. unfold write_to_file. apply wp_bind. eapply wp_current_fds; [done|]. rewrite Ee.
  pose proof (get_fd_ok _ _ _ _ _ _ Hp Ee) as [Hs _].
  apply wp_or_errno, wp_load_user; [done..| |]; intros Hr.
  - set (bytes := read_bytes _ _ _).
    assert (Hlz : Z.of_nat (length bytes) = count) by (unfold bytes; rewrite length_read_bytes; lia).
    rewrite <- Hlz in Hfit. destruct Hr as [Hend Hr].
    apply wp_bind. eapply wp_store_bytes; [apply Hs|unfold USER_SPACE_END in *; lia|done|].
    apply wp_bind. eapply wp_put_file; [by apply at_proc_upd_user|done|by apply stored_ok|].
    intros s3 Hp3 K3 T3 U3 D3 F3. apply wp_ret. rewrite user_space_upd in U3.
    split_and!; [by eapply ok_at_proc|by rewrite T3|done..|]. by left.
  - split_and!; [by eapply ok_at_proc; [apply at_proc_upd_user|]|done|apply user_space_upd|done|]. by right.
Qed.

Definition write_ok s (fd count : Z) : Prop :=
  match fd_at s fd with Some (FdFile f) => write_fits f count | _ => True end.

(** A write leaves the descriptor what it was, the position of a file apart. *)
Definition wrote_fd s s' (fd : Z) : Prop :=
  match fd_at s fd with Some (FdFile _) => True | _ => fd_at s' fd = fd_at s fd end.

Lemma sys_write_ok s fd buf count rsp :
  inv [] s -> ready s -> 0 <= buf -> 0 <= count -> write_ok s fd count ->
  wp (sys_write fd buf count rsp) (fun _ s' => ok s s' /\ wrote_fd s s' fd) no_err' s.
Proof.
  intros I R Hb Hc Hok. unfold sys_write. apply wp_bind. eapply wp_current_fds_first; [done..|].
  intros p s1 Hp1 K1 _ Ep _ _. unfold write_ok, wrote_fd, fd_at in *. rewrite <- Ep in *.
  change (get_fd (fds (default ProcState_default (PROCESSES ?s !! current_key ?s))) fd) with (fd_at s fd).
  assert (Hkept : forall s', kept p s1 s' -> ok s s' /\ fd_at s' fd = get_fd (fds p) fd).
  { intros s' Hk. split; [by eapply kept_ok|]. by eapply fd_at_proc, Hk. }
  destruct (Hkept s1) as [Hs1 Hf1]; [by split|].
  destruct (get_fd (fds p) fd) as [e|] eqn:Ee; [|by apply wp_ret].
  destruct e as [| | |f| |q|]; try (by apply wp_ret).
  - eapply wp_mono; [eapply write_device_ok; [done..|]|by intros ? s' Hk; apply Hkept|done].
    intros bytes s2 Q I2 S2 HQ. unfold in_screen. apply wp_zoom.
    eapply wp_mono; [apply wp_write_filtered_ok, I2| |done]. intros [] c Hcs.
    apply HQ; [by apply inv_set_screen|done].
  - eapply wp_mono; [eapply write_device_ok; [done..|]|by intros ? s' Hk; apply Hkept|done].
    intros bytes s2 Q I2 S2 HQ. apply wp_modify, HQ; [|done]. destruct I2 as [H1 H2 H3 H4 H5]. split; [by eapply refs_ok_ext|done..].
  - destruct (f_writable f && negb (f_is_dir f)) eqn:Ew; [|by apply wp_ret]. zbool.
    eapply wp_mono; [by eapply write_to_file_spec| |done]. intros ? s' (O' & _). split; [by eapply ok_from|done].
  - eapply wp_mono; [by eapply write_pipe_ok|by intros ? s' Hk; apply Hkept|done].
Qed.

(** ** read *)

(** The outcome of a read: it returned, with the scheduler as it was, or its
    thread was blocked. *)
Definition read_outcome s (r : Z + Pending) s' : Prop :=
  match r with
  | inl _ => ok s s' /\ kern (tty s') = kern (tty s)
  | inr _ => inv [] s'
  end.

Lemma wp_block c (m : kprog unit) held s (Q : unit -> Sys D N F -> Prop) X :
  exec_call rsp_cell resume c = m -> allowed c (kern (tty s)) -> inv held s ->
  (forall s', inv held s' -> Q tt s') -> wp (in_kernel m) Q X s.
Proof.
  intros <- Ha [H1 H2 H3 H4 H5] HQ. unfold in_kernel. apply wp_zoom.
  eapply wp_mono; [by eapply exec_call_ok| |intros ? ? []].
  intros [] k Hk. apply HQ. split; [by eapply refs_ok_ext|done..].
Qed.

Lemma inv_set_console held c s : inv held s -> inv held (set_tty (mkTty c (screen (tty s)) (kern (tty s))) s).
Proof. intros [H1 H2 H3 H4 H5]. split; [by eapply refs_ok_ext|done..]. Qed.

Lemma wp_take_ready max c (Q : list byte -> option Console -> Prop) X :
  (forall l c', Q l c') -> wp (take_ready max) Q X c.
Proof. intros HQ. unfold take_ready. apply wp_bind, wp_get. destruct c; [apply wp_bind, wp_put|]; apply wp_ret, HQ. Qed.

Lemma wp_unread l c (Q : unit -> option Console -> Prop) X : (forall c', Q tt c') -> wp (unread l) Q X c.
Proof. intros HQ. destruct l; [apply wp_ret, HQ|apply wp_modify, HQ]. Qed.

Lemma read_stdin_turn_ok s buf count :
  inv [] s -> ready s -> user_current (kern (tty s)) -> 0 <= buf ->
  wp (read_stdin_turn rsp_cell resume buf count) (read_outcome s) no_err' s.
Proof.
  intros I R U Hb. unfold read_stdin_turn. apply wp_bind. unfold in_console. apply wp_zoom, wp_take_ready.
  intros l c. pose proof (inv_set_console [] c s I) as I1. set (s1 := set_tty _ s) in *.
  destruct l as [|x l].
  - apply wp_bind. eapply (wp_block CBlockStdin); [done|exact U|done|]. intros s2 I2. by apply wp_ret.
  - apply wp_bind, wp_try. apply wp_store_user; [done| |].
    + intros _. apply wp_ret. split; [|done]. apply ok_same; [by apply inv_upd_user|done|done].
    + intros _. apply wp_bind, wp_zoom, wp_unread. intros c'. apply wp_ret.
      pose proof (inv_set_console [] c' (upd_user (user_space s1) s1) (inv_upd_user _ _ _ _ I1)) as I2.
      split; [|done]. by apply ok_same.
Qed.

(** The outcomes of a read of a pipe. *)
Definition pipe_read s s' (q : nat) (b : PipeBuf) (buf count : Z) (r : Z + Pending) : Prop :=
  let n := Z.to_nat (Z.min count (Z.of_nat (length (p_data b)))) in
  let got := take n (p_data b) in
  p_data b = [] /\ writers b = 0 /\ r = inl 0 /\ s' = s \/
  p_data b = [] /\ writers b <> 0 /\ r = inr (WaitPipe q buf count) \/
  p_data b <> [] /\ PIPES s' = <[q := mkPipeBuf (drop n (p_data b)) (readers b) (writers b)]> (PIPES s) /\
    (range_ok (user_space s) true buf (Z.of_nat n) /\ r = inl (Z.of_nat n) /\
       user_space s' = write_bytes buf got (user_space s) \/
     ~ range_ok (user_space s) true buf (Z.of_nat n) /\ r = inl (- EFAULT) /\ user_space s' = user_space s).

Lemma read_pipe_turn_spec s pipe b buf count :
  inv [] s -> ready s -> user_current (kern (tty s)) -> 0 <= buf -> PIPES s !! pipe = Some b ->
  wp (read_pipe_turn rsp_cell resume pipe buf count)
    (fun r s' => read_outcome s r s' /\ pipe_read s s' pipe b buf count r) no_err' s.
Proof.
  intros I R U Hb Hp. unfold read_pipe_turn. apply wp_bind. eapply wp_pipe_cell; [done|]. unfold pipe_read.
  destruct (p_data b) as [|x l] eqn:Ed.
  - destruct (_ =? 0) eqn:E0; zbool.
    { apply wp_ret. split; [split; [by apply ok_same|done]|by left]. }
    apply wp_bind. eapply (wp_block CBlockPipe); [done|exact U|done|]. intros s2 I2. apply wp_ret. split; [done|].
    right. by left.
  - rewrite <- Ed. cbv zeta. set (n := Z.to_nat _). assert (Hn : length (take n (p_data b)) = n) by (rewrite length_take; lia).
    apply wp_bind, wp_modify. pose proof (inv_pipe_data [] s pipe b (drop n (p_data b)) I Hp) as I1.
    set (s1 := set_pipes _ s) in *. apply wp_bind, wp_or_errno.
    assert (Hok : forall us, ok s (upd_user us s1) /\ kern (tty (upd_user us s1)) = kern (tty s)).
    { intros us. split; [|done]. by apply ok_same; [apply inv_upd_user| |]. }
    apply wp_store_user; [done| |]; rewrite Hn; intros Hr; repeat apply wp_ret; (split; [apply Hok|]);
      right; right; (split; [by rewrite Ed|split; [done|]]); [left|right];
      (split_and!; [done..|apply user_space_upd]).
Qed.

Lemma read_pipe_turn_ok s pipe b buf count :
  inv [] s -> ready s -> user_current (kern (tty s)) -> 0 <= buf -> PIPES s !! pipe = Some b ->
  wp (read_pipe_turn rsp_cell resume pipe buf count) (read_outcome s) no_err' s.
Proof.
  intros. eapply wp_mono; [by eapply read_pipe_turn_spec| |done]. by intros r s' [? _].
Qed.

(** What a read of the file gives. *)
Definition read_slice (f : OpenFile) (count : Z) : list byte :=
  slice (f_data f) (Z.to_nat (f_offset f)) (Z.to_nat count).

Lemma read_file_fd_spec p s fd buf count f :
  at_proc [] p s -> get_fd (fds p) fd = Some (FdFile f) -> f_is_dir f = false -> 0 <= buf -> 0 <= count ->
  wp (read_file_fd fd buf count)
    (fun r s' => ok s s' /\ kern (tty s') = kern (tty s) /\ DISK s' = DISK s /\
       let data := read_slice f count in
       (range_ok (user_space s) true buf (Z.of_nat (length data)) /\
        r = Z.of_nat (length data) /\ user_space s' = write_bytes buf data (user_space s) /\
        fd_at s' fd = Some (FdFile (set_f_offset (f_offset f + Z.of_nat (length data)) f)) \/
        ~ range_ok (user_space s) true buf (Z.of_nat (length data)) /\
        r = - EFAULT /\ user_space s' = user_space s /\ fd_at s' fd = fd_at s fd)) no_err' s.
Proof.
  intros Hp Ee Edir Hb Hc. unfold read_file_fd. apply wp_bind. eapply wp_current_fds; [done|]. rewrite Ee, Edir.
  pose proof (get_fd_ok _ _ _ _ _ _ Hp Ee) as [(Ho & Hd & Hw & Hx) _]. specialize (Hd Edir). cbv zeta.
  set (len := Z.of_nat (length (f_data f))) in *. set (n := Z.min (len - _) count).
  assert (Hdata : slice (f_data f) (Z.to_nat (Z.min (f_offset f) len)) (Z.to_nat n) = read_slice f count).
  { unfold read_slice, slice, n, len. destruct (decide (f_offset f <= Z.of_nat (length (f_data f)))).
    - rewrite (Z.min_l (f_offset f)) by lia. destruct (decide (count <= Z.of_nat (length (f_data f)) - f_offset f)).
      + f_equal. lia.
      + rewrite !take_ge; [done|rewrite length_drop; lia..].
    - rewrite !drop_ge by lia. by rewrite !take_nil. }
  assert (Hn : Z.of_nat (length (read_slice f count)) = n).
  { rewrite <- Hdata. unfold slice. rewrite length_take, length_drop. lia. }
  rewrite Hdata. apply wp_or_errno, wp_store_user; [done| |]; intros Hr.
  - rewrite Hn. apply wp_bind. eapply wp_put_file; [by apply at_proc_upd_user|done| |].
    { unfold file_ok. cbn. unfold U32 in *. split_and!; try done; lia. }
    intros s3 Hp3 K3 T3 U3 D3 F3. apply wp_ret. rewrite user_space_upd in U3.
    split_and!; [by eapply ok_at_proc|by rewrite T3|done|]. left. rewrite Hn in Hr. by split_and!.
  - split_and!; [by eapply ok_at_proc; [apply at_proc_upd_user|]|done..|].
    right. split_and!; [done..|apply user_space_upd|done].
Qed.

Lemma read_file_fd_ok p s fd buf count f :
  at_proc [] p s -> get_fd (fds p) fd = Some (FdFile f) -> 0 <= buf -> 0 <= count ->
  wp (read_file_fd fd buf count) (fun _ s' => ok s s' /\ kern (tty s') = kern (tty s)) no_err' s.
Proof.
  intros Hp Ee Hb Hc. destruct (f_is_dir f) eqn:Edir.
  - unfold read_file_fd. apply wp_bind. eapply wp_current_fds; [done|]. rewrite Ee, Edir. apply wp_ret.
    split; [by eapply ok_at_proc|done].
  - eapply wp_mono; [by eapply read_file_fd_spec| |done]. intros r s' (? & ? & _). done.
Qed.

Lemma sys_read_ok s fd buf count :
  inv [] s -> ready s -> user_current (kern (tty s)) -> 0 <= buf -> 0 <= count ->
  wp (sys_read rsp_cell resume fd buf count) (read_outcome s) no_err' s.
Proof.
  intros I R U Hb Hc. unfold sys_read. apply wp_bind. eapply wp_current_fds_first; [done..|].
  intros p s1 Hp1 K1 _ _ T1 _. assert (R1 : ready s1) by (by eapply at_proc_ready).
  assert (U1 : user_current (kern (tty s1))) by (by rewrite T1). pose proof (proj1 Hp1) as I1.
  assert (Hend : ok s s1 /\ kern (tty s1) = kern (tty s)) by (split; [by eapply ok_at_proc|done]).
  assert (Hmono : forall r s', read_outcome s1 r s' -> read_outcome s r s').
  { intros [r|r] s' Ho; [|done]. destruct Ho as [Ho Ht]. split; [by eapply ok_from|congruence]. }
  destruct (get_fd (fds p) fd) as [e|] eqn:Ee; [|by apply wp_ret].
  destruct e as [| | |f|q| |]; try (by apply wp_ret).
  - unfold read_stdin. destruct (count =? 0); [by apply wp_ret|].
    eapply wp_mono; [by apply read_stdin_turn_ok| |done]. eauto.
  - apply wp_bind. eapply wp_mono; [by eapply read_file_fd_ok| |done].
    intros r s' Ho. apply wp_ret. by apply Hmono.
  - unfold read_pipe. apply wp_bind. eapply wp_current_fds; [done|]. rewrite Ee.
    destruct (count =? 0); [by apply wp_ret|]. destruct (get_fd_ok _ _ _ _ _ _ Hp1 Ee) as [_ Hlive].
    specialize (Hlive _ eq_refl). destruct (cell_exists v [] s1 (RRead q) I1) as [b Hq]; [unfold total; rewrite cnt_nil; lia|].
    eapply wp_mono; [by eapply read_pipe_turn_ok| |done]. eauto.
Qed.

(** ** readv and writev *)

(** The vector a program passes, as the kernel reads it. *)
Definition iovec us (iov i : Z) : Z * Z :=
  let b := read_bytes us (iov + i * 16) 16 in (from_le (slice b 0 8), from_le (slice b 8 8)).

Lemma iovec_range us iov i base len : iovec us iov i = (base, len) -> 0 <= base /\ 0 <= len.
Proof.
  unfold iovec. generalize (read_bytes us (iov + i * 16) 16). intros b [= <- <-]. split; apply from_le_range.
Qed.

Lemma wp_read_iovec s iov i (Q : Z * Z -> Sys D N F -> Prop) (X : Z -> Sys D N F -> Prop) :
  0 <= iov -> 0 <= i ->
  Q (iovec (user_space s) iov i) (upd_user (user_space s) s) ->
  X EFAULT s -> X EFAULT (upd_user (user_space s) s) -> wp (read_iovec iov i) Q X s.
Proof.
  intros Hi Hn HQ HX HX'. unfold read_iovec. apply wp_bind. unfold pok_or.
  destruct (checked U64 (iov + i * 16)) as [slot|] eqn:E; [|done]. apply checked_Some in E as ->.
  apply wp_ret. apply wp_bind, wp_load_user; [lia|lia| |]; intros Hr; [by apply wp_ret|done].
Qed.

(** A failed load, or one that stored back what it found, keeps the state. *)
Lemma ok_reload s : inv [] s -> ready s -> ok s (upd_user (user_space s) s).
Proof. intros I R. apply ok_same; [by apply inv_upd_user|done|done]. Qed.

Lemma ok_refl s : inv [] s -> ready s -> ok s s.
Proof. intros I R. by apply ok_same. Qed.

Lemma read_outcome_from s s1 r s' :
  ok s s1 -> kern (tty s1) = kern (tty s) -> read_outcome s1 r s' -> read_outcome s r s'.
Proof.
  intros O K Ho. destruct r; [|done]. destruct Ho as [Ho Hk]. split; [eapply ok_from; [done|apply O]|congruence].
Qed.

Lemma readv_loop_ok fd iov idxs : forall total s,
  inv [] s -> ready s -> user_current (kern (tty s)) -> 0 <= iov -> Forall (fun i => 0 <= i) idxs ->
  wp (readv_loop rsp_cell resume fd iov idxs total) (read_outcome s) no_err' s.
Proof.
  induction idxs as [|i rest IH]; intros total s I R U Hi Hx; cbn [readv_loop].
  - apply wp_ret. split; [by apply ok_refl|done].
  - apply Forall_cons in Hx as [Hx Hrest]. pose proof (ok_reload s I R) as O1.
    apply wp_bind, wp_try, wp_read_iovec; [done..| | |].
    2:{ apply wp_ret. split; [by apply ok_refl|done]. } 2:{ apply wp_ret. by split. }
    set (s1 := upd_user _ s) in *. destruct O1 as (I1 & R1 & K1).
    destruct (iovec _ iov i) as [base len] eqn:Ev. apply iovec_range in Ev as [Hb Hl].
    destruct (len =? 0).
    { eapply wp_mono; [apply IH; done| |done]. intros r s'. by apply (read_outcome_from s s1). }
    apply wp_bind. eapply wp_mono; [apply sys_read_ok; done| |done]. intros [got|pn] s' Ho; [|by apply wp_ret].
    apply (read_outcome_from s s1) in Ho; [|done..]. destruct Ho as [Ho Kk].
    destruct (got <? 0); [by apply wp_ret|]. destruct (got <? len); [by apply wp_ret|].
    eapply wp_mono; [apply IH; [apply Ho|apply Ho|by rewrite Kk|done..]| |done].
    intros r s''. by apply (read_outcome_from s s').
Qed.

(** What a blocked read needs when it runs again. *)
Fixpoint pending_ok s (p : Pending) : Prop :=
  match p with
  | WaitStdin buf _ => 0 <= buf
  | WaitPipe q buf _ => 0 <= buf /\ is_Some (PIPES s !! q)
  | WaitReadv _ iov rest _ _ q => 0 <= iov /\ Forall (fun i => 0 <= i) rest /\ pending_ok s q
  end.

Lemma resume_read_ok pn s :
  inv [] s -> ready s -> user_current (kern (tty s)) -> pending_ok s pn ->
  wp (resume_read rsp_cell resume pn) (read_outcome s) no_err' s.
Proof.
  induction pn as [| |fd iov rest len total q IH]; intros I R U Hpn; cbn [resume_read pending_ok] in *.
  - by apply read_stdin_turn_ok.
  - destruct Hpn as [Hb [b Hq]]. by eapply read_pipe_turn_ok.
  - destruct Hpn as (Hi & Hx & Hq). apply wp_bind. eapply wp_mono; [by apply IH| |done].
    intros [got|q'] s' Ho; [|by apply wp_ret]. pose proof Ho as [Ho' Kk].
    destruct (got <? 0); [by apply wp_ret|]. destruct (got <? len); [by apply wp_ret|].
    eapply wp_mono; [apply readv_loop_ok; [apply Ho'|apply Ho'|by rewrite Kk|done..]| |done].
    intros r s''. by apply (read_outcome_from s s').
Qed.

(** All of the vector fits the buffer of a file. *)
Definition writev_fits s (fd iov : Z) (idxs : list Z) : Prop :=
  match fd_at s fd with
  | Some (FdFile f) => f_offset f + foldr (fun i a => (iovec (user_space s) iov i).2 + a) 0 idxs <= HEAP_SIZE
  | _ => True
  end.

Lemma foldr_iovec_nonneg us iov idxs : 0 <= foldr (fun i a => (iovec us iov i).2 + a) 0 idxs.
Proof.
  induction idxs as [|i idxs IH]; [done|]. cbn [foldr].
  destruct (iovec us iov i) as [base len] eqn:E. apply iovec_range in E. cbn [snd]. lia.
Qed.

(** The file and the memory that the rest of a vector is written from. *)
Lemma sys_write_file s fd buf count rsp f :
  inv [] s -> ready s -> 0 <= buf -> 0 <= count -> fd_at s fd = Some (FdFile f) -> write_fits f count ->
  wp (sys_write fd buf count rsp)
    (fun r s' => ok s s' /\ (0 <= r -> user_space s' = user_space s /\
       fd_at s' fd = Some (FdFile (stored f (read_bytes (user_space s) buf (Z.to_nat count)))) /\ r = count)) no_err' s.
Proof.
  intros I R Hb Hc Hf Hfit. unfold sys_write. apply wp_bind. eapply wp_current_fds_first; [done..|].
  intros p s1 Hp1 K1 _ Ep _ S1. unfold fd_at in Hf. rewrite <- Ep in Hf. rewrite Hf.
  assert (Eu : user_space s1 = user_space s) by (unfold user_space; by rewrite S1, K1).
  destruct (f_writable f && negb (f_is_dir f)) eqn:Ew; zbool.
  - eapply wp_mono; [by eapply write_to_file_spec| |done]. rewrite Eu.
    intros r s' (O' & _ & U' & _ & Hres). split; [by eapply ok_from|]. intros Hr.
    destruct Hres as [(_ & -> & Hfd)|(_ & -> & _)]; [|by exfalso]. done.
  - apply wp_ret. split; [by eapply ok_at_proc|]. intros Hr. by exfalso.
Qed.

Lemma writev_file_ok fd iov idxs : forall total rsp s f,
  inv [] s -> ready s -> 0 <= iov -> Forall (fun i => 0 <= i) idxs -> fd_at s fd = Some (FdFile f) ->
  f_offset f + foldr (fun i a => (iovec (user_space s) iov i).2 + a) 0 idxs <= HEAP_SIZE ->
  wp (writev_loop fd iov idxs total rsp) (fun _ s' => ok s s') no_err' s.
Proof.
  induction idxs as [|i rest IH]; intros total rsp s f I R Hi Hx Hf Hfit; cbn [writev_loop].
  - apply wp_ret. by apply ok_refl.
  - apply Forall_cons in Hx as [Hx Hrest]. pose proof (ok_reload s I R) as O1.
    apply wp_bind, wp_try, wp_read_iovec; [done..| | |].
    2:{ apply wp_ret. by apply ok_refl. } 2:{ by apply wp_ret. }
    pose proof (user_space_upd (user_space s) s) as U1.
    set (s1 := upd_user _ s) in *. destruct O1 as (I1 & R1 & K1). cbn [foldr] in Hfit.
    destruct (iovec _ iov i) as [base len] eqn:Ev. apply iovec_range in Ev as [Hb Hl]. cbn [snd] in Hfit.
    pose proof (foldr_iovec_nonneg (user_space s) iov rest). assert (Hf1 : fd_at s1 fd = Some (FdFile f)) by done.
    destruct (len =? 0) eqn:E0; zbool.
    { eapply wp_mono; [eapply IH; [done..|]| |done].
      - rewrite U1. lia.
      - intros r s' O'. eapply ok_from; [exact O'|done]. }
    apply wp_bind. eapply wp_mono; [eapply sys_write_file; [done..|right; lia]| |done].
    intros w s' [O' Hw]. assert (ok s s') by (by eapply ok_from).
    destruct (w <? 0) eqn:Ew; zbool; [by apply wp_ret|]. destruct (w <? len); [by apply wp_ret|].
    destruct (Hw Ew) as (U' & F' & ->). rewrite U1 in U', F'.
    eapply wp_mono; [eapply IH; [apply O'|apply O'|done|done|exact F'|]| |done].
    + rewrite U'. unfold stored. cbn [f_offset]. rewrite length_read_bytes. lia.
    + intros r s'' O''. eapply ok_from; [exact O''|apply O'].
Qed.

Lemma writev_other_ok fd iov idxs : forall total rsp s,
  inv [] s -> ready s -> 0 <= iov -> Forall (fun i => 0 <= i) idxs ->
  (forall f, fd_at s fd <> Some (FdFile f)) ->
  wp (writev_loop fd iov idxs total rsp) (fun _ s' => ok s s') no_err' s.
Proof.
  induction idxs as [|i rest IH]; intros total rsp s I R Hi Hx Hf; cbn [writev_loop].
  - apply wp_ret. by apply ok_refl.
  - apply Forall_cons in Hx as [Hx Hrest]. pose proof (ok_reload s I R) as O1.
    apply wp_bind, wp_try, wp_read_iovec; [done..| | |].
    2:{ apply wp_ret. by apply ok_refl. } 2:{ by apply wp_ret. }
    set (s1 := upd_user _ s) in *. destruct O1 as (I1 & R1 & K1).
    assert (Hf1 : forall f, fd_at s1 fd <> Some (FdFile f)) by done.
    destruct (iovec _ iov i) as [base len] eqn:Ev. apply iovec_range in Ev as [Hb Hl].
    destruct (len =? 0).
    { eapply wp_mono; [by apply IH| |done]. intros r s' O'. eapply ok_from; [exact O'|done]. }
    apply wp_bind. eapply wp_mono; [apply sys_write_ok; [done..|]| |done].
    { unfold write_ok. destruct (fd_at s1 fd) as [[]|] eqn:E; try done. by edestruct Hf1. }
    intros w s' [O' Hw]. assert (ok s s') by (by eapply ok_from).
    destruct (w <? 0); [by apply wp_ret|]. destruct (w <? len); [by apply wp_ret|].
    eapply wp_mono; [eapply IH; [apply O'|apply O'|done|done|]| |done].
    + intros f Ef. unfold wrote_fd in Hw. destruct (fd_at s1 fd) as [[]|] eqn:E; congruence.
    + intros r s'' O''. eapply ok_from; [exact O''|apply O'].
Qed.

Lemma seqZ_nonneg n : Forall (fun i => 0 <= i) (seqZ 0 n).
Proof. apply Forall_forall. intros i Hi. apply elem_of_seqZ in Hi. lia. Qed.

Lemma sys_writev_ok s fd iov iovcnt rsp :
  inv [] s -> ready s -> 0 <= iov -> writev_fits s fd iov (seqZ 0 iovcnt) ->
  wp (sys_writev fd iov iovcnt rsp) (fun _ s' => ok s s') no_err' s.
Proof.
  intros I R Hi Hfit. unfold sys_writev. destruct (IOV_MAX <? iovcnt); [apply wp_ret; by apply ok_refl|].
  unfold writev_fits in Hfit. destruct (fd_at s fd) as [[]|] eqn:E;
    try (apply writev_other_ok; [done..|apply seqZ_nonneg|congruence]).
  eapply writev_file_ok; [done..|apply seqZ_nonneg|done|done].
Qed.

Lemma sys_readv_ok s fd iov iovcnt :
  inv [] s -> ready s -> user_current (kern (tty s)) -> 0 <= iov ->
  wp (sys_readv rsp_cell resume fd iov iovcnt) (read_outcome s) no_err' s.
Proof.
  intros I R U Hi. unfold sys_readv. destruct (IOV_MAX <? iovcnt).
  - apply wp_ret. split; [by apply ok_refl|done].
  - apply readv_loop_ok; [done..|apply seqZ_nonneg].
Qed.
End Ops.
