(* ===== verification/Dirents.v ===== *)
(** * Directory listings

    The record stream a directory is opened as ([serialize_dirents]) and the
    call that reads it ([sys_getdents64]): every call delivers the longest run
    of whole records that fits the buffer, and the records decode to the entries
    of the directory. *)

From stdpp Require Import base numbers list gmap.
From Stdlib Require Import ZArith Lia.
From S2P Require Import Prelude BlockDev Fat Abi Uaccess Paging Console NetStack Files FilesInv FilesOps.
#[local] Open Scope Z_scope.

(** ** Records *)

(** The records of a listing, the first with index [i] at offset [start]. *)
Fixpoint dirents (i start : nat) (items : list DirItem) : list (list byte) :=
  match items with
  | [] => []
  | item :: items' =>
      dirent i start item :: dirents (S i) (start + dirent_len (item_name item)) items'
  end.

(** A record of the length its [d_reclen] says. *)
Definition is_record (r : list byte) : Prop :=
  (HEADER <= length r)%nat /\ from_le (slice r 16 2) = Z.of_nat (length r).

(** What a program reads from a record: the name up to the NUL, and the type. *)
Definition decode_dirent (r : list byte) : DirItem :=
  mkDirItem (push_until_nul (drop HEADER r) []).1 (bool_decide (r !! 18%nat = Some DT_DIR)).

(** A name a record can carry. *)
Definition listable (item : DirItem) : Prop :=
  (x00 ∉ item_name item) /\ (length (item_name item) <= 255)%nat.

Lemma dirent_len_bounds name :
  (HEADER + length name + 1 <= dirent_len name < HEADER + length name + 9)%nat.
Proof.
  unfold dirent_len, div_ceil. set (a := (HEADER + length name + 1)%nat).
  pose proof (Nat.div_mod_eq (a + 8 - 1) 8). pose proof (Nat.mod_upper_bound (a + 8 - 1) 8). lia.
Qed.

(** The lengths of the stages of a record. *)
Ltac record_len :=
  repeat (apply length_splice_eq; [|rewrite ?length_to_le; cbn [length]; lia]); apply length_zeros.

Lemma length_dirent i start item : length (dirent i start item) = dirent_len (item_name item).
Proof. pose proof (dirent_len_bounds (item_name item)). unfold dirent, HEADER in *. record_len. Qed.

(** The fields of a record. *)
Lemma dirent_fields i start item :
  let n := dirent_len (item_name item) in
  let r := dirent i start item in
  slice r 0 8 = to_le 8 (Z.of_nat i + 1) /\
  slice r 8 8 = to_le 8 (Z.of_nat (start + n)) /\
  slice r 16 2 = to_le 2 (Z.of_nat n) /\
  slice r 18 1 = [if item_is_dir item then DT_DIR else DT_REG] /\
  slice r HEADER (length (item_name item)) = item_name item /\
  r !! (HEADER + length (item_name item))%nat = Some x00.
Proof.
  intros n r. pose proof (dirent_len_bounds (item_name item)) as Hn. fold n in Hn. unfold r, dirent, HEADER in *.
  fold n. cbv zeta.
  set (r0 := zeros n). assert (L0 : length r0 = n) by apply length_zeros.
  set (r1 := splice r0 0 _). assert (L1 : length r1 = n) by (apply length_splice_eq; rewrite ?length_to_le; lia).
  set (r2 := splice r1 8 _). assert (L2 : length r2 = n) by (apply length_splice_eq; rewrite ?length_to_le; lia).
  set (r3 := splice r2 16 _). assert (L3 : length r3 = n) by (apply length_splice_eq; rewrite ?length_to_le; lia).
  set (r4 := splice r3 18 _). assert (L4 : length r4 = n) by (apply length_splice_eq; cbn [length]; lia).
  split_and!.
  - rewrite slice_splice_before by lia. unfold r4. rewrite slice_splice_before by lia.
    unfold r3. rewrite slice_splice_before by lia. unfold r2. rewrite slice_splice_before by lia.
    unfold r1. apply slice_splice_eq; [by rewrite length_to_le|lia].
  - rewrite slice_splice_before by lia. unfold r4. rewrite slice_splice_before by lia.
    unfold r3. rewrite slice_splice_before by lia.
    unfold r2. apply slice_splice_eq; [by rewrite length_to_le|lia].
  - rewrite slice_splice_before by lia. unfold r4. rewrite slice_splice_before by lia.
    unfold r3. apply slice_splice_eq; [by rewrite length_to_le|lia].
  - rewrite slice_splice_before by lia. unfold r4. by apply slice_splice_eq; [|lia].
  - apply slice_splice_same. lia.
  - assert (Hz : slice (splice r4 19 (item_name item)) (19 + length (item_name item)) 1 = slice r0 (19 + length (item_name item)) 1).
    { rewrite slice_splice_after by lia. unfold r4. rewrite slice_splice_after by (cbn [length]; lia).
      unfold r3. rewrite slice_splice_after by (rewrite ?length_to_le; lia).
      unfold r2. rewrite slice_splice_after by (rewrite ?length_to_le; lia).
      unfold r1. rewrite slice_splice_after by (rewrite ?length_to_le; lia). done. }
    apply (f_equal (fun l => l !! 0%nat)) in Hz. rewrite !lookup_slice in Hz by lia. rewrite !Nat.add_0_r in Hz.
    rewrite Hz. unfold r0, zeros. apply lookup_replicate. split; [done|lia].
Qed.

Lemma dirent_is_record i start item : listable item -> is_record (dirent i start item).
Proof.
  intros [_ Hl]. pose proof (dirent_len_bounds (item_name item)) as Hn. split; rewrite length_dirent; [lia|].
  destruct (dirent_fields i start item) as (_ & _ & -> & _). rewrite from_to_le. apply Z.mod_small.
  unfold HEADER in *. change (256 ^ Z.of_nat 2) with 65536. lia.
Qed.

Lemma push_until_nul_app pre rest out : (x00 ∉ pre) -> push_until_nul (pre ++ x00 :: rest) out = (out ++ pre, true).
Proof.
  revert out; induction pre as [|b pre IH]; intros out Hp; cbn [app push_until_nul].
  - by rewrite app_nil_r.
  - apply not_elem_of_cons in Hp as [Hb Hp]. destruct (Byte.eqb b x00) eqn:E.
    { apply byte_eqb_eq in E. congruence. }
    rewrite IH by done. by rewrite <- app_assoc.
Qed.

Lemma dirent_name_nul i start item :
  exists rest, drop HEADER (dirent i start item) = item_name item ++ x00 :: rest.
Proof.
  destruct (dirent_fields i start item) as (_ & _ & _ & _ & Hname & Hnul). set (r := dirent i start item) in *.
  exists (drop (S (length (item_name item))) (drop HEADER r)). rewrite <- Hname at 1. unfold slice.
  rewrite <- (take_drop (length (item_name item)) (drop HEADER r)) at 1. f_equal. apply drop_S. by rewrite lookup_drop.
Qed.

Lemma decode_dirent_dirent i start item : listable item -> decode_dirent (dirent i start item) = item.
Proof.
  intros [Hz Hl]. destruct (dirent_fields i start item) as (_ & _ & _ & Ht & _ & _). destruct (dirent_name_nul i start item) as [rest Ed].
  unfold decode_dirent. set (r := dirent i start item) in *. rewrite Ed, push_until_nul_app by done. cbn [fst app].
  assert (E18 : r !! 18%nat = Some (if item_is_dir item then DT_DIR else DT_REG)).
  { apply (f_equal (fun l => l !! 0%nat)) in Ht. by rewrite lookup_slice in Ht by lia. }
  rewrite E18. by destruct item as [name []].
Qed.

Lemma serialize_from_dirents i out items :
  serialize_from i out items = out ++ concat (dirents i (length out) items).
Proof.
  revert i out; induction items as [|item items IH]; intros i out; cbn [serialize_from dirents concat].
  - by rewrite app_nil_r.
  - rewrite IH, length_app, length_dirent, <- app_assoc. done.
Qed.

Lemma dirents_ok i start items :
  Forall listable items ->
  Forall is_record (dirents i start items) /\ decode_dirent <$> dirents i start items = items.
Proof.
  intros Hl. revert i start; induction Hl as [|item items Hi Hl IH]; intros i start; cbn [dirents]; [done|].
  destruct (IH (S i) (start + dirent_len (item_name item))%nat) as [H1 H2]. split.
  - constructor; [by apply dirent_is_record|done].
  - rewrite fmap_cons, H2. by rewrite decode_dirent_dirent.
Qed.

(** ** The longest run of records that fits *)

Fixpoint fitting (count : Z) (rs : list (list byte)) : list (list byte) :=
  match rs with
  | [] => []
  | r :: rs' =>
      if Z.of_nat (length r) <=? count then r :: fitting (count - Z.of_nat (length r)) rs' else []
  end.

Lemma fitting_prefix count rs : exists rest, rs = fitting count rs ++ rest.
Proof.
  revert count; induction rs as [|r rs IH]; intros count; cbn [fitting]; [by exists []|].
  destruct (_ <=? count); [|by exists (r :: rs)]. destruct (IH (count - Z.of_nat (length r))) as [rest E].
  exists rest. cbn. by rewrite <- E.
Qed.

Lemma fitting_length count rs : 0 <= count -> Z.of_nat (length (concat (fitting count rs))) <= count.
Proof.
  revert count; induction rs as [|r rs IH]; intros count Hc; cbn [fitting]; [done|].
  destruct (_ <=? count) eqn:E; zbool; [|done]. cbn [concat]. rewrite length_app.
  specialize (IH (count - Z.of_nat (length r))). lia.
Qed.

(** The two bytes of [d_reclen]. *)
Lemma record_reclen r rest :
  is_record r -> exists b0 b1, (r ++ rest) !! 16%nat = Some b0 /\ (r ++ rest) !! 17%nat = Some b1 /\
    from_le [b0; b1] = Z.of_nat (length r).
Proof.
  intros [Hl Hr]. unfold HEADER in Hl.
  destruct (lookup_lt_is_Some_2 r 16) as [b0 H0]; [lia|]. destruct (lookup_lt_is_Some_2 r 17) as [b1 H1]; [lia|].
  exists b0, b1. rewrite !lookup_app_l by lia. split_and!; [done..|]. rewrite <- Hr. f_equal.
  unfold slice. rewrite (drop_S r b0 16), (drop_S r b1 17) by done. done.
Qed.

Section Getdents.
Context {D N F : Type} `{BL : BlockDevLaws D} `{NL : NetStackLaws N} `{ML : MapperLaws F} (v : Fat32).
Implicit Types s : Sys D N F.

Lemma wp_dirent_span rs : forall fuel data offset span count s (Q : Z -> Sys D N F -> Prop) X,
  0 <= offset -> 0 <= span -> Forall is_record rs -> drop (Z.to_nat (offset + span)) data = concat rs ->
  (length rs < fuel)%nat ->
  Q (span + Z.of_nat (length (concat (fitting (count - span) rs)))) s ->
  wp (dirent_span fuel data offset span count) Q X s.
Proof.
  induction rs as [|r rs IH]; intros [|fuel] data offset span count s Q X Ho Hs Hrs Hd Hf HQ;
    cbn [length] in Hf; try lia; cbn [dirent_span].
  - assert (length data <= Z.to_nat (offset + span))%nat.
    { apply (f_equal length) in Hd. rewrite length_drop in Hd. cbn in Hd. lia. }
    destruct (_ <? _) eqn:E; zbool; [lia|]. apply wp_ret. cbn in HQ. by rewrite Z.add_0_r in HQ.
  - apply Forall_cons in Hrs as [Hr Hrs]. pose proof (proj1 Hr) as Hl. unfold HEADER in Hl.
    cbn [concat] in Hd. pose proof (f_equal length Hd) as Hlen. rewrite length_drop, length_app in Hlen.
    destruct (_ <? _) eqn:E; zbool; [|lia].
    destruct (record_reclen r (concat rs) Hr) as (b0 & b1 & H0 & H1 & Hle). rewrite <- Hd, lookup_drop in H0, H1.
    apply wp_bind. eapply wp_unwrap; [done|]. apply wp_bind. eapply wp_unwrap; [done|]. rewrite Hle.
    cbn [fitting] in HQ. destruct (count <? _) eqn:Ec; zbool.
    + apply wp_ret. destruct (_ <=? _) eqn:E'; zbool; [lia|]. cbn in HQ. by rewrite Z.add_0_r in HQ.
    + destruct (_ <=? count - span) eqn:E'; zbool; [|lia]. apply IH; [done|lia|done| |lia|].
      * replace (Z.to_nat (offset + (span + Z.of_nat (length r))))
          with (Z.to_nat (offset + span) + length r)%nat by lia.
        by rewrite <- drop_drop, Hd, drop_app_length.
      * cbn [concat] in HQ. rewrite length_app in HQ.
        replace (count - (span + Z.of_nat (length r))) with (count - span - Z.of_nat (length r)) by lia.
        replace (span + Z.of_nat (length r) + _) with
          (span + Z.of_nat (length r + length (concat (fitting (count - span - Z.of_nat (length r)) rs)))) by lia.
        done.
Qed.

(** The records that are left behind a descriptor. *)
Definition at_records (f : OpenFile) (rs : list (list byte)) : Prop :=
  Forall is_record rs /\ drop (Z.to_nat (f_offset f)) (f_data f) = concat rs /\
  Z.of_nat (length (f_data f)) < 2 ^ 63.

Definition getdents_result s s' (fd buf count r : Z) (f : OpenFile) (rs : list (list byte)) : Prop :=
  let out := concat (fitting count rs) in
  let n := Z.of_nat (length out) in
  (rs = [] /\ r = 0 \/ (rs <> [] /\ fitting count rs = []) /\ r = - EINVAL \/
   fitting count rs <> [] /\ ~ range_ok (user_space s) true buf n /\ r = - EFAULT) /\
     user_space s' = user_space s /\ fd_at s' fd = fd_at s fd \/
  fitting count rs <> [] /\ range_ok (user_space s) true buf n /\ r = n /\
     user_space s' = write_bytes buf out (user_space s) /\
     fd_at s' fd = Some (FdFile (set_f_offset (f_offset f + n) f)).

Lemma concat_records_nil rs : Forall is_record rs -> length (concat rs) = 0%nat -> rs = [].
Proof. intros [|r rs' [Hl _] _]; [done|]. cbn [concat]. rewrite length_app. unfold HEADER in Hl. lia. Qed.

Lemma records_count rs : Forall is_record rs -> (length rs <= length (concat rs))%nat.
Proof.
  induction 1 as [|r rs' [Hl _] _ IH]; [done|]. cbn [concat length]. rewrite length_app. unfold HEADER in Hl. lia.
Qed.

Lemma getdents_spec p s fd buf count f rs :
  at_proc v [] p s -> get_fd (fds p) fd = Some (FdFile f) -> f_is_dir f = true -> at_records f rs ->
  0 <= buf -> 0 <= count ->
  wp (sys_getdents64 fd buf count)
    (fun r s' => ok v s s' /\ getdents_result s s' fd buf count r f rs) no_err' s.
Proof.
  intros Hp Ee Edir (Hrs & Hd & Hmem) Hb Hc. unfold sys_getdents64. apply wp_bind. eapply wp_current_fds; [done|].
  rewrite Ee, Edir. pose proof (get_fd_ok _ _ _ _ _ _ Hp Ee) as [(Ho & _ & Hw & Hx) _].
  pose proof (records_count rs Hrs) as Hcnt. pose proof (f_equal length Hd) as Hlen. rewrite length_drop in Hlen.
  destruct (fitting_prefix count rs) as [rest Erest]. pose proof Hrs as Hsel. rewrite Erest, Forall_app in Hsel.
  apply wp_bind, (wp_dirent_span rs); [lia|done|done|by rewrite Z.add_0_r|lia|].
  rewrite Z.sub_0_r, Z.add_0_l. set (out := concat (fitting count rs)).
  assert (Hsplit : concat rs = out ++ concat rest) by (rewrite Erest at 1; apply concat_app).
  assert (Hsame : ok v s s /\ user_space s = user_space s) by (split; [by eapply ok_at_proc|done]).
  destruct (_ =? 0) eqn:E0; zbool.
  - assert (Hnil : fitting count rs = []) by (apply concat_records_nil; [apply Hsel|fold out; lia]).
    apply wp_ret. split; [apply Hsame|]. left. split; [|done]. destruct (_ <=? _) eqn:El; zbool.
    + left. split; [|done]. apply concat_records_nil; [done|lia].
    + right. left. split; [|done]. split; [|done]. intros ->. cbn in Hlen. lia.
  - assert (Hne : fitting count rs <> []) by (intros E; unfold out in E0; rewrite E in E0; done).
    rewrite Hsplit, length_app in Hlen. apply wp_bind, wp_assert; [apply Z.leb_le; lia|].
    assert (Eout : slice (f_data f) (Z.to_nat (f_offset f)) (Z.to_nat (Z.of_nat (length out))) = out).
    { unfold slice. by rewrite Hd, Hsplit, Nat2Z.id, take_app_length. }
    rewrite Eout. apply wp_or_errno, wp_store_user; [done| |]; intros Hr.
    + apply wp_bind. eapply wp_put_file; [by apply at_proc_upd_user|done| |].
      { unfold file_ok. cbn. split_and!; try done; try lia. by rewrite Edir. }
      intros s3 Hp3 K3 T3 U3 D3 F3. apply wp_ret. rewrite user_space_upd in U3.
      split; [by eapply ok_at_proc|]. right. by split_and!.
    + split; [by eapply ok_at_proc; [apply at_proc_upd_user|]|]. left. split; [|split; [apply user_space_upd|done]].
      right. right. by split_and!.
Qed.
End Getdents.
