(* ===== verification/Heap.v ===== *)
(** * The program break

    [sys_brk]: after every call the mapped pages of the heap window are exactly
    those below the break, fresh pages hold zeros, and a failed growth leaves
    the heap as it was. *)

From stdpp Require Import base numbers list gmap.
From Stdlib Require Import ZArith Lia.
From S2P Require Import Prelude BlockDev Fat Abi Uaccess Paging Console NetStack Files FilesInv FilesOps.
#[local] Open Scope Z_scope.

(** The first page boundary at or above [x]. *)
Definition ceil_page (x : Z) : Z := page_of (x + 0xFFF).

Definition aligned (x : Z) : Prop := x mod 4096 = 0.

(** [us'] is [us] with fresh pages in [from, to). *)
Record grown (us us' : UserSpace) (from to : Z) : Prop := {
  grown_fresh : forall pg, aligned pg -> from <= pg < to -> us_pages us !! pg = None;
  grown_in : forall pg, aligned pg -> from <= pg < to -> us_pages us' !! pg = Some (true, true);
  grown_out : forall pg, ~ (aligned pg /\ from <= pg < to) -> us_pages us' !! pg = us_pages us !! pg;
  grown_zero : forall a, from <= a < to -> byte_at us' a = x00;
  grown_same : forall a, ~ (from <= a < to) -> byte_at us' a = byte_at us a
}.

(** [us'] is [us] with the pages in [from, to) unmapped. *)
Record shrunk (us us' : UserSpace) (from to : Z) : Prop := {
  shrunk_in : forall pg, aligned pg -> from <= pg < to -> us_pages us' !! pg = None;
  shrunk_out : forall pg, ~ (aligned pg /\ from <= pg < to) -> us_pages us' !! pg = us_pages us !! pg;
  shrunk_same : forall a, ~ (from <= a < to) -> byte_at us' a = byte_at us a
}.

Lemma ceil_page_spec x : aligned (ceil_page x) /\ x <= ceil_page x < x + 4096.
Proof.
  unfold ceil_page. split; [apply page_of_aligned|]. pose proof (page_of_bounds (x + 0xFFF)). lia.
Qed.

Lemma ceil_page_aligned x : aligned x -> ceil_page x = x.
Proof. intros Hx. unfold ceil_page. apply page_of_same; [done|lia]. Qed.

Lemma ceil_page_mono x y : x <= y -> ceil_page x <= ceil_page y.
Proof.
  intros H. unfold ceil_page. rewrite !page_of_mod.
  pose proof (Z_div_mod_eq_full (x + 0xFFF) 4096). pose proof (Z_div_mod_eq_full (y + 0xFFF) 4096).
  pose proof (Z.div_le_mono (x + 0xFFF) (y + 0xFFF) 4096). lia.
Qed.

(** Aligned addresses are a page apart. *)
Lemma aligned_gap x y : aligned x -> aligned y -> x < y -> x + 4096 <= y.
Proof.
  unfold aligned. intros Hx Hy H. apply Z.mod_divide in Hx as [a ->]; [|done]. apply Z.mod_divide in Hy as [b ->]; [|done]. lia.
Qed.

Lemma aligned_next x : aligned x -> aligned (x + 4096).
Proof. unfold aligned. intros H. rewrite <- (Z.mul_1_l 4096) at 1. by rewrite Z.mod_add. Qed.

Lemma aligned_steps x y : aligned x -> aligned y -> x < y -> (y - x) / 4096 = (y - (x + 4096)) / 4096 + 1.
Proof.
  intros _ _ H. replace (y - x) with (y - (x + 4096) + 1 * 4096) by lia. by rewrite Z.div_add.
Qed.

Lemma grown_nil us from : grown us us from from.
Proof. split; intros; (lia || done). Qed.

Lemma grown_step us us1 us2 from va :
  aligned from -> aligned va -> from <= va -> grown us us1 from va ->
  us_pages us1 !! va = None -> us_pages us2 = <[va := (true, true)]> (us_pages us1) ->
  (forall a, on_page va a -> byte_at us2 a = x00) -> (forall a, ~ on_page va a -> byte_at us2 a = byte_at us1 a) ->
  grown us us2 from (va + 4096).
Proof.
  intros Af Av Hle [G1 G2 G3 G4 G5] Hnone Hpg Hz Hs. unfold on_page in *.
  assert (Hpage : forall pg, aligned pg -> from <= pg < va + 4096 -> pg = va \/ from <= pg < va).
  { intros pg Apg Hr. destruct (decide (pg = va)) as [->|Hne]; [by left|right].
    destruct (decide (pg < va)); [lia|]. pose proof (aligned_gap va pg Av Apg). lia. }
  split.
  - intros pg Apg [->|Hr]%Hpage; [|by apply G1|done]. rewrite <- G3; [done|lia].
  - intros pg Apg [->|Hr]%Hpage; [| |done]; rewrite Hpg; [by rewrite lookup_insert_eq|].
    rewrite lookup_insert_ne by lia. by apply G2.
  - intros pg Hn. rewrite Hpg, lookup_insert_ne by (intros <-; apply Hn; split; [done|lia]).
    apply G3. intros [? ?]. apply Hn. split; [done|lia].
  - intros a Ha. destruct (decide (va <= a)); [apply Hz; lia|]. rewrite Hs by lia. apply G4. lia.
  - intros a Ha. rewrite Hs by lia. apply G5. lia.
Qed.

Lemma shrunk_nil us from to : to <= from -> shrunk us us from to.
Proof. intros. split; intros; (lia || done). Qed.

Lemma shrunk_step us us1 us2 va to :
  aligned va -> aligned to -> va < to ->
  us_pages us1 = delete va (us_pages us) -> (forall a, ~ on_page va a -> byte_at us1 a = byte_at us a) ->
  shrunk us1 us2 (va + 4096) to -> shrunk us us2 va to.
Proof.
  intros Av At Hlt Hpg Hs [S1 S2 S3]. pose proof (aligned_gap va to Av At Hlt). unfold on_page in *.
  split.
  - intros pg Apg Hr. destruct (decide (pg = va)) as [->|Hne].
    + rewrite S2 by lia. by rewrite Hpg, lookup_delete_eq.
    + apply S1; [done|]. pose proof (aligned_gap va pg Av Apg). lia.
  - intros pg Hn. rewrite S2 by (intros [? ?]; apply Hn; split; [done|lia]).
    rewrite Hpg, lookup_delete_ne; [done|]. intros <-. apply Hn. split; [done|lia].
  - intros a Ha. rewrite S3 by lia. apply Hs. lia.
Qed.

(** Unmapping the fresh pages again restores the pages. *)
Lemma grown_shrunk us us1 us2 from to :
  grown us us1 from to -> shrunk us1 us2 from to ->
  us_pages us2 = us_pages us /\ (forall a, ~ (from <= a < to) -> byte_at us2 a = byte_at us a).
Proof.
  intros [G1 G2 G3 G4 G5] [S1 S2 S3]. split.
  - apply map_eq. intros pg. destruct (decide (pg mod 4096 = 0 /\ from <= pg < to)) as [[Ap Hr]|Hn].
    + by rewrite S1, G1.
    + by rewrite S2, G3.
  - intros a Ha. rewrite S3 by done. by apply G5.
Qed.

(** ** The loops *)

Section Brk.
Context {D N F : Type} `{BL : BlockDevLaws D} `{NL : NetStackLaws N} `{ML : MapperLaws F} (v : Fat32).
Implicit Types s : Sys D N F.

(** Only the memory of processes and the frame allocator differ. *)
Definition mm_only s s' : Prop := exists sp g, s' = set_mm sp g s.

Lemma mm_only_refl s : mm_only s s.
Proof. exists (SPACES s), (FRAMES s). by destruct s. Qed.

Lemma mm_only_trans s1 s2 s3 : mm_only s1 s2 -> mm_only s2 s3 -> mm_only s1 s3.
Proof. intros (sp & g & ->) (sp' & g' & ->). by exists sp', g'. Qed.

Lemma mm_only_at_proc held p s s' : mm_only s s' -> at_proc v held p s -> at_proc v held p s'.
Proof. intros (sp & g & ->) ([H1 H2 H3 H4 H5] & Hf & Hp). split_and!; [split; [by eapply refs_ok_ext|done..]|done|done]. Qed.

Lemma mm_only_key s s' : mm_only s s' -> current_key s' = current_key s /\ kern (tty s') = kern (tty s) /\
  PROCESSES s' = PROCESSES s /\ DISK s' = DISK s.
Proof. by intros (sp & g & ->). Qed.

Lemma wp_map_page {E} s page (Q : bool -> Sys D N F -> Prop) (X : E -> Sys D N F -> Prop) :
  aligned page ->
  (forall s', mm_only s s' -> us_pages (user_space s) !! page = None ->
     us_pages (user_space s') = <[page := (true, true)]> (us_pages (user_space s)) ->
     (forall a, on_page page a -> byte_at (user_space s') a = x00) ->
     (forall a, ~ on_page page a -> byte_at (user_space s') a = byte_at (user_space s) a) -> Q true s') ->
  (forall s', mm_only s s' -> user_space s' = user_space s -> Q false s') ->
  wp (in_mm (map_active_user_page page)) Q X s.
Proof.
  intros Hp HQ1 HQ2. unfold in_mm. apply wp_zoom.
  eapply wp_mono; [apply (wp_map_active_user_page (user_space s) (FRAMES s)); done| |intros ? ? []].
  intros ok [us g] Hmm. cbn [fst snd] in *. set (s' := set_mm _ _ s).
  assert (Hm : mm_only s s') by (by eexists _, _).
  assert (Hu : user_space s' = us).
  { unfold user_space, s'. cbn [SPACES set_mm]. change (current_key (set_mm _ _ s)) with (current_key s).
    by rewrite lookup_insert_eq. }
  destruct ok; [|by apply HQ2; [|rewrite Hu]]. destruct Hmm as (? & ? & ? & ?). apply HQ1; [done..| | |]; by rewrite Hu.
Qed.

Lemma wp_unmap_page {E} s page (Q : unit -> Sys D N F -> Prop) (X : E -> Sys D N F -> Prop) :
  (forall s', mm_only s s' -> us_pages (user_space s') = delete page (us_pages (user_space s)) ->
     (forall a, ~ on_page page a -> byte_at (user_space s') a = byte_at (user_space s) a) -> Q tt s') ->
  wp (in_mm (unmap_active_user_page page)) Q X s.
Proof.
  intros HQ. unfold in_mm. apply wp_zoom.
  eapply wp_mono; [apply (wp_unmap_active_user_page (user_space s) (FRAMES s))| |intros ? ? []].
  intros [] [us g] [Hd Hs]. cbn [fst snd] in *. set (s' := set_mm _ _ s).
  assert (Hu : user_space s' = us).
  { unfold user_space, s'. cbn [SPACES set_mm]. change (current_key (set_mm _ _ s)) with (current_key s).
    by rewrite lookup_insert_eq. }
  apply HQ; [by eexists _, _|by rewrite Hu..].
Qed.

Lemma wp_unmap_loop fuel : forall va to s (Q : unit -> Sys D N F -> Prop) X,
  aligned va -> aligned to -> va <= to -> (Z.to_nat ((to - va) / 4096) < fuel)%nat ->
  (forall s', mm_only s s' -> shrunk (user_space s) (user_space s') va to -> Q tt s') ->
  wp (unmap_loop fuel va to) Q X s.
Proof.
  induction fuel as [|fuel IH]; intros va to s Q X Av At Hle Hf HQ; [lia|]. cbn [unmap_loop].
  destruct (va <? to) eqn:E; zbool; [|apply wp_ret, HQ; [apply mm_only_refl|by apply shrunk_nil]].
  apply wp_bind, wp_unmap_page. intros s1 M1 Hd Hs. pose proof (aligned_gap va to Av At E).
  pose proof (aligned_steps va to Av At E) as Hst.
  assert (0 <= (to - (va + 4096)) / 4096) by (apply Z.div_pos; lia).
  apply IH; [by apply aligned_next|done|lia|lia|]. intros s2 M2 S2.
  apply HQ; [by eapply mm_only_trans|by eapply shrunk_step].
Qed.

(** The heap as a failed growth leaves it: what was below [from] is untouched
    and the pages are those of before. *)
Definition restored (us us' : UserSpace) (from to : Z) : Prop :=
  us_pages us' = us_pages us /\ forall a, ~ (from <= a < to) -> byte_at us' a = byte_at us a.

Lemma wp_map_loop fuel : forall us from va to s (Q : bool -> Sys D N F -> Prop) X,
  aligned from -> aligned va -> aligned to -> from <= va <= to -> (Z.to_nat ((to - va) / 4096) < fuel)%nat ->
  grown us (user_space s) from va ->
  (forall s', mm_only s s' -> grown us (user_space s') from to -> Q true s') ->
  (forall s', mm_only s s' -> restored us (user_space s') from to -> Q false s') ->
  wp (map_loop fuel from va to) Q X s.
Proof.
  induction fuel as [|fuel IH]; intros us from va to s Q X Af Av At Hle Hf G HQ1 HQ2; [lia|]. cbn [map_loop].
  destruct (va <? to) eqn:E; zbool.
  2:{ replace va with to in * by lia. apply wp_ret, HQ1; [apply mm_only_refl|done]. }
  pose proof (aligned_gap va to Av At E) as Hgap. pose proof (aligned_steps va to Av At E) as Hst.
  assert (0 <= (to - (va + 4096)) / 4096) by (apply Z.div_pos; lia).
  apply wp_bind, wp_map_page; [done| |].
  - intros s1 M1 Hn Hpg Hz Hs. apply (IH us); [done|by apply aligned_next|done|lia|lia| | |].
    + eapply (grown_step us (user_space s)); (done || lia).
    + intros s2 M2. apply HQ1. by eapply mm_only_trans.
    + intros s2 M2. apply HQ2. by eapply mm_only_trans.
  - intros s1 M1 Hu. apply wp_bind, wp_unmap_loop; [done..|lia|lia|].
    intros s2 M2 S2. apply wp_ret, HQ2; [by eapply mm_only_trans|]. rewrite Hu in S2.
    destruct (grown_shrunk _ _ _ _ _ G S2) as [P B]. split; [done|]. intros a Ha. apply B. lia.
Qed.

(** ** The call *)

(** The pages of the heap window are those below the break. *)
Definition heap_ok (us : UserSpace) (b : Z) : Prop :=
  forall pg, aligned pg -> USER_HEAP_BASE <= pg < ceil_page USER_HEAP_MAX ->
    us_pages us !! pg = if pg <? ceil_page b then Some (true, true) else None.

Definition brk_of s : Z := brk (default ProcState_default (PROCESSES s !! current_key s)).

(** What a call that moves the break does to memory. *)
Definition moved (us us' : UserSpace) (old new : Z) : Prop :=
  (forall pg, ~ (USER_HEAP_BASE <= pg < ceil_page USER_HEAP_MAX) -> us_pages us' !! pg = us_pages us !! pg) /\
  (forall a, a < ceil_page (Z.min old new) \/ ceil_page (Z.max old new) <= a -> byte_at us' a = byte_at us a) /\
  (forall a, ceil_page old <= a < ceil_page new -> byte_at us' a = x00).

Lemma wp_page_up x s (Q : Z -> Sys D N F -> Prop) X :
  0 <= x < 2 ^ 63 -> Q (ceil_page x) s -> wp (page_up x) Q X s.
Proof.
  intros Hx HQ. unfold page_up. apply wp_bind. eapply wp_unwrap; [apply checked_spec; unfold in_width, U64; lia|]. by apply wp_ret.
Qed.

Lemma heap_ok_grown us us' old new :
  USER_HEAP_BASE <= old <= new -> heap_ok us old -> grown us us' (ceil_page old) (ceil_page new) -> heap_ok us' new.
Proof.
  intros Hle Hok [G1 G2 G3 G4 G5] pg Ap Hr. specialize (Hok pg Ap Hr). pose proof (ceil_page_mono old new).
  destruct (pg <? ceil_page new) eqn:En; zbool.
  - destruct (decide (ceil_page old <= pg)); [by apply G2|]. rewrite G3 by lia.
    destruct (pg <? ceil_page old) eqn:Eo; zbool; [done|lia].
  - rewrite G3 by lia. destruct (pg <? ceil_page old) eqn:Eo; zbool; [lia|done].
Qed.

Lemma heap_ok_shrunk us us' old new :
  USER_HEAP_BASE <= new <= old -> heap_ok us old -> shrunk us us' (ceil_page new) (ceil_page old) -> heap_ok us' new.
Proof.
  intros Hle Hok [S1 S2 S3] pg Ap Hr. specialize (Hok pg Ap Hr). pose proof (ceil_page_mono new old).
  destruct (decide (ceil_page new <= pg < ceil_page old)).
  - rewrite S1 by done. destruct (pg <? ceil_page new) eqn:En; zbool; [lia|done].
  - rewrite S2 by (intros [_ ?]; lia). rewrite Hok.
    destruct (pg <? ceil_page new) eqn:En, (pg <? ceil_page old) eqn:Eo; zbool; (done || lia).
Qed.

Lemma moved_grown us us' old new :
  USER_HEAP_BASE <= old <= new -> new <= USER_HEAP_MAX ->
  grown us us' (ceil_page old) (ceil_page new) -> moved us us' old new.
Proof.
  intros Hle Hmax [G1 G2 G3 G4 G5]. pose proof (ceil_page_mono new USER_HEAP_MAX Hmax).
  pose proof (ceil_page_spec old) as [_ ?]. unfold moved. rewrite Z.min_l, Z.max_r by lia. split_and!.
  - intros pg Hn. apply G3. intros [_ ?]. lia.
  - intros a Ha. apply G5. lia.
  - intros a Ha. by apply G4.
Qed.

Lemma moved_shrunk us us' old new :
  USER_HEAP_BASE <= new <= old -> old <= USER_HEAP_MAX ->
  shrunk us us' (ceil_page new) (ceil_page old) -> moved us us' old new.
Proof.
  intros Hle Hmax [S1 S2 S3]. pose proof (ceil_page_mono old USER_HEAP_MAX Hmax).
  pose proof (ceil_page_mono new old) as Hm. pose proof (ceil_page_spec new) as [_ ?].
  unfold moved. rewrite Z.min_r, Z.max_l by lia. split_and!.
  - intros pg Hn. apply S2. intros [_ ?]. lia.
  - intros a Ha. apply S3. lia.
  - intros a Ha. lia.
Qed.

(** The two outcomes of a call. *)
Definition brk_result s s' (addr r : Z) : Prop :=
  let us := user_space s in
  let us' := user_space s' in
  USER_HEAP_BASE <= addr <= USER_HEAP_MAX /\ r = addr /\ brk_of s' = addr /\ moved us us' (brk_of s) addr \/
  (~ (USER_HEAP_BASE <= addr <= USER_HEAP_MAX) \/ brk_of s < addr) /\ r = brk_of s /\ brk_of s' = brk_of s /\
  restored us us' (ceil_page (brk_of s)) (ceil_page addr).

Lemma wp_put_brk p s addr (Q : unit -> Sys D N F -> Prop) X :
  at_proc v [] p s -> USER_HEAP_BASE <= addr <= USER_HEAP_MAX ->
  (forall s', at_proc v [] (set_brk addr p) s' -> current_key s' = current_key s -> kern (tty s') = kern (tty s) ->
     user_space s' = user_space s -> brk_of s' = addr -> Q tt s') ->
  wp (put_current_proc (set_brk addr p)) Q X s.
Proof.
  intros Hp Ha HQ. unfold put_current_proc. apply wp_modify.
  pose proof (at_proc_ok _ _ _ _ Hp) as [P1 P2 P3 P4].
  assert (Hp' : at_proc v [] (set_brk addr p) (set_procs (<[current_key s := set_brk addr p]> (PROCESSES s)) s)).
  { eapply (at_proc_put v []); [done|by split|done]. }
  apply HQ; [done..|]. unfold brk_of. destruct Hp' as (_ & _ & ->). done.
Qed.

Definition brk_post s (addr r : Z) s' : Prop :=
  ok v s s' /\ kern (tty s') = kern (tty s) /\
  (heap_ok (user_space s) (brk_of s) -> heap_ok (user_space s') (brk_of s')) /\ brk_result s s' addr r.

(** The break is moved after the pages were. *)
Lemma wp_move_brk p s s2 addr :
  at_proc v [] p s2 -> current_key s2 = current_key s -> kern (tty s2) = kern (tty s) ->
  USER_HEAP_BASE <= addr <= USER_HEAP_MAX ->
  (heap_ok (user_space s) (brk_of s) -> heap_ok (user_space s2) addr) ->
  moved (user_space s) (user_space s2) (brk_of s) addr ->
  wp (put_current_proc (set_brk addr p) ;;! pret addr) (brk_post s addr) no_err' s2.
Proof.
  intros Hp K2 T2 Ha Hh Hm. apply wp_bind, (wp_put_brk p); [done..|].
  intros s3 Hp3 K3 T3 U3 B3. apply wp_ret. split_and!; [eapply ok_at_proc; [done|congruence]|congruence| |].
  - by rewrite U3, B3.
  - left. by rewrite U3, B3.
Qed.

Lemma brk_spec s addr :
  inv v [] s -> ready s ->
  wp (sys_brk addr) (brk_post s addr) no_err' s.
Proof.
  intros I R. unfold sys_brk. apply wp_bind. eapply wp_current_proc_first; [done..|].
  intros p s1 Hp K1 _ Ep T1 Sp1. pose proof (at_proc_ok _ _ _ _ Hp) as [_ _ _ P4].
  assert (Eb : brk_of s = brk p) by (unfold brk_of; by rewrite <- Ep).
  assert (Eb1 : brk_of s1 = brk p) by (unfold brk_of; destruct Hp as (_ & _ & ->); done).
  assert (Eu : user_space s1 = user_space s) by (unfold user_space; by rewrite Sp1, K1).
  assert (USER_HEAP_MAX < 2 ^ 62) by done. assert (0 < USER_HEAP_BASE) by done.
  destruct (negb _) eqn:Ew; zbool.
  { apply wp_ret. split_and!; [by eapply ok_at_proc|done|by rewrite Eu, Eb1, Eb|]. right.
    rewrite Eu, Eb, Eb1. split_and!; [|done..]. left. intros [? ?]. destruct Ew; zbool; lia. }
  set (cp := ceil_page_spec). pose proof (cp (brk p)) as [Ac Bc]. pose proof (cp addr) as [Aa Ba].
  destruct (brk p <? addr) eqn:El; zbool.
  - pose proof (ceil_page_mono (brk p) addr).
    apply wp_bind, wp_page_up; [lia|]. apply wp_bind, wp_page_up; [lia|]. apply wp_bind.
    eapply (wp_map_loop _ (user_space s1)); [done..|lia|unfold pages_between; lia|apply grown_nil| |].
    + intros s2 M2 G. rewrite Eu in G. pose proof (mm_only_at_proc _ _ _ _ M2 Hp) as Hp2.
      destruct (mm_only_key _ _ M2) as (K2 & T2 & _). apply wp_move_brk; [done|congruence..|lia| |]; rewrite Eb.
      * intros Hh. eapply heap_ok_grown; [|done..]. lia.
      * apply moved_grown; [lia..|done].
    + intros s2 M2 [Rp Rb]. rewrite Eu in Rp, Rb. pose proof (mm_only_at_proc _ _ _ _ M2 Hp) as Hp2.
      destruct (mm_only_key _ _ M2) as (K2 & T2 & Q2 & _).
      assert (Eb2 : brk_of s2 = brk p) by (unfold brk_of; destruct Hp2 as (_ & _ & ->); done).
      apply wp_ret. split_and!; [eapply ok_at_proc; [done|congruence]|congruence| |].
      * intros Hh pg Ap Hr. rewrite Rp, Eb2, <- Eb. by apply Hh.
      * right. rewrite Eb2, Eb. split_and!; [by right|done..|]. by split.
  - apply wp_bind.
    assert (Hend : forall s2, mm_only s1 s2 -> shrunk (user_space s1) (user_space s2) (ceil_page addr) (ceil_page (brk p)) ->
      wp (put_current_proc (set_brk addr p) ;;! pret addr) (brk_post s addr) no_err' s2).
    { intros s2 M2 G. rewrite Eu in G. pose proof (mm_only_at_proc _ _ _ _ M2 Hp) as Hp2.
      destruct (mm_only_key _ _ M2) as (K2 & T2 & _). apply wp_move_brk; [done|congruence..|lia| |]; rewrite Eb.
      * intros Hh. eapply heap_ok_shrunk; [|done..]. lia.
      * apply moved_shrunk; [lia..|done]. }
    destruct (addr <? brk p) eqn:El2; zbool.
    + pose proof (ceil_page_mono addr (brk p)).
      apply wp_bind, wp_page_up; [lia|]. apply wp_bind, wp_page_up; [lia|].
      apply wp_unmap_loop; [done..|lia|unfold pages_between; lia|done].
    + apply wp_ret, Hend; [apply mm_only_refl|]. apply shrunk_nil. replace addr with (brk p) by lia. done.
Qed.
End Brk.
