(* ===== verification/FilesCalls.v ===== *)
(** * Sockets, exit, and sequences of file calls

    The remaining calls of [syscall/files.rs], and the calls together: any
    sequence of them, by any processes, keeps the invariant and never panics. *)

From stdpp Require Import base numbers list gmap.
From Stdlib Require Import ZArith Lia.
From S2P Require Import Prelude BlockDev Fat FatLayout FatAlloc FatData FatDir FatVolume FatOps Vfs Abi Uaccess Paging.
From S2P Require Import Vga Machine Context Sched SchedInv SchedOps Console NetStack Files Paths FilesInv FilesOps.
From S2P Require Import Dirents Heap.
#[local] Open Scope Z_scope.

Section Calls.
Context {D N F : Type} `{BL : BlockDevLaws D} `{NL : NetStackLaws N} `{ML : MapperLaws F} (v : Fat32).
Context (rsp_cell : nat -> Z) (resume : Z).
Implicit Types s : Sys D N F.
#[local] Abbreviation inv := (inv v).
#[local] Abbreviation at_proc := (at_proc v).
#[local] Abbreviation ok := (ok v).

(** ** Sockets *)

Lemma wp_net {E A} (m : prog N E A) (P : A -> Prop) held s (Q : A -> Sys D N F -> Prop) (X : E -> Sys D N F -> Prop) :
  wp m (fun a n => P a /\ sockets n = sockets (NET s)) (fun _ n => sockets n = sockets (NET s)) (NET s) -> inv held s ->
  (forall a s', P a -> inv held s' -> same_procs s s' -> Q a s') ->
  (forall e s', inv held s' -> same_procs s s' -> X e s') -> wp (in_net m) Q X s.
Proof.
  intros Hm I HQ HX. unfold in_net. apply wp_zoom. eapply wp_mono; [exact Hm| |]; cbn beta.
  - intros a n [Ha Hn]. apply HQ; [done|by apply inv_set_net|done].
  - intros e n Hn. apply HX; [by apply inv_set_net|done].
Qed.

Lemma wp_net_unit {E A} (m : prog N E A) held s (Q : A -> Sys D N F -> Prop) (X : E -> Sys D N F -> Prop) :
  wp m (fun _ n => sockets n = sockets (NET s)) (fun _ n => sockets n = sockets (NET s)) (NET s) -> inv held s ->
  (forall a s', inv held s' -> same_procs s s' -> Q a s') ->
  (forall e s', inv held s' -> same_procs s s' -> X e s') -> wp (in_net m) Q X s.
Proof.
  intros Hm I HQ HX. eapply (wp_net m (fun _ => True)); [|done|auto|done]. eapply wp_mono; [exact Hm|by split|done].
Qed.

(** A socket that a descriptor of some process stands for is one of the stack. *)
Definition sock_held (h : Z) (k : SockKind) s : Prop :=
  exists e, handle e = h /\ s_kind e = k /\ 0 < cnt_procs (RSock e) (PROCESSES s).

Lemma sock_held_live h k held s : inv held s -> sock_held h k s -> sockets (NET s) !! h = Some k.
Proof.
  intros I (e & <- & <- & He). apply (inv_refs _ _ _ I). exists e. split_and!; [done..|]. unfold total. pose proof (cnt_range (RSock e) held). lia.
Qed.

Lemma sock_held_same h k s s' : sock_held h k s -> same_procs s s' -> sock_held h k s'.
Proof. intros (e & He) [E _]. exists e. by rewrite E. Qed.

Lemma wp_socket_handle held s fd (Q : Z * SockKind -> Sys D N F -> Prop) (X : Z -> Sys D N F -> Prop) :
  inv held s -> ready s ->
  (forall hk p s', at_proc held p s' -> sock_held hk.1 hk.2 s' -> current_key s' = current_key s -> Q hk s') ->
  (forall e p s', at_proc held p s' -> current_key s' = current_key s -> X e s') ->
  wp (socket_handle fd) Q X s.
Proof.
  intros I R HQ HX. unfold socket_handle. apply wp_bind, wp_map_err.
  eapply wp_current_fds_first; [done..|]. intros p s1 Hp K _ _ _ _.
  destruct (get_fd (fds p) fd) as [fd'|] eqn:Ef; [|by eapply HX]. destruct (get_fd_ok _ _ _ _ _ _ Hp Ef) as [_ Hc].
  destruct fd'; try (by eapply HX). apply wp_ret. eapply HQ; [done| |done]. eexists. split_and!; [done..|]. by apply Hc.
Qed.

Lemma wp_parse_sockaddr held s a n (Q : list byte * Z -> Sys D N F -> Prop) (X : Z -> Sys D N F -> Prop) :
  inv held s -> 0 <= a ->
  (forall r s', inv held s' -> same_procs s s' -> Q r s') ->
  (forall e s', inv held s' -> same_procs s s' -> X e s') -> wp (parse_sockaddr_in a n) Q X s.
Proof.
  intros I Ha HQ HX. unfold parse_sockaddr_in. destruct (_ <? _); [by apply HX|].
  apply wp_bind. eapply wp_copy_in; [done..| |done]. intros b s' I' S' _ _.
  destruct (negb _); [by apply HX|]. by apply wp_ret, HQ.
Qed.

(** A socket the stack added, before a descriptor stands for it. *)
Definition opened (h : Z) (k : SockKind) s s' : Prop :=
  exists n, s' = set_net n s /\ sockets (NET s) !! h = None /\ sockets n = <[h := k]> (sockets (NET s)).

Lemma wp_open_socket k (m : prog N Z Z) s (Q : Z * SockKind -> Sys D N F -> Prop) (X : Z -> Sys D N F -> Prop) :
  wp m (fun h n => sockets (NET s) !! h = None /\ sockets n = <[h := k]> (sockets (NET s))) (fun _ n => sockets n = sockets (NET s)) (NET s) ->
  inv [] s -> (forall h s', opened h k s s' -> Q (h, k) s') -> (forall e s', inv [] s' -> same_procs s s' -> X e s') ->
  wp (let! h := in_net m in pret (h, k)) Q X s.
Proof.
  intros Hm I HQ HX. apply wp_bind. unfold in_net. apply wp_zoom. eapply wp_mono; [exact Hm| |]; cbn beta.
  - intros h n [H1 H2]. apply wp_ret, HQ. by exists n.
  - intros e n Hn. apply HX; [by apply inv_set_net|done].
Qed.

Lemma wp_new_arc s s1 h k (Q : nat -> Sys D N F -> Prop) X :
  inv [] s -> opened h k s s1 ->
  (forall r s', inv [Some (FdSocket (mkSocketEnd h k r))] s' -> same_procs s s' -> Q r s') -> wp new_arc Q X s1.
Proof.
  intros I (n & -> & Hh & Hn) HQ. unfold new_arc. apply wp_bind, wp_get, wp_bind, wp_modify, wp_ret.
  apply HQ; [|done]. set (r := next_cell _). apply (inv_new_arc v [] s (mkSocketEnd h k r) n); [done| |done..]. apply next_cell_fresh.
Qed.

Lemma sys_socket_ok s domain ty :
  inv [] s -> ready s -> wp (sys_socket domain ty) (fun _ s' => ok s s') no_err' s.
Proof.
  intros I R. unfold sys_socket. destruct (negb _); [apply wp_ret; by apply ok_refl|].
  apply wp_or_errno.
  assert (Hend : forall h k s1, opened h k s s1 ->
    wp (let! r := new_arc in install_fd (FdSocket (mkSocketEnd h k r))) (fun _ s' => ok s s') no_err' s1).
  { intros h k s1 O1. apply wp_bind. eapply wp_new_arc; [done..|]. intros r s2 I2 S2.
    assert (R2 : ready s2) by (by eapply ready_same).
    eapply wp_install_fd; [done|done|cbn; lia|done| |].
    - intros p l' i s3 _ Hp _ K. eapply ok_at_proc; [done|]. rewrite K. apply S2.
    - intros p s3 Hp K. eapply ok_at_proc; [done|]. rewrite K. apply S2. }
  destruct (_ =? SOCK_DGRAM).
  { eapply wp_open_socket; [apply (sl_udp_socket _ _ (sockets_laws _))|done|intros; by apply Hend|]. intros e s1 I1 S1. by apply ok_same. }
  destruct (_ =? SOCK_STREAM); [|by apply ok_refl].
  eapply wp_open_socket; [apply (sl_tcp_socket _ _ (sockets_laws _))|done|intros; by apply Hend|]. intros e s1 I1 S1. by apply ok_same.
Qed.

(** A call on a socket: from the table on, only memory and the stack change. *)
Lemma socket_call_ok {A} s fd (m : Z * SockKind -> prog (Sys D N F) Z A) (k : A -> Z) :
  inv [] s -> ready s ->
  (forall hk s1, inv [] s1 -> (forall s2, inv [] s2 -> same_procs s1 s2 -> sockets (NET s2) !! hk.1 = Some hk.2) ->
     wp (m hk) (fun _ s' => inv [] s' /\ same_procs s1 s') (fun _ s' => inv [] s' /\ same_procs s1 s') s1) ->
  wp (or_errno (let! hk := socket_handle fd in m hk) (fun a => pret (k a))) (fun _ s' => ok s s') no_err' s.
Proof.
  intros I R Hm. apply wp_or_errno, wp_bind. eapply wp_socket_handle; [done..| |].
  - intros hk p s1 Hp Hh K. eapply wp_mono; [apply Hm; [apply Hp|]| |]; cbn beta.
    + intros s2 I2 S2. eapply sock_held_live; [exact I2|by eapply sock_held_same].
    + intros a s' [I' S']. apply wp_ret. by eapply ok_after.
    + intros e s' [I' S']. by eapply ok_after.
  - intros e p s1 Hp K. by eapply ok_at_proc.
Qed.

Lemma sys_connect_ok s fd a n :
  inv [] s -> ready s -> 0 <= a -> wp (sys_connect fd a n) (fun _ s' => ok s s') no_err' s.
Proof.
  intros I R Ha. unfold sys_connect. apply (socket_call_ok s fd _ (fun _ => 0)); [done..|]. intros [h k] s1 I1 Hlive.
  case_bool_decide; subst; cbn [negb]; [|by split]. apply wp_bind. eapply wp_parse_sockaddr; [done..| |done].
  intros [ip port] s2 I2 S2. eapply wp_net_unit; [apply (sl_tcp_connect _ _ (sockets_laws _)); by apply Hlive|done| |];
    intros; (split; [done|by eapply same_procs_trans]).
Qed.

Lemma sys_bind_ok s fd a n :
  inv [] s -> ready s -> 0 <= a -> wp (sys_bind fd a n) (fun _ s' => ok s s') no_err' s.
Proof.
  intros I R Ha. unfold sys_bind. apply (socket_call_ok s fd _ (fun _ => 0)); [done..|]. intros [h k] s1 I1 Hlive.
  case_bool_decide; subst; cbn [negb]; [|by split]. apply wp_bind. eapply wp_parse_sockaddr; [done..| |done].
  intros [ip port] s2 I2 S2. eapply wp_net_unit; [apply (sl_udp_bind _ _ (sockets_laws _)); by apply Hlive|done| |];
    intros; (split; [done|by eapply same_procs_trans]).
Qed.

Lemma sys_sendto_ok s fd buf len a n :
  inv [] s -> ready s -> 0 <= buf -> 0 <= len -> 0 <= a ->
  wp (sys_sendto fd buf len a n) (fun _ s' => ok s s') no_err' s.
Proof.
  intros I R Hb Hl Ha. unfold sys_sendto. apply (socket_call_ok s fd _ (fun r => r)); [done..|]. intros [h []] s1 I1 Hlive.
  - destruct (_ <? len); [by split|]. apply wp_bind. eapply wp_parse_sockaddr; [done..| |done].
    intros [ip port] s2 I2 S2. apply wp_bind. eapply wp_copy_in; [done..| |].
    2:{ intros e s3 I3 S3. split; [done|by eapply same_procs_trans]. }
    intros data s3 I3 S3 _ _. assert (S13 : same_procs s1 s3) by (by eapply same_procs_trans).
    eapply wp_net_unit; [apply (sl_udp_sendto _ _ (sockets_laws _)); by apply Hlive|done| |]; intros; (split; [done|by eapply same_procs_trans]).
  - apply wp_bind. eapply wp_copy_in; [done|done|unfold SOCK_IO_MAX; lia| |done].
    intros data s3 I3 S3 _ _. eapply wp_net_unit; [apply (sl_tcp_send _ _ (sockets_laws _)); by apply Hlive|done| |];
      intros; (split; [done|by eapply same_procs_trans]).
Qed.

Lemma wp_write_sender held s ip port a n :
  inv held s -> 0 <= a -> 0 <= n ->
  wp (write_sender ip port a n) (fun _ s' => inv held s' /\ same_procs s s') (fun _ s' => inv held s' /\ same_procs s s') s.
Proof.
  intros I Ha Hn. unfold write_sender. apply wp_bind. eapply wp_copy_in; [done|done|done| |done].
  intros b s1 I1 S1 _ _. cbv zeta. apply wp_bind.
  assert (Hlast : forall s2, inv held s2 -> same_procs s s2 ->
    wp (in_user (copy_to_user n (to_le 4 (Z.of_nat SOCKADDR_IN_LEN))))
      (fun _ s' => inv held s' /\ same_procs s s') (fun _ s' => inv held s' /\ same_procs s s') s2).
  { intros s2 I2 S2. eapply wp_copy_out; [done..| |]; intros; (split; [done|by eapply same_procs_trans]). }
  destruct (0 <? _)%nat; [|apply wp_ret; by apply Hlast].
  eapply wp_copy_out; [done..| |].
  - intros s2 I2 S2. apply Hlast; [done|by eapply same_procs_trans].
  - intros e s2 I2 S2. split; [done|by eapply same_procs_trans].
Qed.

Lemma sys_recvfrom_ok s fd buf len a n :
  inv [] s -> ready s -> 0 <= buf -> 0 <= a -> 0 <= n ->
  wp (sys_recvfrom fd buf len a n) (fun _ s' => ok s s') no_err' s.
Proof.
  intros I R Hb Ha Hn. unfold sys_recvfrom. apply (socket_call_ok s fd _ (fun r => r)); [done..|]. intros [h k] s1 I1 Hlive.
  cbv zeta. set (cap := Z.to_nat _). apply wp_bind.
  assert (Hend : forall data ip port s2, (length data <= cap)%nat -> inv [] s2 -> same_procs s1 s2 ->
    wp (passert (length data <=? cap)%nat ;;! in_user (copy_to_user buf data) ;;!
        (if bool_decide (k = Udp) && negb (a =? 0) && negb (n =? 0) then write_sender ip port a n else pret tt) ;;!
        pret (Z.of_nat (length data)))
      (fun _ s' => inv [] s' /\ same_procs s1 s') (fun _ s' => inv [] s' /\ same_procs s1 s') s2).
  { intros data ip port s2 Hlen I2 S2. apply wp_bind, wp_assert; [by apply Nat.leb_le|].
    apply wp_bind. eapply wp_copy_out; [done..| |].
    2:{ intros e s3 I3 S3. split; [done|by eapply same_procs_trans]. }
    intros s3 I3 S3. assert (S13 : same_procs s1 s3) by (by eapply same_procs_trans).
    apply wp_bind. destruct (_ && _); [|by apply wp_ret, wp_ret].
    eapply wp_mono; [by apply (wp_write_sender [])| |]; cbn beta.
    - intros [] s4 [I4 S4]. apply wp_ret. split; [done|by eapply same_procs_trans].
    - intros e s4 [I4 S4]. split; [done|by eapply same_procs_trans]. }
  destruct k.
  - eapply (wp_net _ (fun r => (length r.1.1 <= cap)%nat)); [apply (sl_udp_recvfrom _ _ (sockets_laws _)); by apply Hlive|done| |].
    + intros [[data ip] port] s2 Hlen I2 S2. by apply Hend.
    + intros e s2 I2 S2. done.
  - apply wp_bind. eapply (wp_net _ (fun r => (length r <= cap)%nat)); [apply (sl_tcp_recv _ _ (sockets_laws _)); by apply Hlive|done| |].
    + intros data s2 Hlen I2 S2. apply wp_ret. by apply Hend.
    + intros e s2 I2 S2. done.
Qed.

(** ** Exit *)

(** Programs that leave the disk alone. *)
Definition keeps_disk {E A} (m : prog (Sys D N F) E A) : Prop :=
  forall s r s', m s = (r, s') -> DISK s' = DISK s.

Lemma keeps_bind {E A B} (m : prog (Sys D N F) E A) (f : A -> prog (Sys D N F) E B) :
  keeps_disk m -> (forall a, keeps_disk (f a)) -> keeps_disk (pbind m f).
Proof.
  intros Hm Hf s r s'. unfold pbind. destruct (m s) as [[a|e| |] s1] eqn:E1; apply Hm in E1; try (by intros [= <- <-]).
  intros E2%Hf. congruence.
Qed.

Lemma keeps_ret {E A} (a : A) : keeps_disk (pret a : prog (Sys D N F) E A).
Proof. by intros s r s' [= <- <-]. Qed.

Lemma keeps_unwrap {E A} (o : option A) : keeps_disk (punwrap o : prog (Sys D N F) E A).
Proof. intros s r s'. by destruct o; intros [= <- <-]. Qed.

Lemma keeps_modify {E} (f : Sys D N F -> Sys D N F) :
  (forall s, DISK (f s) = DISK s) -> keeps_disk (pmodify f : prog (Sys D N F) E unit).
Proof. intros Hf s r s' [= <- <-]. apply Hf. Qed.

Lemma keeps_get_unwrap {E A} (f : Sys D N F -> option A) :
  keeps_disk (let! s := pget in punwrap (f s) : prog (Sys D N F) E A).
Proof. apply keeps_bind; [by intros s r s' [= <- <-]|intros; apply keeps_unwrap]. Qed.

Lemma keeps_kernel {A} (m : kprog A) : keeps_disk (in_kernel m).
Proof. intros s r s'. unfold in_kernel, pzoom. destruct (m _). by intros [= <- <-]. Qed.

Lemma keeps_net {E A} (m : prog N E A) : keeps_disk (in_net m).
Proof. intros s r s'. unfold in_net, pzoom. destruct (m _). by intros [= <- <-]. Qed.

Lemma drop_fd_disk fd : keeps_disk (drop_fd fd).
Proof.
  destruct fd; cbn [drop_fd]; try apply keeps_ret; (apply keeps_bind; [apply keeps_get_unwrap|]); intros x.
  1,2: apply keeps_bind; [apply keeps_unwrap|]; intros n; apply keeps_bind; [by apply keeps_modify|]; intros _;
    destruct (n =? 0); [apply keeps_kernel|apply keeps_ret].
  apply keeps_bind; [|intros _; by apply keeps_modify].
  destruct (x =? 1); [apply keeps_net|apply keeps_ret].
Qed.

Lemma wp_drop_fd_disk held s fd (Q : unit -> Sys D N F -> Prop) X :
  inv (Some fd :: held) s -> few s -> (length held <= 64)%nat ->
  (forall s', inv held s' -> same_procs s s' -> DISK s' = DISK s -> Q tt s') -> wp (drop_fd fd) Q X s.
Proof.
  intros I Hf Hl HQ. assert (W : wp (drop_fd fd) (fun _ s' => inv held s' /\ same_procs s s') no_err' s).
  { by eapply wp_drop_fd. }
  unfold wp in *. destruct (drop_fd fd s) as [[[]|e| |] s'] eqn:E; try done.
  destruct W as [I' S']. apply HQ; [done..|]. by eapply drop_fd_disk.
Qed.

(** Every file of the table that has unwritten data can be written. *)
Definition all_flushable s : Prop :=
  Forall (flushable v s) (fds (default ProcState_default (PROCESSES s !! current_key s))).

Lemma release_fold l : forall s,
  inv l s -> few s -> (length l <= MAX_FDS)%nat -> Forall slot_ok l -> Forall (flushable v s) l ->
  wp (pfold (fun _ o => release_one o) l tt) (fun _ s' => inv [] s' /\ same_procs s s') no_err' s.
Proof.
  induction l as [|o l IH]; intros s I Hf Hl Hs Hfl; cbn [pfold]; [by apply wp_ret|].
  apply Forall_cons in Hs as [Ho Hs]. apply Forall_cons in Hfl as [Hfo Hfl]. cbn [length] in Hl.
  apply wp_bind. set (k := pfold _ l) in *. unfold release_one. apply wp_bind. unfold MAX_FDS in Hl.
  assert (Hrest : forall s1, inv (o :: l) s1 -> same_procs s s1 ->
    (forall path, writable v (disk (DISK s)) path -> writable v (disk (DISK s1)) path) ->
    wp (drop_slot o) (fun a s2 => wp (k a) (fun _ s' => inv [] s' /\ same_procs s s') no_err' s2) no_err' s1).
  { intros s1 I1 S1 Hw. assert (Hf1 : few s1) by (unfold few in *; by rewrite (proj1 S1)).
    assert (Hfl1 : Forall (flushable v s1) l).
    { eapply Forall_impl; [exact Hfl|]. intros [[]|]; cbn; auto. }
    destruct o as [fd|]; cbn [drop_slot].
    - eapply wp_drop_fd_disk; [done..|lia|]. intros s2 I2 S2 D2.
      eapply wp_mono; [apply IH| |done]; [done|unfold few in *; by rewrite (proj1 S2)|unfold MAX_FDS; lia|done| |].
      + eapply Forall_impl; [exact Hfl1|]. intros [[]|]; cbn; rewrite ?D2; auto.
      + intros [] s' [I' S']. split; [done|]. eapply same_procs_trans; [exact S1|by eapply same_procs_trans].
    - apply wp_ret. apply inv_held_None in I1. eapply wp_mono; [apply IH; [done..|unfold MAX_FDS; lia|done|done]| |done].
      intros [] s' [I' S']. split; [done|by eapply same_procs_trans]. }
  destruct o as [[| | |f| | |]|]; try (by apply wp_ret, Hrest).
  destruct (f_writable f && f_dirty f) eqn:Ed; [|by apply wp_ret, Hrest]. zbool.
  apply wp_bind. eapply wp_disk_write; [done|by apply Hfo|by apply dirty_short|].
  intros r d' I1 Hw. by apply wp_ret, Hrest.
Qed.

Lemma release_ok s :
  inv [] s -> ready s -> all_flushable s -> wp release_current_process_fds (fun _ s' => ok s s') no_err' s.
Proof.
  intros I R Hfl. unfold release_current_process_fds. apply wp_bind, wp_get. unfold all_flushable in Hfl.
  destruct (PROCESSES s !! current_key s) as [p|] eqn:Hp; [|by apply wp_ret, ok_refl].
  assert (Hat : at_proc [] p s) by (split_and!; [done|apply R|done]).
  pose proof (at_proc_ok _ _ _ _ Hat) as [P1 P2 P3 P4]. cbn in Hfl.
  assert (Hq : at_proc (fds p) (set_fds [] p) (set_procs (<[current_key s := set_fds [] p]> (PROCESSES s)) s)).
  { eapply (at_proc_put v []); [done|split; cbn; [unfold MAX_FDS; lia|done..]|].
    intros r. cbn [fds set_fds]. rewrite !cnt_nil. lia. }
  apply wp_bind, wp_put. set (s1 := set_procs _ s) in *.
  eapply wp_mono; [apply release_fold; [apply Hq|apply Hq|done|done|exact Hfl]| |done].
  intros [] s' [I' S']. by eapply ok_after.
Qed.

(** ** All calls *)

Inductive FileCall : Type :=
| FOpen (path flags : Z) | FClose (fd : Z) | FRead (fd buf count : Z) | FWrite (fd buf count rsp : Z)
| FReadv (fd iov cnt : Z) | FWritev (fd iov cnt rsp : Z) | FLseek (fd off whence : Z)
| FDup2 (old new : Z) | FFcntl (fd cmd arg : Z) | FPipe (fds : Z)
| FStat (path buf : Z) | FFstat (fd buf : Z) | FGetdents (fd buf count : Z)
| FMkdir (path : Z) | FRmdir (path : Z) | FUnlink (path : Z) | FChdir (path : Z) | FGetcwd (buf size : Z)
| FBrk (addr : Z)
| FSocket (domain ty : Z) | FConnect (fd a n : Z) | FBind (fd a n : Z)
| FSendto (fd buf len a n : Z) | FRecvfrom (fd buf len a n : Z)
| FRelease
| FResume (p : Pending).

Definition exec_file (c : FileCall) : prog (Sys D N F) Empty_set (Z + Pending) :=
  match c with
  | FOpen path flags => settle (sys_open path flags)
  | FClose fd => settle (sys_close fd)
  | FRead fd buf count => sys_read rsp_cell resume fd buf count
  | FWrite fd buf count rsp => settle (sys_write fd buf count rsp)
  | FReadv fd iov cnt => sys_readv rsp_cell resume fd iov cnt
  | FWritev fd iov cnt rsp => settle (sys_writev fd iov cnt rsp)
  | FLseek fd off whence => settle (sys_lseek fd off whence)
  | FDup2 old new => settle (sys_dup2 old new)
  | FFcntl fd cmd arg => settle (sys_fcntl fd cmd arg)
  | FPipe fds => settle (sys_pipe fds)
  | FStat path buf => settle (sys_stat path buf)
  | FFstat fd buf => settle (sys_fstat fd buf)
  | FGetdents fd buf count => settle (sys_getdents64 fd buf count)
  | FMkdir path => settle (sys_mkdir path)
  | FRmdir path => settle (sys_rmdir path)
  | FUnlink path => settle (sys_unlink path)
  | FChdir path => settle (sys_chdir path)
  | FGetcwd buf size => settle (sys_getcwd buf size)
  | FBrk addr => settle (sys_brk addr)
  | FSocket domain ty => settle (sys_socket domain ty)
  | FConnect fd a n => settle (sys_connect fd a n)
  | FBind fd a n => settle (sys_bind fd a n)
  | FSendto fd buf len a n => settle (sys_sendto fd buf len a n)
  | FRecvfrom fd buf len a n => settle (sys_recvfrom fd buf len a n)
  | FRelease => settle (release_current_process_fds ;;! pret 0)
  | FResume p => resume_read rsp_cell resume p
  end.

(** The register arguments of a call are unsigned. *)
Definition arguments (c : FileCall) : list Z :=
  match c with
  | FOpen a _ | FPipe a | FMkdir a | FRmdir a | FUnlink a | FChdir a | FGetcwd a _ | FFstat _ a
  | FDup2 _ a | FFcntl _ _ a | FConnect _ a _ | FBind _ a _ | FReadv _ a _ | FWritev _ a _ _ => [a]
  | FRead _ a b | FWrite _ a b _ | FStat a b | FGetdents _ a b => [a; b]
  | FSendto _ a b c _ | FRecvfrom _ a _ b c => [a; b; c]
  | FClose _ | FLseek _ _ _ | FBrk _ | FSocket _ _ | FRelease | FResume _ => []
  end.

(** What a call relies on: names that fit the short-name scheme where a name is
    created, writes that the heap can buffer, directories read at a record
    boundary, and files closed while their name is not a directory. *)
Definition relies s (c : FileCall) : Prop :=
  match c with
  | FOpen ptr _ | FMkdir ptr => forall path, arg_path s ptr path -> nameable v (disk (DISK s)) path
  | FClose fd => flushable v s (fd_at s fd)
  | FRead _ _ _ | FReadv _ _ _ => user_current (kern (tty s))
  | FWrite fd _ count _ => write_ok s fd count
  | FWritev fd iov cnt _ => writev_fits s fd iov (seqZ 0 cnt)
  | FGetdents fd _ _ =>
      forall f, fd_at s fd = Some (FdFile f) -> f_is_dir f = true -> exists rs, at_records f rs
  | FRelease => all_flushable s
  | FResume p => user_current (kern (tty s)) /\ pending_ok s p
  | _ => True
  end.

Definition allowed_file s (c : FileCall) : Prop :=
  ready s /\ Forall (fun a => 0 <= a) (arguments c) /\ relies s c.

(** The state after a call: the process goes on, or its thread was blocked. *)
Definition call_outcome s (r : Z + Pending) s' : Prop :=
  match r with inl _ => ok s s' | inr _ => inv [] s' end.

Lemma outcome_settle s (m : prog (Sys D N F) Empty_set Z) :
  wp m (fun _ s' => ok s s') no_err' s -> wp (settle m) (call_outcome s) no_err' s.
Proof. intros Hm. apply wp_bind. eapply wp_mono; [exact Hm| |done]. intros r s' O. by apply wp_ret. Qed.

Lemma outcome_read s (m : prog (Sys D N F) Empty_set (Z + Pending)) :
  wp m (read_outcome v s) no_err' s -> wp m (call_outcome s) no_err' s.
Proof. intros Hm. eapply wp_mono; [exact Hm| |done]. intros [r|r] s' O; [apply O|done]. Qed.

Lemma getdents_ok s fd buf count :
  inv [] s -> ready s -> 0 <= buf -> 0 <= count ->
  (forall f, fd_at s fd = Some (FdFile f) -> f_is_dir f = true -> exists rs, at_records f rs) ->
  wp (sys_getdents64 fd buf count) (fun _ s' => ok s s') no_err' s.
Proof.
  intros I R Hb Hc Hd. destruct (fd_at s fd) as [e|] eqn:Ee; unfold fd_at in Ee.
  - destruct e as [| | |f| | |]; try (unfold sys_getdents64; apply wp_bind; eapply wp_current_fds_first; [done..|];
      intros p s1 Hp K _ Ep _ _; rewrite <- Ep in Ee; rewrite Ee; apply wp_ret; by eapply ok_at_proc).
    destruct (PROCESSES s !! current_key s) as [p|] eqn:Hp.
    2:{ apply get_fd_Some in Ee as [_ Ee]. cbn in Ee. destruct (Z.to_nat fd) as [|[|[|]]]; done. }
    assert (Hat : at_proc [] p s) by (split_and!; [done|apply R|done]). cbn in Ee.
    destruct (f_is_dir f) eqn:Edir.
    + destruct (Hd f) as [rs Hrs]; [done..|]. eapply wp_mono; [by eapply getdents_spec| |done].
      by intros r s' [? _].
    + unfold sys_getdents64. apply wp_bind. eapply wp_current_fds; [done|]. rewrite Ee, Edir. apply wp_ret.
      by eapply ok_at_proc.
  - unfold sys_getdents64. apply wp_bind. eapply wp_current_fds_first; [done..|].
    intros p s1 Hp K _ Ep _ _. rewrite <- Ep in Ee. rewrite Ee. apply wp_ret. by eapply ok_at_proc.
Qed.

Lemma exec_file_ok c s :
  inv [] s -> allowed_file s c -> wp (exec_file c) (call_outcome s) no_err' s.
Proof.
  intros I (R & Ha & Hr).
  destruct c; cbn [exec_file arguments relies] in *; rewrite ?Forall_cons in Ha; destruct_and? Ha;
    try apply outcome_settle; try apply outcome_read.
  - by apply sys_open_ok.
  - by apply sys_close_ok.
  - by apply sys_read_ok.
  - eapply wp_mono; [by apply sys_write_ok| |done]. by intros ? ? [? _].
  - by apply sys_readv_ok.
  - by apply sys_writev_ok.
  - by apply sys_lseek_ok.
  - by apply sys_dup2_ok.
  - by apply sys_fcntl_ok.
  - by apply sys_pipe_ok.
  - by apply sys_stat_ok.
  - by apply sys_fstat_ok.
  - by apply getdents_ok.
  - by apply sys_mkdir_ok.
  - by apply sys_rmdir_ok.
  - by apply sys_unlink_ok.
  - by apply sys_chdir_ok.
  - by apply sys_getcwd_ok.
  - eapply wp_mono; [by apply brk_spec| |done]. by intros ? ? [? _].
  - by apply sys_socket_ok.
  - by apply sys_connect_ok.
  - by apply sys_bind_ok.
  - by apply sys_sendto_ok.
  - by apply sys_recvfrom_ok.
  - apply wp_bind. eapply wp_mono; [by apply release_ok| |done]. intros [] s' O. by apply wp_ret.
  - destruct Hr. by apply resume_read_ok.
Qed.

(** ** The running system *)

Definition in_tty {A} (m : prog Tty Empty_set A) : prog (Sys D N F) Empty_set A := pzoom tty set_tty m.

(** The system after boot, with a mounted volume. *)
Definition initial s : Prop :=
  PROCESSES s = ∅ /\ PIPES s = ∅ /\ ARCS s = ∅ /\ sockets (NET s) = ∅ /\
  kernel_ok (kern (tty s)) /\ screen_ok (screen (tty s)) /\ exists O, volume_ok v (disk (DISK s)) O.

(** What can happen next: a file call of the running process, a call of the
    scheduler (a timer tick, a spawn, a signal, ...), a key, a change of memory
    by the running program, a change of its registers, and the registry calls of fork, exec and the
    reaper. *)
Inductive sys_step : Sys D N F -> Sys D N F -> Prop :=
| step_file c s r s' : allowed_file s c -> exec_file c s = (Ret r, s') -> sys_step s s'
| step_sched c s s' :
    allowed c (kern (tty s)) -> in_kernel (exec_call rsp_cell resume c) s = (Ret tt, s') -> sys_step s s'
| step_key c s s' : in_tty (feed_char c) s = (Ret tt, s') -> sys_step s s'
| step_user us s : sys_step s (upd_user us s)
| step_run m s : sys_step s (set_tty (set_kern (set_cpu m (kern (tty s))) (tty s)) s)
| step_fork parent child s s' : room s -> fork_fds parent child s = (Ret tt, s') -> sys_step s s'
| step_rekey old new s s' : room s -> rekey_process old new s = (Ret tt, s') -> sys_step s s'
| step_forget key s s' : few s -> forget_process key s = (Ret tt, s') -> sys_step s s'.

Definition sys_reachable s : Prop := exists s0, initial s0 /\ rtc sys_step s0 s.

Lemma initial_inv s : initial s -> inv [] s.
Proof.
  intros (Hp & Hq & Ha & Hn & Hk & Hs & Hd). split; [| |done..].
  - assert (Ht : forall r, total [] s r = 0) by (intros r; unfold total, cnt_procs; by rewrite Hp).
    split; unfold strong; rewrite ?Hq, ?Ha, ?Hn; intros *; rewrite ?Ht; rewrite ?lookup_empty; try done.
    split; [done|]. intros (e & _ & _ & He). by rewrite Ht in He.
  - intros k p. by rewrite Hp, lookup_empty.
Qed.

Lemma feed_char_kern c t t' :
  feed_char c t = (Ret tt, t') -> kern t' = kern t \/ wake_all Stdin (kern t) = (Ret tt, kern t').
Proof.
  unfold feed_char. destruct (negb _); [intros [= <-]; by left|].
  unfold pbind at 1, pget. cbv beta iota.
  set (e := match CONSOLE t with Some con => _ | None => _ end).
  assert (He : exists echo c', e t = (Ret echo, set_console c' t)).
  { unfold e. destruct (CONSOLE t) as [con|] eqn:Ec.
    - destruct (feed_line (z2b c) con) as [con' echo]. by exists echo, (Some con').
    - exists Nothing, None. rewrite <- Ec. by destruct t. }
  destruct He as (echo & c' & He). unfold pbind at 1. rewrite He. unfold pbind at 1.
  set (w := match echo with EchoChar b => _ | _ => _ end).
  destruct (w (set_console c' t)) as [[[]|er| |] t1] eqn:Ew; try done.
  assert (Hk : kern t1 = kern t).
  { unfold w in Ew. destruct echo; unfold pzoom, pret in Ew; repeat case_match; by simplify_eq. }
  destruct echo; try (intros [= <-]; by left).
  unfold pzoom, wake_stdin_readers. rewrite Hk. destruct (wake_all Stdin (kern t)) as [[[]|er| |] k]; try done.
  intros [= <-]. by right.
Qed.

Lemma feed_char_inv c s s' : inv [] s -> in_tty (feed_char c) s = (Ret tt, s') -> inv [] s'.
Proof.
  intros [H1 H2 H3 H4 H5]. unfold in_tty, pzoom. destruct (feed_char c (tty s)) as [[[]|e| |] t] eqn:E; try done.
  intros [= <-]. pose proof (wp_ret_inv _ _ _ _ _ _ (wp_feed_char c (tty s) H4) E) as [Hs _].
  split; cbn [tty set_tty]; [by eapply refs_ok_ext|done| |done|done].
  destruct (feed_char_kern _ _ _ E) as [->|Ew]; [done|].
  exact (wp_ret_inv _ _ _ _ _ _ (wake_ok Stdin _ H3 ltac:(done)) Ew).
Qed.

Lemma sys_step_inv s s' : inv [] s -> sys_step s s' -> inv [] s'.
Proof.
  intros I. destruct 1 as [c s r s' Ha E|c s s' Ha E|c s s' E|us s|m s|p q s s' Hr E|p q s s' Hr E|k s s' Hf E].
  - pose proof (wp_ret_inv _ _ _ _ _ _ (exec_file_ok c s I Ha) E) as O. destruct r; [apply O|done].
  - assert (W : wp (in_kernel (exec_call rsp_cell resume c)) (fun _ => inv []) no_err' s).
    { by eapply (wp_block v rsp_cell resume c). }
    exact (wp_ret_inv _ _ _ _ _ _ W E).
  - by eapply feed_char_inv.
  - by apply inv_upd_user.
  - destruct I as [H1 H2 H3 H4 H5]. split; [by eapply refs_ok_ext|done| |done|done]. by apply (kernel_ok_ext (kern (tty s))).
  - by eapply (wp_ret_inv _ _ _ _ _ _ (fork_fds_ok v s p q I Hr)).
  - by eapply (wp_ret_inv _ _ _ _ _ _ (rekey_process_ok v s p q I Hr)).
  - by eapply (wp_ret_inv _ _ _ _ _ _ (forget_process_ok v s k I Hf)).
Qed.

Lemma sys_reachable_inv s : sys_reachable s -> inv [] s.
Proof.
  intros (s0 & H0 & Hr). apply initial_inv in H0. induction Hr as [|s1 s2 s3 Hs _ IH]; [done|].
  apply IH. by eapply sys_step_inv.
Qed.
End Calls.
