(* ===== verification/FilesTheorems.v ===== *)
(** * What the file system calls promise

    The theorems about [syscall/files.rs] as a whole: safety of every sequence
    of calls, persistence of closed files, listings, pipes and the heap. *)

From stdpp Require Import base numbers list gmap.
From Stdlib Require Import ZArith Lia.
From S2P Require Import Prelude BlockDev Fat FatLayout FatAlloc FatData FatDir FatVolume FatOps Vfs FsTheorems Abi.
From S2P Require Import Uaccess Paging Vga Machine Context Sched SchedInv SchedOps SchedTheorems Console NetStack Files.
From S2P Require Import Paths FilesInv FilesOps Dirents Heap FilesCalls.
#[local] Open Scope Z_scope.

(** ** Arguments *)

Lemma cstr_nul us p raw : cstr_at us p raw -> byte_at us (p + Z.of_nat (length raw)) = x00.
Proof.
  intros (_ & _ & _ & Hr). apply (f_equal (fun l => l !! length raw)) in Hr.
  rewrite lookup_read_bytes in Hr by lia. rewrite lookup_app_r, Nat.sub_diag in Hr by lia. by injection Hr.
Qed.

Lemma cstr_shorter us p raw n : cstr_at us p raw -> no_nul us p n -> (n <= length raw)%nat.
Proof.
  intros Hc Hn. destruct (decide (n <= length raw)%nat); [done|]. exfalso.
  destruct (Hn (p + Z.of_nat (length raw))) as [_ H]; [lia|]. by apply H, cstr_nul.
Qed.

(** The string at a pointer is the one that is read. *)
Lemma read_cstr us p raw : 0 <= p -> cstr_at us p raw -> read_user_cstr p us = (Ret raw, us).
Proof.
  intros Hp Hc. pose proof (wp_read_user_cstr us p Hp) as W. unfold wp in W.
  destruct (read_user_cstr p us) as [[raw'|e| |] us']; try done.
  - destruct W as [-> Hc']. assert (El : length raw' = length raw).
    { apply Nat.le_antisymm; [apply (cstr_shorter us p raw)|apply (cstr_shorter us p raw')]; try done; apply Hc' || apply Hc. }
    destruct Hc as (_ & _ & _ & Hr), Hc' as (_ & _ & _ & Hr'). rewrite El, Hr in Hr'.
    by apply app_inj_tail in Hr' as [-> _].
  - destruct W as [-> [[_ Hn]|[_ (n & Hlt & Hn & Hf)]]]; exfalso.
    + apply (cstr_shorter us p raw) in Hn; [|done]. destruct Hc as [Hl _]. lia.
    + pose proof (cstr_shorter us p raw n Hc Hn) as Hle. apply Hf. destruct Hc as (_ & Hno & Hrd & _).
      destruct (decide (n = length raw)) as [->|]; [done|]. apply Hno. lia.
Qed.

Section Persist.
Context {D N F : Type} `{BL : BlockDevLaws D} `{NL : NetStackLaws N} `{ML : MapperLaws F} (v : Fat32).
Implicit Types s : Sys D N F.

(** The volume holds a file with these bytes at the path. *)
Definition holds_file (d : D) (path data : list byte) : Prop :=
  a_read (view v (disk d)) (root_cluster v) path = inr data.

(** The descriptor of a state that has it, without the lazy default table. *)
Lemma file_proc s fd f :
  inv v [] s -> ready s -> fd_at s fd = Some (FdFile f) ->
  exists p, at_proc v [] p s /\ get_fd (fds p) fd = Some (FdFile f).
Proof.
  intros I R Ee. unfold fd_at in Ee. destruct (PROCESSES s !! current_key s) as [p|] eqn:Hp.
  - exists p. split; [|done]. split_and!; [done|apply R|done].
  - exfalso. apply get_fd_Some in Ee as [_ Ee]. cbn in Ee. destruct (Z.to_nat fd) as [|[|[|]]]; done.
Qed.

Lemma get_fd_clear l fd : get_fd (set_slot l fd None) fd = None.
Proof.
  destruct (get_fd l fd) as [e|] eqn:E; [by eapply get_fd_set|]. unfold get_fd, set_slot in *. rewrite length_insert.
  destruct ((0 <=? fd) && (fd <? Z.of_nat (length l))) eqn:Hr; [|done]. zbool. by rewrite list_lookup_insert_eq by lia.
Qed.

(** The outcomes of closing a file with unwritten data. *)
Definition close_result s s' (f : OpenFile) (r : Z) : Prop :=
  r = 0 /\ holds_file (DISK s') (f_name f) (f_data f) \/
  (exists e, r = - fat_errno e /\ (fault v (DISK s) e \/ write_error v (disk (DISK s)) (f_name f) e)).

Lemma close_spec s fd f :
  inv v [] s -> ready s -> fd_at s fd = Some (FdFile f) -> f_writable f = true -> f_dirty f = true ->
  writable v (disk (DISK s)) (f_name f) ->
  wp (sys_close fd) (fun r s' => ok v s s' /\ fd_at s' fd = None /\ close_result s s' f r) no_err' s.
Proof.
  intros I R Hfd Hw Hd Hwr. destruct (file_proc _ _ _ I R Hfd) as (p & Hp & Ee).
  unfold sys_close. apply wp_bind. eapply wp_current_fds; [done|]. rewrite Ee.
  pose proof (get_fd_ok _ _ _ _ _ _ Hp Ee) as [Hs _]. pose proof (at_proc_ok _ _ _ _ Hp) as [P1 P2 P3 P4].
  apply get_fd_Some in Ee as [_ He]. destruct (set_fd_ok _ fd _ None He P2) as (L1 & L2 & L3); [done|].
  apply wp_bind. eapply (wp_put_current_fds v [] []); [done|by rewrite L1|done| |].
  { intros r. rewrite L3, one_None, one_no_ref by done. lia. }
  intros s2 Hp2 K2 D2 _. rewrite Hw, Hd. cbn [andb]. apply wp_bind, wp_try, wp_zoom. rewrite D2.
  destruct (inv_disk _ _ _ I) as [O Hok].
  assert (Hend : forall d', (exists O', volume_ok v (disk d') O') ->
    ok v s (set_disk d' s2) /\ fd_at (set_disk d' s2) fd = None).
  { intros d' Hv'. assert (I3 : inv v [] (set_disk d' s2)) by (by apply inv_set_disk; [apply Hp2|]). split.
    - by eapply (ok_after v [] _ s s2).
    - transitivity (fd_at s2 fd); [done|]. rewrite (fd_at_proc v _ _ _ _ Hp2). apply get_fd_clear. }
  eapply wp_mono; [by apply (vfs_write_spec v (DISK s) O); [|apply dirty_short|]| |]; cbn beta.
  - intros [] d' (c & name & Hr & Hb). apply wp_ret. destruct Hb as (O' & Hok' & _ & Hv & _).
    destruct (Hend d') as [H1 H2]; [by exists O'|]. split_and!; [done..|]. left. split; [done|].
    unfold holds_file. cbn [DISK set_disk].
    rewrite (read_after_set v (disk (DISK s)) (disk d') O c (short_name_83 name) (f_data f) (f_name f) c name);
      [by rewrite decide_True|done|done| |done].
    intros id. by apply Hwr.
  - intros e d' [Hu He']. apply wp_ret. destruct (Hend d') as [H1 H2].
    { destruct Hu as (Hu & _). by exists O. }
    split_and!; [done..|]. right. by exists e.
Qed.

Lemma wp_path_arg_at s ptr raw (Q : list byte -> Sys D N F -> Prop) (X : Z -> Sys D N F -> Prop) :
  inv v [] s -> ready s -> 0 <= ptr -> cstr_at (user_space s) ptr raw -> utf8_ok raw = true -> raw <> [] ->
  (forall s', ok v s s' -> DISK s' = DISK s -> Q (resolve_from (cwd_of s) raw) s') -> wp (path_arg ptr) Q X s.
Proof.
  intros I R Hp Hc Hu Hn HQ. unfold path_arg. apply wp_bind, wp_in_user. unfold wp at 1.
  rewrite (read_cstr _ _ _ Hp Hc), Hu. set (s1 := upd_user (user_space s) s).
  assert (O1 : ok v s s1) by (by apply ok_reload). destruct raw as [|b raw]; [done|].
  apply wp_map_err. eapply (wp_resolve_path v); [apply O1|apply O1|]. intros s' O' Hd.
  apply HQ; [eapply ok_from; [exact O'|apply O1]|done].
Qed.

(** Opening a file for reading gives the bytes the volume holds. *)
Definition open_result s s' (path data : list byte) (r : Z) : Prop :=
  0 <= r /\ fd_at s' r = Some (FdFile (mkOpenFile path data 0 false false false)) \/
  r = - EMFILE \/ exists e, fault v (DISK s) e /\ r = - fat_errno e.

Lemma holds_file_path d path data :
  holds_file d path data ->
  trim_matches x2f path <> [] /\ a_find (view v (disk d)) (root_cluster v) path = inr (AFile data).
Proof.
  unfold holds_file, a_read. intros Hh. split.
  - intros E. unfold a_find, path_components in Hh. by rewrite E in Hh.
  - by destruct (a_find _ _ _) as [|[]]; simplify_eq.
Qed.

Lemma open_spec s ptr raw data :
  inv v [] s -> ready s -> 0 <= ptr -> cstr_at (user_space s) ptr raw -> utf8_ok raw = true -> raw <> [] ->
  holds_file (DISK s) (resolve_from (cwd_of s) raw) data ->
  wp (sys_open ptr O_RDONLY)
    (fun r s' => ok v s s' /\ open_result s s' (resolve_from (cwd_of s) raw) data r) no_err' s.
Proof.
  intros I R Hp Hc Hu Hn Hh. set (path := resolve_from (cwd_of s) raw) in *.
  apply holds_file_path in Hh as [Ht Hf]. unfold sys_open. apply wp_or_errno, wp_bind.
  eapply wp_path_arg_at; [done..|]. fold path. intros s1 (I1 & R1 & K1) D1. unfold open_file. apply wp_bind.
  destruct (inv_disk _ _ _ I1) as [O Hok]. rewrite <- D1 in Hf.
  eapply wp_disk_ro; [by apply (vfs_lookup_spec v (DISK s1) O)|done| |].
  - intros a d' Ha E I2. destruct (trim_matches x2f path); [done|]. rewrite Hf in Ha. injection Ha as <-.
    apply wp_ret. assert (R2 : ready (set_disk d' s1)) by done.
    assert (Hlen : Z.of_nat (length data) < U32).
    { unfold a_find in Hf. destruct (a_resolve _ _ _) as [|[c name]]; [done|].
      destruct (view v (disk (DISK s1)) c (short_name_83 name)) as [x|] eqn:Ev; [|done]. injection Hf as ->.
      by apply view_length in Ev. }
    eapply (wp_install_fd v []); [|done|cbn; lia|by apply slot_ok_file| |].
    + eapply inv_held_perm; [done|]. intros r. by rewrite cnt_cons, one_no_ref.
    + intros p l' i s3 Hal Hp3 _ K3. split; [eapply ok_at_proc; [done|rewrite K3; exact K1]|]. left. split; [lia|].
      rewrite (fd_at_proc v _ _ _ _ Hp3). cbn [fds set_fds]. destruct Hal as (Hi & _). unfold get_fd.
      pose proof (lookup_lt_Some _ _ _ Hi). rewrite (proj2 (Z.leb_le 0 _)), (proj2 (Z.ltb_lt _ _)) by lia.
      by rewrite Nat2Z.id, Hi.
    + intros p s3 Hp3 K3. split; [eapply ok_at_proc; [done|rewrite K3; exact K1]|]. by right; left.
  - intros e d' He E I2. assert (Ho : ok v s (set_disk d' s1)).
    { split_and!; [done|done|]. transitivity (current_key s1); done. }
    assert (Hfa : fault v (DISK s) e).
    { rewrite <- D1. destruct He as [He|He]; [|done]. destruct (trim_matches x2f path); [done|]. by rewrite Hf in He. }
    assert (e <> NotFound) by (by destruct Hfa as [[? ->] _]).
    destruct e; try done; apply wp_fail; (split; [done|]); right; right; by eexists.
Qed.
End Persist.

(** ** Theorems *)

Section Theorems.
Context {D N F : Type} `{BL : BlockDevLaws D} `{NL : NetStackLaws N} `{ML : MapperLaws F} (v : Fat32).
Context (rsp_cell : nat -> Z) (resume : Z).
Implicit Types s : Sys D N F.


(** A program that reads a file by its path. *)
Definition open_read (ptr buf count : Z) : prog (Sys D N F) Empty_set (Z + Pending) :=
  let! fd := sys_open ptr O_RDONLY in
  if fd <? 0 then pret (inl fd) else sys_read rsp_cell resume fd buf count.

Definition reads_back s s' (data : list byte) (buf count : Z) (r : Z + Pending) : Prop :=
  let got := take (Z.to_nat count) data in
  r = inl (Z.of_nat (length got)) /\ read_bytes (user_space s') buf (length got) = got \/
  r = inl (- EFAULT) \/ r = inl (- EMFILE) \/ exists e, fault v (DISK s) e /\ r = inl (- fat_errno e).

Lemma open_read_spec s ptr raw buf count data :
  inv v [] s -> ready s -> user_current (kern (tty s)) -> 0 <= ptr -> 0 <= buf -> 0 <= count ->
  cstr_at (user_space s) ptr raw -> utf8_ok raw = true -> raw <> [] ->
  holds_file v (DISK s) (resolve_from (cwd_of s) raw) data ->
  wp (open_read ptr buf count) (fun r s' => reads_back s s' data buf count r) no_err' s.
Proof.
  intros I R U Hp Hb Hc Hcs Hu Hn Hh. unfold open_read. apply wp_bind.
  eapply wp_mono; [by eapply (open_spec v s ptr raw data)| |done].
  intros fd s1 [(I1 & R1 & K1) Ho]. destruct Ho as [[Hfd Hat]|Herr].
  2:{ assert (fd < 0).
      { destruct Herr as [->|(e & _ & ->)]; [done|]. by destruct e. }
      destruct (fd <? 0) eqn:E; zbool; [|lia]. apply wp_ret.
      destruct Herr as [->|(e & He & ->)]; [by right; right; left|]. right. right. right. by exists e. }
  destruct (fd <? 0) eqn:E; zbool; [lia|].
  destruct (file_proc v _ _ _ I1 R1 Hat) as (p & Hp1 & Ee). unfold sys_read. apply wp_bind.
  eapply wp_current_fds; [done|]. rewrite Ee. apply wp_bind.
  eapply wp_mono; [by eapply read_file_fd_spec| |done].
  intros r s2 (_ & _ & _ & Hr). apply wp_ret. change (read_slice _ count) with (take (Z.to_nat count) data) in Hr.
  destruct Hr as [(_ & -> & Hus & _)|(_ & -> & _)]; [|by right; left].
  left. split; [done|]. rewrite Hus. apply read_write_same.
Qed.


(** [getdents64] delivers a directory entry by entry: each call returns the
    longest run of whole records that fits the buffer, the records decode to the
    next entries of the directory in order, with their names and types, and the
    position advances by what was returned.  At the end it returns 0; [EINVAL]
    means that the next record alone does not fit, [EFAULT] that the buffer is
    not writable, and neither moves the position. *)
Theorem getdents_lists s fd buf count f items k :
  inv v [] s -> ready s -> 0 <= buf -> 0 <= count -> fd_at s fd = Some (FdFile f) -> f_is_dir f = true ->
  Forall listable items -> f_data f = serialize_dirents items -> Z.of_nat (length (f_data f)) < 2 ^ 63 ->
  f_offset f = Z.of_nat (length (concat (take k (dirents 0 0 items)))) ->
  let sel := fitting count (drop k (dirents 0 0 items)) in
  (decode_dirent <$> sel = take (length sel) (drop k items)) /\
  exists r s', sys_getdents64 fd buf count s = (Ret r, s') /\
    getdents_result s s' fd buf count r f (drop k (dirents 0 0 items)).
Proof.
  intros I R Hb Hc Hfd Hdir Hl Hdata Hmem Hoff sel.
  destruct (dirents_ok 0 0 items Hl) as [Hrec Hdec]. split.
  - destruct (fitting_prefix count (drop k (dirents 0 0 items))) as [rest E]. fold sel in E.
    rewrite <- Hdec at 1. rewrite <- fmap_drop, E, fmap_app. by rewrite take_app_length' by (by rewrite length_fmap).
  - destruct (file_proc v _ _ _ I R Hfd) as (p & Hp & Ee).
    assert (Hat : at_records f (drop k (dirents 0 0 items))).
    { split_and!; [by apply Forall_drop| |done]. rewrite Hdata, Hoff, Nat2Z.id.
      unfold serialize_dirents. rewrite serialize_from_dirents. cbn [app length].
      rewrite <- (take_drop k (dirents 0 0 items)) at 2. rewrite concat_app. by rewrite drop_app_length. }
    pose proof (getdents_spec v p s fd buf count f _ Hp Ee Hdir Hat Hb Hc) as W. unfold wp in W.
    destruct (sys_getdents64 fd buf count s) as [[r|e| |] s']; try done. destruct W as [_ W]. eauto.
Qed.

(** C37. [brk] keeps the heap exact: the pages of the heap window are mapped for
    the user if and only if they lie below the break.  A call inside the window
    moves the break and returns it: memory below both breaks and outside the
    window is untouched and fresh memory reads as zero.  A request outside the
    window, or one for which the frames run out, returns the old break with the
    mapping and the heap's bytes as they were. *)
Theorem brk_exact s addr :
  inv v [] s -> ready s -> heap_ok (user_space s) (brk_of s) ->
  exists r s', sys_brk addr s = (Ret r, s') /\ heap_ok (user_space s') (brk_of s') /\ brk_result s s' addr r.
Proof.
  intros I R Hh. pose proof (brk_spec v s addr I R) as W. unfold wp in W.
  destruct (sys_brk addr s) as [[r|e| |] s']; try done. destruct W as (_ & _ & Hk & Hres). exists r, s'. split_and!; [done|by apply Hk|done].
Qed.


(** A write beyond the end of a file grows the buffer of the file to the new
    end whatever its size: after a seek past the size of the kernel heap a
    write of readable bytes panics the kernel. *)
Theorem write_past_heap_panics s fd buf count rsp f :
  inv v [] s -> ready s -> fd_at s fd = Some (FdFile f) -> f_writable f = true -> f_is_dir f = false ->
  0 <= buf -> 0 <= count -> range_ok (user_space s) false buf count ->
  HEAP_SIZE < f_offset f + count -> Z.of_nat (length (f_data f)) < f_offset f + count ->
  exists s', sys_write fd buf count rsp s = (Panic, s').
Proof.
  intros I R Hfd Hw Hdir Hb Hc Hr Hheap Hlen. destruct (file_proc v _ _ _ I R Hfd) as (p & Hp & Ee).
  pose proof (get_fd_ok v _ _ _ _ _ Hp Ee) as [(Ho & _) _].
  assert (Hcur : current_fds s = (Ret (fds p), s)).
  { unfold current_fds, current_proc, pbind, pget. destruct Hp as (_ & _ & ->). done. }
  unfold sys_write. unfold pbind at 1. rewrite Hcur, Ee, Hw, Hdir. cbn [andb negb].
  unfold write_to_file. unfold pbind at 1. rewrite Hcur, Ee.
  pose proof (wp_with_user_bytes (user_space s) buf count Hb Hc) as W. unfold wp in W.
  unfold or_errno, ptry, in_user, pzoom. unfold pbind at 1.
  destruct (with_user_bytes buf count (user_space s)) as [[bytes|e| |] us]; try done.
  2:{ destruct W as (_ & _ & Hn). by destruct Hn. }
  destruct W as (-> & [Hend _] & ->). set (bytes := read_bytes _ _ _).
  assert (Hl : Z.of_nat (length bytes) = count) by (unfold bytes; rewrite length_read_bytes; lia).
  unfold store_bytes, u64_add. rewrite Hl, checked_spec by (unfold in_width, U64, USER_SPACE_END in *; lia).
  unfold pbind, punwrap, pret. rewrite (proj2 (Z.ltb_lt _ _) Hlen).
  unfold vec_resize, pbind, passert. rewrite (proj2 (Z.leb_gt _ _)) by done. by eexists.
Qed.
End Theorems.

Definition one_file : list DirItem := [mkDirItem (bs "A.TXT") false].

(** [lseek] moves the position of a directory to any byte, and [getdents64]
    takes the two bytes 16 after it for a record length: in the listing of a
    directory with one file, from position 8 the loop never ends, and from the
    last byte it indexes past the end and panics. *)
Theorem getdents_mid_record {D N F} (s : Sys D N F) fuel count :
  0 <= count ->
  dirent_span fuel (serialize_dirents one_file) 8 0 count s = (Diverge, s) /\
  dirent_span (S fuel) (serialize_dirents one_file) 31 0 count s = (Panic, s).
Proof.
  intros Hc. split; [|done]. induction fuel as [|fuel IH]; [done|].
  change (dirent_span (S fuel) (serialize_dirents one_file) 8 0 count s)
    with ((if count <? 0 then pret 0 else dirent_span fuel (serialize_dirents one_file) 8 0 count) s).
  rewrite (proj2 (Z.ltb_ge _ _) Hc). exact IH.
Qed.

(** ** A system with one process *)

Definition sample_file : OpenFile := mkOpenFile (bs "/A.TXT") (bs "hello") 5 true true false.

Definition sample_dir : OpenFile := mkOpenFile (bs "/") (serialize_dirents one_file) 0 false false true.

Definition sample_proc (f : OpenFile) : ProcState :=
  mkProcState [Some FdConsole; Some FdVga; Some FdSerial; Some (FdFile f); Some (FdFile sample_dir);
               Some (FdPipeRead 1); Some (FdPipeWrite 1)] (bs "/") USER_HEAP_BASE.

(** One writable page with a path at its start. *)
Definition sample_memory : UserSpace :=
  {| us_pages := <[0x1000 := (true, true)]> ∅; us_mem := poke 0x1000 (bs "A.TXT" ++ [x00]) ∅ |}.

Definition sample_sys (f : OpenFile) : Sys RamDisk (gmap Z SockKind) nat :=
  mkSys (mkTty (Some (mkConsole [] [])) (Writer_new (replicate CELLS (mkChar x20 15))) process_running)
    {[ 0x2000 := sample_proc f ]} {[ 1%nat := mkPipeBuf (bs "xy") 1 1 ]} ∅ {[ 0x2000 := sample_memory ]} (Some 2%nat)
    ∅ (small_disk []) [] (mkStats (0, 0, 0, 0) 0 0 0 0).

Lemma process_running_ok : kernel_ok process_running.
Proof. apply (reachable_ok cell_of 0x600), process_running_reachable. Qed.

Lemma sample_key f : current_key (sample_sys f) = 0x2000.
Proof. vm_compute. reflexivity. Qed.

Lemma sample_proc_ok f : file_ok f -> proc_ok (sample_proc f).
Proof.
  intros Hf. split; cbn [fds cwd brk sample_proc].
  - cbn. unfold MAX_FDS. lia.
  - repeat (apply Forall_cons; split; [try exact Logic.I|]); [| |apply Forall_nil; exact Logic.I].
    + exact Hf.
    + split_and!; cbn; done.
  - exists []. done.
  - done.
Qed.

Lemma sample_inv f : file_ok f -> inv small_volume [] (sample_sys f).
Proof.
  intros Hf. split.
  - assert (Ht : forall r, total [] (sample_sys f) r = (if decide (r = RRead 1) then 1 else 0) + (if decide (r = RWrite 1) then 1 else 0)).
    { intros r. unfold total. rewrite cnt_nil, Z.add_0_r. unfold sample_sys. cbn [PROCESSES].
      rewrite <- insert_empty, cnt_procs_insert by apply lookup_empty.
      change (cnt_procs r ∅) with 0. rewrite Z.add_0_r. unfold sample_proc. cbn [fds].
      rewrite !cnt_cons, cnt_nil, (one_no_ref FdConsole eq_refl), (one_no_ref FdVga eq_refl),
        (one_no_ref FdSerial eq_refl), (one_no_ref (FdFile f) eq_refl), (one_no_ref (FdFile sample_dir) eq_refl).
      rewrite (one_ref (FdPipeRead 1) (RRead 1)), (one_ref (FdPipeWrite 1) (RWrite 1)) by done. lia. }
    split; unfold strong; cbn [sample_sys PIPES ARCS NET]; intros *; rewrite ?Ht.
    + rewrite (decide_False (P := RRead p = RWrite 1)) by done. destruct (decide (p = 1%nat)) as [->|]; [done|].
      rewrite lookup_singleton_ne by done. by rewrite decide_False by congruence.
    + rewrite (decide_False (P := RWrite p = RRead 1)) by done. destruct (decide (p = 1%nat)) as [->|]; [done|].
      rewrite lookup_singleton_ne by done. by rewrite decide_False by congruence.
    + by rewrite !decide_False.
    + by rewrite lookup_empty.
    + cbn. rewrite lookup_empty. split; [done|]. intros (e & _ & _ & He). by rewrite Ht, !decide_False in He.
    + by rewrite !decide_False.
  - intros k p. cbn [PROCESSES sample_sys]. intros [<- <-]%lookup_singleton_Some. by apply sample_proc_ok.
  - apply process_running_ok.
  - split; [apply length_replicate|]. cbn. lia.
  - exists small_own. apply small_ok.
Qed.

Lemma sample_at f : file_ok f -> at_proc small_volume [] (sample_proc f) (sample_sys f).
Proof.
  intros Hf. split_and!; [by apply sample_inv| |].
  - unfold few. cbn [PROCESSES sample_sys]. rewrite map_size_singleton. done.
  - rewrite sample_key. apply lookup_singleton_eq.
Qed.

Lemma sample_ready f : file_ok f -> ready (sample_sys f).
Proof. intros Hf. by eapply at_proc_ready, sample_at. Qed.

Lemma sample_user f : user_current (kern (tty (sample_sys f))).
Proof. by eexists _, _. Qed.

Lemma sample_memory_of f : user_space (sample_sys f) = sample_memory.
Proof. unfold user_space. rewrite sample_key. cbn [SPACES sample_sys]. by rewrite lookup_singleton_eq. Qed.

Lemma sample_fd f fd : fd_at (sample_sys f) fd = get_fd (fds (sample_proc f)) fd.
Proof. unfold fd_at. rewrite sample_key. cbn [PROCESSES sample_sys]. by rewrite lookup_singleton_eq. Qed.

Lemma sample_file_ok : file_ok sample_file.
Proof. split_and!; cbn; done. Qed.

(** The system before its first call. *)
Definition fresh_sys : Sys RamDisk (gmap Z SockKind) nat :=
  set_procs ∅ (set_pipes ∅ (sample_sys sample_file)).



Lemma getdents_lists_witness :
  exists r s', sys_getdents64 4 0x1000 100 (sample_sys sample_file) = (Ret r, s') /\
    getdents_result (sample_sys sample_file) s' 4 0x1000 100 r sample_dir (dirents 0 0 one_file).
Proof.
  destruct (getdents_lists small_volume (sample_sys sample_file) 4 0x1000 100 sample_dir one_file 0) as [_ H].
  - apply sample_inv, sample_file_ok.
  - apply sample_ready, sample_file_ok.
  - lia.
  - lia.
  - by rewrite sample_fd.
  - reflexivity.
  - constructor; [|constructor]. split; [|cbn; lia]. change (item_name _) with [x41; x2e; x54; x58; x54].
    rewrite !not_elem_of_cons. split_and!; try done. apply not_elem_of_nil.
  - reflexivity.
  - vm_compute. reflexivity.
  - reflexivity.
  - exact H.
Defined.

Lemma sample_heap : heap_ok sample_memory USER_HEAP_BASE.
Proof.
  intros pg Ap [Hr _]. cbn [us_pages sample_memory].
  rewrite lookup_insert_ne, lookup_empty by (unfold USER_HEAP_BASE in *; lia).
  assert (ceil_page USER_HEAP_BASE = USER_HEAP_BASE) as -> by (vm_compute; reflexivity).
  by rewrite (proj2 (Z.ltb_ge _ _) Hr).
Qed.

Lemma brk_exact_witness :
  exists r s', sys_brk (USER_HEAP_BASE + 5000) (sample_sys sample_file) = (Ret r, s') /\
    heap_ok (user_space s') (brk_of s') /\ brk_result (sample_sys sample_file) s' (USER_HEAP_BASE + 5000) r.
Proof.
  apply (brk_exact small_volume (sample_sys sample_file) (USER_HEAP_BASE + 5000)).
  - apply sample_inv, sample_file_ok.
  - apply sample_ready, sample_file_ok.
  - rewrite sample_memory_of. unfold brk_of. rewrite sample_key. cbn [PROCESSES sample_sys].
    rewrite lookup_singleton_eq. apply sample_heap.
Defined.


(** The same file after a seek to 2 MiB. *)
Definition sample_sought : OpenFile := set_f_offset 0x200000 sample_file.

Lemma write_past_heap_panics_witness :
  exists s', sys_write 3 0x1000 1 0 (sample_sys sample_sought) = (Panic, s').
Proof.
  assert (Hf : file_ok sample_sought) by (split_and!; cbn; done).
  apply (write_past_heap_panics small_volume (sample_sys sample_sought) 3 0x1000 1 0 sample_sought).
  - by apply sample_inv.
  - by apply sample_ready.
  - by rewrite sample_fd.
  - reflexivity.
  - reflexivity.
  - lia.
  - lia.
  - rewrite sample_memory_of. split; [unfold USER_SPACE_END; lia|]. intros a Ha. assert (a = 0x1000) as -> by lia.
    vm_compute. reflexivity.
  - vm_compute. reflexivity.
  - vm_compute. reflexivity.
Defined.

Lemma getdents_mid_record_witness :
  dirent_span 1000 (serialize_dirents one_file) 8 0 100 (sample_sys sample_file) = (Diverge, sample_sys sample_file).
Proof. apply (getdents_mid_record (sample_sys sample_file) 1000 100). lia. Defined.
