(* ===== verification/Utils.v ===== *)
(** * The programs of /bin

    [cat], [ls], [echo], [rm], [rmdir] and [mkdir] of [user/hello/src].  An argument
    is the C string behind its pointer.  A system call is a [UCall] with the bytes
    its pointers stand for, and a program ends with the code it passes to [exit].
    The kernel that answers is an interface ([UserKernel]); its law for a directory
    is what [sys_getdents64] is proved to do in [Dirents]. *)

From stdpp Require Import base numbers list gmap.
From Stdlib Require Import ZArith Lia.
From S2P Require Import Prelude Fat Abi Files Dirents.
#[local] Open Scope Z_scope.

Inductive UCall : Type :=
| URead (fd n : Z)
| UWrite (fd : Z) (s : list byte)
| UOpen (path : list byte) (flags : Z)
| UClose (fd : Z)
| UGetdents64 (fd n : Z)
| UUnlink (path : list byte)
| URmdir (path : list byte)
| UMkdir (path : list byte) (mode : Z).

(** The number a call returns, and the bytes it writes to the caller's buffer. *)
Class Calls (K : Type) : Type := { do_call : UCall -> K -> (Z * list byte) * K }.

Definition NEWLINE : byte := x0a.

Section Programs.
Context {K : Type} {CK : Calls K}.

(** A program fails with its exit code. *)
#[local] Abbreviation uprog := (prog K Z).

Definition sc3 (c : UCall) : uprog (Z * list byte) := fun k => let (a, k') := do_call c k in (Ret a, k').
Definition sys_exit {A} (code : Z) : uprog A := pfail code.

Definition write_str (s : list byte) : uprog unit := let! _ := sc3 (UWrite 1 s) in pret tt.

(** The bytes a call leaves in a buffer: its own, then what was there. *)
Definition fill (buf data : list byte) : list byte := data ++ drop (length data) buf.

(** ** [cat] *)

Definition cat_turn (fd : Z) (buf : list byte) : uprog (list byte + unit) :=
  let! '(n, data) := sc3 (URead fd (Z.of_nat (length buf))) in
  let buf := fill buf data in
  if n <=? 0 then pret (inr tt)
  else write_str (take (Z.to_nat n) buf) ;;! pret (inl buf).

Definition cat_fd (fd : Z) : uprog unit := forever (cat_turn fd) (zeros 512).

Definition cat_file (path : list byte) : uprog bool :=
  let! '(fd, _) := sc3 (UOpen path 0) in
  if fd <? 0 then write_str (bs "cat: cannot open file" ++ [NEWLINE]) ;;! pret false
  else
    cat_fd fd ;;!
    let! _ := sc3 (UClose fd) in
    pret true.

Fixpoint cat_files (paths : list (list byte)) (code : Z) : uprog Z :=
  match paths with
  | [] => pret code
  | path :: paths' =>
      let! ok := cat_file path in
      cat_files paths' (if ok : bool then code else 1)
  end.

Definition cat_main (argv : list (list byte)) : uprog unit :=
  if (length argv <? 2)%nat then cat_fd 0 ;;! sys_exit 0
  else let! code := cat_files (drop 1 argv) 0 in sys_exit code.

(** ** [ls] *)

Definition at_buf (buf : list byte) (i : nat) : uprog byte := punwrap (buf !! i).

(** [while name_start + len < n && buf[name_start + len] != 0 { len += 1 }] *)
Fixpoint name_len (left : nat) (buf : list byte) (i : nat) : uprog nat :=
  match left with
  | O => pret 0%nat
  | S left' =>
      let! c := at_buf buf i in
      if Byte.eqb c x00 then pret 0%nat else let! len := name_len left' buf (S i) in pret (S len)
  end.

Fixpoint show_records (fuel : nat) (buf : list byte) (n pos : nat) : uprog unit :=
  match fuel with
  | O => pdiverge
  | S f =>
      if (pos + 19 <=? n)%nat then
        let! lo := at_buf buf (pos + 16) in
        let! hi := at_buf buf (pos + 17) in
        let reclen := Z.lor (b2z lo) (Z.shiftl (b2z hi) 8) in
        if reclen =? 0 then pret tt
        else
          let name_start := (pos + 19)%nat in
          let! len := name_len (n - name_start) buf name_start in
          write_str (slice buf name_start len) ;;!
          write_str [NEWLINE] ;;!
          show_records f buf n (pos + Z.to_nat reclen)
      else pret tt
  end.

Definition ls_turn (fd : Z) (buf : list byte) : uprog (list byte + unit) :=
  let! '(n, data) := sc3 (UGetdents64 fd (Z.of_nat (length buf))) in
  let buf := fill buf data in
  if n <? 0 then sys_exit 2
  else if n =? 0 then pret (inr tt)
  else show_records (S (Z.to_nat n)) buf (Z.to_nat n) 0 ;;! pret (inl buf).

Definition ls_main (argv : list (list byte)) : uprog unit :=
  let dir := match argv with _ :: dir :: _ => dir | _ => bs "." end in
  let! '(fd, _) := sc3 (UOpen dir 0) in
  if fd <? 0 then write_str (bs "ls: cannot open directory" ++ [NEWLINE]) ;;! sys_exit 1
  else
    forever (ls_turn fd) (zeros 1024) ;;!
    let! _ := sc3 (UClose fd) in
    sys_exit 0.

(** ** [echo] *)

Fixpoint echo_args (first : bool) (args : list (list byte)) : uprog unit :=
  match args with
  | [] => pret tt
  | arg :: args' =>
      (if first then pret tt else write_str (bs " ")) ;;!
      write_str arg ;;!
      echo_args false args'
  end.

Definition echo_main (argv : list (list byte)) : uprog unit :=
  echo_args true (drop 1 argv) ;;! write_str [NEWLINE] ;;! sys_exit 0.

(** ** [rm], [rmdir] and [mkdir]: one call for every argument *)

Fixpoint each_arg (call : list byte -> UCall) (msg : list byte) (args : list (list byte)) (code : Z) : uprog Z :=
  match args with
  | [] => pret code
  | arg :: args' =>
      let! '(r, _) := sc3 (call arg) in
      if r <? 0 then write_str (msg ++ [NEWLINE]) ;;! each_arg call msg args' 1
      else each_arg call msg args' code
  end.

Definition rm_main (argv : list (list byte)) : uprog unit :=
  if (length argv <? 2)%nat then write_str (bs "usage: rm FILE..." ++ [NEWLINE]) ;;! sys_exit 1
  else let! code := each_arg UUnlink (bs "rm: cannot remove file") (drop 1 argv) 0 in sys_exit code.

Definition rmdir_main (argv : list (list byte)) : uprog unit :=
  if (length argv <? 2)%nat then write_str (bs "usage: rmdir DIR..." ++ [NEWLINE]) ;;! sys_exit 1
  else let! code := each_arg URmdir (bs "rmdir: cannot remove directory") (drop 1 argv) 0 in sys_exit code.

Definition mkdir_main (argv : list (list byte)) : uprog unit :=
  if (length argv <? 2)%nat then write_str (bs "usage: mkdir DIR..." ++ [NEWLINE]) ;;! sys_exit 1
  else let! code := each_arg (fun p => UMkdir p 0) (bs "mkdir: cannot create directory") (drop 1 argv) 0 in sys_exit code.
End Programs.

(** ** What the kernel promises *)

(** What is left behind a descriptor: bytes of a file, or records of a directory. *)
Inductive Stream : Type := SBytes (rest : list byte) | SRecords (rs : list (list byte)).

(** A file or a directory with its entries. *)
Inductive Node : Type := NFile (data : list byte) | NDir (items : list DirItem).

Definition open_stream (n : Node) : Stream :=
  match n with NFile data => SBytes data | NDir items => SRecords (dirents 0 0 items) end.

(** What a program sees of the system: what was written to its output, its other
    descriptors, and the tree. *)
Record View : Type := mkView {
  v_out : list byte; v_fds : gmap Z Stream; v_tree : list byte -> option Node
}.
Definition put_out (s : list byte) (v : View) : View := mkView (v_out v ++ s) (v_fds v) (v_tree v).
Definition put_fd (fd : Z) (st : Stream) (v : View) : View := mkView (v_out v) (<[fd := st]> (v_fds v)) (v_tree v).
Definition drop_fd (fd : Z) (v : View) : View := mkView (v_out v) (delete fd (v_fds v)) (v_tree v).

Class UserKernel (K : Type) {CK : Calls K} : Type := { view : K -> View; max_open : nat }.

Class UserKernelLaws (K : Type) {CK : Calls K} {UK : UserKernel K} : Prop := {
  u_write s k a k' : do_call (UWrite 1 s) k = (a, k') -> view k' = put_out s (view k);
  u_read fd n rest k r d k' :
    v_fds (view k) !! fd = Some (SBytes rest) -> 0 < n -> do_call (URead fd n) k = ((r, d), k') ->
    r = Z.of_nat (length d) /\ r <= n /\ (d = [] -> rest = []) /\
    exists rest', rest = d ++ rest' /\ view k' = put_fd fd (SBytes rest') (view k);
  u_read_dir fd n rs k r d k' :
    v_fds (view k) !! fd = Some (SRecords rs) -> do_call (URead fd n) k = ((r, d), k') -> r < 0 /\ d = [] /\ view k' = view k;
  u_getdents_file fd n rest k r d k' :
    v_fds (view k) !! fd = Some (SBytes rest) -> do_call (UGetdents64 fd n) k = ((r, d), k') -> r < 0 /\ d = [] /\ view k' = view k;
  u_getdents fd n rs k r d k' :
    v_fds (view k) !! fd = Some (SRecords rs) -> 0 <= n -> do_call (UGetdents64 fd n) k = ((r, d), k') ->
    match fitting n rs with
    | [] => view k' = view k /\ d = [] /\ match rs with [] => r = 0 | _ => r < 0 end
    | _ => d = concat (fitting n rs) /\ r = Z.of_nat (length d) /\ view k' = put_fd fd (SRecords (drop (length (fitting n rs)) rs)) (view k)
    end;
  u_open path k fd d k' :
    (base.size (v_fds (view k)) < max_open)%nat -> do_call (UOpen path 0) k = ((fd, d), k') ->
    match v_tree (view k) path with
    | Some node => 0 <= fd /\ v_fds (view k) !! fd = None /\ view k' = put_fd fd (open_stream node) (view k)
    | None => fd < 0 /\ view k' = view k
    end;
  u_close fd k a k' : is_Some (v_fds (view k) !! fd) -> do_call (UClose fd) k = (a, k') -> view k' = drop_fd fd (view k);
}.

(** ** Lemmas *)

Section Steps.
Context {K : Type} {CK : Calls K} {UK : UserKernel K} {UL : UserKernelLaws K}.
Implicit Types k : K.

Lemma wp_write_str s (Q : unit -> K -> Prop) X k : (forall k', view k' = put_out s (view k) -> Q tt k') -> wp (write_str s) Q X k.
Proof using UL.
  intros HQ. unfold write_str, sc3. apply wp_bind. unfold wp. destruct (do_call _ k) as [a k'] eqn:E. apply wp_ret, HQ. by eapply u_write.
Qed.

Lemma put_out_out a b v : put_out b (put_out a v) = put_out (a ++ b) v.
Proof. unfold put_out. cbn. by rewrite app_assoc. Qed.

Lemma put_out_nil v : put_out [] v = v.
Proof. destruct v. unfold put_out. cbn. by rewrite app_nil_r. Qed.

Lemma put_out_fd a fd st v : put_out a (put_fd fd st v) = put_fd fd st (put_out a v).
Proof. done. Qed.

Lemma put_fd_fd fd a b v : put_fd fd b (put_fd fd a v) = put_fd fd b v.
Proof. unfold put_fd. cbn. by rewrite insert_insert_eq. Qed.

Lemma drop_put_fd fd st v : v_fds v !! fd = None -> drop_fd fd (put_fd fd st v) = v.
Proof. intros H. destruct v. unfold drop_fd, put_fd. cbn in *. by rewrite delete_insert_id. Qed.

Lemma fill_take buf data : take (length data) (fill buf data) = data.
Proof. apply take_app_length. Qed.

Lemma length_filled (buf data : list byte) : (length data <= length buf)%nat -> length (fill buf data) = length buf.
Proof. intros H. unfold fill. rewrite length_app, length_drop. lia. Qed.

(** The descriptor is copied to its end. *)
Lemma wp_cat_fd fd rest (Q : unit -> K -> Prop) X k v :
  view k = put_fd fd (SBytes rest) v -> Z.of_nat (length rest) < 2 ^ 64 ->
  (forall k', view k' = put_fd fd (SBytes []) (put_out rest v) -> Q tt k') -> wp (cat_fd fd) Q X k.
Proof using UL.
  intros Hk Hl HQ.
  set (left := fun k => match v_fds (view k) !! fd with Some (SBytes r) => r | _ => [] end).
  apply wp_forever with
    (I := fun buf k' => length buf = 512%nat /\ exists done_ todo, rest = done_ ++ todo /\ view k' = put_fd fd (SBytes todo) (put_out done_ v))
    (measure := fun _ k' => Z.of_nat (length (left k'))).
  - intros buf k1 (Hb & done_ & todo & Er & Hv). unfold cat_turn, sc3. apply wp_bind. unfold wp at 1.
    destruct (do_call _ k1) as [[r d] k2] eqn:E. cbn beta iota.
    assert (Hfd : v_fds (view k1) !! fd = Some (SBytes todo)) by (rewrite Hv; apply lookup_insert_eq).
    assert (Hpos : 0 < Z.of_nat (length buf)) by (rewrite Hb; lia).
    destruct (u_read _ _ _ _ _ _ _ Hfd Hpos E) as (-> & Hn & Hnil & todo' & Et & Hv2). rewrite Hv, put_fd_fd in Hv2.
    destruct (_ <=? 0) eqn:E0; zbool.
    + assert (d = []) as -> by (destruct d; [done|cbn in E0; lia]). apply wp_ret, HQ. cbn in Et. rewrite <- Et, (Hnil eq_refl) in Hv2.
      rewrite (Hnil eq_refl), app_nil_r in Er. by rewrite Er.
    + rewrite Nat2Z.id, fill_take. apply wp_bind, wp_write_str. intros k3 Hv3. apply wp_ret. rewrite Hv2, put_out_fd, put_out_out in Hv3. split.
      * rewrite length_filled by lia. split; [done|]. exists (done_ ++ d), todo'. by rewrite <- app_assoc, <- Et.
      * unfold left. rewrite Hv3, Hv. cbn. rewrite !lookup_insert_eq, Et, length_app. lia.
  - intros buf k1 _. lia.
  - split; [done|]. exists [], rest. by rewrite put_out_nil.
  - unfold left. rewrite Hk. cbn. rewrite lookup_insert_eq. lia.
Qed.

(** A directory cannot be read. *)
Lemma wp_cat_dir fd rs (Q : unit -> K -> Prop) X k :
  v_fds (view k) !! fd = Some (SRecords rs) -> (forall k', view k' = view k -> Q tt k') -> wp (cat_fd fd) Q X k.
Proof using UL.
  intros Hk HQ. apply wp_forever with (I := fun _ k' => k' = k) (measure := fun _ _ => 0); [|done..].
  intros buf _ ->. unfold cat_turn, sc3. apply wp_bind. unfold wp at 1. destruct (do_call _ k) as [[r d] k2] eqn:E. cbn beta iota.
  destruct (u_read_dir _ _ _ _ _ _ _ Hk E) as (Hr & -> & Hv). rewrite (proj2 (Z.leb_le _ _)) by lia. by apply wp_ret, HQ.
Qed.

Definition cat_shows (v : View) (path : list byte) : list byte :=
  match v_tree v path with Some (NFile data) => data | Some (NDir _) => [] | None => bs "cat: cannot open file" ++ [NEWLINE] end.

(** A file of a length that the machine can have. *)
Definition catable (v : View) (path : list byte) : Prop :=
  match v_tree v path with Some (NFile data) => Z.of_nat (length data) < 2 ^ 64 | _ => True end.

Lemma wp_cat_file path (Q : bool -> K -> Prop) X k :
  (base.size (v_fds (view k)) < max_open)%nat -> catable (view k) path ->
  (forall k', view k' = put_out (cat_shows (view k) path) (view k) -> Q (bool_decide (is_Some (v_tree (view k) path))) k') ->
  wp (cat_file path) Q X k.
Proof using UL.
  intros Hs Hc HQ. unfold cat_file, sc3 at 1. apply wp_bind. unfold wp at 1. destruct (do_call _ k) as [[fd d] k1] eqn:E. cbn beta iota.
  pose proof (u_open _ _ _ _ _ Hs E) as Ho. unfold catable, cat_shows in *. destruct (v_tree (view k) path) as [node|] eqn:Et.
  - destruct Ho as (Hfd & Hnew & Hv). rewrite (proj2 (Z.ltb_ge _ _)) by done. rewrite bool_decide_true in HQ by done.
    assert (Hend : forall k2 st s, view k2 = put_fd fd st (put_out s (view k)) ->
      s = match node with NFile data => data | NDir _ => [] end -> wp (let! _ := sc3 (UClose fd) in pret true) Q X k2).
    { intros k2 st s Hv2 ->. unfold sc3. apply wp_bind. unfold wp at 1. destruct (do_call (UClose fd) k2) as [a k3] eqn:E3.
      apply wp_ret, HQ. rewrite (u_close fd k2 a k3); [|by rewrite Hv2; cbn; rewrite lookup_insert_eq|done].
      rewrite Hv2, drop_put_fd by done. by destruct node. }
    apply wp_bind. destruct node as [data|items]; cbn [open_stream] in Hv.
    + eapply wp_cat_fd; [exact Hv|done|]. intros k2 Hv2. by eapply Hend.
    + eapply wp_cat_dir; [by rewrite Hv; cbn; apply lookup_insert_eq|]. intros k2 Hv2. eapply Hend; [|done]. rewrite put_out_nil, Hv2. exact Hv.
  - destruct Ho as [Hfd Hv]. rewrite (proj2 (Z.ltb_lt _ _)) by done. apply wp_bind, wp_write_str. intros k2 Hv2. rewrite Hv in Hv2. apply wp_ret.
    rewrite bool_decide_false in HQ by (by intros [? [=]]). by apply HQ.
Qed.

Definition present (v : View) (path : list byte) : bool := bool_decide (is_Some (v_tree v path)).

Lemma wp_cat_files paths code (Q : Z -> K -> Prop) X k :
  (base.size (v_fds (view k)) < max_open)%nat -> Forall (catable (view k)) paths ->
  (forall k', view k' = put_out (concat (cat_shows (view k) <$> paths)) (view k) ->
    Q (if forallb (present (view k)) paths then code else 1) k') ->
  wp (cat_files paths code) Q X k.
Proof using UL.
  intros Hs Hc. revert k code Hs Hc. induction paths as [|path paths IH]; intros k code Hs Hc HQ; cbn [cat_files].
  { apply wp_ret, HQ. by rewrite put_out_nil. }
  apply Forall_cons in Hc as [Hp Hc]. apply wp_bind, wp_cat_file; [done..|]. intros k1 Hv1.
  apply IH; rewrite Hv1; [done|done|]. intros k2 Hv2. change (cat_shows (put_out ?a ?v)) with (cat_shows v) in *.
  change (present (put_out ?a ?v)) with (present v) in *. rewrite put_out_out in Hv2. specialize (HQ k2 Hv2). cbn [forallb] in HQ.
  change (bool_decide (is_Some (v_tree (view k) path))) with (present (view k) path). destruct (present (view k) path); [done|].
  cbn [andb] in HQ. by destruct (forallb _ _).
Qed.
(** ** Listings *)

(** A record of an entry. *)
Definition encodes (r : list byte) (item : DirItem) : Prop := listable item /\ exists i start, r = dirent i start item.

Lemma dirents_encode items : Forall listable items -> forall i start, Forall2 encodes (dirents i start items) items.
Proof.
  induction 1 as [|item items Hi _ IH]; intros i start; cbn [dirents]; constructor; [|apply IH]. split; [done|]. by exists i, start.
Qed.

Definition line (item : DirItem) : list byte := item_name item ++ [NEWLINE].
Definition lines (items : list DirItem) : list byte := concat (line <$> items).

Lemma wp_at_buf buf i b (Q : byte -> K -> Prop) X k : buf !! i = Some b -> Q b k -> wp (at_buf buf i) Q X k.
Proof. intros Hb HQ. unfold at_buf. by eapply wp_unwrap. Qed.

(** What lies in the first [n] bytes lies in the buffer. *)
Lemma drop_take_lookup (buf a b : list byte) n i j x : drop i (take n buf) = a ++ b -> a !! j = Some x -> buf !! (i + j)%nat = Some x.
Proof.
  intros Hd Hj. assert (Ht : take n buf !! (i + j)%nat = Some x).
  { rewrite <- lookup_drop, Hd. by apply lookup_app_l_Some. }
  apply lookup_take_Some in Ht. tauto.
Qed.

Lemma drop_take_slice (buf a b : list byte) n i : drop i (take n buf) = a ++ b -> slice buf i (length a) = a.
Proof.
  intros Hd. rewrite skipn_firstn_comm in Hd. unfold slice. pose proof (f_equal length Hd) as Hl. rewrite length_take, length_app in Hl.
  replace (length a) with (length a `min` (n - i))%nat at 1 by lia. rewrite <- take_take, Hd. apply take_app_length.
Qed.

Lemma wp_name_len (buf name tl : list byte) n i (Q : nat -> K -> Prop) X k :
  drop i (take n buf) = name ++ x00 :: tl -> (x00 ∉ name) -> Q (length name) k -> wp (name_len (n - i) buf i) Q X k.
Proof.
  revert i Q. induction name as [|c name IH]; intros i Q Hd Hz HQ.
  - assert (Hb : buf !! i = Some x00) by (rewrite <- (Nat.add_0_r i); by eapply (drop_take_lookup _ [x00] tl)).
    assert (Hlt : (i < n)%nat) by (apply (f_equal length) in Hd; rewrite length_drop, length_take in Hd; cbn in Hd; lia).
    destruct (n - i)%nat eqn:E; [lia|]. cbn [name_len]. apply wp_bind. eapply wp_at_buf; [done|]. by apply wp_ret.
  - apply not_elem_of_cons in Hz as [Hc Hz].
    assert (Hb : buf !! i = Some c) by (rewrite <- (Nat.add_0_r i); by eapply (drop_take_lookup _ [c] (name ++ x00 :: tl))).
    assert (Hlt : (i < n)%nat) by (apply (f_equal length) in Hd; rewrite length_drop, length_take in Hd; cbn in Hd; lia).
    destruct (n - i)%nat eqn:E; [lia|]. cbn [name_len]. apply wp_bind. eapply wp_at_buf; [done|].
    destruct (Byte.eqb c x00) eqn:Ec; [apply Byte.byte_dec_bl in Ec; by subst|]. apply wp_bind.
    replace n0 with (n - S i)%nat by lia. apply IH; [|done|by apply wp_ret].
    replace (S i) with (i + length [c])%nat by (cbn; lia). rewrite <- drop_drop, Hd. done.
Qed.

Lemma wp_show_records rs items fuel (buf : list byte) n pos (Q : unit -> K -> Prop) X k :
  Forall2 encodes rs items -> drop pos (take n buf) = concat rs -> (length rs < fuel)%nat -> (n <= length buf)%nat -> (pos <= n)%nat ->
  (forall k', view k' = put_out (lines items) (view k) -> Q tt k') -> wp (show_records fuel buf n pos) Q X k.
Proof using UL.
  intros Henc. revert fuel pos k. induction Henc as [|r item rs items [Hitem (i & st & ->)] Henc IH]; intros [|fuel] pos k Hd Hf Hn Hp HQ; cbn [length] in Hf; try lia; cbn [show_records].
  - apply (f_equal length) in Hd. rewrite length_drop, length_take in Hd. cbn in Hd. rewrite (proj2 (Nat.leb_gt _ _)) by lia.
    apply wp_ret, HQ. by rewrite put_out_nil.
  - cbn [concat] in Hd. set (r := dirent i st item) in *. pose proof (dirent_is_record i st item Hitem) as Hrec. fold r in Hrec.
    pose proof (f_equal length Hd) as Hlen. rewrite length_drop, length_take, length_app in Hlen. pose proof (proj1 Hrec) as HH. unfold HEADER in HH.
    rewrite (proj2 (Nat.leb_le _ _)) by lia. destruct (record_reclen r [] Hrec) as (b0 & b1 & H0 & H1 & Hle). rewrite app_nil_r in H0, H1.
    apply wp_bind. eapply wp_at_buf; [by eapply drop_take_lookup|]. apply wp_bind. eapply wp_at_buf; [by eapply drop_take_lookup|].
    assert (Hrl : Z.lor (b2z b0) (Z.shiftl (b2z b1) 8) = Z.of_nat (length r)).
    { rewrite <- Hle, Z.lor_comm, lor_shiftl_add by (pose proof (b2z_range b0); lia). cbn [from_le]. lia. }
    rewrite Hrl. rewrite (proj2 (Z.eqb_neq _ _)) by lia. rewrite Nat2Z.id.
    destruct (dirent_name_nul i st item) as [rest Hname]. fold r in Hname. unfold HEADER in Hname.
    assert (Hnm : drop (pos + 19) (take n buf) = item_name item ++ x00 :: (rest ++ concat rs)).
    { rewrite <- drop_drop, Hd, drop_app_le, Hname by lia. by rewrite <- app_assoc. }
    apply wp_bind. eapply wp_name_len; [exact Hnm|apply Hitem|]. rewrite (drop_take_slice _ _ _ _ _ Hnm).
    apply wp_bind, wp_write_str. intros k1 Hv1. apply wp_bind, wp_write_str. intros k2 Hv2. rewrite Hv1, put_out_out in Hv2.
    apply IH; [|lia|done|lia|].
    + by rewrite <- drop_drop, Hd, drop_app_length.
    + intros k3 Hv3. apply HQ. rewrite Hv3, Hv2, put_out_out. done.
Qed.
Lemma fitting_some n r rs item : encodes r item -> 1024 <= n -> fitting n (r :: rs) <> [].
Proof.
  intros [[_ Hl] (i & st & ->)] Hn. cbn [fitting]. rewrite length_dirent. pose proof (dirent_len_bounds (item_name item)). unfold HEADER in *.
  by rewrite (proj2 (Z.leb_le _ _)) by lia.
Qed.

(** One turn reads the records that fit the buffer and shows their names. *)
Lemma wp_ls_turn fd (buf : list byte) rs items (Q : list byte + unit -> K -> Prop) X k v :
  length buf = 1024%nat -> view k = put_fd fd (SRecords rs) v -> Forall2 encodes rs items ->
  (rs = [] -> forall k', view k' = view k -> Q (inr tt) k') ->
  (forall k' buf' n rs' items1 items2, length buf' = 1024%nat -> items = items1 ++ items2 -> Forall2 encodes rs' items2 ->
    length rs = (S n + length rs')%nat -> view k' = put_fd fd (SRecords rs') (put_out (lines items1) v) -> Q (inl buf') k') ->
  wp (ls_turn fd buf) Q X k.
Proof using UL.
  intros Hb Hk Henc Hnil Hgo. unfold ls_turn. rewrite Hb. unfold sc3 at 1. apply wp_bind. unfold wp at 1.
  destruct (do_call _ k) as [[r d] k1] eqn:E. cbn beta iota.
  assert (Hfd : v_fds (view k) !! fd = Some (SRecords rs)) by (rewrite Hk; apply lookup_insert_eq).
  assert (H1024 : 0 <= 1024) by lia. pose proof (u_getdents _ _ _ _ _ _ _ Hfd H1024 E) as Hg. destruct rs as [|r0 rs0].
  { destruct Hg as (Hv & -> & ->). cbn [Z.ltb Z.compare Z.eqb]. by apply wp_ret, Hnil. }
  pose proof Henc as Henc0. apply Forall2_cons_inv_l in Henc0 as (it0 & its0 & He0 & _ & _).
  pose proof (fitting_some 1024 r0 rs0 it0 He0 ltac:(lia)) as Hne. set (sel := fitting 1024 (r0 :: rs0)) in *.
  destruct (fitting_prefix 1024 (r0 :: rs0)) as [rest Hrest]. fold sel in Hrest.
  assert (Hsel : d = concat sel /\ r = Z.of_nat (length d) /\ view k1 = put_fd fd (SRecords (drop (length sel) (r0 :: rs0))) (view k)) by (by destruct sel).
  destruct Hsel as (-> & -> & Hv1). rewrite Hk, put_fd_fd, Hrest, drop_app_length in Hv1.
  pose proof (fitting_length 1024 (r0 :: rs0) H1024) as Hlen. fold sel in Hlen.
  rewrite Hrest in Henc. apply Forall2_app_inv_l in Henc as (items1 & items2 & Henc1 & Henc2 & ->).
  assert (Hrec : Forall is_record sel) by (eapply Forall2_Forall_l; [exact Henc1|apply Forall_true; intros it r' [Hl (i & st & ->)]; by apply dirent_is_record]).
  pose proof (records_count sel Hrec) as Hcnt. assert (Hpos : (0 < length sel)%nat) by (destruct sel; [done|cbn; lia]).
  rewrite (proj2 (Z.ltb_ge _ _)), (proj2 (Z.eqb_neq _ _)), Nat2Z.id by lia.
  apply wp_bind, (wp_show_records sel items1); [done|by rewrite fill_take|lia|rewrite length_filled; lia|lia|].
  intros k2 Hv2. apply wp_ret. eapply (Hgo _ _ (length sel - 1)%nat rest items1 items2); [rewrite length_filled; lia|done|done|rewrite Hrest, length_app; lia|].
  by rewrite Hv2, Hv1, put_out_fd.
Qed.

Lemma wp_ls_loop fd items (Q : unit -> K -> Prop) X k v :
  Forall listable items -> view k = put_fd fd (SRecords (dirents 0 0 items)) v -> Z.of_nat (length items) < 2 ^ 64 ->
  (forall k', view k' = put_fd fd (SRecords []) (put_out (lines items) v) -> Q tt k') ->
  wp (forever (ls_turn fd) (zeros 1024)) Q X k.
Proof using UL.
  intros Hl Hk Hlen HQ. set (left := fun k => match v_fds (view k) !! fd with Some (SRecords r) => r | _ => [] end).
  apply wp_forever with
    (I := fun buf k' => length buf = 1024%nat /\ exists rs items1 items2, items = items1 ++ items2 /\ Forall2 encodes rs items2 /\
      view k' = put_fd fd (SRecords rs) (put_out (lines items1) v))
    (measure := fun _ k' => Z.of_nat (length (left k'))).
  - intros buf k1 (Hb & rs & items1 & items2 & -> & Henc & Hv). eapply wp_ls_turn; [done|exact Hv|exact Henc| |].
    + intros -> k2 Hv2. inversion Henc; subst. apply HQ. by rewrite Hv2, Hv, app_nil_r.
    + intros k2 buf' n rs' items3 items4 Hb' -> Henc' Hn Hv2. split.
      * split; [done|]. exists rs', (items1 ++ items3), items4. split_and!; [by rewrite app_assoc|done|].
        rewrite Hv2, put_out_out. unfold lines. by rewrite fmap_app, concat_app.
      * unfold left. rewrite Hv, Hv2. cbn. rewrite !lookup_insert_eq, Hn. lia.
  - intros. lia.
  - split; [done|]. exists (dirents 0 0 items), [], items. split_and!; [done|by apply dirents_encode|]. by rewrite put_out_nil.
  - unfold left. rewrite Hk. cbn. rewrite lookup_insert_eq, (Forall2_length _ _ _ (dirents_encode items Hl 0 0)). lia.
Qed.
(** ** [echo], [rm], [rmdir], [mkdir] *)

(** The arguments with single spaces between them. *)
Fixpoint spaced (args : list (list byte)) : list byte :=
  match args with [] => [] | [arg] => arg | arg :: args' => arg ++ bs " " ++ spaced args' end.

Lemma wp_echo_args args (Q : unit -> K -> Prop) X k :
  (forall k', view k' = put_out (spaced args) (view k) -> Q tt k') -> wp (echo_args true args) Q X k.
Proof using UL.
  assert (Hrest : forall args Q k, (forall k', view k' = put_out (concat ((fun a => bs " " ++ a) <$> args)) (view k) -> Q tt k') -> wp (echo_args false args) Q X k).
  { clear -UL. induction args as [|arg args IH]; intros Q k HQ; cbn [echo_args]; [apply wp_ret, HQ; by rewrite put_out_nil|].
    apply wp_bind, wp_write_str. intros k1 H1. apply wp_bind, wp_write_str. intros k2 H2. apply IH. intros k3 H3. apply HQ.
    rewrite H3, H2, H1, !put_out_out. done. }
  intros HQ. destruct args as [|arg args]; cbn [echo_args]; [apply wp_ret, HQ; by rewrite put_out_nil|].
  apply wp_bind, wp_ret, wp_bind, wp_write_str. intros k1 H1. apply Hrest. intros k2 H2. apply HQ. rewrite H2, H1, put_out_out. f_equal.
  clear. revert arg. induction args as [|a args IH]; intros arg; [apply app_nil_r|].
  change (spaced (arg :: a :: args)) with (arg ++ bs " " ++ spaced (a :: args)). rewrite <- IH. done.
Qed.

Lemma echo_prints argv (k : K) :
  wp (echo_main argv) (fun _ _ => False) (fun code k' => code = 0 /\ view k' = put_out (spaced (drop 1 argv) ++ [NEWLINE]) (view k)) k.
Proof using UL.
  unfold echo_main. apply wp_bind, wp_echo_args. intros k1 H1. apply wp_bind, wp_write_str. intros k2 H2. split; [done|].
  by rewrite H2, H1, put_out_out.
Qed.

(** Whether every call of the run succeeds, a message in between where one does not. *)
Fixpoint all_ok (call : list byte -> UCall) (args : list (list byte)) (k : K) : bool :=
  match args with
  | [] => true
  | arg :: args' => let '((r, _), k') := do_call (call arg) k in if r <? 0 then false else all_ok call args' k'
  end.

Lemma each_arg_code call msg args code k X :
  wp (each_arg call msg args code) (fun code' _ => code' = if all_ok call args k then code else 1) X k.
Proof using UL.
  assert (Hone : forall args k, wp (each_arg call msg args 1) (fun code' _ => code' = 1) X k).
  { clear -UL. induction args as [|arg args IH]; intros k; cbn [each_arg]; [by apply wp_ret|].
    apply wp_bind. unfold sc3, wp at 1. destruct (do_call _ k) as [[r d] k1]. destruct (_ <? 0); [|apply IH].
    apply wp_bind, wp_write_str. intros k2 _. apply IH. }
  revert code k. induction args as [|arg args IH]; intros code k; cbn [each_arg all_ok]; [by apply wp_ret|].
  apply wp_bind. unfold sc3, wp at 1. destruct (do_call _ k) as [[r d] k1]. destruct (_ <? 0); [|apply IH].
  apply wp_bind, wp_write_str. intros k2 _. apply Hone.
Qed.

(** The exit codes of [rm], [rmdir] and [mkdir]. *)
Lemma removal_codes argv k :
  (2 <= length argv)%nat ->
  let ends (m : prog K Z unit) call := wp m (fun _ _ => False) (fun code _ => code = if all_ok call (drop 1 argv) k then 0 else 1) k in
  ends (rm_main argv) UUnlink /\ ends (rmdir_main argv) URmdir /\ ends (mkdir_main argv) (fun p => UMkdir p 0).
Proof using UL.
  intros Hl ends. unfold ends, rm_main, rmdir_main, mkdir_main. rewrite (proj2 (Nat.ltb_ge _ _)) by done.
  split_and!; (apply wp_bind; eapply wp_mono; [apply (each_arg_code _ _ _ _ _ (fun _ _ => False))| |done]; by intros code k' ->).
Qed.
End Steps.

(** ** A kernel of one program *)

Definition next_fd (m : gmap Z Stream) : Z := map_fold (fun fd _ n => Z.max (fd + 1) n) 3 m.

Lemma next_fd_above m : 3 <= next_fd m /\ forall fd st, m !! fd = Some st -> fd < next_fd m.
Proof.
  unfold next_fd. apply (map_fold_weak_ind (fun n m => 3 <= n /\ forall fd st, m !! fd = Some st -> fd < n)); [done|].
  intros fd st m' n _ [Hn IH]. split; [lia|]. intros fd' st' H. apply lookup_insert_Some in H as [[<- _]|[_ H]]; [lia|].
  specialize (IH _ _ H). lia.
Qed.

Definition sim_call (c : UCall) (v : View) : (Z * list byte) * View :=
  match c with
  | UWrite fd s => if fd =? 1 then ((Z.of_nat (length s), []), put_out s v) else ((-9, []), v)
  | URead fd n =>
      match v_fds v !! fd with
      | Some (SBytes rest) => let d := take (Z.to_nat n) rest in ((Z.of_nat (length d), d), put_fd fd (SBytes (drop (Z.to_nat n) rest)) v)
      | Some (SRecords _) => ((-21, []), v)
      | None => ((-9, []), v)
      end
  | UGetdents64 fd n =>
      match v_fds v !! fd with
      | Some (SRecords rs) =>
          match fitting n rs with
          | [] => ((match rs with [] => 0 | _ => -22 end, []), v)
          | sel => ((Z.of_nat (length (concat sel)), concat sel), put_fd fd (SRecords (drop (length sel) rs)) v)
          end
      | Some (SBytes _) => ((-20, []), v)
      | None => ((-9, []), v)
      end
  | UOpen path _ =>
      match v_tree v path with
      | Some node => let fd := next_fd (v_fds v) in ((fd, []), put_fd fd (open_stream node) v)
      | None => ((-2, []), v)
      end
  | UClose fd => ((0, []), drop_fd fd v)
  | _ => ((-38, []), v)
  end.

#[export] Instance View_calls : Calls View := { do_call := sim_call }.
#[export] Instance View_kernel : UserKernel View := { view := id; max_open := 16 }.

#[export] Instance View_laws : UserKernelLaws View.
Proof.
  split; cbn [view View_kernel id do_call View_calls sim_call].
  - by intros s k a k' [= <- <-].
  - intros fd n rest k r d k' -> Hn [= <- <- <-]. split_and!; [done|rewrite length_take; lia| |].
    + intros Ht. apply (f_equal length) in Ht. rewrite length_take in Ht. cbn in Ht. destruct rest; [done|cbn in Ht; lia].
    + exists (drop (Z.to_nat n) rest). by rewrite take_drop.
  - by intros fd n rs k r d k' -> [= <- <- <-].
  - by intros fd n rs k r d k' -> [= <- <- <-].
  - intros fd n rs k r d k' -> Hn. destruct (fitting n rs) as [|r0 sel]; intros [= <- <- <-]; [|done]. split_and!; [done..|]. by destruct rs.
  - intros path k fd d k' _. destruct (v_tree k path) as [node|]; intros [= <- <- <-]; [|done].
    destruct (next_fd_above (v_fds k)) as [H3 Hnew]. split_and!; [lia| |done].
    destruct (v_fds k !! _) as [st|] eqn:E; [|done]. specialize (Hnew _ _ E). lia.
  - by intros fd k a k' _ [= <- <-].
Qed.

(** ** Properties *)

Definition exits {K} {CK : Calls K} (m : prog K Z unit) (Q : Z -> K -> Prop) (k : K) : Prop := wp m (fun _ _ => False) Q k.

(** [cat]: the output gets the bytes of every file of the arguments, in order and
    nothing else, and a message for a path that does not open; the exit code is 1
    exactly when there was one.  Without arguments the output gets what the input
    has.  It always ends, and leaves no descriptor open. *)
Theorem cat_copies {K} {CK : Calls K} {UK : UserKernel K} {UL : UserKernelLaws K} (argv : list (list byte)) (k : K) rest :
  (base.size (v_fds (view k)) < max_open)%nat -> Forall (catable (view k)) (drop 1 argv) ->
  v_fds (view k) !! 0 = Some (SBytes rest) -> Z.of_nat (length rest) < 2 ^ 64 ->
  exits (cat_main argv)
    (fun code k' =>
      if (length argv <? 2)%nat then code = 0 /\ view k' = put_fd 0 (SBytes []) (put_out rest (view k))
      else code = (if forallb (present (view k)) (drop 1 argv) then 0 else 1) /\
        view k' = put_out (concat (cat_shows (view k) <$> drop 1 argv)) (view k)) k.
Proof.
  intros Hs Hc H0 Hr. unfold exits, cat_main. destruct (_ <? 2)%nat.
  - apply wp_bind. eapply (wp_cat_fd 0 rest _ _ k (view k)); [|done|by intros k' Hv].
    unfold put_fd. rewrite insert_id by done. by destruct (view k).
  - apply wp_bind, wp_cat_files; [done..|]. by intros k' Hv.
Qed.

(** C36. [ls]: the output gets the names of the entries of the directory, one on a
    line, in the order of the directory, though the records come in pieces of at most
    1024 bytes; the exit code is 0.  A path that does not open gets a message and
    1, a file 2.  It always ends. *)
Theorem ls_lists {K} {CK : Calls K} {UK : UserKernel K} {UL : UserKernelLaws K} (argv : list (list byte)) (k : K) :
  let dir := match argv with _ :: dir :: _ => dir | _ => bs "." end in
  (base.size (v_fds (view k)) < max_open)%nat ->
  (forall items, v_tree (view k) dir = Some (NDir items) -> Forall listable items /\ Z.of_nat (length items) < 2 ^ 64) ->
  exits (ls_main argv)
    (fun code k' =>
      match v_tree (view k) dir with
      | Some (NDir items) => code = 0 /\ view k' = put_out (lines items) (view k)
      | Some (NFile _) => code = 2 /\ v_out (view k') = v_out (view k)
      | None => code = 1 /\ view k' = put_out (bs "ls: cannot open directory" ++ [NEWLINE]) (view k)
      end) k.
Proof.
  intros dir Hs Hl. unfold exits, ls_main. fold dir. unfold sc3 at 1. apply wp_bind. unfold wp at 1.
  destruct (do_call _ k) as [[fd d] k1] eqn:E. cbn beta iota. pose proof (u_open _ _ _ _ _ Hs E) as Ho.
  destruct (v_tree (view k) dir) as [node|] eqn:Et.
  2:{ destruct Ho as [Hfd Hv]. rewrite (proj2 (Z.ltb_lt _ _)) by done. apply wp_bind, wp_write_str. intros k2 Hv2. by rewrite Hv in Hv2. }
  destruct Ho as (Hfd & Hnew & Hv). rewrite (proj2 (Z.ltb_ge _ _)) by done. apply wp_bind. destruct node as [data|items].
  - cbn [open_stream] in Hv. apply wp_forever with (I := fun _ k' => k' = k1) (measure := fun _ _ => 0); [|done..].
    intros buf _ ->. unfold ls_turn, sc3. apply wp_bind. unfold wp at 1. destruct (do_call _ k1) as [[r d1] k2] eqn:E2. cbn beta iota.
    assert (Hst : v_fds (view k1) !! fd = Some (SBytes data)) by (rewrite Hv; apply lookup_insert_eq).
    destruct (u_getdents_file _ _ _ _ _ _ _ Hst E2) as (Hr & _ & Hv2). rewrite (proj2 (Z.ltb_lt _ _)) by done. split; [done|]. by rewrite Hv2, Hv.
  - destruct (Hl items eq_refl) as [Hok Hn]. eapply wp_ls_loop; [done|exact Hv|done|]. intros k2 Hv2. unfold sc3. apply wp_bind. unfold wp at 1.
    destruct (do_call (UClose fd) k2) as [a k3] eqn:E3. split; [done|].
    rewrite (u_close fd k2 a k3); [|by rewrite Hv2; cbn; rewrite lookup_insert_eq|done]. by rewrite Hv2, drop_put_fd.
Qed.

(** A directory of two entries, a file, and an input. *)
Definition sample_view : View :=
  mkView [] {[0 := SBytes (bs "typed")]}
    (fun p => if bool_decide (p = bs "/etc") then Some (NDir [mkDirItem (bs "MOTD") false; mkDirItem (bs "CONF") true])
              else if bool_decide (p = bs "/etc/MOTD") then Some (NFile (bs "hello")) else None).

Lemma cat_copies_witness :
  exits (cat_main [bs "cat"; bs "/etc/MOTD"; bs "/none"])
    (fun code k' => code = 1 /\ v_out k' = bs "hello" ++ bs "cat: cannot open file" ++ [NEWLINE]) sample_view.
Proof.
  eapply wp_mono; [apply (cat_copies [bs "cat"; bs "/etc/MOTD"; bs "/none"] sample_view (bs "typed"))|done|].
  - by apply Nat.ltb_lt.
  - repeat constructor; by apply Z.ltb_lt.
  - done.
  - by apply Z.ltb_lt.
  - intros code k' [-> Hv]. split; [done|]. change (view k') with k' in Hv. by rewrite Hv.
Defined.

Lemma ls_lists_witness :
  exits (ls_main [bs "ls"; bs "/etc"]) (fun code k' => code = 0 /\ v_out k' = bs "MOTD" ++ [NEWLINE] ++ bs "CONF" ++ [NEWLINE]) sample_view.
Proof.
  eapply wp_mono; [apply (ls_lists [bs "ls"; bs "/etc"] sample_view)|done|].
  - by apply Nat.ltb_lt.
  - intros items [= <-]. split; [|done]. repeat constructor; try (cbn; lia); by apply (bool_decide_unpack _).
  - intros code k' [-> Hv]. split; [done|]. change (view k') with k' in Hv. by rewrite Hv.
Defined.
