(* ===== verification/Clock.v ===== *)
(** * The tick clock

    [uptime_ns] of [arch/x86_64/interrupts.rs]: nanoseconds since boot, from the
    count of PIT ticks. *)

From stdpp Require Import base numbers.
From Stdlib Require Import ZArith Lia.
From S2P Require Import Prelude.
#[local] Open Scope Z_scope.

Definition PIT_INPUT_HZ : Z := 1193182.
Definition PIT_DIVISOR : Z := 65536.

(** [uptime_ns] of the tick counter: 128-bit arithmetic, cut to [u64]. *)
Definition ns_of_ticks (ticks : Z) : Z := (ticks * PIT_DIVISOR * 1000000000 / PIT_INPUT_HZ) mod U64.

(** Ticks of some 580 years, after which the nanoseconds no longer fit. *)
Definition TICKS_FIT : Z := U64 * PIT_INPUT_HZ / (PIT_DIVISOR * 1000000000).

Lemma ns_of_ticks_range t : 0 <= ns_of_ticks t < U64.
Proof. apply Z.mod_pos_bound. done. Qed.

Lemma ns_of_ticks_fit t : 0 <= t < TICKS_FIT -> ns_of_ticks t = t * PIT_DIVISOR * 1000000000 / PIT_INPUT_HZ.
Proof.
  intros Ht. apply Z.mod_small. split; [apply Z.div_pos; unfold PIT_DIVISOR, PIT_INPUT_HZ; lia|].
  apply Z.div_lt_upper_bound; [done|]. change TICKS_FIT with 335850875661 in Ht. unfold PIT_DIVISOR, PIT_INPUT_HZ, U64. lia.
Qed.

(** A tick is 54.9 ms. *)
Lemma ns_of_ticks_lower t : 0 <= t < TICKS_FIT -> t * 54925000 <= ns_of_ticks t.
Proof.
  intros Ht. rewrite ns_of_ticks_fit by done. apply Z.div_le_lower_bound; [done|]. unfold PIT_DIVISOR, PIT_INPUT_HZ. lia.
Qed.

Lemma ns_of_ticks_upper t : 0 <= t < TICKS_FIT -> ns_of_ticks t <= t * 54926000.
Proof.
  intros Ht. rewrite ns_of_ticks_fit by done. apply Z.div_le_upper_bound; [done|]. unfold PIT_DIVISOR, PIT_INPUT_HZ. lia.
Qed.

Lemma ns_of_ticks_mono t t' : 0 <= t <= t' -> t' < TICKS_FIT -> ns_of_ticks t <= ns_of_ticks t'.
Proof.
  intros Ht Ht'. rewrite !ns_of_ticks_fit by lia. apply Z.div_le_mono; [done|]. unfold PIT_DIVISOR. lia.
Qed.
