(* ===== verification/Smoltcp.v ===== *)
(** * The interface of the TCP/IP stack

    What [net/mod.rs] and [net/socket.rs] use of [smoltcp] 0.13.  The stack's types
    and the methods the kernel calls are parameters; [SmoltcpLaws] states what the
    kernel relies on. *)

From stdpp Require Import base numbers list gmap.
From Stdlib Require Import ZArith Lia.
From S2P Require Import Prelude.
#[local] Open Scope Z_scope.

(** [Interface::poll] talks to its [Device]: it asks for a frame, or sends one. *)
Inductive Poll (A : Type) : Type :=
| PollDone (a : A)
| PollReceive (k : option (list byte) -> Poll A)
| PollTransmit (frame : list byte) (k : Poll A).
Arguments PollDone {A} a.
Arguments PollReceive {A} k.
Arguments PollTransmit {A} frame k.

Record DhcpConfig : Type := mkDhcpConfig { cfg_addr : list byte; cfg_prefix : Z; cfg_router : option (list byte) }.
Inductive DhcpEvent : Type := Deconfigured | Configured (cfg : DhcpConfig).

Class SmolTypes : Type := {
  Interface : Type;
  SocketSet : Type;
  DhcpSocket : Type;
  UdpSocket : Type;
  TcpSocket : Type;
  IcmpSocket : Type
}.

(** The enum [smoltcp::socket::Socket]: [get_mut::<T>] panics on another kind. *)
Inductive Socket {ST : SmolTypes} : Type :=
| SDhcp (d : DhcpSocket)
| SUdp (u : UdpSocket)
| STcp (t : TcpSocket)
| SIcmp (i : IcmpSocket).

(** Addresses are four octets; buffers are given by their sizes (slots, bytes).  A
    method that takes [&mut self] gives the new socket, [None] is its [Err]. *)
Class Smoltcp {ST : SmolTypes} : Type := {
  interface_new : list byte -> Z -> Interface;
  iface_poll : Z -> Interface -> SocketSet -> Poll (Interface * SocketSet);
  iface_push_addr : list byte -> Z -> Interface -> Interface;
  iface_default_route : list byte -> Interface -> Interface;
  ss_new : SocketSet;
  ss_view : SocketSet -> gmap Z Socket;
  ss_add : Socket -> SocketSet -> Z * SocketSet;
  ss_remove : Z -> SocketSet -> SocketSet;
  ss_update : Z -> Socket -> SocketSet -> SocketSet;
  dhcp_new : DhcpSocket;
  dhcp_poll : DhcpSocket -> option DhcpEvent * DhcpSocket;
  udp_new : Z * Z -> Z * Z -> UdpSocket;
  udps_bind : Z -> UdpSocket -> option UdpSocket;
  udps_port : UdpSocket -> Z;
  udps_can_send : UdpSocket -> bool;
  udps_can_recv : UdpSocket -> bool;
  udps_send_slice : list byte -> list byte -> Z -> UdpSocket -> option UdpSocket;
  udps_recv : UdpSocket -> option (list byte * list byte * Z) * UdpSocket;
  udps_recv_slice : nat -> UdpSocket -> option (list byte) * UdpSocket;
  tcp_new : Z -> Z -> TcpSocket;
  tcps_connect : Interface -> list byte -> Z -> Z -> TcpSocket -> option (Interface * TcpSocket);
  tcps_may_send : TcpSocket -> bool;
  tcps_may_recv : TcpSocket -> bool;
  tcps_is_active : TcpSocket -> bool;
  tcps_can_send : TcpSocket -> bool;
  tcps_can_recv : TcpSocket -> bool;
  tcps_send_slice : list byte -> TcpSocket -> option nat * TcpSocket;
  tcps_recv_slice : nat -> TcpSocket -> option (list byte) * TcpSocket;
  icmp_new : Z * Z -> Z * Z -> IcmpSocket;
  icmps_bind : Z -> IcmpSocket -> option IcmpSocket;
  icmps_can_send : IcmpSocket -> bool;
  icmps_can_recv : IcmpSocket -> bool;
  icmps_send : list byte -> list byte -> IcmpSocket -> option IcmpSocket;
  icmps_recv : IcmpSocket -> option (list byte) * IcmpSocket;
  (* [Icmpv4Repr::EchoRequest] emitted, and the number of a packet that parses as an [EchoReply] *)
  echo_request : Z -> Z -> list byte -> list byte;
  echo_reply : list byte -> option Z
}.

(** ** What the kernel relies on *)

Fixpoint poll_all {A} (F : list byte -> Prop) (Q : A -> Prop) (p : Poll A) : Prop :=
  match p with
  | PollDone a => Q a
  | PollReceive k => forall f, poll_all F Q (k f)
  | PollTransmit frame k => F frame /\ poll_all F Q k
  end.

(** What a client sees of a socket: its kind, and what a TCP socket accepted to send. *)
Inductive SockView : Type := VDhcp | VUdp | VTcp (accepted : list byte) | VIcmp.

Class SmoltcpLaws {ST : SmolTypes} {SM : Smoltcp} : Type := {
  tcp_accepted : TcpSocket -> list byte;
  (* datagrams that wait to be received *)
  udp_waiting : UdpSocket -> Z;
  icmp_waiting : IcmpSocket -> Z;
  view_of (s : Socket) : SockView :=
    match s with SDhcp _ => VDhcp | SUdp _ => VUdp | STcp t => VTcp (tcp_accepted t) | SIcmp _ => VIcmp end;
  (* frames are not longer than the device's [max_transmission_unit], and sockets stay what they are *)
  poll_keeps t i ss : poll_all (fun f => (length f <= 1514)%nat)
    (fun r => view_of <$> ss_view r.2 = view_of <$> ss_view ss) (iface_poll t i ss);
  ss_new_view : ss_view ss_new = ∅;
  ss_add_view s ss : ss_view ss !! (ss_add s ss).1 = None /\ ss_view (ss_add s ss).2 = <[(ss_add s ss).1 := s]> (ss_view ss);
  ss_remove_view h ss : is_Some (ss_view ss !! h) -> ss_view (ss_remove h ss) = delete h (ss_view ss);
  ss_update_view h s ss : is_Some (ss_view ss !! h) -> ss_view (ss_update h s ss) = <[h := s]> (ss_view ss);
  udp_waiting_range u : 0 <= udp_waiting u < U64;
  udps_can_recv_waiting u : udps_can_recv u = true -> udp_waiting (udps_recv_slice 1500 u).2 < udp_waiting u;
  udps_recv_slice_len n u d : (udps_recv_slice n u).1 = Some d -> (length d <= n)%nat;
  tcp_new_accepted a b : tcp_accepted (tcp_new a b) = [];
  tcps_connect_accepted i ip p l t i' t' : tcps_connect i ip p l t = Some (i', t') -> tcp_accepted t' = tcp_accepted t;
  tcps_send_slice_accepted d t : match (tcps_send_slice d t).1 with
    | Some n => (n <= length d)%nat /\ tcp_accepted (tcps_send_slice d t).2 = tcp_accepted t ++ take n d
    | None => tcp_accepted (tcps_send_slice d t).2 = tcp_accepted t
    end;
  tcps_recv_slice_len n t d : (tcps_recv_slice n t).1 = Some d -> (length d <= n)%nat;
  tcps_recv_slice_accepted n t : tcp_accepted (tcps_recv_slice n t).2 = tcp_accepted t;
  icmp_waiting_range i : 0 <= icmp_waiting i < U64;
  icmps_can_recv_waiting i : icmps_can_recv i = true -> icmp_waiting (icmps_recv i).2 < icmp_waiting i;
  echo_reply_range d i : echo_reply d = Some i -> 0 <= i < U16
}.
