(* ===== verification/Net.v ===== *)
(** * The network layer

    [net/mod.rs] (the adapter [VirtioPhy] between the card's driver and the TCP/IP
    stack, DHCP, [ping], [resolve]) and [net/socket.rs] (the shared stack and the
    socket operations behind the system calls). *)

From stdpp Require Import base numbers list gmap.
From Stdlib Require Import ZArith Lia.
From S2P Require Import Prelude Abi Pci VirtioBlk VirtioNet Dns Clock Smoltcp NetStack.
#[local] Open Scope Z_scope.

Definition MTU : nat := 1514.
Definition DHCP_MAX_SPINS : Z := 200000000.
Definition DNS_LOCAL_PORT : Z := 49152.
Definition DNS_MSG_LEN : nat := 1500.
Definition INIT_TIMEOUT_NS : Z := 5000000000.
Definition RECV_TIMEOUT_NS : Z := 10000000000.
Definition SEND_TIMEOUT_NS : Z := 10000000000.
Definition EPHEMERAL_BASE : Z := 49152.
Definition EPHEMERAL_SPAN : Z := 16384.
Definition SOCK_META : Z := 8.
Definition SOCK_PAYLOAD : Z := 4096.
Definition TCP_BUF : Z := 8192.
Definition CONNECT_TIMEOUT_NS : Z := 10000000000.

(** The tick counter, and what happens to it between two readings. *)
Class Clock (C : Type) : Type := { ticks : C -> Z; elapse : C -> C }.

Record VirtioPhy : Type := mkVirtioPhy { rx : list byte }.
Definition VirtioPhy_new : VirtioPhy := mkVirtioPhy (zeros (MTU + 2)).

Record DhcpLease : Type := mkDhcpLease { addr : list byte; prefix : Z }.
Record PingStats : Type := mkPingStats { p_sent : Z; p_received : Z }.

(** [NetStack], and the triple that [bring_up] gives. *)
Record Stack {ST : SmolTypes} : Type := mkStack { iface : Interface; device : VirtioPhy; socks : SocketSet }.
Arguments mkStack {ST} iface device socks.

(** The driver's world, the clock, [STACK] and [EPHEMERAL_CTR]. *)
Record NetSys {ST : SmolTypes} (V C : Type) : Type := mkNetSys { nw : NetWorld V; clk : C; STACK : option Stack; EPHEMERAL_CTR : Z }.
Arguments mkNetSys {ST V C} nw clk STACK EPHEMERAL_CTR.
Arguments nw {ST V C} n.
Arguments clk {ST V C} n.
Arguments STACK {ST V C} n.
Arguments EPHEMERAL_CTR {ST V C} n.

(** The other threads, while this one has yielded. *)
Class Threads {ST : SmolTypes} (V C : Type) : Type := { yield_now : NetSys V C -> NetSys V C }.

Section Net.
Context {ST : SmolTypes} {SM : Smoltcp} {V C : Type} {P : PortIO V} {DM : DmaDevice V} {CK : Clock C} (phys_offset : Z).
#[local] Abbreviation NetSys := (NetSys V C).
#[local] Abbreviation net E A := (prog NetSys E A).

Definition set_nw (w : NetWorld V) (s : NetSys) : NetSys := mkNetSys w (clk s) (STACK s) (EPHEMERAL_CTR s).
Definition set_clk (c : C) (s : NetSys) : NetSys := mkNetSys (nw s) c (STACK s) (EPHEMERAL_CTR s).
Definition set_stack (o : option Stack) (s : NetSys) : NetSys := mkNetSys (nw s) (clk s) o (EPHEMERAL_CTR s).
Definition set_ctr (n : Z) (s : NetSys) : NetSys := mkNetSys (nw s) (clk s) (STACK s) n.

Definition in_nw {E A} (m : prog (NetWorld V) E A) : net E A := pzoom nw set_nw m.

(** [uptime_ns]: time may have gone by since the last reading. *)
Definition uptime {E} : net E Z :=
  pmodify (fun s => set_clk (elapse (clk s)) s) ;;!
  let! s := pget in pret (ns_of_ticks (ticks (clk s))).

(** Microseconds; below 2^63, so the cast to [i64] keeps them. *)
Definition now {E} : net E Z := let! u := uptime in pret (u / 1000).

(** ** The adapter *)

(** [receive], and the bytes the token gives. *)
Definition receive {E} (dev : VirtioPhy) : net E (option (list byte) * VirtioPhy) :=
  let! r := in_nw (recv phys_offset (length (rx dev))) in
  match r with
  | None => pret (None, dev)
  | Some d =>
      let rx' := splice (rx dev) 0 d in
      passert (length d <=? length rx')%nat ;;!
      pret (Some (take (length d) rx'), mkVirtioPhy rx')
  end.

(** [VirtioTxToken::consume], of a frame the stack writes. *)
Definition consume {E} (frame : list byte) : net E unit :=
  let buf := zeros (MTU + 2) in
  passert (length frame <=? length buf)%nat ;;!
  let buf := splice buf 0 frame in
  let! _ := in_nw (send phys_offset (take (length frame) buf)) in
  pret tt.

Fixpoint run_poll {E A} (p : Poll A) (dev : VirtioPhy) : net E (A * VirtioPhy) :=
  match p with
  | PollDone a => pret (a, dev)
  | PollReceive k => let! '(f, dev) := receive dev in run_poll (k f) dev
  | PollTransmit frame k => consume frame ;;! run_poll k dev
  end.

(** [iface.poll(now(), &mut device, &mut sockets)]. *)
Definition poll {E} (st : Stack) : net E Stack :=
  let! t := now in
  let! '(r, dev) := run_poll (iface_poll t (iface st) (socks st)) (device st) in
  pret (mkStack r.1 dev r.2).

Definition set_iface (i : Interface) (st : Stack) : Stack := mkStack i (device st) (socks st).
Definition set_socks (ss : SocketSet) (st : Stack) : Stack := mkStack (iface st) (device st) ss.

(** [sockets.get_mut::<T>(h)]. *)
Definition get_dhcp {E} (h : Z) (st : Stack) : net E DhcpSocket :=
  punwrap (match ss_view (socks st) !! h with Some (SDhcp d) => Some d | _ => None end).
Definition get_udp {E} (h : Z) (st : Stack) : net E UdpSocket :=
  punwrap (match ss_view (socks st) !! h with Some (SUdp d) => Some d | _ => None end).
Definition get_tcp {E} (h : Z) (st : Stack) : net E TcpSocket :=
  punwrap (match ss_view (socks st) !! h with Some (STcp d) => Some d | _ => None end).
Definition get_icmp {E} (h : Z) (st : Stack) : net E IcmpSocket :=
  punwrap (match ss_view (socks st) !! h with Some (SIcmp d) => Some d | _ => None end).

(** What a method leaves in the set. *)
Definition put_sock (h : Z) (s : Socket) (st : Stack) : Stack := set_socks (ss_update h s (socks st)) st.
Definition add_sock (s : Socket) (st : Stack) : Z * Stack :=
  let r := ss_add s (socks st) in (r.1, set_socks r.2 st).
Definition remove_sock {E} (h : Z) (st : Stack) : net E Stack :=
  passert (bool_decide (is_Some (ss_view (socks st) !! h))) ;;! pret (set_socks (ss_remove h (socks st)) st).

(** ** DHCP *)

Definition apply_config (cfg : DhcpConfig) (st : Stack) : Stack :=
  let i := iface_push_addr (cfg_addr cfg) (cfg_prefix cfg) (iface st) in
  let i := match cfg_router cfg with Some r => iface_default_route r i | None => i end in
  set_iface i st.

Definition dhcp_turn {E} (dhcp deadline : Z) (x : Z * Stack) : net E (Z * Stack + option DhcpLease * Stack) :=
  let '(spins, st) := x in
  let! u := uptime in
  if (deadline <=? u) || (DHCP_MAX_SPINS <=? spins) then pret (inr (None, st))
  else
    let! st := poll st in
    let! d := get_dhcp dhcp st in
    let r := dhcp_poll d in
    let st := put_sock dhcp (SDhcp r.2) st in
    match r.1 with
    | Some (Configured cfg) =>
        pret (inr (Some (mkDhcpLease (cfg_addr cfg) (cfg_prefix cfg)), apply_config cfg st))
    | _ => pret (inl (spins + 1, st))
    end.

Definition dhcp_configure {E} (st : Stack) (deadline : Z) : net E (option DhcpLease * Stack) :=
  let '(dhcp, st) := add_sock (SDhcp dhcp_new) st in
  let! '(lease, st) := forever (dhcp_turn dhcp deadline) (0, st) in
  let! st := remove_sock dhcp st in
  pret (lease, st).

(** [None] is the failure [tt]. *)
Definition bring_up : net unit Stack :=
  let! m := in_nw mac in
  let! m := pok_or m tt in
  let device := VirtioPhy_new in
  let! t := now in
  pret (mkStack (interface_new m t) device ss_new).

(** The first lines of [dhcp_acquire], [ping] and [resolve]. *)
Definition configured (timeout_ns : Z) : net unit (DhcpLease * Stack * Z) :=
  let! st := bring_up in
  let! u := uptime in
  let! deadline := u64_add u timeout_ns in
  let! '(lease, st) := dhcp_configure st deadline in
  let! lease := pok_or lease tt in
  pret (lease, st, deadline).

Definition dhcp_acquire (timeout_ns : Z) : net unit (list byte * Z) :=
  let! '(lease, _, _) := configured timeout_ns in
  pret (addr lease, prefix lease).

(** ** [ping] *)

Definition IDENT : Z := 0x22b8.
Definition ping_payload : list byte := bs "ferros-icmp-ping".

(** Requests, while there is room. *)
Definition ping_send {E} (dest : list byte) (count : Z) (x : Z * IcmpSocket) : net E (Z * IcmpSocket + Z * IcmpSocket) :=
  let '(sent, sock) := x in
  if (sent <? count) && icmps_can_send sock then
    match icmps_send (echo_request IDENT (sent mod U16) ping_payload) dest sock with
    | None => pret (inr (sent, sock))
    | Some sock => pret (inl (sent + 1, sock))
    end
  else pret (inr (sent, sock)).

(** Replies: the first for each number counts. *)
Definition ping_recv {E} (count : Z) (x : Z * list bool * IcmpSocket) : net E (Z * list bool * IcmpSocket + Z * list bool * IcmpSocket) :=
  let '(received, answered, sock) := x in
  if icmps_can_recv sock then
    let r := icmps_recv sock in
    match r.1 with
    | None => pret (inr (received, answered, r.2))
    | Some data =>
        match echo_reply data with
        | Some i =>
            if i <? count then
              let! seen := punwrap (answered !! Z.to_nat i) in
              if (seen : bool) then pret (inl (received, answered, r.2))
              else pret (inl (received + 1, <[Z.to_nat i := true]> answered, r.2))
            else pret (inl (received, answered, r.2))
        | None => pret (inl (received, answered, r.2))
        end
    end
  else pret (inr (received, answered, sock)).

Definition ping_turn {E} (dest : list byte) (count deadline handle : Z) (x : Z * Z * list bool * Stack) :
    net E (Z * Z * list bool * Stack + PingStats) :=
  let '(sent, received, answered, st) := x in
  let! go := (if received <? count then let! u := uptime in pret (u <? deadline) else pret false : net E bool) in
  if go then
    let! st := poll st in
    let! sock := get_icmp handle st in
    let! '(sent, sock) := forever (ping_send dest count) (sent, sock) in
    let! '(received, answered, sock) := forever (ping_recv count) (received, answered, sock) in
    pret (inl (sent, received, answered, put_sock handle (SIcmp sock) st))
  else pret (inr (mkPingStats sent received)).

Definition ping (dest : list byte) (count timeout_ns : Z) : net unit PingStats :=
  let count := Z.max count 1 in
  let! '(_, st, deadline) := configured timeout_ns in
  let! bytes := u64_mul 256 count in
  let! sock := pok_or (icmps_bind IDENT (icmp_new (count, bytes) (count, bytes))) tt in
  let '(handle, st) := add_sock (SIcmp sock) st in
  forever (ping_turn dest count deadline handle) (0, 0, replicate (Z.to_nat count) false, st).

(** ** [resolve] *)

Definition dns_recv (id : Z) (sock : UdpSocket) : net unit (UdpSocket + option (option (list byte)) * UdpSocket) :=
  if udps_can_recv sock then
    let r := udps_recv_slice DNS_MSG_LEN sock in
    match r.1 with
    | None => pret (inl r.2)
    | Some d =>
        let! a := pzoom (fun _ => tt) (fun _ s => s) (parse_answer id d) in
        match a with
        | Ipv4 addr => pret (inr (Some (Some addr), r.2))
        | NoIpv4 => pret (inr (Some None, r.2))
        | Ignore => pret (inl r.2)
        end
    end
  else pret (inr (None, sock)).

Definition dns_turn (id : Z) (query server : list byte) (deadline handle : Z) (x : bool * Stack) :
    net unit (bool * Stack + list byte) :=
  let '(asked, st) := x in
  let! u := uptime in
  if u <? deadline then
    let! st := poll st in
    let! sock := get_udp handle st in
    let '(asked, sock) :=
      if negb asked && udps_can_send sock then
        match udps_send_slice query server 53 sock with Some sock => (true, sock) | None => (asked, sock) end
      else (asked, sock) in
    let! '(answer, sock) := forever (dns_recv id) sock in
    let st := put_sock handle (SUdp sock) st in
    match answer with
    | Some a => let! a := pok_or a tt in pret (inr a)
    | None => pret (inl (asked, st))
    end
  else pfail tt.

Definition resolve (hostname dns_server : list byte) (timeout_ns : Z) : net unit (list byte) :=
  let! '(_, st, deadline) := configured timeout_ns in
  let slots := (4, Z.of_nat DNS_MSG_LEN) in
  let! sock := pok_or (udps_bind DNS_LOCAL_PORT (udp_new slots slots)) tt in
  let '(handle, st) := add_sock (SUdp sock) st in
  let! u := uptime in
  let id := u mod U16 in
  let! '(query, qlen) := pzoom (fun _ => tt) (fun _ s => s) (build_query id hostname (zeros DNS_MSG_LEN)) in
  passert (qlen <=? length query)%nat ;;!
  forever (dns_turn id (take qlen query) dns_server deadline handle) (false, st).

(** ** Sockets *)

Section Sockets.
Context {TH : Threads V C}.

Definition next_ephemeral_port {E} : net E Z :=
  let! s := pget in
  pput (set_ctr ((EPHEMERAL_CTR s + 1) mod U16) s) ;;!
  punwrap (checked U16 (EPHEMERAL_BASE + EPHEMERAL_CTR s mod EPHEMERAL_SPAN)).

Definition ensure_up {E} : net E bool :=
  let! s := pget in
  match STACK s with
  | Some _ => pret true
  | None =>
      let! r := ptry bring_up in
      match r with
      | inr _ => pret false
      | inl st =>
          let! u := uptime in
          let! deadline := u64_add u INIT_TIMEOUT_NS in
          let! '(lease, st) := dhcp_configure st deadline in
          match lease with
          | None => pret false
          | Some _ => pmodify (set_stack (Some st)) ;;! pret true
          end
      end
  end.

(** [guard.as_mut().ok_or(ENETDOWN)?], and what is left under the lock. *)
Definition stack : net Z Stack := let! s := pget in pok_or (STACK s) ENETDOWN.
Definition leave {E} (st : Stack) : net E unit := pmodify (set_stack (Some st)).

Definition open_socket (sock : Socket) : net Z Z :=
  let! up := ensure_up in
  if up then
    let! s := pget in
    let! st := punwrap (STACK s) in
    let '(h, st) := add_sock sock st in
    leave st ;;! pret h
  else pfail ENETDOWN.

Definition sock_udp_socket : net Z Z :=
  open_socket (SUdp (udp_new (SOCK_META, SOCK_PAYLOAD) (SOCK_META, SOCK_PAYLOAD))).

Definition sock_tcp_socket : net Z Z := open_socket (STcp (tcp_new TCP_BUF TCP_BUF)).

Definition sock_close_socket (handle : Z) : net Empty_set unit :=
  let! s := pget in
  match STACK s with
  | Some st => let! st := remove_sock handle st in leave st
  | None => pret tt
  end.

Definition sock_udp_bind (handle port : Z) : net Z unit :=
  let! st := stack in
  let! sock := get_udp handle st in
  let! sock := pok_or (udps_bind port sock) EINVAL in
  leave (put_sock handle (SUdp sock) st).

Definition sock_udp_sendto (handle : Z) (data dst_ip : list byte) (dst_port : Z) : net Z Z :=
  let! st := stack in
  let! sock := get_udp handle st in
  let! sock :=
    (if udps_port sock =? 0 then
       let! port := next_ephemeral_port in
       pok_or (udps_bind port sock) EINVAL
     else pret sock) in
  leave (put_sock handle (SUdp sock) st) ;;!
  let! sock := pok_or (udps_send_slice data dst_ip dst_port sock) EMSGSIZE in
  let st := put_sock handle (SUdp sock) st in
  let! st := poll st in
  leave st ;;!
  pret (Z.of_nat (length data)).

(** [if uptime_ns() >= deadline { return late }; yield_now()]. *)
Definition wait {A X} (deadline : Z) (late : net Z A) (x : X) : net Z (X + A) :=
  let! u := uptime in
  if deadline <=? u then let! a := late in pret (inr a)
  else pmodify yield_now ;;! pret (inl x).

Definition recvfrom_turn (handle : Z) (cap : nat) (deadline : Z) (_ : unit) : net Z (unit + list byte * list byte * Z) :=
  let! st := stack in
  let! st := poll st in
  leave st ;;!
  let! sock := get_udp handle st in
  if udps_can_recv sock then
    let r := udps_recv sock in
    leave (put_sock handle (SUdp r.2) st) ;;!
    match r.1 with
    | Some (payload, ip, port) => pret (inr (take (Nat.min (length payload) cap) payload, ip, port))
    | None => wait deadline (pfail EAGAIN) tt
    end
  else wait deadline (pfail EAGAIN) tt.

Definition sock_udp_recvfrom (handle : Z) (cap : nat) : net Z (list byte * list byte * Z) :=
  let! u := uptime in
  let! deadline := u64_add u RECV_TIMEOUT_NS in
  forever (recvfrom_turn handle cap deadline) tt.

Definition connect_turn (handle deadline : Z) (_ : unit) : net Z (unit + unit) :=
  let! st := stack in
  let! st := poll st in
  leave st ;;!
  let! sock := get_tcp handle st in
  if tcps_may_send sock then pret (inr tt)
  else if negb (tcps_is_active sock) then pfail ECONNREFUSED
  else wait deadline (pfail ETIMEDOUT) tt.

Definition sock_tcp_connect (handle : Z) (dst_ip : list byte) (dst_port : Z) : net Z unit :=
  let! local_port := next_ephemeral_port in
  let! st := stack in
  let! sock := get_tcp handle st in
  let! '(i, sock) := pok_or (tcps_connect (iface st) dst_ip dst_port local_port sock) EINVAL in
  leave (put_sock handle (STcp sock) (set_iface i st)) ;;!
  let! u := uptime in
  let! deadline := u64_add u CONNECT_TIMEOUT_NS in
  forever (connect_turn handle deadline) tt.

(** What is left of [data] after [sent] bytes goes to the transmit ring. *)
Definition send_turn (handle : Z) (data : list byte) (deadline : Z) (sent : nat) : net Z (nat + nat) :=
  let stop := if (0 <? sent)%nat then pret (inr sent) else pfail ENOTCONN in
  let! st := stack in
  let! sock := get_tcp handle st in
  if negb (tcps_may_send sock) then stop
  else
    let go (st : Stack) (sent : nat) :=
      let! st := poll st in
      leave st ;;!
      if (length data <=? sent)%nat then pret (inr sent) else wait deadline (pret sent) sent in
    if tcps_can_send sock then
      passert (sent <=? length data)%nat ;;!
      let r := tcps_send_slice (drop sent data) sock in
      let st := put_sock handle (STcp r.2) st in
      leave st ;;!
      match r.1 with
      | Some n => go st (sent + n)%nat
      | None => stop
      end
    else go st sent.

Definition sock_tcp_send (handle : Z) (data : list byte) : net Z Z :=
  let! u := uptime in
  let! deadline := u64_add u SEND_TIMEOUT_NS in
  let! n := forever (send_turn handle data deadline) 0%nat in
  pret (Z.of_nat n).

Definition recv_turn (handle : Z) (cap : nat) (deadline : Z) (_ : unit) : net Z (unit + list byte) :=
  let! st := stack in
  let! st := poll st in
  leave st ;;!
  let! sock := get_tcp handle st in
  if tcps_can_recv sock then
    let r := tcps_recv_slice cap sock in
    leave (put_sock handle (STcp r.2) st) ;;!
    pret (inr (default [] r.1))
  else if negb (tcps_may_recv sock) then pret (inr [])
  else wait deadline (pfail EAGAIN) tt.

Definition sock_tcp_recv (handle : Z) (cap : nat) : net Z (list byte) :=
  let! u := uptime in
  let! deadline := u64_add u RECV_TIMEOUT_NS in
  forever (recv_turn handle cap deadline) tt.
End Sockets.
End Net.

(** The interface the file layer uses. *)
#[export] Instance SmolStack {ST : SmolTypes} {SM : Smoltcp} {V C} {P : PortIO V} {DM : DmaDevice V} {CK : Clock C} {TH : Threads V C}
    (phys_offset : Z) : NetStack (NetSys V C) := {
  udp_socket := sock_udp_socket phys_offset;
  tcp_socket := sock_tcp_socket phys_offset;
  close_socket := sock_close_socket;
  udp_bind := sock_udp_bind;
  udp_sendto := sock_udp_sendto phys_offset;
  udp_recvfrom := sock_udp_recvfrom phys_offset;
  tcp_connect := sock_tcp_connect phys_offset;
  tcp_send := sock_tcp_send phys_offset;
  tcp_recv := sock_tcp_recv phys_offset
}.
