(* ===== verification/NetOps.v ===== *)
(** * The network layer: polling, DHCP and the shared stack *)

From stdpp Require Import base numbers list gmap.
From Stdlib Require Import ZArith Lia.
From S2P Require Import Prelude Abi Pci VirtioBlk VirtioNet VirtioNetTheorems VirtioNetOps Clock Smoltcp NetStack Net.
#[local] Open Scope Z_scope.

(** ** The adapter *)

(** A run of a poll: the answers to its requests for a frame, and what it sends. *)
Inductive runs {A} : Poll A -> list (option (list byte)) -> list (list byte) -> A -> Prop :=
| runs_done a : runs (PollDone a) [] [] a
| runs_receive k f ins outs a : runs (k f) ins outs a -> runs (PollReceive k) (f :: ins) outs a
| runs_transmit frame k ins outs a : runs k ins outs a -> runs (PollTransmit frame k) ins (frame :: outs) a.

Lemma runs_all {A} F (Q : A -> Prop) p ins outs a : runs p ins outs a -> poll_all F Q p -> Q a.
Proof. induction 1; cbn [poll_all]; [done|auto|intros []; auto]. Qed.

Section Adapter.
Context {ST : SmolTypes} {SM : Smoltcp} {V C : Type} {P : PortIO V} {DM : DmaDevice V} {NC : NetCard V} {NL : NetCardLaws V}.
Context {CK : Clock C} (phys_offset : Z).
Implicit Types s : NetSys V C.

Definition phy_ok (dev : VirtioPhy) : Prop := length (rx dev) = (MTU + 2)%nat.

Lemma VirtioPhy_new_ok : phy_ok VirtioPhy_new.
Proof. unfold phy_ok, VirtioPhy_new, zeros. cbn [rx]. by rewrite length_replicate. Qed.

Lemma front_of_splice (l d : list byte) : (length d <= length l)%nat -> take (length d) (splice l 0 d) = d.
Proof. intros H. apply (slice_splice_same l 0 d). lia. Qed.

Lemma wp_receive {E} pl dev s taken pending done (X : E -> NetSys V C -> Prop) :
  phy_ok dev -> nic_ready phys_offset pl (nw s) taken pending done ->
  wp (receive phys_offset dev) (fun r s' => phy_ok r.2 /\ s' = set_nw (nw s') s /\
    match r.1 with
    | None => pending = [] /\ nic_ready phys_offset pl (nw s') taken [] done
    | Some d => exists f rest, pending `prefix_of` f :: rest /\ d = take (MTU + 2) f /\ nic_ready phys_offset pl (nw s') (taken ++ [f]) rest done
    end) X s.
Proof.
  intros Hd R. unfold receive. apply wp_bind, wp_zoom. eapply wp_mono; [exact (wp_recv phys_offset pl (length (rx dev)) (nw s) taken pending done (fun _ _ => False) R)| |done].
  cbv beta. intros [d|] w' H; cbn [nw set_nw].
  - destruct H as (f & rest & Hp & -> & R'). rewrite Hd. assert (Hl : (length (take (MTU + 2) f) <= length (rx dev))%nat) by (rewrite length_take, Hd; lia).
    apply wp_bind, wp_assert.
    { apply Nat.leb_le. rewrite length_splice by lia. done. }
    apply wp_ret. cbn [fst snd]. split; [unfold phy_ok; cbn [rx]; rewrite length_splice by lia; done|]. split; [done|].
    exists f, rest. by rewrite front_of_splice.
  - apply wp_ret. by destruct H.
Qed.

Lemma wp_consume {E} pl frame s taken pending done (X : E -> NetSys V C -> Prop) :
  (length frame <= MTU)%nat -> nic_ready phys_offset pl (nw s) taken pending done ->
  wp (consume phys_offset frame) (fun _ s' => s' = set_nw (nw s') s /\
    exists rest, pending `prefix_of` rest /\ nic_ready phys_offset pl (nw s') taken rest (done ++ [frame])) X s.
Proof.
  intros Hl R. unfold consume. unfold MTU in *. apply wp_bind, wp_assert; [apply Nat.leb_le; unfold zeros; rewrite length_replicate; lia|].
  rewrite front_of_splice by (unfold zeros; rewrite length_replicate; lia). apply wp_bind, wp_zoom.
  eapply wp_mono; [exact (wp_send phys_offset pl frame (nw s) taken pending done (fun _ _ => False) R)| |done]. intros b w' [-> (rest & Hp & R')]. apply wp_ret. split; [done|].
  exists rest. split; [done|]. by rewrite (proj2 (Z.leb_le _ _)) in R' by lia.
Qed.

Lemma wp_run_poll {E A} pl (p : Poll A) dev s taken pending done (X : E -> NetSys V C -> Prop) :
  phy_ok dev -> nic_ready phys_offset pl (nw s) taken pending done -> poll_all (fun f => (length f <= MTU)%nat) (fun _ => True) p ->
  wp (run_poll phys_offset p dev) (fun r s' => phy_ok r.2 /\ s' = set_nw (nw s') s /\
    exists ins outs fs rest, runs p ins outs r.1 /\ omap id ins = take (MTU + 2) <$> fs /\ pending `prefix_of` fs ++ rest /\
      nic_ready phys_offset pl (nw s') (taken ++ fs) rest (done ++ outs)) X s.
Proof.
  revert dev s taken pending done. induction p as [a|k IH|frame k IH]; intros dev s taken pending done Hd R Hp; cbn [run_poll].
  - apply wp_ret. split; [done|]. split; [by destruct s|]. exists [], [], [], pending. rewrite !app_nil_r. split; [constructor|done].
  - apply wp_bind. eapply wp_mono; [by apply (wp_receive pl dev s taken pending done (fun _ _ => False))| |done]. intros [f dev'] s1 (Hd' & Hs1 & H). cbn [fst snd] in *.
    assert (Hsub : exists taken' rest g, taken' = taken ++ g /\ omap id [f] = take (MTU + 2) <$> g /\ pending `prefix_of` g ++ rest /\ nic_ready phys_offset pl (nw s1) taken' rest done).
    { destruct f as [d|]; [destruct H as (f & rest & Hpre & -> & R'); exists (taken ++ [f]), rest, [f]; done|].
      destruct H as [-> R']. exists taken, [], []. by rewrite app_nil_r. }
    destruct Hsub as (taken' & rest & g & -> & Hg & Hpre & R1). eapply wp_mono; [apply (IH f dev' s1 (taken ++ g) rest done Hd' R1 (Hp f))| |done].
    intros [a dev''] s2 (Hd2 & Hs2 & ins & outs & fs & rest' & Hr & Ho & Hpre' & R2). split; [done|]. split; [rewrite Hs2, Hs1; done|].
    exists (f :: ins), outs, (g ++ fs), rest'. split_and!; [by constructor| | |by rewrite app_assoc].
    + rewrite fmap_app, <- Hg, <- Ho. destruct f; done.
    + rewrite <- app_assoc. etrans; [exact Hpre|]. by apply prefix_app.
  - destruct Hp as [Hl Hp]. apply wp_bind. eapply wp_mono; [by apply (wp_consume pl frame s taken pending done (fun _ _ => False))| |done].
    intros [] s1 (Hs1 & rest & Hpre & R1). eapply wp_mono; [apply (IH dev s1 taken rest (done ++ [frame]) Hd R1 Hp)| |done].
    intros [a dev''] s2 (Hd2 & Hs2 & ins & outs & fs & rest' & Hr & Ho & Hpre' & R2). split; [done|]. split; [rewrite Hs2, Hs1; done|].
    exists ins, (frame :: outs), fs, rest'. split_and!; [by constructor|done|by etrans|by rewrite <- app_assoc in R2].
Qed.
End Adapter.

(** ** The system's invariant *)

(** The ticks that go by in one step, and the tick counts at which calls begin:
    years and centuries. *)
Definition STEP : Z := 2 ^ 32.
Definition EARLY : Z := 2 ^ 36.

(** [lag c]: the yields before the next tick. *)
Class ClockLaws (C : Type) {CK : Clock C} : Type := {
  lag : C -> Z;
  lag_range c : 0 <= lag c < 2 ^ 32;
  elapse_ticks c : ticks c <= ticks (elapse c) <= ticks c + STEP;
  elapse_lag c : ticks (elapse c) = ticks c -> lag (elapse c) <= lag c
}.

Section System.
Context {ST : SmolTypes} {SM : Smoltcp} {SL : SmoltcpLaws} {V C : Type} {P : PortIO V} {DM : DmaDevice V} {NC : NetCard V} {NL : NetCardLaws V}.
Context {CK : Clock C} {CL : ClockLaws C} (phys_offset : Z).
Implicit Types (s : NetSys V C) (st : Stack).

Definition nic_ok (w : NetWorld V) : Prop := NIC w = None \/ exists pl taken pending done, nic_ready phys_offset pl w taken pending done.

Definition sview st : gmap Z SockView := view_of <$> ss_view (socks st).
Definition net_view s : gmap Z SockView := match STACK s with Some st => sview st | None => ∅ end.

Record net_inv s : Prop := {
  ni_nic : nic_ok (nw s);
  ni_phy st : STACK s = Some st -> phy_ok (device st);
  ni_ctr : 0 <= EPHEMERAL_CTR s < U16
}.

Lemma wp_run_poll_any {E A} (p : Poll A) dev s (X : E -> NetSys V C -> Prop) :
  phy_ok dev -> nic_ok (nw s) -> poll_all (fun f => (length f <= MTU)%nat) (fun _ => True) p ->
  wp (run_poll phys_offset p dev) (fun r s' => phy_ok r.2 /\ s' = set_nw (nw s') s /\ nic_ok (nw s') /\ exists ins outs, runs p ins outs r.1) X s.
Proof.
  intros Hd [HN|(pl & taken & pending & done & R)] Hp.
  - revert dev Hd. induction p as [a|k IH|frame k IH]; intros dev Hd; cbn [run_poll].
    + apply wp_ret. split_and!; [done|by destruct s|by left|]. exists [], []. constructor.
    + apply wp_bind. unfold receive, in_nw, recv. apply wp_bind, wp_zoom, wp_bind, wp_get. rewrite HN. apply wp_ret. apply wp_ret.
      replace (set_nw (nw s) s) with s by (by destruct s). eapply wp_mono; [by apply IH| |done].
      intros [a dev'] s' (H1 & H2 & H3 & ins & outs & H4). split_and!; [done..|]. exists (None :: ins), outs. by constructor.
    + destruct Hp as [Hl Hp]. apply wp_bind. unfold consume, MTU in *. apply wp_bind, wp_assert; [apply Nat.leb_le; unfold zeros; rewrite length_replicate; lia|].
      rewrite front_of_splice by (unfold zeros; rewrite length_replicate; lia). unfold in_nw, send. apply wp_bind, wp_zoom.
      change (TX_BUF_SIZE - NET_HDR_LEN) with 4086. rewrite (proj2 (Z.ltb_ge _ _)) by lia. apply wp_bind, wp_get. rewrite HN. apply wp_ret, wp_ret.
      replace (set_nw (nw s) s) with s by (by destruct s). eapply wp_mono; [by apply IH| |done].
      intros [a dev'] s' (H1 & H2 & H3 & ins & outs & H4). split_and!; [done..|]. exists ins, (frame :: outs). by constructor.
  - eapply wp_mono; [by apply (wp_run_poll phys_offset pl p dev s taken pending done (fun _ _ => False))| |done].
    intros r s' (H1 & H2 & ins & outs & fs & rest & H3 & _ & _ & R'). split_and!; [done|done|right; eauto|eauto].
Qed.

Definition tick s : NetSys V C := set_clk (elapse (clk s)) s.

Lemma wp_uptime {E} s (Q : Z -> NetSys V C -> Prop) (X : E -> NetSys V C -> Prop) :
  Q (ns_of_ticks (ticks (elapse (clk s)))) (tick s) -> wp uptime Q X s.
Proof. intros H. apply wp_bind, wp_modify, wp_bind, wp_get, wp_ret, H. Qed.

Lemma poll_all_weaken {A} (F F' : list byte -> Prop) (Q Q' : A -> Prop) p :
  (forall f, F f -> F' f) -> (forall a, Q a -> Q' a) -> poll_all F Q p -> poll_all F' Q' p.
Proof. intros HF HQ. induction p; cbn [poll_all]; [auto|auto|]. intros []; auto. Qed.

Lemma wp_poll {E} st s (Q : Stack -> NetSys V C -> Prop) (X : E -> NetSys V C -> Prop) :
  phy_ok (device st) -> nic_ok (nw s) ->
  (forall st' w', phy_ok (device st') -> sview st' = sview st -> nic_ok w' -> Q st' (set_nw w' (tick s))) ->
  wp (poll phys_offset st) Q X s.
Proof.
  intros Hd Hn HQ. apply wp_bind. apply wp_bind, wp_uptime, wp_ret. apply wp_bind.
  set (p := iface_poll _ _ _). pose proof (poll_keeps _ _ _ : poll_all _ _ p) as Hp.
  eapply wp_mono; [apply (wp_run_poll_any p (device st) (tick s) (fun _ _ => False) Hd Hn); by eapply poll_all_weaken; [..|exact Hp]| |done].
  intros [r dev] s' (H1 & H2 & H3 & ins & outs & Hr). apply wp_ret. rewrite H2. apply HQ; [done| |done].
  exact (runs_all _ _ _ _ _ _ Hr Hp).
Qed.

Lemma sview_get st h v : sview st !! h = Some v -> exists k, ss_view (socks st) !! h = Some k /\ view_of k = v.
Proof. unfold sview. rewrite lookup_fmap. intros (k & Hk & ->)%fmap_Some. eauto. Qed.

Lemma sview_put st h k v : sview st !! h = Some v -> sview (put_sock h k st) = <[h := view_of k]> (sview st).
Proof. intros (k0 & Hk & _)%sview_get. unfold sview, put_sock. cbn [socks set_socks]. rewrite ss_update_view by eauto. by rewrite fmap_insert. Qed.

Lemma sview_put_same st h k : sview st !! h = Some (view_of k) -> sview (put_sock h k st) = sview st.
Proof. intros H. rewrite (sview_put _ _ _ _ H). by apply insert_id. Qed.

Lemma add_sock_view k st : sview st !! (add_sock k st).1 = None /\ sview (add_sock k st).2 = <[(add_sock k st).1 := view_of k]> (sview st) /\
  device (add_sock k st).2 = device st.
Proof.
  destruct (ss_add_view k (socks st)) as [H1 H2]. unfold add_sock, sview. cbn [fst snd socks device set_socks]. rewrite H2, fmap_insert, lookup_fmap, H1. done.
Qed.

Lemma wp_remove_sock {E} h st v s (Q : Stack -> NetSys V C -> Prop) (X : E -> NetSys V C -> Prop) :
  sview st !! h = Some v -> (forall st', device st' = device st -> sview st' = delete h (sview st) -> Q st' s) -> wp (remove_sock h st) Q X s.
Proof.
  intros (k & Hk & _)%sview_get HQ. apply wp_bind, wp_assert; [by apply bool_decide_eq_true_2; eexists|]. apply wp_ret, HQ; [done|].
  unfold sview. cbn [socks set_socks]. rewrite ss_remove_view by eauto. by rewrite fmap_delete.
Qed.

Lemma wp_get_dhcp {E} h st s (Q : DhcpSocket -> NetSys V C -> Prop) (X : E -> NetSys V C -> Prop) :
  sview st !! h = Some VDhcp -> (forall d, Q d s) -> wp (get_dhcp h st) Q X s.
Proof. intros (k & Hk & Hv)%sview_get HQ. unfold get_dhcp. rewrite Hk. destruct k; try done. by eapply wp_unwrap. Qed.

Lemma wp_get_udp {E} h st s (Q : UdpSocket -> NetSys V C -> Prop) (X : E -> NetSys V C -> Prop) :
  sview st !! h = Some VUdp -> (forall d, Q d s) -> wp (get_udp h st) Q X s.
Proof. intros (k & Hk & Hv)%sview_get HQ. unfold get_udp. rewrite Hk. destruct k; try done. by eapply wp_unwrap. Qed.

Lemma wp_get_icmp {E} h st s (Q : IcmpSocket -> NetSys V C -> Prop) (X : E -> NetSys V C -> Prop) :
  sview st !! h = Some VIcmp -> (forall d, Q d s) -> wp (get_icmp h st) Q X s.
Proof. intros (k & Hk & Hv)%sview_get HQ. unfold get_icmp. rewrite Hk. destruct k; try done. by eapply wp_unwrap. Qed.

Lemma wp_get_tcp {E} h st acc s (Q : TcpSocket -> NetSys V C -> Prop) (X : E -> NetSys V C -> Prop) :
  sview st !! h = Some (VTcp acc) -> (forall t, tcp_accepted t = acc -> Q t s) -> wp (get_tcp h st) Q X s.
Proof. intros (k & Hk & Hv)%sview_get HQ. unfold get_tcp. rewrite Hk. destruct k; try done. injection Hv as Hv. eapply wp_unwrap; [done|]. by apply HQ. Qed.

(** ** Time

    Time enough for a deadline. *)
Definition MAX_WAIT : Z := 2 ^ 60.
Definition early s : Prop := 0 <= ticks (clk s) <= EARLY.

Lemma wp_deadline {E} s t (Q : Z -> NetSys V C -> Prop) (X : E -> NetSys V C -> Prop) :
  0 <= t <= MAX_WAIT -> 0 <= ticks (clk s) <= EARLY + STEP -> Q (ns_of_ticks (ticks (elapse (clk s))) + t) (tick s) ->
  wp (let! u := uptime in u64_add u t) Q X s.
Proof.
  intros Ht [He0 He] HQ. apply wp_bind, wp_uptime. eapply wp_unwrap; [|exact HQ]. pose proof (elapse_ticks (clk s)) as Ht1.
  pose proof (ns_of_ticks_upper (ticks (elapse (clk s)))) as Hu. pose proof (ns_of_ticks_range (ticks (elapse (clk s)))) as Hr.
  unfold MAX_WAIT, EARLY, STEP, TICKS_FIT, U64, PIT_DIVISOR, PIT_INPUT_HZ in *. apply checked_spec. unfold in_width, U64.
  change (2 ^ 64 * 1193182 / (65536 * 1000000000)) with 335850875661 in Hu. lia.
Qed.

Lemma bind_assoc {S E A B D} (m : prog S E A) (f : A -> prog S E B) (g : B -> prog S E D) (x : S) :
  pbind (pbind m f) g x = pbind m (fun a => pbind (f a) g) x.
Proof. unfold pbind. by destruct (m x) as [[]]. Qed.

Lemma wp_with_deadline {E A} s t (k : Z -> prog (NetSys V C) E A) (Q : A -> NetSys V C -> Prop) (X : E -> NetSys V C -> Prop) :
  0 <= t <= MAX_WAIT -> 0 <= ticks (clk s) <= EARLY + STEP -> wp (k (ns_of_ticks (ticks (elapse (clk s))) + t)) Q X (tick s) ->
  wp (let! u := uptime in let! d := u64_add u t in k d) Q X s.
Proof.
  intros Ht He HQ. unfold wp. rewrite <- bind_assoc. apply wp_bind. by apply wp_deadline.
Qed.

Definition meas (c : C) : Z := (2 ^ 38 - ticks c) * 2 ^ 32 + lag c.

Definition timed (deadline : Z) (c : C) : Prop := 0 <= ticks c <= 2 ^ 37 + 2 * STEP /\ deadline <= (2 ^ 36 + 2 ^ 33) * 54926000 + MAX_WAIT.

(** The clock passed [T] nanoseconds since the call began in [s]. *)
Definition waited s (T : Z) s' : Prop := ns_of_ticks (ticks (elapse (clk s))) + T <= ns_of_ticks (ticks (clk s')).

Lemma meas_elapse c : meas (elapse c) <= meas c.
Proof.
  pose proof (elapse_ticks c). pose proof (elapse_lag c). pose proof (lag_range c). pose proof (lag_range (elapse c)). unfold meas.
  destruct (Z.eq_dec (ticks (elapse c)) (ticks c)) as [E|E]; [rewrite E; lia|nia].
Qed.

Lemma meas_bounds deadline c : timed deadline c -> 0 <= meas c < 2 ^ 128.
Proof. intros [[H0 H1] _]. pose proof (lag_range c). unfold meas, STEP in *. lia. Qed.

Lemma timed_start s T : 0 <= ticks (clk s) <= EARLY + STEP -> 0 <= T <= MAX_WAIT -> timed (ns_of_ticks (ticks (elapse (clk s))) + T) (clk (tick s)).
Proof.
  intros [E0 E1] HT. pose proof (elapse_ticks (clk s)) as Ht. unfold timed, EARLY, STEP, tick in *. cbn [clk set_clk].
  pose proof (ns_of_ticks_upper (ticks (elapse (clk s)))) as Hu. unfold TICKS_FIT, U64, PIT_DIVISOR, PIT_INPUT_HZ in Hu.
  change (2 ^ 64 * 1193182 / (65536 * 1000000000)) with 335850875661 in Hu. lia.
Qed.

(** The clock after a turn that began in time: what it reads before the deadline is
    not too late. *)
Lemma in_time deadline c c1 : timed deadline c -> ticks c <= ticks c1 <= ticks c + 2 * STEP -> ns_of_ticks (ticks c1) < deadline -> 0 <= ticks c1 <= 2 ^ 37.
Proof.
  intros [[T0 T1] TD] H1 Hu. pose proof (ns_of_ticks_lower (ticks c1)) as Hl. unfold STEP, MAX_WAIT in *.
  unfold TICKS_FIT, U64, PIT_DIVISOR, PIT_INPUT_HZ in Hl. change (2 ^ 64 * 1193182 / (65536 * 1000000000)) with 335850875661 in Hl. lia.
Qed.

(** ** DHCP *)

(** Whatever the network does, and even when the clock stands still: DHCP ends, and
    takes its socket away again. *)
Lemma wp_dhcp_configure {E} st deadline s (X : E -> NetSys V C -> Prop) :
  phy_ok (device st) -> nic_ok (nw s) ->
  wp (dhcp_configure phys_offset st deadline) (fun r s' => phy_ok (device r.2) /\ sview r.2 = sview st /\ nic_ok (nw s') /\ s' = mkNetSys (nw s') (clk s') (STACK s) (EPHEMERAL_CTR s) /\
    (timed deadline (clk s) -> r.1 = None \/ (timed deadline (clk s') /\ ticks (clk s') <= 2 ^ 37 + STEP))) X s.
Proof.
  intros Hd Hn. unfold dhcp_configure. destruct (add_sock_view (SDhcp dhcp_new) st) as (A1 & A2 & A3). destruct (add_sock _ st) as [h st1] eqn:Ea.
  cbn [fst snd view_of] in *. set (ok st' s' := phy_ok (device st') /\ sview st' = <[h := VDhcp]> (sview st) /\ nic_ok (nw s') /\ s' = mkNetSys (nw s') (clk s') (STACK s) (EPHEMERAL_CTR s)).
  set (intime s' := timed deadline (clk s) -> timed deadline (clk s')). set (soon s' := timed deadline (clk s') /\ ticks (clk s') <= 2 ^ 37 + STEP).
  apply wp_bind. eapply wp_mono; [apply (wp_forever _ (fun x s' => (ok x.2 s' /\ intime s') /\ 0 <= x.1 <= DHCP_MAX_SPINS) (fun x _ => DHCP_MAX_SPINS - x.1)
    (fun r s' => ok r.2 s' /\ (timed deadline (clk s) -> r.1 = None \/ (timed deadline (clk s') /\ ticks (clk s') <= 2 ^ 37 + STEP))) X)| |done].
  - intros [spins st'] s' [[(H1 & H2 & H3 & H4) HT] Hsp]. cbn [fst snd] in *. unfold dhcp_turn. apply wp_bind, wp_uptime.
    destruct (_ || (DHCP_MAX_SPINS <=? spins)) eqn:Eo; [apply wp_ret; cbn [fst snd]; split; [|by left]; split_and!; try done; cbn; by rewrite H4|].
    apply orb_false_iff in Eo as [Eu Eo]. zbool. apply wp_bind, wp_poll; [done|done|]. intros st2 w2 P1 P2 P3.
    assert (Hv : sview st2 !! h = Some VDhcp) by (rewrite P2, H2; apply lookup_insert_eq).
    apply wp_bind, wp_get_dhcp; [done|]. intros d. set (st3 := put_sock _ _ _).
    assert (ok st3 (set_nw w2 (tick (tick s')))) as K.
    { split_and!; [done| |done|cbn; rewrite H4; done]. unfold st3. rewrite sview_put_same by done. by rewrite P2. }
    assert (KT : timed deadline (clk s) -> soon (set_nw w2 (tick (tick s')))).
    { intros Ht. pose proof (HT Ht) as Ht'. pose proof (elapse_ticks (clk s')) as E1. pose proof (elapse_ticks (elapse (clk s'))) as E2.
      assert (H5 : 0 <= ticks (elapse (clk s')) <= 2 ^ 37) by (apply (in_time deadline (clk s')); [done|unfold STEP in *; lia|done]). split; [split; [cbn; unfold STEP in *; lia|apply Ht]|cbn; lia]. }
    destruct (dhcp_poll d).1 as [[|cfg]|]; apply wp_ret; cbn [fst snd]; try (split; [split; [split; [exact K|intros Ht; by apply KT]|lia]|lia]). split; [exact K|]. intros Ht. right. by apply KT.
  - intros [x1 x2] s' [_ Hx]. cbn in *. lia.
  - cbn [fst snd]. split; [|done]. split; [|intros ?; assumption]. split_and!; [by rewrite A3|done|done|by destruct s].
  - done.
  - intros [lease st2] s' ((H1 & H2 & H3 & H4) & HT). cbn [fst snd] in *. apply wp_bind. eapply wp_remove_sock; [rewrite H2; apply lookup_insert_eq|].
    intros st3 D1 D2. apply wp_ret. cbn [fst snd]. rewrite D1, D2, H2. split_and!; [done|by rewrite delete_insert_id|done|done|done].
Qed.
End System.
