(* ===== verification/NetSockets.v ===== *)
(** * The network layer: socket operations

    Each operation of [net/socket.rs] on a socket of its kind, while other threads
    run at every yield: it returns, and leaves the sockets as it should. *)

From stdpp Require Import base numbers list gmap.
From Stdlib Require Import ZArith Lia.
From S2P Require Import Prelude Abi Pci VirtioBlk VirtioNet VirtioNetTheorems VirtioNetOps Clock Smoltcp NetStack Net NetOps.
#[local] Open Scope Z_scope.

Section Sockets.
Context {ST : SmolTypes} {SM : Smoltcp} {SL : SmoltcpLaws} {V C : Type} {P : PortIO V} {DM : DmaDevice V} {NC : NetCard V} {NL : NetCardLaws V}.
Context {CK : Clock C} {CL : ClockLaws C} (phys_offset : Z).
Implicit Types (s : NetSys V C) (st : Stack).
#[local] Abbreviation net_inv := (net_inv phys_offset).

(** What the other threads do while this one has yielded: some thread runs with
    interrupts on, so that a tick comes in the end; the stack stays up; [R] relates
    the sockets before and after. *)
Class ThreadsLaws {TH : Threads V C} (R : relation (gmap Z SockView)) : Prop := {
  rely_preorder :: PreOrder R;
  yield_ticks s : ticks (clk s) <= ticks (clk (yield_now s)) <= ticks (clk s) + STEP;
  yield_lag s : ticks (clk (yield_now s)) = ticks (clk s) -> lag (clk (yield_now s)) < lag (clk s);
  yield_keeps s : net_inv s -> net_inv (yield_now s) /\ (is_Some (STACK s) -> is_Some (STACK (yield_now s))) /\ R (net_view s) (net_view (yield_now s))
}.

(** ** The stack *)

Lemma net_inv_same s s' : net_inv s -> nic_ok phys_offset (nw s') -> STACK s' = STACK s -> EPHEMERAL_CTR s' = EPHEMERAL_CTR s -> net_inv s'.
Proof. intros [I1 I2 I3] H1 H2 H3. split; [done|intros st; rewrite H2; apply I2|by rewrite H3]. Qed.

Lemma net_inv_leave st s : net_inv s -> phy_ok (device st) -> net_inv (set_stack (Some st) s).
Proof. intros [I1 I2 I3] Hd. split; [done| |done]. cbn. by intros st' [= <-]. Qed.

Lemma wp_bring_up s (Q : Stack -> NetSys V C -> Prop) (X : unit -> NetSys V C -> Prop) :
  (forall st, phy_ok (device st) -> sview st = ∅ -> Q st (tick s)) -> (NIC (nw s) = None -> X tt s) -> wp bring_up Q X s.
Proof.
  intros HQ HX. unfold bring_up. apply wp_bind. apply wp_zoom, wp_bind, wp_get, wp_ret. replace (set_nw (nw s) s) with s by (by destruct s).
  destruct (NIC (nw s)); cbn [fmap option_fmap option_map]; apply wp_bind; [|by apply HX]. apply wp_ret. apply wp_bind, wp_bind, wp_uptime, wp_ret, wp_ret.
  apply HQ; [apply VirtioPhy_new_ok|]. unfold sview. cbn [socks]. by rewrite ss_new_view, fmap_empty.
Qed.

Lemma wp_ensure_up {E} s (Q : bool -> NetSys V C -> Prop) (X : E -> NetSys V C -> Prop) :
  net_inv s -> early s ->
  (forall s', net_inv s' -> STACK s' = STACK s -> STACK s = None -> Q false s') ->
  (forall s' st, net_inv s' -> STACK s' = Some st -> net_view s' = net_view s -> Q true s') -> wp (ensure_up phys_offset) Q X s.
Proof.
  intros I He Hno Hyes. unfold ensure_up. apply wp_bind, wp_get. destruct (STACK s) as [st|] eqn:Es; [apply wp_ret; by eapply Hyes|].
  apply wp_bind, wp_try, wp_bring_up; [|intros _; apply wp_ret; by apply Hno]. intros st Hd Hv. apply wp_with_deadline; [done| |].
  { pose proof (elapse_ticks (clk s)). unfold early in He. cbn. lia. }
  pose proof (ni_nic _ _ I) as Hn. apply wp_bind. eapply wp_mono; [by apply (wp_dhcp_configure phys_offset st _ (tick (tick s)) (fun _ _ => False))| |done].
  intros [lease st'] s' (H1 & H2 & H3 & H4 & _). cbn [snd] in *. cbn in H4. rewrite Es in H4.
  assert (I' : net_inv s') by (apply (net_inv_same s); [done|done|by rewrite H4, Es|by rewrite H4]).
  destruct lease as [lease|]; [|apply wp_ret, Hno; [done|by rewrite H4|done]]. apply wp_bind, wp_modify, wp_ret. eapply Hyes; [by apply net_inv_leave|done|].
  unfold net_view. cbn [STACK set_stack]. by rewrite Es, H2.
Qed.

Lemma wp_open_sock k s :
  net_inv s -> early s ->
  wp (open_socket phys_offset k) (fun h s' => net_inv s' /\ net_view s !! h = None /\ net_view s' = <[h := view_of k]> (net_view s))
    (fun e s' => e = ENETDOWN /\ net_inv s' /\ net_view s' = net_view s) s.
Proof.
  intros I He. apply wp_bind, wp_ensure_up; [done|done| |].
  - intros s' I' H1 H2. apply wp_fail. split_and!; [done..|]. unfold net_view. by rewrite H1.
  - intros s' st I' H1 H2. apply wp_bind, wp_get. rewrite H1. apply wp_bind. eapply wp_unwrap; [done|].
    destruct (add_sock_view k st) as (A1 & A2 & A3). destruct (add_sock k st) as [h st'] eqn:Ea. cbn [fst snd] in *. apply wp_bind, wp_modify, wp_ret.
    assert (Hv : net_view s = sview st) by (rewrite <- H2; unfold net_view; by rewrite H1).
    split; [apply net_inv_leave; [done|]; rewrite A3; by apply (ni_phy _ _ I')|]. rewrite Hv. split; [done|]. done.
Qed.

Lemma net_view_stack s h v : net_view s !! h = Some v -> exists st, STACK s = Some st /\ sview st !! h = Some v.
Proof. unfold net_view. destruct (STACK s) as [st|]; [by exists st|]. by rewrite lookup_empty. Qed.

Lemma wp_stack s st (Q : Stack -> NetSys V C -> Prop) (X : Z -> NetSys V C -> Prop) : STACK s = Some st -> Q st s -> wp stack Q X s.
Proof. intros Hs HQ. apply wp_bind, wp_get. rewrite Hs. by apply wp_ret. Qed.

(** [stack], [poll], [leave]. *)
Lemma wp_poll_stack {A} s (k : Stack -> prog (NetSys V C) Z A) (Q : A -> NetSys V C -> Prop) (X : Z -> NetSys V C -> Prop) :
  net_inv s -> is_Some (STACK s) ->
  (forall st s', net_inv s' -> STACK s' = Some st -> phy_ok (device st) -> net_view s' = net_view s -> sview st = net_view s -> clk s' = elapse (clk s) -> wp (k st) Q X s') ->
  wp (let! st := stack in let! st := poll phys_offset st in leave st ;;! k st) Q X s.
Proof.
  intros I [st Hst] HQ. apply wp_bind. eapply wp_stack; [done|]. pose proof (ni_phy _ _ I _ Hst) as Hd. apply wp_bind, wp_poll; [done|apply (ni_nic _ _ I)|].
  intros st' w' P1 P2 P3. apply wp_bind, wp_modify. assert (Hv : sview st' = net_view s) by (rewrite P2; unfold net_view; by rewrite Hst).
  apply HQ; [|done|done|done|done|done]. apply net_inv_leave; [|done]. by apply (net_inv_same s).
Qed.

(** ** Waiting *)

Context {TH : Threads V C} (R : relation (gmap Z SockView)) {TL : ThreadsLaws R}.

Lemma yield_meas s : 0 <= ticks (clk s) -> meas (clk (yield_now s)) < meas (clk s).
Proof.
  intros H0. pose proof (yield_ticks s). pose proof (yield_lag s). pose proof (lag_range (clk s)). pose proof (lag_range (clk (yield_now s))). unfold meas.
  destruct (Z.eq_dec (ticks (clk (yield_now s))) (ticks (clk s))) as [E|E]; [rewrite E; lia|nia].
Qed.

Lemma wp_wait_sock {A X} deadline (late : prog (NetSys V C) Z A) (x : X) c0 s (Q : X + A -> NetSys V C -> Prop) (F : Z -> NetSys V C -> Prop) :
  timed deadline c0 -> clk s = elapse c0 -> net_inv s -> is_Some (STACK s) ->
  (deadline <= ns_of_ticks (ticks (clk (tick s))) -> wp late (fun a s' => Q (inr a) s') F (tick s)) ->
  (forall s', net_inv s' -> is_Some (STACK s') -> R (net_view s) (net_view s') -> timed deadline (clk s') -> meas (clk s') < meas c0 -> Q (inl x) s') ->
  wp (wait deadline late x) Q F s.
Proof.
  intros HT Hc I Hs Hlate Hgo. apply wp_bind, wp_uptime. destruct (deadline <=? _) eqn:Ed; zbool.
  - apply wp_bind. eapply wp_mono; [by apply Hlate| |done]. intros a s' HQ. by apply wp_ret.
  - apply wp_bind, wp_modify, wp_ret. assert (It : net_inv (tick s)) by (by apply (net_inv_same s); [|apply (ni_nic _ _ I)|..]).
    destruct (yield_keeps _ It) as (I' & Hst & HR). pose proof (elapse_ticks c0) as E1. pose proof (elapse_ticks (clk s)) as E2.
    pose proof (yield_ticks (tick s)) as E3. change (clk (tick s)) with (elapse (clk s)) in E3. rewrite Hc in E2, E3, Ed.
    assert (H5 : 0 <= ticks (elapse (elapse c0)) <= 2 ^ 37) by (apply (in_time deadline c0); [done|lia|done]).
    apply Hgo; [done|by apply Hst|done|split; [unfold STEP in *; lia|apply HT]|].
    pose proof (yield_meas (tick s)) as M1. pose proof (meas_elapse (clk s)) as M2. pose proof (meas_elapse c0) as M3.
    change (clk (tick s)) with (elapse (clk s)) in M1. rewrite Hc in M1, M2. lia.
Qed.

(** ** The operations

    On socket [h], which the other threads leave alone. *)

Section Socket.
Context (h : Z) (Hh : forall m m', R m m' -> m' !! h = m !! h).

Definition turned (v : SockView) (m : gmap Z SockView) (deadline : Z) s : Prop :=
  net_inv s /\ is_Some (STACK s) /\ R m (net_view s) /\ net_view s !! h = Some v /\ timed deadline (clk s).

Lemma turned_start v T s : net_inv s -> early s -> net_view s !! h = Some v -> 0 <= T <= MAX_WAIT ->
  turned v (net_view s) (ns_of_ticks (ticks (elapse (clk s))) + T) (tick s).
Proof.
  intros I He Hv HT. destruct (net_view_stack _ _ _ Hv) as (st & Hst & _). split_and!; [|by exists st|done|done|apply timed_start; [unfold early, STEP in *; lia|done]].
  apply (net_inv_same s); [done|apply (ni_nic _ _ I)|done|done].
Qed.

(** A turn that got nothing: the next one, or [e] when the time is up. *)
Lemma wp_turn_wait {A} v m deadline e c0 s (Q : A -> NetSys V C -> Prop) :
  timed deadline c0 -> clk s = elapse c0 -> net_inv s -> is_Some (STACK s) -> R m (net_view s) -> net_view s !! h = Some v ->
  wp (wait deadline (pfail e) tt) (fun r s' => match r with inl _ => turned v m deadline s' /\ meas (clk s') < meas c0 | inr a => Q a s' end)
    (fun e' s' => e' = e /\ deadline <= ns_of_ticks (ticks (clk s')) /\ net_inv s' /\ R m (net_view s')) s.
Proof.
  intros HT Hc I Hs HR Hv. eapply wp_wait_sock; [done..| |].
  - intros Hl. apply wp_fail. split_and!; [done|done| |done]. apply (net_inv_same s); [done|apply (ni_nic _ _ I)|done|done].
  - intros s' I' S' R' T' M'. split; [|done]. split_and!; [done|done|by etrans| |done]. by rewrite (Hh _ _ R').
Qed.

(** What a receive leaves: a socket that changed inside. *)
Lemma view_leave s st k v : sview st = net_view s -> net_view s !! h = Some v -> view_of k = v -> net_view (set_stack (Some (put_sock h k st)) s) = net_view s.
Proof. intros H1 H2 H3. unfold net_view at 1. cbn [STACK set_stack]. rewrite sview_put_same; [done|]. by rewrite H1, H3. Qed.

(** The loop of a blocking operation. *)
Lemma wp_timed {A} v T (turn : Z -> unit -> prog (NetSys V C) Z (unit + A)) s (Q : A -> NetSys V C -> Prop) (F : Z -> NetSys V C -> Prop) :
  net_inv s -> early s -> net_view s !! h = Some v -> 0 <= T <= MAX_WAIT ->
  (forall deadline s1, deadline = ns_of_ticks (ticks (elapse (clk s))) + T -> turned v (net_view s) deadline s1 ->
     wp (turn deadline tt) (fun r s' => match r with inl _ => turned v (net_view s) deadline s' /\ meas (clk s') < meas (clk s1) | inr a => Q a s' end) F s1) ->
  wp (let! u := uptime in let! deadline := u64_add u T in forever (turn deadline) tt) Q F s.
Proof.
  intros I He Hv HT Hturn. apply wp_with_deadline; [done|unfold early, EARLY, STEP in *; lia|]. pose proof (turned_start v T s I He Hv HT) as Ht.
  pose proof (fun s1 => Hturn _ s1 eq_refl) as Hdl. set (dl := _ + T) in *.
  apply (wp_forever _ (fun _ s' => turned v (net_view s) dl s') (fun _ s' => meas (clk s'))).
  - intros [] s1 H1. by apply Hdl.
  - intros _ s1 (_ & _ & _ & _ & T1). by apply (meas_bounds dl).
  - done.
  - destruct Ht as (_ & _ & _ & _ & T1). by apply (meas_bounds dl).
Qed.

Lemma wp_udp_recvfrom cap s :
  net_inv s -> early s -> net_view s !! h = Some VUdp ->
  wp (sock_udp_recvfrom phys_offset h cap) (fun r s' => (length r.1.1 <= cap)%nat /\ net_inv s' /\ R (net_view s) (net_view s'))
    (fun e s' => e = EAGAIN /\ waited s RECV_TIMEOUT_NS s' /\ net_inv s' /\ R (net_view s) (net_view s')) s.
Proof.
  intros I He Hv. eapply wp_timed; [done..|]. intros dl s1 Hdl (I1 & S1 & R1 & V1 & T1). unfold waited. rewrite <- Hdl.
  apply wp_poll_stack; [done|done|]. intros st s2 I2 S2 D2 N2 N2' C2. rewrite <- N2 in *.
  apply wp_bind, wp_get_udp; [by rewrite N2'|]. intros u. destruct (udps_can_recv u); [|by eapply wp_turn_wait].
  apply wp_bind, wp_modify. set (s3 := set_stack _ s2). assert (N3 : net_view s3 = net_view s2) by (by eapply view_leave).
  assert (I3 : net_inv s3) by (by apply net_inv_leave). destruct (udps_recv u).1 as [[[payload ip] port]|].
  - apply wp_ret. cbn [fst]. rewrite N3. split; [|done]. rewrite length_take. lia.
  - eapply wp_turn_wait; [done..|by rewrite N3|by rewrite N3].
Qed.

Lemma wp_tcp_recv cap acc s :
  net_inv s -> early s -> net_view s !! h = Some (VTcp acc) ->
  wp (sock_tcp_recv phys_offset h cap) (fun r s' => (length r <= cap)%nat /\ net_inv s' /\ R (net_view s) (net_view s'))
    (fun e s' => e = EAGAIN /\ waited s RECV_TIMEOUT_NS s' /\ net_inv s' /\ R (net_view s) (net_view s')) s.
Proof.
  intros I He Hv. eapply wp_timed; [done..|]. intros dl s1 Hdl (I1 & S1 & R1 & V1 & T1). unfold waited. rewrite <- Hdl.
  apply wp_poll_stack; [done|done|]. intros st s2 I2 S2 D2 N2 N2' C2. rewrite <- N2 in *.
  apply wp_bind. eapply wp_get_tcp; [by rewrite N2'|]. intros t Ha. destruct (tcps_can_recv t).
  - apply wp_bind, wp_modify. set (s3 := set_stack _ s2). apply wp_ret.
    assert (N3 : net_view s3 = net_view s2) by (eapply view_leave; [done|done|cbn; by rewrite tcps_recv_slice_accepted, Ha]).
    split; [|rewrite N3; split; [by apply net_inv_leave|done]]. pose proof (tcps_recv_slice_len cap t) as Hl. destruct (tcps_recv_slice cap t).1; cbn; [by apply Hl|lia].
  - destruct (negb (tcps_may_recv t)); [apply wp_ret; split; [cbn; lia|done]|]. by eapply wp_turn_wait.
Qed.

Lemma wp_next_ephemeral_port {E} s (Q : Z -> NetSys V C -> Prop) (X : E -> NetSys V C -> Prop) :
  net_inv s -> (forall p s', EPHEMERAL_BASE <= p < U16 -> s' = set_ctr ((EPHEMERAL_CTR s + 1) mod U16) s -> net_inv s' -> Q p s') -> wp next_ephemeral_port Q X s.
Proof.
  intros [I1 I2 I3] HQ. apply wp_bind, wp_get, wp_bind, wp_put.
  assert (Hp : EPHEMERAL_BASE <= EPHEMERAL_BASE + EPHEMERAL_CTR s mod EPHEMERAL_SPAN < U16).
  { pose proof (Z.mod_pos_bound (EPHEMERAL_CTR s) EPHEMERAL_SPAN ltac:(done)). unfold EPHEMERAL_BASE, EPHEMERAL_SPAN, U16 in *. lia. }
  eapply wp_unwrap; [apply checked_spec; unfold in_width, EPHEMERAL_BASE in *; lia|]. apply HQ; [done|done|]. split; [done|done|]. cbn. apply Z.mod_pos_bound. done.
Qed.

Lemma wp_tcp_connect ip port acc s :
  net_inv s -> early s -> net_view s !! h = Some (VTcp acc) ->
  wp (sock_tcp_connect phys_offset h ip port) (fun _ s' => net_inv s' /\ R (net_view s) (net_view s'))
    (fun e s' => (e = EINVAL \/ e = ECONNREFUSED \/ (e = ETIMEDOUT /\ waited s CONNECT_TIMEOUT_NS s')) /\ net_inv s' /\ R (net_view s) (net_view s')) s.
Proof.
  intros I He Hv. apply wp_bind, wp_next_ephemeral_port; [done|]. intros p s0 _ Hs0 I0. assert (N0 : net_view s0 = net_view s) by (by rewrite Hs0).
  destruct (net_view_stack _ _ _ Hv) as (st & Hst & Hsv). assert (Hst0 : STACK s0 = Some st) by (by rewrite Hs0).
  apply wp_bind. eapply wp_stack; [done|]. apply wp_bind. eapply wp_get_tcp; [done|]. intros t Ha. apply wp_bind, wp_ok_or; [|intros _; rewrite N0; split_and!; [by left|done|done]].
  intros [i t'] Ec.
  apply wp_bind, wp_modify. set (st1 := put_sock _ _ _). set (s1 := set_stack _ s0).
  assert (N1 : net_view s1 = net_view s).
  { transitivity (sview st1); [done|]. unfold st1. change (sview (put_sock h (STcp t') (set_iface i st)) = net_view s). rewrite sview_put_same; [unfold net_view; by rewrite Hst|].
    change (sview st !! h = Some (view_of (STcp t'))). rewrite Hsv. cbn. by rewrite (tcps_connect_accepted _ _ _ _ _ _ _ Ec), Ha. }
  assert (I1 : net_inv s1) by (apply net_inv_leave; [done|]; apply (ni_phy _ _ I _ Hst)). assert (C1 : clk s1 = clk s) by (unfold s1; rewrite Hs0; done).
  eapply wp_timed; [done|by unfold early in *; rewrite C1|by rewrite N1|done|]. rewrite N1. intros dl s2 Hdl (I2 & S2 & R2 & V2 & T2). unfold waited. rewrite <- C1, <- Hdl.
  apply wp_poll_stack; [done|done|]. intros st3 s3 I3 S3 D3 N3 N3' C3. rewrite <- N3 in *.
  apply wp_bind. eapply wp_get_tcp; [by rewrite N3'|]. intros t3 Ha3. destruct (tcps_may_send t3); [by apply wp_ret|].
  destruct (negb (tcps_is_active t3)); [apply wp_fail; split_and!; [auto|done|done]|].
  eapply wp_mono; [by eapply (wp_turn_wait (VTcp acc) (net_view s))|intros r s'; exact (fun H => H)|]. intros e s' (-> & H1 & H2 & H3). split_and!; [auto|done|done].
Qed.

Lemma wp_close_socket s : net_inv s -> is_Some (net_view s !! h) ->
  wp (sock_close_socket h) (fun _ s' => net_inv s' /\ net_view s' = delete h (net_view s)) (fun _ _ => False) s.
Proof.
  intros I [v Hv]. destruct (net_view_stack _ _ _ Hv) as (st & Hst & Hsv). apply wp_bind, wp_get. rewrite Hst. apply wp_bind. eapply wp_remove_sock; [done|].
  intros st' D1 D2. apply wp_modify. split; [apply net_inv_leave; [done|]; rewrite D1; by apply (ni_phy _ _ I)|]. unfold net_view. cbn [STACK set_stack]. by rewrite Hst.
Qed.

Lemma wp_udp_bind port s : net_inv s -> net_view s !! h = Some VUdp ->
  wp (sock_udp_bind h port) (fun _ s' => net_inv s' /\ net_view s' = net_view s) (fun e s' => e = EINVAL /\ s' = s) s.
Proof.
  intros I Hv. destruct (net_view_stack _ _ _ Hv) as (st & Hst & Hsv). apply wp_bind. eapply wp_stack; [done|]. apply wp_bind, wp_get_udp; [done|].
  intros u. apply wp_bind, wp_ok_or; [|done]. intros u' _. apply wp_modify. split; [apply net_inv_leave; [done|]; exact (ni_phy _ _ I _ Hst)|].
  eapply view_leave; [|done|done]. unfold net_view. by rewrite Hst.
Qed.

Lemma wp_udp_sendto data ip port s : net_inv s -> net_view s !! h = Some VUdp ->
  wp (sock_udp_sendto phys_offset h data ip port) (fun n s' => n = Z.of_nat (length data) /\ net_inv s' /\ net_view s' = net_view s)
    (fun e s' => (e = EINVAL \/ e = EMSGSIZE) /\ net_inv s' /\ net_view s' = net_view s) s.
Proof.
  intros I Hv. destruct (net_view_stack _ _ _ Hv) as (st & Hst & Hsv). pose proof (ni_phy _ _ I _ Hst) as Hd. assert (Hn : net_view s = sview st) by (unfold net_view; by rewrite Hst).
  apply wp_bind. eapply wp_stack; [done|]. apply wp_bind, wp_get_udp; [done|]. intros u. apply wp_bind.
  eapply (wp_mono _ (fun _ s1 => net_inv s1 /\ STACK s1 = Some st) _ (fun e s1 => e = EINVAL /\ net_inv s1 /\ STACK s1 = Some st)).
  { destruct (udps_port u =? 0); [|by apply wp_ret]. apply wp_bind, wp_next_ephemeral_port; [done|]. intros p s1 _ -> I1. by apply wp_ok_or. }
  - intros u1 s1 [I1 Hst1]. assert (Hput : forall u' s2, net_inv s2 -> net_inv (set_stack (Some (put_sock h (SUdp u') st)) s2) /\ sview (put_sock h (SUdp u') st) = net_view s).
    { intros u' s2 I2. split; [by apply net_inv_leave|]. rewrite sview_put_same by done. done. }
    destruct (Hput u1 s1 I1) as [I2 V2]. apply wp_bind, wp_modify. apply wp_bind, wp_ok_or; [|intros _; split_and!; [by right|done|exact V2]].
    intros u2 _. destruct (Hput u2 s1 I1) as [I3 V3]. apply wp_bind, wp_poll; [done|apply (ni_nic _ _ I2)|]. intros st' w' P1 P2 P3.
    apply wp_bind, wp_modify, wp_ret. split_and!; [done| |rewrite <- V3, <- P2; done]. apply net_inv_leave; [|done].
    eapply net_inv_same; [exact I2|done|done|done].
  - intros e s1 (-> & I1 & Hst1). split_and!; [by left|done|]. unfold net_view. by rewrite Hst1, Hst.
Qed.

(** [tcp_send]: what the socket accepted grows by exactly the bytes counted. *)
Section Send.
Context (Hins : forall m m' v, R m m' -> R (<[h := v]> m) (<[h := v]> m')) (data acc : list byte).

Definition sending (m : gmap Z SockView) (sent : nat) s : Prop :=
  exists m', R m m' /\ m' !! h = Some (VTcp acc) /\ net_view s = <[h := VTcp (acc ++ take sent data)]> m'.

Lemma sending_yield m sent s s' : sending m sent s -> R (net_view s) (net_view s') -> sending m sent s'.
Proof.
  intros (m' & H1 & H2 & H3) HR. pose proof (Hins _ _ (VTcp acc) HR) as HR'. rewrite H3, insert_insert_eq, insert_id in HR' by done.
  exists (<[h := VTcp acc]> (net_view s')). split_and!; [by etrans|apply lookup_insert_eq|]. rewrite insert_insert_eq, insert_id; [done|].
  rewrite (Hh _ _ HR), H3. apply lookup_insert_eq.
Qed.

Lemma sending_view m sent s : sending m sent s -> net_view s !! h = Some (VTcp (acc ++ take sent data)).
Proof. intros (m' & _ & _ & ->). apply lookup_insert_eq. Qed.

Lemma sending_none m s : sending m 0 s -> R m (net_view s).
Proof. intros (m' & H1 & H2 & ->). by rewrite take_0, app_nil_r, insert_id. Qed.

Lemma sending_more m sent n s s' t : sending m sent s -> (sent <= length data)%nat ->
  net_view s' = <[h := VTcp t]> (net_view s) -> t = (acc ++ take sent data) ++ take n (drop sent data) -> sending m (sent + n) s'.
Proof.
  intros (m' & H1 & H2 & H3) Hl Hv ->. exists m'. split_and!; [done|done|]. by rewrite Hv, H3, insert_insert_eq, <- app_assoc, take_take_drop.
Qed.

Definition send_done (m : gmap Z SockView) (deadline : Z) (c0 : C) (r : nat + nat) s' : Prop :=
  match r with
  | inl n => ((n <= length data)%nat /\ sending m n s' /\ net_inv s' /\ is_Some (STACK s') /\ timed deadline (clk s')) /\ meas (clk s') < meas c0
  | inr n => (n <= length data)%nat /\ sending m n s' /\ net_inv s' /\ ((n < length data)%nat -> (0 < n)%nat \/ deadline <= ns_of_ticks (ticks (clk s')))
  end.

(** The second half of a turn, with [sent] bytes accepted. *)
Lemma wp_send_go m deadline sent st s F :
  (sent <= length data)%nat -> sending m sent s -> net_inv s -> STACK s = Some st -> timed deadline (clk s) ->
  wp (let! st := poll phys_offset st in leave st ;;! if (length data <=? sent)%nat then pret (inr sent) else wait deadline (pret sent) sent)
    (send_done m deadline (clk s)) F s.
Proof.
  intros Hl Hs I Hst HT. assert (Hn : net_view s = sview st) by (unfold net_view; by rewrite Hst).
  apply wp_bind, wp_poll; [by apply (ni_phy _ _ I)|apply (ni_nic _ _ I)|]. intros st1 w1 P1 P2 P3. apply wp_bind, wp_modify. set (s1 := set_stack _ _).
  assert (I1 : net_inv s1) by (apply net_inv_leave; [by apply (net_inv_same s)|done]). assert (N1 : net_view s1 = net_view s) by (by rewrite Hn, <- P2).
  assert (Hs1 : sending m sent s1) by (destruct Hs as (m' & ? & ? & ?); exists m'; by rewrite N1).
  destruct (length data <=? sent)%nat eqn:El; zbool; [apply wp_ret; split_and!; [done..|lia]|].
  eapply wp_wait_sock; [done|done|done|by exists st1| |].
  - intros Hlate. apply wp_ret. split_and!; [done|destruct Hs1 as (m' & ? & ? & ?); by exists m'| |by right]. apply (net_inv_same s1); [done|apply (ni_nic _ _ I1)|done|done].
  - intros s' I' S' R' T' M'. split; [|done]. split_and!; [done|by eapply sending_yield|done..].
Qed.

Lemma wp_send_turn m deadline sent s F :
  (sent <= length data)%nat -> sending m sent s -> net_inv s -> is_Some (STACK s) -> timed deadline (clk s) ->
  (forall s', net_inv s' -> R m (net_view s') -> F ENOTCONN s') ->
  wp (send_turn phys_offset h data deadline sent) (send_done m deadline (clk s)) F s.
Proof.
  intros Hl Hs I [st Hst] HT HF. pose proof (ni_phy _ _ I _ Hst) as Hd. assert (Hn : net_view s = sview st) by (unfold net_view; by rewrite Hst).
  pose proof (sending_view _ _ _ Hs) as Hv. unfold send_turn. apply wp_bind. eapply wp_stack; [done|]. apply wp_bind. eapply wp_get_tcp; [by rewrite <- Hn|]. intros t Ha.
  assert (Hstop : forall s', sending m sent s' -> net_inv s' -> wp (if (0 <? sent)%nat then pret (inr sent) else pfail ENOTCONN) (send_done m deadline (clk s)) F s').
  { intros s' Hs' I'. destruct (0 <? sent)%nat eqn:E0; zbool; [apply wp_ret; split_and!; [done..|by left]|].
    apply wp_fail, HF; [done|]. apply sending_none. by replace sent with 0%nat in Hs' by lia. }
  destruct (negb (tcps_may_send t)); [by apply Hstop|]. destruct (tcps_can_send t); [|by apply wp_send_go].
  apply wp_bind, wp_assert; [by apply Nat.leb_le|]. apply wp_bind, wp_modify. pose proof (tcps_send_slice_accepted (drop sent data) t) as Hacc.
  destruct (tcps_send_slice (drop sent data) t) as [n t'] eqn:Es. cbn [fst snd] in *. set (st1 := put_sock _ _ _). set (s1 := set_stack _ _).
  assert (N1 : net_view s1 = <[h := VTcp (tcp_accepted t')]> (net_view s)) by (transitivity (sview st1); [done|]; rewrite Hn; apply (sview_put st h (STcp t') (VTcp (acc ++ take sent data))); by rewrite <- Hn).
  assert (I1 : net_inv s1) by (by apply net_inv_leave). destruct n as [n|].
  - destruct Hacc as [Hn1 Hacc]. rewrite length_drop in Hn1. apply (wp_send_go m deadline (sent + n) st1 s1); [lia| |done..].
    eapply sending_more; [done|done|exact N1|]. by rewrite Hacc, Ha.
  - apply Hstop; [|done]. destruct Hs as (m' & H1 & H2 & H3). exists m'. split_and!; [done|done|]. by rewrite N1, H3, insert_insert_eq, Hacc, Ha.
Qed.

Lemma wp_tcp_send s :
  net_inv s -> early s -> net_view s !! h = Some (VTcp acc) ->
  wp (sock_tcp_send phys_offset h data)
    (fun z s' => exists n, z = Z.of_nat n /\ (n <= length data)%nat /\ sending (net_view s) n s' /\ net_inv s' /\
       ((n < length data)%nat -> (0 < n)%nat \/ waited s SEND_TIMEOUT_NS s'))
    (fun e s' => e = ENOTCONN /\ net_inv s' /\ R (net_view s) (net_view s')) s.
Proof.
  intros I He Hv. apply wp_with_deadline; [done|unfold early, EARLY, STEP in *; lia|]. destruct (turned_start _ SEND_TIMEOUT_NS s I He Hv ltac:(done)) as (I1 & S1 & R1 & V1 & T1).
  unfold waited. set (dl := _ + SEND_TIMEOUT_NS) in *. set (m := net_view s) in *. apply wp_bind. eapply wp_mono.
  - apply (wp_forever _ (fun n s' => (n <= length data)%nat /\ sending m n s' /\ net_inv s' /\ is_Some (STACK s') /\ timed dl (clk s')) (fun _ s' => meas (clk s'))
      (fun n s' => send_done m dl (clk s) (inr n) s') (fun e s' => e = ENOTCONN /\ net_inv s' /\ R m (net_view s'))).
    + intros n s2 (H1 & H2 & H3 & H4 & H5). eapply wp_mono; [by apply (wp_send_turn m dl n s2 (fun e s' => e = ENOTCONN /\ net_inv s' /\ R m (net_view s')))| |done]. by intros [n'|n'] s'.
    + intros n s2 (_ & _ & _ & _ & T2). by apply (meas_bounds dl).
    + split_and!; [lia| |done..]. exists m. split_and!; [done|done|]. by rewrite take_0, app_nil_r, insert_id.
    + by apply (meas_bounds dl).
  - intros n s' (H1 & H2 & H3 & H4). apply wp_ret. by exists n.
  - done.
Qed.
End Send.
End Socket.
End Sockets.
