(* ===== verification/NetTools.v ===== *)
(** * The network layer: [dhcp_acquire], [ping] and [resolve]

    Kernel-side tools, which run with interrupts on: they end when the time is up,
    whatever arrives. *)

From stdpp Require Import base numbers list gmap.
From Stdlib Require Import ZArith Lia.
From S2P Require Import Prelude Abi Pci VirtioBlk VirtioNet VirtioNetTheorems VirtioNetOps Dns DnsTheorems Clock Smoltcp NetStack Net NetOps NetSockets.
#[local] Open Scope Z_scope.

(** With interrupts on, a tick comes after finitely many readings. *)
Class Ticking (C : Type) {CK : Clock C} {CL : ClockLaws C} : Prop := {
  elapse_progress c : ticks (elapse c) = ticks c -> lag (elapse c) < lag c
}.

(** The replies counted. *)
Fixpoint trues (l : list bool) : Z :=
  match l with [] => 0 | b :: l' => (if b then 1 else 0) + trues l' end.

Lemma trues_range l : 0 <= trues l <= Z.of_nat (length l).
Proof. induction l as [|[] l IH]; cbn [trues length]; lia. Qed.

Lemma trues_replicate n : trues (replicate n false) = 0.
Proof. induction n; cbn; lia. Qed.

Lemma trues_insert l i : l !! i = Some false -> trues (<[i := true]> l) = trues l + 1.
Proof.
  revert i. induction l as [|b l IH]; intros [|i] H; try done; cbn in H; cbn [trues].
  - injection H as ->. change (<[0%nat := true]> (false :: l)) with (true :: l). cbn [trues]. lia.
  - change (<[S i := true]> (b :: l)) with (b :: <[i := true]> l). cbn [trues]. rewrite IH by done. lia.
Qed.

Section Tools.
Context {ST : SmolTypes} {SM : Smoltcp} {SL : SmoltcpLaws} {V C : Type} {P : PortIO V} {DM : DmaDevice V} {NC : NetCard V} {NL : NetCardLaws V}.
Context {CK : Clock C} {CL : ClockLaws C} {TK : Ticking C} (phys_offset : Z).
Implicit Types (s : NetSys V C) (st : Stack).
#[local] Abbreviation nic_ok := (nic_ok phys_offset).

Lemma meas_progress c : meas (elapse c) < meas c.
Proof.
  pose proof (elapse_ticks c). pose proof (elapse_progress c). pose proof (lag_range c). pose proof (lag_range (elapse c)). unfold meas.
  destruct (Z.eq_dec (ticks (elapse c)) (ticks c)) as [E|E]; [rewrite E; lia|nia].
Qed.

(** A stack of one's own, in time. *)
Definition own_stack (v : gmap Z SockView) deadline st s : Prop := phy_ok (device st) /\ sview st = v /\ nic_ok (nw s) /\ timed deadline (clk s).

Lemma wp_configured T s (Q : DhcpLease * Stack * Z -> NetSys V C -> Prop) (X : unit -> NetSys V C -> Prop) :
  nic_ok (nw s) -> early s -> 0 <= T <= MAX_WAIT ->
  (forall lease st d s', own_stack ∅ d st s' -> ticks (clk s') <= 2 ^ 37 + STEP ->
     d = ns_of_ticks (ticks (elapse (elapse (clk s)))) + T -> Q (lease, st, d) s') ->
  (forall s', X tt s') -> wp (configured phys_offset T) Q X s.
Proof.
  intros Hn He HT HQ HX. apply wp_bind, wp_bring_up; [|done]. intros st Hd Hv.
  assert (Ht : 0 <= ticks (clk (tick s)) <= EARLY + STEP) by (pose proof (elapse_ticks (clk s)); unfold early in He; cbn; lia).
  apply wp_with_deadline; [done|done|]. pose proof (timed_start (tick s) T Ht HT) as Hti.
  apply wp_bind. eapply wp_mono; [by apply (wp_dhcp_configure phys_offset st _ (tick (tick s)) (fun _ _ => False))| |done].
  intros [lease st'] s' (H1 & H2 & H3 & H4 & H5). cbn [fst snd] in *. apply wp_bind, wp_ok_or; [|done]. intros l ->. destruct (H5 Hti) as [|[H6 H7]]; [done|].
  apply wp_ret, HQ; [|done|done]. split_and!; [done|by rewrite H2|done|done].
Qed.

(** One turn of a loop that looks at the clock first, and polls before the deadline. *)
Lemma own_poll {E} v d st s (Q : Stack -> NetSys V C -> Prop) (X : E -> NetSys V C -> Prop) :
  own_stack v d st s -> ns_of_ticks (ticks (elapse (clk s))) < d ->
  (forall st' s', own_stack v d st' s' -> meas (clk s') < meas (clk s) -> Q st' s') -> wp (poll phys_offset st) Q X (tick s).
Proof.
  intros (H1 & H2 & H3 & H4) Hu HQ. apply wp_poll; [done|done|]. intros st' w' P1 P2 P3.
  pose proof (elapse_ticks (clk s)) as E1. pose proof (elapse_ticks (elapse (clk s))) as E2.
  assert (H5 : 0 <= ticks (elapse (clk s)) <= 2 ^ 37) by (apply (in_time d (clk s)); [done|unfold STEP in *; lia|done]).
  apply HQ; [split_and!; [done|by rewrite P2|done|split; [cbn; unfold STEP in *; lia|apply H4]]|].
  pose proof (meas_progress (clk s)). pose proof (meas_progress (elapse (clk s))). cbn. lia.
Qed.

(** ** [ping] *)

Lemma wp_ping_send {E} dest count sent (sock : IcmpSocket) s (X : E -> NetSys V C -> Prop) :
  0 <= sent <= count -> count < 2 ^ 64 -> wp (forever (ping_send dest count) (sent, sock)) (fun r s' => 0 <= r.1 <= count /\ s' = s) X s.
Proof.
  intros Hc Hm. apply (wp_forever _ (fun x s' => 0 <= x.1 <= count /\ s' = s) (fun x _ => count - x.1)).
  - intros [n k] s' [H1 ->]. cbn [fst] in *. unfold ping_send. destruct (n <? count) eqn:E1; zbool; cbn [andb]; [|by apply wp_ret].
    destruct (icmps_can_send k); [|by apply wp_ret]. destruct (icmps_send _ _ k); apply wp_ret; cbn [fst]; split_and!; (done || lia).
  - intros [n k] s' [H1 _]. cbn in *. lia.
  - done.
  - cbn. lia.
Qed.

Lemma wp_ping_recv {E} count received answered (sock : IcmpSocket) s (X : E -> NetSys V C -> Prop) :
  Z.of_nat (length answered) = count -> received = trues answered ->
  wp (forever (ping_recv count) (received, answered, sock)) (fun r s' => Z.of_nat (length r.1.2) = count /\ r.1.1 = trues r.1.2 /\ s' = s) X s.
Proof.
  intros Hl Hr. apply (wp_forever _ (fun x s' => Z.of_nat (length x.1.2) = count /\ x.1.1 = trues x.1.2 /\ s' = s) (fun x _ => icmp_waiting x.2)).
  - intros [[n a] k] s' (H1 & H2 & ->). cbn [fst snd] in *. subst n. unfold ping_recv. destruct (icmps_can_recv k) eqn:Ek; [|by apply wp_ret].
    pose proof (icmps_can_recv_waiting k Ek) as Hw. destruct (icmps_recv k).1 as [d|]; [|by apply wp_ret].
    destruct (echo_reply d) as [i|] eqn:Ei; [|by apply wp_ret]. pose proof (echo_reply_range _ _ Ei). destruct (i <? count) eqn:Ec; zbool; [|by apply wp_ret].
    destruct (lookup_lt_is_Some_2 a (Z.to_nat i)) as [b Hb]; [lia|]. apply wp_bind. eapply wp_unwrap; [done|].
    destruct b; apply wp_ret; cbn [fst snd]; [done|]. split; [|done]. split_and!; [by rewrite length_insert|by rewrite trues_insert|done].
  - intros [[n a] k] s' _. cbn. pose proof (icmp_waiting_range k). lia.
  - done.
  - cbn. pose proof (icmp_waiting_range sock). unfold U64 in *. lia.
Qed.

Lemma wp_ping dest count T s :
  nic_ok (nw s) -> early s -> 0 <= T <= MAX_WAIT -> 0 <= count <= 2 ^ 32 ->
  wp (ping phys_offset dest count T) (fun r s' => 0 <= p_sent r <= Z.max count 1 /\ 0 <= p_received r <= Z.max count 1 /\
    (p_received r = Z.max count 1 \/ ns_of_ticks (ticks (elapse (elapse (clk s)))) + T <= ns_of_ticks (ticks (clk s')))) (fun _ _ => True) s.
Proof.
  intros Hn He HT Hc. unfold ping. set (cnt := Z.max count 1). assert (Hcnt : 1 <= cnt <= 2 ^ 32) by (unfold cnt; lia).
  apply wp_bind. eapply wp_configured; [done..| |done]. intros lease st d s1 (D1 & D2 & D3 & D4) _ Hd. rewrite <- Hd.
  apply wp_bind. eapply wp_unwrap; [apply checked_spec; unfold in_width, U64; lia|]. apply wp_bind, wp_ok_or; [|done]. intros sock _.
  destruct (add_sock_view (SIcmp sock) st) as (A1 & A2 & A3). destruct (add_sock _ st) as [h st1] eqn:Ea. cbn [fst snd] in *.
  set (v := <[h := VIcmp]> ∅ : gmap Z SockView).
  apply (wp_forever _ (fun x s' => own_stack v d x.2 s' /\ 0 <= x.1.1.1 <= cnt /\ Z.of_nat (length x.1.2) = cnt /\ x.1.1.2 = trues x.1.2) (fun x s' => meas (clk s'))).
  - clear s1 D3 D4. intros [[[sent received] answered] st2] s1 (O & H1 & H2 & H3). cbn [fst snd] in *. subst received. unfold ping_turn. pose proof (trues_range answered) as Hr.
    apply wp_bind. destruct (trues answered <? cnt) eqn:Er; zbool; [|apply wp_ret; cbn [p_sent p_received]; apply wp_ret; cbn [p_sent p_received]; split_and!; [lia..|left; lia]].
    apply wp_bind, wp_uptime, wp_ret. destruct (_ <? d) eqn:Eu; zbool; [|apply wp_ret; cbn [p_sent p_received]; split_and!; [lia..|by right]].
    apply wp_bind. eapply own_poll; [done|done|]. intros st3 s2 O2 M2. pose proof O2 as (O3 & O4 & O5 & O6).
    assert (Hv : sview st3 !! h = Some VIcmp) by (rewrite O4; apply lookup_insert_eq).
    apply wp_bind, wp_get_icmp; [done|]. intros k. apply wp_bind. eapply wp_mono; [apply (wp_ping_send dest cnt sent k s2 (fun _ _ => False)); lia| |done].
    intros [sent' k1] s3 [S1 ->]. cbn [fst] in S1. apply wp_bind. eapply wp_mono; [by apply (wp_ping_recv cnt (trues answered) answered k1 s2 (fun _ _ => False))| |done].
    intros [[rec' ans'] k2] s3 (R1 & R2 & ->). cbn [fst snd] in *. apply wp_ret. cbn [fst snd]. split; [|done]. split; [|by split_and!; try lia].
    split_and!; [done| |done|done]. by rewrite sview_put_same.
  - intros x s' ((_ & _ & _ & T1) & _). by apply (meas_bounds d).
  - cbn [fst snd]. rewrite length_replicate, trues_replicate. split_and!; [|lia..]. split_and!; [by rewrite A3|by rewrite A2, D2|done|done].
  - by apply (meas_bounds d).
Qed.

(** ** [resolve] *)

(** An answer of the server to this question. *)
Definition answers_with (id : Z) (a : list byte) : Prop :=
  exists msg, (12 <= length msg)%nat /\ be16_at msg 0 = id /\ first_address msg a.

Lemma wp_dns_recv id (sock : UdpSocket) s (X : unit -> NetSys V C -> Prop) :
  wp (forever (dns_recv id) sock) (fun r s' => s' = s /\ (forall a, r.1 = Some (Some a) -> answers_with id a)) X s.
Proof.
  apply (wp_forever _ (fun _ s' => s' = s) (fun k _ => udp_waiting k)).
  - intros k s' ->. unfold dns_recv. destruct (udps_can_recv k) eqn:Ek; [|by apply wp_ret]. pose proof (udps_can_recv_waiting k Ek) as Hw. unfold DNS_MSG_LEN.
    pose proof (udps_recv_slice_len 1500 k) as Hl. destruct (udps_recv_slice 1500 k) as [[d|] k']; cbn [fst snd] in *; [|by apply wp_ret].
    specialize (Hl d eq_refl). destruct (parse_answer_spec id d) as (r & Hr & Hspec); [unfold short; lia|].
    apply wp_bind, wp_zoom. unfold wp at 1. rewrite Hr. destruct r as [a| |]; apply wp_ret; [|done|done].
    split; [done|]. cbn [fst]. intros a' [= ->]. by exists d.
  - intros k s' _. pose proof (udp_waiting_range k). lia.
  - done.
  - pose proof (udp_waiting_range sock). unfold U64 in *. lia.
Qed.

Lemma wp_resolve hostname server T s :
  nic_ok (nw s) -> early s -> 0 <= T <= MAX_WAIT ->
  wp (resolve phys_offset hostname server T) (fun a _ => exists id, answers_with id a) (fun _ _ => True) s.
Proof.
  intros Hn He HT. apply wp_bind. eapply wp_configured; [done..| |done]. intros lease st d s1 (D1 & D2 & D3 & D4) D5 _.
  apply wp_bind, wp_ok_or; [|done]. intros sock _. destruct (add_sock_view (SUdp sock) st) as (A1 & A2 & A3). destruct (add_sock _ st) as [h st1] eqn:Ea. cbn [fst snd] in *.
  apply wp_bind, wp_uptime. set (id := _ mod U16). apply wp_bind, wp_zoom. unfold wp at 1. rewrite build_query_labels by (unfold short, zeros; by rewrite length_replicate).
  cbv zeta. set (ls := split_dot _). destruct (forallb label_ok ls && _) eqn:El; [|done]. apply andb_prop in El as [_ El]. apply Nat.leb_le in El.
  apply wp_bind, wp_assert; [apply Nat.leb_le; unfold front; rewrite length_app; lia|].
  set (v := <[h := VUdp]> ∅ : gmap Z SockView). apply (wp_forever _ (fun x s' => own_stack v d x.2 s') (fun x s' => meas (clk s'))).
  - clear El. intros [asked st2] s0 O. cbn [snd] in O. unfold dns_turn. apply wp_bind, wp_uptime. destruct (_ <? d) eqn:Eu; zbool; [|done].
    apply wp_bind. eapply own_poll; [done|done|]. intros st3 s2 O2 M2. pose proof O2 as (O3 & O4 & O5 & O6).
    assert (Hv : sview st3 !! h = Some VUdp) by (rewrite O4; apply lookup_insert_eq). apply wp_bind, wp_get_udp; [done|]. intros k.
    destruct (if negb asked && udps_can_send k then _ else _) as [asked' k'].
    apply wp_bind. eapply wp_mono; [apply (wp_dns_recv _ k' s2 (fun _ _ => False))| |done]. intros [answer k2] s3 [-> Ha]. cbn [fst] in Ha.
    destruct answer as [[a|]|]; [|done|].
    + apply wp_bind, wp_ret, wp_ret. eauto.
    + apply wp_ret. cbn [snd]. split; [|done]. split_and!; [done| |done|done]. by rewrite sview_put_same.
  - intros x s' (_ & _ & _ & T1). by apply (meas_bounds d).
  - cbn [snd]. split_and!; [by rewrite A3|by rewrite A2, D2|done|]. pose proof (elapse_ticks (clk s1)). destruct D4 as [D4 D6]. split; [cbn; lia|done].
  - destruct D4 as [D4 D6]. pose proof (elapse_ticks (clk s1)). apply (meas_bounds d). split; [cbn; lia|done].
Qed.
End Tools.
