(* ===== verification/NetSim.v ===== *)
(** * The network layer: a small stack that keeps the laws *)

From stdpp Require Import base numbers list gmap.
From Stdlib Require Import ZArith Lia.
From S2P Require Import Prelude Abi Pci VirtioBlk VirtioNet VirtioNetTheorems VirtioNetOps VirtioNetSim Dns DnsTheorems Clock Smoltcp NetStack Net NetOps NetSockets NetTools.
#[local] Open Scope Z_scope.

(** UDP with one datagram in each direction, a datagram being a frame; TCP that takes
    three bytes at a time and hears nothing; DHCP that is configured at once. *)

Inductive MiniSock : Type :=
| MDhcp
| MUdp (port : Z) (inq outq : option (list byte))
| MTcp (open : bool) (acc : list byte)
| MIcmp (inq : option (list byte)).

#[export] Instance MiniTypes : SmolTypes := {
  Interface := list (list byte); SocketSet := gmap Z MiniSock; DhcpSocket := unit;
  UdpSocket := Z * option (list byte) * option (list byte); TcpSocket := bool * list byte; IcmpSocket := option (list byte)
}.

Definition mini_out (s : Socket) : MiniSock :=
  match s with SDhcp _ => MDhcp | SUdp (p, i, o) => MUdp p i o | STcp (b, a) => MTcp b a | SIcmp i => MIcmp i end.
Definition mini_in (m : MiniSock) : Socket :=
  match m with MDhcp => SDhcp tt | MUdp p i o => SUdp (p, i, o) | MTcp b a => STcp (b, a) | MIcmp i => SIcmp i end.

(** What arrives goes to every socket that waits; what waits to be sent is sent. *)
Definition mini_hear (f : option (list byte)) (m : MiniSock) : MiniSock :=
  match m, f with
  | MUdp p None o, Some f => MUdp p (Some f) o
  | MIcmp None, Some f => MIcmp (Some f)
  | _, _ => m
  end.
Definition mini_sends (m : MiniSock) : list (list byte) := match m with MUdp _ _ (Some d) => [take 1500 d] | _ => [] end.
Definition mini_sent (m : MiniSock) : MiniSock := match m with MUdp p i _ => MUdp p i None | _ => m end.

Fixpoint mini_transmit {A} (fs : list (list byte)) (a : A) : Poll A :=
  match fs with [] => PollDone a | f :: fs' => PollTransmit f (mini_transmit fs' a) end.

Definition mini_poll (i : list (list byte)) (ss : gmap Z MiniSock) : Poll (list (list byte) * gmap Z MiniSock) :=
  PollReceive (fun f =>
    let ss := mini_hear f <$> ss in
    mini_transmit (flat_map (fun x => mini_sends x.2) (map_to_list ss)) (i, mini_sent <$> ss)).

#[export] Instance MiniSmol : Smoltcp := {
  interface_new _ _ := [];
  iface_poll _ i ss := mini_poll i ss;
  iface_push_addr a _ i := a :: i;
  iface_default_route _ i := i;
  ss_new := ∅;
  ss_view ss := mini_in <$> ss;
  ss_add s ss := let h := fresh (dom ss) in (h, <[h := mini_out s]> ss);
  ss_remove h ss := delete h ss;
  ss_update h s ss := <[h := mini_out s]> ss;
  dhcp_new := tt;
  dhcp_poll _ := (Some (Configured (mkDhcpConfig [x0a; x00; x02; x0f] 24 None)), tt);
  udp_new _ _ := (0, None, None);
  udps_bind p u := if p =? 0 then None else let '(q, i, o) := u in if q =? 0 then Some (p, i, o) else None;
  udps_port u := u.1.1;
  udps_can_send u := bool_decide (u.2 = None);
  udps_can_recv u := bool_decide (is_Some u.1.2);
  udps_send_slice d _ _ u := match u.2 with None => Some (u.1, Some d) | Some _ => None end;
  udps_recv u := (match u.1.2 with Some d => Some (d, zeros 4, 53) | None => None end, (u.1.1, None, u.2));
  udps_recv_slice n u := (match u.1.2 with Some d => if (length d <=? n)%nat then Some d else None | None => None end, (u.1.1, None, u.2));
  tcp_new _ _ := (false, []);
  tcps_connect i _ _ _ t := if t.1 then None else Some (i, (true, t.2));
  tcps_may_send t := t.1;
  tcps_may_recv t := t.1;
  tcps_is_active t := t.1;
  tcps_can_send t := t.1;
  tcps_can_recv _ := false;
  tcps_send_slice d t := (Some (Nat.min 3 (length d)), (t.1, t.2 ++ take 3 d));
  tcps_recv_slice _ t := (None, t);
  icmp_new _ _ := None;
  icmps_bind _ i := Some i;
  icmps_can_send _ := true;
  icmps_can_recv i := bool_decide (is_Some i);
  icmps_send _ _ i := Some i;
  icmps_recv i := (i, None);
  echo_request _ _ d := d;
  echo_reply d := match d with [b] => Some (b2z b) | _ => None end
}.

Lemma mini_in_out s : mini_in (mini_out s) = s.
Proof. by destruct s as [[]|[[]]|[]|]. Qed.

Lemma mini_transmit_all {A} fs (a : A) F (Q : A -> Prop) : Forall F fs -> Q a -> poll_all F Q (mini_transmit fs a).
Proof. induction 1; cbn; auto. Qed.

Definition mini_accepted (t : bool * list byte) : list byte := t.2.
Definition mini_udp_waiting (u : Z * option (list byte) * option (list byte)) : Z := match u.1.2 with Some _ => 1 | None => 0 end.
Definition mini_icmp_waiting (i : option (list byte)) : Z := match i with Some _ => 1 | None => 0 end.

#[export] Instance MiniLaws : @SmoltcpLaws MiniTypes MiniSmol.
Proof.
  apply (@Build_SmoltcpLaws MiniTypes MiniSmol mini_accepted mini_udp_waiting mini_icmp_waiting).
  - intros t i ss. cbn [iface_poll MiniSmol]. unfold mini_poll. cbn [poll_all]. intros f. apply mini_transmit_all.
    + apply Forall_forall. intros x (y & Hy & Hx)%list_elem_of_In%in_flat_map. destruct y as [k [|p j [d|]| |]]; cbn in Hx; try done. destruct Hx as [<-|[]]. rewrite length_take. lia.
    + cbn [snd ss_view MiniSmol]. rewrite <- !map_fmap_compose. apply map_fmap_ext. intros k m _. by destruct m as [|p [] o|b a|[]], f.
  - done.
  - intros s ss. cbn. split; [rewrite lookup_fmap; by rewrite not_elem_of_dom_1 by apply is_fresh|]. by rewrite fmap_insert, mini_in_out.
  - intros h ss _. cbn. apply fmap_delete.
  - intros h s ss _. cbn. by rewrite fmap_insert, mini_in_out.
  - intros [[p [d|]] o]; cbn; unfold U64; lia.
  - intros [[p [d|]] o]; cbn; [lia|done].
  - intros n [[p [d|]] o] x; cbn; [|done]. destruct (length d <=? n)%nat eqn:E; [|done]. zbool. by intros [= <-].
  - done.
  - intros i ip p l [[] acc] i' t'; cbn; [done|]. by intros [= <- <-].
  - intros d [b acc]. cbn [tcps_send_slice MiniSmol fst snd]. split; [lia|]. f_equal. destruct d as [|? [|? [|? ?]]]; cbn; try done.
  - done.
  - done.
  - intros [d|]; cbn; unfold U64; lia.
  - intros [d|]; cbn; [lia|done].
  - intros [|b [|]] i; cbn; try done. intros [= <-]. pose proof (b2z_range b). unfold U16. lia.
Defined.

(** A clock that ticks at every look; nobody else uses the network. *)
#[export] Instance MiniClock : Clock Z := { ticks c := c; elapse := Z.succ }.
#[export] Instance MiniClockLaws : ClockLaws Z.
Proof. refine {| lag := fun _ => 0 |}; intros c; cbn; unfold STEP; lia. Defined.
#[export] Instance MiniTicking : Ticking Z.
Proof. split. intros c. cbn. lia. Qed.
#[export] Instance MiniThreads : Threads SimNic Z := { yield_now s := set_clk (Z.succ (clk s)) s }.
#[export] Instance MiniThreadsLaws R `{!PreOrder R} : ThreadsLaws 0x10000000 (TH := MiniThreads) R.
Proof.
  split; [done|intros s; cbn; unfold STEP; lia|intros s; cbn; lia|]. intros s I. split_and!; [|done|done]. by apply (net_inv_same 0x10000000 s); [|apply (ni_nic _ _ I)|..].
Qed.

Definition mini_start : NetSys SimNic Z := mkNetSys nic_booted 0 None 0.

Lemma mini_nic : nic_ok 0x10000000 nic_booted.
Proof. right. exists nic_place, [], [], []. apply nic_booted_ready. Qed.

Lemma mini_start_inv : net_inv 0x10000000 mini_start.
Proof. split; [exact mini_nic|done|done]. Qed.

Lemma mini_early (s : NetSys SimNic Z) : clk s = 0 -> early s.
Proof. intros Hc. unfold early, EARLY. cbn. lia. Qed.
