(* ===== verification/NetTheorems.v ===== *)
(** * The network layer: properties *)

From stdpp Require Import base numbers list gmap.
From Stdlib Require Import ZArith Lia.
From S2P Require Import Prelude Abi Pci VirtioBlk VirtioSim VirtioNet VirtioNetTheorems VirtioNetOps VirtioNetSim Dns DnsTheorems Clock Smoltcp NetStack Net NetOps NetSockets NetTools NetSim.
#[local] Open Scope Z_scope.

(** The sockets of the file layer. *)
Definition kind_of (v : SockView) : option SockKind := match v with VUdp => Some Udp | VTcp _ => Some Tcp | _ => None end.

Section Properties.
Context {ST : SmolTypes} {SM : Smoltcp} {SL : SmoltcpLaws} {V C : Type} {P : PortIO V} {DM : DmaDevice V} {NC : NetCard V} {NL : NetCardLaws V}.
Context {CK : Clock C} {CL : ClockLaws C} {TH : Threads V C} (phys_offset : Z).
Implicit Types s : NetSys V C.
#[local] Abbreviation net_inv := (net_inv phys_offset).

Definition net_sockets s : gmap Z SockKind := omap kind_of (net_view s).

Lemma net_sockets_same s s' : net_view s' = net_view s -> net_sockets s' = net_sockets s.
Proof. unfold net_sockets. by intros ->. Qed.

Lemma net_sockets_udp s h : net_sockets s !! h = Some Udp -> net_view s !! h = Some VUdp.
Proof. unfold net_sockets. rewrite lookup_omap. destruct (net_view s !! h) as [[]|]; cbn; congruence. Qed.

Lemma net_sockets_tcp s h : net_sockets s !! h = Some Tcp -> exists acc, net_view s !! h = Some (VTcp acc).
Proof. unfold net_sockets. rewrite lookup_omap. destruct (net_view s !! h) as [[]|]; cbn; try congruence. eauto. Qed.


(** Other threads may do what they like with other sockets. *)
Definition keeps (h : Z) (m m' : gmap Z SockView) : Prop := m' !! h = m !! h.

#[export] Instance keeps_preorder h : PreOrder (keeps h).
Proof. split; unfold keeps; [by intros m|intros a b c; congruence]. Qed.

(** C27. [tcp_send], while other threads run at every yield and use other sockets: it ends;
    the bytes its socket accepted are the ones it had before and then exactly the
    first [n] of [data], where [n] is the count it returns; a count of nothing comes
    only of no data or of ten seconds of waiting; [ENOTCONN], the only error, means
    that nothing was accepted. *)
Theorem tcp_send_exact h {TL : ThreadsLaws phys_offset (keeps h)} data acc s :
  net_inv s -> early s -> net_view s !! h = Some (VTcp acc) ->
  wp (sock_tcp_send phys_offset h data)
    (fun z s' => exists n, z = Z.of_nat n /\ (n <= length data)%nat /\ net_view s' !! h = Some (VTcp (acc ++ take n data)) /\
       ((n < length data)%nat -> (0 < n)%nat \/ waited s SEND_TIMEOUT_NS s') /\ net_inv s')
    (fun e s' => e = ENOTCONN /\ net_view s' !! h = Some (VTcp acc) /\ net_inv s') s.
Proof.
  intros I He Hv. eapply wp_mono; [apply (wp_tcp_send phys_offset (keeps h) h); [by intros m m' H| |done|done|exact Hv]| |].
  - intros m m' v _. unfold keeps. by rewrite !lookup_insert_eq.
  - intros z s' (n & -> & H1 & (m' & H2 & H3 & H4) & H5 & H6). exists n. split_and!; [done|done| |done|done]. rewrite H4. apply lookup_insert_eq.
  - intros e s' (-> & H1 & H2). split_and!; [done| |done]. by rewrite H2.
Qed.


(** The ports of [n] unbound sockets in a row. *)
Fixpoint ephemeral_ports (n : nat) : prog (NetSys V C) Empty_set (list Z) :=
  match n with
  | O => pret []
  | S n' => let! p := next_ephemeral_port in let! ps := ephemeral_ports n' in pret (p :: ps)
  end.

Lemma ephemeral_ports_are n : forall s, 0 <= EPHEMERAL_CTR s < U16 ->
  exists s', ephemeral_ports n s = (Ret ((fun i => EPHEMERAL_BASE + (EPHEMERAL_CTR s + i) mod EPHEMERAL_SPAN) <$> seqZ 0 (Z.of_nat n)), s') /\
    EPHEMERAL_CTR s' = (EPHEMERAL_CTR s + Z.of_nat n) mod U16.
Proof.
  induction n as [|n IH]; intros s Hs; cbn [ephemeral_ports].
  { exists s. split; [done|]. by rewrite Z.add_0_r, Z.mod_small. }
  set (c := EPHEMERAL_CTR s) in *. set (s1 := set_ctr ((c + 1) mod U16) s).
  assert (Hp : (next_ephemeral_port : prog (NetSys V C) Empty_set Z) s = (Ret (EPHEMERAL_BASE + c mod EPHEMERAL_SPAN), s1)).
  { unfold next_ephemeral_port, pbind, pget, pput, punwrap. fold c. rewrite checked_spec; [done|].
    pose proof (Z.mod_pos_bound c EPHEMERAL_SPAN ltac:(done)). unfold in_width, EPHEMERAL_BASE, EPHEMERAL_SPAN, U16 in *. lia. }
  destruct (IH s1) as (s' & E & Hc); [cbn; apply Z.mod_pos_bound; done|]. cbn [EPHEMERAL_CTR set_ctr s1] in E, Hc. exists s'. split.
  - rewrite (pbind_step _ _ _ _ _ Hp), (pbind_step _ _ _ _ _ E). unfold pret. do 2 f_equal. rewrite Nat2Z.inj_succ, (seqZ_cons 0 (Z.succ _)) by lia.
    rewrite fmap_cons, Z.add_0_r, Z.pred_succ. f_equal. rewrite <- (fmap_add_seqZ (Z.succ 0) 0), <- list_fmap_compose. apply list_fmap_ext.
    intros _ i _. cbn. f_equal. rewrite slot_mod by (split; [done|by exists 4]). f_equal. lia.
  - rewrite Hc, Zplus_mod_idemp_l. f_equal. lia.
Qed.

(** [next_ephemeral_port], over and over: no port repeats within 16384 calls, across
    the wrap of the 16-bit counter too, and each is in 49152..65535. *)
Theorem ephemeral_ports_distinct n s : 0 <= EPHEMERAL_CTR s < U16 ->
  exists ps s', ephemeral_ports n s = (Ret ps, s') /\ length ps = n /\ Forall (fun p => 49152 <= p <= 65535) ps /\
    forall i j p q, ps !! i = Some p -> ps !! j = Some q -> Z.of_nat i < Z.of_nat j < Z.of_nat i + 16384 -> p <> q.
Proof.
  intros Hs. destruct (ephemeral_ports_are n s Hs) as (s' & E & _). eexists _, s'. split; [exact E|]. split_and!.
  - rewrite length_fmap, length_seqZ. lia.
  - apply Forall_forall. intros p (i & -> & _)%list_elem_of_fmap. pose proof (Z.mod_pos_bound (EPHEMERAL_CTR s + i) EPHEMERAL_SPAN ltac:(done)).
    unfold EPHEMERAL_BASE, EPHEMERAL_SPAN in *. lia.
  - intros i j p q Hi Hj Hij. rewrite list_lookup_fmap in Hi, Hj. apply fmap_Some in Hi as (x & Hx & ->), Hj as (y & Hy & ->).
    apply lookup_seqZ in Hx as [-> _], Hy as [-> _]. unfold EPHEMERAL_SPAN. intros Heq.
    assert (H0 : ((EPHEMERAL_CTR s + (0 + Z.of_nat j)) - (EPHEMERAL_CTR s + (0 + Z.of_nat i))) mod 16384 = 0) by (apply Z.cong_iff_0; lia).
    apply Z.mod_divide in H0 as [k Hk]; [|done]. lia.
Qed.

(** A poll of the stack through [VirtioPhy] and the driver, whatever the card does
    meanwhile: the TCP/IP stack is handed the frames that arrived, in order and each
    once (at most 1516 bytes of each, none left over from the frame before), and what
    it sends leaves the card as it wrote it, in order; no frame is lost, and a frame
    of up to the MTU never overruns the buffer.  Nothing panics or loops. *)
Theorem phy_frames_exact pl st s taken pending done :
  phy_ok (device st) -> nic_ready phys_offset pl (nw s) taken pending done ->
  exists st' s', (poll phys_offset st : prog _ Empty_set _) s = (Ret st', s') /\ phy_ok (device st') /\
    exists t ins outs fs rest, runs (iface_poll t (iface st) (socks st)) ins outs (iface st', socks st') /\
      omap id ins = take 1516 <$> fs /\ pending `prefix_of` fs ++ rest /\ nic_ready phys_offset pl (nw s') (taken ++ fs) rest (done ++ outs).
Proof.
  intros Hd R. unfold poll. assert (Hnow : (now : prog (NetSys V C) Empty_set Z) s = (Ret (ns_of_ticks (ticks (elapse (clk s))) / 1000), tick s)) by done.
  rewrite (pbind_step _ _ _ _ _ Hnow). set (p := iface_poll _ _ _).
  destruct (wp_total (E := Empty_set) _ _ _ (wp_run_poll phys_offset pl p (device st) (tick s) taken pending done (fun _ _ => False) Hd R ltac:(eapply poll_all_weaken; [..|apply poll_keeps]; done)))
    as ([r dev] & s' & E & H1 & _ & ins & outs & fs & rest & H2 & H3 & H4 & H5).
  rewrite (pbind_step _ _ _ _ _ E). eexists _, s'. split; [done|]. split; [done|]. eexists _, ins, outs, fs, rest. split_and!; [|done..]. by destruct r.
Qed.

Context {TK : Ticking C}.

End Properties.

(** ** Witnesses *)

(** A socket is opened, a datagram sent, and one received into three bytes. *)
Definition udp_script : prog (NetSys SimNic Z) Z (Z * list byte) :=
  let! h := sock_udp_socket 0x10000000 in
  let! n := sock_udp_sendto 0x10000000 h (bs "ping") (zeros 4) 53 in
  let! r := sock_udp_recvfrom 0x10000000 h 3 in
  pret (n, r.1.1).

Lemma udp_script_runs : fst (udp_script mini_start) = Ret (4, bs "wor").
Proof. vm_compute. reflexivity. Qed.


(** A stack with a connected TCP socket 7. *)
Definition mini_tcp : NetSys SimNic Z := mkNetSys nic_booted 0 (Some (mkStack [] VirtioPhy_new {[7 := MTcp true (bs "GET ")]})) 0.

Lemma mini_tcp_inv : net_inv 0x10000000 mini_tcp.
Proof. split; [exact mini_nic| |done]. intros st [= <-]. apply VirtioPhy_new_ok. Qed.

Lemma mini_tcp_view : net_view mini_tcp !! 7 = Some (VTcp (bs "GET ")).
Proof. vm_compute. reflexivity. Qed.

Lemma mini_tcp_sends : fst (sock_tcp_send 0x10000000 7 (bs "/index.html") mini_tcp) = Ret 11.
Proof. vm_compute. reflexivity. Qed.

Lemma tcp_send_exact_witness :
  let r := sock_tcp_send 0x10000000 7 (bs "/index.html") mini_tcp in fst r = Ret 11 /\ net_view (snd r) !! 7 = Some (VTcp (bs "GET /index.html")).
Proof.
  cbv zeta. split; [exact mini_tcp_sends|].
  pose proof (tcp_send_exact 0x10000000 7 (bs "/index.html") (bs "GET ") mini_tcp mini_tcp_inv (mini_early mini_tcp eq_refl) mini_tcp_view) as W.
  destruct (wp_known _ _ _ _ _ W mini_tcp_sends) as (n & Hn & _ & Hv & _). assert (En : n = 11%nat) by lia. rewrite En in Hv. exact Hv.
Defined.

Lemma mini_tcp_waits : fst (sock_tcp_recv 0x10000000 7 10 mini_tcp) = Fail EAGAIN.
Proof. vm_compute. reflexivity. Qed.


Lemma ephemeral_ports_distinct_witness :
  exists ps s', ephemeral_ports 3 (set_ctr 65535 mini_start) = (Ret ps, s') /\ length ps = 3%nat /\ forall p q, ps !! 0%nat = Some p -> ps !! 1%nat = Some q -> p <> q.
Proof.
  destruct (ephemeral_ports_distinct 3 (set_ctr 65535 mini_start)) as (ps & s' & E & Hl & _ & Hd); [split; vm_compute; congruence|].
  exists ps, s'. split; [exact E|]. split; [exact Hl|]. intros p q Hp Hq. apply (Hd 0%nat 1%nat); [exact Hp|exact Hq|lia].
Defined.

Definition mini_udp : Stack := mkStack [] VirtioPhy_new {[1 := MUdp 5 None (Some (bs "ping"))]}.

Lemma phy_frames_exact_witness :
  exists st' s', (poll 0x10000000 mini_udp : prog _ Empty_set _) mini_start = (Ret st', s') /\ exists fs rest outs, nic_ready 0x10000000 nic_place (nw s') fs rest outs.
Proof.
  destruct (phy_frames_exact 0x10000000 nic_place mini_udp mini_start [] [] [] VirtioPhy_new_ok nic_booted_ready) as (st' & s' & E & _ & t & ins & outs & fs & rest & _ & _ & _ & R).
  exists st', s'. split; [exact E|]. exists fs, rest, outs. exact R.
Defined.

(** No reply comes: the time runs out. *)
Lemma mini_ping : fst (ping 0x10000000 (zeros 4) 0 1000000000 mini_start) = Ret (mkPingStats 1 0).
Proof. vm_compute. reflexivity. Qed.

Lemma few_replies_late (m : prog (NetSys SimNic Z) unit PingStats) T F :
  wp m (fun r s' => 0 <= p_sent r <= 1 /\ 0 <= p_received r <= 1 /\ (p_received r = 1 \/ T <= ns_of_ticks (ticks (clk s')))) F mini_start ->
  fst (m mini_start) = Ret (mkPingStats 1 0) -> T <= ns_of_ticks (ticks (clk (snd (m mini_start)))).
Proof. intros W E. by destruct (wp_known _ _ _ _ _ W E) as (_ & _ & [H|H]). Qed.

