(* ===== verification/Syscall.v ===== *)
(** * The system-call dispatcher

    [syscall/mod.rs], [syscall/time.rs], [syscall/sysinfo.rs], the tick clock of
    [arch/x86_64/interrupts.rs] and [arch_prctl] of [arch/x86_64/syscall.rs]. *)

From stdpp Require Import base numbers list gmap.
From Stdlib Require Import ZArith Lia.
From S2P Require Import Prelude BlockDev Abi Uaccess Paging Vga Machine Context Sched Console NetStack Files Clock.
#[local] Open Scope Z_scope.

(** How a call ends: with the value for [rax]; blocked in a read or in [wait4],
    to go on when the thread runs again; or not at all, the thread is gone. *)
Inductive Sysret : Type :=
| Returns (r : Z)
| Blocks (p : Pending)
| WaitsChild (pid status_ptr : Z)
| Gone.

(** [x as i64] of a [u64], and [x as i32]. *)
Definition as_i64 (x : Z) : Z := if x <? 2 ^ 63 then x else x - 2 ^ 64.
Definition as_i32 (x : Z) : Z := let y := x mod 2 ^ 32 in if y <? 2 ^ 31 then y else y - 2 ^ 32.

Definition NS_PER_SEC : Z := 1000000000.
Definition NS_PER_USEC : Z := 1000.

Definition pack_time (sec frac : Z) : list byte :=
  let b0 := zeros 16 in
  let b1 := splice b0 0 (to_le 8 sec) in
  splice b1 8 (to_le 8 frac).

Definition UTS_FIELD : nat := 65.
Definition UTS_FIELDS : nat := 6.
Definition UTSNAME_SIZE : nat := (UTS_FIELD * UTS_FIELDS)%nat.

Definition uts_fields : list (list byte) :=
  [bs "ferros"; bs "ferros"; bs "0.1.0"; bs "ferros M9 x86_64"; bs "x86_64"; bs "(none)"].

(** The loop that stores each string in its field. *)
Fixpoint put_fields (i : nat) (fields : list (list byte)) (out : list byte) : list byte :=
  match fields with
  | [] => out
  | f :: fields' =>
      let n := Nat.min (length f) (UTS_FIELD - 1) in
      put_fields (S i) fields' (splice out (i * UTS_FIELD) (take n f))
  end.

Definition utsname : list byte := put_fields 0 uts_fields (zeros UTSNAME_SIZE).

(** The status word of [wait4]; [code & 0xff] of an [i32] is never negative. *)
Definition wait_status (code : Z) (signal : option Z) : Z :=
  match signal with
  | Some sig => sig
  | None => Z.shiftl (Z.land code 0xff) 8
  end.

Section Syscall.
Context {D N F : Type} {BD : BlockDev D} {NS : NetStack N} {M : Mapper F}.
Context (rsp_cell : nat -> Z) (resume : Z).
#[local] Abbreviation Sys := (Sys D N F).
#[local] Abbreviation sysp := (@sysp D N F).

Definition uptime_ns : sysp Z := let! s := pget in pret (ns_of_ticks (TICKS (STATS s))).

(** The counting half of the timer interrupt. *)
Definition tick (t : Stats) : Stats :=
  mkStats (LAST_WRITE t) (LAST_EXIT_CODE t) (EXIT_CODE_SUM t) (EXIT_CALLS t) ((TICKS t + 1) mod U64).

Definition timer_interrupt_handler : sysp unit :=
  pmodify (fun s : Sys => set_stats (tick (STATS s)) s) ;;!
  in_kernel (on_timer_tick rsp_cell resume).

Definition sys_clock_gettime (clk_id tp : Z) : sysp Z :=
  if negb (clk_id =? CLOCK_REALTIME) && negb (clk_id =? CLOCK_MONOTONIC) then pret (- EINVAL)
  else
    let! ns := uptime_ns in
    or_errno (in_user (copy_to_user tp (pack_time (ns / NS_PER_SEC) (ns mod NS_PER_SEC)))) (fun _ => pret 0).

Definition sys_gettimeofday (tv : Z) : sysp Z :=
  if tv =? 0 then pret 0
  else
    let! ns := uptime_ns in
    or_errno (in_user (copy_to_user tv (pack_time (ns / NS_PER_SEC) (ns mod NS_PER_SEC / NS_PER_USEC))))
      (fun _ => pret 0).

Definition sys_time (tloc : Z) : sysp Z :=
  let! ns := uptime_ns in
  let sec := ns / NS_PER_SEC in
  if negb (tloc =? 0) then or_errno (in_user (copy_to_user tloc (to_le 8 sec))) (fun _ => pret sec)
  else pret sec.

Definition sys_uname (buf : Z) : sysp Z :=
  or_errno (in_user (copy_to_user buf utsname)) (fun _ => pret 0).

Definition sys_wait4 (pid status_ptr : Z) : sysp Sysret :=
  let! r := in_kernel (wait_current rsp_cell resume pid) in
  match r with
  | None => pret (WaitsChild pid status_ptr)
  | Some None => pret (Returns (- ECHILD))
  | Some (Some (child_pid, code, signal)) =>
      let! r :=
        if negb (status_ptr =? 0)
        then or_errno (in_user (copy_to_user status_ptr (to_le 4 (wait_status code signal)))) (fun _ => pret child_pid)
        else pret child_pid in
      pret (Returns r)
  end.

Definition sys_kill (pid sig : Z) : sysp Sysret :=
  if SIG_MAX <? sig then pret (Returns (- EINVAL))
  else if pid <=? 0 then pret (Returns (- ESRCH))
  else
    let! r := in_kernel (signal rsp_cell resume (pid mod U32) (sig mod U8)) in
    pret (match r with
          | Some Delivered => Returns 0
          | Some NoSuchProcess => Returns (- ESRCH)
          | None => Gone
          end).

Definition sys_exit (status : Z) : sysp Sysret :=
  release_current_process_fds ;;!
  pmodify (fun s : Sys =>
    set_stats (mkStats (LAST_WRITE (STATS s)) status (as_i64 ((EXIT_CODE_SUM (STATS s) + status) mod U64))
                 ((EXIT_CALLS (STATS s) + 1) mod U64) (TICKS (STATS s))) s) ;;!
  in_kernel (exit_current rsp_cell resume status) ;;!
  pret Gone.

Definition ret (m : sysp Z) : sysp Sysret := let! r := m in pret (Returns r).

Definition ret_read (m : sysp (Z + Pending)) : sysp Sysret :=
  let! r := m in pret (match r with inl r => Returns r | inr p => Blocks p end).

(** [dispatch(nr, [a0, .., a5], user_rsp)] *)
Definition dispatch (nr a0 a1 a2 a3 a4 a5 user_rsp : Z) : sysp Sysret :=
  if nr =? SYS_WRITE then ret (sys_write a0 a1 a2 user_rsp)
  else if nr =? SYS_OPEN then ret (sys_open a0 a1)
  else if nr =? SYS_READ then ret_read (sys_read rsp_cell resume a0 a1 a2)
  else if nr =? SYS_WRITEV then ret (sys_writev a0 a1 a2 user_rsp)
  else if nr =? SYS_READV then ret_read (sys_readv rsp_cell resume a0 a1 a2)
  else if nr =? SYS_FCNTL then ret (sys_fcntl a0 a1 a2)
  else if nr =? SYS_SOCKET then ret (sys_socket a0 a1)
  else if nr =? SYS_CONNECT then ret (sys_connect a0 a1 a2)
  else if nr =? SYS_BIND then ret (sys_bind a0 a1 a2)
  else if nr =? SYS_SENDTO then ret (sys_sendto a0 a1 a2 a4 a5)
  else if nr =? SYS_RECVFROM then ret (sys_recvfrom a0 a1 a2 a4 a5)
  else if nr =? SYS_CLOSE then ret (sys_close a0)
  else if nr =? SYS_BRK then ret (sys_brk a0)
  else if (nr =? SYS_STAT) || (nr =? SYS_LSTAT) then ret (sys_stat a0 a1)
  else if nr =? SYS_FSTAT then ret (sys_fstat a0 a1)
  else if nr =? SYS_CLOCK_GETTIME then ret (sys_clock_gettime a0 a1)
  else if nr =? SYS_GETTIMEOFDAY then ret (sys_gettimeofday a0)
  else if nr =? SYS_TIME then ret (sys_time a0)
  else if nr =? SYS_PIPE then ret (sys_pipe a0)
  else if nr =? SYS_DUP2 then ret (sys_dup2 a0 a1)
  else if nr =? SYS_GETDENTS64 then ret (sys_getdents64 a0 a1 a2)
  else if nr =? SYS_LSEEK then ret (sys_lseek a0 (as_i64 a1) a2)
  else if nr =? SYS_CHDIR then ret (sys_chdir a0)
  else if nr =? SYS_GETCWD then ret (sys_getcwd a0 a1)
  else if nr =? SYS_MKDIR then ret (sys_mkdir a0)
  else if nr =? SYS_RMDIR then ret (sys_rmdir a0)
  else if nr =? SYS_UNLINK then ret (sys_unlink a0)
  else if nr =? SYS_GETPID then ret (in_kernel current_pid)
  else if nr =? SYS_GETPPID then ret (in_kernel current_ppid)
  else if (nr =? SYS_GETUID) || (nr =? SYS_GETEUID) || (nr =? SYS_GETGID) || (nr =? SYS_GETEGID)
    then pret (Returns 0)
  else if nr =? SYS_UNAME then ret (sys_uname a0)
  else if nr =? SYS_WAIT4 then sys_wait4 (as_i64 a0) a1
  else if nr =? SYS_KILL then sys_kill (as_i64 a0) a1
  else if (nr =? SYS_EXIT) || (nr =? SYS_EXIT_GROUP) then sys_exit (as_i32 a0)
  else pret (Returns (- ENOSYS)).

(** [arch_prctl]: the base goes to the thread and to the processor. *)
Definition sys_arch_prctl (code addr : Z) : sysp Z :=
  if code =? ARCH_SET_FS then
    if USER_SPACE_END <=? addr then pret (- EINVAL)
    else
      in_kernel (set_current_fs_base addr) ;;!
      in_kernel (pmodify (fun k => set_cpu (set_fs_base addr (cpu k)) k)) ;;!
      pret 0
  else if code =? ARCH_GET_FS then
    let! base := in_kernel current_fs_base in
    or_errno (in_user (copy_to_user addr (to_le 8 base))) (fun _ => pret 0)
  else pret (- EINVAL).
End Syscall.
