(* ===== verification/Exec.v ===== *)
(** * Programs and processes

    [execve], [fork], the creation of the first processes and the entry of the
    system calls, of [arch/x86_64/syscall.rs].  They put together the file
    system, the loader, the stack builder, the scheduler and the descriptor
    tables.  Address spaces are an interface here: what [mm/addr_space.rs] does
    with the page tables is the subject of [AddrSpace] and [ForkSpace], and here
    it is stated on the lower halves of the spaces. *)

From stdpp Require Import base numbers list gmap.
From Stdlib Require Import ZArith Lia.
From S2P Require Import Prelude BlockDev Fat Vfs Abi Uaccess Paging Elf UserStack Vga Machine Context Sched Console.
From S2P Require Import NetStack Files Syscall.
#[local] Open Scope Z_scope.

(** [new_sharing_kernel], [fork_from] and [destroy]: from the spaces there are and
    the allocator, the new root, its lower half and the allocator; [None] when
    the frames run out. *)
Class AddressSpaces (F : Type) : Type := {
  as_new : Z -> gmap Z UserSpace -> F -> option (Z * UserSpace * F);
  as_fork : Z -> Z -> gmap Z UserSpace -> F -> option (Z * UserSpace * F);
  as_destroy : Z -> gmap Z UserSpace -> F -> F
}.

Definition half (spaces : gmap Z UserSpace) (root : Z) : UserSpace := default empty_space (spaces !! root).

(** A new space has a root of its own and shows the kernel's pages, or it needs a
    frame more than there are; a copy shows the parent's pages with their
    contents, those of the kernel with their flags and the others for the user
    and writable. *)
Class AddressSpacesLaws (F : Type) {M : Mapper F} {A : AddressSpaces F} : Prop := {
  as_new_ok kernel spaces fa root us fa' :
    as_new kernel spaces fa = Some (root, us, fa') -> spaces !! root = None /\ us = half spaces kernel;
  as_fork_ok parent kernel spaces fa root us fa' :
    as_fork parent kernel spaces fa = Some (root, us, fa') ->
    spaces !! root = None /\
    (forall pg, us_pages us !! pg =
       match us_pages (half spaces kernel) !! pg with
       | Some x => Some x
       | None => (fun _ => (true, true)) <$> us_pages (half spaces parent) !! pg
       end) /\
    (forall a x, us_pages us !! page_of a = Some x ->
       byte_at us a = byte_at (half spaces (match us_pages (half spaces kernel) !! page_of a with
                                            | Some _ => kernel | None => parent end)) a);
  as_new_none kernel spaces fa : as_new kernel spaces fa = None -> (allocate_frame fa).1 = None
}.

Definition USER_STACK_VA : Z := 0x7F8010000000.

Definition USER_KERNEL_STACK_SIZE : Z := 4096 * 5.

Definition set_rax (x : Z) (r : SyscallRegs) : SyscallRegs :=
  mkSyscallRegs (sr_r15 r) (sr_r14 r) (sr_r13 r) (sr_r12 r) (sr_rbp r) (sr_rbx r) (sr_r9 r) (sr_r8 r) (sr_r10 r)
    (sr_rdx r) (sr_rsi r) (sr_rdi r) (sr_rflags r) (sr_rip r) x (sr_user_rsp r).

(** [x as u64] of an [i64]. *)
Definition as_u64 (x : Z) : Z := x mod U64.

(** The registers a program starts with. *)
Definition start_regs (entry user_rsp : Z) : SyscallRegs :=
  mkSyscallRegs 0 0 0 0 0 0 0 0 0 0 0 0 0x202 entry 0 user_rsp.

Section Exec.
Context {D N F : Type} {BD : BlockDev D} {NS : NetStack N} {M : Mapper F} {AS : AddressSpaces F}.
Context (rsp_cell : nat -> Z) (resume : Z).
#[local] Abbreviation Sys := (Sys D N F).
#[local] Abbreviation sysp := (@sysp D N F).

(** Code that holds the frame allocator beside the rest of the kernel. *)
#[local] Abbreviation fprog := (prog (Sys * F) Empty_set).

Definition in_sys {E A} (m : prog Sys E A) : prog (Sys * F) E A := pzoom fst (fun s x => (s, x.2)) m.

(** The active space and the allocator, as the loader uses them. *)
Definition in_image {E A} (m : prog (UserSpace * F) E A) : prog (Sys * F) E A :=
  pzoom (fun x => (user_space x.1, x.2))
    (fun y x => (set_mm (<[current_key x.1 := y.1]> (SPACES x.1)) (FRAMES x.1) x.1, y.2)) m.

(** [frame::with_global] *)
Definition with_global {A} (m : fprog A) : sysp (option A) := fun s =>
  match FRAMES s with
  | None => (Ret None, s)
  | Some fa =>
      match m (s, fa) with
      | (Ret a, (s', fa')) => (Ret (Some a), set_mm (SPACES s') (Some fa') s')
      | (Fail e, (s', fa')) => (Fail e, set_mm (SPACES s') (Some fa') s')
      | (Panic, (s', fa')) => (Panic, set_mm (SPACES s') (Some fa') s')
      | (Diverge, (s', fa')) => (Diverge, set_mm (SPACES s') (Some fa') s')
      end
  end.

(** [Cr3::write] and [FsBase::write] *)
Definition write_cr3 (root : Z) : sysp unit := in_kernel (pmodify (fun k => set_cpu (set_cr3 root (cpu k)) k)).
Definition write_fs_base (x : Z) : sysp unit := in_kernel (pmodify (fun k => set_cpu (set_fs_base x (cpu k)) k)).

(** The calls of [mm/addr_space.rs]. *)
Definition new_space (kernel : Z) : fprog Z :=
  let! x := pget in
  let! '(root, us, fa) := punwrap (as_new kernel (SPACES x.1) x.2) in
  pput (set_mm (<[root := us]> (SPACES x.1)) (FRAMES x.1) x.1, fa) ;;! pret root.

Definition fork_space (parent kernel : Z) : fprog Z :=
  let! x := pget in
  let! '(root, us, fa) := punwrap (as_fork parent kernel (SPACES x.1) x.2) in
  pput (set_mm (<[root := us]> (SPACES x.1)) (FRAMES x.1) x.1, fa) ;;! pret root.

Definition destroy_space (root : Z) : fprog unit :=
  let! x := pget in
  passert (negb (root =? current_key x.1)) ;;!
  pput (set_mm (delete root (SPACES x.1)) (FRAMES x.1) x.1, as_destroy root (SPACES x.1) x.2).

(** The block that yields [loaded]. *)
Definition load_image (bytes : list byte) (argv envp : list (list byte)) : fprog (Z * Z + Z) :=
  let! r := ptry (in_image (load bytes)) in
  match r with
  | inl entry =>
      in_image (map_user_page (page_of USER_STACK_VA)) ;;!
      let! r := ptry (in_sys (in_user (build_user_stack USER_STACK_VA (USER_STACK_VA + 4096) argv envp))) in
      pret (match r with inl rsp => inl (entry, rsp) | inr _ => inr E2BIG end)
  | inr _ => pret (inr ENOEXEC)
  end.

(** The closure that yields [built]. *)
Definition build_space (kernel_pml4 old_pml4 : Z) (bytes : list byte) (argv envp : list (list byte))
    : fprog (Z * Z * Z + Z) :=
  let! aspace := new_space kernel_pml4 in
  in_sys (write_cr3 aspace) ;;!
  let! loaded := load_image bytes argv envp in
  in_sys (write_cr3 old_pml4) ;;!
  match loaded with
  | inl (entry, rsp) => pret (inl (aspace, entry, rsp))
  | inr errno => destroy_space aspace ;;! pret (inr errno)
  end.

(** An error ends the call with [-errno] in [rax]. *)
Definition or_rax {A} (regs : SyscallRegs) (m : prog Sys Z A) (k : A -> sysp SyscallRegs) : sysp SyscallRegs :=
  let! r := ptry m in
  match r with
  | inl a => k a
  | inr errno => pret (set_rax (as_u64 (- errno)) regs)
  end.

(** The path argument, and the file it names. *)
Definition exec_path (path_ptr : Z) : prog Sys Z (list byte) :=
  let! raw := in_user (read_user_cstr path_ptr) in
  if negb (utf8_ok raw) then pfail ENOENT else pmap_err (fun e : Empty_set => match e with end) (resolve_path raw).

Definition exec_file_bytes (path : list byte) : prog Sys Z (list byte) :=
  pmap_err (fun _ => ENOENT) (in_disk (Vfs.open path)).

(** Step 4, the commit. *)
Definition exec_commit (new_pml4 : Z) : sysp unit :=
  let! old_pml4 := in_kernel (exec_replace_cr3 new_pml4) in
  write_cr3 new_pml4 ;;!
  with_global (destroy_space old_pml4) ;;!
  rekey_process old_pml4 new_pml4 ;;!
  write_fs_base 0.

Definition exec (regs : SyscallRegs) (path_ptr : Z) : sysp SyscallRegs :=
  or_rax regs (exec_path path_ptr) (fun path =>
  or_rax regs (exec_file_bytes path) (fun bytes =>
  or_rax regs (in_user (read_user_str_array (sr_rsi regs))) (fun argv =>
  or_rax regs (in_user (read_user_str_array (sr_rdx regs))) (fun envp =>
    let! s := pget in
    let! kernel_pml4 := in_kernel get_kernel_cr3 in
    let! built := with_global (build_space kernel_pml4 (current_key s) bytes argv envp) in
    match built with
    | Some (inl (new_pml4, entry, user_rsp)) => exec_commit new_pml4 ;;! pret (start_regs entry user_rsp)
    | Some (inr errno) => pret (set_rax (as_u64 (- errno)) regs)
    | None => pret (set_rax (as_u64 (- ENOMEM)) regs)
    end)))).

(** [base] is the address of the box of the kernel stack, [sysret] that of
    [ferros_syscall_return]. *)
Definition fork (sysret base : Z) (regs : SyscallRegs) : sysp SyscallRegs :=
  let! s := pget in
  let parent_pml4 := current_key s in
  let! kernel_pml4 := in_kernel get_kernel_cr3 in
  let! child := with_global (fork_space parent_pml4 kernel_pml4) in
  match child with
  | None => pret (set_rax (as_u64 (- ENOMEM)) regs)
  | Some child_pml4 =>
      fork_fds parent_pml4 child_pml4 ;;!
      let ktop := align16 (base + USER_KERNEL_STACK_SIZE) in
      let! s := pget in
      let '(rsp, w) := init_fork_child_stack sysret ktop regs (mem (cpu (kern (tty s)))) in
      in_kernel (pmodify (fun k => set_cpu (set_mem w (cpu k)) k)) ;;!
      let! fs := in_kernel current_fs_base in
      let! child_pid := in_kernel (add_user_task rsp child_pml4 ktop (base, USER_KERNEL_STACK_SIZE) fs) in
      pret (set_rax child_pid regs)
  end.

(** [interrupts::disable] and [enable] *)
Definition disable_interrupts : sysp unit :=
  in_kernel (pmodify (fun k => set_cpu (set_rflags (Z.ldiff (rflags (cpu k)) IF_BIT) (cpu k)) k)).
Definition enable_interrupts : sysp unit :=
  in_kernel (pmodify (fun k => set_cpu (set_rflags (Z.lor (rflags (cpu k)) IF_BIT) (cpu k)) k)).

(** [spawn_user], with the allocator of the caller; [tramp] is the address of the
    user trampoline, and the selectors are those of the descriptor table. The
    load is the one of [execve] without arguments, and [expect]s its result. *)
Definition spawn_user (tramp user_cs user_ss base : Z) (elf_bytes : list byte) : fprog unit :=
  let! x := pget in
  let was_enabled := negb (Z.land (rflags (cpu (kern (tty x.1)))) IF_BIT =? 0) in
  in_sys disable_interrupts ;;!
  let! x := pget in
  let kernel_pml4 := current_key x.1 in
  let! aspace := new_space kernel_pml4 in
  in_sys (write_cr3 aspace) ;;!
  let! r := load_image elf_bytes [] [] in
  let! '(entry, user_stack_top) := punwrap (match r with inl x => Some x | inr _ => None end) in
  in_sys (write_cr3 kernel_pml4) ;;!
  (if was_enabled : bool then in_sys enable_interrupts else pret tt) ;;!
  let ktop := align16 (base + USER_KERNEL_STACK_SIZE) in
  let! x := pget in
  let '(rsp, w) := init_user_thread_stack tramp ktop entry user_stack_top user_cs user_ss (mem (cpu (kern (tty x.1)))) in
  in_sys (in_kernel (pmodify (fun k => set_cpu (set_mem w (cpu k)) k))) ;;!
  in_sys (in_kernel (add_user_task rsp aspace ktop (base, USER_KERNEL_STACK_SIZE) 0)) ;;!
  pret tt.

(** [ferros_syscall_dispatch]: the frame to return with, or how the call ends
    otherwise. *)
Definition ferros_syscall_dispatch (sysret base : Z) (regs : SyscallRegs) : sysp (SyscallRegs + Sysret) :=
  if sr_rax regs =? SYS_EXECVE then let! r := exec regs (sr_rdi regs) in pret (inl r)
  else if sr_rax regs =? SYS_FORK then let! r := fork sysret base regs in pret (inl r)
  else if sr_rax regs =? SYS_ARCH_PRCTL then
    let! r := sys_arch_prctl (sr_rdi regs) (sr_rsi regs) in pret (inl (set_rax (as_u64 r) regs))
  else
    let! r := dispatch rsp_cell resume (sr_rax regs) (sr_rdi regs) (sr_rsi regs) (sr_rdx regs) (sr_r10 regs)
                (sr_r8 regs) (sr_r9 regs) (sr_user_rsp regs) in
    match r with
    | Returns z => pret (inl (set_rax (as_u64 z) regs))
    | _ => pret (inr r)
    end.
End Exec.
