(* ===== verification/ExecTheorems.v ===== *)
(** * What [execve] and [fork] do

    [execve] installs the program of the file it is given or leaves the caller
    as it was; [fork] adds a child that is a copy of the caller. *)

From stdpp Require Import base numbers list gmap.
From Stdlib Require Import ZArith Lia.
From S2P Require Import Prelude BlockDev Fat FatLayout FatAlloc FatData FatDir FatVolume FatOps Vfs Abi Uaccess Paging.
From S2P Require Import Elf UserStack Vga Machine Context Sched SchedInv SchedOps Console NetStack Files Paths.
From S2P Require Import FilesInv FilesOps FsTheorems SchedTheorems FilesCalls FilesTheorems Syscall Exec.
#[local] Open Scope Z_scope.

(** ** The image of a program *)

Definition STACK_PAGE : Z := page_of USER_STACK_VA.
Definition STACK_TOP : Z := USER_STACK_VA + 4096.

(** [us] is the memory of a program just loaded from [bytes]: the kernel's pages,
    the pages of the segments with the file's bytes, and the stack page. *)
Record program_image (kern : UserSpace) (bytes : list byte) (phs : list Phdr) (argv envp : list (list byte))
    (entry sp : Z) (us : UserSpace) : Prop := {
  pi_parse : parse_elf bytes = inr (entry, phs);
  pi_segs : segs_ok bytes phs;
  pi_new pg : page_covered phs pg \/ pg = STACK_PAGE -> us_pages us !! pg = Some (true, true) /\ us_pages kern !! pg = None;
  pi_old pg : ~ page_covered phs pg -> pg <> STACK_PAGE -> us_pages us !! pg = us_pages kern !! pg;
  pi_apart : ~ page_covered phs STACK_PAGE;
  pi_bytes a b : image_byte bytes phs a = Some b -> byte_at us a = b;
  pi_kept a : ~ page_covered phs (page_of a) -> page_of a <> STACK_PAGE -> byte_at us a = byte_at kern a;
  pi_room : USER_STACK_VA <= sp;
  pi_sp : sp = stack_sp STACK_TOP argv envp;
  pi_aligned : (16 | sp);
  pi_words : stack_holds us sp (words_of STACK_TOP argv envp);
  pi_args : strings us (sp + 8 * Z.of_nat (length (words_of STACK_TOP argv envp))) STACK_TOP argv (str_ptrs STACK_TOP argv);
  pi_envs : strings us (sp + 8 * Z.of_nat (length (words_of STACK_TOP argv envp))) STACK_TOP envp (env_ptrs_of STACK_TOP argv envp)
}.

(** The file is refused by the loader. *)
Definition elf_refused (kern : UserSpace) (bytes : list byte) : Prop :=
  (exists e, parse_elf bytes = inl e) \/
  exists entry phs ph, parse_elf bytes = inr (entry, phs) /\ ph ∈ phs /\ p_type ph = PT_LOAD /\
    (overlaps kern ph \/ exists e, seg_error (Z.of_nat (length bytes)) ph = Some e).

(** Neither a segment nor the kernel has the page of the stack. *)
Definition stack_free (kern : UserSpace) (bytes : list byte) : Prop :=
  us_pages kern !! STACK_PAGE = None /\
  forall entry phs, parse_elf bytes = inr (entry, phs) -> ~ page_covered phs STACK_PAGE.

Definition build_error (kern : UserSpace) (bytes : list byte) (argv envp : list (list byte)) (e : Z) : Prop :=
  e = ENOEXEC /\ elf_refused kern bytes \/
  e = E2BIG /\ ~ elf_refused kern bytes /\ stack_sp STACK_TOP argv envp < USER_STACK_VA.

Lemma loaded_not_refused kern bytes entry phs us :
  parse_elf bytes = inr (entry, phs) -> segs_ok bytes phs -> laid kern us (page_covered phs) (image_byte bytes phs) ->
  ~ elf_refused kern bytes.
Proof.
  intros Hp Hs L [[e He]|(entry' & phs' & ph & He & Hin & Ht & Hr)]; rewrite Hp in He; [done|].
  injection He as <- <-. destruct Hr as [(a & Hc & [x Hx])|[e He]].
  - rewrite (laid_fresh _ _ _ _ L (page_of a)) in Hx; [done|]. by exists ph, a.
  - unfold segs_ok in Hs. rewrite Forall_forall in Hs. by rewrite (Hs ph Hin Ht) in He.
Qed.

Lemma stack_page : STACK_PAGE = USER_STACK_VA.
Proof. done. Qed.

Lemma on_stack a : USER_STACK_VA <= a < STACK_TOP -> page_of a = STACK_PAGE.
Proof. intros Ha. apply page_of_same; [done|]. rewrite stack_page. unfold STACK_TOP in Ha. lia. Qed.

(** The stack page over the segments. *)
Lemma image_of_parts kern bytes entry phs argv envp us1 us2 us3 sp :
  parse_elf bytes = inr (entry, phs) -> segs_ok bytes phs -> laid kern us1 (page_covered phs) (image_byte bytes phs) ->
  us_pages us1 !! STACK_PAGE = None ->
  us_pages us2 = <[STACK_PAGE := (true, true)]> (us_pages us1) ->
  (forall a, ~ on_page STACK_PAGE a -> byte_at us2 a = byte_at us1 a) ->
  stack_built USER_STACK_VA STACK_TOP argv envp us2 us3 sp ->
  program_image kern bytes phs argv envp entry sp us3.
Proof.
  intros Hp Hs L Hn Hpg Hb [B1 B2 B3 B4 B5 B6 [B7 B8]].
  assert (Hap : ~ page_covered phs STACK_PAGE) by (intros H%(laid_in _ _ _ _ L); congruence).
  assert (Hk : us_pages kern !! STACK_PAGE = None) by (by rewrite <- (laid_out _ _ _ _ L)).
  assert (Hout : forall a, page_of a <> STACK_PAGE -> byte_at us3 a = byte_at us1 a).
  { intros a Ha. rewrite B8, Hb; [done| |].
    - by rewrite on_page_of.
    - intros Hr. apply Ha, on_stack. lia. }
  split; try done.
  - intros pg Hc. rewrite B7, Hpg. destruct (decide (pg = STACK_PAGE)) as [->|Hne]; [by rewrite lookup_insert_eq|].
    rewrite lookup_insert_ne by done. destruct Hc as [Hc|]; [|done]. split; [by eapply laid_in|by eapply laid_fresh].
  - intros pg Hc Hne. rewrite B7, Hpg, lookup_insert_ne by done. by eapply laid_out.
  - intros a b Hi. rewrite Hout; [by eapply laid_img|]. intros Ha. apply Hap. rewrite <- Ha. by eapply laid_on.
  - intros a Hc Hne. rewrite Hout by done. by eapply laid_same.
Qed.

Section Build.
Context {D N F : Type} {BD : BlockDev D} {NS : NetStack N} `{ML : MapperLaws F} {AS : AddressSpaces F}.
Context {AL : AddressSpacesLaws F}.
Implicit Types s : Sys D N F.

Definition no_fault {T} (e : Empty_set) (t : T) : Prop := False.

Definition with_cr3 (root : Z) s : Sys D N F :=
  set_tty (set_kern (set_cpu (set_cr3 root (cpu (kern (tty s)))) (kern (tty s))) (tty s)) s.

(** The state in which the space [root] is active with the lower half [us]. *)
Definition active s (root : Z) (us : UserSpace) : Sys D N F :=
  with_cr3 root (set_mm (<[root := us]> (SPACES s)) (FRAMES s) s).

Lemma active_space s root us : user_space (active s root us) = us.
Proof. unfold user_space. cbn. by rewrite lookup_insert_eq. Qed.

Lemma active_update s root us us' :
  set_mm (<[current_key (active s root us) := us']> (SPACES (active s root us))) (FRAMES (active s root us))
    (active s root us) = active s root us'.
Proof. unfold active. cbn. by rewrite insert_insert_eq. Qed.

Lemma wpp_in_image {E A} (m : prog (UserSpace * F) E A) s root us fa (Q : A -> Sys D N F * F -> Prop) X P :
  wpp m (fun a y => Q a (active s root y.1, y.2)) (fun e y => X e (active s root y.1, y.2))
    (fun y => P (active s root y.1, y.2)) (us, fa) ->
  wpp (in_image m) Q X P (active s root us, fa).
Proof.
  intros H. apply wpp_zoom. cbn [fst snd]. rewrite active_space.
  eapply wpp_mono; [exact H| | |]; cbn beta; intros; by rewrite active_update.
Qed.

Lemma wp_in_active {E A} (m : prog UserSpace E A) s root us fa (Q : A -> Sys D N F * F -> Prop) X :
  wp m (fun a us' => Q a (active s root us', fa)) (fun e us' => X e (active s root us', fa)) us ->
  wp (in_sys (in_user m)) Q X (active s root us, fa).
Proof.
  intros H. apply wp_zoom, wp_zoom. cbn [fst snd]. rewrite active_space.
  eapply wp_mono; [exact H| |]; cbn beta; intros; by rewrite active_update.
Qed.

Lemma wpp_map_taken {E} page mm x (Q : unit -> UserSpace * F -> Prop) (X : E -> UserSpace * F -> Prop) P :
  us_pages mm.1 !! page = Some x -> (forall mm', P mm') -> wpp (map_user_page page) Q X P mm.
Proof.
  intros Hx HP. destruct mm as [us fa]. unfold wpp, map_user_page, pbind, pget. cbn [fst] in Hx.
  destruct (allocate_frame fa) as [[frame|] fa1]; cbn; [|apply HP].
  pose proof (map_to_mapped page frame (true, true) us fa1 _ Hx) as Hm.
  destruct (map_to page frame (true, true) us fa1) as [[ok us'] fa2]. cbn in Hm. subst ok. apply HP.
Qed.

(** The outcomes of the load; [kern] is the lower half of a fresh space. *)
Definition image_built kern bytes argv envp s root (r : Z * Z + Z) (x : Sys D N F * F) : Prop :=
  exists us, x.1 = active s root us /\
    match r with
    | inl (entry, sp) => exists phs, program_image kern bytes phs argv envp entry sp us
    | inr e => build_error kern bytes argv envp e
    end.

Definition frames_out (x : Sys D N F * F) : Prop := (allocate_frame x.2).1 = None.

Lemma load_image_spec s root kern fa bytes argv envp :
  Z.of_nat (length bytes) < 2 ^ 63 ->
  wpp (load_image bytes argv envp) (image_built kern bytes argv envp s root) no_fault
    (fun x => frames_out x \/ ~ stack_free kern bytes) (active s root kern, fa).
Proof.
  intros Hlen. unfold load_image. apply wpp_bind, wpp_try, wpp_in_image.
  eapply wpp_mono; [by apply load_spec| | |by left].
  2:{ intros e [us fa1] [_ He]. apply wpp_wp, wp_ret. exists us. split; [done|]. left. split; [done|].
      destruct He as [He|(entry & phs & ph & Hp & Hin & Ht & He)]; [left; by exists e|right].
      exists entry, phs, ph. split_and!; [done..|]. destruct He as [[_ ?]|He]; [by left|right; by exists e]. }
  intros entry [us1 fa1] (phs & Hp & Hs & L). cbn [fst snd] in *. fold STACK_PAGE. apply wpp_bind, wpp_in_image.
  destruct (us_pages us1 !! STACK_PAGE) eqn:Hn.
  { eapply wpp_map_taken; [exact Hn|]. intros mm. right. intros [Hk Hf].
    rewrite (laid_out _ _ _ _ L) in Hn by (by eapply Hf). congruence. }
  eapply wpp_mono; [eapply (wpp_map_user_page _ (us1, fa1) (fun _ y =>
     us_pages y.1 = <[STACK_PAGE := (true, true)]> (us_pages us1) /\
     forall a, ~ on_page STACK_PAGE a -> byte_at y.1 a = byte_at us1 a) no_fault); [done|by intros]| |by intros []|by left].
  intros [] [us2 fa2] [Hpg Hb]. cbn [fst snd] in *. apply wpp_bind, wpp_wp, wp_try, wp_in_active.
  eapply wp_mono; [apply build_user_stack_spec; [done|done|by exists (USER_STACK_VA / 16)|]| |]; cbn beta.
  - intros a Ha. unfold present, translate. rewrite on_stack, Hpg, lookup_insert_eq by done. done.
  - intros sp us3 Hb3. apply wpp_wp, wp_ret. exists us3. split; [done|]. exists phs. by eapply image_of_parts.
  - intros [] us3 [Hsp _]. apply wpp_wp, wp_ret. exists us3. split; [done|]. right. split_and!; [done| |done].
    by eapply loaded_not_refused.
Qed.

Lemma write_cr3_eq root s : write_cr3 root s = (Ret tt, with_cr3 root s).
Proof. done. Qed.

Lemma deactivate s root us : with_cr3 (current_key s) (active s root us) = set_mm (<[root := us]> (SPACES s)) (FRAMES s) s.
Proof.
  destruct s as [[con scr [sch pre np sb m]] p1 p2 p3 p4 p5 p6 p7 p8 p9]. unfold active, with_cr3, current_key. cbn.
  by destruct m.
Qed.

Lemma wpp_in_sys {E A} (m : prog (Sys D N F) E A) s fa (Q : A -> Sys D N F * F -> Prop) X P :
  wpp m (fun a s' => Q a (s', fa)) (fun e s' => X e (s', fa)) (fun s' => P (s', fa)) s -> wpp (in_sys m) Q X P (s, fa).
Proof. intros H. by apply wpp_zoom. Qed.

Lemma wpp_write_cr3 root s (Q : unit -> Sys D N F -> Prop) X P : Q tt (with_cr3 root s) -> wpp (write_cr3 root) Q X P s.
Proof. intros H. unfold wpp. by rewrite write_cr3_eq. Qed.

Lemma wpp_new_space kernel s fa (Q : Z -> Sys D N F * F -> Prop) X P :
  (forall root fa', SPACES s !! root = None -> Q root (set_mm (<[root := half (SPACES s) kernel]> (SPACES s)) (FRAMES s) s, fa')) ->
  (frames_out (s, fa) -> P (s, fa)) -> wpp (new_space kernel) Q X P (s, fa).
Proof.
  intros HQ HP. unfold new_space. apply wpp_bind, wpp_wp, wp_get, wpp_bind. cbn [fst snd].
  destruct (as_new kernel (SPACES s) fa) as [[[root us0] fa0]|] eqn:En.
  - apply as_new_ok in En as [Hfresh ->]. apply wpp_wp, wp_ret, wpp_bind, wpp_wp, wp_put, wpp_wp, wp_ret. by apply HQ.
  - apply HP. by eapply as_new_none.
Qed.

Definition space_built s kernel bytes argv envp (r : Z * Z * Z + Z) (x : Sys D N F * F) : Prop :=
  match r with
  | inl (root, entry, sp) =>
      SPACES s !! root = None /\ exists phs us,
        program_image (half (SPACES s) kernel) bytes phs argv envp entry sp us /\
        x.1 = set_mm (<[root := us]> (SPACES s)) (FRAMES s) s
  | inr e => build_error (half (SPACES s) kernel) bytes argv envp e /\ x.1 = s
  end.

Lemma build_space_spec s fa kernel bytes argv envp :
  is_Some (SPACES s !! current_key s) -> Z.of_nat (length bytes) < 2 ^ 63 ->
  wpp (build_space kernel (current_key s) bytes argv envp) (space_built s kernel bytes argv envp) no_fault
    (fun x => frames_out x \/ ~ stack_free (half (SPACES s) kernel) bytes) (s, fa).
Proof.
  intros [u Hcur] Hlen. unfold build_space. apply wpp_bind, wpp_new_space; [|by left]. intros root fa0 Hfresh.
  apply wpp_bind, wpp_in_sys, wpp_write_cr3. change (with_cr3 root _) with (active s root (half (SPACES s) kernel)).
  apply wpp_bind. eapply wpp_mono; [by apply load_image_spec| |done|done].
  intros r [s1 fa1] (us & Hs1 & Hr). cbn [fst] in Hs1. subst s1. apply wpp_bind, wpp_in_sys, wpp_write_cr3.
  rewrite deactivate. destruct r as [[entry sp]|e].
  - destruct Hr as [phs Hr]. apply wpp_wp, wp_ret. split; [done|]. by exists phs, us.
  - apply wpp_bind. unfold destroy_space. apply wpp_bind, wpp_wp, wp_get, wpp_bind, wpp_wp. cbn [fst snd].
    apply wp_assert. { change (current_key (set_mm _ _ s)) with (current_key s). destruct (Z.eqb_spec root (current_key s)); [congruence|done]. }
    apply wpp_wp, wp_put, wpp_wp, wp_ret. split; [done|]. cbn [fst]. cbn [SPACES set_mm].
    rewrite delete_insert_id by done. by destruct s.
Qed.
End Build.

(** ** The commit *)

Section Commit.
Context {D N F : Type} `{BL : BlockDevLaws D} `{NL : NetStackLaws N} `{ML : MapperLaws F} {AS : AddressSpaces F} (v : Fat32).
Implicit Types s : Sys D N F.
#[local] Abbreviation inv := (inv v).

(** The running thread is a process in the active space. *)
Definition runs_here s : Prop :=
  exists sc t, SCHEDULER (kern (tty s)) = Some sc /\ threads sc !! current sc = Some t /\ t_cr3 t = Some (current_key s).

(** The kernel after the running thread moved to the space [root]. *)
Definition replaced (root : Z) (k : Kernel) : Kernel :=
  set_cpu (set_fs_base 0 (set_cr3 root (cpu k)))
    (match SCHEDULER k with
     | Some sc => set_sched (set_threads
         (alter (fun t => set_thread_fs 0 (set_owned (Some root) (stack t) t)) (current sc) (threads sc)) sc) k
     | None => k
     end).

(** The entry of a process moves to its new root, with an empty heap. *)
Definition rekeyed (old root : Z) (m : gmap Z ProcState) : gmap Z ProcState :=
  match m !! old with Some p => <[root := set_brk USER_HEAP_BASE p]> (delete old m) | None => m end.

Lemma rekey_process_eq s old root :
  PROCESSES s !! root = None -> old <> root ->
  rekey_process old root s = (Ret tt, set_procs (rekeyed old root (PROCESSES s)) s).
Proof.
  intros Hn Hne. unfold rekey_process, rekeyed, pbind, pget. destruct (PROCESSES s !! old) as [p|].
  - unfold pput, insert_proc, pbind, pget, pput. cbn [PROCESSES set_procs]. by rewrite lookup_delete_ne, Hn.
  - unfold pret. by destruct s.
Qed.

(** The state [exec_commit] leaves when [root] has the lower half [us]. *)
Definition committed s (root : Z) (us : UserSpace) (fa : F) : Sys D N F :=
  mkSys (set_kern (replaced root (kern (tty s))) (tty s)) (rekeyed (current_key s) root (PROCESSES s)) (PIPES s) (ARCS s)
    (delete (current_key s) (<[root := us]> (SPACES s)))
    (Some (as_destroy (current_key s) (<[root := us]> (SPACES s)) fa)) (NET s) (DISK s) (SERIAL s) (STATS s).

Lemma exec_replace_eq root k sc t old :
  SCHEDULER k = Some sc -> threads sc !! current sc = Some t -> t_cr3 t = Some old ->
  exec_replace_cr3 root k = (Ret old, set_sched (set_threads
    (alter (fun t => set_thread_fs 0 (set_owned (Some root) (stack t) t)) (current sc) (threads sc)) sc) k).
Proof.
  intros Hsc Ht Hc. unfold exec_replace_cr3, scheduler, thread_at, pbind, pget. rewrite Hsc. cbn [punwrap pret].
  unfold pret. rewrite Ht. cbn [punwrap]. unfold pret. by rewrite Hc.
Qed.

Lemma exec_commit_eq s root us fa :
  runs_here s -> is_Some (SPACES s !! current_key s) -> SPACES s !! root = None -> PROCESSES s !! root = None ->
  exec_commit root (set_mm (<[root := us]> (SPACES s)) (Some fa) s) = (Ret tt, committed s root us fa).
Proof.
  intros (sc & t & Hsc & Ht & Hc) [u Hu] Hr Hp. assert (Hne : current_key s <> root) by congruence.
  unfold exec_commit. erewrite pbind_step.
  2:{ unfold in_kernel, pzoom. cbn [kern tty set_mm]. by erewrite exec_replace_eq. }
  erewrite pbind_step; [|apply write_cr3_eq]. erewrite pbind_step.
  2:{ unfold with_global. cbn [FRAMES with_cr3 set_tty set_mm]. unfold destroy_space, pbind, pget, passert, pput. cbn [fst snd].
      change (current_key (with_cr3 root _)) with root. destruct (Z.eqb_spec (current_key s) root); [done|]. reflexivity. }
  erewrite pbind_step; [|by apply rekey_process_eq]. unfold committed, replaced. rewrite Hsc. reflexivity.
Qed.

Lemma replaced_ok root k sc t old :
  SCHEDULER k = Some sc -> threads sc !! current sc = Some t -> t_cr3 t = Some old -> kernel_ok k -> kernel_ok (replaced root k).
Proof.
  intros Hsc Ht Hc Hk.
  assert (Hu : user_current k) by (exists sc, t; split_and!; [done..|by eexists]).
  pose proof (wp_ret_inv _ _ _ _ _ _ (exec_ok root k Hk Hu) (exec_replace_eq root k sc t old Hsc Ht Hc)) as [Hk' _].
  unfold replaced. rewrite Hsc. revert Hk'. by apply kernel_ok_ext.
Qed.

Lemma committed_inv s root us fa :
  inv [] s -> runs_here s -> PROCESSES s !! root = None -> current_key s <> root -> inv [] (committed s root us fa).
Proof.
  intros [H1 H2 H3 H4 H5] (sc & t & Hsc & Ht & Hc) Hp Hne. split; [| |by eapply replaced_ok|done..].
  - eapply refs_ok_ext; [done..|]. intros r. unfold total. cbn [PROCESSES committed]. f_equal.
    unfold rekeyed. destruct (PROCESSES s !! current_key s) as [p|] eqn:Ep; [|done].
    rewrite cnt_procs_insert by (by rewrite lookup_delete_ne). rewrite (cnt_procs_delete r _ _ p) by done.
    cbn [fds set_brk]. lia.
  - intros k q. cbn [PROCESSES committed]. unfold rekeyed. destruct (PROCESSES s !! current_key s) as [p|] eqn:Ep; [|apply H2].
    rewrite lookup_insert_Some, lookup_delete_Some. intros [[_ <-]|(_ & _ & Hk)]; [|by eapply H2].
    destruct (H2 _ _ Ep). split; [done..|]. cbn. unfold USER_HEAP_MAX. lia.
Qed.

(** ** Reading the arguments *)

(** Every process has a space, and the running one is in its own. *)
Definition spaces_ok s : Prop :=
  is_Some (SPACES s !! current_key s) /\ forall k, is_Some (PROCESSES s !! k) -> is_Some (SPACES s !! k).

(** The registry, with the entry of the running process there. *)
Definition touched s (m : gmap Z ProcState) : Prop :=
  m = PROCESSES s \/ PROCESSES s !! current_key s = None /\ m = <[current_key s := ProcState_default]> (PROCESSES s).

(** [s'] is [s] but for reads of the disk, the first use of the process's entry,
    and the frame allocator. *)
Definition untouched s s' : Prop :=
  inv [] s' /\ exists m d fr, touched s m /\ same_disk (DISK s) d /\ s' = set_disk d (set_procs m (set_mm (SPACES s) fr s)).

Lemma upd_user_same s : is_Some (SPACES s !! current_key s) -> upd_user (user_space s) s = s.
Proof.
  intros [us Hu]. unfold upd_user, user_space. rewrite Hu. cbn [default from_option id].
  rewrite insert_id by done. by destruct s.
Qed.

Lemma touched_trans s s' m :
  touched s (PROCESSES s') -> current_key s' = current_key s -> touched s' m -> touched s m.
Proof.
  intros H1 Hk H2. unfold touched in *. rewrite Hk in H2. destruct H2 as [->|[Hn ->]]; [done|].
  destruct H1 as [E|[Hn' E]]; rewrite E in *; [by right|]. by rewrite lookup_insert_eq in Hn.
Qed.

Lemma inv_untouched s s' : untouched s s' -> inv [] s'.
Proof. by intros [? _]. Qed.

Lemma untouched_refl s : inv [] s -> untouched s s.
Proof. intros I. split; [done|]. exists (PROCESSES s), (DISK s), (FRAMES s). split_and!; [by left|apply same_refl|by destruct s]. Qed.

Lemma untouched_trans s s1 s2 : untouched s s1 -> untouched s1 s2 -> untouched s s2.
Proof.
  intros [_ (m & d & fr & T1 & E1 & ->)] [I (m2 & d2 & fr2 & T2 & E2 & ->)]. split; [done|].
  exists m2, d2, fr2. cbn in E2. split_and!; [|by eapply same_trans|done].
  by apply (touched_trans s (set_disk d (set_procs m (set_mm (SPACES s) fr s)))).
Qed.

Lemma untouched_key s s' : untouched s s' -> current_key s' = current_key s.
Proof. by intros (_ & m & d & fr & _ & _ & ->). Qed.

Lemma untouched_user s s' : untouched s s' -> user_space s' = user_space s.
Proof. by intros (_ & m & d & fr & _ & _ & ->). Qed.

(** A reading step: it ends in a state like the one before, with [R] of its value
    or [X] of its error. *)
Definition reads {A} (m : prog (Sys D N F) Z A) s (R : A -> Prop) (X : Z -> Prop) : Prop :=
  wp m (fun a s' => untouched s s' /\ FRAMES s' = FRAMES s /\ R a)
    (fun e s' => untouched s s' /\ FRAMES s' = FRAMES s /\ X e) s.

Lemma reads_user {A} (m : prog UserSpace Z A) s R X :
  inv [] s -> is_Some (SPACES s !! current_key s) ->
  wp m (fun a us => us = user_space s /\ R a) (fun e us => us = user_space s /\ X e) (user_space s) ->
  reads (in_user m) s R X.
Proof.
  intros I Hs Hm. apply wp_in_user. eapply wp_mono; [exact Hm| |]; cbn beta; intros ? us [-> ?];
    rewrite upd_user_same by done; (split_and!; [by apply untouched_refl|done|done]).
Qed.

Lemma wp_current_proc_touched s (Q : ProcState -> Sys D N F -> Prop) X :
  inv [] s -> room s ->
  (forall s', untouched s s' -> FRAMES s' = FRAMES s -> Q (default ProcState_default (PROCESSES s !! current_key s)) s') ->
  wp current_proc Q X s.
Proof.
  intros I Hr HQ.
  assert (Hinv : wp current_proc (fun _ s' => inv [] s') X s).
  { eapply (wp_current_proc_first v []); [done|by apply room_ready|]. intros p s' Hp _ _ _ _ _. apply Hp. }
  unfold current_proc in *. apply wp_bind_inv, wp_ret_inv with (a := s) (s' := s) in Hinv; [|done].
  apply wp_bind, wp_get. destruct (PROCESSES s !! current_key s) as [p|] eqn:Hp.
  - by apply wp_ret, HQ; [apply untouched_refl|].
  - apply wp_bind, wp_put, wp_ret, HQ; [|done]. split; [exact Hinv|].
    exists (<[current_key s := ProcState_default]> (PROCESSES s)), (DISK s), (FRAMES s).
    split_and!; [by right|apply same_refl|by destruct s].
Qed.

(** The file a path names. *)
Definition file_at s (path : list byte) : FatError + list byte := a_read (view v (disk (DISK s))) (root_cluster v) path.

Definition path_read s (ptr : Z) (path : list byte) : Prop :=
  exists raw, cstr_at (user_space s) ptr raw /\ utf8_ok raw = true /\ path = resolve_from (cwd_of s) raw.

Definition path_error s (ptr e : Z) : Prop :=
  e = EINVAL /\ no_nul (user_space s) ptr PATH_MAX \/ e = EFAULT /\ cstr_faults (user_space s) ptr \/
  e = ENOENT /\ exists raw, cstr_at (user_space s) ptr raw /\ utf8_ok raw = false.

Lemma reads_path s ptr :
  inv [] s -> room s -> is_Some (SPACES s !! current_key s) -> 0 <= ptr ->
  reads (exec_path ptr) s (path_read s ptr) (path_error s ptr).
Proof.
  intros I Hr Hs Hp. unfold reads, exec_path. apply wp_bind, wp_in_user.
  eapply wp_mono; [by apply wp_read_user_cstr| |]; cbn beta.
  - intros raw us [-> Hc]. rewrite upd_user_same by done. destruct (utf8_ok raw) eqn:Eu; cbn [negb].
    2:{ apply wp_fail. split_and!; [by apply untouched_refl|done|]. right. right. split; [done|]. by exists raw. }
    assert (HR : path_read s ptr (resolve_from (cwd_of s) raw)) by (by exists raw).
    apply wp_map_err.
    assert (Hrel : forall X, wp (let! p := current_proc in pret (resolve_from (cwd p) raw))
      (fun a s' => untouched s s' /\ FRAMES s' = FRAMES s /\ path_read s ptr a) X s).
    { intros X. apply wp_bind, wp_current_proc_touched; [done..|]. intros s' U E. by apply wp_ret. }
    assert (resolve_path raw = (let! p := current_proc in pret (resolve_from (cwd p) raw)) \/
            exists l, raw = x2f :: l) as [->|[l ->]] by (destruct raw as [|[] raw]; eauto).
    + apply Hrel.
    + apply wp_ret. split_and!; [by apply untouched_refl|done|exact HR].
  - intros e us [-> He]. rewrite upd_user_same by done. split_and!; [by apply untouched_refl|done|]. unfold path_error. tauto.
Qed.

Lemma reads_file s path :
  inv [] s ->
  reads (exec_file_bytes path) s (fun bytes => file_at s path = inr bytes)
    (fun e => e = ENOENT /\ exists fe, file_at s path = inl fe \/ fault v (DISK s) fe).
Proof.
  intros I. destruct (inv_disk _ _ _ I) as [O Hok]. unfold reads, exec_file_bytes. apply wp_map_err, wp_zoom.
  assert (Hd : forall d', same_disk (DISK s) d' -> untouched s (set_disk d' s)).
  { intros d' [E Hs]. split; [apply inv_set_disk; [done|exists O; by rewrite E]|].
    exists (PROCESSES s), d', (FRAMES s). split_and!; [by left|done|by destruct s]. }
  eapply wp_mono; [by apply (vfs_open_spec v (DISK s) O)| |]; cbn beta.
  - intros bytes d' [Hr Hs]. split_and!; [by apply Hd|done|done].
  - intros e d' [Hs Hr]. split_and!; [by apply Hd|done|done|]. by exists e.
Qed.

Lemma wpp_or_rax {A} regs (m : prog (Sys D N F) Z A) k s R X (Q : SyscallRegs -> Sys D N F -> Prop) P :
  reads m s R X ->
  (forall a s', untouched s s' -> FRAMES s' = FRAMES s -> R a -> wpp (k a) Q no_err' P s') ->
  (forall e s', untouched s s' -> X e -> Q (set_rax (as_u64 (- e)) regs) s') ->
  wpp (or_rax regs m k) Q no_err' P s.
Proof.
  intros Hm HR HX. unfold or_rax. apply wpp_bind, wpp_wp, wp_try. eapply wp_mono; [exact Hm| |]; cbn beta.
  - intros a s' (U & E & Ha). by apply HR.
  - intros e s' (U & E & He). by apply wpp_wp, wp_ret, HX.
Qed.

Lemma untouched_spaces s s' : untouched s s' -> SPACES s' = SPACES s /\ kern (tty s') = kern (tty s).
Proof. by intros (_ & m & d & fr & _ & _ & ->). Qed.

Lemma untouched_file s s' path : untouched s s' -> file_at s' path = file_at s path.
Proof. intros (_ & m & d & fr & _ & [E _] & ->). unfold file_at. cbn. by rewrite E. Qed.

Lemma untouched_fault s s' e : untouched s s' -> fault v (DISK s') e -> fault v (DISK s) e.
Proof. intros (_ & m & d & fr & _ & E & ->). by apply fault_from. Qed.

Lemma untouched_ok s s' : untouched s s' -> spaces_ok s -> runs_here s -> spaces_ok s' /\ runs_here s'.
Proof.
  intros (_ & m & d & fr & T & _ & ->) [H1 H2] H3. split; [|exact H3]. split; [exact H1|].
  cbn. intros k. destruct T as [->|[_ ->]]; [apply H2|].
  destruct (decide (k = current_key s)) as [->|Hk]; [done|]. rewrite lookup_insert_ne by done. apply H2.
Qed.

(** ** The contract of [execve] *)

Definition proc_of s (k : Z) : ProcState := default ProcState_default (PROCESSES s !! k).

Definition kernel_root s : Z := from_option kernel_cr3 0 (SCHEDULER (kern (tty s))).

(** The kernel's part of a lower half. *)
Definition kernel_half s : UserSpace := half (SPACES s) (kernel_root s).

Definition exec_args s (regs : SyscallRegs) (bytes : list byte) (argv envp : list (list byte)) : Prop :=
  (exists path, path_read s (sr_rdi regs) path /\ file_at s path = inr bytes) /\
  str_array (user_space s) (sr_rsi regs) argv /\ str_array (user_space s) (sr_rdx regs) envp.

(** Why a call fails, in the order of the checks. *)
Definition exec_error s (regs : SyscallRegs) (e : Z) : Prop :=
  path_error s (sr_rdi regs) e \/ exists path, path_read s (sr_rdi regs) path /\
  (e = ENOENT /\ (exists fe, file_at s path = inl fe \/ fault v (DISK s) fe) \/ exists bytes, file_at s path = inr bytes /\
   (str_array_error (user_space s) (sr_rsi regs) e \/ exists argv, str_array (user_space s) (sr_rsi regs) argv /\
    (str_array_error (user_space s) (sr_rdx regs) e \/ exists envp, str_array (user_space s) (sr_rdx regs) envp /\
     (e = ENOMEM /\ FRAMES s = None \/ build_error (kernel_half s) bytes argv envp e)))).

(** The process has moved to the space [root] with the memory [us]. *)
Record exec_done s (root : Z) (us : UserSpace) s' : Prop := {
  ed_inv : inv [] s';
  ed_active : current_key s' = root /\ user_space s' = us;
  ed_fresh : SPACES s !! root = None;
  ed_freed : SPACES s' !! current_key s = None /\ PROCESSES s' !! current_key s = None;
  ed_others r : r <> root -> r <> current_key s -> SPACES s' !! r = SPACES s !! r /\ PROCESSES s' !! r = PROCESSES s !! r;
  ed_kernel : kern (tty s') = replaced root (kern (tty s));
  ed_process : proc_of s' root = set_brk USER_HEAP_BASE (proc_of s (current_key s));
  ed_cells : PIPES s' = PIPES s /\ ARCS s' = ARCS s /\ disk (DISK s') = disk (DISK s)
}.

Lemma committed_done s s1 root us fa :
  untouched s s1 -> spaces_ok s -> runs_here s -> SPACES s1 !! root = None -> exec_done s root us (committed s1 root us fa).
Proof.
  intros U Hs Hr Hroot. destruct (untouched_ok _ _ U Hs Hr) as [[_ Hp1] Hr1]. destruct Hs as [[u1 Hc1] _].
  pose proof (inv_untouched _ _ U) as I1. pose proof (untouched_key _ _ U) as Ek.
  destruct (untouched_spaces _ _ U) as [Es Et]. rewrite Es in *.
  assert (T : touched s (PROCESSES s1) /\ PIPES s1 = PIPES s /\ ARCS s1 = ARCS s /\ disk (DISK s1) = disk (DISK s)).
  { destruct U as (_ & m & d & fr & T & [Ed _] & ->). done. }
  destruct T as (T & Ec). clear U.
  assert (Hne : current_key s <> root) by congruence.
  assert (Hm : PROCESSES s1 !! root = None).
  { destruct (PROCESSES s1 !! root) eqn:E; [|done]. destruct (Hp1 root) as [? ?]; [by rewrite E|congruence]. }
  split; try done.
  - apply committed_inv; congruence.
  - split; [done|]. unfold user_space. change (current_key (committed s1 root us fa)) with root. cbn. by rewrite Ek, Es, lookup_delete_ne, lookup_insert_eq by done.
  - cbn. rewrite Ek. split; [apply lookup_delete_eq|]. unfold rekeyed. destruct (PROCESSES s1 !! current_key s) eqn:E; [|done].
    by rewrite lookup_insert_ne, lookup_delete_eq by done.
  - intros r H1 H2. cbn. rewrite Ek, Es, lookup_delete_ne, lookup_insert_ne by done. split; [done|].
    assert (Em : PROCESSES s1 !! r = PROCESSES s !! r).
    { destruct T as [->|[_ ->]]; [done|by rewrite lookup_insert_ne]. }
    unfold rekeyed. destruct (PROCESSES s1 !! current_key s); [|done]. by rewrite lookup_insert_ne, lookup_delete_ne by done.
  - cbn. by rewrite Et.
  - unfold proc_of. cbn. unfold rekeyed. rewrite Ek. destruct T as [E|[Hn E]]; rewrite E in *.
    + destruct (PROCESSES s !! current_key s); [by rewrite lookup_insert_eq|]. by rewrite Hm.
    + by rewrite !lookup_insert_eq, Hn.
Qed.

Lemma wpp_with_global {A} (m : prog (Sys D N F * F) Empty_set A) s fa (Q : option A -> Sys D N F -> Prop) P :
  FRAMES s = Some fa ->
  wpp m (fun a x => Q (Some a) (set_mm (SPACES x.1) (Some x.2) x.1)) no_fault
    (fun x => P (set_mm (SPACES x.1) (Some x.2) x.1)) (s, fa) ->
  wpp (with_global m) Q no_err' P s.
Proof. intros Hf. unfold wpp, with_global. rewrite Hf. by destruct (m (s, fa)) as [[] [? ?]]. Qed.

Lemma wp_kernel_root s (Q : Z -> Sys D N F -> Prop) X : inv [] s -> Q (kernel_root s) s -> wp (in_kernel get_kernel_cr3) Q X s.
Proof.
  intros I HQ. destruct (inv_kernel _ _ _ I) as (sc & Hsc & _). apply wp_zoom. unfold get_kernel_cr3, scheduler.
  apply wp_bind, wp_bind, wp_get. eapply wp_unwrap; [done|]. apply wp_ret. unfold kernel_root in HQ. rewrite Hsc in HQ.
  cbn in HQ. by replace (set_tty _ s) with s by (by destruct s as [[]]).
Qed.

(** The result of a call from [s] with the registers [regs]. *)
Definition exec_result s (regs regs' : SyscallRegs) s' : Prop :=
  (exists e, regs' = set_rax (as_u64 (- e)) regs /\ exec_error s regs e /\ untouched s s') \/
  (exists bytes argv envp phs entry sp root us,
     exec_args s regs bytes argv envp /\ program_image (kernel_half s) bytes phs argv envp entry sp us /\
     regs' = start_regs entry sp /\ exec_done s root us s').

(** The two panics: the frames run out, or the file has a segment over the stack. *)
Definition exec_panic s (regs : SyscallRegs) s' : Prop :=
  (exists fa, FRAMES s' = Some fa /\ (allocate_frame fa).1 = None) \/
  (exists bytes argv envp, exec_args s regs bytes argv envp /\ ~ stack_free (kernel_half s) bytes).

Context {AL : AddressSpacesLaws F}.

(** From the arguments on. *)
Lemma exec_build_spec s s4 regs bytes argv envp :
  untouched s s4 -> FRAMES s4 = FRAMES s -> spaces_ok s -> runs_here s -> exec_args s regs bytes argv envp ->
  Z.of_nat (length bytes) < 2 ^ 63 ->
  wpp (let! s := pget in
       let! kernel_pml4 := in_kernel get_kernel_cr3 in
       let! built := with_global (build_space kernel_pml4 (current_key s) bytes argv envp) in
       match built with
       | Some (inl (new_pml4, entry, user_rsp)) => exec_commit new_pml4 ;;! pret (start_regs entry user_rsp)
       | Some (inr errno) => pret (set_rax (as_u64 (- errno)) regs)
       | None => pret (set_rax (as_u64 (- ENOMEM)) regs)
       end) (exec_result s regs) no_err' (exec_panic s regs) s4.
Proof.
  intros U Ef Hs Hr Ha Hlen. destruct (untouched_ok _ _ U Hs Hr) as [Hs4 Hr4].
  destruct (untouched_spaces _ _ U) as [Es Ek]. pose proof (inv_untouched _ _ U) as I4.
  assert (Hh : half (SPACES s4) (kernel_root s4) = kernel_half s) by (unfold kernel_half, kernel_root; by rewrite Es, Ek).
  assert (Herr : forall e, e = ENOMEM /\ FRAMES s = None \/ build_error (kernel_half s) bytes argv envp e -> exec_error s regs e).
  { intros e He. destruct Ha as ((path & Hp & Hf) & Hav & Hev). right. exists path. split; [done|]. right.
    exists bytes. split; [done|]. right. exists argv. split; [done|]. right. by exists envp. }
  apply wpp_bind, wpp_wp, wp_get, wpp_bind, wpp_wp, wp_kernel_root; [done|]. apply wpp_bind.
  destruct (FRAMES s4) as [fa|] eqn:Efr.
  2:{ unfold wpp, with_global. rewrite Efr. left. exists ENOMEM. split_and!; [done| |done]. apply Herr. left. by rewrite Ef. }
  eapply wpp_with_global; [done|]. eapply wpp_mono; [apply build_space_spec; [exact (proj1 Hs4)|done]| |done|].
  - intros r [s5 fa5] Hr5. unfold space_built in Hr5. cbn [fst snd]. rewrite Hh in Hr5. destruct r as [[[root entry] sp]|e].
    + destruct Hr5 as (Hroot & phs & us & Hi & E5). cbn [fst] in E5. subst s5. cbn [SPACES FRAMES set_mm].
      destruct Hs4 as [Hs4 Hs4']. assert (Hpr : PROCESSES s4 !! root = None).
      { destruct (PROCESSES s4 !! root) eqn:E; [|done]. destruct (Hs4' root) as [? ?]; [by rewrite E|congruence]. }
      unfold wpp. erewrite pbind_step; [|by apply (exec_commit_eq s4 root us fa5)]. right.
      exists bytes, argv, envp, phs, entry, sp, root, us. split_and!; [done..|]. by apply committed_done.
    + destruct Hr5 as [He E5]. cbn [fst] in E5. subst s5. apply wpp_wp, wp_ret. left. exists e. split_and!; [done|apply Herr; by right|].
      eapply untouched_trans; [exact U|]. split; [destruct I4; split; [by eapply refs_ok_ext|done..]|].
      exists (PROCESSES s4), (DISK s4), (Some fa5). split_and!; [by left|apply same_refl|by destruct s4].
  - intros [s5 fa5] [Hp|Hp]; cbn [fst snd] in *; [left; by exists fa5|right]. rewrite Hh in Hp. by exists bytes, argv, envp.
Qed.

Lemma file_length s path bytes : file_at s path = inr bytes -> Z.of_nat (length bytes) < 2 ^ 63.
Proof.
  unfold file_at, a_read. destruct (a_find _ _ _) as [|[data|]] eqn:E; try done. intros [= <-].
  unfold a_find in E. destruct (a_resolve _ _ _) as [|[c name]]; [done|]. destruct (view _ _ _ _) as [n|] eqn:En; [|done].
  injection E as ->. apply view_length in En. unfold U32 in En. lia.
Qed.


(** ** The contract of [fork] *)

(** Only the shared cells differ. *)
Definition cells_only s s' : Prop := exists p a, s' = set_arcs a (set_pipes p s).

Lemma cells_only_refl s : cells_only s s.
Proof. exists (PIPES s), (ARCS s). by destruct s. Qed.

Lemma cells_only_trans s s1 s2 : cells_only s s1 -> cells_only s1 s2 -> cells_only s s2.
Proof. intros (p & a & ->) (p' & a' & ->). by exists p', a'. Qed.

Lemma clone_fd_cells fd s r s' : clone_fd fd s = (Ret r, s') -> cells_only s s'.
Proof.
  destruct fd; cbn [clone_fd]; try (intros [= _ <-]; apply cells_only_refl);
    unfold pbind, pipe_cell, arc_count, pbind, pget, u64_add, put_pipe, put_arc, pmodify, pret.
  - destruct (PIPES s !! buf) as [b|]; cbn [punwrap]; [|done]. unfold pret. destruct (checked _ _) as [n|]; cbn [punwrap]; [|done].
    unfold pret. intros [= _ Hs]. exists (PIPES s'), (ARCS s'). subst s'. by destruct s.
  - destruct (PIPES s !! buf) as [b|]; cbn [punwrap]; [|done]. unfold pret. destruct (checked _ _) as [n|]; cbn [punwrap]; [|done].
    unfold pret. intros [= _ Hs]. exists (PIPES s'), (ARCS s'). subst s'. by destruct s.
  - destruct (ARCS s !! _) as [n|]; cbn [punwrap]; [|done]. unfold pret. intros [= _ Hs].
    exists (PIPES s'), (ARCS s'). subst s'. by destruct s.
Qed.

Lemma clone_slots_cells l : forall s r s', clone_slots l s = (Ret r, s') -> cells_only s s'.
Proof.
  induction l as [|[fd|] l IH]; intros s r s'; cbn [clone_slots clone_slot].
  - intros [= _ <-]. apply cells_only_refl.
  - unfold pbind. destruct (clone_fd fd s) as [[x|e| |] s1] eqn:E1; try done. cbn. unfold pret.
    destruct (clone_slots l s1) as [[y|e| |] s2] eqn:E2; try done. intros [= _ <-].
    eapply cells_only_trans; [by eapply clone_fd_cells|by eapply IH].
  - unfold pbind, pret. destruct (clone_slots l s) as [[y|e| |] s2] eqn:E2; try done. intros [= _ <-]. by eapply IH.
Qed.

(** The registry with the child's entry. *)
Definition with_child (parent child : Z) (m : gmap Z ProcState) : gmap Z ProcState :=
  match m !! parent with Some p => <[child := p]> m | None => m end.

Lemma fork_fds_spec s parent child :
  inv [] s -> room s -> PROCESSES s !! child = None ->
  wp (fork_fds parent child)
    (fun _ s' => inv [] s' /\ exists p a, s' = set_arcs a (set_pipes p (set_procs (with_child parent child (PROCESSES s)) s)))
    no_err' s.
Proof.
  intros I Hr Hc. pose proof (fork_fds_ok v s parent child I Hr) as Hok. unfold wp in *.
  assert (E : forall s', fork_fds parent child s = (Ret tt, s') ->
    exists p a, s' = set_arcs a (set_pipes p (set_procs (with_child parent child (PROCESSES s)) s))).
  { intros s'. unfold fork_fds, with_child, pbind at 1, pget. destruct (PROCESSES s !! parent) as [p|] eqn:Ep.
    2:{ intros [= <-]. exists (PIPES s), (ARCS s). by destruct s. }
    unfold pbind at 1. destruct (clone_slots (fds p) s) as [[l|e| |] s1] eqn:El; try done.
    assert (Hl : l = fds p).
    { pose proof (fun H1 H2 => wp_clone_slots v (fds p) [] s (fun l _ => l = fds p) no_err' I
        (proj1 (room_ready _ Hr)) H1 H2) as Hw.
      assert (Hw' : wp (clone_slots (fds p)) (fun l _ => l = fds p) no_err' s).
      { apply Hw; [|intros r; by eapply cnt_procs_lookup|done].
        pose proof (po_len _ (inv_procs _ _ _ I _ _ Ep)). unfold MAX_FDS in *. cbn. lia. }
      exact (wp_ret_inv _ _ _ _ _ _ Hw' El). }
    apply clone_slots_cells in El as (pp & aa & ->). subst l. unfold insert_proc, pbind, pget, pput. cbn [PROCESSES set_arcs set_pipes].
    rewrite Hc. cbn [drop_proc]. intros [= <-]. exists pp, aa. destruct p. by destruct s. }
  destruct (fork_fds parent child s) as [[[]|e| |] s'] eqn:Ef; try done. split; [apply Hok|by apply E].
Qed.

Lemma add_user_eq k sc t rsp root ktop kst fs :
  SCHEDULER k = Some sc -> threads sc !! current sc = Some t ->
  add_user_task rsp root ktop kst fs k = (Ret (NEXT_PID k),
    set_sched (set_threads (threads sc ++ [mkThread (NEXT_PID k) (pid t) None None 0 rsp (Some kst) (Some root) ktop fs
      (FpuArea_save_current (cpu k)) Runnable NotBlocked]) sc) (set_next_pid ((NEXT_PID k + 1) mod U32) k)).
Proof.
  intros Hsc Ht. unfold add_user_task. erewrite pbind_step.
  2:{ unfold current_pid, current_field, pbind, pget, thread_at. rewrite Hsc. unfold punwrap. by rewrite Ht. }
  erewrite pbind_step; [|reflexivity]. erewrite pbind_step; [|reflexivity]. erewrite pbind_step; [reflexivity|].
  unfold push_thread, scheduler, pbind, pget. cbn [SCHEDULER set_next_pid]. by rewrite Hsc.
Qed.

Lemma current_fs_eq k sc t :
  SCHEDULER k = Some sc -> threads sc !! current sc = Some t -> current_fs_base k = (Ret (t_fs_base t), k).
Proof.
  intros Hsc Ht. unfold current_fs_base, current_field, pbind, pget, thread_at. rewrite Hsc. unfold punwrap. by rewrite Ht.
Qed.

(** The memory of the child: the kernel's pages and a copy of the parent's. *)
Record copy_of s (us : UserSpace) : Prop := {
  co_pages pg : us_pages us !! pg =
    match us_pages (kernel_half s) !! pg with
    | Some x => Some x
    | None => (fun _ => (true, true)) <$> us_pages (user_space s) !! pg
    end;
  co_bytes a : us_pages (kernel_half s) !! page_of a = None -> is_Some (us_pages (user_space s) !! page_of a) ->
    byte_at us a = byte_at (user_space s) a
}.

(** The kernel with the child's thread: its stack holds the frame of the parent
    with 0 in [rax], and it inherits the TLS base and the FPU state. *)
Definition child_added (sysret base : Z) (regs : SyscallRegs) (child : Z) (k k' : Kernel) : Prop :=
  exists sc t rsp w, SCHEDULER k = Some sc /\ threads sc !! current sc = Some t /\
    let ktop := align16 (base + USER_KERNEL_STACK_SIZE) in
    init_fork_child_stack sysret ktop regs (mem (cpu k)) = (rsp, w) /\
    k' = set_sched (set_threads (threads sc ++ [mkThread (NEXT_PID k) (pid t) None None 0 rsp
           (Some (base, USER_KERNEL_STACK_SIZE)) (Some child) ktop (t_fs_base t) (fpu (cpu k)) Runnable NotBlocked]) sc)
         (set_next_pid (NEXT_PID k + 1) (set_cpu (set_mem w (cpu k)) k)).

Record fork_done (sysret base : Z) (regs : SyscallRegs) s (child : Z) (us : UserSpace) s' : Prop := {
  fd_inv : inv [] s';
  fd_fresh : SPACES s !! child = None;
  fd_spaces : SPACES s' = <[child := us]> (SPACES s);
  fd_copy : copy_of s us;
  fd_procs : PROCESSES s' = with_child (current_key s) child (PROCESSES s);
  fd_kernel : child_added sysret base regs child (kern (tty s)) (kern (tty s'));
  fd_rest : DISK s' = DISK s /\ NET s' = NET s /\ SERIAL s' = SERIAL s /\ STATS s' = STATS s
}.

(** From the new space on. *)
Lemma fork_rest sysret base regs s fa child us :
  inv [] s -> room s -> runs_here s -> NEXT_PID (kern (tty s)) + 1 < U32 -> SPACES s !! child = None ->
  PROCESSES s !! child = None -> copy_of s us ->
  wp (fork_fds (current_key s) child ;;!
      let ktop := align16 (base + USER_KERNEL_STACK_SIZE) in
      let! s := pget in
      let '(rsp, w) := init_fork_child_stack sysret ktop regs (mem (cpu (kern (tty s)))) in
      in_kernel (pmodify (fun k => set_cpu (set_mem w (cpu k)) k)) ;;!
      let! fs := in_kernel current_fs_base in
      let! child_pid := in_kernel (add_user_task rsp child ktop (base, USER_KERNEL_STACK_SIZE) fs) in
      pret (set_rax child_pid regs))
    (fun regs' s' => regs' = set_rax (NEXT_PID (kern (tty s))) regs /\ fork_done sysret base regs s child us s') no_err'
    (set_mm (<[child := us]> (SPACES s)) (Some fa) s).
Proof.
  intros I Hr (sc & t & Hsc & Ht & Hc) Hpid Hfresh Hp Hcopy. set (s1 := set_mm _ _ s).
  assert (I1 : inv [] s1) by (destruct I; split; [by eapply refs_ok_ext|done..]).
  apply wp_bind. eapply wp_mono; [by apply (fork_fds_spec s1)| |done]. intros [] s2 (I2 & p & a & ->).
  cbn zeta. apply wp_bind, wp_get. cbn [kern tty set_arcs set_pipes set_procs set_mm s1].
  set (ktop := align16 _). destruct (init_fork_child_stack sysret ktop regs (mem (cpu (kern (tty s))))) as [rsp w] eqn:Ei.
  pose proof (inv_kernel _ _ _ I) as Hk. set (k1 := set_cpu (set_mem w (cpu (kern (tty s)))) (kern (tty s))).
  assert (Hk1 : kernel_ok k1) by (by apply (kernel_ok_ext (kern (tty s)))).
  pose proof (wp_ret_inv _ _ _ _ _ _ (add_user_ok rsp child ktop (base, USER_KERNEL_STACK_SIZE) (t_fs_base t) k1 Hk1 Hpid)
    (add_user_eq k1 sc t _ _ _ _ _ Hsc Ht)) as [Hk2 _].
  unfold wp. erewrite pbind_step; [|reflexivity]. erewrite pbind_step.
  2:{ unfold in_kernel, pzoom. cbn [kern tty set_tty set_kern]. by erewrite current_fs_eq. }
  erewrite pbind_step.
  2:{ unfold in_kernel, pzoom. cbn [kern tty set_tty set_kern]. by erewrite (add_user_eq k1). }
  cbn. split; [done|]. split; try done.
  - destruct I2 as [J1 J2 J3 J4 J5]. split; [by eapply refs_ok_ext|done..].
  - exists sc, t, rsp, w. split_and!; [done..|]. cbn. by rewrite Z.mod_small by (destruct Hk as (? & _ & _ & ?); lia).
Qed.

(** [fork] adds one process and changes no other. The child has a space of its
    own with a copy of every page of the caller, the caller's descriptors (each
    shared end counted once more), directory and break, and a thread that will
    leave the system call with the caller's registers and 0 in [rax]; the caller
    goes on with the pid of the child in [rax] and all else as before. Without
    an allocator nothing happens but the error; the only panic is the exhaustion
    of the frames. *)
Theorem fork_adds_copy sysret base s regs :
  inv [] s -> room s -> spaces_ok s -> runs_here s -> NEXT_PID (kern (tty s)) + 1 < U32 ->
  wpp (fork sysret base regs)
    (fun regs' s' => FRAMES s = None /\ regs' = set_rax (as_u64 (- ENOMEM)) regs /\ s' = s \/
       exists child us, regs' = set_rax (NEXT_PID (kern (tty s))) regs /\ fork_done sysret base regs s child us s')
    no_err'
    (fun s' => s' = s /\ exists fa, FRAMES s = Some fa /\ as_fork (current_key s) (kernel_root s) (SPACES s) fa = None) s.
Proof.
  intros I Hr [Hs Hs'] Hh Hpid. unfold fork. apply wpp_bind, wpp_wp, wp_get, wpp_bind, wpp_wp, wp_kernel_root; [done|].
  apply wpp_bind. destruct (FRAMES s) as [fa|] eqn:Ef.
  2:{ unfold wpp, with_global. rewrite Ef. by left. }
  eapply wpp_with_global; [done|]. unfold fork_space. apply wpp_bind, wpp_wp, wp_get, wpp_bind. cbn [fst snd].
  destruct (as_fork (current_key s) (kernel_root s) (SPACES s) fa) as [[[child us] fa']|] eqn:Ea.
  2:{ cbn. split; [by destruct s; cbn in *; subst|by exists fa]. }
  apply as_fork_ok in Ea as (Hc & Hpg & Hb). apply wpp_wp, wp_ret, wpp_bind, wpp_wp, wp_put, wpp_wp, wp_ret. cbn [fst snd].
  assert (Hcp : copy_of s us).
  { split; [exact Hpg|]. intros a Hk [x Hx]. specialize (Hb a). change (half (SPACES s) (kernel_root s)) with (kernel_half s) in *.
    rewrite Hk in Hb. apply (Hb (true, true)). rewrite Hpg. fold (kernel_half s). rewrite Hk. unfold user_space in Hx.
    change (half (SPACES s) (current_key s)) with (user_space s). unfold user_space. by rewrite Hx. }
  apply wpp_wp. eapply wp_mono; [apply (fork_rest sysret base regs s fa' child us); try done| |done].
  - destruct (PROCESSES s !! child) eqn:E; [|done]. destruct (Hs' child) as [? ?]; [by rewrite E|congruence].
  - intros regs' s' [-> Hd]. right. by exists child, us.
Qed.

(** ** The first processes *)

(** The kernel with the thread of a new program, which will enter ring 3 at its
    entry point. *)
Definition user_added (tramp user_cs user_ss base entry sp root : Z) (k k' : Kernel) : Prop :=
  exists sc t rsp w, SCHEDULER k = Some sc /\ threads sc !! current sc = Some t /\
    let ktop := align16 (base + USER_KERNEL_STACK_SIZE) in
    init_user_thread_stack tramp ktop entry sp user_cs user_ss (mem (cpu k)) = (rsp, w) /\
    k' = set_sched (set_threads (threads sc ++ [mkThread (NEXT_PID k) (pid t) None None 0 rsp
           (Some (base, USER_KERNEL_STACK_SIZE)) (Some root) ktop 0 (fpu (cpu k)) Runnable NotBlocked]) sc)
         (set_next_pid (NEXT_PID k + 1) (set_cpu (set_mem w (cpu k)) k)).

Definition with_flags (x : Z) s : Sys D N F :=
  set_tty (set_kern (set_cpu (set_rflags x (cpu (kern (tty s)))) (kern (tty s))) (tty s)) s.

Definition flags_of s : Z := rflags (cpu (kern (tty s))).

Lemma flags_restored f :
  (if negb (Z.land f IF_BIT =? 0) then Z.lor (Z.ldiff f IF_BIT) IF_BIT else Z.ldiff f IF_BIT) = f.
Proof.
  change IF_BIT with (2 ^ 9). assert (E : Z.land f (2 ^ 9) = if Z.testbit f 9 then 2 ^ 9 else 0).
  { apply Z.bits_inj'. intros n Hn. rewrite Z.land_spec, Z.pow2_bits_eqb by lia.
    destruct (Z.eqb_spec 9 n) as [<-|Hne]; [by destruct (Z.testbit f 9)|].
    rewrite andb_false_r. destruct (Z.testbit f 9); [by rewrite Z.pow2_bits_false by lia|by rewrite Z.bits_0]. }
  rewrite E. destruct (Z.testbit f 9) eqn:Et; [change (2 ^ 9 =? 0) with false|]; cbn [Z.eqb negb];
    apply Z.bits_inj'; intros n Hn; rewrite ?Z.lor_spec, Z.ldiff_spec, ?Z.pow2_bits_eqb by lia;
    destruct (Z.eqb_spec 9 n) as [<-|Hne]; rewrite ?Et; cbn; by rewrite ?andb_true_r, ?orb_false_r.
Qed.

Lemma with_flags_twice x y s : with_flags x (with_flags y s) = with_flags x s.
Proof. done. Qed.

Lemma with_flags_same s : with_flags (flags_of s) s = s.
Proof. destruct s as [[con scr [sch pre np sb m]] p1 p2 p3 p4 p5 p6 p7 p8 p9]. unfold with_flags, flags_of. cbn. by destruct m. Qed.

(** The memory and the thread of a new program. *)
Record spawned (tramp user_cs user_ss base : Z) (bytes : list byte) s s' : Prop := {
  sp_inv : inv [] s';
  sp_program : exists phs entry sp root us,
    program_image (user_space s) bytes phs [] [] entry sp us /\ SPACES s !! root = None /\
    SPACES s' = <[root := us]> (SPACES s) /\
    user_added tramp user_cs user_ss base entry sp root (kern (tty s)) (kern (tty s'));
  sp_rest : PROCESSES s' = PROCESSES s /\ PIPES s' = PIPES s /\ ARCS s' = ARCS s /\ DISK s' = DISK s /\ FRAMES s' = FRAMES s
}.

Lemma spawn_rest tramp user_cs user_ss base bytes s fa phs entry sp root us :
  inv [] s -> NEXT_PID (kern (tty s)) + 1 < U32 ->
  program_image (user_space s) bytes phs [] [] entry sp us -> SPACES s !! root = None ->
  wp (let ktop := align16 (base + USER_KERNEL_STACK_SIZE) in
      let! x := pget in
      let '(rsp, w) := init_user_thread_stack tramp ktop entry sp user_cs user_ss (mem (cpu (kern (tty x.1)))) in
      in_sys (in_kernel (pmodify (fun k => set_cpu (set_mem w (cpu k)) k))) ;;!
      in_sys (in_kernel (add_user_task rsp root ktop (base, USER_KERNEL_STACK_SIZE) 0)) ;;!
      pret tt)
    (fun _ x => spawned tramp user_cs user_ss base bytes s x.1) no_fault (set_mm (<[root := us]> (SPACES s)) (FRAMES s) s, fa).
Proof.
  intros I Hpid Hi Hroot. cbn zeta. apply wp_bind, wp_get. cbn [fst kern tty set_mm].
  set (ktop := align16 _). destruct (init_user_thread_stack _ _ _ _ _ _ _) as [rsp w] eqn:Ei.
  pose proof (inv_kernel _ _ _ I) as Hk. set (k1 := set_cpu (set_mem w (cpu (kern (tty s)))) (kern (tty s))).
  assert (Hk1 : kernel_ok k1) by (by apply (kernel_ok_ext (kern (tty s)))).
  pose proof Hk as (sc & Hsc & [_ (t & Ht & _)] & Hn).
  pose proof (wp_ret_inv _ _ _ _ _ _ (add_user_ok rsp root ktop (base, USER_KERNEL_STACK_SIZE) 0 k1 Hk1 Hpid)
    (add_user_eq k1 sc t _ _ _ _ _ Hsc Ht)) as [Hk2 _].
  unfold wp. erewrite pbind_step; [|reflexivity]. erewrite pbind_step.
  2:{ unfold in_sys, in_kernel, pzoom. cbn [fst snd kern tty set_tty set_kern]. by erewrite (add_user_eq k1). }
  cbn. split; [|eexists phs, entry, sp, root, us|done].
  - destruct I as [J1 J2 J3 J4 J5]. split; [by eapply refs_ok_ext|done..].
  - split_and!; [done..|]. exists sc, t, rsp, w. split_and!; [done..|]. cbn. by rewrite Z.mod_small by lia.
Qed.

(** [spawn_user] makes a process of an ELF image: a new space with exactly its
    segments and an empty argument vector on the stack, and a runnable thread
    whose first switch enters ring 3 at its entry point; the active space, the
    interrupt flag and every other space, process and thread are as before. It
    panics only when the image is refused or claims the stack page, or the
    frames run out. *)
Theorem spawn_user_starts tramp user_cs user_ss base bytes s fa :
  inv [] s -> NEXT_PID (kern (tty s)) + 1 < U32 -> Z.of_nat (length bytes) < 2 ^ 63 ->
  wpp (spawn_user tramp user_cs user_ss base bytes)
    (fun _ x => spawned tramp user_cs user_ss base bytes s x.1) no_fault
    (fun x => frames_out x \/ ~ stack_free (user_space s) bytes \/ elf_refused (user_space s) bytes) (s, fa).
Proof.
  intros I Hpid Hlen. unfold spawn_user. apply wpp_bind, wpp_wp, wp_get. cbn [fst].
  set (s0 := with_flags (Z.ldiff (flags_of s) IF_BIT) s). apply wpp_bind. eapply (wpp_step _ _ _ _ (s, fa) tt (s0, fa)); [done|].
  apply wpp_bind, wpp_wp, wp_get. change (current_key (s0, fa).1) with (current_key s).
  apply wpp_bind, wpp_new_space; [|by left]. intros root fa0 Hfresh. change (half (SPACES s0) (current_key s)) with (user_space s).
  apply wpp_bind, wpp_in_sys, wpp_write_cr3. change (with_cr3 root _) with (active s0 root (user_space s)).
  apply wpp_bind. eapply wpp_mono; [by apply load_image_spec| |done|intros x [?|?]; [by left|by right; left]].
  intros r [s1 fa1] (us & Hs1 & Hr). cbn [fst] in Hs1. subst s1. apply wpp_bind. destruct r as [[entry sp]|e]; cbn [punwrap].
  2:{ right. right. destruct Hr as [[_ Hr]|(_ & _ & Hr)]; [done|]. by vm_compute in Hr. }
  destruct Hr as [phs Hr]. apply wpp_wp, wp_ret. apply wpp_bind, wpp_in_sys, wpp_write_cr3.
  change (current_key s) with (current_key s0). rewrite deactivate. apply wpp_bind.
  eapply (wpp_step _ _ _ _ _ tt (set_mm (<[root := us]> (SPACES s)) (FRAMES s) s, fa1)).
  - pose proof (flags_restored (flags_of s)) as Hfl. change (rflags (cpu (kern (tty s)))) with (flags_of s).
    assert (E : forall x, x = flags_of s -> set_mm (<[root := us]> (SPACES s)) (FRAMES s) (with_flags x s) =
                                             set_mm (<[root := us]> (SPACES s)) (FRAMES s) s) by (intros x ->; by rewrite with_flags_same).
    destruct (negb _); rewrite <- (E _ Hfl); reflexivity.
  - by apply wpp_wp, (spawn_rest tramp user_cs user_ss base bytes s fa1 phs).
Qed.
End Commit.

(** ** An instance of the address spaces

    A root is a number that no space has; each space costs a frame. *)

Definition fresh_root (spaces : gmap Z UserSpace) : Z := map_fold (fun k _ m => Z.max (k + 1) m) 1 spaces.

Lemma fresh_root_above spaces k us : spaces !! k = Some us -> k < fresh_root spaces.
Proof.
  revert k us. unfold fresh_root. apply (map_fold_weak_ind (fun m sp => forall k us, sp !! k = Some us -> k < m)); [done|].
  intros k us sp m _ IH k' us'. rewrite lookup_insert_Some. intros [[<- _]|[_ Hk]]; [lia|]. specialize (IH _ _ Hk). lia.
Qed.

Lemma fresh_root_fresh spaces : spaces !! fresh_root spaces = None.
Proof. destruct (spaces !! fresh_root spaces) eqn:E; [|done]. apply fresh_root_above in E. lia. Qed.

(** The pages and bytes a copy has. *)
Definition copied_half (kern parent : UserSpace) : UserSpace :=
  {| us_pages := us_pages kern ∪ ((fun _ => (true, true)) <$> us_pages parent);
     us_mem := filter (fun x => is_Some (us_pages kern !! page_of x.1)) (us_mem kern) ∪
               filter (fun x => us_pages kern !! page_of x.1 = None) (us_mem parent) |}.

#[export] Instance BudgetSpaces : AddressSpaces nat := {
  as_new kernel spaces n :=
    match n with O => None | S n' => Some (fresh_root spaces, half spaces kernel, n') end;
  as_fork parent kernel spaces n :=
    match n with
    | O => None
    | S n' => Some (fresh_root spaces, copied_half (half spaces kernel) (half spaces parent), n')
    end;
  as_destroy _ _ n := S n
}.

Lemma byte_at_copied kern parent a :
  byte_at (copied_half kern parent) a = byte_at (match us_pages kern !! page_of a with Some _ => kern | None => parent end) a.
Proof.
  unfold byte_at, copied_half. cbn [us_mem]. f_equal. rewrite lookup_union, !map_lookup_filter.
  destruct (us_pages kern !! page_of a) as [x|] eqn:E.
  - destruct (us_mem kern !! a) as [b|]; cbn [mbind option_bind]; [rewrite option_guard_True by (cbn; rewrite E; by eexists)|];
      (destruct (us_mem parent !! a); cbn [mbind option_bind]; [rewrite option_guard_False by (cbn; by rewrite E)|]); done.
  - destruct (us_mem kern !! a) as [b|]; cbn [mbind option_bind]; [rewrite option_guard_False by (cbn; rewrite E; by intros [])|];
      (destruct (us_mem parent !! a); cbn [mbind option_bind]; [rewrite option_guard_True by (cbn; by rewrite E)|]); done.
Qed.

#[export] Instance BudgetSpacesLaws : AddressSpacesLaws nat.
Proof.
  split; unfold as_new, as_fork, BudgetSpaces.
  - intros kernel spaces [|n] root us fa'; [done|]. intros [= <- <- <-]. split; [apply fresh_root_fresh|done].
  - intros parent kernel spaces [|n] root us fa'; [done|]. intros [= <- <- <-]. split_and!; [apply fresh_root_fresh| |].
    + intros pg. cbn [us_pages copied_half]. rewrite lookup_union, lookup_fmap.
      destruct (us_pages (half spaces kernel) !! pg), (us_pages (half spaces parent) !! pg); done.
    + intros a x _. rewrite byte_at_copied. by destruct (us_pages (half spaces kernel) !! page_of a).
  - intros kernel spaces [|n]; done.
Qed.

(** ** A process that starts a program

    The volume of the sample process holds a small program under the path in its
    memory. *)

Definition elf_disk : RamDisk := (Vfs.write_file (bs "/A.TXT") tiny_elf (small_disk [])).2.

Definition exec_sys : Sys RamDisk (gmap Z SockKind) nat :=
  set_mm {[ 0x2000 := sample_memory ]} (Some 20%nat) (set_disk elf_disk (sample_sys sample_file)).

Definition exec_regs : SyscallRegs := mkSyscallRegs 1 2 3 4 5 6 7 8 9 0 0 0x1000 0x246 0x401000 59 0x7F8010000F00.

Lemma elf_disk_ok : exists O, volume_ok small_volume (disk elf_disk) O.
Proof.
  pose proof (vfs_write_spec small_volume (small_disk []) small_own (bs "/A.TXT") tiny_elf (small_ok [])) as H.
  unfold wp in H. assert (E : (Vfs.write_file (bs "/A.TXT") tiny_elf (small_disk [])).1 = Ret tt) by (vm_compute; reflexivity).
  unfold elf_disk. destruct (Vfs.write_file (bs "/A.TXT") tiny_elf (small_disk [])) as [r d]. cbn in E. subst r. cbn [snd].
  destruct H as (c & name & _ & O' & HO & _); [vm_compute; reflexivity|apply small_writable|]. by exists O'.
Qed.

Lemma exec_sys_inv : inv small_volume [] exec_sys.
Proof. destruct (sample_inv sample_file sample_file_ok) as [H1 H2 H3 H4 _]. split; [by eapply refs_ok_ext|done|done|done|apply elf_disk_ok]. Qed.

Lemma exec_sys_ok : room exec_sys /\ spaces_ok exec_sys /\ runs_here exec_sys.
Proof.
  assert (K : current_key exec_sys = 0x2000) by (vm_compute; reflexivity). split_and!.
  - unfold room. cbn [PROCESSES exec_sys sample_sys set_mm set_disk]. rewrite map_size_singleton. done.
  - split; [rewrite K; by eexists|]. intros k [p Hk]. cbn in Hk. apply lookup_singleton_Some in Hk as [<- _]. by eexists.
  - eexists _, _. split_and!; [vm_compute; reflexivity..|]. rewrite K. done.
Qed.

(** The program runs after the call. *)
Lemma exec_sys_runs : (exec exec_regs 0x1000 exec_sys).1 = Ret (start_regs 0x400FFE 0x7F8010000FD0).
Proof. vm_compute. reflexivity. Qed.


Lemma fork_adds_copy_witness :
  exists s' child us, fork 0x480 0x9000 exec_regs exec_sys = (Ret (set_rax 2 exec_regs), s') /\
    fork_done small_volume 0x480 0x9000 exec_regs exec_sys child us s'.
Proof.
  destruct exec_sys_ok as (H1 & H2 & H3).
  pose proof (fork_adds_copy small_volume 0x480 0x9000 exec_sys exec_regs exec_sys_inv H1 H2 H3 ltac:(vm_compute; reflexivity)) as H.
  assert (E : (fork 0x480 0x9000 exec_regs exec_sys).1 = Ret (set_rax 2 exec_regs)) by (vm_compute; reflexivity).
  unfold wpp in H. destruct (fork 0x480 0x9000 exec_regs exec_sys) as [r s']. cbn in E. subst r.
  destruct H as [[H _]|(child & us & _ & H)]; [discriminate H|]. by exists s', child, us.
Defined.

Lemma spawn_user_starts_witness :
  exists x, spawn_user 0x500 0x23 0x1B 0x9000 tiny_elf (exec_sys, 20%nat) = (Ret tt, x) /\
    spawned small_volume 0x500 0x23 0x1B 0x9000 tiny_elf exec_sys x.1.
Proof.
  pose proof (spawn_user_starts small_volume 0x500 0x23 0x1B 0x9000 tiny_elf exec_sys 20%nat exec_sys_inv
    ltac:(vm_compute; reflexivity) ltac:(vm_compute; reflexivity)) as H.
  assert (E : (spawn_user 0x500 0x23 0x1B 0x9000 tiny_elf (exec_sys, 20%nat)).1 = Ret tt) by (vm_compute; reflexivity).
  unfold wpp in H. destruct (spawn_user 0x500 0x23 0x1B 0x9000 tiny_elf (exec_sys, 20%nat)) as [r x]. cbn in E. subst r.
  exists x. by split.
Defined.
