(* ===== verification/LibcStr.v ===== *)
(** * The C library: memory and strings

    [user/c/libc/libc.c], the functions on memory and strings and the parsing of
    numbers.  The memory of a program is a finite map of bytes; an access
    outside it is a fault, a [Panic].  A loop over consecutive addresses leaves
    the map after at most its size, the fuel of every loop here. *)

From stdpp Require Import base numbers list gmap.
From Stdlib Require Import ZArith Lia.
From S2P Require Import Prelude Uaccess Mem.
#[local] Open Scope Z_scope.

Section Strings.
Context {E : Type}.
#[local] Abbreviation cprog := (prog (gmap Z byte) E).

Definition load (a : Z) : cprog byte := let! m := pget in punwrap (m !! a).
Definition store (a : Z) (b : byte) : cprog unit := load a ;;! pmodify (insert a b).

Definition is_nul (b : byte) : bool := Byte.eqb b x00.

(** Enough for a loop over consecutive bytes. *)
Definition with_fuel {A} (f : nat -> cprog A) : cprog A := let! m := pget in f (S (size m)).

Fixpoint memset_loop (p : Z) (c : byte) (n : nat) : cprog unit :=
  match n with O => pret tt | S n' => store p c ;;! memset_loop (p + 1) c n' end.
Definition memset (dst c n : Z) : cprog Z := memset_loop dst (z2b c) (Z.to_nat n) ;;! pret dst.

(** [*d++ = *s++], [n] times. *)
Fixpoint copy_up (d s : Z) (n : nat) : cprog unit :=
  match n with O => pret tt | S n' => let! b := load s in store d b ;;! copy_up (d + 1) (s + 1) n' end.
(** [*--d = *--s], [n] times. *)
Fixpoint copy_down (d s : Z) (n : nat) : cprog unit :=
  match n with O => pret tt | S n' => let! b := load (s - 1) in store (d - 1) b ;;! copy_down (d - 1) (s - 1) n' end.

Definition memcpy (dst src n : Z) : cprog Z := copy_up dst src (Z.to_nat n) ;;! pret dst.

Definition memmove (dst src n : Z) : cprog Z :=
  (if dst <? src then copy_up dst src (Z.to_nat n)
   else if src <? dst then copy_down (dst + n) (src + n) (Z.to_nat n)
   else pret tt) ;;!
  pret dst.

Fixpoint strlen_loop (fuel : nat) (s n : Z) : cprog Z :=
  match fuel with
  | O => pdiverge
  | S f => let! c := load (s + n) in if is_nul c then pret n else strlen_loop f s (n + 1)
  end.
Definition strlen (s : Z) : cprog Z := with_fuel (fun fuel => strlen_loop fuel s 0).

Fixpoint memcmp_loop (p q : Z) (n : nat) : cprog Z :=
  match n with
  | O => pret 0
  | S n' =>
      let! x := load p in
      let! y := load q in
      if negb (Byte.eqb x y) then pret (b2z x - b2z y) else memcmp_loop (p + 1) (q + 1) n'
  end.
Definition memcmp (a b n : Z) : cprog Z := memcmp_loop a b (Z.to_nat n).

(** [*b] is read only when [*a] is not the terminator; after the loop both are. *)
Fixpoint strcmp_loop (fuel : nat) (a b : Z) : cprog Z :=
  match fuel with
  | O => pdiverge
  | S f =>
      let! x := load a in
      let! y := load b in
      if negb (is_nul x) && Byte.eqb x y then strcmp_loop f (a + 1) (b + 1) else pret (b2z x - b2z y)
  end.
Definition strcmp (a b : Z) : cprog Z := with_fuel (fun fuel => strcmp_loop fuel a b).

Fixpoint strncmp (a b : Z) (n : nat) : cprog Z :=
  match n with
  | O => pret 0
  | S n' =>
      let! x := load a in
      let! y := load b in
      if negb (is_nul x) && Byte.eqb x y then strncmp (a + 1) (b + 1) n' else pret (b2z x - b2z y)
  end.

Fixpoint strcpy_loop (fuel : nat) (dst src : Z) : cprog unit :=
  match fuel with
  | O => pdiverge
  | S f =>
      let! c := load src in
      store dst c ;;!
      if is_nul c then pret tt else strcpy_loop f (dst + 1) (src + 1)
  end.
Definition strcpy (dst src : Z) : cprog Z := with_fuel (fun fuel => strcpy_loop fuel dst src) ;;! pret dst.

(** The first loop copies, the second pads. *)
Fixpoint strncpy_loop (dst src : Z) (n : nat) : cprog unit :=
  match n with
  | O => pret tt
  | S n' =>
      let! c := load src in
      if is_nul c then memset_loop dst x00 n else store dst c ;;! strncpy_loop (dst + 1) (src + 1) n'
  end.
Definition strncpy (dst src n : Z) : cprog Z := strncpy_loop dst src (Z.to_nat n) ;;! pret dst.

(** A null pointer is [0]. *)
Fixpoint strchr_loop (fuel : nat) (s : Z) (ch : byte) : cprog Z :=
  match fuel with
  | O => pdiverge
  | S f =>
      let! c := load s in
      if is_nul c then pret (if is_nul ch then s else 0)
      else if Byte.eqb c ch then pret s else strchr_loop f (s + 1) ch
  end.
Definition strchr (s c : Z) : cprog Z := with_fuel (fun fuel => strchr_loop fuel s (z2b c)).

(** To the end of a string. *)
Fixpoint end_of (fuel : nat) (d : Z) : cprog Z :=
  match fuel with
  | O => pdiverge
  | S f => let! c := load d in if is_nul c then pret d else end_of f (d + 1)
  end.

Definition strcat (dst src : Z) : cprog Z :=
  let! d := with_fuel (fun fuel => end_of fuel dst) in
  with_fuel (fun fuel => strcpy_loop fuel d src) ;;! pret dst.

Fixpoint strncat_loop (d src : Z) (n : nat) : cprog Z :=
  match n with
  | O => pret d
  | S n' => let! c := load src in if is_nul c then pret d else store d c ;;! strncat_loop (d + 1) (src + 1) n'
  end.
Definition strncat (dst src n : Z) : cprog Z :=
  let! d := with_fuel (fun fuel => end_of fuel dst) in
  let! d := strncat_loop d src (Z.to_nat n) in
  store d x00 ;;! pret dst.

Fixpoint strrchr_loop (fuel : nat) (s : Z) (ch : byte) (last : Z) : cprog Z :=
  match fuel with
  | O => pdiverge
  | S f =>
      let! c := load s in
      let last := if Byte.eqb c ch then s else last in
      if is_nul c then pret last else strrchr_loop f (s + 1) ch last
  end.
Definition strrchr (s c : Z) : cprog Z := with_fuel (fun fuel => strrchr_loop fuel s (z2b c) 0).

(** Whether the needle is a prefix at [h]; the bytes are read in the order of the
    condition. *)
Fixpoint match_at (fuel : nat) (h n : Z) : cprog bool :=
  match fuel with
  | O => pdiverge
  | S f =>
      let! x := load h in
      let! y := load n in
      if negb (is_nul x) && negb (is_nul y) && Byte.eqb x y then match_at f (h + 1) (n + 1) else pret (is_nul y)
  end.

Fixpoint strstr_loop (fuel : nat) (haystack needle : Z) : cprog Z :=
  match fuel with
  | O => pdiverge
  | S f =>
      let! c := load haystack in
      if is_nul c then pret 0
      else
        let! found := with_fuel (fun fuel => match_at fuel haystack needle) in
        if found then pret haystack else strstr_loop f (haystack + 1) needle
  end.

Definition strstr (haystack needle : Z) : cprog Z :=
  let! c := load needle in
  if is_nul c then pret haystack else with_fuel (fun fuel => strstr_loop fuel haystack needle).

(** [strtok] from a position [s], not null: the token and what is kept in
    [strtok_save]. *)
Fixpoint skip_delims (fuel : nat) (s delim : Z) (want : bool) : cprog Z :=
  match fuel with
  | O => pdiverge
  | S f =>
      let! c := load s in
      if is_nul c then pret s
      else
        let! q := strchr delim (b2z c) in
        if Bool.eqb (negb (q =? 0)) want then skip_delims f (s + 1) delim want else pret s
  end.

Definition strtok_from (s delim : Z) : cprog (Z * Z) :=
  let! s := with_fuel (fun fuel => skip_delims fuel s delim true) in
  let! c := load s in
  if is_nul c then pret (0, 0)
  else
    let tok := s in
    let! s := with_fuel (fun fuel => skip_delims fuel s delim false) in
    let! c := load s in
    if negb (is_nul c) then store s x00 ;;! pret (tok, s + 1) else pret (tok, 0).

(** ** Numbers *)

(** An [int]; overflow is undefined. *)
Definition int_of (z : Z) : cprog Z := punwrap (if (- 2 ^ 31 <=? z) && (z <? 2 ^ 31) then Some z else None).

Fixpoint skip_while (fuel : nat) (p : Z) (test : Z -> bool) : cprog Z :=
  match fuel with
  | O => pdiverge
  | S f => let! c := load p in if test (b2z c) then skip_while f (p + 1) test else pret p
  end.

Definition is_digit (c : Z) : bool := (48 <=? c) && (c <=? 57).

Fixpoint atoi_loop (fuel : nat) (s v : Z) : cprog Z :=
  match fuel with
  | O => pdiverge
  | S f =>
      let! c := load s in
      if is_digit (b2z c) then
        let! t := int_of (v * 10) in
        let! v := int_of (t + (b2z c - 48)) in
        atoi_loop f (s + 1) v
      else pret v
  end.

Definition atoi (s : Z) : cprog Z :=
  let! s := with_fuel (fun fuel => skip_while fuel s (fun c => (c =? 32) || (c =? 9) || (c =? 10))) in
  let! c := load s in
  let '(sign, s) := if b2z c =? 45 then (-1, s + 1) else if b2z c =? 43 then (1, s + 1) else (1, s) in
  let! v := with_fuel (fun fuel => atoi_loop fuel s 0) in
  pret (sign * v).

(** The value of a digit, in any base. *)
Definition digit_of (c : Z) : option Z :=
  if (48 <=? c) && (c <=? 57) then Some (c - 48)
  else if (97 <=? c) && (c <=? 122) then Some (c - 97 + 10)
  else if (65 <=? c) && (c <=? 90) then Some (c - 65 + 10)
  else None.

Fixpoint digits_loop (fuel : nat) (p base acc : Z) (any : bool) : cprog (Z * Z * bool) :=
  match fuel with
  | O => pdiverge
  | S f =>
      let! c := load p in
      match digit_of (b2z c) with
      | Some d => if base <=? d then pret (acc, p, any) else digits_loop f (p + 1) base ((acc * base + d) mod U64) true
      | None => pret (acc, p, any)
      end
  end.

Fixpoint store_all (a : Z) (l : list byte) : cprog unit :=
  match l with [] => pret tt | b :: l' => store a b ;;! store_all (a + 1) l' end.

(** [p[0] == '0' && (p[1] == 'x' || p[1] == 'X')] *)
Definition hex_prefix (p : Z) : cprog bool :=
  let! c := load p in
  if b2z c =? 48 then let! c := load (p + 1) in pret ((b2z c =? 120) || (b2z c =? 88)) else pret false.

Definition parse_base (p base : Z) : cprog (Z * Z) :=
  if base =? 0 then
    let! hex := hex_prefix p in
    if hex then pret (16, p + 2)
    else
      let! c := load p in
      if b2z c =? 48 then pret (8, p + 1) else pret (10, p)
  else if base =? 16 then
    let! hex := hex_prefix p in
    pret (16, if hex then p + 2 else p)
  else pret (base, p).

Definition is_space (c : Z) : bool := (c =? 32) || ((9 <=? c) && (c <=? 13)).

(** The value, and whether there was a minus sign. *)
Definition parse_int (nptr endptr base : Z) : cprog (Z * bool) :=
  let! p := with_fuel (fun fuel => skip_while fuel nptr is_space) in
  let! c := load p in
  let signed := (b2z c =? 43) || (b2z c =? 45) in
  let neg := b2z c =? 45 in
  let p := if signed then p + 1 else p in
  let! bp := parse_base p base in
  let '(base, p) := bp in
  let! r := with_fuel (fun fuel => digits_loop fuel p base 0 false) in
  let '(acc, p, any) := r in
  (if endptr =? 0 then pret tt else store_all endptr (to_le 8 (if any : bool then p else nptr))) ;;!
  pret (acc, neg).

(** [(long)x] of an [unsigned long]. *)
Definition to_long (x : Z) : Z := if x <? 2 ^ 63 then x else x - 2 ^ 64.

(** [-(long)acc]: of [LONG_MIN] it is undefined. *)
Definition strtol (nptr endptr base : Z) : cprog Z :=
  let! r := parse_int nptr endptr base in
  let '(acc, neg) := r in
  if neg : bool then passert (negb (acc =? 2 ^ 63)) ;;! pret (- to_long acc) else pret (to_long acc).

Definition strtoul (nptr endptr base : Z) : cprog Z :=
  let! r := parse_int nptr endptr base in
  let '(acc, neg) := r in
  pret (if neg : bool then (0 - acc) mod U64 else acc).
End Strings.
