(* ===== verification/LibcFmt.v ===== *)
(** * The C library: formatted output

    [vsnprintf] of [user/c/libc/libc.c] and what it is built from, on the memory
    of [LibcStr].  Variable arguments are a list of 64-bit words; taking one more
    than was passed is undefined, a [Panic]. *)

From stdpp Require Import base numbers list gmap.
From Stdlib Require Import ZArith Lia.
From S2P Require Import Prelude Uaccess Mem LibcStr.
#[local] Open Scope Z_scope.

Section Format.
Context {E : Type}.
#[local] Abbreviation cprog := (prog (gmap Z byte) E).

(** [put_ch]: the new value of [*pos]. *)
Definition put_ch (out cap pos : Z) (c : byte) : cprog Z :=
  (if pos + 1 <? cap then store (out + pos) c else pret tt) ;;! pret (pos + 1).

Fixpoint put_str_loop (fuel : nat) (out cap pos s : Z) : cprog Z :=
  match fuel with
  | O => pdiverge
  | S f =>
      let! c := load s in
      if is_nul c then pret pos
      else let! pos := put_ch out cap pos c in put_str_loop f out cap pos (s + 1)
  end.
Definition put_str (out cap pos s : Z) : cprog Z := with_fuel (fun fuel => put_str_loop fuel out cap pos s).

(** [put_str] of a literal. *)
Fixpoint put_lit (out cap pos : Z) (l : list byte) : cprog Z :=
  match l with [] => pret pos | c :: l' => let! pos := put_ch out cap pos c in put_lit out cap pos l' end.

Definition digit_char (upper : bool) (d : Z) : byte := if d <? 10 then z2b (48 + d) else z2b ((if upper then 55 else 87) + d).

(** [tmp], of 20 bytes, filled with the digits from the last one on. *)
Fixpoint uint_digits (fuel : nat) (v base : Z) (upper : bool) (tmp : list byte) : cprog (list byte) :=
  match fuel with
  | O => pdiverge
  | S f =>
      if v =? 0 then pret tmp
      else passert (length tmp <? 20)%nat ;;! uint_digits f (v / base) base upper (tmp ++ [digit_char upper (v mod base)])
  end.

Definition put_uint (out cap pos v base : Z) (upper : bool) : cprog Z :=
  let! tmp := uint_digits 65 v base upper (if v =? 0 then [x30] else []) in
  put_lit out cap pos (rev tmp).

Definition va_arg (ap : list Z) : cprog (Z * list Z) :=
  match ap with a :: ap' => pret (a, ap') | [] => ppanic end.

(** [(long)va_arg(ap, int)] and [(unsigned long)va_arg(ap, unsigned int)] *)
Definition as_int (x : Z) : Z := let y := x mod U32 in if y <? 2 ^ 31 then y else y - 2 ^ 32.
Definition as_uint (x : Z) : Z := x mod U32.

Definition put_signed (out cap pos v : Z) : cprog Z :=
  if v <? 0 then
    let! pos := put_ch out cap pos x2d in
    put_uint out cap pos ((0 - v) mod U64) 10 false
  else put_uint out cap pos v 10 false.

(** The [switch] at the conversion [c]: the new position in the output, what is
    left of the arguments, and whether the string ended. *)
Definition convert (out cap pos : Z) (is_long : bool) (c : byte) (ap : list Z) : cprog (Z * list Z * bool) :=
  let keep ap (r : cprog Z) : cprog (Z * list Z * bool) := let! pos := r in pret (pos, ap, false) in
  match c with
  | x64 | x69 => let! r := va_arg ap in keep (snd r) (put_signed out cap pos (if is_long then to_long (fst r) else as_int (fst r)))
  | x75 => let! r := va_arg ap in keep (snd r) (put_uint out cap pos (if is_long then fst r else as_uint (fst r)) 10 false)
  | x78 => let! r := va_arg ap in keep (snd r) (put_uint out cap pos (if is_long then fst r else as_uint (fst r)) 16 false)
  | x58 => let! r := va_arg ap in keep (snd r) (put_uint out cap pos (if is_long then fst r else as_uint (fst r)) 16 true)
  | x70 =>
      let! r := va_arg ap in
      let! pos := put_lit out cap pos (bs "0x") in
      keep (snd r) (put_uint out cap pos (fst r) 16 false)
  | x73 =>
      let! r := va_arg ap in
      keep (snd r) (if fst r =? 0 then put_lit out cap pos (bs "(null)") else put_str out cap pos (fst r))
  | x63 => let! r := va_arg ap in keep (snd r) (put_ch out cap pos (z2b (fst r)))
  | x25 => keep ap (put_ch out cap pos x25)
  | x00 => pret (pos, ap, true)
  | _ => let! pos := put_ch out cap pos x25 in keep ap (put_ch out cap pos c)
  end.

Fixpoint format_loop (fuel : nat) (out cap p : Z) (ap : list Z) (pos : Z) : cprog Z :=
  match fuel with
  | O => pdiverge
  | S f =>
      let! c := load p in
      if is_nul c then pret pos
      else if negb (Byte.eqb c x25) then
        let! pos := put_ch out cap pos c in
        format_loop f out cap (p + 1) ap pos
      else
        let p := p + 1 in
        let! c := load p in
        let is_long := Byte.eqb c x6c in
        let p := if is_long then p + 1 else p in
        let! c := load p in
        let! r := convert out cap pos is_long c ap in
        let '(pos, ap, ended) := r in
        let p := if ended : bool then p - 1 else p in
        format_loop f out cap (p + 1) ap pos
  end.

(** [(int)pos] *)
Definition vsnprintf (out cap fmt : Z) (ap : list Z) : cprog Z :=
  let! pos := with_fuel (fun fuel => format_loop fuel out cap fmt ap 0) in
  (if 0 <? cap then store (out + (if pos <? cap then pos else cap - 1)) x00 else pret tt) ;;!
  pret (as_int pos).
End Format.
