(* ===== verification/LibcIO.v ===== *)
(** * The C library: processes, the heap, streams and options

    The rest of [user/c/libc/libc.c]: the system call wrappers, [malloc] on
    [brk], [strtok] with its saved position, [printf], streams, [getopt] and
    [getenv].  The kernel behind the [syscall] instruction is an interface. *)

From stdpp Require Import base numbers list gmap.
From Stdlib Require Import ZArith Lia.
From S2P Require Import Prelude Uaccess Mem LibcStr LibcFmt.
#[local] Open Scope Z_scope.

(** A system call, by number and arguments, on the caller's memory and the kernel. *)
Class Kernel (K : Type) : Type := { syscall : Z -> list Z -> gmap Z byte * K -> Z * (gmap Z byte * K) }.

(** The memory, the static variables of the library, and the kernel. *)
Record Proc (K : Type) : Type := mkProc {
  mem : gmap Z byte; heap_cur : Z; heap_lim : Z; strtok_save : Z;
  optarg : Z; optind : Z; opterr : Z; optopt : Z; optpos : Z; environ : Z; kern : K
}.
Arguments mkProc {K}.
Arguments mem {K}.
Arguments heap_cur {K}.
Arguments heap_lim {K}.
Arguments strtok_save {K}.
Arguments optarg {K}.
Arguments optind {K}.
Arguments opterr {K}.
Arguments optopt {K}.
Arguments optpos {K}.
Arguments environ {K}.
Arguments kern {K}.

Definition O_RDONLY : Z := 0.
Definition O_WRONLY : Z := 1.
Definition O_RDWR : Z := 2.
Definition O_CREAT : Z := 64.
Definition O_TRUNC : Z := 512.
Definition O_APPEND : Z := 1024.
Definition EOF : Z := -1.
Definition F_EOF : Z := 1.
Definition F_ERR : Z := 2.

Section Lib.
Context {K : Type} {KI : Kernel K} {E : Type} (stdin stdout stderr : Z).
#[local] Abbreviation lprog := (prog (Proc K) E).

Definition set_mem (m : gmap Z byte) (p : Proc K) : Proc K :=
  mkProc m (heap_cur p) (heap_lim p) (strtok_save p) (optarg p) (optind p) (opterr p) (optopt p) (optpos p) (environ p) (kern p).
Definition set_heap (cur lim : Z) (p : Proc K) : Proc K :=
  mkProc (mem p) cur lim (strtok_save p) (optarg p) (optind p) (opterr p) (optopt p) (optpos p) (environ p) (kern p).
Definition set_save (s : Z) (p : Proc K) : Proc K :=
  mkProc (mem p) (heap_cur p) (heap_lim p) s (optarg p) (optind p) (opterr p) (optopt p) (optpos p) (environ p) (kern p).
Definition set_opt (arg ind opt pos : Z) (p : Proc K) : Proc K :=
  mkProc (mem p) (heap_cur p) (heap_lim p) (strtok_save p) arg ind (opterr p) opt pos (environ p) (kern p).
Definition set_both (x : gmap Z byte * K) (p : Proc K) : Proc K :=
  mkProc (fst x) (heap_cur p) (heap_lim p) (strtok_save p) (optarg p) (optind p) (opterr p) (optopt p) (optpos p) (environ p) (snd x).

(** The functions on memory. *)
Definition in_mem {A} (f : prog (gmap Z byte) E A) : lprog A := pzoom mem set_mem f.

(** [sc1], [sc3] and [sc6]. *)
Definition sc (nr : Z) (args : list Z) : lprog Z := fun p =>
  let '(r, x) := syscall nr args (mem p, kern p) in (Ret r, set_both x p).
Definition sc1 (nr a : Z) : lprog Z := sc nr [a].
Definition sc3 (nr a b c : Z) : lprog Z := sc nr [a; b; c].
Definition sc6 (nr a b c d e f : Z) : lprog Z := sc nr [a; b; c; d; e; f].

(** [(int)x] of a [long] *)
Definition int_ret (m : lprog Z) : lprog Z := let! r := m in pret (as_int r).

Definition write (fd buf n : Z) : lprog Z := sc3 1 fd buf n.
Definition read (fd buf n : Z) : lprog Z := sc3 0 fd buf n.
Definition open (path flags : Z) : lprog Z := int_ret (sc3 2 path flags 0).
Definition close (fd : Z) : lprog Z := int_ret (sc1 3 fd).
Definition socket (domain type protocol : Z) : lprog Z := int_ret (sc3 41 domain type protocol).
Definition bind (fd addr addrlen : Z) : lprog Z := int_ret (sc3 49 fd addr addrlen).
Definition sendto (fd buf n flags dst dstlen : Z) : lprog Z := sc6 44 fd buf n flags dst dstlen.
Definition recvfrom (fd buf n flags src srclen : Z) : lprog Z := sc6 45 fd buf n flags src srclen.
Definition connect (fd addr addrlen : Z) : lprog Z := int_ret (sc3 42 fd addr addrlen).
Definition send (fd buf n flags : Z) : lprog Z := sc6 44 fd buf n flags 0 0.
Definition recv (fd buf n flags : Z) : lprog Z := sc6 45 fd buf n flags 0 0.

(** Pointers and sizes are 64-bit words. *)
Definition malloc_take (n : Z) : lprog Z :=
  let! p := pget in
  let! ok :=
    if (heap_lim p - heap_cur p) mod U64 <? n then
      let want := (heap_cur p + n) mod U64 in
      let! r := sc1 12 want in
      let got := r mod U64 in
      if got <? want then pret false
      else pmodify (fun p => set_heap (heap_cur p) got p) ;;! pret true
    else pret true in
  if ok : bool then
    let! p := pget in
    let r := heap_cur p in
    pmodify (set_heap ((heap_cur p + n) mod U64) (heap_lim p)) ;;!
    pret r
  else pret 0.

Definition malloc (n : Z) : lprog Z :=
  let n := Z.land ((n + 15) mod U64) (Z.lnot 15) in
  let! p := pget in
  (if heap_cur p =? 0 then let! base := sc1 12 0 in pmodify (set_heap (base mod U64) (base mod U64)) else pret tt) ;;!
  malloc_take n.

Definition free (p : Z) : lprog unit := pret tt.

Definition strtok (str delim : Z) : lprog Z :=
  let! p := pget in
  let s := if negb (str =? 0) then str else strtok_save p in
  if s =? 0 then pret 0
  else
    let! r := in_mem (strtok_from s delim) in
    pmodify (set_save (snd r)) ;;!
    pret (fst r).

(** A local buffer [buf] of [size] bytes is somewhere on the stack. *)
Definition putchar (ch_addr c : Z) : lprog Z :=
  in_mem (store ch_addr (z2b c)) ;;! int_ret (write 1 ch_addr 1).

Definition puts (newline s : Z) : lprog Z :=
  let! n := in_mem (strlen s) in
  let! _ := write 1 s n in
  int_ret (write 1 newline 1).

Definition snprintf (out cap fmt : Z) (ap : list Z) : lprog Z := in_mem (vsnprintf out cap fmt ap).

Definition printf (buf fmt : Z) (ap : list Z) : lprog Z :=
  let! n := in_mem (vsnprintf buf 256 fmt ap) in
  let w := if n <? 256 then n else 255 in
  let! _ := write 1 buf (w mod U64) in
  pret n.

(** ** Streams *)

(** The words of a [FILE] and of pointer arrays. *)
Fixpoint load_n (n : nat) (a : Z) : prog (gmap Z byte) E (list byte) :=
  match n with O => pret [] | S n' => let! b := load a in let! l := load_n n' (a + 1) in pret (b :: l) end.
Definition load_int (a : Z) : lprog Z := let! l := in_mem (load_n 4 a) in pret (as_int (from_le l)).
Definition load_ptr (a : Z) : lprog Z := let! l := in_mem (load_n 8 a) in pret (from_le l).
Definition store_int (a v : Z) : lprog unit := in_mem (store_all a (to_le 4 v)).

Definition file_fd (f : Z) : lprog Z := load_int f.
Definition set_flag (f bit : Z) : lprog unit :=
  let! flags := load_int (f + 4) in store_int (f + 4) (Z.lor flags bit).

Fixpoint has_plus (fuel : nat) (m : Z) (plus : bool) : prog (gmap Z byte) E bool :=
  match fuel with
  | O => pdiverge
  | S fu =>
      let! c := load m in
      if is_nul c then pret plus else has_plus fu (m + 1) (plus || Byte.eqb c x2b)
  end.

Definition mode_flags (c : byte) (plus : bool) : option Z :=
  match c with
  | x72 => Some (if plus then O_RDWR else O_RDONLY)
  | x77 => Some (Z.lor (Z.lor (if plus then O_RDWR else O_WRONLY) O_CREAT) O_TRUNC)
  | x61 => Some (Z.lor (Z.lor (if plus then O_RDWR else O_WRONLY) O_CREAT) O_APPEND)
  | _ => None
  end.

Definition fopen (path mode : Z) : lprog Z :=
  if mode =? 0 then pret 0
  else
    let! plus := in_mem (with_fuel (fun fuel => has_plus fuel mode false)) in
    let! c := in_mem (load mode) in
    match mode_flags c plus with
    | None => pret 0
    | Some flags =>
        let! fd := open path flags in
        if fd <? 0 then pret 0
        else
          let! f := malloc 8 in
          if f =? 0 then let! _ := close fd in pret 0
          else store_int f fd ;;! store_int (f + 4) 0 ;;! pret f
    end.

Definition fclose (f : Z) : lprog Z :=
  if f =? 0 then pret EOF
  else
    let! fd := file_fd f in
    let! r := close fd in
    (if negb (f =? stdin) && negb (f =? stdout) && negb (f =? stderr) then free f else pret tt) ;;!
    pret (if r <? 0 then EOF else 0).

(** The local [c] is at [c_addr]. *)
Definition fgetc (c_addr f : Z) : lprog Z :=
  let! fd := file_fd f in
  let! n := read fd c_addr 1 in
  if n <=? 0 then set_flag f (if n =? 0 then F_EOF else F_ERR) ;;! pret EOF
  else let! c := in_mem (load c_addr) in pret (b2z c).

Fixpoint fgets_loop (c_addr s f : Z) (i : Z) (left : nat) : lprog (Z * bool) :=
  match left with
  | O => pret (i, false)
  | S left' =>
      let! c := fgetc c_addr f in
      if c =? EOF then pret (i, true)
      else
        in_mem (store (s + i) (z2b c)) ;;!
        if c =? 10 then pret (i + 1, false) else fgets_loop c_addr s f (i + 1) left'
  end.

Definition fgets (c_addr s size f : Z) : lprog Z :=
  if size <=? 0 then pret 0
  else
    let! r := fgets_loop c_addr s f 0 (Z.to_nat (size - 1)) in
    let '(i, hit_eof) := r in
    if (i =? 0) && hit_eof then pret 0
    else in_mem (store (s + i) x00) ;;! pret s.

(** Every turn that goes on reads at least one byte more. *)
Fixpoint fread_loop (fuel : nat) (p total f got : Z) : lprog Z :=
  if got <? total then
    match fuel with
    | O => pdiverge
    | S fu =>
        let! fd := file_fd f in
        let! n := read fd (p + got) (total - got) in
        if n <? 0 then set_flag f F_ERR ;;! pret got
        else if n =? 0 then set_flag f F_EOF ;;! pret got
        else fread_loop fu p total f ((got + n) mod U64)
    end
  else pret got.

Definition fread (ptr size nmemb f : Z) : lprog Z :=
  if size =? 0 then pret 0
  else
    let total := (size * nmemb) mod U64 in
    let! got := fread_loop (Z.to_nat total) ptr total f 0 in
    pret (got / size).

Definition fputc (ch_addr c f : Z) : lprog Z :=
  in_mem (store ch_addr (z2b c)) ;;!
  let! fd := file_fd f in
  let! n := write fd ch_addr 1 in
  if negb (n =? 1) then set_flag f F_ERR ;;! pret EOF else pret (c mod 256).

Definition fputs (s f : Z) : lprog Z :=
  let! len := in_mem (strlen s) in
  let! fd := file_fd f in
  let! n := write fd s len in
  if negb (n mod U64 =? len) then set_flag f F_ERR ;;! pret EOF else pret 0.

Fixpoint fwrite_loop (fuel : nat) (p total f put : Z) : lprog Z :=
  if put <? total then
    match fuel with
    | O => pdiverge
    | S fu =>
        let! fd := file_fd f in
        let! n := write fd (p + put) (total - put) in
        if n <=? 0 then set_flag f F_ERR ;;! pret put
        else fwrite_loop fu p total f ((put + n) mod U64)
    end
  else pret put.

Definition fwrite (ptr size nmemb f : Z) : lprog Z :=
  if size =? 0 then pret 0
  else
    let total := (size * nmemb) mod U64 in
    let! put := fwrite_loop (Z.to_nat total) ptr total f 0 in
    pret (put / size).

Definition fprintf (buf f fmt : Z) (ap : list Z) : lprog Z :=
  let! n := in_mem (vsnprintf buf 256 fmt ap) in
  let w := if n <? 256 then n else 255 in
  let! _ := fwrite buf 1 (w mod U64) f in
  pret n.

Definition fflush (f : Z) : lprog Z := pret 0.
Definition feof (f : Z) : lprog Z := let! flags := load_int (f + 4) in pret (if Z.land flags F_EOF =? 0 then 0 else 1).
Definition ferror (f : Z) : lprog Z := let! flags := load_int (f + 4) in pret (if Z.land flags F_ERR =? 0 then 0 else 1).

(** ** Options and environment *)

(** The end of the group [cur]: to the next argument. *)
Definition next_in_group (cur : Z) : lprog unit :=
  let! p := pget in
  let pos := optpos p + 1 in
  let! c := in_mem (load (cur + pos)) in
  pmodify (fun p => if is_nul c then set_opt (optarg p) (optind p + 1) (optopt p) 1 p
                    else set_opt (optarg p) (optind p) (optopt p) pos p).

(** [c] is not an option of [optstring]. *)
Definition getopt_unknown (buf fmt_invalid argv optstring cur : Z) (c : byte) : lprog Z :=
  pmodify (fun p => set_opt (optarg p) (optind p) (b2z c) (optpos p) p) ;;!
  let! p := pget in
  (if negb (opterr p =? 0) then
     let! o := in_mem (load optstring) in
     if negb (Byte.eqb o x3a) then
       let! a0 := load_ptr argv in
       let! _ := fprintf buf stderr fmt_invalid [a0; b2z c] in pret tt
     else pret tt
   else pret tt) ;;!
  next_in_group cur ;;!
  pret 63.

(** [c] takes an argument: the rest of the word or the next word. *)
Definition getopt_arg (buf fmt_missing argc argv optstring cur : Z) (c : byte) : lprog Z :=
  let! p := pget in
  let! d := in_mem (load (cur + optpos p + 1)) in
  if negb (is_nul d) then
    pmodify (fun p => set_opt (cur + optpos p + 1) (optind p + 1) (optopt p) 1 p) ;;! pret (b2z c)
  else if optind p + 1 <? argc then
    let! a := load_ptr (argv + 8 * (optind p + 1)) in
    pmodify (fun p => set_opt a (optind p + 2) (optopt p) 1 p) ;;! pret (b2z c)
  else
    pmodify (fun p => set_opt (optarg p) (optind p + 1) (b2z c) 1 p) ;;!
    let! o := in_mem (load optstring) in
    if Byte.eqb o x3a then pret 58
    else
      let! p := pget in
      (if negb (opterr p =? 0) then
         let! a0 := load_ptr argv in
         let! _ := fprintf buf stderr fmt_missing [a0; b2z c] in pret tt
       else pret tt) ;;!
      pret 63.

(** [cur == 0 || cur[0] != '-' || cur[1] == '\0'] *)
Definition not_option (cur : Z) : lprog bool :=
  if cur =? 0 then pret true
  else
    let! c0 := in_mem (load cur) in
    if negb (Byte.eqb c0 x2d) then pret true
    else let! c1 := in_mem (load (cur + 1)) in pret (is_nul c1).

(** [cur[1] == '-' && cur[2] == '\0'] *)
Definition is_dash_dash (cur : Z) : lprog bool :=
  let! c1 := in_mem (load (cur + 1)) in
  if Byte.eqb c1 x2d then let! c2 := in_mem (load (cur + 2)) in pret (is_nul c2) else pret false.

Definition getopt (buf fmt_invalid fmt_missing argc argv optstring : Z) : lprog Z :=
  let! p := pget in
  if argc <=? optind p then pret (-1)
  else
    let! cur := load_ptr (argv + 8 * optind p) in
    let! no := not_option cur in
    if no : bool then pret (-1)
    else
      let! dd := is_dash_dash cur in
      if dd : bool then pmodify (fun p => set_opt (optarg p) (optind p + 1) (optopt p) (optpos p) p) ;;! pret (-1)
      else
        let! c := in_mem (load (cur + optpos p)) in
        let! spec := if Byte.eqb c x3a then pret 0 else in_mem (strchr optstring (b2z c)) in
        if spec =? 0 then getopt_unknown buf fmt_invalid argv optstring cur c
        else
          let! s1 := in_mem (load (spec + 1)) in
          if Byte.eqb s1 x3a then getopt_arg buf fmt_missing argc argv optstring cur c
          else next_in_group cur ;;! pret (b2z c).

(** Entries are looked at until the null pointer. *)
Fixpoint getenv_loop (fuel : nat) (e name nlen : Z) : lprog Z :=
  match fuel with
  | O => pdiverge
  | S f =>
      let! entry := load_ptr e in
      if entry =? 0 then pret 0
      else
        let! d := in_mem (strncmp entry name (Z.to_nat nlen)) in
        if d =? 0 then
          let! c := in_mem (load (entry + nlen)) in
          if Byte.eqb c x3d then pret (entry + nlen + 1) else getenv_loop f (e + 8) name nlen
        else getenv_loop f (e + 8) name nlen
  end.

Definition getenv (name : Z) : lprog Z :=
  let! p := pget in
  if (environ p =? 0) || (name =? 0) then pret 0
  else
    let! nlen := in_mem (strlen name) in
    let! p := pget in
    getenv_loop (S (size (mem p))) (environ p) name nlen.

Definition getc (c_addr f : Z) : lprog Z := fgetc c_addr f.
Definition putc (ch_addr c f : Z) : lprog Z := fputc ch_addr c f.
End Lib.
