(* ===== verification/LibcSpec.v ===== *)
(** * The C library: what the string functions do

    A string in memory is a list of bytes without a zero byte, followed by one.
    Copying moves exactly the bytes asked for, overlapping or not; [strtok] cuts a
    string into its fields. *)

From stdpp Require Import base numbers list gmap.
From Stdlib Require Import ZArith Lia.
From S2P Require Import Prelude Uaccess Mem LibcStr.
#[local] Open Scope Z_scope.

(** ** Memory *)

(** [m] holds the bytes [l] at [a]; every byte of a range is mapped. *)
Definition holds (m : gmap Z byte) (a : Z) (l : list byte) : Prop :=
  forall i b, l !! i = Some b -> m !! (a + Z.of_nat i) = Some b.

Definition mapped (m : gmap Z byte) (a n : Z) : Prop := forall x, a <= x < a + n -> is_Some (m !! x).

(** A C string at [a]. *)
Definition str_at (m : gmap Z byte) (a : Z) (s : list byte) : Prop := holds m a (s ++ [x00]) /\ x00 ∉ s.

Definition apart (a n b k : Z) : Prop := a + n <= b \/ b + k <= a.

Lemma holds_none m a : holds m a [].
Proof. intros i b. by rewrite lookup_nil. Qed.

Lemma holds_cons m a b l : holds m a (b :: l) <-> m !! a = Some b /\ holds m (a + 1) l.
Proof.
  split.
  - intros H. split; [rewrite <- (Z.add_0_r a); by apply (H 0%nat)|]. intros i c Hi.
    replace (a + 1 + Z.of_nat i) with (a + Z.of_nat (S i)) by lia. by apply H.
  - intros [Hb H] [|i] c Hi; cbn in Hi; [injection Hi as <-; by rewrite Z.add_0_r|].
    replace (a + Z.of_nat (S i)) with (a + 1 + Z.of_nat i) by lia. by apply H.
Qed.

Lemma holds_append m a l k : holds m a (l ++ k) <-> holds m a l /\ holds m (a + Z.of_nat (length l)) k.
Proof.
  revert a. induction l as [|b l IH]; intros a; cbn [app length].
  - rewrite Z.add_0_r. split; [by split; [apply holds_none|]|by intros [_ ?]].
  - rewrite !holds_cons, IH. replace (a + 1 + Z.of_nat (length l)) with (a + Z.of_nat (S (length l))) by lia. tauto.
Qed.

Lemma holds_same m m' a l : (forall x, a <= x < a + Z.of_nat (length l) -> m' !! x = m !! x) -> holds m a l -> holds m' a l.
Proof. intros He H i b Hi. rewrite He; [by apply H|]. apply lookup_lt_Some in Hi. lia. Qed.

Lemma holds_poke_out m a l b k : apart a (Z.of_nat (length l)) b (Z.of_nat (length k)) -> holds m a l -> holds (poke b k m) a l.
Proof. intros Ha. apply holds_same. intros x Hx. apply lookup_poke_out. unfold apart in Ha. lia. Qed.

Lemma holds_poke_same m a l : holds (poke a l m) a l.
Proof. intros i b Hi. by apply lookup_poke_in. Qed.

Lemma holds_peek m a l : holds m a l -> peek m a (length l) = l.
Proof.
  intros H. apply list_eq. intros i. unfold peek. rewrite list_lookup_fmap. destruct (l !! i) as [b|] eqn:Hi.
  - apply lookup_lt_Some in Hi as Hl. rewrite lookup_seq_lt by done. cbn. by rewrite (H _ _ Hi).
  - apply lookup_ge_None in Hi. by rewrite lookup_seq_ge.
Qed.

Lemma mapped_holds m a n : mapped m a (Z.of_nat n) -> holds m a (peek m a n).
Proof.
  intros Hm i b Hi. unfold peek in Hi. apply list_lookup_fmap_Some in Hi as (j & -> & [-> Hj]%lookup_seq).
  destruct (Hm (a + Z.of_nat (0 + i))) as [c Hc]; [lia|]. cbn [plus] in *. by rewrite Hc.
Qed.

Lemma mapped_insert m a n x b : mapped m a n -> mapped (<[x := b]> m) a n.
Proof. intros Hm y Hy. destruct (decide (x = y)) as [->|Hne]; [rewrite lookup_insert_eq; by eexists|]. rewrite lookup_insert_ne by done. by apply Hm. Qed.

Lemma mapped_poke m a n b l : mapped m a n -> mapped (poke b l m) a n.
Proof. revert b m. induction l as [|c l IH]; intros b m Hm; [done|]. cbn [poke]. by apply IH, mapped_insert. Qed.

(** A stretch of memory is no longer than the memory. *)
Lemma mapped_size m a n : mapped m a (Z.of_nat n) -> (n <= size m)%nat.
Proof.
  intros Hm. rewrite <- size_dom.
  assert (Hn : size (list_to_set (seqZ a (Z.of_nat n)) : gset Z) = n).
  { rewrite size_list_to_set by apply NoDup_seqZ. rewrite length_seqZ. lia. }
  rewrite <- Hn. apply subseteq_size. intros x Hx. apply elem_of_list_to_set, elem_of_seqZ in Hx. apply elem_of_dom, Hm. lia.
Qed.

Lemma holds_mapped m a l : holds m a l -> mapped m a (Z.of_nat (length l)).
Proof.
  intros H x Hx. destruct (lookup_lt_is_Some_2 l (Z.to_nat (x - a))) as [b Hb]; [lia|]. exists b. rewrite <- (H _ _ Hb). f_equal. lia.
Qed.

Lemma str_at_size m a s : str_at m a s -> (length s < size m)%nat.
Proof. intros [H _]. apply holds_mapped, mapped_size in H. rewrite length_app in H. cbn in H. lia. Qed.

Lemma str_at_nil m a : str_at m a [] <-> m !! a = Some x00.
Proof. unfold str_at. cbn [app]. rewrite holds_cons. split; [by intros [[? _] _]|]. intros Ha. split; [by split; [|apply holds_none]|apply not_elem_of_nil]. Qed.

Lemma str_at_cons m a b s : str_at m a (b :: s) <-> m !! a = Some b /\ b <> x00 /\ str_at m (a + 1) s.
Proof. unfold str_at. cbn [app]. rewrite holds_cons, not_elem_of_cons. naive_solver. Qed.

Lemma str_at_app m a l s : str_at m a (l ++ s) -> str_at m (a + Z.of_nat (length l)) s.
Proof. intros [H Hz]. rewrite <- app_assoc in H. apply holds_append in H as [_ H]. split; [done|]. set_solver. Qed.

Lemma str_at_ext m m' a s : (forall x, a <= x < a + Z.of_nat (length s) + 1 -> m' !! x = m !! x) -> str_at m a s -> str_at m' a s.
Proof. intros He [H Hz]. split; [|done]. eapply holds_same; [|exact H]. intros x Hx. apply He. rewrite length_app in Hx. cbn in Hx. lia. Qed.

Lemma peek_S m a n b : m !! a = Some b -> peek m a (S n) = b :: peek m (a + 1) n.
Proof.
  intros Hb. unfold peek. cbn [seq fmap list_fmap]. rewrite Z.add_0_r, Hb. cbn [default]. f_equal.
  rewrite <- fmap_S_seq, <- list_fmap_compose. apply list_fmap_ext. intros i x _. cbn. do 2 f_equal. lia.
Qed.

Lemma peek_snoc m a n : peek m a (S n) = peek m a n ++ [default x00 (m !! (a + Z.of_nat n))].
Proof. unfold peek. by rewrite seq_S, fmap_app. Qed.

Lemma poke_snoc m a l b : poke a (l ++ [b]) m = <[a + Z.of_nat (length l) := b]> (poke a l m).
Proof.
  revert a m. induction l as [|c l IH]; intros a m; cbn [app poke length]; [by rewrite Z.add_0_r|].
  rewrite IH. f_equal. lia.
Qed.

(** Writing the last byte first. *)
Lemma poke_last m a l b : poke a (l ++ [b]) m = poke a l (<[a + Z.of_nat (length l) := b]> m).
Proof.
  revert a m. induction l as [|c l IH]; intros a m; cbn [app poke length]; [by rewrite Z.add_0_r|].
  rewrite IH. f_equal. rewrite insert_insert_ne by lia. do 2 f_equal. lia.
Qed.

Lemma is_nul_true b : is_nul b = true <-> b = x00.
Proof. unfold is_nul. split; [apply Byte.byte_dec_bl|intros ->; done]. Qed.

Lemma is_nul_false b : b <> x00 -> is_nul b = false.
Proof. intros Hb. apply not_true_is_false. by rewrite is_nul_true. Qed.

(** ** The functions *)

Section Functions.
Context {E : Type} (X : E -> gmap Z byte -> Prop).
Implicit Types (m : gmap Z byte).

Lemma wp_load m a b (Q : byte -> gmap Z byte -> Prop) : m !! a = Some b -> Q b m -> wp (load a) Q X m.
Proof. intros Ha HQ. apply wp_bind, wp_get. by eapply wp_unwrap. Qed.

Lemma wp_store m a b (Q : unit -> gmap Z byte -> Prop) : is_Some (m !! a) -> Q tt (<[a := b]> m) -> wp (store a b) Q X m.
Proof. intros [c Ha] HQ. apply wp_bind. eapply wp_load; [exact Ha|]. by apply wp_modify. Qed.

Lemma wp_with_fuel {A} (f : nat -> prog (gmap Z byte) E A) m Q : wp (f (S (size m))) Q X m -> wp (with_fuel f) Q X m.
Proof. intros H. by apply wp_bind, wp_get. Qed.

Lemma wp_memset_loop m p c n (Q : unit -> gmap Z byte -> Prop) :
  mapped m p (Z.of_nat n) -> Q tt (poke p (replicate n c) m) -> wp (memset_loop p c n) Q X m.
Proof.
  revert p m. induction n as [|n IH]; intros p m Hm HQ; cbn [memset_loop replicate poke] in *; [by apply wp_ret|].
  apply wp_bind, wp_store; [apply Hm; lia|]. apply IH; [|done]. apply mapped_insert. intros x Hx. apply Hm. lia.
Qed.

(** Copying up is right when the target is not above the source in its range. *)
Lemma wp_copy_up m d s n (Q : unit -> gmap Z byte -> Prop) :
  mapped m d (Z.of_nat n) -> mapped m s (Z.of_nat n) -> d <= s \/ s + Z.of_nat n <= d ->
  Q tt (poke d (peek m s n) m) -> wp (copy_up d s n) Q X m.
Proof.
  revert d s m. induction n as [|n IH]; intros d s m Hd Hs Ha HQ; cbn [copy_up] in *; [by apply wp_ret|].
  destruct (Hs s) as [b Hb]; [lia|]. rewrite (peek_S _ _ _ b Hb) in HQ. cbn [poke] in HQ.
  apply wp_bind. eapply wp_load; [exact Hb|]. apply wp_bind, wp_store; [apply Hd; lia|].
  apply IH; [apply mapped_insert; intros x Hx; apply Hd; lia|apply mapped_insert; intros x Hx; apply Hs; lia|lia|].
  rewrite (peek_ext m); [exact HQ|]. intros x Hx. rewrite lookup_insert_ne by lia. done.
Qed.

(** Copying down, when the target is not below the source in its range. *)
Lemma wp_copy_down m d s n (Q : unit -> gmap Z byte -> Prop) :
  mapped m d (Z.of_nat n) -> mapped m s (Z.of_nat n) -> s <= d \/ d + Z.of_nat n <= s ->
  Q tt (poke d (peek m s n) m) -> wp (copy_down (d + Z.of_nat n) (s + Z.of_nat n) n) Q X m.
Proof.
  revert m Q. induction n as [|n IH]; intros m Q Hd Hs Ha HQ; cbn [copy_down] in *; [by apply wp_ret|].
  replace (s + Z.of_nat (S n) - 1) with (s + Z.of_nat n) by lia. replace (d + Z.of_nat (S n) - 1) with (d + Z.of_nat n) by lia.
  destruct (Hs (s + Z.of_nat n)) as [b Hb]; [lia|]. rewrite peek_snoc, Hb, poke_last, length_peek in HQ.
  apply wp_bind. eapply wp_load; [exact Hb|]. apply wp_bind, wp_store; [apply Hd; lia|].
  apply IH; [apply mapped_insert; intros x Hx; apply Hd; lia|apply mapped_insert; intros x Hx; apply Hs; lia|lia|].
  rewrite (peek_ext m); [exact HQ|]. intros x Hx. rewrite lookup_insert_ne by lia. done.
Qed.

Lemma poke_self m a n : mapped m a (Z.of_nat n) -> poke a (peek m a n) m = m.
Proof.
  intros Hm. apply map_eq. intros x. destruct (decide (a <= x < a + Z.of_nat n)) as [Hx|Hx].
  - destruct (Hm x Hx) as [b Hb]. rewrite Hb. apply lookup_poke_in'; [|lia].
    unfold peek. rewrite list_lookup_fmap, lookup_seq_lt by lia. cbn. replace (a + Z.of_nat (Z.to_nat (x - a))) with x by lia. by rewrite Hb.
  - apply lookup_poke_out. by rewrite length_peek.
Qed.

Lemma wp_memmove m dst src n (Q : Z -> gmap Z byte -> Prop) :
  0 <= n -> mapped m dst n -> mapped m src n -> Q dst (poke dst (peek m src (Z.to_nat n)) m) -> wp (memmove dst src n) Q X m.
Proof.
  intros Hn Hd Hs HQ. replace n with (Z.of_nat (Z.to_nat n)) in Hd, Hs by lia. unfold memmove. apply wp_bind.
  destruct (Z.ltb_spec dst src); [|destruct (Z.ltb_spec src dst)].
  - apply wp_copy_up; [done..|lia|by apply wp_ret].
  - replace n with (Z.of_nat (Z.to_nat n)) at 1 2 by lia. apply wp_copy_down; [done..|lia|by apply wp_ret].
  - assert (dst = src) as -> by lia. apply wp_ret, wp_ret. by rewrite poke_self in HQ.
Qed.

Lemma wp_strlen_loop m s fuel l k (Q : Z -> gmap Z byte -> Prop) :
  str_at m (s + k) l -> (length l < fuel)%nat -> Q (k + Z.of_nat (length l)) m -> wp (strlen_loop fuel s k) Q X m.
Proof.
  revert k fuel. induction l as [|b l IH]; intros k [|fuel] Hs Hf HQ; cbn [strlen_loop length] in *; try lia.
  - apply str_at_nil in Hs. apply wp_bind. eapply wp_load; [exact Hs|]. apply wp_ret. by rewrite Z.add_0_r in HQ.
  - apply str_at_cons in Hs as (Hb & Hz & Hs). apply wp_bind. eapply wp_load; [exact Hb|]. rewrite is_nul_false by done.
    apply IH; [|lia|]. { by replace (s + (k + 1)) with (s + k + 1) by lia. } by replace (k + 1 + Z.of_nat (length l)) with (k + Z.of_nat (S (length l))) by lia.
Qed.

Lemma wp_strlen m s l (Q : Z -> gmap Z byte -> Prop) : str_at m s l -> Q (Z.of_nat (length l)) m -> wp (strlen s) Q X m.
Proof.
  intros Hs HQ. apply wp_with_fuel. pose proof (str_at_size _ _ _ Hs). eapply wp_strlen_loop; [by rewrite Z.add_0_r|lia|done].
Qed.

(** The index of the first [ch], if any. *)
Fixpoint index_of (ch : byte) (l : list byte) : option nat :=
  match l with [] => None | b :: l' => if decide (b = ch) then Some 0%nat else S <$> index_of ch l' end.

Lemma index_of_elem ch l : is_Some (index_of ch l) <-> ch ∈ l.
Proof.
  induction l as [|b l IH]; cbn [index_of]; [rewrite elem_of_nil; split; [by intros [? ?]|done]|].
  rewrite elem_of_cons. destruct (decide (b = ch)) as [->|Hne]; [split; [by left|by eexists]|]. rewrite fmap_is_Some, IH. naive_solver.
Qed.

Lemma byte_eqb_spec a b : Byte.eqb a b = bool_decide (a = b).
Proof.
  destruct (Byte.eqb a b) eqn:He.
  - apply Byte.byte_dec_bl in He as ->. symmetry. by apply bool_decide_eq_true.
  - symmetry. apply bool_decide_eq_false. intros ->. by rewrite Byte.byte_dec_lb in He.
Qed.

Lemma wp_strchr_loop m fuel s l ch (Q : Z -> gmap Z byte -> Prop) :
  str_at m s l -> (length l < fuel)%nat -> ch <> x00 ->
  Q (from_option (fun i => s + Z.of_nat i) 0 (index_of ch l)) m -> wp (strchr_loop fuel s ch) Q X m.
Proof.
  intros Hs Hf Hch. revert s fuel Hs Hf. induction l as [|b l IH]; intros s [|fuel] Hs Hf HQ; cbn [strchr_loop length index_of] in *; try lia.
  - apply str_at_nil in Hs. apply wp_bind. eapply wp_load; [exact Hs|]. apply wp_ret. by rewrite is_nul_false.
  - apply str_at_cons in Hs as (Hb & Hz & Hs). apply wp_bind. eapply wp_load; [exact Hb|]. rewrite is_nul_false, byte_eqb_spec by done.
    destruct (decide (b = ch)) as [->|Hne].
    + rewrite bool_decide_true by done. apply wp_ret. cbn in HQ. by rewrite Z.add_0_r in HQ.
    + rewrite bool_decide_false by done. apply IH; [done|lia|]. destruct (index_of ch l); cbn in *; [|done].
      by replace (s + 1 + Z.of_nat n) with (s + Z.of_nat (S n)) by lia.
Qed.

(** [strchr] of a byte that is in the string or is not, no null byte. *)
Lemma wp_strchr m s l c (Q : Z -> gmap Z byte -> Prop) :
  str_at m s l -> c <> x00 -> Q (from_option (fun i => s + Z.of_nat i) 0 (index_of c l)) m -> wp (strchr s (b2z c)) Q X m.
Proof.
  intros Hs Hc HQ. apply wp_with_fuel. rewrite z2b_b2z. pose proof (str_at_size _ _ _ Hs). eapply wp_strchr_loop; [exact Hs|lia|done..].
Qed.

(** ** Fields *)

(** The longest prefix of [l] whose bytes are, or are not, among [ds]. *)
Fixpoint prefix_in (ds : list byte) (want : bool) (l : list byte) : list byte :=
  match l with [] => [] | b :: l' => if Bool.eqb (bool_decide (b ∈ ds)) want then b :: prefix_in ds want l' else [] end.
Definition suffix_in (ds : list byte) (want : bool) (l : list byte) : list byte := drop (length (prefix_in ds want l)) l.

Lemma prefix_suffix ds want l : l = prefix_in ds want l ++ suffix_in ds want l.
Proof.
  unfold suffix_in. induction l as [|b l IH]; [done|]. cbn [prefix_in]. destruct (Bool.eqb _ _); [|done]. cbn [length drop app]. by rewrite <- IH.
Qed.

Lemma suffix_in_length ds want l : (length (suffix_in ds want l) <= length l)%nat.
Proof. unfold suffix_in. rewrite length_drop. lia. Qed.

Lemma suffix_in_head ds want l b k : suffix_in ds want l = b :: k -> bool_decide (b ∈ ds) = negb want.
Proof.
  unfold suffix_in. induction l as [|c l IH]; [done|]. cbn [prefix_in]. destruct (Bool.eqb _ _) eqn:He; [exact IH|]. cbn [length drop].
  intros [= -> ->]. apply eqb_false_iff in He. destruct (bool_decide _), want; done.
Qed.

Lemma wp_skip_delims m fuel s delim l ds want (Q : Z -> gmap Z byte -> Prop) :
  str_at m s l -> str_at m delim ds -> 0 < delim -> (length l < fuel)%nat ->
  Q (s + Z.of_nat (length (prefix_in ds want l))) m -> wp (skip_delims fuel s delim want) Q X m.
Proof.
  intros Hs Hd Hd0. revert s fuel Hs. induction l as [|b l IH]; intros s [|fuel] Hs Hf HQ; cbn [skip_delims length prefix_in] in *; try lia.
  - apply str_at_nil in Hs. apply wp_bind. eapply wp_load; [exact Hs|]. apply wp_ret. by rewrite Z.add_0_r in HQ.
  - apply str_at_cons in Hs as (Hb & Hz & Hs). apply wp_bind. eapply wp_load; [exact Hb|]. rewrite is_nul_false by done.
    apply wp_bind. eapply wp_strchr; [exact Hd|done|].
    assert (He : negb (from_option (fun i : nat => delim + Z.of_nat i) 0 (index_of b ds) =? 0) = bool_decide (b ∈ ds)).
    { pose proof (index_of_elem b ds) as Hi. destruct (index_of b ds) as [i|]; cbn [from_option].
      - rewrite bool_decide_true by (apply Hi; by eexists). replace (delim + Z.of_nat i =? 0) with false; [done|symmetry; apply Z.eqb_neq; lia].
      - rewrite bool_decide_false; [done|]. intros []%Hi. done. }
    rewrite He. destruct (Bool.eqb _ want); cbn [length] in HQ.
    + apply IH; [done|lia|]. by replace (s + 1 + Z.of_nat (length (prefix_in ds want l))) with (s + Z.of_nat (S (length (prefix_in ds want l)))) by lia.
    + apply wp_ret. by rewrite Z.add_0_r in HQ.
Qed.

(** What [strtok] leaves: the token [t] at [tok], and the rest [r] behind its end. *)
Definition cut (m : gmap Z byte) (tok : Z) (t r : list byte) : (Z * Z) * gmap Z byte :=
  match r with
  | [] => ((tok, 0), m)
  | _ :: _ => ((tok, tok + Z.of_nat (length t) + 1), <[tok + Z.of_nat (length t) := x00]> m)
  end.

Lemma wp_strtok_from m s delim l ds (Q : Z * Z -> gmap Z byte -> Prop) :
  str_at m s l -> str_at m delim ds -> 0 < delim ->
  (match suffix_in ds true l with
   | [] => Q (0, 0) m
   | l1 => let res := cut m (s + Z.of_nat (length (prefix_in ds true l))) (prefix_in ds false l1) (suffix_in ds false l1) in Q res.1 res.2
   end) -> wp (strtok_from s delim) Q X m.
Proof.
  intros Hs Hd Hd0 HQ. unfold strtok_from. pose proof (str_at_size _ _ _ Hs) as Hsz. apply wp_bind, wp_with_fuel.
  eapply wp_skip_delims; [exact Hs|exact Hd|done|lia|]. set (s1 := s + _) in *.
  assert (Hs1 : str_at m s1 (suffix_in ds true l)) by (apply str_at_app; by rewrite <- prefix_suffix).
  destruct (suffix_in ds true l) as [|b l1] eqn:E1.
  { apply str_at_nil in Hs1. apply wp_bind. eapply wp_load; [exact Hs1|]. by apply wp_ret. }
  pose proof Hs1 as (Hb & Hz & _)%str_at_cons. apply wp_bind. eapply wp_load; [exact Hb|]. rewrite is_nul_false by done.
  pose proof (str_at_size _ _ _ Hs1) as Hsz1. apply wp_bind, wp_with_fuel.
  eapply wp_skip_delims; [exact Hs1|exact Hd|done|lia|].
  assert (Hs2 : str_at m (s1 + Z.of_nat (length (prefix_in ds false (b :: l1)))) (suffix_in ds false (b :: l1)))
    by (apply str_at_app; by rewrite <- prefix_suffix).
  destruct (suffix_in ds false (b :: l1)) as [|c r] eqn:E2; cbv zeta in HQ; rewrite ?E2 in HQ; cbn [cut fst snd] in HQ.
  - apply str_at_nil in Hs2. apply wp_bind. eapply wp_load; [exact Hs2|]. by apply wp_ret.
  - apply str_at_cons in Hs2 as (Hc & Hcz & _). apply wp_bind. eapply wp_load; [exact Hc|]. rewrite is_nul_false by done. cbn [negb].
    apply wp_bind, wp_store; [by eexists|]. by apply wp_ret.
Qed.
End Functions.

(** The fields of a string: its longest stretches without a delimiter, in order. *)
Fixpoint words (ds cur l : list byte) : list (list byte) :=
  let flush := match cur with [] => [] | _ => [cur] end in
  match l with
  | [] => flush
  | b :: l' => if bool_decide (b ∈ ds) then flush ++ words ds [] l' else words ds (cur ++ [b]) l'
  end.
Definition fields (ds l : list byte) : list (list byte) := words ds [] l.

Lemma words_token ds cur l :
  cur <> [] -> words ds cur l = (cur ++ prefix_in ds false l) :: match suffix_in ds false l with [] => [] | _ :: r => fields ds r end.
Proof.
  unfold fields, suffix_in. revert cur. induction l as [|b l IH]; intros cur Hc; cbn [words prefix_in].
  - rewrite app_nil_r. by destruct cur.
  - destruct (bool_decide (b ∈ ds)); cbn [Bool.eqb length drop]; [by destruct cur; [|rewrite app_nil_r]|].
    rewrite IH by (by destruct cur). by rewrite <- app_assoc.
Qed.

Lemma fields_unfold ds l :
  fields ds l = match suffix_in ds true l with
                | [] => []
                | l1 => prefix_in ds false l1 :: match suffix_in ds false l1 with [] => [] | _ :: r => fields ds r end
                end.
Proof.
  unfold fields at 1, suffix_in. induction l as [|b l IH]; cbn [words prefix_in]; [done|].
  destruct (bool_decide (b ∈ ds)) eqn:Eb; cbn [Bool.eqb length drop app]; [exact IH|].
  rewrite words_token by done. unfold suffix_in. cbn [prefix_in]. rewrite Eb. done.
Qed.
