(* ===== verification/LibcFmtSpec.v ===== *)
(** * The C library: [printf] prints what the format says

    The text a format and its arguments stand for, as rules, and that [vsnprintf]
    writes exactly as much of it as fits, terminated, and returns its length. *)

From stdpp Require Import base numbers list gmap.
From Stdlib Require Import ZArith Lia.
From S2P Require Import Prelude Uaccess Mem LibcStr LibcFmt LibcSpec.
#[local] Open Scope Z_scope.

(** ** Numerals *)

(** The value of a string of digits of a base, after [acc]. *)
Fixpoint value (base acc : Z) (s : list byte) : option Z :=
  match s with
  | [] => Some acc
  | b :: s' => d ← digit_of (b2z b); if d <? base then value base (acc * base + d) s' else None
  end.

(** The numeral of [v]: its value, no leading zero, digits of one case. *)
Record numeral (base : Z) (upper : bool) (v : Z) (s : list byte) : Prop := {
  nu_value : value base 0 s = Some v;
  nu_lead : s = [x30] \/ exists b r, s = b :: r /\ b <> x30;
  nu_case : Forall (fun b => exists d, 0 <= d < base /\ b = digit_char upper d) s
}.

Lemma digit_char_of upper d : 0 <= d < 16 -> digit_of (b2z (digit_char upper d)) = Some d.
Proof.
  intros Hd. unfold digit_char, digit_of. destruct (Z.ltb_spec d 10).
  - rewrite b2z_z2b, Z.mod_small by lia. rewrite (proj2 (Z.leb_le 48 _)), (proj2 (Z.leb_le _ 57)) by lia. cbn [andb]. f_equal. lia.
  - rewrite b2z_z2b, Z.mod_small by (destruct upper; lia).
    rewrite (proj2 (Z.leb_gt _ 57)), andb_false_r by (destruct upper; lia). destruct upper.
    + rewrite (proj2 (Z.leb_gt 97 _)), (proj2 (Z.leb_le 65 _)), (proj2 (Z.leb_le _ 90)) by lia. cbn [andb]. f_equal. lia.
    + rewrite (proj2 (Z.leb_le 97 _)), (proj2 (Z.leb_le _ 122)) by lia. cbn [andb]. f_equal. lia.
Qed.

Lemma digit_char_nonzero upper d : 0 < d < 16 -> digit_char upper d <> x30.
Proof. intros Hd He. pose proof (digit_char_of upper d ltac:(lia)) as H. rewrite He in H. change (Some 0 = Some d) in H. injection H. lia. Qed.

Lemma value_app base acc s t : value base acc (s ++ t) = (v ← value base acc s; value base v t).
Proof.
  revert acc. induction s as [|b s IH]; intros acc; [done|]. cbn [app value]. destruct (digit_of (b2z b)) as [d|]; cbn; [|done].
  by destruct (d <? base).
Qed.

Lemma value_snoc base s v upper d :
  1 < base <= 16 -> value base 0 s = Some v -> 0 <= d < base -> value base 0 (s ++ [digit_char upper d]) = Some (v * base + d).
Proof.
  intros Hb Hv Hd. rewrite value_app, Hv. cbn. rewrite digit_char_of by lia. cbn. by rewrite (proj2 (Z.ltb_lt d base)) by lia.
Qed.

(** The digits of [v], last one first. *)
Lemma wp_uint_digits {E} (X : E -> gmap Z byte -> Prop) m base upper k : forall v fuel tmp (Q : list byte -> gmap Z byte -> Prop),
  1 < base <= 16 -> 0 < v < base ^ Z.of_nat k -> (k < fuel)%nat -> (length tmp + k <= 20)%nat ->
  (forall ds, numeral base upper v (rev ds) -> (length ds <= k)%nat -> Q (tmp ++ ds) m) -> wp (uint_digits fuel v base upper tmp) Q X m.
Proof.
  induction k as [|k IH]; intros v fuel tmp Q Hb Hv Hf Hl HQ; [cbn in Hv; lia|].
  destruct fuel as [|fuel]; [lia|]. cbn [uint_digits]. rewrite (proj2 (Z.eqb_neq v 0)) by lia.
  apply wp_bind, wp_assert; [apply Nat.ltb_lt; lia|].
  pose proof (Z.div_mod v base ltac:(lia)) as Hdm. pose proof (Z.mod_pos_bound v base ltac:(lia)) as Hm.
  rewrite Nat2Z.inj_succ, Z.pow_succ_r in Hv by lia.
  destruct (decide (v / base = 0)) as [H0|H0].
  - destruct fuel as [|fuel]; [lia|]. cbn [uint_digits]. rewrite H0. apply wp_ret, HQ; [|cbn; lia]. cbn [rev app].
    split; [|right|by constructor; [exists (v mod base)|]].
    + cbn. rewrite digit_char_of by lia. cbn. rewrite (proj2 (Z.ltb_lt _ base)) by lia. f_equal. lia.
    + exists (digit_char upper (v mod base)), []. split; [done|]. apply digit_char_nonzero. lia.
  - assert (Hq : 0 < v / base < base ^ Z.of_nat k).
    { assert (0 <= v / base) by (apply Z.div_pos; lia). split; [lia|]. apply Z.div_lt_upper_bound; lia. }
    apply IH; [done|done|lia|rewrite length_app; cbn; lia|]. intros ds [N1 N2 N3] Hds. rewrite <- app_assoc. apply HQ; [|cbn; lia]. cbn [app rev].
    split.
    + rewrite (value_snoc _ _ _ _ _ Hb N1) by done. f_equal. lia.
    + destruct N2 as [N2|(b & r & N2 & Hne)].
      * rewrite N2 in N1. change ((if 0 <? base then Some (0 * base + 0) else None) = Some (v / base)) in N1.
        rewrite (proj2 (Z.ltb_lt 0 base)) in N1 by lia. injection N1. lia.
      * right. exists b, (r ++ [digit_char upper (v mod base)]). by rewrite N2.
    + apply Forall_app. split; [done|]. constructor; [by exists (v mod base)|done].
Qed.

Lemma value_le base acc s v : 1 < base -> 0 <= acc -> value base acc s = Some v -> acc <= v.
Proof.
  intros Hb. revert acc. induction s as [|b s IH]; intros acc Ha; cbn [value]; [intros [= ->]; lia|].
  destruct (digit_of (b2z b)) as [d|] eqn:Ed; cbn; [|done]. destruct (d <? base); [|done]. intros Hv.
  assert (Hd : 0 <= d) by (unfold digit_of in Ed; repeat case_match; zbool; simplify_eq; lia).
  apply IH in Hv; nia.
Qed.

Lemma digit_char_inj upper d d' : 0 <= d < 16 -> 0 <= d' < 16 -> digit_char upper d = digit_char upper d' -> d = d'.
Proof. intros Hd Hd' He. apply (f_equal (fun b => digit_of (b2z b))) in He. rewrite !digit_char_of in He by done. by injection He. Qed.

(** Digits that do not start with a zero. *)
Definition proper (base : Z) (upper : bool) (s : list byte) : Prop :=
  Forall (fun b => exists d, 0 <= d < base /\ b = digit_char upper d) s /\ head s <> Some x30.

Lemma proper_pos base upper s v : 1 < base <= 16 -> proper base upper s -> s <> [] -> value base 0 s = Some v -> 0 < v.
Proof.
  intros Hb [Hc Hh] Hs Hv. destruct s as [|b s]; [done|]. apply Forall_cons in Hc as [(d & Hd & ->) _].
  assert (Hd0 : d <> 0) by (intros ->; by apply Hh). cbn [value] in Hv. rewrite digit_char_of in Hv by lia. cbn [mbind option_bind] in Hv.
  rewrite (proj2 (Z.ltb_lt d base)) in Hv by lia. apply value_le in Hv; lia.
Qed.

Lemma proper_unique base upper s s' v :
  1 < base <= 16 -> proper base upper s -> proper base upper s' -> value base 0 s = Some v -> value base 0 s' = Some v -> s = s'.
Proof.
  intros Hb. revert s' v. induction s as [|b s IH] using rev_ind; intros s' v Hp Hp' Hv Hv'.
  - destruct s' as [|b' s']; [done|]. apply (proper_pos _ _ _ _ Hb Hp') in Hv'; [|done]. cbn in Hv. injection Hv. lia.
  - destruct s' as [|b' s' _] using rev_ind.
    { apply (proper_pos _ _ _ _ Hb Hp) in Hv; [|by destruct s]. cbn in Hv'. injection Hv'. lia. }
    destruct Hp as [Hc Hh], Hp' as [Hc' Hh']. apply Forall_app in Hc as [Hc Hb1], Hc' as [Hc' Hb1'].
    apply Forall_singleton in Hb1 as (d & Hd & ->), Hb1' as (d' & Hd' & ->).
    rewrite value_app in Hv, Hv'. destruct (value base 0 s) as [u|] eqn:Eu; [|done]. destruct (value base 0 s') as [u'|] eqn:Eu'; [|done].
    cbn [mbind option_bind value] in Hv, Hv'. rewrite digit_char_of in Hv, Hv' by lia. cbn [mbind option_bind] in Hv, Hv'.
    rewrite (proj2 (Z.ltb_lt d base)) in Hv by lia. rewrite (proj2 (Z.ltb_lt d' base)) in Hv' by lia.
    injection Hv as Hv. injection Hv' as Hv'. destruct (Z.div_mod_unique base u u' d d') as [-> ->]; [lia..|]. f_equal.
    apply (IH s' u'); [split; [done|]|split; [done|]|done|done]; intros He; [apply Hh|apply Hh']; [by destruct s|by destruct s'].
Qed.

Lemma numeral_unique base upper v s s' : 1 < base <= 16 -> numeral base upper v s -> numeral base upper v s' -> s = s'.
Proof.
  intros Hb [N1 N2 N3] [M1 M2 M3].
  assert (Hz : value base 0 [x30] = Some 0).
  { change ((if 0 <? base then Some (0 * base + 0) else None) = Some 0). by rewrite (proj2 (Z.ltb_lt 0 base)) by lia. }
  assert (Hpr : forall t, Forall (fun b => exists d, 0 <= d < base /\ b = digit_char upper d) t ->
    (exists b r, t = b :: r /\ b <> x30) -> proper base upper t).
  { intros t Ht (b & r & -> & Hne). split; [done|]. by intros [= ->]. }
  destruct N2 as [->|N2], M2 as [->|M2]; [done|..].
  - rewrite Hz in N1. injection N1 as <-. eapply proper_pos in M1; [lia|done|by apply Hpr|]. by destruct M2 as (? & ? & -> & _).
  - rewrite Hz in M1. injection M1 as <-. eapply proper_pos in N1; [lia|done|by apply Hpr|]. by destruct N2 as (? & ? & -> & _).
  - eapply proper_unique; [done|by apply Hpr|by apply Hpr|done|done].
Qed.

Lemma numeral_zero base upper : 1 < base <= 16 -> numeral base upper 0 [x30].
Proof.
  intros Hb. split; [|by left|].
  - change ((if 0 <? base then Some (0 * base + 0) else None) = Some 0). by rewrite (proj2 (Z.ltb_lt 0 base)) by lia.
  - constructor; [|done]. exists 0. split; [lia|by destruct upper].
Qed.

Lemma u64_digits base v : base = 10 \/ base = 16 -> in_width U64 v -> v < base ^ Z.of_nat 20.
Proof. intros Hb Hv. unfold in_width, U64 in Hv. destruct Hb as [-> | ->]; cbn; lia. Qed.

(** Every 64-bit number has a numeral, of at most 20 digits. *)
Lemma numeral_exists base upper v : base = 10 \/ base = 16 -> in_width U64 v -> exists s, numeral base upper v s /\ (length s <= 20)%nat.
Proof.
  intros Hb Hv. destruct (decide (v = 0)) as [->|H0]; [exists [x30]; split; [apply numeral_zero; lia|cbn; lia]|].
  assert (H : wp (uint_digits 65 v base upper []) (fun ds _ => numeral base upper v (rev ds) /\ (length ds <= 20)%nat) (fun (_ : Empty_set) _ => False) ∅).
  { pose proof (u64_digits base v Hb Hv). unfold in_width in Hv. apply (wp_uint_digits _ _ base upper 20); [lia..|cbn; lia|]. auto. }
  destruct (wp_total _ _ _ H) as (ds & ? & _ & Hn & Hl). exists (rev ds). by rewrite length_rev.
Qed.

(** ** The text of a format *)

Section Text.
Context (m : gmap Z byte) (out cap : Z).

(** The conversions with a meaning of their own. *)
Definition conversions : list byte := [x64; x69; x75; x78; x58; x70; x73; x63; x25; x00].

(** What a conversion [c], with or without [l], prints of the next argument. *)
Inductive converted (long : bool) : byte -> list Z -> list byte -> list Z -> Prop :=
| C_signed c w ap s :
    c = x64 \/ c = x69 -> in_width U64 w ->
    let v := if long then to_long w else as_int w in
    numeral 10 false (Z.abs v) s -> converted long c (w :: ap) ((if v <? 0 then [x2d] else []) ++ s) ap
| C_unsigned w ap s : in_width U64 w -> numeral 10 false (if long then w else as_uint w) s -> converted long x75 (w :: ap) s ap
| C_hex c (upper : bool) w ap s :
    c = (if upper then x58 else x78) -> in_width U64 w -> numeral 16 upper (if long then w else as_uint w) s -> converted long c (w :: ap) s ap
| C_pointer w ap s : in_width U64 w -> numeral 16 false w s -> converted long x70 (w :: ap) (bs "0x" ++ s) ap
| C_string w ap s :
    w <> 0 -> str_at m w s -> apart w (Z.of_nat (length s) + 1) out cap -> converted long x73 (w :: ap) s ap
| C_null ap : converted long x73 (0 :: ap) (bs "(null)") ap
| C_char w ap : converted long x63 (w :: ap) [z2b w] ap
| C_percent ap : converted long x25 ap [x25] ap
| C_other c ap : c ∉ conversions -> (long = false -> c <> x6c) -> converted long c ap [x25; c] ap.

Inductive formatted : list byte -> list Z -> list byte -> Prop :=
| F_end ap : formatted [] ap []
| F_char c f ap t : c <> x25 -> formatted f ap t -> formatted (c :: f) ap (c :: t)
| F_convert (long : bool) c f ap s ap' t :
    converted long c ap s ap' -> formatted f ap' t ->
    formatted (x25 :: (if long then [x6c] else []) ++ c :: f) ap (s ++ t)
| F_dangling (long : bool) ap : formatted (x25 :: (if long then [x6c] else [])) ap [].

(** Memory with as much of [done] in the buffer as fits. *)
Definition shown (done : list byte) : gmap Z byte := poke out (take (Z.to_nat (cap - 1)) done) m.

Context {E : Type} (X : E -> gmap Z byte -> Prop) (Hmap : mapped m out cap).
#[local] Abbreviation len l := (Z.of_nat (length l)).

Lemma shown_mapped done a n : mapped m a n -> mapped (shown done) a n.
Proof. apply mapped_poke. Qed.

Lemma shown_out done x : ~ (out <= x < out + cap) -> shown done !! x = m !! x.
Proof. intros Hx. apply lookup_poke_out. rewrite length_take. lia. Qed.

Lemma shown_str done a s : str_at m a s -> apart a (len s + 1) out cap -> str_at (shown done) a s.
Proof. intros Hs Ha. eapply str_at_ext; [|exact Hs]. intros x Hx. apply shown_out. unfold apart in Ha. lia. Qed.

Lemma wp_put_ch done c (Q : Z -> gmap Z byte -> Prop) :
  Q (len (done ++ [c])) (shown (done ++ [c])) -> wp (put_ch out cap (len done) c) Q X (shown done).
Proof.
  intros HQ. rewrite length_app, Nat2Z.inj_add in HQ. unfold put_ch. apply wp_bind. destruct (Z.ltb_spec (len done + 1) cap).
  - apply wp_store; [apply (shown_mapped done _ _ Hmap); lia|]. apply wp_ret. unfold shown in *.
    rewrite take_ge in HQ by (rewrite length_app; cbn; lia). rewrite poke_snoc in HQ. by rewrite take_ge by lia.
  - apply wp_ret, wp_ret. unfold shown in *. by rewrite take_app_le in HQ by lia.
Qed.

Lemma wp_put_lit done l (Q : Z -> gmap Z byte -> Prop) :
  Q (len (done ++ l)) (shown (done ++ l)) -> wp (put_lit out cap (len done) l) Q X (shown done).
Proof.
  revert done. induction l as [|c l IH]; intros done HQ; cbn [put_lit]; [apply wp_ret; by rewrite app_nil_r in HQ|].
  apply wp_bind, wp_put_ch, IH. by rewrite <- app_assoc.
Qed.

Lemma wp_put_str_loop fuel done a s (Q : Z -> gmap Z byte -> Prop) :
  str_at m a s -> apart a (len s + 1) out cap -> (length s < fuel)%nat ->
  Q (len (done ++ s)) (shown (done ++ s)) -> wp (put_str_loop fuel out cap (len done) a) Q X (shown done).
Proof.
  revert a fuel done. induction s as [|b s IH]; intros a [|fuel] done Hs Ha Hf HQ; cbn [put_str_loop length] in *; try lia.
  - pose proof (shown_str done _ _ Hs Ha) as H%str_at_nil. apply wp_bind. eapply wp_load; [exact H|]. apply wp_ret. by rewrite app_nil_r in HQ.
  - pose proof (shown_str done _ _ Hs Ha) as (Hb & Hz & _)%str_at_cons. apply wp_bind. eapply wp_load; [exact Hb|]. rewrite is_nul_false by done.
    apply wp_bind, wp_put_ch. apply IH; [by apply str_at_cons in Hs as (_ & _ & ?)|unfold apart in *; lia|lia|]. by rewrite <- app_assoc.
Qed.

Lemma wp_puts_str done a s (Q : Z -> gmap Z byte -> Prop) :
  str_at m a s -> apart a (len s + 1) out cap -> Q (len (done ++ s)) (shown (done ++ s)) -> wp (put_str out cap (len done) a) Q X (shown done).
Proof.
  intros Hs Ha HQ. apply wp_with_fuel. pose proof (str_at_size _ _ _ (shown_str done _ _ Hs Ha)). eapply wp_put_str_loop; [exact Hs|done|lia|done].
Qed.

Lemma wp_put_uint done v base upper s (Q : Z -> gmap Z byte -> Prop) :
  base = 10 \/ base = 16 -> in_width U64 v -> numeral base upper v s ->
  Q (len (done ++ s)) (shown (done ++ s)) -> wp (put_uint out cap (len done) v base upper) Q X (shown done).
Proof.
  intros Hb Hv Hn HQ. unfold put_uint. apply wp_bind. destruct (decide (v = 0)) as [->|H0].
  - apply wp_ret. apply wp_put_lit. cbn [rev app]. by rewrite (numeral_unique base upper 0 s [x30]) in HQ by (done || lia || (apply numeral_zero; lia)).
  - rewrite (proj2 (Z.eqb_neq v 0)) by done. eapply (wp_uint_digits X (shown done) base upper 20); [lia| |lia|cbn; lia|].
    { pose proof (u64_digits base v Hb Hv). unfold in_width in Hv. lia. }
    intros ds Hds _. cbn [app]. apply wp_put_lit. by rewrite (numeral_unique base upper v s (rev ds)) in HQ by (done || lia).
Qed.

Lemma as_int_range w : - 2 ^ 31 <= as_int w < 2 ^ 31.
Proof. unfold as_int. pose proof (Z.mod_pos_bound w U32 ltac:(done)). unfold U32 in *. destruct (Z.ltb_spec (w mod 2 ^ 32) (2 ^ 31)); lia. Qed.

Lemma to_long_range w : in_width U64 w -> - 2 ^ 63 <= to_long w < 2 ^ 63.
Proof. unfold to_long, in_width, U64. intros Hw. destruct (Z.ltb_spec w (2 ^ 63)); lia. Qed.

Lemma as_uint_range w : in_width U64 (as_uint w).
Proof. unfold as_uint, in_width. pose proof (Z.mod_pos_bound w U32 ltac:(done)). unfold U32, U64 in *. lia. Qed.

Lemma wp_put_signed done v s (Q : Z -> gmap Z byte -> Prop) :
  - 2 ^ 63 <= v < 2 ^ 63 -> numeral 10 false (Z.abs v) s ->
  (let t := (if v <? 0 then [x2d] else []) ++ s in Q (len (done ++ t)) (shown (done ++ t))) ->
  wp (put_signed out cap (len done) v) Q X (shown done).
Proof.
  intros Hv Hn HQ. unfold put_signed. destruct (Z.ltb_spec v 0).
  - apply wp_bind, wp_put_ch. rewrite Z.mod_small by (unfold U64; lia). eapply wp_put_uint; [by left|split; unfold U64; lia| |].
    + replace (0 - v) with (Z.abs v) by lia. exact Hn.
    + by rewrite <- app_assoc.
  - eapply wp_put_uint; [by left|split; unfold U64; lia| |exact HQ]. by replace v with (Z.abs v) at 1 by lia.
Qed.

(** Any other conversion is printed as it is. *)
Lemma convert_other pos long c ap :
  c ∉ conversions ->
  convert out cap pos long c ap =
    (let! pos := put_ch out cap pos x25 in let! pos := put_ch out cap pos c in pret (pos, ap, false) : prog _ E _).
Proof. intros Hc. destruct c; try done; exfalso; apply Hc; apply (bool_decide_unpack _); vm_compute; done. Qed.

Lemma wp_convert done long c ap s ap' (Q : Z * list Z * bool -> gmap Z byte -> Prop) :
  converted long c ap s ap' -> Q (len (done ++ s), ap', false) (shown (done ++ s)) ->
  wp (convert out cap (len done) long c ap) Q X (shown done).
Proof.
  intros Hc HQ. destruct Hc as [c w ap s Hcc Hw v Hn|w ap s Hw Hn|c upper w ap s Hcc Hw Hn|w ap s Hw Hn|w ap s Hw0 Hs Ha|ap|w ap|ap|c ap Hc Hl].
  - assert (Hr : - 2 ^ 63 <= v < 2 ^ 63).
    { subst v. destruct long; [by apply to_long_range|]. pose proof (as_int_range w). lia. }
    destruct Hcc as [-> | ->]; apply wp_bind, wp_ret, wp_bind; (eapply wp_put_signed; [exact Hr|exact Hn|]); by apply wp_ret.
  - apply wp_bind, wp_ret, wp_bind. eapply wp_put_uint; [by left| |exact Hn|by apply wp_ret]. destruct long; [done|apply as_uint_range].
  - assert (Hr : in_width U64 (if long then w else as_uint w)) by (destruct long; [done|apply as_uint_range]).
    destruct upper; subst c; apply wp_bind, wp_ret, wp_bind; (eapply wp_put_uint; [by right|exact Hr|exact Hn|by apply wp_ret]).
  - apply wp_bind, wp_ret, wp_bind, wp_put_lit, wp_bind. eapply wp_put_uint; [by right|done|exact Hn|apply wp_ret]. by rewrite <- app_assoc.
  - apply wp_bind, wp_ret, wp_bind. cbn [fst snd]. rewrite (proj2 (Z.eqb_neq w 0)) by done. eapply wp_puts_str; [exact Hs|done|by apply wp_ret].
  - apply wp_bind, wp_ret, wp_bind, wp_put_lit. by apply wp_ret.
  - apply wp_bind, wp_ret, wp_bind, wp_put_ch. by apply wp_ret.
  - apply wp_bind, wp_put_ch. by apply wp_ret.
  - rewrite convert_other by done. apply wp_bind, wp_put_ch, wp_bind, wp_put_ch, wp_ret. by rewrite <- app_assoc.
Qed.

Lemma converted_not_l c ap s ap' : converted false c ap s ap' -> c <> x6c.
Proof. intros Hc. destruct Hc as [? ? ? ? []| |? [] | | | | | | ]; subst; try done. by auto. Qed.

Lemma wp_format_loop f ap t : formatted f ap t -> forall p fuel done (Q : Z -> gmap Z byte -> Prop),
  str_at m p f -> apart p (len f + 1) out cap -> (length f < fuel)%nat ->
  Q (len (done ++ t)) (shown (done ++ t)) -> wp (format_loop fuel out cap p ap (len done)) Q X (shown done).
Proof.
  intros Hf. induction Hf as [ap|c f ap t Hc Hf IH|long c f ap s ap' t Hcv Hf IH|long ap]; intros p [|fuel] done Q Hs Ha Hfu HQ;
    try (cbn in Hfu; lia); pose proof (shown_str done _ _ Hs Ha) as Hsd; cbn [format_loop].
  - apply str_at_nil in Hsd. apply wp_bind. eapply wp_load; [exact Hsd|]. apply wp_ret. by rewrite app_nil_r in HQ.
  - apply str_at_cons in Hsd as (Hb & Hz & _), Hs as (_ & _ & Hs). apply wp_bind. eapply wp_load; [exact Hb|].
    rewrite is_nul_false, byte_eqb_spec, bool_decide_false by done. cbn [negb]. apply wp_bind, wp_put_ch.
    cbn [length] in *. apply IH; [done|unfold apart in *; lia|lia|]. by rewrite <- app_assoc.
  - apply str_at_cons in Hsd as (Hb & _ & Hsd), Hs as (_ & _ & Hs). apply wp_bind. eapply wp_load; [exact Hb|]. cbn [is_nul Byte.eqb negb].
    cbn [length] in *. rewrite length_app in Ha, Hfu. rewrite app_assoc in HQ.
    destruct long; cbn [app length] in *.
    + apply str_at_cons in Hsd as (Hl & _ & Hsd), Hs as (_ & _ & Hs). apply str_at_cons in Hsd as (Hc & _ & _), Hs as (_ & _ & Hs).
      apply wp_bind. eapply wp_load; [exact Hl|]. change (Byte.eqb x6c x6c) with true. cbv iota zeta. apply wp_bind. eapply wp_load; [exact Hc|].
      apply wp_bind. eapply wp_convert; [exact Hcv|]. cbn beta iota. apply IH; [done|unfold apart in *; lia|lia|done].
    + apply str_at_cons in Hsd as (Hc & _ & _), Hs as (_ & _ & Hs). apply wp_bind. eapply wp_load; [exact Hc|].
      rewrite byte_eqb_spec, bool_decide_false by (by eapply converted_not_l). apply wp_bind. eapply wp_load; [exact Hc|].
      apply wp_bind. eapply wp_convert; [exact Hcv|]. cbn beta iota. apply IH; [done|unfold apart in *; lia|lia|done].
  - rewrite app_nil_r in HQ. apply str_at_cons in Hsd as (Hb & _ & Hsd). apply wp_bind. eapply wp_load; [exact Hb|]. cbn [is_nul Byte.eqb negb].
    destruct fuel as [|fuel]; [destruct long; cbn in Hfu; lia|].
    destruct long; [apply str_at_cons in Hsd as (Hl & _ & Hsd)|]; apply str_at_nil in Hsd.
    + apply wp_bind. eapply wp_load; [exact Hl|]. change (Byte.eqb x6c x6c) with true. cbv iota zeta. apply wp_bind. eapply wp_load; [exact Hsd|].
      apply wp_bind, wp_ret. cbn [format_loop]. replace (p + 1 + 1 - 1 + 1) with (p + 1 + 1) by lia.
      apply wp_bind. eapply wp_load; [exact Hsd|]. by apply wp_ret.
    + apply wp_bind. eapply wp_load; [exact Hsd|]. change (Byte.eqb x00 x6c) with false. cbv iota zeta. apply wp_bind. eapply wp_load; [exact Hsd|].
      apply wp_bind, wp_ret. cbn [format_loop]. replace (p + 1 - 1 + 1) with (p + 1) by lia.
      apply wp_bind. eapply wp_load; [exact Hsd|]. by apply wp_ret.
Qed.

(** What is in the buffer at the end. *)
Definition printed (t : list byte) : gmap Z byte := if 0 <? cap then poke out (take (Z.to_nat (cap - 1)) t ++ [x00]) m else m.

Lemma wp_vsnprintf f ap t fmt (Q : Z -> gmap Z byte -> Prop) :
  formatted f ap t -> str_at m fmt f -> apart fmt (len f + 1) out cap -> Q (as_int (len t)) (printed t) ->
  wp (vsnprintf out cap fmt ap) Q X m.
Proof.
  intros Hf Hs Ha HQ. unfold vsnprintf. apply wp_bind, wp_with_fuel. pose proof (str_at_size _ _ _ Hs) as Hsz.
  replace m with (shown []) at 2 by (unfold shown; by rewrite take_nil).
  apply (wp_format_loop f ap t Hf fmt _ []); [done|done|lia|]. cbn [app]. apply wp_bind. unfold printed in HQ.
  destruct (Z.ltb_spec 0 cap) as [Hc|Hc].
  - apply wp_store; [apply (shown_mapped t _ _ Hmap); destruct (Z.ltb_spec (len t) cap); lia|]. apply wp_ret. rewrite poke_snoc in HQ.
    unfold shown. replace (Z.of_nat (length (take (Z.to_nat (cap - 1)) t))) with (if len t <? cap then len t else cap - 1) in HQ; [exact HQ|].
    rewrite length_take. destruct (Z.ltb_spec (len t) cap); lia.
  - apply wp_ret, wp_ret. unfold shown. replace (Z.to_nat (cap - 1)) with 0%nat by lia. exact HQ.
Qed.
End Text.
