(* ===== verification/LibcTheorems.v ===== *)
(** * The C library: theorems *)

From stdpp Require Import base numbers list gmap.
From Stdlib Require Import ZArith Lia.
From S2P Require Import Prelude Uaccess Mem LibcStr LibcFmt LibcIO LibcSpec LibcFmtSpec.
#[local] Open Scope Z_scope.

(** ** Numbers read back *)

Section Parse.
Context {E : Type} (X : E -> gmap Z byte -> Prop).
Implicit Types (m : gmap Z byte).

(** A run of digits, up to a byte that is not one. *)
Lemma wp_digits_loop m base s : forall acc v fuel p c any (Q : Z * Z * bool -> gmap Z byte -> Prop),
  1 < base -> 0 <= acc -> value base acc s = Some v -> v < U64 -> holds m p s -> m !! (p + Z.of_nat (length s)) = Some c ->
  digit_of (b2z c) = None -> (length s < fuel)%nat ->
  Q (v, p + Z.of_nat (length s), any || negb (bool_decide (s = []))) m -> wp (digits_loop fuel p base acc any) Q X m.
Proof.
  induction s as [|b s IH]; intros acc v [|fuel] p c any Q Hb Ha Hv Hlt Hh Hc Hd Hf HQ; cbn [length digits_loop] in *; try lia.
  - rewrite Z.add_0_r in Hc. apply wp_bind. eapply wp_load; [exact Hc|]. rewrite Hd. cbn in Hv. injection Hv as ->. apply wp_ret.
    rewrite Z.add_0_r, bool_decide_true, orb_false_r in HQ by done. exact HQ.
  - apply holds_cons in Hh as [Hb1 Hh]. apply wp_bind. eapply wp_load; [exact Hb1|]. cbn [value] in Hv.
    destruct (digit_of (b2z b)) as [d|] eqn:Ed; [|done]. cbn [mbind option_bind] in Hv. destruct (Z.ltb_spec d base); [|done].
    rewrite (proj2 (Z.leb_gt base d)) by lia.
    assert (Hd0 : 0 <= d) by (unfold digit_of in Ed; repeat case_match; zbool; simplify_eq; lia).
    assert (Hacc : 0 <= acc * base + d) by nia.
    pose proof (value_le base _ _ _ Hb Hacc Hv) as Hle. rewrite Z.mod_small by lia.
    eapply IH; [done| |exact Hv|done|exact Hh| |exact Hd|lia|]; [done| |].
    + rewrite <- Hc. f_equal. lia.
    + rewrite bool_decide_false in HQ by done. cbn [negb orb] in *. rewrite orb_true_r in HQ.
      by replace (p + 1 + Z.of_nat (length s)) with (p + Z.of_nat (S (length s))) by lia.
Qed.

(** The first byte of a numeral: no space, no sign, no prefix. *)
Lemma numeral_head base upper v s : 1 < base <= 16 -> numeral base upper v s ->
  exists b r, s = b :: r /\ is_space (b2z b) = false /\ b2z b <> 43 /\ b2z b <> 45 /\ b <> x00.
Proof.
  intros Hb [_ Hl Hc].
  assert (exists b r, s = b :: r) as (b & r & ->) by (destruct Hl as [->|(b & r & -> & _)]; eauto).
  exists b, r. apply Forall_cons in Hc as [(d & Hd & ->) _]. split; [done|]. unfold digit_char, is_space.
  assert (Hz : forall z, 48 <= z < 256 -> is_space (b2z (z2b z)) = false /\ b2z (z2b z) <> 43 /\ b2z (z2b z) <> 45 /\ z2b z <> x00).
  { intros z Hz. rewrite b2z_z2b, Z.mod_small by lia. unfold is_space. rewrite (proj2 (Z.eqb_neq z 32)), (proj2 (Z.leb_gt z 13)), andb_false_r by lia.
    split_and!; [done|lia|lia|]. intros He. apply (f_equal b2z) in He. rewrite b2z_z2b, Z.mod_small in He by lia. cbn in He. lia. }
  destruct (d <? 10) eqn:E10; zbool; [apply Hz; lia|]. apply Hz. destruct upper; lia.
Qed.

Lemma wp_skip_none m fuel p b test (Q : Z -> gmap Z byte -> Prop) :
  m !! p = Some b -> test (b2z b) = false -> Q p m -> wp (skip_while (S fuel) p test) Q X m.
Proof. intros Hb Ht HQ. cbn [skip_while]. apply wp_bind. eapply wp_load; [exact Hb|]. rewrite Ht. by apply wp_ret. Qed.

(** A numeral has no prefix. *)
Lemma wp_parse_base m base upper p v s (Q : Z * Z -> gmap Z byte -> Prop) :
  base = 10 \/ base = 16 -> numeral base upper v s -> str_at m p s -> Q (base, p) m -> wp (parse_base p base) Q X m.
Proof.
  intros [-> | ->] Hn Hs HQ; [by apply wp_ret|]. destruct (numeral_head 16 upper v s ltac:(lia) Hn) as (b & r & -> & _).
  unfold parse_base. cbn [Z.eqb Pos.eqb]. apply wp_bind. unfold hex_prefix. pose proof Hs as (Hb & _ & Hr)%str_at_cons.
  apply wp_bind. eapply wp_load; [exact Hb|]. destruct (b2z b =? 48) eqn:Eb; [|by apply wp_ret, wp_ret].
  assert (b = x30) as -> by (zbool; apply b2z_inj; by rewrite Eb).
  destruct (nu_lead _ _ _ _ Hn) as [[= ->]|(b' & r' & [= <- <-] & Hne)]; [|done].
  apply str_at_nil in Hr. apply wp_bind. eapply wp_load; [exact Hr|]. by apply wp_ret, wp_ret.
Qed.

Lemma wp_parse_int m a (neg : bool) base upper s v (Q : Z * bool -> gmap Z byte -> Prop) :
  base = 10 \/ base = 16 -> numeral base upper v s -> v < U64 -> str_at m a ((if neg then [x2d] else []) ++ s) ->
  Q (v, neg) m -> wp (parse_int a 0 base) Q X m.
Proof.
  intros Hb Hn Hv Hs HQ. assert (Hb' : 1 < base <= 16) by lia. destruct (numeral_head _ _ _ _ Hb' Hn) as (b & r & Es & Hsp & H43 & H45 & Hz).
  assert (Hp : str_at m (a + (if neg then 1 else 0)) s).
  { destruct neg; [by apply (str_at_app _ _ [x2d])|by rewrite Z.add_0_r]. }
  assert (Hhead : exists c, m !! a = Some c /\ is_space (b2z c) = false /\ (b2z c =? 43) = false /\ (b2z c =? 45) = neg).
  { destruct neg; cbn [app] in Hs.
    - apply str_at_cons in Hs as (Hc & _). exists x2d. by split_and!.
    - rewrite Es in Hs. apply str_at_cons in Hs as (Hc & _). exists b. split_and!; [done..|by apply Z.eqb_neq|by apply Z.eqb_neq]. }
  destruct Hhead as (c & Hc & Hcs & Hc43 & Hc45). unfold parse_int. apply wp_bind, wp_with_fuel. eapply wp_skip_none; [exact Hc|exact Hcs|].
  apply wp_bind. eapply wp_load; [exact Hc|]. rewrite Hc43, Hc45. cbn [orb].
  replace (if neg then a + 1 else a) with (a + (if neg then 1 else 0)) by (destruct neg; lia).
  apply wp_bind. eapply wp_parse_base; [exact Hb|exact Hn|exact Hp|]. cbn beta iota. apply wp_bind, wp_with_fuel.
  pose proof (str_at_size _ _ _ Hp) as Hsz. destruct Hp as [Hh Hz0]. apply holds_append in Hh as [Hh He]. apply holds_cons in He as [He _].
  eapply (wp_digits_loop m base s); [lia|done|exact (nu_value _ _ _ _ Hn)|done|exact Hh|exact He|done|lia|].
  cbn beta iota. apply wp_bind, wp_ret, wp_ret. exact HQ.
Qed.
End Parse.

Lemma digit_char_not_nul upper d : 0 <= d < 16 -> digit_char upper d <> x00.
Proof. intros Hd He. pose proof (digit_char_of upper d Hd) as H. rewrite He in H. done. Qed.

Lemma numeral_no_nul base upper v s : base <= 16 -> numeral base upper v s -> x00 ∉ s.
Proof.
  intros Hb [_ _ Hc] Hin. rewrite Forall_forall in Hc. destruct (Hc _ Hin) as (d & Hd & He). symmetry in He. by apply digit_char_not_nul in He; [|lia].
Qed.

(** The text is in the buffer when it fits. *)
Lemma printed_str m out cap t : Z.of_nat (length t) < cap -> x00 ∉ t -> str_at (printed m out cap t) out t.
Proof.
  intros Hl Hz. unfold printed. rewrite (proj2 (Z.ltb_lt 0 cap)) by lia. rewrite take_ge by lia. split; [apply holds_poke_same|done].
Qed.

(** Numbers survive printing and reading: [strtol] reads what ["%ld"] printed, and
    [strtoul] in base 16 what ["%lx"] printed, for every number but [LONG_MIN],
    whose negation is undefined. *)
Theorem strtol_reads_printf {E} m out cap fmt fmtx w (X : E -> gmap Z byte -> Prop) :
  in_width U64 w -> mapped m out cap -> 22 <= cap ->
  str_at m fmt (bs "%ld") -> apart fmt 4 out cap -> str_at m fmtx (bs "%lx") -> apart fmtx 4 out cap ->
  (to_long w <> - 2 ^ 63 -> wp (vsnprintf out cap fmt [w] ;;! strtol out 0 10) (fun r _ => r = to_long w) X m) /\
  wp (vsnprintf out cap fmtx [w] ;;! strtoul out 0 16) (fun r _ => r = w) X m.
Proof.
  intros Hw Hm Hc Hf Ha Hfx Hax. split.
  - intros Hmin. pose proof (to_long_range w Hw) as Hr.
    destruct (numeral_exists 10 false (Z.abs (to_long w))) as (s & Hs & Hl); [by left|split; unfold U64; lia|].
    set (neg := to_long w <? 0). set (t := (if neg then [x2d] else []) ++ s).
    assert (Hz : x00 ∉ t) by (subst t; pose proof (numeral_no_nul 10 false _ s ltac:(lia) Hs); destruct neg; set_solver).
    apply wp_bind. eapply (wp_vsnprintf m out cap X Hm (bs "%ld") [w] t fmt); [|exact Hf|exact Ha|].
    { rewrite <- (app_nil_r t). apply (F_convert m out cap true x64 [] _ _ []); [|constructor]. subst t neg. apply (C_signed m out cap true); [by left|done|exact Hs]. }
    assert (Hlen : Z.of_nat (length t) < cap) by (subst t; rewrite length_app; destruct neg; cbn; lia).
    unfold strtol. apply wp_bind. eapply (wp_parse_int X _ out neg 10 false s); [by left|exact Hs|unfold U64; lia|by apply printed_str|].
    cbn beta iota. subst neg. destruct (Z.ltb_spec (to_long w) 0).
    + apply wp_bind, wp_assert; [rewrite (proj2 (Z.eqb_neq _ _)) by lia; done|]. apply wp_ret. unfold to_long at 1. rewrite (proj2 (Z.ltb_lt _ _)) by lia. lia.
    + apply wp_ret. unfold to_long at 1. rewrite (proj2 (Z.ltb_lt _ _)) by lia. lia.
  - destruct (numeral_exists 16 false w) as (s & Hs & Hl); [by right|done|].
    apply wp_bind. eapply (wp_vsnprintf m out cap X Hm (bs "%lx") [w] s fmtx); [|exact Hfx|exact Hax|].
    { rewrite <- (app_nil_r s). apply (F_convert m out cap true x78 [] _ _ []); [|constructor]. by apply (C_hex m out cap true x78 false). }
    unfold strtoul. apply wp_bind. eapply (wp_parse_int X _ out false 16 false s); [by right|exact Hs|apply Hw| |by apply wp_ret].
    cbn [app]. apply printed_str; [lia|]. by eapply numeral_no_nul; [|exact Hs].
Qed.

(** ** Tokens *)

Section Tokens.
Context {K : Type} {KI : Kernel K} {E : Type} (X : E -> Proc K -> Prop).

(** [for (t = strtok(s, delim); t; t = strtok(0, delim))] *)
Fixpoint strtok_all (fuel : nat) (str delim : Z) : prog (Proc K) E (list Z) :=
  match fuel with
  | O => pdiverge
  | S f =>
      let! t := strtok str delim in
      if t =? 0 then pret [] else let! ts := strtok_all f 0 delim in pret (t :: ts)
  end.

Lemma wp_in_mem {A} (f : prog (gmap Z byte) E A) (Q : A -> Proc K -> Prop) p :
  wp f (fun a m' => Q a (set_mem m' p)) (fun e m' => X e (set_mem m' p)) (mem p) -> wp (in_mem f) Q X p.
Proof. apply wp_zoom. Qed.

(** What [strtok] does at a position [s] in a string [l]. *)
Lemma wp_strtok p str s delim l ds (Q : Z -> Proc K -> Prop) :
  (str = s \/ str = 0 /\ strtok_save p = s) -> 0 < s -> str_at (mem p) s l -> str_at (mem p) delim ds -> 0 < delim ->
  (match suffix_in ds true l with
   | [] => Q 0 (set_save 0 (set_mem (mem p) p))
   | l1 => let res := cut (mem p) (s + Z.of_nat (length (prefix_in ds true l))) (prefix_in ds false l1) (suffix_in ds false l1) in
           Q res.1.1 (set_save res.1.2 (set_mem res.2 p))
   end) -> wp (strtok str delim) Q X p.
Proof.
  intros Hstr Hs0 Hs Hd Hd0 HQ. unfold strtok. apply wp_bind, wp_get.
  assert (Hsel : (if negb (str =? 0) then str else strtok_save p) = s).
  { destruct Hstr as [->|[-> Hsv]]; [by rewrite (proj2 (Z.eqb_neq s 0)) by lia|done]. }
  rewrite Hsel, (proj2 (Z.eqb_neq s 0)) by lia. apply wp_bind, wp_in_mem. eapply wp_strtok_from; [exact Hs|exact Hd|done|].
  destruct (suffix_in ds true l) as [|b l1].
  - by apply wp_bind, wp_modify, wp_ret.
  - cbv zeta in *. by apply wp_bind, wp_modify, wp_ret.
Qed.

(** The token and the rest, after the cut. *)
Lemma cut_strings m tok t c r :
  str_at m tok (t ++ c :: r) ->
  let m' := <[tok + Z.of_nat (length t) := x00]> m in str_at m' tok t /\ str_at m' (tok + Z.of_nat (length t) + 1) r.
Proof.
  intros Hs m'. pose proof (str_at_app _ _ _ _ Hs) as (_ & _ & Hr)%str_at_cons. destruct Hs as [Hh Hz]. rewrite <- app_assoc in Hh.
  apply holds_append in Hh as [Ht _]. split.
  - split; [|set_solver]. apply holds_append. split; [|apply holds_cons; split; [apply lookup_insert_eq|apply holds_none]].
    eapply holds_same; [|exact Ht]. intros x Hx. apply lookup_insert_ne. lia.
  - eapply str_at_ext; [|exact Hr]. intros x Hx. apply lookup_insert_ne. lia.
Qed.

Lemma wp_strtok_all n : forall p str s delim l ds,
  (length l + 1 < n)%nat -> (str = s \/ str = 0 /\ strtok_save p = s) -> 0 < s -> str_at (mem p) s l -> str_at (mem p) delim ds -> 0 < delim ->
  apart s (Z.of_nat (length l) + 1) delim (Z.of_nat (length ds) + 1) ->
  wp (strtok_all n str delim)
    (fun ts p' => Forall2 (str_at (mem p')) ts (fields ds l) /\
       forall x, ~ (s <= x < s + Z.of_nat (length l) + 1) -> mem p' !! x = mem p !! x) X p.
Proof.
  induction n as [|n IH]; intros p str s delim l ds Hn Hstr Hs0 Hs Hd Hd0 Ha; [lia|]. cbn [strtok_all]. rewrite (fields_unfold ds l).
  apply wp_bind. eapply wp_strtok; [exact Hstr|done|exact Hs|exact Hd|done|].
  pose proof (prefix_suffix ds true l) as E1. destruct (suffix_in ds true l) as [|b l1] eqn:El; [by apply wp_ret|]. cbv zeta.
  assert (Htok : str_at (mem p) (s + Z.of_nat (length (prefix_in ds true l))) (b :: l1)) by (apply str_at_app; by rewrite <- E1).
  set (tok := s + _) in *. pose proof (f_equal length E1) as Hlen. rewrite length_app in Hlen.
  pose proof (prefix_suffix ds false (b :: l1)) as E2. set (t := prefix_in ds false (b :: l1)) in *.
  destruct (suffix_in ds false (b :: l1)) as [|c r] eqn:Er; cbn [cut fst snd].
  - rewrite app_nil_r in E2. rewrite (proj2 (Z.eqb_neq tok 0)) by lia. apply wp_bind. destruct n as [|n]; [cbn in Hlen; lia|]. cbn [strtok_all].
    apply wp_bind. unfold strtok. apply wp_bind, wp_get. apply wp_ret. cbn [Z.eqb]. apply wp_ret, wp_ret. split; [|done].
    constructor; [|constructor]. cbn [mem set_save set_mem]. by rewrite E2 in Htok.
  - rewrite (proj2 (Z.eqb_neq tok 0)) by lia. rewrite E2 in Htok. destruct (cut_strings _ _ _ _ _ Htok) as [Ht Hr]. apply wp_bind.
    pose proof (f_equal length E2) as Hlen2. rewrite length_app in Hlen2. cbn [length] in Hlen, Hlen2. unfold apart in Ha.
    eapply wp_mono; [eapply (IH _ 0 (tok + Z.of_nat (length t) + 1) delim r ds); [lia|right; by split|lia|exact Hr| |done|unfold apart; lia]| |done].
    + cbn [mem set_save set_mem]. eapply str_at_ext; [|exact Hd]. intros x Hx. apply lookup_insert_ne. lia.
    + cbn [mem set_save set_mem]. intros ts p' [Hts Hfr]. apply wp_ret. split.
      * constructor; [|done]. eapply str_at_ext; [|exact Ht]. intros x Hx. apply Hfr. lia.
      * intros x Hx. rewrite Hfr by lia. apply lookup_insert_ne. lia.
Qed.
End Tokens.

(** ** The heap *)

(** What the kernel promises of [brk]: it returns the break, which it leaves where
    it was, lowers, or raises to the address asked for, mapping what is below. *)
Class BrkKernel (K : Type) {KI : Kernel K} : Type := {
  k_break : K -> Z;
  k_break_range k : 0 < k_break k < 2 ^ 47;
  brk_call a m k r m' k' :
    0 <= a -> syscall 12 [a] (m, k) = (r, (m', k')) -> r = k_break k' /\
    (k_break k' = k_break k /\ m' = m \/
     0 < a < k_break k /\ k_break k' = a \/
     k_break k < a /\ k_break k' = a /\ m ⊆ m' /\ mapped m' (k_break k) (a - k_break k))
}.

Section Heap.
Context {K : Type} {KI : Kernel K} {BK : BrkKernel K} {E : Type} (X : E -> Proc K -> Prop).
Implicit Types (p : Proc K) (bs : list (Z * Z)).

(** A heap in use: [heap_cur..heap_lim] is free and mapped. *)
Definition heap_live p : Prop :=
  0 < heap_cur p /\ heap_cur p mod 16 = 0 /\ heap_cur p <= heap_lim p /\ heap_lim p = k_break (kern p) /\
  mapped (mem p) (heap_cur p) (heap_lim p - heap_cur p).

(** Before the first [malloc] there is none. *)
Definition heap_ok p : Prop := heap_cur p = 0 /\ k_break (kern p) mod 16 = 0 \/ heap_live p.

(** The blocks handed out are mapped, below the free part, and do not overlap. *)
Definition owns p bs : Prop :=
  heap_ok p /\ Forall (fun b => 0 < b.1 /\ 0 <= b.2 /\ b.1 + b.2 <= heap_cur p /\ mapped (mem p) b.1 b.2) bs /\
  ForallOrdPairs (fun b c => apart b.1 b.2 c.1 c.2) bs.

Lemma mapped_mono m m' a n : m ⊆ m' -> mapped m a n -> mapped m' a n.
Proof. intros Hs Hm x Hx. destruct (Hm x Hx) as [b Hb]. exists b. by eapply lookup_weaken. Qed.

Lemma round16 n : 0 <= n <= 2 ^ 63 ->
  let r := Z.land ((n + 15) mod U64) (Z.lnot 15) in n <= r < n + 16 /\ r mod 16 = 0.
Proof.
  intros Hn. cbv zeta. rewrite Z.mod_small by (unfold U64; lia).
  assert (Hr : forall x, Z.land x (Z.lnot 15) = x / 16 * 16).
  { intros x. rewrite <- Z.ldiff_land. change 15 with (Z.ones 4). by rewrite Z.ldiff_ones_r, Z.shiftl_mul_pow2, Z.shiftr_div_pow2 by lia. }
  rewrite Hr. pose proof (Z.div_mod (n + 15) 16 ltac:(lia)). pose proof (Z.mod_pos_bound (n + 15) 16 ltac:(lia)).
  split; [lia|by rewrite Z.mod_mul].
Qed.

Lemma wp_brk p a (Q : Z -> Proc K -> Prop) :
  0 <= a ->
  (forall p', heap_cur p' = heap_cur p -> heap_lim p' = heap_lim p ->
     k_break (kern p') = k_break (kern p) /\ mem p' = mem p \/
     0 < a < k_break (kern p) /\ k_break (kern p') = a \/
     k_break (kern p) < a /\ k_break (kern p') = a /\ mem p ⊆ mem p' /\ mapped (mem p') (k_break (kern p)) (a - k_break (kern p)) ->
     Q (k_break (kern p')) p') -> wp (sc1 12 a) Q X p.
Proof.
  intros Ha HQ. unfold wp, sc1, sc. destruct (syscall 12 [a] (mem p, kern p)) as [r [m' k']] eqn:Es.
  destruct (brk_call _ _ _ _ _ _ Ha Es) as [-> H]. by apply (HQ (set_both (m', k') p)).
Qed.

(** Memory only grows; a block of [n] bytes is cut off the free part, or the break
    cannot be raised. *)
Definition taken (p p' : Proc K) (n r : Z) : Prop :=
  heap_live p' /\ mem p ⊆ mem p' /\
  (r = 0 /\ heap_cur p' = heap_cur p \/ r = heap_cur p /\ heap_cur p' = heap_cur p + n /\ mapped (mem p') r n).

Lemma wp_malloc_take p n : heap_live p -> 0 <= n <= 2 ^ 63 + 16 -> n mod 16 = 0 ->
  wp (malloc_take n) (fun r p' => taken p p' n r) X p.
Proof.
  intros (Hc & Hc16 & Hle & Hlim & Hmap) Hn Hn16. pose proof (k_break_range (kern p)) as Hb. unfold malloc_take. apply wp_bind, wp_get.
  assert (H16 : (heap_cur p + n) mod 16 = 0) by (rewrite Z.add_mod, Hc16, Hn16 by lia; done).
  rewrite (Z.mod_small (heap_lim p - heap_cur p)) by (unfold U64; lia). apply wp_bind. destruct (Z.ltb_spec (heap_lim p - heap_cur p) n).
  - rewrite Z.mod_small by (unfold U64; lia). apply wp_bind, wp_brk; [lia|]. intros p' Hcur Hlm Hk. pose proof (k_break_range (kern p')) as Hb'.
    rewrite (Z.mod_small (k_break (kern p'))) by (unfold U64; lia).
    destruct Hk as [[Hk Hm]|[[Hk _]|(_ & Hk & Hsub & Hnew)]]; [|lia|].
    + rewrite (proj2 (Z.ltb_lt _ _)) by lia. apply wp_ret, wp_ret. split; [|split; [by rewrite Hm|by left]].
      unfold heap_live. rewrite Hcur, Hlm, Hk, Hm. done.
    + rewrite Hk, (proj2 (Z.ltb_ge _ _)) by lia. apply wp_bind, wp_modify, wp_ret. apply wp_bind, wp_get, wp_bind, wp_modify, wp_ret.
      cbn [heap_cur heap_lim set_heap]. rewrite Hcur, Z.mod_small by (unfold U64; lia).
      split; [|split; [exact Hsub|right; split_and!; [done..|]]]; cbn.
      * unfold heap_live. cbn. split_and!; [lia|done|lia|done|]. intros x Hx. lia.
      * intros x Hx. destruct (decide (x < heap_lim p)) as [Hx'|Hx'].
        -- apply (mapped_mono _ _ _ _ Hsub Hmap). lia.
        -- apply Hnew. lia.
  - apply wp_ret. apply wp_bind, wp_get, wp_bind, wp_modify, wp_ret. rewrite Z.mod_small by (unfold U64; lia).
    split; [|split; [done|right; split_and!; [done..|]]]; cbn.
    + unfold heap_live. cbn. split_and!; [lia|done|lia|done|]. intros x Hx. apply Hmap. lia.
    + intros x Hx. apply Hmap. lia.
Qed.

(** The first call takes the break as the start of the heap. *)
Lemma wp_malloc p n : heap_ok p -> 0 <= n <= 2 ^ 63 ->
  let k := Z.land ((n + 15) mod U64) (Z.lnot 15) in
  wp (malloc n) (fun r p' => exists p0, heap_live p0 /\ mem p0 = mem p /\ (0 < heap_cur p -> p0 = p) /\ taken p0 p' k r) X p.
Proof.
  intros Hp Hn k. destruct (round16 n Hn) as [Hk Hk16]. fold k in Hk, Hk16. unfold malloc. apply wp_bind, wp_get, wp_bind. destruct Hp as [[H0 Hb16]|Hl].
  - rewrite H0. cbn [Z.eqb]. apply wp_bind, wp_brk; [lia|]. intros p1 Hcur Hlm Hbr. pose proof (k_break_range (kern p1)) as Hb.
    destruct Hbr as [[Hbr Hm]|[[Hbr _]|[Hbr _]]]; [|lia|pose proof (k_break_range (kern p)); lia].
    apply wp_modify. rewrite (Z.mod_small (k_break (kern p1))) by (unfold U64; lia).
    assert (Hl : heap_live (set_heap (k_break (kern p1)) (k_break (kern p1)) p1)).
    { unfold heap_live. cbn. split_and!; [lia|by rewrite Hbr|done..|]. intros x Hx. lia. }
    eapply wp_mono; [apply (wp_malloc_take _ k Hl); [lia|done]| |done].
    intros r p' Ht. exists (set_heap (k_break (kern p1)) (k_break (kern p1)) p1). split_and!; [done|exact Hm|lia|done].
  - rewrite (proj2 (Z.eqb_neq (heap_cur p) 0)) by (destruct Hl; lia). apply wp_ret.
    eapply wp_mono; [apply (wp_malloc_take _ k Hl); [lia|done]| |done]. intros r p' Ht. by exists p.
Qed.
End Heap.

(** C35. [malloc]: as long as the size is below 2^63, it returns null and leaves the
    blocks as they are, or a new block that is mapped, aligned to 16 bytes and
    apart from every block handed out before; memory already there keeps its
    contents. *)
Theorem malloc_disjoint {K} `{BK : BrkKernel K} {E} (p : Proc K) bs n (X : E -> Proc K -> Prop) :
  owns p bs -> 0 <= n <= 2 ^ 63 ->
  wp (malloc n)
    (fun r p' => mem p ⊆ mem p' /\ (r = 0 /\ owns p' bs \/ 0 < r /\ r mod 16 = 0 /\ owns p' ((r, n) :: bs))) X p.
Proof.
  intros (Hok & Hbs & Hpairs) Hn. destruct (round16 n Hn) as [Hk Hk16]. cbv zeta in *.
  eapply wp_mono; [by apply wp_malloc| |done]. intros r p' (p0 & Hl0 & Hm0 & Hp0 & Hl' & Hsub & Hr). rewrite Hm0 in Hsub. split; [done|].
  assert (Hbs' : forall c, heap_cur p0 <= c -> Forall (fun b => 0 < b.1 /\ 0 <= b.2 /\ b.1 + b.2 <= c /\ mapped (mem p') b.1 b.2) bs).
  { intros c Hc. eapply Forall_impl; [exact Hbs|]. intros b (B1 & B2 & B3 & B4). assert (p0 = p) as -> by (apply Hp0; lia).
    split_and!; [done..|lia|by eapply mapped_mono]. }
  destruct Hl0 as (Hc0 & Hc16 & _). destruct Hr as [[-> Hc]|(-> & Hc & Hmap)]; [left|right].
  - split; [done|]. split; [by right|]. split; [apply Hbs'; lia|done].
  - split; [done|]. split; [done|]. split; [by right|]. split.
    + constructor; [|apply Hbs'; lia]. cbn. split_and!; [done|lia|lia|]. intros x Hx. apply Hmap. lia.
    + constructor; [|done]. eapply Forall_impl; [apply (Hbs' (heap_cur p0)); lia|]. intros b (_ & _ & B3 & _). right. cbn. lia.
Qed.

(** Close to 2^64 the size wraps around: the "block" is the free part itself, and
    the next call returns it again. *)
Lemma malloc_wraps {K} `{BK : BrkKernel K} {E} (p : Proc K) n (X : E -> Proc K -> Prop) :
  heap_live p -> U64 - 15 <= n < U64 ->
  wp (malloc n) (fun r p' => r = heap_cur p /\ 0 < r /\ heap_cur p' = heap_cur p /\ mem p' = mem p) X p.
Proof.
  intros Hl Hn. pose proof Hl as (Hc & _ & Hle & Hlim & _). pose proof (k_break_range (kern p)). unfold malloc. apply wp_bind, wp_get, wp_bind.
  rewrite (proj2 (Z.eqb_neq (heap_cur p) 0)) by lia. apply wp_ret.
  replace ((n + 15) mod U64) with (n + 15 - U64) by (rewrite <- (Z_mod_plus_full (n + 15) (-1)), Z.mod_small; unfold U64 in *; lia).
  assert (Hz : Z.land (n + 15 - U64) (Z.lnot 15) = 0).
  { rewrite <- Z.ldiff_land. change 15 with (Z.ones 4). rewrite Z.ldiff_ones_r, Z.shiftl_mul_pow2, Z.shiftr_div_pow2 by lia.
    rewrite Z.div_small; [done|]. change (Z.ones 4) with 15. unfold U64 in *. lia. }
  rewrite Hz. unfold malloc_take. apply wp_bind, wp_get. rewrite (proj2 (Z.ltb_ge _ 0)) by (apply Z.mod_pos_bound; done).
  apply wp_bind, wp_ret, wp_bind, wp_get, wp_bind, wp_modify, wp_ret. cbn [heap_cur set_heap mem].
  rewrite Z.add_0_r, Z.mod_small by (unfold U64; lia). done.
Qed.

(** ** The environment *)

Section Env.
Context {K : Type} {KI : Kernel K} {E : Type} (X : E -> Proc K -> Prop).
Implicit Types (m : gmap Z byte).

(** A word in memory. *)
Lemma wp_load_n {E'} (X' : E' -> gmap Z byte -> Prop) m l a (Q : list byte -> gmap Z byte -> Prop) :
  holds m a l -> Q l m -> wp (load_n (length l) a) Q X' m.
Proof.
  revert a Q. induction l as [|b l IH]; intros a Q Hh HQ; cbn [load_n length]; [by apply wp_ret|]. apply holds_cons in Hh as [Hb Hh].
  apply wp_bind. eapply wp_load; [exact Hb|]. apply wp_bind. eapply IH; [exact Hh|]. by apply wp_ret.
Qed.

Lemma set_mem_same (p : Proc K) : set_mem (mem p) p = p.
Proof. by destruct p. Qed.

Lemma wp_load_ptr (p : Proc K) a x (Q : Z -> Proc K -> Prop) :
  in_width U64 x -> holds (mem p) a (to_le 8 x) -> Q x p -> wp (load_ptr a) Q X p.
Proof.
  intros Hx Hh HQ. apply wp_bind, wp_in_mem. pose proof (length_to_le 8 x) as Hl. rewrite <- Hl at 1. eapply wp_load_n; [exact Hh|].
  apply wp_ret. rewrite set_mem_same, from_to_le, Z.mod_small by exact Hx. exact HQ.
Qed.

(** [strncmp] of a string with a name, over the length of the name. *)
Lemma wp_strncmp {E'} (X' : E' -> gmap Z byte -> Prop) m a b s t (Q : Z -> gmap Z byte -> Prop) :
  str_at m a s -> str_at m b t ->
  (forall d, (d = 0 <-> t `prefix_of` s) -> Q d m) -> wp (strncmp a b (length t)) Q X' m.
Proof.
  revert a b s. induction t as [|y t IH]; intros a b s Hs Ht HQ; cbn [strncmp length].
  { apply wp_ret, HQ. split; [intros _; apply prefix_nil|done]. }
  apply str_at_cons in Ht as (Hy & Hyz & Ht). destruct s as [|x s].
  - apply str_at_nil in Hs. apply wp_bind. eapply wp_load; [exact Hs|]. apply wp_bind. eapply wp_load; [exact Hy|]. apply wp_ret, HQ. split.
    + intros He. exfalso. apply Hyz, b2z_inj. cbn in *. lia.
    + by intros ?%prefix_nil_inv.
  - apply str_at_cons in Hs as (Hx & Hxz & Hs). apply wp_bind. eapply wp_load; [exact Hx|]. apply wp_bind. eapply wp_load; [exact Hy|].
    rewrite is_nul_false, byte_eqb_spec by done. cbn [negb andb]. case_bool_decide as Hxy.
    + subst y. eapply IH; [exact Hs|exact Ht|]. intros d Hd. apply HQ. rewrite Hd. split; [apply prefix_cons|apply prefix_cons_inv_2].
    + apply wp_ret, HQ. split; [intros He; exfalso; apply Hxy, b2z_inj; lia|intros Hp; by apply prefix_cons_inv_1 in Hp].
Qed.

(** An environment: pointers to strings, then a null pointer. *)
Fixpoint env_at m (e : Z) (entries : list (Z * list byte)) : Prop :=
  match entries with
  | [] => holds m e (to_le 8 0)
  | (ptr, s) :: entries' =>
      holds m e (to_le 8 ptr) /\ in_width U64 ptr /\ ptr <> 0 /\ str_at m ptr s /\ env_at m (e + 8) entries'
  end.

(** The value of the first entry of that name: where it is. *)
Fixpoint env_value (name : list byte) (entries : list (Z * list byte)) : Z :=
  match entries with
  | [] => 0
  | (ptr, s) :: entries' =>
      if bool_decide ((name ++ [x3d]) `prefix_of` s) then ptr + Z.of_nat (length name) + 1 else env_value name entries'
  end.

Lemma prefix_snoc (name s : list byte) c : name `prefix_of` s -> (name ++ [c]) `prefix_of` s <-> s !! length name = Some c.
Proof.
  intros [k ->]. rewrite lookup_app_r, Nat.sub_diag by lia. split.
  - intros [k' E']. rewrite <- app_assoc in E'. apply app_inv_head in E' as ->. done.
  - intros Hk. destruct k as [|c' k]; [done|]. injection Hk as ->. exists k. by rewrite <- app_assoc.
Qed.

(** The byte behind the first [n] bytes of a string, the terminator at the end. *)
Lemma str_at_byte m a s n : str_at m a s -> (n <= length s)%nat ->
  exists c, m !! (a + Z.of_nat n) = Some c /\ (c = x3d <-> s !! n = Some x3d).
Proof.
  intros [Hh Hz] Hn. destruct (s !! n) as [c|] eqn:Ec.
  - exists c. split; [apply Hh; rewrite lookup_app_l by (by eapply lookup_lt_Some); done|]. split; [by intros ->|by intros [= ->]].
  - apply lookup_ge_None in Ec. exists x00. split; [|done]. apply Hh. rewrite lookup_app_r by lia. by replace (n - length s)%nat with 0%nat by lia.
Qed.

Lemma env_at_mapped m e entries : env_at m e entries -> mapped m e (8 * (Z.of_nat (length entries) + 1)).
Proof.
  revert e. induction entries as [|[ptr s] entries IH]; intros e He; cbn [env_at length] in *.
  - apply holds_mapped in He. rewrite length_to_le in He. exact He.
  - destruct He as (Hp & _ & _ & _ & He). apply IH in He. apply holds_mapped in Hp. rewrite length_to_le in Hp. intros x Hx.
    destruct (decide (x < e + 8)); [apply Hp; lia|apply He; lia].
Qed.

Lemma env_at_size m e entries : env_at m e entries -> (length entries <= size m)%nat.
Proof. intros He. apply env_at_mapped in He. apply (mapped_size m e). intros x Hx. apply He. lia. Qed.

Lemma wp_getenv_loop p name nm : str_at (mem p) nm name -> forall entries fuel e,
  env_at (mem p) e entries -> (length entries < fuel)%nat ->
  wp (getenv_loop fuel e nm (Z.of_nat (length name))) (fun r p' => r = env_value name entries /\ p' = p) X p.
Proof.
  intros Hnm. induction entries as [|[ptr s] entries IH]; intros [|fuel] e He Hf; cbn [length] in Hf; try lia; cbn [getenv_loop env_value env_at] in *.
  - apply wp_bind, (wp_load_ptr _ _ 0); [done|exact He|]. by apply wp_ret.
  - destruct He as (Hp & Hw & H0 & Hs & He). apply wp_bind, (wp_load_ptr _ _ ptr); [done..|]. rewrite (proj2 (Z.eqb_neq ptr 0)) by done.
    apply wp_bind, wp_in_mem. rewrite Nat2Z.id. eapply wp_strncmp; [exact Hs|exact Hnm|]. intros d Hd. rewrite set_mem_same.
    destruct (decide (name `prefix_of` s)) as [Hpre|Hpre].
    + assert (d = 0) as -> by (by apply Hd). cbn [Z.eqb]. apply wp_bind, wp_in_mem.
      destruct (str_at_byte _ _ _ _ Hs (prefix_length _ _ Hpre)) as (c & Hc & Hcs). eapply wp_load; [exact Hc|]. rewrite set_mem_same.
      rewrite byte_eqb_spec. case_bool_decide as Hce; case_bool_decide as Hps; rewrite prefix_snoc in Hps by done.
      * by apply wp_ret.
      * by apply Hcs in Hce.
      * by apply Hcs in Hps.
      * apply IH; [done|lia].
    + rewrite (proj2 (Z.eqb_neq d 0)) by (by intros ?%Hd). rewrite bool_decide_false; [apply IH; [done|lia]|].
      intros Hp'. apply Hpre. etrans; [|exact Hp']. by apply prefix_app_r.
Qed.
End Env.

(** [getenv]: the value of the first entry ["name=value"], or null. *)
Theorem getenv_exact {K} `{KI : Kernel K} {E} (p : Proc K) nm name entries (X : E -> Proc K -> Prop) :
  str_at (mem p) nm name -> nm <> 0 -> environ p <> 0 -> env_at (mem p) (environ p) entries ->
  wp (getenv nm) (fun r p' => r = env_value name entries /\ p' = p) X p.
Proof.
  intros Hn Hn0 He0 He. unfold getenv. apply wp_bind, wp_get.
  rewrite (proj2 (Z.eqb_neq _ 0) He0), (proj2 (Z.eqb_neq _ 0) Hn0). cbn [orb]. apply wp_bind, wp_in_mem. eapply wp_strlen; [exact Hn|].
  rewrite set_mem_same. apply wp_bind, wp_get. apply wp_getenv_loop; [done..|]. pose proof (env_at_size _ _ _ He). lia.
Qed.

(** ** Copying, printing and cutting *)

(** [memmove]: the target gets the bytes the source had, also when they overlap, and
    nothing else changes. *)
Theorem memmove_exact {E} m dst src n (X : E -> gmap Z byte -> Prop) :
  0 <= n -> mapped m dst n -> mapped m src n ->
  wp (memmove dst src n) (fun r m' => r = dst /\ m' = poke dst (peek m src (Z.to_nat n)) m) X m.
Proof. intros Hn Hd Hs. by apply wp_memmove. Qed.

(** C34. [vsnprintf]: the text the format and the arguments stand for is in the buffer as
    far as it fits, with a terminator behind it and within the capacity; nothing else
    changes, and the length of the whole text is returned. *)
Theorem vsnprintf_exact {E} m out cap fmt f ap t (X : E -> gmap Z byte -> Prop) :
  mapped m out cap -> str_at m fmt f -> apart fmt (Z.of_nat (length f) + 1) out cap -> formatted m out cap f ap t ->
  wp (vsnprintf out cap fmt ap)
    (fun n m' => n = as_int (Z.of_nat (length t)) /\
       m' = if 0 <? cap then poke out (take (Z.to_nat (cap - 1)) t ++ [x00]) m else m) X m.
Proof. intros Hm Hs Ha Ht. by eapply wp_vsnprintf. Qed.

(** [strtok] in a loop: the pointers it returns are, in order, the fields of the
    string between the delimiters, and only the string itself is changed. *)
Theorem strtok_splits {K} `{KI : Kernel K} {E} (p : Proc K) s delim l ds n (X : E -> Proc K -> Prop) :
  0 < s -> 0 < delim -> str_at (mem p) s l -> str_at (mem p) delim ds ->
  apart s (Z.of_nat (length l) + 1) delim (Z.of_nat (length ds) + 1) -> (length l + 1 < n)%nat ->
  wp (strtok_all n s delim)
    (fun ts p' => Forall2 (str_at (mem p')) ts (fields ds l) /\
       forall x, ~ (s <= x < s + Z.of_nat (length l) + 1) -> mem p' !! x = mem p !! x) X p.
Proof. intros Hs0 Hd0 Hs Hd Ha Hn. apply wp_strtok_all; [done|by left|done..]. Qed.

(** ** A small kernel *)

(** A break between 16 and 65536. *)
Definition clip (k : Z) : Z := Z.max 16 (Z.min k 65536).

#[export] Instance SmallKernel : Kernel Z := {
  syscall nr args x :=
    let b := clip (snd x) in
    match args with
    | [a] => if (nr =? 12) && (b <? a) && (a <=? 65536) then (a, (fst x ∪ poke b (zeros (Z.to_nat (a - b))) ∅, a)) else (b, x)
    | _ => (0, x)
    end
}.

#[export] Instance SmallBrk : BrkKernel Z.
Proof.
  refine {| k_break := clip |}.
  - intros k. unfold clip. lia.
  - intros a m k r m' k' Ha. cbn [syscall SmallKernel fst snd].
    destruct ((12 =? 12) && (clip k <? a) && (a <=? 65536)) eqn:Ec; intros [= <- <- <-]; [|by split; [|left]]. zbool.
    assert (Hk : clip a = a) by (unfold clip in *; lia). rewrite Hk. split; [done|]. right. right. split_and!; [lia|done|apply map_union_subseteq_l|].
    intros x Hx. destruct (m !! x) as [c|] eqn:Em; [exists c; by apply lookup_union_Some_l|]. rewrite lookup_union_r by done.
    exists x00. apply lookup_poke_in'; [|lia]. apply lookup_replicate_2. lia.
Defined.

Definition small_proc (m : gmap Z byte) (env : Z) : Proc Z := mkProc m 0 0 0 0 1 1 0 1 env 4096.

Lemma malloc_disjoint_witness :
  wp (malloc 24) (fun r p' => r = 0 /\ owns p' [] \/ 0 < r /\ r mod 16 = 0 /\ owns p' [(r, 24)]) (fun (_ : Empty_set) _ => False) (small_proc ∅ 0).
Proof.
  eapply wp_mono; [apply (malloc_disjoint (small_proc ∅ 0) [] 24 (fun _ _ => False))| |done].
  - split; [left; done|]. split; constructor.
  - lia.
  - intros r p' [_ H]. exact H.
Defined.

(** Bytes at 64 and at 128. *)
Definition two_strings (a b : list byte) : gmap Z byte := poke 64 (a ++ [x00]) (poke 128 (b ++ [x00]) ∅).

Lemma two_strings_at a b : x00 ∉ a -> x00 ∉ b -> (length a < 64)%nat -> str_at (two_strings a b) 64 a /\ str_at (two_strings a b) 128 b.
Proof.
  intros Ha Hb Hl. split; (split; [|done]); [apply holds_poke_same|]. apply holds_poke_out; [|apply holds_poke_same].
  unfold apart. rewrite !length_app. cbn. lia.
Qed.

Lemma strtok_splits_witness :
  exists ts p', strtok_all 10 64 128 (small_proc (two_strings (bs ",a,bc,") (bs ",")) 0) = (Ret ts : res Empty_set _, p') /\
    Forall2 (str_at (mem p')) ts [bs "a"; bs "bc"].
Proof.
  destruct (two_strings_at (bs ",a,bc,") (bs ",")) as [H1 H2]; [by apply (bool_decide_unpack _)..|cbn; lia|].
  pose proof (strtok_splits (small_proc (two_strings (bs ",a,bc,") (bs ",")) 0) 64 128 (bs ",a,bc,") (bs ",") 10 (fun (_ : Empty_set) _ => False)
    ltac:(lia) ltac:(lia) H1 H2 ltac:(left; cbn; lia) ltac:(cbn; lia)) as H.
  destruct (wp_total _ _ _ H) as (ts & p' & E & Hts & _). by exists ts, p'.
Defined.

Lemma zeros_mapped m a n : mapped (poke a (zeros n) m) a (Z.of_nat n).
Proof. pose proof (holds_mapped _ _ _ (holds_poke_same m a (zeros n))) as H. by rewrite length_zeros in H. Qed.

(** ["%d%%"] of 42, into four bytes. *)
Lemma vsnprintf_exact_witness :
  exists m', vsnprintf 256 4 64 [42] (poke 256 (zeros 4) (two_strings (bs "%d%%") [])) = (Ret 3 : res Empty_set _, m') /\
    m' = poke 256 (bs "42%" ++ [x00]) (poke 256 (zeros 4) (two_strings (bs "%d%%") [])).
Proof.
  set (m := poke 256 (zeros 4) (two_strings (bs "%d%%") [])).
  assert (Hs : str_at m 64 (bs "%d%%")).
  { split; [|by apply (bool_decide_unpack _)]. apply holds_poke_out; [left; cbn; lia|]. apply holds_poke_same. }
  assert (Hn : numeral 10 false 42 (bs "42")).
  { split; [done|right; by exists x34, [x32]|]. constructor; [exists 4; split; [lia|done]|]. constructor; [exists 2; split; [lia|done]|done]. }
  assert (Ht : formatted m 256 4 (bs "%d%%") [42] (bs "42%")).
  { apply (F_convert m 256 4 false x64 (bs "%%") [42] (bs "42") [] (bs "%")).
    - apply (C_signed m 256 4 false x64 42 [] (bs "42")); [by left|done|exact Hn].
    - apply (F_convert m 256 4 false x25 [] [] (bs "%") [] []); constructor. }
  destruct (wp_total _ _ _ (vsnprintf_exact m 256 4 64 (bs "%d%%") [42] (bs "42%") (fun (_ : Empty_set) _ => False) (zeros_mapped _ 256 4) Hs
    ltac:(left; vm_compute; done) Ht)) as (n & m' & E & -> & ->).
  eexists. split; [exact E|reflexivity].
Defined.

(** Four bytes moved up by one, over themselves. *)
Lemma memmove_exact_witness :
  exists m', memmove 101 100 4 (poke 100 (bs "abcde") ∅) = (Ret 101 : res Empty_set _, m') /\ m' = poke 101 (bs "abcd") (poke 100 (bs "abcde") ∅).
Proof.
  assert (Hm : forall a, 100 <= a <= 101 -> mapped (poke 100 (bs "abcde") ∅) a 4).
  { intros a Ha x Hx. apply (holds_mapped _ _ _ (holds_poke_same ∅ 100 (bs "abcde"))). cbn. lia. }
  destruct (wp_total _ _ _ (memmove_exact (poke 100 (bs "abcde") ∅) 101 100 4 (fun (_ : Empty_set) _ => False) ltac:(lia)
    (Hm 101 ltac:(lia)) (Hm 100 ltac:(lia)))) as (r & m' & E & -> & ->). eexists. split; [exact E|]. f_equal.
Defined.

(** -5 is 2^64 - 5 as a word. *)
Lemma strtol_reads_printf_witness :
  let m := poke 256 (zeros 22) (two_strings (bs "%ld") (bs "%lx")) in
  wp (vsnprintf 256 22 64 [U64 - 5] ;;! strtol 256 0 10) (fun r _ => r = -5) (fun (_ : Empty_set) _ => False) m.
Proof.
  intros m. assert (Ht : (x00 ∉ bs "%ld") /\ (x00 ∉ bs "%lx")) by (split; by apply (bool_decide_unpack _)).
  destruct (two_strings_at (bs "%ld") (bs "%lx")) as [H1 H2]; [apply Ht..|cbn; lia|].
  assert (Hs : forall a s, str_at (two_strings (bs "%ld") (bs "%lx")) a s -> a + Z.of_nat (length s) + 1 <= 256 -> str_at m a s).
  { intros a s H Ha. eapply str_at_ext; [|exact H]. intros x Hx. apply lookup_poke_out. lia. }
  destruct (strtol_reads_printf m 256 22 64 128 (U64 - 5) (fun (_ : Empty_set) _ => False)) as [H _];
    [done|apply (zeros_mapped _ 256 22)|done|apply Hs; [exact H1|cbn; lia]|left; lia|apply Hs; [exact H2|cbn; lia]|left; lia|]. apply H. done.
Defined.

(** The environment ["A=1"; "B=2"]: two pointers at 192, and a null pointer. *)
Definition env_mem : gmap Z byte :=
  poke 192 (to_le 8 64 ++ to_le 8 128 ++ to_le 8 0) (poke 32 (bs "B" ++ [x00]) (two_strings (bs "A=1") (bs "B=2"))).

Lemma getenv_exact_witness : getenv 32 (small_proc env_mem 192) = (Ret 130 : res Empty_set _, small_proc env_mem 192).
Proof.
  assert (Hs : forall a s, holds env_mem a (s ++ [x00]) -> x00 ∉ s -> str_at env_mem a s) by done.
  assert (Hh : forall a l, peek env_mem a (length l) = l -> mapped env_mem a (Z.of_nat (length l)) -> holds env_mem a l).
  { intros a l Hp Hm. rewrite <- Hp. by apply mapped_holds. }
  assert (Hm : forall a n, forallb (fun x => bool_decide (is_Some (env_mem !! x))) (seqZ a n) = true -> mapped env_mem a n).
  { intros a n Hf x Hx. rewrite forallb_forall in Hf. specialize (Hf x). apply bool_decide_eq_true in Hf; [done|]. apply list_elem_of_In, elem_of_seqZ. lia. }
  destruct (wp_total _ _ _ (getenv_exact (small_proc env_mem 192) 32 (bs "B") [(64, bs "A=1"); (128, bs "B=2")] (fun (_ : Empty_set) _ => False)
    ltac:(apply Hs; [apply Hh; [vm_compute; done|apply Hm; vm_compute; done]|by apply (bool_decide_unpack _)]) ltac:(done) ltac:(done)
    ltac:(repeat split; try done; try (apply Hh; [vm_compute; done|apply Hm; vm_compute; done]); by apply (bool_decide_unpack _)))) as (r & p' & E & -> & ->).
  exact E.
Defined.
