(* ===== verification/Shell.v ===== *)
(** * The shell

    [user/hello/src/shell.rs]: a line is cut into words in place, redirections and
    one pipe are taken out, and the command is run.  The words are offsets into the
    line's buffer, as the pointers of the code are.  A system call is a [Call] with
    the strings its pointers stand for; the kernel that answers is an interface,
    and a call that does not return ends the program. *)

From stdpp Require Import base numbers list gmap.
From Stdlib Require Import ZArith Lia.
From S2P Require Import Prelude.
#[local] Open Scope Z_scope.

Definition O_RDONLY : Z := 0.
Definition O_WRONLY : Z := 1.
Definition O_CREAT : Z := 64.
Definition O_TRUNC : Z := 512.
Definition O_APPEND : Z := 1024.
Definition MAX_ARGS : nat := 16.

Inductive Call : Type :=
| Read (fd n : Z)
| Write (fd : Z) (s : list byte)
| Open (path : list byte) (flags : Z)
| Close (fd : Z)
| Pipe
| Dup2 (old new : Z)
| Fork
| Execve (path : list byte) (argv : list (list byte))
| Exit (code : Z)
| Wait4 (pid : Z)
| Getcwd (n : Z)
| Chdir (path : list byte).

(** What a call returns, and what it writes to the caller's buffer. *)
Record Answer : Type := mkAnswer { ret : Z; data : list byte; fds : Z * Z }.

(** [None]: the call does not return. *)
Class Sys (K : Type) : Type := { sys_call : Call -> K -> option Answer * K }.

(** How the program ended. *)
Inductive Halt : Type := Ended (c : Call).

Record Redirects : Type := mkRedirects { in_path : option nat; out_path : option nat; append : bool }.

Section Shell.
Context {K : Type} {SI : Sys K}.
#[local] Abbreviation sprog := (prog K Halt).

Definition sys (c : Call) : sprog Answer := fun k =>
  match sys_call c k with (Some a, k') => (Ret a, k') | (None, k') => (Fail (Ended c), k') end.
Definition sc (c : Call) : sprog Z := let! a := sys c in pret (ret a).
Definition do_ (c : Call) : sprog unit := let! _ := sc c in pret tt.

(** [sys_exit], which has no code behind it. *)
Definition sys_exit {A} (code : Z) : sprog A := let! _ := sys (Exit code) in ppanic.

Definition write_str (s : list byte) : sprog unit := do_ (Write 1 s).

Definition is_ws (c : byte) : bool := match c with x20 | x09 | x0a | x0d => true | _ => false end.

Definition at_ {A} (l : list A) (i : nat) : sprog A := punwrap (l !! i).

Fixpoint cstr_eq (buf : list byte) (p : nat) (expected : list byte) : sprog bool :=
  match expected with
  | [] => let! c := at_ buf p in pret (Byte.eqb c x00)
  | e :: expected' => let! c := at_ buf p in if negb (Byte.eqb c e) then pret false else cstr_eq buf (S p) expected'
  end.

(** [i32] arithmetic that wraps. *)
Definition wrap32 (z : Z) : Z := (z + 2 ^ 31) mod 2 ^ 32 - 2 ^ 31.

Fixpoint atoi_loop (fuel : nat) (buf : list byte) (p : nat) (v : Z) : sprog Z :=
  match fuel with
  | O => pdiverge
  | S f =>
      let! c := at_ buf p in
      if (48 <=? b2z c) && (b2z c <=? 57) then atoi_loop f buf (S p) (wrap32 (wrap32 (v * 10) + (b2z c - 48))) else pret v
  end.
Definition atoi (buf : list byte) (p : nat) : sprog Z := atoi_loop (S (length buf)) buf p 0.

Fixpoint has_slash_loop (fuel : nat) (buf : list byte) (p : nat) : sprog bool :=
  match fuel with
  | O => pdiverge
  | S f =>
      let! c := at_ buf p in
      match c with x00 => pret false | x2f => pret true | _ => has_slash_loop f buf (S p) end
  end.
Definition has_slash (buf : list byte) (p : nat) : sprog bool := has_slash_loop (S (length buf)) buf p.

(** [build_bin_path]: the string in a buffer of [len] bytes, without its terminator. *)
Fixpoint copy_cmd (room : nat) (buf : list byte) (p : nat) : sprog (list byte) :=
  match room with
  | O => pret []
  | S room' => let! c := at_ buf p in if Byte.eqb c x00 then pret [] else let! r := copy_cmd room' buf (S p) in pret (c :: r)
  end.
Definition build_bin_path (len : nat) (buf : list byte) (p : nat) : sprog (list byte) :=
  let! r := copy_cmd (len - 1 - 5) buf p in pret (bs "/bin/" ++ r).

(** [while i < n && is_ws(buf[i]) == want { i += 1 }] *)
Fixpoint skip (left : nat) (buf : list byte) (i : nat) (want : bool) : sprog nat :=
  match left with
  | O => pret i
  | S left' => let! c := at_ buf i in if Bool.eqb (is_ws c) want then skip left' buf (S i) want else pret i
  end.

Fixpoint tokenize_loop (fuel : nat) (buf : list byte) (n : nat) (argv : list nat) (i : nat) : sprog (list byte * list nat) :=
  match fuel with
  | O => pdiverge
  | S f =>
      if (i <? n)%nat && (length argv <? MAX_ARGS - 1)%nat then
        let! i := skip (n - i) buf i true in
        if (n <=? i)%nat then pret (buf, argv)
        else
          let start := i in
          let! i := skip (n - i) buf i false in
          let buf := if (i <? length buf)%nat then <[i := x00]> buf else buf in
          tokenize_loop f buf n (argv ++ [start]) (S i)
      else pret (buf, argv)
  end.

(** The buffer with its terminators, and the words; the array ends with a null. *)
Definition tokenize (buf : list byte) (n : nat) : sprog (list byte * list nat) := tokenize_loop (S n) buf n [] 0.

Fixpoint redirects_loop (fuel : nat) (buf : list byte) (tokens : list nat) (i : nat) (clean : list nat) (r : Redirects) :
    sprog (list nat * Redirects) :=
  match fuel with
  | O => pdiverge
  | S f =>
      if (i <? length tokens)%nat && (length clean <? MAX_ARGS - 1)%nat then
        let! tok := at_ tokens i in
        let! out := cstr_eq buf tok (bs ">") in
        let! app := cstr_eq buf tok (bs ">>") in
        let! inp := cstr_eq buf tok (bs "<") in
        if out || app || inp then
          if (i + 1 <? length tokens)%nat then
            let! target := at_ tokens (i + 1) in
            redirects_loop f buf tokens (i + 2) clean
              (if inp : bool then mkRedirects (Some target) (out_path r) (append r) else mkRedirects (in_path r) (Some target) app)
          else redirects_loop f buf tokens (i + 1) clean r
        else redirects_loop f buf tokens (i + 1) (clean ++ [tok]) r
      else pret (clean, r)
  end.

Definition parse_redirects (buf : list byte) (tokens : list nat) : sprog (list nat * Redirects) :=
  redirects_loop (S (length tokens)) buf tokens 0 [] (mkRedirects None None false).

Fixpoint find_pipe (buf : list byte) (tokens : list nat) : sprog (option nat) :=
  match tokens with
  | [] => pret None
  | t :: tokens' =>
      let! b := cstr_eq buf t (bs "|") in
      if b : bool then pret (Some 0%nat) else let! r := find_pipe buf tokens' in pret (S <$> r)
  end.

(** The string the kernel reads at a pointer into the line. *)
Fixpoint until_nul (l : list byte) : list byte := match l with [] => [] | b :: l' => if Byte.eqb b x00 then [] else b :: until_nul l' end.
Definition cstr (buf : list byte) (p : nat) : list byte := until_nul (drop p buf).

Definition apply_redirects (buf : list byte) (r : Redirects) : sprog unit :=
  (match in_path r with
   | Some p =>
       let! fd := sc (Open (cstr buf p) O_RDONLY) in
       if fd <? 0 then write_str (bs "ferros: cannot open input file" ++ [x0a]) ;;! sys_exit 1
       else do_ (Dup2 fd 0) ;;! do_ (Close fd)
   | None => pret tt
   end) ;;!
  match out_path r with
  | Some p =>
      let extra := if append r then O_APPEND else O_TRUNC in
      let! fd := sc (Open (cstr buf p) (Z.lor (Z.lor O_WRONLY O_CREAT) extra)) in
      if fd <? 0 then write_str (bs "ferros: cannot open output file" ++ [x0a]) ;;! sys_exit 1
      else do_ (Dup2 fd 1) ;;! do_ (Close fd)
  | None => pret tt
  end.

Definition exec_command {A} (buf : list byte) (cmd_argv : list nat) (r : Redirects) : sprog A :=
  apply_redirects buf r ;;!
  let! cmd := at_ cmd_argv 0 in
  let! slash := has_slash buf cmd in
  let! path := if slash : bool then pret (cstr buf cmd) else build_bin_path 256 buf cmd in
  do_ (Execve path (cstr buf <$> cmd_argv)) ;;!
  write_str (bs "ferros: command not found" ++ [x0a]) ;;!
  sys_exit 127.

Definition run_pipeline (buf : list byte) (left_argv : list nat) (left_redir : Redirects) (right_argv : list nat) (right_redir : Redirects) :
    sprog unit :=
  let! a := sys Pipe in
  if ret a <? 0 then write_str (bs "ferros: pipe failed" ++ [x0a])
  else
    let '(rfd, wfd) := fds a in
    let! lpid := sc Fork in
    if lpid =? 0 then
      do_ (Dup2 wfd 1) ;;! do_ (Close rfd) ;;! do_ (Close wfd) ;;! exec_command buf left_argv left_redir
    else if lpid <? 0 then
      write_str (bs "ferros: fork failed" ++ [x0a]) ;;! do_ (Close rfd) ;;! do_ (Close wfd)
    else
      let! rpid := sc Fork in
      if rpid =? 0 then
        do_ (Dup2 rfd 0) ;;! do_ (Close rfd) ;;! do_ (Close wfd) ;;! exec_command buf right_argv right_redir
      else
        do_ (Close rfd) ;;! do_ (Close wfd) ;;!
        (if 0 <? lpid then do_ (Wait4 lpid) else pret tt) ;;!
        (if 0 <? rpid then do_ (Wait4 rpid) else pret tt).

(** [&cwd[..n - 1]], of what [getcwd] wrote. *)
Definition show_cwd (a : Answer) : sprog unit :=
  passert (ret a - 1 <=? 256) ;;! write_str (take (Z.to_nat (ret a - 1)) (data a)).

Definition print_prompt : sprog unit :=
  let! a := sys (Getcwd 256) in
  (if 1 <? ret a then show_cwd a else pret tt) ;;!
  write_str (bs "$ ").

(** The words of a line that was read, from the pipe on. *)
Definition run_words (line : list byte) (argv : list nat) : sprog unit :=
  let! pipe := find_pipe line argv in
  match pipe with
  | Some pidx =>
      let! l := parse_redirects line (take pidx argv) in
      let! r := parse_redirects line (drop (pidx + 1) argv) in
      if (length l.1 =? 0)%nat || (length r.1 =? 0)%nat then write_str (bs "ferros: syntax error near `|`" ++ [x0a])
      else run_pipeline line l.1 l.2 r.1 r.2
  | None =>
      let! c := parse_redirects line argv in
      let '(cmd_argv, redir) := c in
      if (length cmd_argv =? 0)%nat then pret tt
      else
        let! cmd := at_ cmd_argv 0 in
        let! is_exit := cstr_eq line cmd (bs "exit") in
        if is_exit : bool then
          let! code := if (1 <? length cmd_argv)%nat then let! p := at_ cmd_argv 1 in atoi line p else pret 0 in
          sys_exit (code mod U64)
        else
          let! is_cd := cstr_eq line cmd (bs "cd") in
          if is_cd : bool then
            let! target := if (1 <? length cmd_argv)%nat then let! p := at_ cmd_argv 1 in pret (cstr line p) else pret (bs "/") in
            let! r := sc (Chdir target) in
            if r <? 0 then write_str (bs "cd: no such directory" ++ [x0a]) else pret tt
          else
            let! is_pwd := cstr_eq line cmd (bs "pwd") in
            if is_pwd : bool then
              let! a := sys (Getcwd 256) in
              if 1 <? ret a then show_cwd a ;;! write_str [x0a] else pret tt
            else
              let! pid := sc Fork in
              if pid =? 0 then exec_command line cmd_argv redir
              else if 0 <? pid then do_ (Wait4 pid)
              else write_str (bs "ferros: fork failed" ++ [x0a])
  end.

(** One turn of the loop of [_start], on the buffer of the line. *)
Definition turn (line : list byte) : sprog (list byte) :=
  print_prompt ;;!
  let! a := sys (Read 0 255) in
  if ret a <=? 0 then sys_exit 0
  else
    let n := Z.to_nat (ret a) in
    let line := take n (data a) ++ drop n line in
    let! t := tokenize line n in
    let '(line, argv) := t in
    if (length argv =? 0)%nat then pret line else run_words line argv ;;! pret line.

Fixpoint turns (n : nat) (line : list byte) : sprog (list byte) :=
  match n with O => pret line | S n' => let! line := turn line in turns n' line end.
End Shell.
