(* ===== verification/ShellTheorems.v ===== *)
(** * The shell: theorems

    The line is cut into the words between blanks, at most 15 of them; the shell
    runs exactly the command those words stand for; and a pipeline connects its
    commands and leaves no descriptor open behind. *)

From stdpp Require Import base numbers list gmap.
From Stdlib Require Import ZArith Lia.
From S2P Require Import Prelude Uaccess Mem LibcStr LibcSpec Shell.
#[local] Open Scope Z_scope.

(** ** Words *)

(** A word at [p], with its terminator. *)
Definition word_at (buf : list byte) (p : nat) (w : list byte) : Prop :=
  (forall i b, (w ++ [x00]) !! i = Some b -> buf !! (p + i)%nat = Some b) /\ x00 ∉ w.

Definition blanks : list byte := [x20; x09; x0a; x0d].

Lemma is_ws_blank c : is_ws c = bool_decide (c ∈ blanks).
Proof.
  destruct (is_ws c) eqn:Hc; symmetry.
  - apply bool_decide_eq_true. unfold blanks. rewrite !elem_of_cons. destruct c; try done; naive_solver.
  - apply bool_decide_eq_false. intros Hin. unfold blanks in Hin. rewrite !elem_of_cons in Hin.
    destruct Hin as [->|[->|[->|[->|Hn]]]]; try done. by apply not_elem_of_nil in Hn.
Qed.

(** A program that only computes. *)
Definition gives {S E A} (m : prog S E A) (a : A) : Prop := forall s, m s = (Ret a, s).

Section Words.
Context {K : Type} {SI : Sys K}.
#[local] Abbreviation sprog := (prog K Halt).

Lemma gives_ret {A} (a : A) : gives (pret a : sprog A) a.
Proof. done. Qed.

Lemma gives_bind {A B} (m : sprog A) (f : A -> sprog B) a b : gives m a -> gives (f a) b -> gives (pbind m f) b.
Proof. intros Hm Hf s. rewrite (pbind_step m f s a s (Hm s)). apply Hf. Qed.

Lemma gives_at {A} (l : list A) i x : l !! i = Some x -> gives (at_ l i : sprog A) x.
Proof. intros Hl s. unfold at_. by rewrite Hl. Qed.

(** What is left of the line from [i] on. *)
Definition rest (buf : list byte) (n i : nat) : list byte := drop i (take n buf).

Lemma rest_S buf n i c : (i < n)%nat -> buf !! i = Some c -> rest buf n i = c :: rest buf n (S i).
Proof.
  intros Hi Hc. unfold rest. assert (Ht : take n buf !! i = Some c) by (by rewrite lookup_take_lt).
  by rewrite (drop_S _ c _ Ht).
Qed.

Lemma gives_skip buf n want : forall i, (n <= length buf)%nat ->
  gives (skip (n - i) buf i want : sprog nat) (i + length (prefix_in blanks want (rest buf n i)))%nat.
Proof.
  intros i Hn. remember (n - i)%nat as left eqn:El. revert i El. induction left as [|left IH]; intros i El; cbn [skip].
  - unfold rest. rewrite drop_ge by (rewrite length_take; lia). cbn. rewrite Nat.add_0_r. apply gives_ret.
  - destruct (lookup_lt_is_Some_2 buf i) as [c Hc]; [lia|]. eapply gives_bind; [by apply gives_at|].
    rewrite (rest_S buf n i c) by (done || lia). cbn [prefix_in]. rewrite is_ws_blank.
    destruct (Bool.eqb _ want); cbn [length]; [|rewrite Nat.add_0_r; apply gives_ret].
    replace (i + S (length (prefix_in blanks want (rest buf n (S i)))))%nat with (S i + length (prefix_in blanks want (rest buf n (S i))))%nat by lia.
    apply IH. lia.
Qed.

Lemma rest_app buf n i l k : rest buf n i = l ++ k -> rest buf n (i + length l) = k.
Proof. unfold rest. intros H. by rewrite <- drop_drop, H, drop_app_length. Qed.

Lemma rest_insert buf n i e : (e < i)%nat -> rest (<[e := x00]> buf) n i = rest buf n i.
Proof.
  intros He. unfold rest. apply list_eq. intros j. rewrite !lookup_drop. destruct (decide (i + j < n)%nat) as [Hj|Hj].
  - rewrite !lookup_take_lt by done. rewrite list_lookup_insert_ne by lia. done.
  - rewrite !lookup_take_ge by lia. done.
Qed.

Lemma rest_lookup buf n i j : rest buf n i !! j = if decide (i + j < n)%nat then buf !! (i + j)%nat else None.
Proof. unfold rest. rewrite lookup_drop. case_decide; [by rewrite lookup_take_lt|by rewrite lookup_take_ge by lia]. Qed.

(** The first word of the rest, once terminated. *)
Lemma word_at_insert buf n i w k :
  (n < length buf)%nat -> rest buf n i = w ++ k -> x00 ∉ w -> (i + length w <= n)%nat ->
  word_at (<[(i + length w)%nat := x00]> buf) i w.
Proof.
  intros Hn Hr Hz Hl. split; [|done]. intros j b Hj. destruct (decide (j < length w)%nat) as [Hj'|Hj'].
  - rewrite lookup_app_l in Hj by done. rewrite list_lookup_insert_ne by lia.
    assert (Hb : rest buf n i !! j = Some b) by (by rewrite Hr, lookup_app_l). rewrite rest_lookup in Hb. by case_decide.
  - rewrite lookup_app_r in Hj by lia. assert (j = length w) as -> by (apply lookup_lt_Some in Hj; cbn in Hj; lia).
    rewrite Nat.sub_diag in Hj. injection Hj as <-. rewrite list_lookup_insert_eq by lia. done.
Qed.

Lemma word_at_ext buf buf' p w e :
  (p + length w < e)%nat -> (forall j, (j < e)%nat -> buf' !! j = buf !! j) -> word_at buf p w -> word_at buf' p w.
Proof.
  intros He Hx [Hw Hz]. split; [|done]. intros i b Hi. rewrite Hx; [by apply Hw|].
  apply lookup_lt_Some in Hi. rewrite length_app in Hi. cbn in Hi. lia.
Qed.

Lemma rest_nil buf n i : (n <= length buf)%nat -> rest buf n i = [] <-> (n <= i)%nat.
Proof.
  intros Hn. unfold rest. split; [|intros; apply drop_ge; rewrite length_take; lia].
  intros H%(f_equal length). rewrite length_drop, length_take in H. cbn in H. lia.
Qed.

Lemma rest_bound buf n i l k : (n <= length buf)%nat -> (i <= n)%nat -> rest buf n i = l ++ k -> (i + length l <= n)%nat.
Proof. intros Hn Hi H%(f_equal length). unfold rest in H. rewrite length_drop, length_take, length_app in H. lia. Qed.

(** Only blanks are left. *)
Lemma skip_blanks buf n i :
  (n <= length buf)%nat -> suffix_in blanks true (rest buf n i) = [] ->
  exists i1, gives (skip (n - i) buf i true : sprog nat) i1 /\ (n <= i1)%nat.
Proof.
  intros Hn Hs. eexists. split; [by apply gives_skip|]. apply (rest_nil buf); [done|]. rewrite <- Hs at 1. apply rest_app, prefix_suffix.
Qed.

(** The next word, and where it ends. *)
Lemma skip_word buf n i b l1 :
  (n <= length buf)%nat -> (i <= n)%nat -> suffix_in blanks true (rest buf n i) = b :: l1 ->
  let w := prefix_in blanks false (b :: l1) in
  exists i1, (i <= i1 < n)%nat /\ (i1 + length w <= n)%nat /\ gives (skip (n - i) buf i true : sprog nat) i1 /\
    gives (skip (n - i1) buf i1 false : sprog nat) (i1 + length w)%nat /\
    rest buf n i1 = w ++ suffix_in blanks false (b :: l1) /\ rest buf n (i1 + length w) = suffix_in blanks false (b :: l1).
Proof.
  intros Hn Hi Hs w. pose proof (prefix_suffix blanks true (rest buf n i)) as E1. rewrite Hs in E1.
  pose proof (rest_app _ _ _ _ _ E1) as Hr. set (i1 := (i + _)%nat) in Hr. exists i1.
  pose proof (rest_bound _ _ _ _ _ Hn Hi E1) as Hb1. fold i1 in Hb1.
  pose proof (prefix_suffix blanks false (b :: l1)) as E2. fold w in E2.
  assert (Hlt : (i1 < n)%nat) by (destruct (decide (n <= i1)%nat) as [H|H]; [apply (rest_nil buf) in H; [congruence|done]|lia]).
  assert (Hr2 : rest buf n i1 = w ++ suffix_in blanks false (b :: l1)) by congruence.
  split_and!; [lia|done|by eapply rest_bound|by apply gives_skip| |done|by apply rest_app].
  pose proof (gives_skip buf n false i1 Hn) as Hg. rewrite Hr in Hg. exact Hg.
Qed.

(** The loop of [tokenize] from [i] on: it terminates the next words and lists them. *)
Lemma tokenize_loop_words fuel : forall buf n argv i,
  (n < length buf)%nat -> x00 ∉ rest buf n i -> (n - i < fuel)%nat ->
  exists buf' ps, gives (tokenize_loop fuel buf n argv i : sprog _) (buf', argv ++ ps) /\
    Forall2 (word_at buf') ps (take (MAX_ARGS - 1 - length argv) (fields blanks (rest buf n i))) /\
    length buf' = length buf /\ forall j, (j < i)%nat -> buf' !! j = buf !! j.
Proof.
  induction fuel as [|fuel IH]; intros buf n argv i Hn Hz Hf; [lia|]. cbn [tokenize_loop].
  destruct ((i <? n)%nat && (length argv <? MAX_ARGS - 1)%nat) eqn:Eg.
  2:{ exists buf, []. rewrite app_nil_r. split; [apply gives_ret|]. split; [|by split]. apply andb_false_iff in Eg. rewrite !Nat.ltb_ge in Eg.
      destruct Eg as [Eg|Eg]; [rewrite (proj2 (rest_nil buf n i ltac:(lia)) Eg); by destruct (MAX_ARGS - 1 - length argv)%nat|].
      replace (MAX_ARGS - 1 - length argv)%nat with 0%nat by lia. done. }
  apply andb_true_iff in Eg. rewrite !Nat.ltb_lt in Eg. destruct Eg as [Ei Ea]. rewrite fields_unfold.
  destruct (suffix_in blanks true (rest buf n i)) as [|b l1] eqn:Es.
  { destruct (skip_blanks buf n i ltac:(lia) Es) as (i1 & Hg & Hge). exists buf, []. rewrite app_nil_r, take_nil. split; [|by split_and!].
    eapply gives_bind; [exact Hg|]. rewrite (proj2 (Nat.leb_le n i1)) by done. apply gives_ret. }
  destruct (skip_word buf n i b l1 ltac:(lia) ltac:(lia) Es) as (i1 & Hi1 & Hi2 & Hg1 & Hg2 & Hr1 & Hr2).
  set (w := prefix_in blanks false (b :: l1)) in *. set (i2 := (i1 + length w)%nat) in *. set (buf1 := <[i2 := x00]> buf).
  assert (Hzw : x00 ∉ w ++ suffix_in blanks false (b :: l1)).
  { rewrite <- Hr1. intros Hin. apply Hz. unfold rest in *. replace i1 with (i + (i1 - i))%nat in Hin by lia. rewrite <- drop_drop in Hin.
    rewrite <- (take_drop (i1 - i) (drop i (take n buf))). apply elem_of_app. by right. }
  assert (Hw : word_at buf1 i1 w) by (eapply word_at_insert; [done|exact Hr1|set_solver|done]).
  assert (Hrest : rest buf1 n (S i2) = tail (suffix_in blanks false (b :: l1))).
  { unfold buf1. rewrite rest_insert by lia. rewrite <- Hr2. unfold rest. replace (S i2) with (i2 + 1)%nat by lia.
    rewrite <- drop_drop. by destruct (drop i2 _). }
  destruct (IH buf1 n (argv ++ [i1]) (S i2)) as (buf' & ps & Hg & Hps & Hl & Hx).
  { unfold buf1. by rewrite length_insert. }
  { rewrite Hrest. intros Hin. apply Hzw, elem_of_app. right. by destruct (suffix_in blanks false (b :: l1)); [|right]. }
  { lia. }
  exists buf', (i1 :: ps). rewrite <- app_assoc in Hg. split_and!.
  - eapply gives_bind; [exact Hg1|]. rewrite (proj2 (Nat.leb_gt n i1)) by lia. eapply gives_bind; [exact Hg2|].
    rewrite (proj2 (Nat.ltb_lt i2 (length buf))) by lia. exact Hg.
  - rewrite length_app in Hps. cbn [length] in Hps. destruct (MAX_ARGS - 1 - length argv)%nat as [|k] eqn:Ek; [lia|]. cbn [firstn take].
    constructor; [eapply word_at_ext; [|exact Hx|exact Hw]; fold w; unfold i2; lia|]. replace (MAX_ARGS - 1 - (length argv + 1))%nat with k in Hps by lia.
    rewrite Hrest in Hps. by destruct (suffix_in blanks false (b :: l1)).
  - rewrite Hl. apply length_insert.
  - intros j Hj. rewrite Hx by lia. unfold buf1. apply list_lookup_insert_ne. lia.
Qed.

Lemma tokenize_words buf n :
  (n < length buf)%nat -> x00 ∉ take n buf ->
  exists buf' argv, gives (tokenize buf n : sprog _) (buf', argv) /\ length buf' = length buf /\
    Forall2 (word_at buf') argv (take (MAX_ARGS - 1) (fields blanks (take n buf))).
Proof.
  intros Hn Hz. destruct (tokenize_loop_words (S n) buf n [] 0 Hn Hz ltac:(lia)) as (buf' & ps & Hg & Hps & Hl & _). by exists buf', ps.
Qed.
End Words.

(** ** Commands *)

(** The redirections of a command, as words. *)
Record Reds : Type := mkReds { r_in : option (list byte); r_out : option (list byte); r_append : bool }.

Definition is_redirect (t : list byte) : bool := bool_decide (t = bs ">") || bool_decide (t = bs ">>") || bool_decide (t = bs "<").

Definition redirect (t u : list byte) (r : Reds) : Reds :=
  if bool_decide (t = bs "<") then mkReds (Some u) (r_out r) (r_append r) else mkReds (r_in r) (Some u) (bool_decide (t = bs ">>")).

(** The words that are left, and the redirections; an operator at the end is dropped. *)
Fixpoint redirected (ws clean : list (list byte)) (r : Reds) : list (list byte) * Reds :=
  match ws with
  | [] => (clean, r)
  | t :: rest =>
      if is_redirect t then match rest with [] => (clean, r) | u :: rest' => redirected rest' clean (redirect t u r) end
      else redirected rest (clean ++ [t]) r
  end.
Definition redirects (ws : list (list byte)) : list (list byte) * Reds := redirected ws [] (mkReds None None false).

(** The words before and after the first bar. *)
Fixpoint at_bar (ws : list (list byte)) : option (list (list byte) * list (list byte)) :=
  match ws with
  | [] => None
  | w :: ws' => if bool_decide (w = bs "|") then Some ([], ws') else p ← at_bar ws'; Some (w :: p.1, p.2)
  end.

Inductive Command : Type :=
| CNothing
| CSyntax
| CPipe (left : list (list byte)) (lr : Reds) (right : list (list byte)) (rr : Reds)
| CExit (code : Z)
| CCd (path : list byte)
| CPwd
| CRun (argv : list (list byte)) (r : Reds).

(** The decimal number a word starts with, in 32 bits. *)
Fixpoint leading_number (v : Z) (w : list byte) : Z :=
  match w with
  | [] => v
  | c :: w' => if (48 <=? b2z c) && (b2z c <=? 57) then leading_number (wrap32 (wrap32 (v * 10) + (b2z c - 48))) w' else v
  end.

Definition simple_command (ws : list (list byte)) : Command :=
  match redirects ws with
  | ([], _) => CNothing
  | (cmd :: args, r) =>
      if bool_decide (cmd = bs "exit") then CExit (match args with [] => 0 | a :: _ => leading_number 0 a end mod U64)
      else if bool_decide (cmd = bs "cd") then CCd (match args with [] => bs "/" | a :: _ => a end)
      else if bool_decide (cmd = bs "pwd") then CPwd
      else CRun (cmd :: args) r
  end.

Definition command (ws : list (list byte)) : Command :=
  match at_bar ws with
  | Some (l, r) =>
      match redirects l, redirects r with
      | ([], _), _ => CSyntax
      | _, ([], _) => CSyntax
      | (l, lr), (r, rr) => CPipe l lr r rr
      end
  | None => simple_command ws
  end.

Section Run.
Context {K : Type} {SI : Sys K}.
#[local] Abbreviation sprog := (prog K Halt).

Definition run_reds (r : Reds) : sprog unit :=
  (match r_in r with
   | Some path =>
       let! fd := sc (Open path O_RDONLY) in
       if fd <? 0 then write_str (bs "ferros: cannot open input file" ++ [x0a]) ;;! sys_exit 1 else do_ (Dup2 fd 0) ;;! do_ (Close fd)
   | None => pret tt
   end) ;;!
  match r_out r with
  | Some path =>
      let! fd := sc (Open path (Z.lor (Z.lor O_WRONLY O_CREAT) (if r_append r then O_APPEND else O_TRUNC))) in
      if fd <? 0 then write_str (bs "ferros: cannot open output file" ++ [x0a]) ;;! sys_exit 1 else do_ (Dup2 fd 1) ;;! do_ (Close fd)
  | None => pret tt
  end.

(** A name without a slash is looked for in [/bin]. *)
Definition program_path (cmd : list byte) : list byte := if bool_decide (x2f ∈ cmd) then cmd else bs "/bin/" ++ take 250 cmd.

Definition exec_words {A} (argv : list (list byte)) (r : Reds) : sprog A :=
  run_reds r ;;!
  do_ (Execve (program_path (default [] (head argv))) argv) ;;!
  write_str (bs "ferros: command not found" ++ [x0a]) ;;!
  sys_exit 127.

Definition run_pipe (l : list (list byte)) (lr : Reds) (r : list (list byte)) (rr : Reds) : sprog unit :=
  let! a := sys Pipe in
  if ret a <? 0 then write_str (bs "ferros: pipe failed" ++ [x0a])
  else
    let '(rfd, wfd) := fds a in
    let! lpid := sc Fork in
    if lpid =? 0 then do_ (Dup2 wfd 1) ;;! do_ (Close rfd) ;;! do_ (Close wfd) ;;! exec_words l lr
    else if lpid <? 0 then write_str (bs "ferros: fork failed" ++ [x0a]) ;;! do_ (Close rfd) ;;! do_ (Close wfd)
    else
      let! rpid := sc Fork in
      if rpid =? 0 then do_ (Dup2 rfd 0) ;;! do_ (Close rfd) ;;! do_ (Close wfd) ;;! exec_words r rr
      else
        do_ (Close rfd) ;;! do_ (Close wfd) ;;! do_ (Wait4 lpid) ;;!
        (if 0 <? rpid then do_ (Wait4 rpid) else pret tt).

Definition run_command (c : Command) : sprog unit :=
  match c with
  | CNothing => pret tt
  | CSyntax => write_str (bs "ferros: syntax error near `|`" ++ [x0a])
  | CPipe l lr r rr => run_pipe l lr r rr
  | CExit code => sys_exit code
  | CCd path => let! r := sc (Chdir path) in if r <? 0 then write_str (bs "cd: no such directory" ++ [x0a]) else pret tt
  | CPwd => let! a := sys (Getcwd 256) in if 1 <? ret a then show_cwd a ;;! write_str [x0a] else pret tt
  | CRun argv r =>
      let! pid := sc Fork in
      if pid =? 0 then exec_words argv r
      else if 0 <? pid then do_ (Wait4 pid)
      else write_str (bs "ferros: fork failed" ++ [x0a])
  end.
End Run.

(** ** The code runs the command *)

(** Programs that do the same from every state. *)
Definition peq {S E A} (m m' : prog S E A) : Prop := forall s, m s = m' s.
Infix "≈" := peq (at level 70) : kernel_scope.
#[local] Open Scope kernel_scope.

#[export] Instance peq_equiv {S E A} : Equivalence (@peq S E A).
Proof. split; [by intros m s|by intros m m' H s|intros m1 m2 m3 H1 H2 s; by rewrite H1, H2]. Qed.

#[export] Instance pbind_proper {S E A B} : Proper (peq ==> pointwise_relation A peq ==> peq) (@pbind S E A B).
Proof. intros m m' Hm f f' Hf s. unfold pbind. rewrite Hm. destruct (m' s) as [[] ?]; try done. apply Hf. Qed.

Lemma peq_gives {S E A B} (m : prog S E A) (f : A -> prog S E B) a : gives m a -> pbind m f ≈ f a.
Proof. intros Hm s. by apply pbind_step. Qed.

Section Refine.
Context {K : Type} {SI : Sys K}.
#[local] Abbreviation sprog := (prog K Halt).
Context (buf : list byte).

Lemma word_at_byte p w i b : word_at buf p w -> (w ++ [x00]) !! i = Some b -> buf !! (p + i)%nat = Some b.
Proof. intros [Hw _]. apply Hw. Qed.

Lemma word_at_cons p b w : word_at buf p (b :: w) -> buf !! p = Some b /\ b <> x00 /\ word_at buf (S p) w.
Proof.
  intros [Hw Hz]. apply not_elem_of_cons in Hz as [Hb Hz]. split; [rewrite <- (Nat.add_0_r p); by apply Hw|]. split; [done|].
  split; [|done]. intros i c Hi. replace (S p + i)%nat with (p + S i)%nat by lia. by apply Hw.
Qed.

Lemma word_at_nil p : word_at buf p [] -> buf !! p = Some x00.
Proof. intros [Hw _]. rewrite <- (Nat.add_0_r p). by apply Hw. Qed.

Lemma gives_cstr_eq p w e : word_at buf p w -> x00 ∉ e -> gives (cstr_eq buf p e : sprog bool) (bool_decide (w = e)).
Proof.
  revert p w. induction e as [|c e IH]; intros p w Hw He; cbn [cstr_eq].
  - destruct w as [|b w].
    + eapply gives_bind; [apply gives_at, word_at_nil, Hw|]. apply gives_ret.
    + apply word_at_cons in Hw as (Hb & Hz & _). eapply gives_bind; [by apply gives_at|]. rewrite byte_eqb_spec, !bool_decide_false by done. apply gives_ret.
  - apply not_elem_of_cons in He as [Hc He]. destruct w as [|b w].
    + eapply gives_bind; [apply gives_at, word_at_nil, Hw|]. rewrite byte_eqb_spec, !bool_decide_false by done. apply gives_ret.
    + apply word_at_cons in Hw as (Hb & Hz & Hw). eapply gives_bind; [by apply gives_at|]. rewrite byte_eqb_spec. case_bool_decide as Hbc; cbn [negb].
      * subst c. replace (bool_decide (b :: w = b :: e)) with (bool_decide (w = e)); [by apply IH|]. apply bool_decide_ext. naive_solver.
      * rewrite bool_decide_false by congruence. apply gives_ret.
Qed.

Lemma cstr_word p w : word_at buf p w -> cstr buf p = w.
Proof.
  unfold cstr. revert p. induction w as [|b w IH]; intros p Hw.
  - apply word_at_nil in Hw. by rewrite (drop_S _ _ _ Hw).
  - apply word_at_cons in Hw as (Hb & Hz & Hw). rewrite (drop_S _ _ _ Hb). cbn [until_nul]. rewrite byte_eqb_spec, bool_decide_false by done.
    f_equal. by apply IH.
Qed.

Lemma word_at_length p w : word_at buf p w -> (p + length w < length buf)%nat.
Proof. intros [Hw _]. eapply lookup_lt_Some, Hw. by rewrite lookup_app_r, Nat.sub_diag by lia. Qed.

Lemma gives_has_slash p w : word_at buf p w -> gives (has_slash buf p : sprog bool) (bool_decide (x2f ∈ w)).
Proof.
  intros Hw. unfold has_slash. pose proof (word_at_length _ _ Hw) as Hl. assert (Hf : (length w < S (length buf))%nat) by lia. clear Hl.
  revert p Hw Hf. generalize (S (length buf)). intros fuel. revert fuel. induction w as [|b w IH]; intros [|fuel] p Hw Hf; cbn [length has_slash_loop] in *; try lia.
  - eapply gives_bind; [apply gives_at, word_at_nil, Hw|]. apply gives_ret.
  - apply word_at_cons in Hw as (Hb & Hz & Hw). eapply gives_bind; [by apply gives_at|].
    assert (Hcase : b = x2f \/ b <> x2f) by (destruct (decide (b = x2f)); auto). destruct Hcase as [->|Hne].
    + rewrite bool_decide_true by (by left). apply gives_ret.
    + replace (bool_decide (x2f ∈ b :: w)) with (bool_decide (x2f ∈ w)) by (apply bool_decide_ext; rewrite elem_of_cons; naive_solver).
      assert (He : (match b with x00 => pret false | x2f => pret true | _ => has_slash_loop fuel buf (S p) end : sprog bool) = has_slash_loop fuel buf (S p))
        by (by destruct b).
      rewrite He. apply IH; [done|lia].
Qed.

Lemma gives_copy_cmd room p w : word_at buf p w -> gives (copy_cmd room buf p : sprog (list byte)) (take room w).
Proof.
  revert p w. induction room as [|room IH]; intros p w Hw; cbn [copy_cmd]; [apply gives_ret|]. destruct w as [|b w].
  - eapply gives_bind; [apply gives_at, word_at_nil, Hw|]. apply gives_ret.
  - apply word_at_cons in Hw as (Hb & Hz & Hw). eapply gives_bind; [by apply gives_at|]. rewrite byte_eqb_spec, bool_decide_false by done.
    eapply gives_bind; [by apply IH|]. apply gives_ret.
Qed.

Lemma gives_atoi p w : word_at buf p w -> gives (atoi buf p : sprog Z) (leading_number 0 w).
Proof.
  intros Hw. unfold atoi. pose proof (word_at_length _ _ Hw) as Hl. assert (Hf : (length w < S (length buf))%nat) by lia. clear Hl.
  revert p Hw Hf. generalize 0%Z. generalize (S (length buf)). intros fuel. revert fuel.
  induction w as [|b w IH]; intros [|fuel] v p Hw Hf; cbn [length atoi_loop leading_number] in *; try lia.
  - eapply gives_bind; [apply gives_at, word_at_nil, Hw|]. apply gives_ret.
  - apply word_at_cons in Hw as (Hb & Hz & Hw). eapply gives_bind; [by apply gives_at|]. destruct (_ && _); [apply IH; [done|lia]|apply gives_ret].
Qed.

Definition words_at (ps : list nat) (ws : list (list byte)) : Prop := Forall2 (word_at buf) ps ws.

Definition reds_at (r : Redirects) (a : Reds) : Prop :=
  option_Forall2 (word_at buf) (in_path r) (r_in a) /\ option_Forall2 (word_at buf) (out_path r) (r_out a) /\ append r = r_append a.

Lemma redirects_loop_words tokens ws : words_at tokens ws -> (length tokens <= MAX_ARGS - 1)%nat -> forall fuel i clean cws r a,
  (length tokens - i < fuel)%nat -> (length clean <= i)%nat -> words_at clean cws -> reds_at r a ->
  exists clean' r', gives (redirects_loop fuel buf tokens i clean r : sprog _) (clean', r') /\
    words_at clean' (redirected (drop i ws) cws a).1 /\ reds_at r' (redirected (drop i ws) cws a).2.
Proof.
  intros Hts Hmax. induction fuel as [|fuel IH]; intros i clean cws r a Hf Hci Hc Hr; [lia|]. cbn [redirects_loop].
  pose proof (Forall2_length _ _ _ Hts) as Hlen.
  destruct (i <? length tokens)%nat eqn:Ei; cbn [andb].
  2:{ apply Nat.ltb_ge in Ei. rewrite drop_ge by lia. exists clean, r. split; [apply gives_ret|done]. }
  apply Nat.ltb_lt in Ei. rewrite (proj2 (Nat.ltb_lt (length clean) (MAX_ARGS - 1))) by lia.
  destruct (lookup_lt_is_Some_2 tokens i Ei) as [tok Htok]. destruct (Forall2_lookup_l _ _ _ _ _ Hts Htok) as (t & Ht & Htw).
  rewrite (drop_S _ _ _ Ht). cbn [redirected]. unfold is_redirect.
  assert (Hops : forall s, s ∈ [bs ">"; bs ">>"; bs "<"] -> gives (cstr_eq buf tok s : sprog bool) (bool_decide (t = s))).
  { intros s Hs. apply gives_cstr_eq; [done|]. rewrite !elem_of_cons, elem_of_nil in Hs. destruct Hs as [->|[->|[->|[]]]]; by apply (bool_decide_unpack _). }
  set (o := bool_decide (t = bs ">")). set (ap := bool_decide (t = bs ">>")). set (inp := bool_decide (t = bs "<")).
  assert (Hchain : forall f x, gives (f tok o ap inp : sprog (list nat * Redirects)) x ->
    gives (let! tok := at_ tokens i in let! out := cstr_eq buf tok (bs ">") in let! app := cstr_eq buf tok (bs ">>") in
           let! inp := cstr_eq buf tok (bs "<") in f tok out app inp : sprog _) x).
  { intros f x Hx. eapply gives_bind; [by apply gives_at|]. do 3 (eapply gives_bind; [apply Hops; set_solver|]). exact Hx. }
  replace (S i) with (i + 1)%nat by lia. destruct (o || ap || inp) eqn:Eop.
  - destruct (decide (i + 1 < length tokens)%nat) as [Hi|Hi].
    + destruct (lookup_lt_is_Some_2 tokens _ Hi) as [target Htg]. destruct (Forall2_lookup_l _ _ _ _ _ Hts Htg) as (u & Hu & Huw).
      rewrite (drop_S _ _ _ Hu). replace (S (i + 1)) with (i + 2)%nat by lia.
      destruct (IH (i + 2)%nat clean cws (if inp then mkRedirects (Some target) (out_path r) (append r) else mkRedirects (in_path r) (Some target) ap)
        (redirect t u a)) as (c' & r' & Hg & Hres); [lia|lia|done| |].
      { destruct Hr as (R1 & R2 & R3). unfold redirect. fold inp ap. destruct inp; split_and!; cbn; try done; by constructor. }
      exists c', r'. split; [|exact Hres]. apply Hchain. rewrite Eop, (proj2 (Nat.ltb_lt (i + 1) (length tokens))) by done.
      eapply gives_bind; [by apply gives_at|]. exact Hg.
    + rewrite (drop_ge ws) by lia. destruct (IH (i + 1)%nat clean cws r a) as (c' & r' & Hg & Hres); [lia|lia|done|done|].
      rewrite drop_ge in Hres by lia. exists c', r'. split; [|exact Hres]. apply Hchain. rewrite Eop, (proj2 (Nat.ltb_ge (i + 1) (length tokens))) by lia. exact Hg.
  - destruct (IH (i + 1)%nat (clean ++ [tok]) (cws ++ [t]) r a) as (c' & r' & Hg & Hres); [lia|rewrite length_app; cbn; lia| |done|].
    { apply Forall2_app; [done|by constructor]. }
    exists c', r'. split; [|exact Hres]. apply Hchain. by rewrite Eop.
Qed.

Lemma parse_redirects_words tokens ws :
  words_at tokens ws -> (length tokens <= MAX_ARGS - 1)%nat ->
  exists clean r, gives (parse_redirects buf tokens : sprog _) (clean, r) /\ words_at clean (redirects ws).1 /\ reds_at r (redirects ws).2.
Proof.
  intros Hts Hm. apply (redirects_loop_words tokens ws Hts Hm (S (length tokens)) 0 [] [] _ (mkReds None None false)); [lia|cbn; lia|constructor|].
  split_and!; [constructor..|done].
Qed.

Lemma find_pipe_words tokens ws : words_at tokens ws ->
  gives (find_pipe buf tokens : sprog _) (length ∘ fst <$> at_bar ws) /\
  forall l r, at_bar ws = Some (l, r) -> words_at (take (length l) tokens) l /\ words_at (drop (length l + 1) tokens) r.
Proof.
  intros Hts. induction Hts as [|t w tokens ws Ht Hts IH]; cbn [find_pipe at_bar]; [split; [apply gives_ret|done]|].
  assert (Hb : gives (cstr_eq buf t (bs "|") : sprog bool) (bool_decide (w = bs "|"))) by (apply gives_cstr_eq; [done|by apply (bool_decide_unpack _)]).
  destruct IH as [IH1 IH2]. destruct (bool_decide (w = bs "|")).
  - split; [eapply gives_bind; [exact Hb|apply gives_ret]|]. intros l r [= <- <-]. split; [constructor|]. cbn. by rewrite drop_0.
  - destruct (at_bar ws) as [[l0 r0]|]; cbn [mbind option_bind fst snd fmap option_fmap] in *.
    + split; [eapply gives_bind; [exact Hb|]; eapply gives_bind; [exact IH1|]; apply gives_ret|]. intros l r [= <- <-].
      destruct (IH2 l0 r0 eq_refl) as [H1 H2]. split; [cbn [length take firstn]; by constructor|exact H2].
    + split; [eapply gives_bind; [exact Hb|]; eapply gives_bind; [exact IH1|]; apply gives_ret|done].
Qed.

Lemma words_at_cstr ps ws : words_at ps ws -> cstr buf <$> ps = ws.
Proof. intros H. induction H as [|p w ps ws Hw _ IH]; [done|]. cbn. by rewrite (cstr_word _ _ Hw), IH. Qed.

Lemma apply_redirects_words r a : reds_at r a -> apply_redirects buf r ≈ (run_reds a : sprog unit).
Proof.
  intros (R1 & R2 & R3) s. unfold apply_redirects, run_reds. rewrite R3.
  destruct R1 as [p w Hw|]; [rewrite (cstr_word _ _ Hw)|]; destruct R2 as [p' w' Hw'|]; try rewrite (cstr_word _ _ Hw'); done.
Qed.

Lemma exec_command_words {A} argv ws r a : words_at argv ws -> ws <> [] -> reds_at r a -> exec_command buf argv r ≈ (exec_words ws a : sprog A).
Proof.
  intros Hw Hne Hr. unfold exec_command, exec_words. rewrite (apply_redirects_words _ _ Hr), (words_at_cstr _ _ Hw).
  destruct Hw as [|p w argv ws Hp Hw]; [done|]. f_equiv. intros _. rewrite (peq_gives _ _ p) by done.
  rewrite (peq_gives _ _ (bool_decide (x2f ∈ w))) by (by apply gives_has_slash). cbn [head default]. unfold program_path.
  assert (Hpath : gives (if bool_decide (x2f ∈ w) then pret (cstr buf p) else build_bin_path 256 buf p : sprog _)
    (if bool_decide (x2f ∈ w) then w else bs "/bin/" ++ take 250 w)).
  { case_bool_decide; [rewrite (cstr_word _ _ Hp); apply gives_ret|]. eapply gives_bind; [by apply gives_copy_cmd|]. apply gives_ret. }
  by rewrite (peq_gives _ _ _ Hpath).
Qed.

Lemma run_pipeline_words la lw lr lra ra rw rr rra :
  words_at la lw -> lw <> [] -> reds_at lr lra -> words_at ra rw -> rw <> [] -> reds_at rr rra ->
  run_pipeline buf la lr ra rr ≈ (run_pipe lw lra rw rra : sprog unit).
Proof.
  intros Hl Hl0 Hlr Hr Hr0 Hrr. unfold run_pipeline, run_pipe. f_equiv. intros a. destruct (ret a <? 0); [done|]. destruct (fds a) as [rfd wfd].
  f_equiv. intros lpid. destruct (lpid =? 0) eqn:E0; [do 3 (f_equiv; intros _); by apply exec_command_words|].
  destruct (lpid <? 0) eqn:E1; [done|]. f_equiv. intros rpid. destruct (rpid =? 0); [do 3 (f_equiv; intros _); by apply exec_command_words|].
  zbool. by rewrite (proj2 (Z.ltb_lt 0 lpid)) by lia.
Qed.

Lemma words_at_nil_inv ps ws : words_at ps ws -> (length ps =? 0)%nat = bool_decide (ws = []).
Proof. intros H. destruct H; [done|]. by rewrite bool_decide_false. Qed.

(** What is left without a bar. *)
Lemma run_simple argv ws : words_at argv ws -> (length argv <= MAX_ARGS - 1)%nat -> at_bar ws = None ->
  run_words buf argv ≈ (run_command (simple_command ws) : sprog unit).
Proof.
  intros Hw Hm Hb. destruct (find_pipe_words _ _ Hw) as [Hp _]. rewrite Hb in Hp. unfold run_words. rewrite (peq_gives _ _ _ Hp). cbn [fmap option_fmap option_map].
  destruct (parse_redirects_words _ _ Hw Hm) as (clean & r & Hg & Hc & Hr). rewrite (peq_gives _ _ _ Hg). cbn beta iota.
  unfold simple_command. destruct (redirects ws) as [cws a]. cbn [fst snd] in Hc, Hr. rewrite (words_at_nil_inv _ _ Hc).
  destruct Hc as [|p cmd clean args Hcmd Hargs]; [done|]. rewrite bool_decide_false by done. rewrite (peq_gives _ _ p) by done.
  assert (Heq : forall e, e ∈ [bs "exit"; bs "cd"; bs "pwd"] -> gives (cstr_eq buf p e : sprog bool) (bool_decide (cmd = e))).
  { intros e He. apply gives_cstr_eq; [done|]. rewrite !elem_of_cons, elem_of_nil in He. destruct He as [->|[->|[->|[]]]]; by apply (bool_decide_unpack _). }
  rewrite (peq_gives _ _ (bool_decide (cmd = bs "exit"))) by (apply Heq; set_solver). case_bool_decide as He1.
  { destruct Hargs as [|q arg clean args Hq Hargs]; cbn [length Nat.ltb Nat.leb].
    - by rewrite (peq_gives _ _ 0%Z) by done.
    - assert (Hn : gives (let! p0 := at_ (p :: q :: clean) 1 in atoi buf p0 : sprog Z) (leading_number 0 arg)).
      { eapply gives_bind; [by apply gives_at|]. by apply gives_atoi. }
      by rewrite (peq_gives _ _ _ Hn). }
  rewrite (peq_gives _ _ (bool_decide (cmd = bs "cd"))) by (apply Heq; set_solver). case_bool_decide as He2.
  { destruct Hargs as [|q arg clean args Hq Hargs]; cbn [length Nat.ltb Nat.leb].
    - by rewrite (peq_gives _ _ (bs "/")) by done.
    - assert (Hn : gives (let! p0 := at_ (p :: q :: clean) 1 in pret (cstr buf p0) : sprog (list byte)) arg).
      { eapply gives_bind; [by apply gives_at|]. rewrite (cstr_word _ _ Hq). apply gives_ret. }
      by rewrite (peq_gives _ _ _ Hn). }
  rewrite (peq_gives _ _ (bool_decide (cmd = bs "pwd"))) by (apply Heq; set_solver). case_bool_decide as He3; [done|].
  cbn [run_command]. f_equiv. intros pid. destruct (pid =? 0); [|done]. apply exec_command_words; [by constructor|done|done].
Qed.

Lemma run_words_command argv ws : words_at argv ws -> (length argv <= MAX_ARGS - 1)%nat ->
  run_words buf argv ≈ (run_command (command ws) : sprog unit).
Proof.
  intros Hw Hm. destruct (find_pipe_words _ _ Hw) as [Hp Hlr]. unfold command. destruct (at_bar ws) as [[l r]|] eqn:Eb; [|by apply run_simple].
  destruct (Hlr l r eq_refl) as [Hl Hr]. unfold run_words. rewrite (peq_gives _ _ _ Hp). cbn [fmap option_fmap option_map compose fst].
  destruct (parse_redirects_words _ _ Hl) as (lc & lr & Hgl & Hlc & Hlr'); [rewrite length_take; lia|]. rewrite (peq_gives _ _ _ Hgl).
  destruct (parse_redirects_words _ _ Hr) as (rc & rr & Hgr & Hrc & Hrr'); [rewrite length_drop; lia|]. rewrite (peq_gives _ _ _ Hgr).
  cbn [fst snd]. rewrite (words_at_nil_inv _ _ Hlc), (words_at_nil_inv _ _ Hrc).
  destruct (redirects l) as [[|lw lws] la]; cbn [fst snd] in *; [done|]. rewrite bool_decide_false by done. cbn [orb].
  destruct (redirects r) as [[|rw rws] ra]; cbn [fst snd] in *; [done|]. rewrite bool_decide_false by done. by apply run_pipeline_words.
Qed.
End Refine.

(** ** The loop *)

Section Session.
Context {K : Type} {SI : Sys K}.
#[local] Abbreviation sprog := (prog K Halt).

(** One turn, without a buffer: the prompt, a line, the command it stands for. *)
Definition prompt_and_run : sprog unit :=
  print_prompt ;;!
  let! a := sys (Read 0 255) in
  if ret a <=? 0 then sys_exit 0 else run_command (command (take (MAX_ARGS - 1) (fields blanks (data a)))).
Fixpoint session (n : nat) : sprog unit := match n with O => pret tt | S n' => prompt_and_run ;;! session n' end.

(** [read] gives as many bytes as it says, no more than it was asked for, and a
    line has no zero byte. *)
Definition reads_lines : Prop := forall k a k', sys_call (Read 0 255) k = (Some a, k') -> 0 < ret a ->
  ret a <= 255 /\ length (data a) = Z.to_nat (ret a) /\ x00 ∉ data a.

(** The buffer, beside what the loop does without it. *)
Definition with_line (m : sprog (list byte)) (m' : sprog unit) : Prop :=
  forall k, (let! _ := m in pret tt) k = m' k /\ forall l k1, m k = (Ret l, k1) -> length l = 256%nat.

Lemma with_line_bind {A} (m : sprog A) f g :
  (forall k a k1, m k = (Ret a, k1) -> with_line (f a) (g a)) -> with_line (pbind m f) (pbind m g).
Proof. intros H k. specialize (H k). unfold with_line, pbind in *. destruct (m k) as [[a|e| |] k1]; [by apply (H a k1)|done..]. Qed.

Lemma with_line_seq f (g : list byte -> sprog (list byte)) f' g' :
  with_line f f' -> (forall l, length l = 256%nat -> with_line (g l) g') -> with_line (pbind f g) (f' ;;! g').
Proof.
  intros Hf Hg k. destruct (Hf k) as [H1 H2]. unfold with_line, pbind in *. destruct (f k) as [[l|e| |] k1]; rewrite <- H1; [|done..].
  by apply Hg, (H2 l k1).
Qed.

Lemma with_line_gives {A} (m : sprog A) f a g : gives m a -> with_line (f a) g -> with_line (pbind m f) g.
Proof. intros Hm Hf k. specialize (Hf k). unfold pbind in *. by rewrite (Hm k). Qed.

Lemma with_line_ret l m (m' : sprog unit) : length l = 256%nat -> m ≈ m' -> with_line (m ;;! pret l) m'.
Proof. intros Hl Hm k. rewrite <- (Hm k). unfold pbind. by destruct (m k) as [[[]|e| |] k1]; (split; [|by intros ? ? [= <- <-]]). Qed.

Lemma turn_with_line line : reads_lines -> length line = 256%nat -> with_line (turn line) prompt_and_run.
Proof.
  intros HR Hlen. unfold turn, prompt_and_run. apply with_line_bind. intros _ _ _ _. apply with_line_bind. intros k a k1 Ha.
  destruct (ret a <=? 0) eqn:E.
  { intros k2. unfold sys_exit, pbind, sys. by destruct (sys_call (Exit 0) k2) as [[]]. }
  zbool. destruct (HR k a k1) as (Hr & Hd & Hz); [|lia|].
  { unfold sys in Ha. destruct (sys_call (Read 0 255) k) as [[a'|] k']; by simplify_eq. }
  cbv zeta. rewrite <- Hd, firstn_all. set (n := length (data a)). assert (Hl : length (data a ++ drop n line) = 256%nat) by (rewrite length_app, length_drop; lia).
  assert (Ht : take n (data a ++ drop n line) = data a) by (apply take_app_length).
  destruct (tokenize_words (K:=K) (data a ++ drop n line) n) as (buf' & argv & Hg & Hlb & Hw); [lia|by rewrite Ht|]. rewrite Ht in Hw.
  apply (with_line_gives _ _ _ _ Hg). cbn beta iota. set (ws := take (MAX_ARGS - 1) _) in *.
  assert (HM : (length argv <= MAX_ARGS - 1)%nat) by (rewrite (Forall2_length _ _ _ Hw); subst ws; rewrite length_take; lia).
  destruct Hw; cbn [length Nat.eqb]; [|apply with_line_ret; [congruence|by apply run_words_command; [constructor|]]].
  intros k2. split; [done|]. intros l k3 [= <- <-]. congruence.
Qed.

Lemma turns_with_line n : forall line, reads_lines -> length line = 256%nat -> with_line (turns n line) (session n).
Proof.
  induction n as [|n IH]; intros line HR Hl; cbn [turns session].
  - intros k. split; [done|]. by intros l k1 [= <- <-].
  - apply with_line_seq; [by apply turn_with_line|]. intros l Hl'. by apply IH.
Qed.
End Session.
