(* ===== verification/ShellPipe.v ===== *)
(** * The shell: descriptors

    What the shell's pipelines and redirections do to its table of descriptors,
    against a kernel whose calls change that table the way [syscall/files.rs] does.
    Each process of a pipeline is a run of [run_pipeline] of its own, from the
    fork's answer on. *)

From stdpp Require Import base numbers list gmap.
From Stdlib Require Import ZArith Lia.
From S2P Require Import Prelude Uaccess Mem LibcStr LibcSpec Shell ShellTheorems.
#[local] Open Scope Z_scope.
#[local] Open Scope kernel_scope.

(** What a descriptor stands for. *)
Inductive End : Type := ReadEnd (p : nat) | WriteEnd (p : nat) | Other (n : nat).

Abbreviation never := (fun _ _ => False).

(** The table of the running process, and the pipe the next [pipe] makes. *)
Class FdKernel (K : Type) {SI : Sys K} : Type := { table : K -> gmap Z End; next_pipe : K -> nat }.

Class FdKernelLaws (K : Type) {SI : Sys K} {FK : FdKernel K} : Prop := {
  fd_pipe k : wp (sys Pipe) (fun a k' => if ret a <? 0 then table k' = table k else
    (fds a).1 <> (fds a).2 /\ table k !! (fds a).1 = None /\ table k !! (fds a).2 = None /\
    table k' = <[(fds a).1 := ReadEnd (next_pipe k)]> (<[(fds a).2 := WriteEnd (next_pipe k)]> (table k))) never k;
  fd_close fd k : wp (sys (Close fd)) (fun _ k' => table k' = delete fd (table k)) never k;
  fd_dup2 old new e k : table k !! old = Some e -> wp (sys (Dup2 old new)) (fun _ k' => table k' = <[new := e]> (table k)) never k;
  fd_open path fl k : wp (sys (Open path fl)) (fun a k' => if ret a <? 0 then table k' = table k else
    table k !! ret a = None /\ exists n, table k' = <[ret a := Other n]> (table k)) never k;
  fd_fork k : wp (sys Fork) (fun _ k' => table k' = table k) never k;
  fd_write fd s k : wp (sys (Write fd s)) (fun _ k' => table k' = table k) never k;
  fd_wait pid k : wp (sys (Wait4 pid)) (fun _ k' => table k' = table k) never k;
  fd_execve path argv k : wp (sys (Execve path argv)) (fun a k' => table k' = table k) (fun e k' => e = Ended (Execve path argv) /\ table k' = table k) k;
  fd_exit code k : wp (sys (Exit code)) never (fun e _ => e = Ended (Exit code)) k }.

Section Pipe.
Context {K : Type} {SI : Sys K} {FK : FdKernel K} {FL : FdKernelLaws K}.
#[local] Abbreviation sprog := (prog K Halt).

(** The rules of the calls, for the wrappers the shell makes them with. *)
Lemma wp_sc c Q X k : wp (sys c) (fun a => Q (ret a)) X k -> wp (sc c) Q X k.
Proof. intros H. apply wp_bind. eapply wp_mono; [exact H| |by intros]. intros a k' HQ. by apply wp_ret. Qed.

Lemma wp_do c Q X k : wp (sys c) (fun _ => Q tt) X k -> wp (do_ c) Q X k.
Proof. intros H. apply wp_bind, wp_sc. eapply wp_mono; [exact H| |by intros]. intros a k' HQ. by apply wp_ret. Qed.

Lemma wp_same c (P : Answer -> gmap Z End -> Prop) Q X k :
  wp (sys c) (fun a k' => P a (table k')) never k -> (forall a k', P a (table k') -> Q tt k') -> wp (do_ c) Q X k.
Proof. intros H HQ. apply wp_do. eapply wp_mono; [exact H| |by intros]. intros a k'. apply HQ. Qed.

Lemma wp_close fd Q X k : (forall k', table k' = delete fd (table k) -> Q tt k') -> wp (do_ (Close fd)) Q X k.
Proof. intros HQ. apply (wp_same _ (fun _ t => t = _) _ _ _ (fd_close _ _)). auto. Qed.

Lemma wp_dup2 old new e Q X k :
  table k !! old = Some e -> (forall k', table k' = <[new := e]> (table k) -> Q tt k') -> wp (do_ (Dup2 old new)) Q X k.
Proof. intros He HQ. apply (wp_same _ (fun _ t => t = _) _ _ _ (fd_dup2 _ _ _ _ He)). auto. Qed.

Lemma wp_say s Q X k : (forall k', table k' = table k -> Q tt k') -> wp (write_str s) Q X k.
Proof. intros HQ. apply (wp_same _ (fun _ t => t = _) _ _ _ (fd_write _ _ _)). auto. Qed.

Lemma wp_wait pid Q X k : (forall k', table k' = table k -> Q tt k') -> wp (do_ (Wait4 pid)) Q X k.
Proof. intros HQ. apply (wp_same _ (fun _ t => t = _) _ _ _ (fd_wait _ _)). auto. Qed.

Lemma wp_fork Q X k : (forall r k', table k' = table k -> Q r k') -> wp (sc Fork) Q X k.
Proof. intros HQ. apply wp_sc. eapply wp_mono; [apply fd_fork| |by intros]. intros a k'. apply HQ. Qed.

Lemma wp_leave {A} code (Q : A -> K -> Prop) (X : Halt -> K -> Prop) k : (forall k', X (Ended (Exit code)) k') -> wp (sys_exit code) Q X k.
Proof. intros HX. apply wp_bind. eapply wp_mono; [apply fd_exit|by intros|]. intros e k' ->. apply HX. Qed.

(** A file put at [target], and its first descriptor closed again. *)
Lemma wp_redirect path fl target msg Q X k :
  is_Some (table k !! target) ->
  (forall k', (forall fd, fd <> target -> table k' !! fd = table k !! fd) -> is_Some (table k' !! target) -> Q tt k') ->
  (forall k', X (Ended (Exit 1)) k') ->
  wp (let! fd := sc (Open path fl) in
      if fd <? 0 then write_str msg ;;! sys_exit 1 else do_ (Dup2 fd target) ;;! do_ (Close fd) : sprog unit) Q X k.
Proof.
  intros Ht HQ HX. apply wp_bind, wp_sc. eapply wp_mono; [apply fd_open| |by intros]. intros a k1; cbv beta; destruct (ret a <? 0); intros Ha.
  { apply wp_bind, wp_say. intros k2 _. by apply wp_leave. }
  destruct Ha as (Hn & n & Ha). apply wp_bind, (wp_dup2 _ _ (Other n)); [rewrite Ha; apply lookup_insert_eq|]. intros k2 H2.
  assert (ret a <> target) by (intros Hx; rewrite <- Hx, Hn in Ht; by destruct Ht). apply wp_close. intros k3 H3. apply HQ.
  - intros fd Hfd. rewrite H3, H2, Ha. destruct (decide (fd = ret a)) as [->|]; [by rewrite lookup_delete_eq|].
    by rewrite lookup_delete_ne, !lookup_insert_ne.
  - rewrite H3, H2, lookup_delete_ne, lookup_insert_eq by done. done.
Qed.

(** The table the program starts with: what it was, but for the redirected ones. *)
Definition redirected_from (t : gmap Z End) (r : Reds) (t' : gmap Z End) : Prop :=
  forall fd, (fd = 0 -> r_in r = None) -> (fd = 1 -> r_out r = None) -> t' !! fd = t !! fd.

Definition execs (t : gmap Z End) (argv : list (list byte)) (r : Reds) (e : Halt) (k : K) : Prop :=
  e = Ended (Exit 1) \/ e = Ended (Exit 127) \/
  e = Ended (Execve (program_path (default [] (head argv))) argv) /\ redirected_from t r (table k).

Lemma wp_run_reds r Q (X : Halt -> K -> Prop) k :
  is_Some (table k !! 0) -> is_Some (table k !! 1) ->
  (forall k', redirected_from (table k) r (table k') -> Q tt k') -> (forall k', X (Ended (Exit 1)) k') -> wp (run_reds r) Q X k.
Proof.
  intros H0 H1 HQ HX. unfold run_reds. apply wp_bind.
  assert (Hout : forall k1, is_Some (table k1 !! 1) -> (forall fd, (fd = 0 -> r_in r = None) -> table k1 !! fd = table k !! fd) ->
    wp match r_out r with
       | Some path => let! fd := sc (Open path (Z.lor (Z.lor O_WRONLY O_CREAT) (if r_append r then O_APPEND else O_TRUNC))) in
           if fd <? 0 then write_str (bs "ferros: cannot open output file" ++ [x0a]) ;;! sys_exit 1 else do_ (Dup2 fd 1) ;;! do_ (Close fd)
       | None => pret tt
       end Q X k1).
  { intros k1 H1' Hk. destruct (r_out r) as [path|] eqn:Er.
    - apply wp_redirect; [done| |done]. intros k2 Hs _. apply HQ. intros fd F0 F1. rewrite Hs; [by apply Hk|]. intros ->. by rewrite Er in F1; specialize (F1 eq_refl).
    - apply wp_ret, HQ. intros fd F0 _. by apply Hk. }
  destruct (r_in r) as [path|] eqn:Er.
  - apply wp_redirect; [done| |done]. intros k1 Hs _. apply Hout; [by rewrite Hs|]. intros fd F0. apply Hs. intros ->. by specialize (F0 eq_refl).
  - apply wp_ret, Hout; [done|]. done.
Qed.

Lemma wp_exec_words {A} argv r (Q : A -> K -> Prop) k :
  is_Some (table k !! 0) -> is_Some (table k !! 1) -> wp (exec_words argv r) Q (execs (table k) argv r) k.
Proof.
  intros H0 H1. apply wp_bind, wp_run_reds; [done..| |by left]. intros k1 Hk. apply wp_bind, wp_do.
  eapply wp_mono; [apply fd_execve| |].
  - intros a k2 H2. apply wp_bind, wp_say. intros k3 _. apply wp_leave. intros k4. by right; left.
  - intros e k2 [-> H2]. right; right. by rewrite H2.
Qed.

Lemma pbind_assoc {A B C} (m : sprog A) (f : A -> sprog B) (g : B -> sprog C) : pbind (pbind m f) g ≈ pbind m (fun a => pbind (f a) g).
Proof. intros k. unfold pbind. by destruct (m k) as [[]]. Qed.

Lemma wp_peq {A} (m m' : sprog A) Q X k : m' ≈ m -> wp m' Q X k -> wp m Q X k.
Proof. intros H. unfold wp. by rewrite (H k). Qed.

(** A child's end of the pipe, put at [target] and both descriptors closed. *)
Lemma wp_child {A} argv r rfd wfd src target e (t : gmap Z End) (Q : A -> K -> Prop) k :
  is_Some (t !! 0) -> is_Some (t !! 1) -> t !! rfd = None -> t !! wfd = None -> target = 0 \/ target = 1 -> src = rfd \/ src = wfd ->
  table k !! src = Some e -> (forall fd, fd <> rfd -> fd <> wfd -> table k !! fd = t !! fd) ->
  wp (do_ (Dup2 src target) ;;! do_ (Close rfd) ;;! do_ (Close wfd) ;;! exec_words argv r) Q (execs (<[target := e]> t) argv r) k.
Proof.
  intros H0 H1 Hr Hw Ht Hs Hk Hsame. assert (target <> rfd /\ target <> wfd) as [Hnr Hnw].
  { destruct H0 as [x H0], H1 as [y H1]. destruct Ht as [-> | ->]; split; intros <-; congruence. }
  apply wp_bind, (wp_dup2 _ _ e); [done|]. intros k1 H1'. apply wp_bind, wp_close. intros k2 H2. apply wp_bind, wp_close. intros k3 H3.
  assert (Hk3 : table k3 = <[target := e]> t).
  { apply map_eq. intros fd. rewrite H3, H2, H1'. destruct (decide (fd = wfd)) as [->|]; [by rewrite lookup_delete_eq, lookup_insert_ne|].
    rewrite lookup_delete_ne by done. destruct (decide (fd = rfd)) as [->|]; [by rewrite lookup_delete_eq, lookup_insert_ne|].
    rewrite lookup_delete_ne by done. destruct (decide (fd = target)) as [->|]; [by rewrite !lookup_insert_eq|]. rewrite !lookup_insert_ne by done. auto. }
  rewrite <- Hk3. apply wp_exec_words; rewrite Hk3; apply lookup_insert_is_Some'; by right.
Qed.

(** Both descriptors closed again. *)
Lemma wp_drop_both rfd wfd (t : gmap Z End) Q X k :
  t !! rfd = None -> t !! wfd = None -> (forall fd, fd <> rfd -> fd <> wfd -> table k !! fd = t !! fd) ->
  (forall k', table k' = t -> Q tt k') -> wp (do_ (Close rfd) ;;! do_ (Close wfd)) Q X k.
Proof.
  intros Hr Hw Hsame HQ. apply wp_bind, wp_close. intros k1 H1. apply wp_close. intros k2 H2. apply HQ, map_eq. intros fd. rewrite H2, H1.
  destruct (decide (fd = wfd)) as [->|]; [by rewrite lookup_delete_eq|]. rewrite lookup_delete_ne by done.
  destruct (decide (fd = rfd)) as [->|]; [by rewrite lookup_delete_eq|]. rewrite lookup_delete_ne by done. auto.
Qed.

Lemma wp_run_pipe l lr r rr k :
  is_Some (table k !! 0) -> is_Some (table k !! 1) ->
  wp (run_pipe l lr r rr) (fun _ k' => table k' = table k)
    (fun e k' => execs (<[1 := WriteEnd (next_pipe k)]> (table k)) l lr e k' \/ execs (<[0 := ReadEnd (next_pipe k)]> (table k)) r rr e k') k.
Proof.
  intros H0 H1. apply wp_bind. eapply wp_mono; [apply fd_pipe| |by intros]. intros a k1; cbv beta; destruct (ret a <? 0); intros Ha; [apply wp_say; congruence|].
  destruct (fds a) as [rfd wfd]. cbn [fst snd] in Ha. destruct Ha as (Hne & Hr & Hw & H1').
  assert (Hsame : forall k2, table k2 = table k1 -> forall fd, fd <> rfd -> fd <> wfd -> table k2 !! fd = table k !! fd).
  { intros k2 H2 fd F1 F2. by rewrite H2, H1', !lookup_insert_ne. }
  apply wp_bind, wp_fork. intros lpid k2 H2. destruct (lpid =? 0).
  { eapply wp_mono; [eapply (wp_child l lr rfd wfd wfd 1)|intros ? ? H; exact H|intros; by left]; auto. by rewrite H2, H1', lookup_insert_ne, lookup_insert_eq. }
  destruct (lpid <? 0).
  { apply wp_bind, wp_say. intros k3 H3. eapply wp_drop_both; [done..|apply Hsame; congruence|done]. }
  apply wp_bind, wp_fork. intros rpid k3 H3. destruct (rpid =? 0).
  { eapply wp_mono; [eapply (wp_child r rr rfd wfd rfd 0)|intros ? ? H; exact H|intros; by right]; auto.
    - by rewrite H3, H2, H1', lookup_insert_eq.
    - apply Hsame. congruence. }
  eapply wp_peq; [apply pbind_assoc|]. apply wp_bind. eapply wp_drop_both; [done..|apply Hsame; congruence|]. intros k4 H4. apply wp_bind, wp_wait. intros k5 H5.
  destruct (0 <? rpid); [apply wp_wait; congruence|apply wp_ret; congruence].
Qed.
End Pipe.

(** ** A kernel

    Lines to read, the answers of [fork], the table; a descriptor is the lowest
    free one below 16. *)

Record Mini : Type := mkMini { m_lines : list (list byte); m_forks : list Z; m_fds : gmap Z End; m_pipe : nat }.

Definition lowest (t : gmap Z End) : option Z := head (filter (fun fd => t !! fd = None) (seqZ 0 16)).
Definition plain (r : Z) : option Answer := Some (mkAnswer r [] (0, 0)).
Definition mini_fds (t : gmap Z End) (k : Mini) : Mini := mkMini (m_lines k) (m_forks k) t (m_pipe k).

#[export] Instance Mini_Sys : Sys Mini := {
  sys_call c k :=
    let t := m_fds k in
    match c with
    | Read _ n =>
        match m_lines k with
        | l :: ls =>
            let l := take (Z.to_nat n) (filter (fun c => c <> x00) l) in
            (Some (mkAnswer (Z.of_nat (length l)) l (0, 0)), mkMini ls (m_forks k) t (m_pipe k))
        | [] => (plain 0, k)
        end
    | Write _ s => (plain (Z.of_nat (length s)), k)
    | Open _ _ => match lowest t with Some fd => (plain fd, mini_fds (<[fd := Other 0]> t) k) | None => (plain (-24), k) end
    | Close fd => (plain 0, mini_fds (delete fd t) k)
    | Pipe =>
        match lowest t with
        | Some r =>
            let t1 := <[r := ReadEnd (m_pipe k)]> t in
            match lowest t1 with
            | Some w => (Some (mkAnswer 0 [] (r, w)), mkMini (m_lines k) (m_forks k) (<[r := ReadEnd (m_pipe k)]> (<[w := WriteEnd (m_pipe k)]> t)) (S (m_pipe k)))
            | None => (plain (-24), k)
            end
        | None => (plain (-24), k)
        end
    | Dup2 old new => match t !! old with Some e => (plain new, mini_fds (<[new := e]> t) k) | None => (plain (-9), k) end
    | Fork => (plain (default (-11) (head (m_forks k))), mkMini (m_lines k) (tail (m_forks k)) t (m_pipe k))
    | Execve _ _ | Exit _ => (None, k)
    | Wait4 pid => (plain pid, k)
    | Getcwd _ => (Some (mkAnswer 2 [x2f; x00] (0, 0)), k)
    | Chdir _ => (plain 0, k)
    end }.

#[export] Instance Mini_Fd : FdKernel Mini := { table := m_fds; next_pipe := m_pipe }.

Lemma lowest_free t fd : lowest t = Some fd -> t !! fd = None /\ 0 <= fd.
Proof.
  unfold lowest. intros H. apply head_Some_elem_of in H. apply list_elem_of_filter in H as [H1 H2]. apply elem_of_seqZ in H2. split; [done|lia].
Qed.

#[export] Instance Mini_FdLaws : FdKernelLaws Mini.
Proof.
  split; intros; unfold wp, sys; cbn [sys_call Mini_Sys table Mini_Fd next_pipe]; try done.
  - destruct (lowest (m_fds k)) as [r|] eqn:Er; [|done]. apply lowest_free in Er as [Er Hr].
    destruct (lowest (<[r := _]> _)) as [w|] eqn:Ew; [|done]. apply lowest_free in Ew as [Ew Hw]. cbn [ret fds fst snd m_fds Z.ltb Z.compare].
    assert (r <> w) by (intros ->; by rewrite lookup_insert_eq in Ew). rewrite lookup_insert_ne in Ew by done. done.
  - change (m_fds k !! old = Some e) in H. by rewrite H.
  - destruct (lowest (m_fds k)) as [fd|] eqn:Er; [|done]. apply lowest_free in Er as [Er Hr]. cbn [plain ret].
    rewrite (proj2 (Z.ltb_ge fd 0)) by lia. split; [done|]. by exists 0%nat.
Qed.

Lemma Mini_reads : reads_lines (K := Mini).
Proof.
  intros k a k'. cbn [sys_call Mini_Sys]. destruct (m_lines k) as [|l ls]; intros [= <- <-]; cbn [ret data plain]; [lia|]. intros _.
  rewrite length_take. split_and!; [lia|lia|]. intros Hin. apply elem_of_take in Hin as (i & Hi & _). apply list_elem_of_lookup_2 in Hi.
  by apply list_elem_of_filter in Hi as [].
Qed.

(** ** Properties *)

(** C31. The shell's loop, from the buffer it starts with: [n] turns do exactly what a
    shell without a buffer does that prompts, reads a line, splits it at blanks,
    keeps the first 15 words and runs the command they stand for (a pipeline split
    at the first bar, redirections taken out, the builtins [exit], [cd] and [pwd],
    or a program forked and executed), with the same system calls in the same
    order.  No word is read outside the buffer. *)
Theorem shell_session {K} {SI : Sys K} n : reads_lines -> (let! _ := turns n (replicate 256 x00) in pret tt) ≈ session n.
Proof. intros HR k. by apply (proj1 (turns_with_line n _ HR (length_replicate _ _) k)). Qed.

(** Two lines: an empty one, and a pipeline with a redirection whose right side
    the run is. *)
Definition two_lines : Mini :=
  mkMini [bs "  " ++ [x0a]; bs "ls -l | /wc > out" ++ [x0a]] [7; 0] {[0 := Other 1; 1 := Other 2; 2 := Other 3]} 5.

Lemma shell_session_witness :
  fst ((let! _ := turns 2 (replicate 256 x00) in pret tt) two_lines) = Fail (Ended (Execve (bs "/wc") [bs "/wc"])).
Proof. rewrite (shell_session 2 Mini_reads). vm_compute. reflexivity. Defined.

(** C32. A pipeline: the parent's table of descriptors is afterwards what it was,
    whichever calls fail; the left program starts with the pipe's write end as its
    standard output and the right one with the read end of the same pipe as its
    standard input, unless they are redirected, and with none of the pipe's other
    descriptors. *)
Theorem pipeline_plumbing {K} {SI : Sys K} {FK : FdKernel K} {FL : FdKernelLaws K} buf la lw lr lra ra rw rr rra k :
  words_at buf la lw -> lw <> [] -> reds_at buf lr lra -> words_at buf ra rw -> rw <> [] -> reds_at buf rr rra ->
  is_Some (table k !! 0) -> is_Some (table k !! 1) ->
  wp (run_pipeline buf la lr ra rr) (fun _ k' => table k' = table k)
    (fun e k' => execs (<[1 := WriteEnd (next_pipe k)]> (table k)) lw lra e k' \/ execs (<[0 := ReadEnd (next_pipe k)]> (table k)) rw rra e k') k.
Proof.
  intros Hl Hl0 Hlr Hr Hr0 Hrr H0 H1. eapply wp_peq; [intros k'; symmetry; by apply run_pipeline_words|]. by apply wp_run_pipe.
Qed.

Lemma pipeline_plumbing_witness :
  wp (run_pipeline (bs "ls" ++ [x00] ++ bs "wc" ++ [x00]) [0%nat] (mkRedirects None None false) [3%nat] (mkRedirects None None false))
    (fun _ k' => table k' = table two_lines)
    (fun e k' => execs (<[1 := WriteEnd (next_pipe two_lines)]> (table two_lines)) [bs "ls"] (mkReds None None false) e k' \/
       execs (<[0 := ReadEnd (next_pipe two_lines)]> (table two_lines)) [bs "wc"] (mkReds None None false) e k') two_lines.
Proof.
  assert (Hw : forall p w, (forall i b, (w ++ [x00]) !! i = Some b -> (bs "ls" ++ [x00] ++ bs "wc" ++ [x00]) !! (p + i)%nat = Some b) -> x00 ∉ w ->
    words_at (bs "ls" ++ [x00] ++ bs "wc" ++ [x00]) [p] [w]) by (intros p w H1 H2; by repeat constructor).
  apply (pipeline_plumbing _ [0%nat] [bs "ls"] _ (mkReds None None false) [3%nat] [bs "wc"] _ (mkReds None None false) two_lines).
  - apply Hw; [|by apply (bool_decide_unpack _)]. intros [|[|[|i]]] b; done.
  - done.
  - split_and!; [constructor..|done].
  - apply Hw; [|by apply (bool_decide_unpack _)]. intros [|[|[|i]]] b; done.
  - done.
  - split_and!; [constructor..|done].
  - by exists (Other 1).
  - by exists (Other 2).
Defined.
